(* ===== verification/_CoqProject ===== *)
-Q . S2P
Prelude.v
Gamification.v
Text.v
Encoding.v
Uploads.v
Password.v
Json.v
Net.v
Sha256.v
Expiry.v
Db.v
Outcomes.v
RateLimit.v
Http.v
Forms.v
AuditLog.v
Matching.v
Sample.v
Tree.v
Progress.v
ShelfLife.v
Containers.v
Batches.v
Recompute.v
Weekly.v
Ledger.v
StockSteps.v
BatchSpec.v
Stocktake.v
Jobs.v
Consumption.v
Locations.v
Products.v
Ingestion.v
Shopping.v
EditSteps.v
IngestionSpec.v
ShoppingSpec.v
CategoryPath.v
ListSpec.v
Accounts.v
Storages.v
Gates.v
AuthApi.v
GatesSpec.v
AuthSpec.v
Idempotency.v
Barcodes.v
RecomputeSpec.v
WeeklySpec.v
Schedule.v
JobRunner.v
Images.v
ImagesSpec.v
Crop.v
ExpirySpec.v
MergeSpec.v
AccountsSpec.v
Household.v
StockApi.v
ScoreApi.v
Server.v
Listings.v
Reorder.v
Pictures.v
CatalogAdmin.v
Delta.v
TreeApi.v
ProductsApi.v
InventoryApi.v
BarcodeApi.v
ReviewApi.v
Notify.v
Export.v
Migrate.v
Sanitize.v
ImageSearch.v
Router.v
TreeSpec.v
DeltaSpec.v
