(* ===== verification/Prelude.v ===== *)
(** * Verification of the Inventory household-inventory server

    The server keeps households' stock: storages with their members, trees of
    locations and categories, products, batches of a product at a location, and a
    ledger of every change of a batch.  Photos become proposals by background jobs
    and are confirmed by people; lists are matched and resolved; dates of
    expiration follow from rules; scores follow from the ledger; clients keep a
    copy by asking for deltas.  The development models the Go code of these parts
    under src/internal, function by function and under the functions' names, and
    proves what they promise.

    ** How the program is represented

    Db.v holds the tables of src/migrations the operations touch as the record
    [DB] (rows as records, foreign keys and CHECKs as the guards of the statements
    that write them), the errors of store/errors.go as [Err], and the transaction
    monad [Tx A := World -> Res A * World]; a [World] is a database, the
    identifiers uuid.NewV7 will return, PostgreSQL's now() and Go's time.Now().
    [inTx] is store/tx.go: a failed transaction puts the database back.  A store
    function is a [Tx] of the same name that makes the same statements in the same
    order.  Integers are Z with Go's 64-bit wrap-around ([wrap64]) where a sum can
    leave the range and the 32-bit range of INT columns as a guard ([int4_ok]);
    float64 is IEEE binary64 through SpecFloat; instants are nanoseconds since the
    epoch, dates are day numbers; strings are byte strings, ASCII where case or
    spaces matter (Text.v).

    ** The parts

    - Prelude.v, Text.v, Db.v, Sample.v: integers, sums over maps and lists; Go's
      strings functions; the database and its monad, with the tactics that run
      ([tx_inv], [tx_next]) and frame ([frames], hint database [frames]) a
      transaction; a small household the witnesses run on.
    - gamification/: Gamification.v (levels, XP, Coalesce, SelectQuests, holiday
      weeks); inside transactions Progress.v
      (store/gamification.go, quests.go, achievements.go); the nightly rebuild and
      SetHolidayWeeks in Recompute.v, RecomputeSpec.v; the weekly generation of
      quests, the clean streak, health score and the storage's achievements in
      Weekly.v, WeeklySpec.v; when main.go runs these jobs in Schedule.v.
    - expiry/: Expiry.v; in the database ShelfLife.v (store/expiry.go),
      ExpirySpec.v.
    - matching/: Matching.v; the catalog in Ingestion.v.
    - store/tree.go: Tree.v, TreeSpec.v; store/locations.go, categories.go,
      tombstones.go: Locations.v, EditSteps.v; their handlers in TreeApi.v.
    - store/containers.go, batches.go: Containers.v, Batches.v; the stock
      invariant in Ledger.v, kept by every operation in StockSteps.v; exact
      effects in BatchSpec.v.
    - the handlers of batches, dates and stocktakes (httpapi/batches.go, expiry.go,
      stocktake.go): StockApi.v, over the validators of Forms.v and the dates of
      Expiry.v; products.go, barcodes.go: ProductsApi.v, BarcodeApi.v.
    - store/stocktake.go, consumption.go, ingestion.go: Stocktake.v, Consumption.v,
      Ingestion.v with their Spec files; store/products.go: Products.v, MergeSpec.v.
    - store/shoppinglists.go: Shopping.v; what a resolution leaves in
      ShoppingSpec.v, category paths in CategoryPath.v, whole lists in ListSpec.v.
    - store/barcodes.go: Barcodes.v: codes and hints, scans, the
      default allocation, the offer.
    - store/users.go, sessions.go, pairing.go: Accounts.v; storages.go: Storages.v;
      audit.go: AuditLog.v; what they change in AccountsSpec.v, on the outcomes of
      Outcomes.v; auth/password.go: Password.v over the Base64 of Encoding.v.
    - store/jobs.go: Jobs.v; jobs/runner.go: JobRunner.v,
      a step relation over processes, goroutines and requests.
    - images/: Images.v, ImagesSpec.v (strip.go, exif.go, transform.go); the pictures
      cut from a photo, without their background and in small sizes, in Crop.v
      (productimage.go, cutout.go, derive.go).
    - from a photo to a review and from a review to stock: ReviewApi.v
      (httpapi/ingest.go, consume.go, cutouts.go, jobs.go, reanalyze.go, and the
      services of ingest/ and consume/ behind them), over the transactions of
      Ingestion.v, Consumption.v and Jobs.v.
    - httpapi/: errors.go, respond.go, pagination.go: Http.v over the JSON values of
      Json.v; ratelimit.go: RateLimit.v and Net.v (addresses); middleware.go:
      Gates.v, GatesSpec.v; auth.go, account.go, devices.go, membership.go and
      auth/bootstrap.go: AuthApi.v, AuthSpec.v; idempotency.go of httpapi and of
      store: Idempotency.v (with the digest of Sha256.v).  A
      handler is a function from a request and a [Server] (the world, the limiters,
      the random bytes to come) to a reply and a server; a middleware is a function
      of the next handler.
    - httpapi/admin.go, admin_input.go: CatalogAdmin.v, with the corrections of
      the catalog; router.go, health.go and navigation.go: Router.v, every route
      NewRouter registers, in its group with its gates in front.  Which collaborators
      there are is the record [Deps]; which route a path belongs to is chi's to say
      (the class [Chi]); handlers that work on what a [Server] does not hold (files,
      the vision client, ...) are registered with the parameter [outside] for them.
    - what only reads: Listings.v (products, ledgers, the inventory page by page,
      searches by ILIKE and by similarity), Reorder.v (what to buy, the numbers of
      a storage, the CSV) with their routes in InventoryApi.v; scores in ScoreApi.v;
      store/export.go and its route in Export.v.
    - uploads/: Uploads.v, directories over a file system that maps paths to
      bytes; httpapi/upload.go, productpictures.go, productimages.go, images.go:
      Pictures.v, where the suggestion cache is the record [ImageCache] and the
      multipart reader a member of the class [Gallery].
    - imagesearch/normalize.go: Sanitize.v, on the regular expressions of Matching.v;
      safeclient.go, cache.go, providers.go, service.go and store/cachedimages.go:
      ImageSearch.v, the cache as one state of rows, files and requests with the
      resolver ([Network]), the disk and the answers ([Web]) given from outside.
    - migrate/: Migrate.v, on a directory of files and the log of the database.
    - store/notifications.go, notify/, httpapi/notifications.go: Notify.v.
      A run is a computation over the world that also tells which
      requests it posts for which storage; net/url and the HTTP client are the
      class [Transport].
    - Household.v: every store operation on the household as a command [Op] with an
      interpreter [exec] and [run]; Server.v adds those on accounts and storages
      ([Cmd], [serve]); store/delta.go and its clients on top: Delta.v, DeltaSpec.v.
    The components meet in the database: an operation of one component calls the
    unexported functions of another inside its own transaction (a resolution calls
    createProduct, createBatch, recordContribution, as ConfirmIngestion does), so
    the client's theorem uses the callee's lemma ([createBatch_good],
    [createProduct_ok], [recordTombstones_frame], ...).  The matching service asks
    the database through the class of Matching.v.

    ** What the theorems show

    - The database as a whole: after any sequence of operations, failures included,
      the references of the household and the accounts hold and stock, shelves,
      containers and ledger agree (Household.v, Server.v), an error has changed nothing,
      and a delta client misses nothing, however transactions, sweeps and requests
      interleave, as long as no sweep outruns its watermark and no deletion goes
      deeper than its tombstones reach (DeltaSpec.v).
    - Each operation: the exact rows it leaves and the requests it refuses
      (BatchSpec, Stocktake, Consumption, IngestionSpec, MergeSpec,
      ShoppingSpec, ListSpec, Barcodes, ExpirySpec, TreeSpec, RecomputeSpec,
      WeeklySpec).
    - State machines: job statuses, leases, the runner's goroutines; no job is
      lost, the runner drains, a live process keeps its jobs, a dead one's jobs
      are failed (Jobs, JobRunner).
    - Who gets in: what strangers, members, admins and devices are answered
      (GatesSpec), what a login changes, limiters included, and that its failures
      look alike (AuthSpec), how long tokens and codes live (Server), how many guesses
      a key lets through, with requests in flight between check and record
      (RateLimit), and whose address is counted (Net).
    - Routes: a stranger is answered by the frontend's files, the health report or a
      refusal, the admin area answers only admins and looks to others as if it were
      not there, and whatever requests arrive the database stays well formed (Router).
    - A digest goes out at most once a day and says what the dashboard says
      (Notify); a name in a request never leads out of its directory (Uploads).
    - What the server fetches comes from the public internet, within a budget, and
      not again once it was unusable (ImageSearch); what is left in a drawing of its
      links is inert (Sanitize).  A plan of a deploy and the check at start agree
      (Migrate).
    - A keyed write runs once however requests, the sweep and deletions of records
      interleave, for as long as its record stands (Idempotency).
    - A stripped image is what it was without the metadata segments or chunks of its
      header, turned upright by what an independent reader of the TIFF layout finds
      (ImagesSpec); a box selects pixels of the picture, a cutout keeps its colors
      (Crop).  A review that is refused has taken nothing from stock (ReviewApi).
    - Round trips and equivalences: category paths, the turning of images, the
      nightly rebuild as a function of the two ledgers.
    - Bounds and totality: byte loops over uploads never leave the slice and end,
      the streak loop ends, quantities parse without overflow.
    - Where the code does less than it says, a theorem shows it:
      [recompute_takes_quest_rewards_back], [sweep_outruns_watermark],
      [deep_delete_leaves_no_tombstone], [deep_move_makes_a_ring],
      [strip_keeps_later_metadata], [weekly_run_week], [expiring_soon_ignores_use],
      [DeleteStorage_spec], [concurrent_guesses_outrun_limiter], [passes_reassemble],
      [oversized_is_fetched_again], [translated_addresses_pass],
      [thin_box_selects_nothing_twice].

    ** Bounds and fuel

    Recursive queries stop at 64 levels in the SQL ([maxTreeDepth], 65 for
    categoryPathOf) and so do the walks here: that is the program's bound, not a
    fuel.  The cascades of the schema have none; [below] walks one step more than
    the tree has nodes, which [elem_of_below] shows to reach everything.  The byte
    loops of Images.v run with one step more than the slice has bytes and every
    iteration consumes one, so they never run out (their theorems say so); the
    streak loop runs two steps more than there are weeks on record and
    [computeStreakWeeks_spec] shows that enough; the search for the next Monday has
    eight steps and that for the next full hour two, and [next_runs_spec] shows
    that both find it.  The passes over an SVG run one step per byte
    ([replace_from_fuel]); a fetch makes at most [maxRedirects] requests because
    CheckRedirect refuses more; the eviction runs once more than there are rows, and
    [Evict_spec] shows that it ends with nothing left to drop.

    ** What is abstracted, and why

    - A transaction is atomic.  Row and advisory locks have no effect on the
      outcome of one transaction and are left out; Delta.v alone speaks of
      transactions in flight, by the time they began.
    - Rows keep instants exactly (PostgreSQL rounds to microseconds), VARCHAR
      lengths are not checked, byte strings outside ASCII keep their case.
    - A server's zone is an offset that does not change ([Time]); the driver
      returns timestamps in UTC, where the month of a stale location is read.
    - Queries whose order the SQL leaves open, and Go's map iteration, are taken
      in a fixed order where the result does not depend on it (shown for Coalesce
      and the rebuild).
    - Third-party code is a parameter or absent: similarity scores (pg_trgm) are
      an argument of the matching interface, image codecs and scaling kernels (the
      classes [Codecs] and [Pixels]), the matching of chi ([Chi], with the two laws
      [chi_documented] it documents and the theorems use), uuid parsing and argon2 members of the class [Deployment] of Http.v with the
      settings of a deployment.  A request carries what net/http and encoding/json
      find in its bytes: parameters, headers, and the JSON value or the fact that
      there is none.

    ** Not modelled

    The handlers of shopping lists and those that render static data or serve the
    small sizes of pictures; the work of a job (asking the vision model and making a
    proposal of its answer) and the vision client itself; configuration, logging, the
    running of migrations (goose), command-line administration and program entry
    (process set-up and I/O); icons (static data). *)

From Stdlib Require Export ZArith Lia Bool.
From stdpp Require Export base tactics numbers option list list_numbers gmap sets strings sorting.

#[global] Open Scope Z_scope.

(** [o == nil] *)
Definition is_nil {A} (o : option A) : bool := match o with None => true | Some _ => false end.

(** ** Go machine integers and PostgreSQL integer columns *)

(** A Go [int] (and [int64]) is a 64-bit two's complement integer: arithmetic
    on it wraps around. *)
Definition wrap64 (z : Z) : Z := (z + 2 ^ 63) mod 2 ^ 64 - 2 ^ 63.

Definition is_int64 (z : Z) : Prop := - 2 ^ 63 <= z < 2 ^ 63.

(** An [INT] column holds a 32-bit integer; a value outside is refused by the
    driver before the statement runs. *)
Definition int4_ok (z : Z) : bool := (- 2 ^ 31 <=? z) && (z <? 2 ^ 31).

Lemma wrap64_id z : is_int64 z -> wrap64 z = z.
Proof.
  unfold is_int64, wrap64. intros H.
  rewrite Z.mod_small; lia.
Qed.

Lemma wrap64_range z : is_int64 (wrap64 z).
Proof.
  unfold is_int64, wrap64.
  pose proof (Z.mod_pos_bound (z + 2 ^ 63) (2 ^ 64)). lia.
Qed.

Lemma int4_ok_spec z : int4_ok z = true <-> - 2 ^ 31 <= z < 2 ^ 31.
Proof. unfold int4_ok. rewrite andb_true_iff, Z.leb_le, Z.ltb_lt. lia. Qed.

(** ** Sums over the rows of a table *)

Section msum.
Context {K V : Type} `{Countable K}.
Implicit Types (m : gmap K V) (f g : V -> Z).

(** [SELECT sum(f)] over every row of a table. *)
Definition msum (f : V -> Z) (m : gmap K V) : Z :=
  map_fold (fun _ v acc => f v + acc) 0 m.

Lemma msum_empty f : msum f ∅ = 0.
Proof. unfold msum. apply map_fold_empty. Qed.

Lemma msum_insert_None f m i v :
  m !! i = None -> msum f (<[i:=v]> m) = f v + msum f m.
Proof.
  intros Hi. unfold msum.
  rewrite (map_fold_insert_L (fun _ v acc => f v + acc)); [done | intros; lia | done].
Qed.

Lemma msum_delete f m i v :
  m !! i = Some v -> msum f (delete i m) = msum f m - f v.
Proof.
  intros Hi.
  rewrite <- (insert_delete_id m i v) at 2 by done.
  rewrite msum_insert_None by apply lookup_delete_eq. lia.
Qed.

Lemma msum_insert_Some f m i v w :
  m !! i = Some v -> msum f (<[i:=w]> m) = msum f m - f v + f w.
Proof.
  intros Hi. rewrite <- insert_delete_eq.
  rewrite msum_insert_None by apply lookup_delete_eq.
  rewrite (msum_delete f m i v) by done. lia.
Qed.

Lemma msum_ext f g m :
  (forall i v, m !! i = Some v -> f v = g v) -> msum f m = msum g m.
Proof.
  induction m as [|i v m Hi IH] using map_ind; intros Hfg.
  - by rewrite !msum_empty.
  - rewrite !msum_insert_None by done.
    rewrite (Hfg i v) by apply lookup_insert_eq.
    rewrite IH; [done|]. intros j w Hj. apply (Hfg j).
    rewrite lookup_insert_ne by (intros ->; congruence). done.
Qed.

Lemma msum_fmap f (h : V -> V) m : msum f (h <$> m) = msum (fun v => f (h v)) m.
Proof.
  induction m as [|i v m Hi IH] using map_ind.
  - by rewrite fmap_empty, !msum_empty.
  - rewrite fmap_insert, !msum_insert_None; [by rewrite IH | done |].
    by rewrite lookup_fmap, Hi.
Qed.

Lemma msum_plus f g m : msum (fun v => f v + g v) m = msum f m + msum g m.
Proof.
  induction m as [|i v m Hi IH] using map_ind.
  - by rewrite !msum_empty.
  - rewrite !msum_insert_None by done. lia.
Qed.

Lemma msum_zero f m : (forall i v, m !! i = Some v -> f v = 0) -> msum f m = 0.
Proof.
  intros Hf. rewrite (msum_ext f (fun _ => 0)) by eauto. clear Hf.
  induction m as [|i v m Hi IH] using map_ind.
  - apply msum_empty.
  - rewrite msum_insert_None by done. lia.
Qed.

Lemma msum_nonneg f m :
  (forall i v, m !! i = Some v -> 0 <= f v) -> 0 <= msum f m.
Proof.
  induction m as [|i v m Hi IH] using map_ind; intros Hf.
  - by rewrite msum_empty.
  - rewrite msum_insert_None by done.
    assert (0 <= f v) by (apply (Hf i); apply lookup_insert_eq).
    enough (0 <= msum f m) by lia.
    apply IH. intros j w Hj. apply (Hf j).
    rewrite lookup_insert_ne by (intros ->; congruence). done.
Qed.

(** An UPDATE that leaves the summed column alone. *)
Lemma msum_imap f (g : K -> V -> V) m :
  (forall i v, m !! i = Some v -> f (g i v) = f v) -> msum f (map_imap (fun i v => Some (g i v)) m) = msum f m.
Proof.
  induction m as [|i v m Hi IH] using map_ind; intros Hf; [by rewrite map_imap_empty|].
  rewrite (map_imap_insert _ i v m). cbn. rewrite !msum_insert_None; [|done|by rewrite map_lookup_imap, Hi].
  rewrite (Hf i v) by apply lookup_insert_eq. rewrite IH; [done|]. intros j u Hj. apply Hf.
  by rewrite lookup_insert_ne by congruence.
Qed.

(** A DELETE ... WHERE: the rows that stay. *)
Lemma msum_filter f (P : V -> Prop) `{HV : forall v, Decision (P v)} `{HD : forall kv : K * V, Decision (P kv.2)} m :
  msum f (@base.filter _ _ _ (fun kv : K * V => P kv.2) HD m) = msum (fun v => if decide (P v) then f v else 0) m.
Proof.
  induction m as [|i v m Hi IH] using map_ind.
  - by rewrite map_filter_empty, !msum_empty.
  - rewrite msum_insert_None by done. destruct (decide (P v)) as [HP|HP].
    + rewrite map_filter_insert_True by done. rewrite msum_insert_None; [by rewrite IH|].
      apply map_lookup_filter_None. by left.
    + rewrite map_filter_insert_False by done. rewrite delete_id by done. lia.
Qed.
End msum.

(** A sum depends only on the summands. *)
Lemma msum_fmap_other {K V} `{Countable K} (f : V -> Z) (m : gmap K V) :
  msum f m = msum (fun z => z) (f <$> m).
Proof.
  induction m as [|i v m Hi IH] using map_ind; [by rewrite fmap_empty, !msum_empty|].
  rewrite fmap_insert, !msum_insert_None; [by rewrite IH | by rewrite lookup_fmap, Hi | done].
Qed.

(** The sum of [f] over the entries of a list. *)
Fixpoint lsum {A : Type} (f : A -> Z) (l : list A) : Z :=
  match l with
  | [] => 0
  | a :: l' => f a + lsum f l'
  end.

Lemma lsum_app {A} (f : A -> Z) l k : lsum f (l ++ k) = lsum f l + lsum f k.
Proof. induction l as [|a l IH]; cbn; [done | rewrite IH; lia]. Qed.

Lemma lsum_perm {A} (f : A -> Z) l k : l ≡ₚ k -> lsum f l = lsum f k.
Proof. induction 1; cbn; lia. Qed.

Lemma lsum_map {A B} (f : B -> Z) (g : A -> B) l : lsum f (map g l) = lsum (fun a => f (g a)) l.
Proof. induction l as [|a l IH]; cbn; [done | by rewrite IH]. Qed.

Lemma lsum_ext {A} (f g : A -> Z) l : (forall a, f a = g a) -> lsum f l = lsum g l.
Proof. intros E. induction l as [|a l IH]; cbn; [done | by rewrite IH, E]. Qed.

Lemma lsum_ext_in {A} (f g : A -> Z) l : (forall a, a ∈ l -> f a = g a) -> lsum f l = lsum g l.
Proof.
  induction l as [|a l IH]; cbn; [done|]. intros E.
  rewrite (E a) by left. rewrite IH; [done|]. intros b Hb. apply E. by right.
Qed.

Lemma lsum_filter {A} (f : A -> Z) (P : A -> Prop) `{!forall x, Decision (P x)} l :
  lsum f (base.filter P l) = lsum (fun a => if decide (P a) then f a else 0) l.
Proof.
  induction l as [|a l IH]; [done|]. rewrite filter_cons. cbn. destruct (decide (P a)); cbn; lia.
Qed.

(** A list with a repetition repeats an element at two positions. *)
Lemma not_NoDup_lookup {A} `{EqDecision A} (l : list A) :
  ~ NoDup l -> exists i j x, (i < j)%nat /\ l !! i = Some x /\ l !! j = Some x.
Proof.
  induction l as [|a l IH]; intros H; [exfalso; apply H; constructor|].
  destruct (decide (a ∈ l)) as [Hin|Hnin].
  - apply list_elem_of_lookup in Hin as [j Hj]. exists 0%nat, (S j), a. split; [lia | done].
  - destruct IH as (i & j & x & Hij & Hi & Hj); [intros Hl; apply H; by constructor|].
    exists (S i), (S j), x. split; [lia | done].
Qed.

(** ** ORDER BY id *)

(** The rows of a query result ordered by their key, an identifier. *)
Definition key_le {V : Type} (a b : Z * V) : Prop := a.1 <= b.1.

#[export] Instance key_le_dec {V} : RelDecision (@key_le V).
Proof. intros a b. unfold key_le. apply _. Defined.

#[export] Instance key_le_total {V} : Total (@key_le V).
Proof. intros a b. unfold key_le. lia. Qed.

Definition order_by_id {V : Type} (m : gmap Z V) : list (Z * V) :=
  merge_sort key_le (map_to_list m).

Lemma elem_of_order_by_id {V} (m : gmap Z V) i v : (i, v) ∈ order_by_id m <-> m !! i = Some v.
Proof.
  unfold order_by_id. rewrite (merge_sort_Permutation key_le (map_to_list m)).
  apply elem_of_map_to_list.
Qed.

Lemma NoDup_order_by_id {V} (m : gmap Z V) : NoDup (order_by_id m).*1.
Proof.
  unfold order_by_id. rewrite (merge_sort_Permutation key_le (map_to_list m)).
  apply NoDup_fst_map_to_list.
Qed.

#[export] Instance key_le_trans {V} : Transitive (@key_le V).
Proof. intros a b c. unfold key_le. lia. Qed.

Lemma StronglySorted_order_by_id {V} (m : gmap Z V) : StronglySorted key_le (order_by_id m).
Proof. apply (StronglySorted_merge_sort key_le). Qed.

Lemma StronglySorted_filter {A} (R : A -> A -> Prop) (P : A -> Prop) `{!forall x, Decision (P x)} l :
  StronglySorted R l -> StronglySorted R (base.filter P l).
Proof.
  induction 1 as [|a l Hl IH Ha]; [constructor|]. rewrite filter_cons.
  case_decide; [|done]. constructor; [done|]. rewrite Forall_forall in Ha |- *.
  intros b Hb. apply Ha. by apply list_elem_of_filter in Hb as [_ ?].
Qed.

Lemma filter_all_true {A} (P : A -> Prop) `{!forall x, Decision (P x)} (l : list A) :
  (forall a, a ∈ l -> P a) -> base.filter P l = l.
Proof.
  induction l as [|a l IH]; intros Hl; [done|]. rewrite filter_cons_True by (apply Hl; by left).
  f_equal. apply IH. intros b Hb. apply Hl. by right.
Qed.

Lemma filter_all_false {A} (P : A -> Prop) `{!forall x, Decision (P x)} (l : list A) :
  (forall a, a ∈ l -> ~ P a) -> base.filter P l = [].
Proof.
  induction l as [|a l IH]; intros Hl; [done|]. rewrite filter_cons_False by (apply Hl; by left).
  apply IH. intros b Hb. apply Hl. by right.
Qed.

Lemma StronglySorted_reverse {A} (R : A -> A -> Prop) l :
  StronglySorted R l -> StronglySorted (fun x y => R y x) (reverse l).
Proof.
  induction 1 as [|a l Hl IH Ha]; [constructor|]. rewrite reverse_cons.
  apply StronglySorted_app_2; [|done|repeat constructor].
  intros x y Hx Hy. apply list_elem_of_singleton in Hy as ->. rewrite Forall_forall in Ha.
  apply Ha. by apply elem_of_reverse.
Qed.

(** Distinct keys sort strictly. *)
Lemma order_by_id_strict {V} (m : gmap Z V) :
  StronglySorted (fun x y : Z * V => x.1 < y.1) (order_by_id m).
Proof.
  pose proof (StronglySorted_order_by_id m) as Hs. pose proof (NoDup_order_by_id m) as Hn.
  induction Hs as [|a l Hl IH Ha]; [constructor|]. cbn in Hn. apply NoDup_cons in Hn as [Hnin Hn].
  constructor; [auto|]. rewrite Forall_forall in Ha |- *. intros b Hb. specialize (Ha b Hb).
  unfold key_le in Ha. enough (a.1 ≠ b.1) by lia. intros E. apply Hnin. rewrite E.
  by apply list_elem_of_fmap_2.
Qed.

(** A WHERE clause commutes with ORDER BY id. *)
Lemma order_by_id_filter {V} (P : Z * V -> Prop) `{forall kv, Decision (P kv)} (m : gmap Z V) :
  order_by_id (base.filter P m) = base.filter P (order_by_id m).
Proof.
  apply (StronglySorted_unique_strong key_le).
  - intros [i x] [j y] H1 H2 L1 L2. unfold key_le in *. cbn in *. assert (i = j) as -> by lia.
    apply elem_of_order_by_id, map_lookup_filter_Some in H1 as [H1 _].
    apply list_elem_of_filter in H2 as [_ H2]. apply elem_of_order_by_id in H2. congruence.
  - apply StronglySorted_order_by_id.
  - apply StronglySorted_filter, StronglySorted_order_by_id.
  - apply NoDup_Permutation.
    + eapply NoDup_fmap_1, NoDup_order_by_id.
    + apply NoDup_filter. eapply NoDup_fmap_1, NoDup_order_by_id.
    + intros [i x]. rewrite elem_of_order_by_id, map_lookup_filter_Some, list_elem_of_filter, elem_of_order_by_id.
      naive_solver.
Qed.

(** ** Tactics of the development *)

(** Case analysis on the scrutinee of a [match] or [if] in a hypothesis. *)
Ltac case_in H :=
  match type of H with
  | context [match ?x with _ => _ end] => destruct x eqn:?
  end.

(** Split boolean guards into propositions [lia] can use. *)
Ltac bool_to_prop :=
  repeat match goal with
  | H : (_ && _) = true |- _ => apply andb_true_iff in H as [? ?]
  | H : (_ || _) = false |- _ => apply orb_false_iff in H as [? ?]
  | H : (_ <? _) = true |- _ => apply Z.ltb_lt in H
  | H : (_ <? _) = false |- _ => apply Z.ltb_ge in H
  | H : (_ <=? _) = true |- _ => apply Z.leb_le in H
  | H : negb _ = true |- _ => apply negb_true_iff in H
  | H : (_ <=? _) = false |- _ => apply Z.leb_gt in H
  | H : negb _ = false |- _ => apply negb_false_iff in H
  | H : (_ =? _) = true |- _ => apply Z.eqb_eq in H
  | H : (_ =? _) = false |- _ => apply Z.eqb_neq in H
  | H : bool_decide _ = true |- _ => apply bool_decide_eq_true in H
  | H : bool_decide _ = false |- _ => apply bool_decide_eq_false in H
  | H : int4_ok _ = true |- _ => apply int4_ok_spec in H
  end.

(** ** Listings read page by page *)

Section paging.
Context {A : Type} (le : A -> A -> Prop) `{forall x y, Decision (le x y)} `{!Transitive le} `{!Total le}.

(** No two rows of the listing are tied. *)
Definition untied (l : list A) : Prop := forall x y, x ∈ l -> y ∈ l -> le x y -> le y x -> x = y.

(** Selecting before or after the sort is the same. *)
Lemma merge_sort_filter (P : A -> Prop) `{forall x, Decision (P x)} l :
  untied l -> base.filter P (merge_sort le l) = merge_sort le (base.filter P l).
Proof.
  intros Hl. apply (StronglySorted_unique_strong le).
  - intros x y Hx Hy. rewrite list_elem_of_filter, merge_sort_Permutation in Hx.
    rewrite merge_sort_Permutation, list_elem_of_filter in Hy. apply Hl; tauto.
  - apply StronglySorted_filter, StronglySorted_merge_sort; apply _.
  - apply StronglySorted_merge_sort; apply _.
  - by rewrite !merge_sort_Permutation.
Qed.

(** What stands behind the last row of a page is what follows it in the order. *)
Lemma filter_behind (P : A -> Prop) `{forall x, Decision (P x)} l page rest a :
  StronglySorted le l -> NoDup l -> untied l -> l = page ++ rest -> last page = Some a ->
  (forall x, x ∈ l -> P x <-> le a x /\ x ≠ a) -> base.filter P l = rest.
Proof.
  intros Hs Hn Hu -> Hlast HP. apply last_Some in Hlast as (page' & ->).
  assert (Ha : a ∈ (page' ++ [a]) ++ rest) by set_solver.
  rewrite filter_app. rewrite (filter_all_false P), (filter_all_true P); [done | |].
  - intros x Hx. apply HP; [set_solver|]. apply StronglySorted_app in Hs as (Hpr & _). split; [apply Hpr; set_solver|].
    intros ->. apply NoDup_app in Hn as (_ & Hn & _). apply (Hn a); set_solver.
  - intros x Hx. rewrite HP by set_solver. intros [H1 Hne]. apply elem_of_app in Hx as [Hx|Hx]; [|set_solver].
    apply Hne. apply Hu; [set_solver | done | | done].
    apply StronglySorted_app in Hs as (_ & Hs & _). apply StronglySorted_app in Hs as (Hpp & _). apply Hpp; set_solver.
Qed.
End paging.
