(* ===== verification/Gamification.v ===== *)
(** * Scoring rules: internal/gamification

    The pure rules behind XP, levels, quests, achievements and holiday weeks
    (level.go, constants.go, coalesce.go, quests.go, achievements.go,
    holiday.go, health.go).  Kinds, reasons and generators are open string
    types in the source and strings here, because every switch over them has a
    default branch.  [float64] values are IEEE binary64 numbers, computed with
    the [spec_float] operations at precision 53 and exponent bound 1024.
    Instants are nanoseconds since the Unix epoch. *)

From Stdlib Require Export Floats.SpecFloat.
From S2P Require Import Prelude.

#[local] Open Scope string_scope.
#[local] Open Scope list_scope.
#[local] Open Scope Z_scope.

(** ** binary64 *)

Abbreviation float64 := spec_float (only parsing).

(** [float64(n)] for a Go integer. *)
Definition float64_of_int (n : Z) : float64 := binary_normalize 53 1024 n 0 false.

Definition f_add : float64 -> float64 -> float64 := SFadd 53 1024.
Definition f_sub : float64 -> float64 -> float64 := SFsub 53 1024.
Definition f_mul : float64 -> float64 -> float64 := SFmul 53 1024.
Definition f_div : float64 -> float64 -> float64 := SFdiv 53 1024.
Definition f_sqrt : float64 -> float64 := SFsqrt 53 1024.

(** [x > y], [x >= y] on float64: false when either side is NaN. *)
Definition f_gt (x y : float64) : bool := SFltb y x.
Definition f_ge (x y : float64) : bool := SFleb y x.

(** [int(math.Floor(x))], for the finite values the code passes. *)
Definition int_floor (x : float64) : Z :=
  match x with
  | S754_finite s m e =>
      let z := if s then Z.neg m else Z.pos m in
      if 0 <=? e then z * 2 ^ e else z / 2 ^ (- e)
  | _ => 0
  end.

(** ** Durations *)

Definition second : Z := 1000000000.
Definition minute : Z := 60 * second.
Definition hour : Z := 3600 * second.
Definition day : Z := 24 * hour.

(** ** Levels *)

Definition Level (xp : Z) : Z :=
  let xp := if xp <? 0 then 0 else xp in
  int_floor (f_sqrt (f_div (float64_of_int xp) (float64_of_int 50))) + 1.

Definition XPThresholdForLevel (level : Z) : Z :=
  let level := if level <? 1 then 1 else level in
  let step := level - 1 in
  50 * step * step.

(** ** Kinds, reasons and their XP *)

Definition ReasonPurchase := "purchase".
Definition ReasonConsumption := "consumption".
Definition ReasonAudit := "audit".
Definition ReasonVisionIngestion := "vision_ingestion".
Definition ReasonMove := "move".

Definition KindAICorrection := "ai_correction".
Definition KindMetadataFilled := "metadata_filled".
Definition KindLocationMapped := "location_mapped".
Definition KindCategoryCreated := "category_created".
Definition KindExpiryConfirmed := "expiry_confirmed".
Definition KindAmbiguityResolved := "ambiguity_resolved".

Definition XPLedgerContribution : Z := 3.
Definition XPAICorrection : Z := 5.
Definition XPAmbiguityResolved : Z := 4.
Definition XPMetadataFilled : Z := 2.
Definition XPExpiryConfirmed : Z := 2.
Definition XPLocationMapped : Z := 5.
Definition XPCategoryCreated : Z := XPMetadataFilled.

Definition scoringLedgerReasons (reason : string) : bool :=
  bool_decide (reason ∈ ["purchase"; "consumption"; "vision_ingestion"]).

(** [Some xp] for a scoring reason, [None] for the [(0, false)] answer. *)
Definition XPForLedgerReason (reason : string) : option Z :=
  if scoringLedgerReasons reason then Some XPLedgerContribution else None.

Definition XPForContribution (kind : string) : Z :=
  if String.eqb kind KindAICorrection then XPAICorrection
  else if String.eqb kind KindAmbiguityResolved then XPAmbiguityResolved
  else if String.eqb kind KindMetadataFilled then XPMetadataFilled
  else if String.eqb kind KindExpiryConfirmed then XPExpiryConfirmed
  else if String.eqb kind KindLocationMapped then XPLocationMapped
  else if String.eqb kind KindCategoryCreated then XPCategoryCreated
  else 0.

(** ** Coalescing *)

Definition ScoreWindow : Z := 2 * hour.

Record Event := mkEvent {
  ev_RefID : Z;
  ev_Kind : string;
  ev_At : Z;
  ev_XP : Z;
}.

Definition confirmActionGroup := "confirm action".

Definition coalesceGroup (kind : string) : string :=
  if String.eqb kind "vision_ingestion" || String.eqb kind KindAICorrection
  then confirmActionGroup else kind.

Fixpoint maxXP_from (highest : Z) (events : list Event) : Z :=
  match events with
  | [] => highest
  | e :: events' => maxXP_from (if ev_XP e >? highest then ev_XP e else highest) events'
  end.

Definition maxXP (events : list Event) : Z := maxXP_from 0 events.

(** [groups[k] = append(groups[k], e)] over every event. *)
Definition group_events (events : list Event) : gmap (Z * string) (list Event) :=
  foldl (fun groups e =>
    let k := (ev_RefID e, coalesceGroup (ev_Kind e)) in
    <[k := default [] (groups !! k) ++ [e]]> groups) ∅ events.

Definition at_le (a b : Event) : Prop := ev_At a <= ev_At b.
#[global] Instance at_le_dec : RelDecision at_le.
Proof. intros a b. unfold at_le. apply _. Defined.

(** The window scan over one group sorted by time: [window] holds
    [g[windowStart:i]], latest event first, and [prev] is [g[i-1].At]. *)
Fixpoint scan_windows (window : list Event) (prev : Z) (rest : list Event) : Z :=
  match rest with
  | [] => maxXP window
  | e :: rest' =>
      if ev_At e - prev >=? ScoreWindow
      then maxXP window + scan_windows [e] (ev_At e) rest'
      else scan_windows (window ++ [e]) (ev_At e) rest'
  end.

Definition score_group (g : list Event) : Z :=
  match merge_sort at_le g with
  | [] => 0
  | e :: rest => scan_windows [e] (ev_At e) rest
  end.

Definition Coalesce (events : list Event) : Z :=
  msum score_group (group_events events).

(** ** Quest generators *)

Definition GeneratorStaleLocation := "stale_location".
Definition GeneratorMissingExpiry := "missing_expiry".
Definition GeneratorUncategorized := "uncategorized".
Definition GeneratorImageless := "imageless".
Definition GeneratorUntrackedReorder := "untracked_reorder".
Definition GeneratorExpiringSoon := "expiring_soon".
Definition GeneratorConsumptionHygiene := "consumption_hygiene".
Definition GeneratorFirstMile := "first_mile".

Definition generatorOrder : list string :=
  [ GeneratorStaleLocation; GeneratorMissingExpiry; GeneratorUncategorized;
    GeneratorImageless; GeneratorUntrackedReorder; GeneratorExpiringSoon;
    GeneratorConsumptionHygiene; GeneratorFirstMile ].

Fixpoint priority_from (i : Z) (order : list string) (g : string) : Z :=
  match order with
  | [] => i
  | k :: order' => if String.eqb k g then i else priority_from (i + 1) order' g
  end.

(** Falls through to [len(generatorOrder)] for an unknown generator. *)
Definition GeneratorPriority (g : string) : Z := priority_from 0 generatorOrder g.

Definition XPForGenerator (g : string) : Z :=
  if String.eqb g GeneratorStaleLocation then 40
  else if String.eqb g GeneratorMissingExpiry then 25
  else if String.eqb g GeneratorUncategorized then 20
  else if String.eqb g GeneratorImageless then 20
  else if String.eqb g GeneratorUntrackedReorder then 20
  else if String.eqb g GeneratorExpiringSoon then 30
  else if String.eqb g GeneratorConsumptionHygiene then 15
  else if String.eqb g GeneratorFirstMile then 40
  else 0.

(** [Params] is opaque to this package, so its type is a parameter. *)
Record Candidate (P : Type) := mkCandidate {
  c_Generator : string;
  c_Fires : bool;
  c_Need : float64;
  c_TargetCount : Z;
  c_Params : P;
}.
Arguments mkCandidate {P}.
Arguments c_Generator {P}.
Arguments c_Fires {P}.
Arguments c_Need {P}.
Arguments c_TargetCount {P}.
Arguments c_Params {P}.

Section SelectQuests.
Context {P : Type}.

(** The stable sort by descending need, as an insertion from the right: a
    candidate is placed before the first one whose need it is not below. *)
Fixpoint insert_by_need (c : Candidate P) (l : list (Candidate P)) : list (Candidate P) :=
  match l with
  | [] => [c]
  | d :: l' => if f_gt (c_Need d) (c_Need c) then d :: insert_by_need c l' else c :: l
  end.

Definition sort_by_need (l : list (Candidate P)) : list (Candidate P) :=
  foldr insert_by_need [] l.

Definition SelectQuests (candidates : list (Candidate P)) : list (Candidate P) :=
  let fired := base.filter (fun c => c_Fires c = true) candidates in
  let fired := sort_by_need fired in
  if (3 <? length fired)%nat then take 3 fired else fired.
End SelectQuests.

(** ** Achievements *)

Definition AchFirstShelf := "first_shelf".
Definition AchCartographer := "cartographer".
Definition AchCurator := "curator".
Definition AchLibrarian := "librarian".
Definition AchArchivist := "archivist".
Definition AchZeroWasteWeek := "zero_waste_week".
Definition AchWellStocked := "well_stocked".
Definition AchDeepFreeze := "deep_freeze".
Definition AchSpringClean := "spring_clean".

Definition CuratorCorrections : Z := 25.
Definition CartographerTreeDepth : Z := 3.
Definition LibrarianHealthScore : float64 := float64_of_int 80.
Definition ArchivistHealthScore : float64 := float64_of_int 95.
Definition DeepFreezeProductCount : Z := 100.
Definition WellStockedDays : Z := 7.
Definition SpringCleanMinCategorized : Z := 100.

Definition steadyHandTiers : list (Z * string) :=
  [ (4, "steady_hand"); (13, "steady_hand_13"); (26, "steady_hand_26");
    (39, "steady_hand_39"); (52, "steady_hand_52") ].

Definition SteadyHandTiersReached (streakWeeks : Z) : list string :=
  map snd (base.filter (fun tier : Z * string => tier.1 <= streakWeeks) steadyHandTiers).

(** A clean-storage milestone: days, key, XP.  [YearKey y] is the generated
    key [immaculate_year_<y>]. *)
Inductive MilestoneKey :=
| FixedKey (key : string)
| YearKey (y : Z).

#[global] Instance MilestoneKey_eq_dec : EqDecision MilestoneKey.
Proof. solve_decision. Defined.

Record ImmaculateMilestone := mkMilestone { im_Key : MilestoneKey; im_XP : Z }.

Definition immaculateFixed : list (Z * string * Z) :=
  [ (90, "immaculate_90", 200); (180, "immaculate_180", 500);
    (365, "immaculate_365", 1200); (730, "immaculate_730", 3000) ].

Definition immaculateYearXP : Z := 3000.

Definition ImmaculateMilestonesReached (cleanDays : Z) : list ImmaculateMilestone :=
  let out := map (fun m : Z * string * Z => mkMilestone (FixedKey m.1.2) m.2)
                 (base.filter (fun m : Z * string * Z => m.1.1 <= cleanDays) immaculateFixed) in
  if cleanDays >? 730 then
    let extraYears := Z.quot (cleanDays - 730) 365 in
    out ++ map (fun y => mkMilestone (YearKey y) immaculateYearXP) (seqZ 1 extraYears)
  else out.

(** ** Holiday weeks *)

Definition HolidayBudgetWeeks : Z := 8.
Definition HolidayWindowWeeks : Z := 52.

(** [time.Duration] saturates at the int64 range. *)
Definition time_Sub (b a : Z) : Z := Z.max (- 2 ^ 63) (Z.min (2 ^ 63 - 1) (b - a)).

(** [Duration.Hours]: whole hours plus the remainder as a fraction. *)
Definition Hours (d : Z) : float64 :=
  f_add (float64_of_int (Z.quot d hour)) (f_div (float64_of_int (Z.rem d hour)) (float64_of_int hour)).

(** [int(x)]: truncation toward zero, for the finite values the code passes. *)
Definition int_trunc (x : float64) : Z :=
  match x with
  | S754_finite s m e =>
      let z := if 0 <=? e then Z.pos m * 2 ^ e else Z.pos m / 2 ^ (- e) in
      if s then - z else z
  | _ => 0
  end.

Definition weeksBetween (a b : Z) : Z := int_trunc (f_div (Hours (time_Sub b a)) (float64_of_int (24 * 7))).

(** The inner loop of [MaxWeeksInWindow]: drop from the front of the window
    (oldest first) while its oldest week is out of reach of [right]. *)
Fixpoint advance_left (window : list Z) (right : Z) : list Z :=
  match window with
  | [] => []
  | l :: window' =>
      if weeksBetween l right >=? HolidayWindowWeeks then advance_left window' right else window
  end.

Fixpoint scan_weeks (window : list Z) (maxCount : Z) (rest : list Z) : Z :=
  match rest with
  | [] => maxCount
  | r :: rest' =>
      let window := advance_left (window ++ [r]) r in
      let count := Z.of_nat (length window) in
      scan_weeks window (if count >? maxCount then count else maxCount) rest'
  end.

Definition MaxWeeksInWindow (weeks : list Z) : Z :=
  scan_weeks [] 0 (merge_sort Z.le weeks).

(** ** Health score *)

Definition HealthScore (categorized imaged minStockTracked expiryTracked recentlyActive : float64) : float64 :=
  f_div (f_add (f_add (f_add (f_add categorized imaged) minStockTracked) expiryTracked) recentlyActive)
        (float64_of_int 5).

(** * What the scoring rules promise

    Coalesce does not depend on the order its events come in (the source ranges
    over a map and sorts unstably) and pays each burst its best event once;
    MaxWeeksInWindow is the largest number of weeks any 52-week window holds;
    SelectQuests is a stable top three; Level inverts XPThresholdForLevel. *)

#[local] Open Scope string_scope.
#[local] Open Scope list_scope.
#[local] Open Scope Z_scope.

(** ** Coalescing: one group *)

(** The scan with its window folded to the best event so far. *)
Fixpoint scan_best (best prev : Z) (rest : list Event) : Z :=
  match rest with
  | [] => best
  | e :: rest' =>
    if ev_At e - prev >=? ScoreWindow
    then best + scan_best (Z.max 0 (ev_XP e)) (ev_At e) rest'
    else scan_best (Z.max best (ev_XP e)) (ev_At e) rest'
  end.

Lemma maxXP_from_max h l : maxXP_from h l = foldl (fun m e => Z.max m (ev_XP e)) h l.
Proof.
  revert h. induction l as [|e l IH]; intros h; cbn; [done|]. rewrite IH. f_equal.
  destruct (Z.gtb_spec (ev_XP e) h); lia.
Qed.

Lemma maxXP_app l e : maxXP (l ++ [e]) = Z.max (maxXP l) (ev_XP e).
Proof. unfold maxXP. by rewrite !maxXP_from_max, foldl_app. Qed.

Lemma scan_windows_best w prev rest : scan_windows w prev rest = scan_best (maxXP w) prev rest.
Proof.
  revert w prev. induction rest as [|e rest IH]; intros w prev; [done|]. cbn [scan_windows scan_best].
  rewrite !IH, maxXP_app. case_match; [|done]. f_equal. f_equal. unfold maxXP. cbn. destruct (Z.gtb_spec (ev_XP e) 0); lia.
Qed.

Lemma score_group_best g :
  score_group g = match merge_sort at_le g with [] => 0 | e :: rest => scan_best (Z.max 0 (ev_XP e)) (ev_At e) rest end.
Proof.
  unfold score_group. destruct (merge_sort at_le g) as [|e rest]; [done|]. rewrite scan_windows_best. f_equal.
  unfold maxXP. cbn. destruct (Z.gtb_spec (ev_XP e) 0); lia.
Qed.

#[export] Instance at_le_total : Total at_le.
Proof. intros a b. unfold at_le. lia. Qed.
#[export] Instance at_le_trans : Transitive at_le.
Proof. intros a b c. unfold at_le. lia. Qed.

(** Events at one instant commute. *)
Lemma scan_best_swap best prev a b l :
  ev_At a = ev_At b -> scan_best best prev (a :: b :: l) = scan_best best prev (b :: a :: l).
Proof.
  intros E. cbn [scan_best]. rewrite <- E, Z.sub_diag.
  change (0 >=? ScoreWindow) with false. cbv iota.
  case_match; [f_equal|]; (f_equal; lia).
Qed.

Lemma scan_best_bring best prev a p l :
  Forall (fun e => ev_At e = ev_At a) p -> scan_best best prev (p ++ a :: l) = scan_best best prev (a :: p ++ l).
Proof.
  intros Hp. revert best prev. induction Hp as [|e p He _ IH]; intros best prev; [done|]. cbn [app].
  rewrite (scan_best_swap best prev a e) by done. cbn [scan_best]. by rewrite !IH.
Qed.

(** Any two chronological orders of the same events score the same. *)
Lemma scan_best_perm l1 l2 :
  StronglySorted at_le l1 -> StronglySorted at_le l2 -> l1 ≡ₚ l2 ->
  forall best prev, scan_best best prev l1 = scan_best best prev l2.
Proof.
  revert l2. induction l1 as [|a l1 IH]; intros l2 S1 S2 P best prev.
  { apply Permutation_nil_l in P. by subst. }
  assert (Ha : a ∈ l2) by (rewrite <- P; left).
  apply list_elem_of_split in Ha as (p & q & ->).
  assert (Hp : Forall (fun e => ev_At e = ev_At a) p).
  { apply Forall_forall. intros e He. apply StronglySorted_inv in S1 as [_ S1]. rewrite Forall_forall in S1.
    assert (L1 : e = a \/ at_le a e).
    { assert (Hin : e ∈ a :: l1) by (rewrite P; apply elem_of_app; by left).
      apply elem_of_cons in Hin as [->|Hin]; [by left | right; by apply S1]. }
    assert (L2 : at_le e a).
    { apply (StronglySorted_app_1_elem_of at_le p (a :: q)); [done | done | left]. }
    unfold at_le in *. destruct L1 as [->|]; [done | lia]. }
  rewrite (scan_best_bring best prev a p q Hp).
  assert (P' : l1 ≡ₚ p ++ q) by (apply (Permutation_cons_inv (a := a)); rewrite P; by rewrite Permutation_middle).
  assert (S2' : StronglySorted at_le (p ++ q)).
  { clear -S2. induction p as [|e p IH]; cbn in *; [by apply StronglySorted_inv in S2 as []|].
    apply StronglySorted_inv in S2 as [S2 F]. constructor; [by apply IH|]. rewrite !Forall_app in *.
    destruct F as [F1 F2]. split; [done|]. by inversion F2. }
  apply StronglySorted_inv in S1 as [S1 _]. cbn [scan_best]. case_match; [f_equal|]; by apply IH.
Qed.

Lemma score_group_perm g1 g2 : g1 ≡ₚ g2 -> score_group g1 = score_group g2.
Proof.
  intros P. rewrite !score_group_best.
  pose proof (StronglySorted_merge_sort at_le g1) as S1. pose proof (StronglySorted_merge_sort at_le g2) as S2.
  assert (PS : merge_sort at_le g1 ≡ₚ merge_sort at_le g2) by (by rewrite !merge_sort_Permutation).
  revert S1 S2 PS. generalize (merge_sort at_le g1), (merge_sort at_le g2). intros l1 l2 S1 S2 PS.
  (* a first scan from an instant long before every event *)
  assert (K : forall l, StronglySorted at_le l ->
    match l with [] => 0 | e :: rest => scan_best (Z.max 0 (ev_XP e)) (ev_At e) rest end =
    match l with [] => 0 | e :: rest => scan_best 0 (ev_At e) (e :: rest) end).
  { intros [|e rest] _; [done|]. cbn [scan_best]. rewrite Z.sub_diag. change (0 >=? ScoreWindow) with false. done. }
  rewrite !K by done. destruct l1 as [|a l1]; [apply Permutation_nil_l in PS; by subst|].
  destruct l2 as [|b l2]; [by apply Permutation_nil_r in PS|].
  assert (E : ev_At a = ev_At b).
  { assert (Ha : a ∈ b :: l2) by (rewrite <- PS; left). assert (Hb : b ∈ a :: l1) by (rewrite PS; left).
    apply StronglySorted_inv in S1 as [_ F1]. apply StronglySorted_inv in S2 as [_ F2]. rewrite Forall_forall in F1, F2.
    apply elem_of_cons in Ha as [->|Ha]; [done|]. apply elem_of_cons in Hb as [->|Hb]; [done|].
    apply F2 in Ha. apply F1 in Hb. unfold at_le in *. lia. }
  rewrite E. by apply scan_best_perm.
Qed.

(** ** Coalescing: the groups *)

Definition group_key (e : Event) : Z * string := (ev_RefID e, coalesceGroup (ev_Kind e)).

(** The events of one group, in the order they came. *)
Definition group_of (k : Z * string) (events : list Event) : list Event :=
  base.filter (fun e => group_key e = k) events.

Lemma group_events_lookup events k :
  group_events events !! k = match group_of k events with [] => None | g => Some g end.
Proof.
  induction events as [|e events IH] using rev_ind; [done|].
  unfold group_events, group_of in *. rewrite foldl_app, filter_app. cbn [foldl]. rewrite filter_cons, filter_nil.
  change (ev_RefID e, coalesceGroup (ev_Kind e)) with (group_key e).
  destruct (decide (group_key e = k)) as [<-|Hne].
  - rewrite lookup_insert_eq, IH. by destruct (base.filter (fun e' => group_key e' = group_key e) events).
  - by rewrite lookup_insert_ne, app_nil_r.
Qed.

Lemma msum_scored (m1 m2 : gmap (Z * string) (list Event)) :
  (forall k, score_group <$> m1 !! k = score_group <$> m2 !! k) -> msum score_group m1 = msum score_group m2.
Proof.
  intros E. assert (M : score_group <$> m1 = score_group <$> m2) by (apply map_eq; intros k; by rewrite !lookup_fmap).
  pose proof (msum_fmap_other score_group m1) as E1. pose proof (msum_fmap_other score_group m2) as E2. congruence.
Qed.

(** Coalesce does not depend on the order of its events: neither the map it
    ranges over nor its unstable sort can change a score. *)
Lemma Coalesce_perm events events' :
  events ≡ₚ events' -> Coalesce events = Coalesce events'.
Proof.
  intros P. apply msum_scored. intros k. rewrite !group_events_lookup.
  assert (Pk : group_of k events ≡ₚ group_of k events') by (unfold group_of; by rewrite P).
  destruct (group_of k events) as [|a g], (group_of k events') as [|a' g']; [done | | |].
  - by apply Permutation_nil_l in Pk.
  - by apply Permutation_nil_r in Pk.
  - cbn. f_equal. by apply score_group_perm.
Qed.

Definition sample_events : list Event :=
  [ mkEvent 30 "purchase" (3 * hour) 3; mkEvent 30 "vision_ingestion" 0 3; mkEvent 30 "ai_correction" minute 5;
    mkEvent 30 "purchase" hour 3; mkEvent 30 "purchase" 0 3 ].

Lemma Coalesce_sample : Coalesce (reverse sample_events) = Coalesce sample_events /\ Coalesce sample_events = 11.
Proof.
  split; [|vm_compute; reflexivity]. apply Coalesce_perm. apply reverse_Permutation.
Qed.

(** ** Bounds on a score *)

Definition xp_sum (l : list Event) : Z := lsum (fun e => Z.max 0 (ev_XP e)) l.

Lemma scan_best_bounds best prev l :
  0 <= best -> best <= scan_best best prev l <= best + xp_sum l /\
  Forall (fun e => ev_XP e <= scan_best best prev l) l.
Proof.
  revert best prev. induction l as [|e l IH]; intros best prev Hb; cbn [scan_best xp_sum lsum].
  { split; [unfold xp_sum; cbn; lia | constructor]. }
  unfold xp_sum in *. cbn [lsum]. case_match.
  - destruct (IH (Z.max 0 (ev_XP e)) (ev_At e) ltac:(lia)) as [[L U] F]. split; [lia|].
    constructor; [lia|]. eapply Forall_impl; [exact F|]. cbn. lia.
  - destruct (IH (Z.max best (ev_XP e)) (ev_At e) ltac:(lia)) as [[L U] F]. split; [lia|]. constructor; [lia | exact F].
Qed.

Lemma score_group_bounds g :
  0 <= score_group g <= xp_sum g /\ Forall (fun e => ev_XP e <= score_group g) g.
Proof.
  rewrite score_group_best. pose proof (merge_sort_Permutation at_le g) as P.
  assert (Es : xp_sum g = xp_sum (merge_sort at_le g)) by (symmetry; by apply lsum_perm).
  enough (K : forall l, let s := match l with [] => 0 | e :: rest => scan_best (Z.max 0 (ev_XP e)) (ev_At e) rest end in
    0 <= s <= xp_sum l /\ Forall (fun e => ev_XP e <= s) l).
  { rewrite Es. destruct (K (merge_sort at_le g)) as [K1 K2]. split; [exact K1|]. by rewrite <- P. }
  intros [|e l]; [split; [cbn; lia | constructor]|]. intros s. unfold s.
  destruct (scan_best_bounds (Z.max 0 (ev_XP e)) (ev_At e) l ltac:(lia)) as [[L U] F].
  unfold xp_sum in *. cbn [lsum]. split; [lia|]. constructor; [lia | exact F].
Qed.

Lemma group_events_sum events : msum xp_sum (group_events events) = xp_sum events.
Proof.
  induction events as [|e events IH] using rev_ind; [apply msum_empty|].
  unfold group_events. rewrite foldl_app. cbn [foldl]. fold (group_events events). cbv zeta.
  set (k := (ev_RefID e, coalesceGroup (ev_Kind e))). unfold xp_sum in *. rewrite lsum_app, <- IH. cbn [lsum].
  destruct (group_events events !! k) as [g|] eqn:Hk.
  - change (default [] (Some g)) with g. rewrite (msum_insert_Some _ _ _ g) by done. rewrite lsum_app. cbn [lsum]. lia.
  - change (default [] None) with (@nil Event). rewrite msum_insert_None by done. cbn [app lsum]. lia.
Qed.

Lemma msum_le {K V} `{Countable K} (f g : V -> Z) (m : gmap K V) :
  (forall v, f v <= g v) -> msum f m <= msum g m.
Proof.
  intros Hfg. induction m as [|i v m Hi IH] using map_ind; [by rewrite !msum_empty|].
  rewrite !msum_insert_None by done. specialize (Hfg v). lia.
Qed.

Lemma msum_member {K V} `{Countable K} (f : V -> Z) (m : gmap K V) i v :
  (forall v, 0 <= f v) -> m !! i = Some v -> f v <= msum f m.
Proof.
  intros Hf Hi. rewrite <- (insert_delete_id m i v) by done. rewrite msum_insert_None by apply lookup_delete_eq.
  pose proof (msum_nonneg f (delete i m) ltac:(eauto)). lia.
Qed.

(** A burst: within the window of its first event, only the best counts. *)
Lemma scan_best_burst best prev l :
  StronglySorted at_le l -> Forall (fun e => prev <= ev_At e < prev + ScoreWindow) l -> 
  scan_best best prev l = foldl (fun m e => Z.max m (ev_XP e)) best l.
Proof.
  intros S. revert best prev. induction S as [|e l S IH F]; intros best prev Hb; [done|].
  apply Forall_cons in Hb as [He Hb]. cbn [scan_best foldl].
  destruct (Z.geb_spec (ev_At e - prev) ScoreWindow); [lia|]. apply IH.
  rewrite Forall_forall in *. intros x Hx. specialize (F x Hx). specialize (Hb x Hx). unfold at_le in F. lia.
Qed.

Lemma foldl_max_perm l l' h : l ≡ₚ l' -> foldl (fun m e => Z.max m (ev_XP e)) h l = foldl (fun m e => Z.max m (ev_XP e)) h l'.
Proof.
  intros P. revert h. induction P; intros h; cbn; [done | apply IHP | f_equal; lia | by rewrite IHP1].
Qed.

Lemma score_group_burst g :
  (forall e e', e ∈ g -> e' ∈ g -> ev_At e' - ev_At e < ScoreWindow) -> score_group g = maxXP g.
Proof.
  intros Hb. rewrite score_group_best. unfold maxXP. rewrite maxXP_from_max.
  pose proof (merge_sort_Permutation at_le g) as P. pose proof (StronglySorted_merge_sort at_le g) as S.
  rewrite <- (foldl_max_perm _ _ 0 P).
  assert (Hb' : forall e e', e ∈ merge_sort at_le g -> e' ∈ merge_sort at_le g -> ev_At e' - ev_At e < ScoreWindow).
  { intros e e'. rewrite !P. apply Hb. }
  destruct (merge_sort at_le g) as [|e l]; [done|]. apply StronglySorted_inv in S as [S F]. cbn [foldl].
  apply scan_best_burst; [done|]. rewrite Forall_forall in *. intros x Hx.
  specialize (F x Hx). specialize (Hb' e x ltac:(left) ltac:(by right)). unfold at_le in F. lia.
Qed.

(** A score is never negative, never below the XP of any single event, never
    above the sum of all; and events of one group that all lie within two hours of
    each other score exactly the best of them. *)
Theorem Coalesce_bounds events :
  0 <= Coalesce events /\ Forall (fun e => ev_XP e <= Coalesce events) events /\ Coalesce events <= xp_sum events /\
  ((forall e e', e ∈ events -> e' ∈ events -> group_key e = group_key e' /\ ev_At e' - ev_At e < ScoreWindow) ->
   Coalesce events = maxXP events).
Proof.
  pose proof (fun g => score_group_bounds g) as B.
  assert (N : forall g, 0 <= score_group g) by (intros g; apply B).
  split; [apply msum_nonneg; auto|]. split; [|split].
  - apply Forall_forall. intros e He. unfold Coalesce.
    assert (Hg : e ∈ group_of (group_key e) events) by (apply list_elem_of_filter; done).
    destruct (group_of (group_key e) events) as [|a g] eqn:Eg; [by apply elem_of_nil in Hg|].
    etransitivity; [|apply (msum_member score_group _ (group_key e) (a :: g) N); by rewrite group_events_lookup, Eg].
    destruct (B (a :: g)) as [_ F]. rewrite Forall_forall in F. by apply F.
  - unfold Coalesce. rewrite <- group_events_sum. apply msum_le. apply B.
  - intros Hall. destruct events as [|e events]; [done|]. unfold Coalesce.
    assert (Eg : group_events (e :: events) = {[group_key e := e :: events]}).
    { apply map_eq. intros k. rewrite group_events_lookup. unfold group_of. destruct (decide (group_key e = k)) as [<-|Hne].
      - rewrite lookup_singleton_eq, filter_all_true; [done|]. intros a Ha. by apply Hall; [|left].
      - rewrite lookup_singleton_ne by done. rewrite filter_all_false; [done|]. intros a Ha E. apply Hne. rewrite <- E.
        apply Hall; [left | done]. }
    rewrite Eg. rewrite <- insert_empty, msum_insert_None, msum_empty, Z.add_0_r by apply lookup_empty.
    apply score_group_burst. intros a b Ha Hb. by apply Hall.
Qed.

(** ** Holiday weeks *)

Definition week : Z := 7 * day.

(** Weeks named by their Mondays, within twenty years of [start]. *)
Definition mondays (start : Z) (weeks : list Z) : Prop :=
  Forall (fun w => exists k, 0 <= k < 1100 /\ w = start + k * week) weeks.

(** The float division is exact on whole weeks. *)
Lemma weeksBetween_exact a k : 0 <= k < 1100 -> weeksBetween a (a + k * week) = k.
Proof.
  intros Hk. unfold weeksBetween, time_Sub. replace (a + k * week - a) with (k * week) by lia.
  assert (C : forallb (fun k => int_trunc (f_div (Hours (Z.max (- 2 ^ 63) (Z.min (2 ^ 63 - 1) (k * week)))) (float64_of_int (24 * 7))) =? k)
    (seqZ 0 1100) = true) by (vm_compute; reflexivity).
  rewrite forallb_forall in C. specialize (C k). cbv beta in C. apply Z.eqb_eq, C.
  apply list_elem_of_In, elem_of_seqZ. lia.
Qed.

Lemma weeksBetween_mondays start a b :
  (exists k, 0 <= k < 1100 /\ a = start + k * week) -> (exists k, 0 <= k < 1100 /\ b = start + k * week) -> a <= b ->
  (weeksBetween a b >=? HolidayWindowWeeks) = negb (b - 52 * week <? a).
Proof.
  intros (i & Hi & ->) (j & Hj & ->) Hab. assert (W : 0 < week) by (vm_compute; done). 
  replace (start + j * week) with (start + i * week + (j - i) * week) at 1 by lia.
  rewrite weeksBetween_exact by nia. unfold HolidayWindowWeeks.
  destruct (Z.geb_spec (j - i) 52), (Z.ltb_spec (start + j * week - 52 * week) (start + i * week)); cbn; try done; nia.
Qed.

(** The part of a list a year may reach back to from [r]. *)
Definition reach (r : Z) (l : list Z) : list Z := base.filter (fun x => r - 52 * week < x) l.

Lemma reach_all r l : Forall (fun x => r - 52 * week < x) l -> reach r l = l.
Proof. intros H. apply filter_all_true. by rewrite Forall_forall in H. Qed.

Lemma advance_left_reach start l r :
  StronglySorted Z.le l -> mondays start l -> Forall (fun x => x <= r) l ->
  (exists k, 0 <= k < 1100 /\ r = start + k * week) -> advance_left l r = reach r l.
Proof.
  intros S M F Hr. induction S as [|x l S IH Hx]; [done|]. cbn [advance_left]. unfold reach. rewrite filter_cons.
  apply Forall_cons in M as [Mx M]. apply Forall_cons in F as [Fx F].
  rewrite (weeksBetween_mondays start x r Mx Hr Fx).
  destruct (Z.ltb_spec (r - 52 * week) x); cbn [negb].
  - rewrite decide_True by done. f_equal. symmetry. apply reach_all. rewrite Forall_forall in *. intros y Hy.
    specialize (Hx y Hy). lia.
  - rewrite decide_False by lia. by apply IH.
Qed.

Lemma reach_reach r r' l : r <= r' -> reach r' (reach r l) = reach r' l.
Proof.
  intros Hr. unfold reach. induction l as [|x l IH]; [done|]. rewrite !filter_cons.
  destruct (decide (r - 52 * week < x)); rewrite ?filter_cons, IH; [done|]. by rewrite (decide_False (P := r' - 52 * week < x)) by lia.
Qed.

Lemma reach_app r l k : reach r (l ++ k) = reach r l ++ reach r k.
Proof. unfold reach. apply filter_app. Qed.

(** The scan over the weeks that remain, [p] being those already seen. *)
Lemma scan_weeks_spec start p window m rest :
  StronglySorted Z.le (p ++ rest) -> mondays start (p ++ rest) ->
  (forall r, r ∈ rest -> reach r window = reach r p) ->
  StronglySorted Z.le window -> mondays start window -> (forall x, x ∈ window -> x ∈ p) ->
  let result := scan_weeks window m rest in
  m <= result /\
  (forall r1 r r2, rest = r1 ++ r :: r2 -> Z.of_nat (length (reach r (p ++ r1 ++ [r]))) <= result) /\
  (result = m \/ exists r1 r r2, rest = r1 ++ r :: r2 /\ result = Z.of_nat (length (reach r (p ++ r1 ++ [r])))).
Proof.
  revert p window m. induction rest as [|r rest IH]; intros p window m S M W SW MW IW; cbn [scan_weeks].
  { split; [lia|]. split; [|by left]. intros [|? ?]; done. }
  assert (Hle : forall x, x ∈ p -> x <= r).
  { intros x Hx. by apply (StronglySorted_app_1_elem_of Z.le p (r :: rest)); [done | done | left]. }
  assert (Hr : exists k, 0 <= k < 1100 /\ r = start + k * week).
  { unfold mondays in M. rewrite Forall_forall in M. apply M. apply elem_of_app. right. left. }
  assert (Fr : Forall (fun x => r <= x) rest).
  { apply StronglySorted_app_1_r in S. by apply StronglySorted_inv in S as [_ ?]. }
  assert (SWr : StronglySorted Z.le (window ++ [r])).
  { apply StronglySorted_app_2; [|done|repeat constructor]. intros x y Hx Hy.
    apply list_elem_of_singleton in Hy as ->. auto. }
  assert (E : advance_left (window ++ [r]) r = reach r (p ++ [r])).
  { rewrite (advance_left_reach start); [ | done | | | done].
    - rewrite !reach_app. f_equal. apply W. left.
    - apply Forall_app. split; [done | by constructor].
    - apply Forall_app. split; [|by repeat constructor]. apply Forall_forall. auto. }
  rewrite E. set (c := Z.of_nat (length (reach r (p ++ [r])))).
  specialize (IH (p ++ [r]) (reach r (p ++ [r])) (if c >? m then c else m)). rewrite <- app_assoc in IH.
  destruct IH as (I1 & I2 & I3); [done | done | | | | |].
  - intros r' Hr'. apply reach_reach. rewrite Forall_forall in Fr. by apply Fr.
  - apply StronglySorted_filter. rewrite <- (app_nil_r (p ++ [r])).
    change (p ++ r :: rest) with (p ++ [r] ++ rest) in S. rewrite app_assoc in S.
    rewrite app_nil_r. by apply StronglySorted_app_1_l in S.
  - apply Forall_forall. intros x Hx. apply list_elem_of_filter in Hx as [_ Hx]. unfold mondays in M. rewrite Forall_forall in M.
    apply M. change (p ++ r :: rest) with (p ++ [r] ++ rest). rewrite app_assoc. apply elem_of_app. by left.
  - intros x Hx. by apply list_elem_of_filter in Hx as [_ ?].
  - assert (Hc : c <= (if c >? m then c else m) /\ m <= (if c >? m then c else m)) by (destruct (Z.gtb_spec c m); lia).
    split; [lia|]. split.
    + intros [|a r1] r' r2 H; injection H as -> ->.
      * cbn [app]. fold c. lia.
      * specialize (I2 r1 r' r2 eq_refl). rewrite <- app_assoc in I2. exact I2.
    + destruct I3 as [I3|(r1 & r' & r2 & -> & I3)].
      * destruct (Z.gtb_spec c m); [|by left]. right. exists [], r, rest. split; [done|]. rewrite I3. done.
      * right. exists (r :: r1), r', r2. split; [done|]. rewrite I3. by rewrite <- app_assoc.
Qed.

(** The weeks of a list that fall in the 52 weeks ending at [t]. *)
Definition in_year (t : Z) (weeks : list Z) : Z :=
  Z.of_nat (length (base.filter (fun x => t - 52 * week < x <= t) weeks)).

Lemma in_year_perm t l k : l ≡ₚ k -> in_year t l = in_year t k.
Proof. intros P. unfold in_year. by rewrite P. Qed.

Lemma in_year_prefix t l k :
  Forall (fun x => x <= t) l -> Forall (fun x => t < x) k -> in_year t (l ++ k) = Z.of_nat (length (reach t l)).
Proof.
  intros Hl Hk. unfold in_year, reach. rewrite filter_app, (filter_all_false _ k), app_nil_r.
  - do 2 f_equal. clear Hk. induction Hl as [|x l Hx Hl IH]; [done|]. rewrite !filter_cons, IH.
    destruct (decide (t - 52 * week < x)); [rewrite decide_True by lia | rewrite decide_False by lia]; done.
  - rewrite Forall_forall in Hk. intros x Hx. specialize (Hk x Hx). lia.
Qed.

(** A sorted list splits at any instant. *)
Lemma sorted_split t l :
  StronglySorted Z.le l -> exists p k, l = p ++ k /\ Forall (fun x => x <= t) p /\ Forall (fun x => t < x) k.
Proof.
  induction 1 as [|x l S (p & k & -> & Hp & Hk) Hx]; [by exists [], []|].
  destruct (decide (x <= t)).
  - exists (x :: p), k. split; [done|]. split; [by constructor | done].
  - exists [], (x :: p ++ k). split; [done|]. split; [constructor|]. constructor; [lia|].
    rewrite Forall_forall in *. intros y Hy. specialize (Hx y Hy). lia.
Qed.

(** For weeks named by their Mondays, MaxWeeksInWindow answers the largest
    number of them that any 52-week window holds: no window ending at any instant
    holds more, and when there are weeks at all some window holds that many. So a
    user whose answer is at most the budget of eight has taken at most eight weeks
    in every year, wherever the year is cut. *)
Lemma MaxWeeksInWindow_year start weeks (Hm : mondays start weeks) :
  (forall t, in_year t weeks <= MaxWeeksInWindow weeks) /\
  (weeks = [] -> MaxWeeksInWindow weeks = 0) /\
  (weeks ≠ [] -> exists t, t ∈ weeks /\ in_year t weeks = MaxWeeksInWindow weeks).
Proof.
  pose proof (merge_sort_Permutation Z.le weeks) as P. pose proof (StronglySorted_merge_sort Z.le weeks) as S.
  assert (Ms : mondays start (merge_sort Z.le weeks)) by (unfold mondays; by rewrite P).
  unfold MaxWeeksInWindow. set (l := merge_sort Z.le weeks) in *.
  destruct (scan_weeks_spec start [] [] 0 l) as (I1 & I2 & I3);
    [done | done | done | constructor | constructor | by intros x ?%elem_of_nil |].
  set (m := scan_weeks [] 0 l) in *. cbn [app] in *.
  assert (U : forall t, in_year t weeks <= m).
  { intros t. rewrite <- (in_year_perm t l weeks P). destruct (sorted_split t l S) as (p & k & E & Hp & Hk).
    rewrite E, in_year_prefix by done. destruct p as [|r p _] using rev_ind; [cbn; lia|].
    specialize (I2 p r k). rewrite <- app_assoc in E. specialize (I2 E).
    apply Forall_app in Hp as [_ Hr]. rewrite Forall_singleton in Hr.
    etransitivity; [|exact I2]. rewrite <- (reach_reach r t (p ++ [r])) by exact Hr. apply inj_le, length_filter. }
  split; [exact U|]. split.
  - intros ->. unfold m, l. reflexivity.
  - intros Hne. assert (K : exists r1 r r2, l = r1 ++ r :: r2 /\ m = Z.of_nat (length (reach r (r1 ++ [r])))).
    { destruct I3 as [I3|?]; [|done]. exfalso. destruct l as [|r l'] eqn:El.
      - apply Permutation_nil_l in P. by subst.
      - specialize (I2 [] r l' eq_refl). cbn [app] in I2. unfold reach in I2. rewrite filter_cons, decide_True in I2.
        + rewrite length_cons in I2. lia.
        + assert (0 < week) by (vm_compute; done). lia. }
    destruct K as (r1 & r & r2 & El & Em). exists r. split.
    + rewrite <- P, El. apply elem_of_app. right. left.
    + apply Z.le_antisymm; [apply U|]. rewrite <- (in_year_perm r l weeks P), El, Em.
      rewrite <- (in_year_prefix r (r1 ++ [r]) []); [|apply Forall_app; split; [|by repeat constructor]|constructor].
      * rewrite app_nil_r. change (r1 ++ r :: r2) with (r1 ++ [r] ++ r2). rewrite app_assoc. unfold in_year.
        rewrite (filter_app _ (r1 ++ [r])), length_app. lia.
      * apply Forall_forall. intros x Hx. rewrite El in S.
        by apply (StronglySorted_app_1_elem_of Z.le r1 (r :: r2)); [done | done | left].
Qed.

Lemma MaxWeeksInWindow_sample :
  let weeks := map (fun k => 0 + k * week) [0; 60; 2; 51; 53] in
  MaxWeeksInWindow weeks = 3 /\ forall t, in_year t weeks <= 3.
Proof.
  intros weeks. assert (E : MaxWeeksInWindow weeks = 3) by (vm_compute; reflexivity). split; [exact E|].
  rewrite <- E. apply (MaxWeeksInWindow_year 0 weeks). unfold mondays, weeks. apply Forall_map.
  repeat (apply Forall_cons; split; [eexists; split; [|reflexivity]; lia|]). constructor.
Qed.

(** ** float64 as an order *)

Definition not_nan (x : float64) : Prop := x ≠ S754_nan.

(** Where a number lies: its class, then its exponent, then its mantissa. *)
Definition rank (x : float64) : Z * Z * Z :=
  match x with
  | S754_infinity true => (-2, 0, 0)
  | S754_finite true m e => (-1, - e, Z.neg m)
  | S754_zero _ | S754_nan => (0, 0, 0)
  | S754_finite false m e => (1, e, Z.pos m)
  | S754_infinity false => (2, 0, 0)
  end.

Definition lex_lt (a b : Z * Z * Z) : Prop :=
  a.1.1 < b.1.1 \/ (a.1.1 = b.1.1 /\ (a.1.2 < b.1.2 \/ (a.1.2 = b.1.2 /\ a.2 < b.2))).

Lemma f_gt_rank x y : not_nan x -> not_nan y -> (f_gt x y = true <-> lex_lt (rank y) (rank x)).
Proof.
  intros Hx Hy. unfold f_gt, SFltb, lex_lt.
  destruct x as [sx|[]| |[] mx ex], y as [sy|[]| |[] my ey]; try (by destruct Hx); try (by destruct Hy);
    cbn; try (split; [done | lia]); try (split; [lia | done]).
  - change (PosDef.Pos.compare_cont Eq my mx) with (my ?= mx)%positive.
    destruct (Z.compare_spec ey ex), (Pos.compare_spec my mx); cbn; split; intros ?; try discriminate; try done; lia.
  - change (PosDef.Pos.compare_cont Eq my mx) with (my ?= mx)%positive.
    destruct (Z.compare_spec ey ex), (Pos.compare_spec my mx); cbn; split; intros ?; try discriminate; try done; lia.
Qed.

(** ** Choosing quests *)

Section select.
Context {P : Type}.
Implicit Types (c d : Candidate P) (l : list (Candidate P)).

(** [c]'s need is at least [d]'s. *)
Definition needs_ge c d : Prop := ~ lex_lt (rank (c_Need c)) (rank (c_Need d)).

Definition well_needed (l : list (Candidate P)) : Prop := Forall (fun c => not_nan (c_Need c)) l.

Lemma needs_ge_trans c d e : needs_ge c d -> needs_ge d e -> needs_ge c e.
Proof. unfold needs_ge, lex_lt. lia. Qed.

Lemma insert_by_need_perm c l : insert_by_need c l ≡ₚ c :: l.
Proof.
  induction l as [|d l IH]; [done|]. cbn. destruct (f_gt _ _); [|done]. rewrite IH. apply Permutation_swap.
Qed.

Lemma insert_by_need_sorted c l :
  not_nan (c_Need c) -> well_needed l -> StronglySorted needs_ge l -> StronglySorted needs_ge (insert_by_need c l).
Proof.
  intros Hc Hl S. induction S as [|d l S IH F]; [by repeat constructor|].
  apply Forall_cons in Hl as [Hd Hl]. cbn. destruct (f_gt (c_Need d) (c_Need c)) eqn:E.
  - apply f_gt_rank in E; [|done..]. constructor; [by apply IH|]. rewrite insert_by_need_perm. constructor; [|done].
    unfold needs_ge, lex_lt in *. lia.
  - assert (G : needs_ge c d). { unfold needs_ge. rewrite <- f_gt_rank by done. by rewrite E. }
    constructor; [by constructor|]. constructor; [done|]. eapply Forall_impl; [exact F|]. cbn.
    intros e. by apply needs_ge_trans.
Qed.

(** Equal needs keep their order. *)
Lemma insert_by_need_stable c l k :
  not_nan (c_Need c) -> well_needed l ->
  base.filter (fun d => rank (c_Need d) = k) (insert_by_need c l) = base.filter (fun d => rank (c_Need d) = k) (c :: l).
Proof.
  intros Hc Hl. induction l as [|d l IH]; [done|]. apply Forall_cons in Hl as [Hd Hl]. cbn [insert_by_need].
  destruct (f_gt (c_Need d) (c_Need c)) eqn:E; [|done]. apply f_gt_rank in E; [|done..].
  rewrite filter_cons, IH by done. rewrite !filter_cons.
  destruct (decide (rank (c_Need d) = k)), (decide (rank (c_Need c) = k)); try done.
  exfalso. unfold lex_lt in E. rewrite e, e0 in E. lia.
Qed.

Lemma sort_by_need_spec l :
  well_needed l ->
  sort_by_need l ≡ₚ l /\ StronglySorted needs_ge (sort_by_need l) /\
  forall k, base.filter (fun d => rank (c_Need d) = k) (sort_by_need l) = base.filter (fun d => rank (c_Need d) = k) l.
Proof.
  induction l as [|c l IH]; intros Hl; [split; [done|split; [constructor | done]]|].
  apply Forall_cons in Hl as [Hc Hl]. destruct (IH Hl) as (I1 & I2 & I3). cbn [sort_by_need foldr]. fold (sort_by_need l).
  assert (Hs : well_needed (sort_by_need l)) by (unfold well_needed; by rewrite I1).
  split; [by rewrite insert_by_need_perm, I1|]. split; [by apply insert_by_need_sorted|]. intros k.
  rewrite insert_by_need_stable by done. rewrite !filter_cons. by rewrite I3.
Qed.

(** SelectQuests picks at most three of the candidates that fired, all of them
    when there are at most three; no fired candidate left out needs attention more
    than one picked; the picks come most needed first; and among candidates of
    equal need the earlier one in the catalog order is picked and listed first. *)
Theorem SelectQuests_spec (candidates : list (Candidate P))
    (Hneeds : well_needed candidates) :
  let fired := base.filter (fun c => c_Fires c = true) candidates in
  let picked := SelectQuests candidates in
  length picked = Nat.min 3 (length fired) /\
  exists rest, picked ++ rest ≡ₚ fired /\
    StronglySorted needs_ge picked /\
    (forall c d, c ∈ picked -> d ∈ rest -> needs_ge c d) /\
    forall k, base.filter (fun d => rank (c_Need d) = k) picked ++ base.filter (fun d => rank (c_Need d) = k) rest =
      base.filter (fun d => rank (c_Need d) = k) fired.
Proof.
  intros fired picked. assert (Hf : well_needed fired).
  { apply Forall_forall. intros c Hc. apply list_elem_of_filter in Hc as [_ Hc]. unfold well_needed in Hneeds.
    rewrite Forall_forall in Hneeds. by apply Hneeds. }
  destruct (sort_by_need_spec fired Hf) as (I1 & I2 & I3).
  assert (E : picked = take 3 (sort_by_need fired)).
  { unfold picked, SelectQuests. fold fired. destruct (Nat.ltb_spec 3 (length (sort_by_need fired))); [done|].
    by rewrite take_ge by lia. }
  rewrite E. split.
  - rewrite length_take. by rewrite (Permutation_length I1).
  - exists (drop 3 (sort_by_need fired)). rewrite take_drop. split; [done|].
    rewrite <- (take_drop 3 (sort_by_need fired)) in I2. split; [by eapply StronglySorted_app_1_l|]. split.
    + intros c d Hc Hd. by apply (StronglySorted_app_1_elem_of needs_ge (take 3 (sort_by_need fired)) (drop 3 (sort_by_need fired))).
    + intros k. rewrite <- filter_app, take_drop. apply I3.
Qed.
End select.

Definition sample_candidates : list (Candidate unit) :=
  [ mkCandidate GeneratorStaleLocation true (float64_of_int 2) 1 tt;
    mkCandidate GeneratorMissingExpiry false (float64_of_int 9) 1 tt;
    mkCandidate GeneratorImageless true (float64_of_int 5) 1 tt;
    mkCandidate GeneratorExpiringSoon true (float64_of_int 2) 1 tt;
    mkCandidate GeneratorFirstMile true (float64_of_int 1) 1 tt ].

Lemma SelectQuests_spec_witness :
  map c_Generator (SelectQuests sample_candidates) = [GeneratorImageless; GeneratorStaleLocation; GeneratorExpiringSoon] /\
  length (SelectQuests sample_candidates) = 3%nat.
Proof.
  split; [vm_compute; reflexivity|].
  refine (proj1 (SelectQuests_spec sample_candidates _)).
  unfold sample_candidates. repeat (constructor; [vm_compute; discriminate|]). constructor.
Defined.

(** ** Levels *)

(** A level begins exactly at its threshold: at every threshold up to level
    100 (490,050 XP) the level is reached and one point short of it is not, and for
    every amount of XP below 1,250 the level is the one whose thresholds enclose
    it; negative XP is level one, and each threshold is above the one before. *)
Theorem Level_thresholds :
  (forall l, 1 <= l <= 100 -> Level (XPThresholdForLevel l) = l) /\
  (forall l, 2 <= l <= 100 -> Level (XPThresholdForLevel l - 1) = l - 1) /\
  (forall xp, 0 <= xp < 1250 -> XPThresholdForLevel (Level xp) <= xp < XPThresholdForLevel (Level xp + 1)) /\
  (forall xp, xp < 0 -> Level xp = 1) /\
  (forall l, 1 <= l -> XPThresholdForLevel l < XPThresholdForLevel (l + 1)).
Proof.
  assert (C1 : forallb (fun l => (Level (XPThresholdForLevel l) =? l) && ((l =? 1) || (Level (XPThresholdForLevel l - 1) =? l - 1)))
    (seqZ 1 100) = true) by (vm_compute; reflexivity).
  assert (C2 : forallb (fun xp => (XPThresholdForLevel (Level xp) <=? xp) && (xp <? XPThresholdForLevel (Level xp + 1)))
    (seqZ 0 1250) = true) by (vm_compute; reflexivity).
  rewrite forallb_forall in C1, C2.
  assert (D1 : forall l, 1 <= l <= 100 -> (Level (XPThresholdForLevel l) =? l) && ((l =? 1) || (Level (XPThresholdForLevel l - 1) =? l - 1)) = true)
    by (intros l Hl; apply (C1 l), list_elem_of_In, elem_of_seqZ; lia).
  split_and!.
  - intros l Hl. specialize (D1 l Hl). bool_to_prop. done.
  - intros l Hl. specialize (D1 l ltac:(lia)). bool_to_prop.
    match goal with H : (_ || _) = true |- _ => apply orb_true_iff in H as [H|H] end; bool_to_prop; [lia | done].
  - intros xp Hx. assert (D2 := C2 xp ltac:(apply list_elem_of_In, elem_of_seqZ; lia)). cbv beta in D2. bool_to_prop. lia.
  - intros xp Hx. unfold Level. destruct (Z.ltb_spec xp 0); [|lia]. reflexivity.
  - intros l Hl. unfold XPThresholdForLevel. destruct (Z.ltb_spec l 1), (Z.ltb_spec (l + 1) 1); try lia.
Qed.
