(* ===== verification/Text.v ===== *)
(** * Text: the parts of Go's strings and regexp packages the program uses

    A Go string is a sequence of bytes; the functions below are those of the
    strings package on ASCII text (bytes below 128), which is where they agree
    byte for byte with the Unicode versions: a byte above 127 is no space, has no
    other case and is any character to a regular expression.  Patterns are matched
    the way RE2 reports submatches: of all matches the one a backtracking search
    finds first. *)

From Stdlib Require Export Ascii String.
From S2P Require Import Prelude.

#[local] Open Scope list_scope.
#[local] Open Scope Z_scope.

(** ** Bytes *)

Definition byte_code (c : ascii) : Z := Z.of_N (N_of_ascii c).

Definition in_range (lo hi : Z) (c : ascii) : bool := (lo <=? byte_code c) && (byte_code c <=? hi).

(** asciiSpace: tab, newline, vertical tab, form feed, return, blank. *)
Definition is_space (c : ascii) : bool := in_range 9 13 c || (byte_code c =? 32).

Definition is_digit (c : ascii) : bool := in_range 48 57 c.

Definition lower (c : ascii) : ascii :=
  if in_range 65 90 c then ascii_of_N (Z.to_N (byte_code c + 32)) else c.

Definition bytes : string -> list ascii := list_ascii_of_string.
Definition text : list ascii -> string := string_of_list_ascii.

Lemma text_bytes s : text (bytes s) = s.
Proof. apply string_of_list_ascii_of_string. Qed.
Lemma bytes_text l : bytes (text l) = l.
Proof. apply list_ascii_of_string_of_list_ascii. Qed.

(** ** strings *)

Fixpoint drop_spaces (l : list ascii) : list ascii :=
  match l with
  | [] => []
  | c :: l' => if is_space c then drop_spaces l' else l
  end.

Definition trim (l : list ascii) : list ascii := reverse (drop_spaces (reverse (drop_spaces l))).

Definition TrimSpace (s : string) : string := text (trim (bytes s)).

Definition ToLower (s : string) : string := text (map lower (bytes s)).

(** [word] holds the bytes of the field being read, last byte first. *)
Fixpoint fields_from (word : list ascii) (l : list ascii) : list (list ascii) :=
  match l with
  | [] => match word with [] => [] | _ => [reverse word] end
  | c :: l' =>
    if is_space c then
      match word with [] => fields_from [] l' | _ => reverse word :: fields_from [] l' end
    else fields_from (c :: word) l'
  end.

Definition Fields (s : string) : list string := map text (fields_from [] (bytes s)).

Fixpoint join_bytes (sep : list ascii) (l : list (list ascii)) : list ascii :=
  match l with
  | [] => []
  | [w] => w
  | w :: l' => w ++ sep ++ join_bytes sep l'
  end.

Definition Join (l : list string) (sep : string) : string := text (join_bytes (bytes sep) (map bytes l)).

(** strings.Split by one byte: the pieces between its occurrences. *)
Fixpoint split_from (sep : ascii) (piece l : list ascii) : list (list ascii) :=
  match l with
  | [] => [reverse piece]
  | c :: l' => if Ascii.eqb c sep then reverse piece :: split_from sep [] l' else split_from sep (c :: piece) l'
  end.

(** ReplaceAll(s, "\r\n", "\n") *)
Fixpoint unix_newlines (l : list ascii) : list ascii :=
  match l with
  | [] => []
  | c :: l' =>
    match l' with
    | d :: l'' => if Ascii.eqb c "013"%char && Ascii.eqb d "010"%char then d :: unix_newlines l'' else c :: unix_newlines l'
    | [] => [c]
    end
  end.

(** ** Words *)

Definition no_space (w : list ascii) : Prop := Forall (fun c => is_space c = false) w.

(** What Fields answers: non-empty words without spaces. *)
Definition word (w : list ascii) : Prop := w ≠ [] /\ no_space w.

Lemma reverse_eq_nil {A} (l : list A) : reverse l = [] -> l = [].
Proof. intros H. by rewrite <- (reverse_involutive l), H. Qed.

Lemma fields_from_words acc l : no_space acc -> Forall word (fields_from acc l).
Proof.
  revert acc. induction l as [|c l IH]; intros acc Ha; cbn.
  - destruct acc; [constructor|]. constructor; [|constructor]. split; [by intros ?%reverse_eq_nil|].
    unfold no_space. by apply Forall_reverse.
  - destruct (is_space c) eqn:E; [|apply IH; by constructor].
    destruct acc; [apply IH; constructor|]. constructor; [|apply IH; constructor].
    split; [by intros ?%reverse_eq_nil|]. by apply Forall_reverse.
Qed.

Lemma fields_from_word acc w l :
  no_space w -> fields_from acc (w ++ l) = fields_from (reverse w ++ acc) l.
Proof.
  revert acc. induction w as [|c w IH]; intros acc Hw; [done|]. apply Forall_cons in Hw as [Hc Hw].
  cbn [fields_from app]. rewrite Hc, IH by done. by rewrite reverse_cons, <- app_assoc.
Qed.

(** Joining words with single blanks and splitting again gives the words. *)
Lemma fields_join l : Forall word l -> fields_from [] (join_bytes [" "%char] l) = l.
Proof.
  induction 1 as [|w l [Hne Hw] Hl IH]; [done|]. cbn [join_bytes].
  destruct l as [|w' l'].
  - rewrite <- (app_nil_r w) at 1. rewrite fields_from_word, app_nil_r by done. cbn.
    destruct (reverse w) eqn:E; [apply reverse_eq_nil in E; by subst|]. rewrite <- E. by rewrite reverse_involutive.
  - rewrite fields_from_word, app_nil_r by done. cbn [app fields_from].
    change (is_space " "%char) with true. cbv iota.
    destruct (reverse w) eqn:E; [apply reverse_eq_nil in E; by subst|]. rewrite <- E, reverse_involutive. f_equal. exact IH.
Qed.

Lemma fields_drop_spaces l : fields_from [] (drop_spaces l) = fields_from [] l.
Proof. induction l as [|c l IH]; [done|]. cbn. destruct (is_space c) eqn:E; [exact IH|]. cbn. by rewrite E. Qed.

Lemma fields_from_spaces acc l k :
  Forall (fun c => is_space c = true) k -> fields_from acc (l ++ k) = fields_from acc l.
Proof.
  intros Hk. revert acc. induction l as [|c l IH]; intros acc.
  - cbn. assert (E : fields_from [] k = []) by (induction Hk as [|c k Hc Hk IH]; [done | cbn; by rewrite Hc]).
    destruct Hk as [|c k Hc Hk]; [by rewrite app_nil_r || done|]. cbn in *. rewrite Hc in *.
    destruct acc; by rewrite E.
  - cbn. destruct (is_space c); [|apply IH]. destruct acc; by rewrite IH.
Qed.

(** Trimming drops spaces at both ends only. *)
Lemma drop_spaces_split l : exists k, l = k ++ drop_spaces l /\ Forall (fun c => is_space c = true) k.
Proof.
  induction l as [|c l (k & E & Hk)]; [by exists []|]. cbn. destruct (is_space c) eqn:Hc; [|by exists []].
  exists (c :: k). split; [by rewrite E at 1 | by constructor].
Qed.

Lemma trim_split l :
  exists k1 k2, l = k1 ++ trim l ++ k2 /\ Forall (fun c => is_space c = true) k1 /\ Forall (fun c => is_space c = true) k2.
Proof.
  destruct (drop_spaces_split l) as (k1 & E1 & H1).
  destruct (drop_spaces_split (reverse (drop_spaces l))) as (k2 & E2 & H2).
  exists k1, (reverse k2). split; [|split; [done | by apply Forall_reverse]].
  unfold trim. rewrite <- reverse_app, <- E2, reverse_involutive. exact E1.
Qed.

Lemma fields_trim l : fields_from [] (trim l) = fields_from [] l.
Proof.
  destruct (trim_split l) as (k1 & k2 & E & H1 & H2). rewrite E at 2. rewrite app_assoc, fields_from_spaces by done.
  clear E. induction H1 as [|c k1 Hc _ IH]; [done|]. cbn. by rewrite Hc.
Qed.

Lemma trim_idemp_ends l : (forall c k, l = c :: k -> is_space c = false) -> drop_spaces l = l.
Proof. destruct l as [|c k]; [done|]. intros H. cbn. by rewrite (H c k eq_refl). Qed.

Lemma drop_spaces_head l c k : drop_spaces l = c :: k -> is_space c = false.
Proof.
  induction l as [|d l IH]; [done|]. cbn. destruct (is_space d) eqn:E; [exact IH|]. by intros [= <- _].
Qed.

Lemma trim_head l : drop_spaces (trim l) = trim l.
Proof.
  apply trim_idemp_ends. intros c k E. unfold trim in E.
  destruct (drop_spaces_split (reverse (drop_spaces l))) as (k2 & E2 & _).
  destruct (drop_spaces l) as [|d m] eqn:Ed; [done|]. apply drop_spaces_head in Ed as Hd.
  apply (f_equal reverse) in E2. rewrite reverse_involutive, reverse_app, E in E2. by injection E2 as -> _.
Qed.

Lemma trim_idemp l : trim (trim l) = trim l.
Proof.
  unfold trim at 1. rewrite trim_head. unfold trim at 1. rewrite reverse_involutive.
  rewrite (trim_idemp_ends (drop_spaces (reverse (drop_spaces l)))); [done|]. intros c k. apply drop_spaces_head.
Qed.
