(* ===== verification/Encoding.v ===== *)
(** * Encodings the program takes from Go's standard library

    base64 without padding (encoding/base64, RawStdEncoding and RawURLEncoding),
    decimal numbers (strconv.FormatInt, ParseInt) and strings.Cut, on byte strings,
    with the lemmas that decoding gives back what was encoded.  A uuid.UUID is an
    array of sixteen bytes; the development takes it as the number they spell. *)

From Stdlib Require Import Ascii String Decimal DecimalString DecimalZ DecimalFacts.
From S2P Require Import Prelude Text.

#[local] Open Scope list_scope.
#[local] Open Scope Z_scope.

(** ** Bytes *)

(** The byte of a code, modulo 256 as a conversion to uint8. *)
Definition byte_of (z : Z) : ascii := ascii_of_N (Z.to_N (z mod 256)).

Lemma byte_code_range c : 0 <= byte_code c < 256.
Proof. unfold byte_code. pose proof (N_ascii_bounded c). lia. Qed.

Lemma byte_of_code c : byte_of (byte_code c) = c.
Proof.
  unfold byte_of. pose proof (byte_code_range c). rewrite Z.mod_small by done. unfold byte_code.
  by rewrite N2Z.id, ascii_N_embedding.
Qed.

Lemma byte_code_of z : byte_code (byte_of z) = z mod 256.
Proof.
  unfold byte_of, byte_code. pose proof (Z.mod_pos_bound z 256). rewrite N_ascii_embedding by lia. lia.
Qed.

Lemma bytes_app s t : bytes (s +:+ t) = bytes s ++ bytes t.
Proof. unfold bytes. induction s as [|c s IH]; [done|]. exact (f_equal (cons c) IH). Qed.

(** ** base64 *)

(** The two alphabets differ in their last two characters. *)
Inductive Encoding := RawStdEncoding | RawURLEncoding.

Definition sextet (enc : Encoding) (v : Z) : ascii :=
  byte_of (if v <? 26 then 65 + v else if v <? 52 then 71 + v else if v <? 62 then v - 4
           else match enc with
                | RawStdEncoding => if v =? 62 then 43 else 47
                | RawURLEncoding => if v =? 62 then 45 else 95
                end).

(** The value of a character of the alphabet. *)
Definition sextet_value (enc : Encoding) (c : ascii) : option Z :=
  let z := byte_code c in
  if (65 <=? z) && (z <=? 90) then Some (z - 65)
  else if (97 <=? z) && (z <=? 122) then Some (z - 71)
  else if (48 <=? z) && (z <=? 57) then Some (z + 4)
  else match enc with
       | RawStdEncoding => if z =? 43 then Some 62 else if z =? 47 then Some 63 else None
       | RawURLEncoding => if z =? 45 then Some 62 else if z =? 95 then Some 63 else None
       end.

Fixpoint encode (enc : Encoding) (l : list ascii) : list ascii :=
  match l with
  | a :: b :: c :: r =>
    let v := byte_code a * 65536 + byte_code b * 256 + byte_code c in
    sextet enc (v / 262144) :: sextet enc (v / 4096 mod 64) :: sextet enc (v / 64 mod 64) :: sextet enc (v mod 64) ::
    encode enc r
  | [a; b] =>
    let v := byte_code a * 65536 + byte_code b * 256 in
    [sextet enc (v / 262144); sextet enc (v / 4096 mod 64); sextet enc (v / 64 mod 64)]
  | [a] => let v := byte_code a * 65536 in [sextet enc (v / 262144); sextet enc (v / 4096 mod 64)]
  | [] => []
  end.

(** A last group of one character is an error; the spare bits of a last group are
    not looked at. *)
Fixpoint decode (enc : Encoding) (l : list ascii) : option (list ascii) :=
  match l with
  | c0 :: c1 :: c2 :: c3 :: r =>
    d0 ← sextet_value enc c0; d1 ← sextet_value enc c1; d2 ← sextet_value enc c2; d3 ← sextet_value enc c3;
    let v := d0 * 262144 + d1 * 4096 + d2 * 64 + d3 in
    rest ← decode enc r;
    Some (byte_of (v / 65536) :: byte_of (v / 256) :: byte_of v :: rest)
  | [c0; c1; c2] =>
    d0 ← sextet_value enc c0; d1 ← sextet_value enc c1; d2 ← sextet_value enc c2;
    let v := d0 * 262144 + d1 * 4096 + d2 * 64 in
    Some [byte_of (v / 65536); byte_of (v / 256)]
  | [c0; c1] =>
    d0 ← sextet_value enc c0; d1 ← sextet_value enc c1;
    Some [byte_of ((d0 * 262144 + d1 * 4096) / 65536)]
  | [_] => None
  | [] => Some []
  end.

(** Line breaks are skipped wherever they stand. *)
Definition is_break (c : ascii) : bool := (byte_code c =? 10) || (byte_code c =? 13).

Definition EncodeToString (enc : Encoding) (b : list ascii) : string := text (encode enc b).
Definition DecodeString (enc : Encoding) (s : string) : option (list ascii) :=
  decode enc (List.filter (fun c => negb (is_break c)) (bytes s)).

(** Sixty-four cases each. *)
Lemma sextets_ok enc :
  forallb (fun v => bool_decide (sextet_value enc (sextet enc v) = Some v) && negb (is_break (sextet enc v)))
    (map Z.of_nat (seq 0 64)) = true.
Proof. by destruct enc; vm_compute. Qed.

Lemma sextet_ok enc v : 0 <= v < 64 -> sextet_value enc (sextet enc v) = Some v /\ is_break (sextet enc v) = false.
Proof.
  intros Hv. pose proof (sextets_ok enc) as H. rewrite forallb_forall in H.
  specialize (H v). rewrite in_map_iff in H. destruct (andb_prop _ _ (H ltac:(exists (Z.to_nat v); rewrite in_seq; lia))) as [H1 H2].
  split; [by apply bool_decide_eq_true_1 in H1 | by apply negb_true_iff in H2].
Qed.

(** Induction by groups of three bytes. *)
Lemma groups_ind (P : list ascii -> Prop) :
  P [] -> (forall a, P [a]) -> (forall a b, P [a; b]) -> (forall a b c r, P r -> P (a :: b :: c :: r)) -> forall l, P l.
Proof.
  intros H0 H1 H2 H3 l. assert (H : P l /\ (forall a, P (a :: l)) /\ forall a b, P (a :: b :: l)); [|apply H].
  induction l as [|c l (IH0 & IH1 & IH2)]; [done|]. split; [apply IH1|]. split; [intros a; apply IH2 | intros a b; by apply H3].
Qed.

(** The codes in sight are bytes; division and remainder become equations. *)
Ltac codes :=
  repeat match goal with c : ascii |- _ => lazymatch goal with
    | _ : 0 <= byte_code c < 256 |- _ => fail
    | _ => pose proof (byte_code_range c) end end;
  Z.div_mod_to_equations; lia.

Ltac sextets enc :=
  repeat match goal with |- context [is_break (sextet enc ?v)] => rewrite (proj2 (sextet_ok enc v ltac:(codes))) end;
  repeat match goal with |- context [sextet_value enc (sextet enc ?v)] => rewrite (proj1 (sextet_ok enc v ltac:(codes))) end.

Lemma encode_breaks enc l : List.filter (fun c => negb (is_break c)) (encode enc l) = encode enc l.
Proof.
  induction l as [| a | a b | a b c r IH] using groups_ind; [done | ..]; cbn [encode List.filter]; sextets enc;
    cbn [negb]; by rewrite ?IH.
Qed.

Lemma four_sextets v : v / 262144 * 262144 + v / 4096 mod 64 * 4096 + v / 64 mod 64 * 64 + v mod 64 = v.
Proof. Z.div_mod_to_equations. lia. Qed.

Lemma three_sextets n : let v := n * 256 in v / 262144 * 262144 + v / 4096 mod 64 * 4096 + v / 64 mod 64 * 64 = v.
Proof. cbv zeta. Z.div_mod_to_equations. lia. Qed.

Lemma two_sextets n : let v := n * 65536 in v / 262144 * 262144 + v / 4096 mod 64 * 4096 = v.
Proof. cbv zeta. Z.div_mod_to_equations. lia. Qed.

Lemma byte_of_eq z c : z mod 256 = byte_code c -> byte_of z = c.
Proof. intros E. rewrite <- (byte_of_code c). unfold byte_of. rewrite E, (Z.mod_small (byte_code c)); [done | apply byte_code_range]. Qed.

Lemma encode_nonempty enc l : l ≠ [] -> encode enc l ≠ [].
Proof. intros H. destruct l as [|a [|b [|c r]]]; [done | | |]; by cbn [encode]. Qed.

Lemma decode_encode enc l : decode enc (encode enc l) = Some l.
Proof.
  induction l as [| a | a b | a b c r IH] using groups_ind; [done | ..]; cbn [encode decode]; sextets enc; cbn [mbind option_bind];
    rewrite ?IH; cbn [mbind option_bind].
  - rewrite two_sextets. repeat f_equal. apply byte_of_eq. codes.
  - replace (byte_code a * 65536 + byte_code b * 256) with ((byte_code a * 256 + byte_code b) * 256) by lia.
    rewrite three_sextets. repeat f_equal; apply byte_of_eq; codes.
  - rewrite four_sextets. repeat f_equal; apply byte_of_eq; codes.
Qed.

(** What was encoded is decoded to itself. *)
Lemma DecodeString_EncodeToString enc b : DecodeString enc (EncodeToString enc b) = Some b.
Proof. unfold DecodeString, EncodeToString. by rewrite bytes_text, encode_breaks, decode_encode. Qed.

(** ** Decimal numbers *)

(** strconv.FormatInt(z, 10) *)
Definition FormatInt (z : Z) : string := NilZero.string_of_int (Z.to_int z).

(** strconv.ParseInt(s, 10, 64): an optional sign, at least one digit, in range. *)
Definition ParseInt (s : string) : option Z :=
  n ← match s with
      | String "-"%char r => u ← NilZero.uint_of_string r; Some (- Z.of_uint u)
      | String "+"%char r => u ← NilZero.uint_of_string r; Some (Z.of_uint u)
      | _ => u ← NilZero.uint_of_string s; Some (Z.of_uint u)
      end;
  if (- 2 ^ 63 <=? n) && (n <? 2 ^ 63) then Some n else None.

(** strings.Cut by one byte. *)
Fixpoint Cut (sep : ascii) (l : list ascii) : option (list ascii * list ascii) :=
  match l with
  | [] => None
  | c :: l' => if Ascii.eqb c sep then Some ([], l') else p ← Cut sep l'; Some (c :: p.1, p.2)
  end.

Lemma Cut_app sep l r : sep ∉ l -> Cut sep (l ++ sep :: r) = Some (l, r).
Proof.
  induction l as [|c l IH]; intros H; cbn [Cut app].
  - by rewrite Ascii.eqb_refl.
  - apply not_elem_of_cons in H as [Hne Hl]. destruct (Ascii.eqb_spec c sep); [congruence|]. by rewrite IH.
Qed.

(** The characters of a printed number: digits and a sign in front. *)
Definition numeral (c : ascii) : bool := is_digit c || (byte_code c =? 45).

Lemma uint_digits u : Forall (fun c => is_digit c = true) (bytes (NilEmpty.string_of_uint u)).
Proof. unfold bytes. induction u; cbn; constructor; done. Qed.

Lemma uint_nil (u : uint) : u = Nil \/ u <> Nil.
Proof. destruct u; auto; by right. Qed.

Lemma nonempty_uint u : u <> Nil -> NilZero.string_of_uint u = NilEmpty.string_of_uint u.
Proof. by destruct u. Qed.

Lemma FormatInt_numeral z : Forall (fun c => numeral c = true) (bytes (FormatInt z)).
Proof.
  assert (H : forall u, Forall (fun c => numeral c = true) (bytes (NilZero.string_of_uint u))).
  { intros u. destruct (uint_nil u) as [->|Hu]; [by repeat constructor|].
    rewrite nonempty_uint by done. eapply Forall_impl; [apply uint_digits|]. intros c Hc. cbn in Hc. unfold numeral. by rewrite Hc. }
  unfold FormatInt. destruct (Z.to_int z) as [u|u]; cbn; [apply H|]. constructor; [done | apply H].
Qed.

Lemma numeral_not c l : Forall (fun c => numeral c = true) l -> numeral c = false -> c ∉ l.
Proof. intros H Hc Hin. rewrite Forall_forall in H. specialize (H c Hin). congruence. Qed.

Lemma parse_digits u : u <> Nil ->
  ParseInt (NilZero.string_of_uint u) =
  if (- 2 ^ 63 <=? Z.of_uint u) && (Z.of_uint u <? 2 ^ 63) then Some (Z.of_uint u) else None.
Proof.
  intros Hu. pose proof (NilZero.usu u Hu) as E. rewrite (nonempty_uint u Hu) in *. unfold ParseInt.
  destruct u; try done; cbn [NilEmpty.string_of_uint] in *; rewrite E; done.
Qed.

Lemma to_uint_nonempty p : Pos.to_uint p <> Nil.
Proof. apply DecimalPos.Unsigned.to_uint_nonnil. Qed.

Lemma ParseInt_FormatInt z : is_int64 z -> ParseInt (FormatInt z) = Some z.
Proof.
  intros Hz. unfold is_int64 in Hz. pose proof (DecimalZ.of_to z) as E.
  assert (R : (- 2 ^ 63 <=? z) && (z <? 2 ^ 63) = true) by (apply andb_true_iff; split; [apply Z.leb_le | apply Z.ltb_lt]; lia).
  destruct z as [|p|p]; [done | |]; cbn [Z.to_int] in *; unfold FormatInt; cbn [Z.to_int NilZero.string_of_int Z.of_int] in *.
  - rewrite parse_digits by apply to_uint_nonempty. change (Z.of_uint (Pos.to_uint p)) with (Z.of_int (Pos (Pos.to_uint p))).
    cbn [Z.of_int]. by rewrite E, R.
  - unfold ParseInt. cbn [NilZero.string_of_int]. rewrite NilZero.usu by apply to_uint_nonempty. cbn [mbind option_bind].
    by rewrite E, R.
Qed.

(** ** Identifiers as bytes *)

(** The n bytes of a number, the highest first. *)
Fixpoint be_bytes (n : nat) (z : Z) : list ascii :=
  match n with
  | O => []
  | S n' => be_bytes n' (z / 256) ++ [byte_of z]
  end.

Definition be_value (l : list ascii) : Z := foldl (fun n c => n * 256 + byte_code c) 0 l.

Lemma be_value_bytes n z : be_value (be_bytes n z) = z mod 256 ^ Z.of_nat n.
Proof.
  revert z. induction n as [|n IH]; intros z; [by rewrite Z.mod_1_r|]. cbn [be_bytes]. unfold be_value in *.
  rewrite foldl_app, IH. cbn [foldl]. rewrite byte_code_of, Nat2Z.inj_succ, Z.pow_succ_r by lia.
  rewrite (Z.rem_mul_r z 256) by lia. lia.
Qed.

Lemma length_be_bytes n z : Datatypes.length (be_bytes n z) = n.
Proof. revert z. induction n as [|n IH]; intros z; [done|]. cbn [be_bytes]. rewrite length_app, IH. cbn. lia. Qed.

(** [id[:]], and uuid.FromBytes, which takes any sixteen bytes. *)
Definition uuid_bytes (id : Z) : list ascii := be_bytes 16 id.
Definition uuid_FromBytes (b : list ascii) : option Z :=
  if (Datatypes.length b =? 16)%nat then Some (be_value b) else None.

Definition is_uuid (id : Z) : Prop := 0 <= id < 2 ^ 128.

Lemma uuid_FromBytes_bytes id : is_uuid id -> uuid_FromBytes (uuid_bytes id) = Some id.
Proof.
  intros H. unfold uuid_FromBytes, uuid_bytes. rewrite length_be_bytes, be_value_bytes. cbn [Nat.eqb]. f_equal.
  apply Z.mod_small. exact H.
Qed.
