(* ===== verification/Uploads.v ===== *)
(** * Files the server keeps: internal/uploads

    Uploaded photos, product pictures and the sizes derived from them, as files under
    fixed directories.  The file system is a map from paths to contents; what it
    refuses (a full disk, a permission) is given with each call as [os].  A directory
    exists as long as a file is in it: empty directories are not represented. *)

From Stdlib Require Import Ascii String.
From S2P Require Import Prelude Text.

#[local] Open Scope string_scope.
#[local] Open Scope list_scope.
#[local] Open Scope Z_scope.

(** ** Paths *)

(** path.Clean of a rooted path, by its segments. *)
Definition clean_step (acc : list string) (x : string) : list string :=
  if String.eqb x "" || String.eqb x "." then acc else if String.eqb x ".." then removelast acc else acc ++ [x].
Definition clean_path (path : list string) : list string := foldl clean_step [] path.

Definition slash : ascii := "/"%char.

(** filepath.Join(root, name) *)
Definition file_path (root : list string) (name : string) : list string :=
  clean_path (root ++ map text (split_from slash [] (bytes name))).

Abbreviation FS := (gmap (list string) (list ascii)) (only parsing).

(** ** Names *)

Definition is_hex (c : ascii) : bool := is_digit c || in_range 97 102 c.

(** [0-9a-f]{8}-[0-9a-f]{4}-[0-9a-f]{4}-[0-9a-f]{4}-[0-9a-f]{12} *)
Fixpoint hex_groups (l : list ascii) (groups : list nat) : bool :=
  match groups with
  | [] => is_nil (head l)
  | n :: groups' =>
    let g := take n l in
    (Datatypes.length g =? n)%nat && forallb is_hex g &&
    match groups', drop n l with
    | [], rest => is_nil (head rest)
    | _, c :: rest => Ascii.eqb c "-"%char && hex_groups rest groups'
    | _, [] => false
    end
  end.
Definition stemPattern (stem : string) : bool := hex_groups (bytes stem) [8; 4; 4; 4; 12]%nat.

(** The text in front of one of the endings. *)
Definition before_ext (exts : list string) (l : list ascii) : option (list ascii) :=
  let n := (Datatypes.length l - 4)%nat in
  if bool_decide (text (drop n l) ∈ exts) then Some (take n l) else None.

Definition generated (exts : list string) (name : string) : bool :=
  match before_ext exts (bytes name) with Some stem => stemPattern (text stem) | None => false end.
Definition generatedName := generated [".jpg"; ".png"].
Definition generatedPictureName := generated [".jpg"; ".png"; ".svg"].

Fixpoint span_digits (l : list ascii) : list ascii * list ascii :=
  match l with
  | c :: l' => if is_digit c then let r := span_digits l' in (c :: r.1, r.2) else ([], l)
  | [] => ([], [])
  end.

(** rows-[0-9]{1,6}-thumb-(192|384) *)
Definition row_file (l : list ascii) : bool :=
  String.eqb (text (take 5 l)) "rows-" &&
  let r := span_digits (drop 5 l) in
  (1 <=? Datatypes.length r.1)%nat && (Datatypes.length r.1 <=? 6)%nat && bool_decide (text r.2 ∈ ["-thumb-192"; "-thumb-384"]).

Definition derivedName (name : string) : bool :=
  match before_ext [".jpg"; ".png"] (bytes name) with
  | Some stem => bool_decide (text stem ∈ ["preview"; "thumb-96"; "thumb-192"; "thumb-384"; "thumb-768"]) || row_file stem
  | None => false
  end.

(** ** Directories *)

Inductive Area := AreaIngest | AreaProducts.
Definition area_name (a : Area) : string := match a with AreaIngest => "ingest" | AreaProducts => "products" end.

Inductive UploadError := ErrInvalidName | ErrNotExist | ErrDisk.

(** A directory, and where the sizes derived from its files are. *)
Record Dir := mkDir { dir_root : list string; dir_names : string -> bool; dir_derived : option (list string * Area) }.

Definition IngestDir := ["data"; "uploads"; "ingest"].
Definition ProductImagesDir := ["data"; "uploads"; "products"].
Definition DerivedDir := ["data"; "cache"; "derived"].
Definition CutoutsDir := ["data"; "uploads"; "cutouts"].

Definition NewDir (root : list string) : Dir := mkDir root generatedName None.
Definition NewPictureDir (root : list string) : Dir := mkDir root generatedPictureName None.
Definition RemoveDerivedWith (store : list string) (area : Area) (d : Dir) : Dir := mkDir (dir_root d) (dir_names d) (Some (store, area)).

Definition path (d : Dir) (name : string) : UploadError + list string :=
  if dir_names d name then inr (file_path (dir_root d) name) else inl ErrInvalidName.

(** filepath.Ext and the name without it. *)
Definition last_segment (path : list string) : string := default "" (last path).
Fixpoint before_last_dot (l : list ascii) : option (list ascii) :=
  match l with
  | [] => None
  | c :: l' =>
    match before_last_dot l' with
    | Some stem => Some (c :: stem)
    | None => if Ascii.eqb c "."%char then Some [] else None
    end
  end.
Definition Stem (name : string) : string := text (default (bytes name) (before_last_dot (bytes name))).

(** os.RemoveAll *)
Definition remove_tree (root : list string) (fs : FS) : FS := base.filter (fun kv : list string * list ascii => ~ root `prefix_of` kv.1) fs.

Definition derived_dir (root : list string) (area : Area) (stem : string) : UploadError + Dir :=
  if stemPattern stem then inr (mkDir (file_path (file_path root (area_name area)) stem) derivedName None) else inl ErrInvalidName.

Definition Save (d : Dir) (os : bool) (name : string) (data : list ascii) (fs : FS) : (UploadError + unit) * FS :=
  match path d name with
  | inl e => (inl e, fs)
  | inr target => if os then (inr tt, <[target := data]> fs) else (inl ErrDisk, fs)
  end.

Definition Read (d : Dir) (os : bool) (name : string) (fs : FS) : UploadError + list ascii :=
  match path d name with
  | inl e => inl e
  | inr target => if os then match fs !! target with Some data => inr data | None => inl ErrNotExist end else inl ErrDisk
  end.

Definition Exists (d : Dir) (name : string) (fs : FS) : bool :=
  match path d name with inl _ => false | inr target => bool_decide (is_Some (fs !! target)) end.

Definition RemoveSource (root : list string) (area : Area) (os : bool) (stem : string) (fs : FS) : (UploadError + unit) * FS :=
  match derived_dir root area stem with
  | inl e => (inl e, fs)
  | inr d => if os then (inr tt, remove_tree (dir_root d) fs) else (inl ErrDisk, fs)
  end.

(** A file that is not there is removed already. *)
Definition Remove (d : Dir) (os : bool) (name : string) (fs : FS) : (UploadError + unit) * FS :=
  match path d name with
  | inl e => (inl e, fs)
  | inr target =>
    if os then
      let fs' := delete target fs in
      match dir_derived d with
      | Some (store, area) => RemoveSource store area os (Stem name) fs'
      | None => (inr tt, fs')
      end
    else (inl ErrDisk, fs)
  end.

(** The names of the files directly in a directory, in some order. *)
Definition entries (root : list string) (fs : FS) : list string :=
  omap (fun kv : list string * list ascii =>
    match reverse kv.1 with x :: r => if bool_decide (reverse r = root) then Some x else None | [] => None end) (map_to_list fs).
Definition List (d : Dir) (fs : FS) : list string := List.filter (dir_names d) (entries (dir_root d) fs).

(** ** Derived sizes *)

Definition Write (root : list string) (area : Area) (os : bool) (stem name : string) (data : list ascii) (fs : FS) : (UploadError + unit) * FS :=
  match derived_dir root area stem with inl e => (inl e, fs) | inr d => Save d os name data fs end.
Definition ReadDerived (root : list string) (area : Area) (os : bool) (stem name : string) (fs : FS) : UploadError + list ascii :=
  match derived_dir root area stem with inl e => inl e | inr d => Read d os name fs end.
Definition ExistsDerived (root : list string) (area : Area) (stem name : string) (fs : FS) : bool :=
  match derived_dir root area stem with inl _ => false | inr d => Exists d name fs end.

Definition rowFilePrefix := "rows-".

(** One file after the other; the first that cannot be removed ends it. *)
Fixpoint remove_each (d : Dir) (os : string -> bool) (names : list string) (fs : FS) : (UploadError + unit) * FS :=
  match names with
  | [] => (inr tt, fs)
  | name :: names' =>
    match Remove d (os name) name fs with
    | (inl e, fs') => (inl e, fs')
    | (inr _, fs') => remove_each d os names' fs'
    end
  end.

Definition RemoveRows (root : list string) (area : Area) (os : string -> bool) (stem : string) (fs : FS) : (UploadError + unit) * FS :=
  match derived_dir root area stem with
  | inl e => (inl e, fs)
  | inr d => remove_each d os (List.filter (fun name => String.prefix rowFilePrefix name && derivedName name) (entries (dir_root d) fs)) fs
  end.

(** The directories of an area that files lie in. *)
Definition Stems (root : list string) (area : Area) (fs : FS) : list string :=
  let base := file_path root (area_name area) in
  List.filter stemPattern (elements (list_to_set (omap (fun kv : list string * list ascii =>
    if bool_decide (take (Datatypes.length base) kv.1 = base) then
      match drop (Datatypes.length base) kv.1 with stem :: _ :: _ => Some stem | _ => None end
    else None) (map_to_list fs)) : gset string)).

(** ** Files of a job: jobdirs.go *)

Section jobs.
Context (uuid_String : Z -> string).
Definition job_dir (root : list string) (job : Z) : Dir := NewDir (file_path root (uuid_String job)).
Definition SaveJob (root : list string) (job : Z) := Save (job_dir root job).
Definition ReadJob (root : list string) (job : Z) := Read (job_dir root job).
Definition RemoveAll (root : list string) (os : bool) (job : Z) (fs : FS) : (UploadError + unit) * FS :=
  if os then (inr tt, remove_tree (file_path root (uuid_String job)) fs) else (inl ErrDisk, fs).
End jobs.

(** ** A name never leaves its directory *)

(** One segment of a path, and no way up. *)
Definition segment (name : string) : Prop :=
  Forall (fun c => c ≠ slash) (bytes name) /\ name ∉ [""; "."; ".."].

Lemma split_no_sep sep piece l : Forall (fun c => c ≠ sep) l -> split_from sep piece l = [reverse piece ++ l].
Proof.
  revert piece. induction l as [|c l IH]; intros piece Hl; cbn; [by rewrite app_nil_r|].
  apply Forall_cons in Hl as [Hc Hl]. destruct (Ascii.eqb_spec c sep); [done|]. rewrite IH by done.
  by rewrite reverse_cons, <- app_assoc.
Qed.

Lemma file_path_segment root name : clean_path root = root -> segment name -> file_path root name = root ++ [name].
Proof.
  intros Hr [Hs Hn]. unfold file_path. rewrite split_no_sep by done. cbn. rewrite text_bytes.
  unfold clean_path in *. rewrite foldl_app, Hr. cbn. unfold clean_step.
  destruct (String.eqb_spec name ""), (String.eqb_spec name "."), (String.eqb_spec name ".."); subst; try done; exfalso; apply Hn; set_solver.
Qed.

Lemma segment_clean root name : clean_path root = root -> segment name -> clean_path (root ++ [name]) = root ++ [name].
Proof.
  intros Hr [_ Hn]. unfold clean_path in *. rewrite foldl_app, Hr. cbn. unfold clean_step.
  destruct (String.eqb_spec name ""), (String.eqb_spec name "."), (String.eqb_spec name ".."); subst; try done; exfalso; apply Hn; set_solver.
Qed.

(** Letters, digits and hyphens. *)
Definition plain_byte (c : ascii) : bool := is_digit c || in_range 97 122 c || (byte_code c =? 45).

Lemma plain_no_slash c : plain_byte c = true -> c ≠ slash.
Proof. intros H ->. vm_compute in H. discriminate H. Qed.

Lemma hex_plain c : is_hex c = true -> plain_byte c = true.
Proof. destruct c as [[] [] [] [] [] [] [] []]; vm_compute; done. Qed.

Lemma hex_groups_plain l groups : hex_groups l groups = true -> Forall (fun c => plain_byte c = true) l.
Proof.
  revert l. induction groups as [|n groups IH]; intros l H.
  - cbn in H. by destruct l.
  - cbn [hex_groups] in H. apply andb_true_iff in H as [H Hr]. apply andb_true_iff in H as [_ Hg].
    rewrite <- (take_drop n l). apply Forall_app. split.
    + apply Forall_forall. intros c Hc. rewrite forallb_forall in Hg. apply list_elem_of_In, Hg in Hc.
      by apply hex_plain.
    + destruct groups as [|m groups].
      * by destruct (drop n l).
      * destruct (drop n l) as [|c rest]; [constructor|]. apply andb_true_iff in Hr as [Hc Hr].
        constructor; [apply Ascii.eqb_eq in Hc as ->; reflexivity | by apply IH].
Qed.

Lemma before_ext_split exts l stem : before_ext exts l = Some stem -> exists ext, ext ∈ exts /\ l = stem ++ bytes ext.
Proof.
  unfold before_ext. case_bool_decide as Hin; [|done]. intros [= <-]. eexists. split; [exact Hin|].
  by rewrite bytes_text, take_drop.
Qed.

(** The endings a name may have. *)
Definition ending (ext : string) : Prop := ext ∈ [".jpg"; ".png"; ".svg"].

Lemma named_segment exts l name : before_ext exts (bytes name) = Some l -> Forall ending exts ->
  Forall (fun c => plain_byte c = true) l -> l ≠ [] -> segment name.
Proof.
  intros H He Hl Hne. apply before_ext_split in H as (ext & Hin & E). rewrite Forall_forall in He. apply He in Hin. clear He. split.
  - rewrite E. apply Forall_app. split; [eapply Forall_impl; [exact Hl | exact plain_no_slash]|].
    unfold ending in Hin. set_unfold. destruct_or!; subst; repeat constructor; done.
  - intros Hn. assert (Hlen : (Datatypes.length (bytes name) <= 2)%nat) by (set_unfold in Hn; destruct_or!; subst; cbn; lia).
    rewrite E, length_app in Hlen. unfold ending in Hin. set_unfold in Hin. destruct_or!; subst; cbn in Hlen; lia.
Qed.

Lemma stem_plain stem : stemPattern stem = true -> Forall (fun c => plain_byte c = true) (bytes stem) /\ bytes stem ≠ [].
Proof. intros H. split; [by eapply hex_groups_plain|]. intros E. unfold stemPattern in H. rewrite E in H. discriminate H. Qed.

Lemma generated_segment exts name : Forall ending exts -> generated exts name = true -> segment name.
Proof.
  intros He H. unfold generated in H. destruct (before_ext exts (bytes name)) as [l|] eqn:E; [|done].
  apply stem_plain in H as [Hl Hne]. rewrite bytes_text in Hl, Hne. by eapply named_segment.
Qed.

Lemma span_digits_split l : l = (span_digits l).1 ++ (span_digits l).2 /\ Forall (fun c => plain_byte c = true) (span_digits l).1.
Proof.
  induction l as [|c l [IH1 IH2]]; [by split|]. cbn. destruct (is_digit c) eqn:D; cbn; [|by split].
  split; [by f_equal|]. constructor; [|done]. unfold plain_byte. by rewrite D.
Qed.

Lemma row_file_plain l : row_file l = true -> Forall (fun c => plain_byte c = true) l.
Proof.
  unfold row_file. intros H. apply andb_true_iff in H as [Hp H]. apply andb_true_iff in H as [_ Hr].
  apply String.eqb_eq in Hp. apply bool_decide_eq_true in Hr. rewrite <- (take_drop 5 l). apply Forall_app. split.
  - rewrite <- (bytes_text (take 5 l)), Hp. repeat constructor.
  - destruct (span_digits_split (drop 5 l)) as [E D]. rewrite E. apply Forall_app. split; [done|].
    rewrite <- (bytes_text (span_digits (drop 5 l)).2). set_unfold. destruct Hr as [-> | [-> | []]]; repeat constructor.
Qed.

Lemma derived_segment name : derivedName name = true -> segment name.
Proof.
  unfold derivedName. destruct (before_ext _ (bytes name)) as [l|] eqn:E; [|done]. intros H.
  assert (D : Forall (fun c => plain_byte c = true) l /\ l ≠ []).
  { apply orb_true_iff in H as [H|H].
    - apply bool_decide_eq_true in H. rewrite <- (bytes_text l).
      set_unfold. destruct_or!; match goal with H : text l = _ |- _ => rewrite H end; (split; [repeat constructor | discriminate]).
    - split; [by apply row_file_plain|]. intros ->. discriminate H. }
  destruct D as [Hl Hne]. eapply named_segment; [exact E | | exact Hl | exact Hne]. repeat constructor; unfold ending; set_solver.
Qed.

(** The derived store a directory is linked to, if it is: main.go links both. *)
Definition linked_clean (derived : option (list string * Area)) : Prop :=
  forall store area, derived = Some (store, area) -> clean_path store = store.

(** The directories the server opens. *)
Inductive server_dir : Dir -> Prop :=
| sd_photos root derived : clean_path root = root -> linked_clean derived -> server_dir (mkDir root generatedName derived)
| sd_pictures root derived : clean_path root = root -> linked_clean derived -> server_dir (mkDir root generatedPictureName derived)
| sd_derived root area stem d : clean_path root = root -> derived_dir root area stem = inr d -> server_dir d.

Lemma stem_segment stem : stemPattern stem = true -> segment stem.
Proof.
  intros H. split.
  - apply stem_plain in H as [Hl _]. eapply Forall_impl; [exact Hl | exact plain_no_slash].
  - intros Hin. set_unfold in Hin. destruct_or!; subst; vm_compute in H; done.
Qed.

Lemma area_segment area : segment (area_name area).
Proof. destruct area; (split; [repeat constructor; done | set_solver]). Qed.

Lemma derived_dir_root root area stem d : clean_path root = root -> derived_dir root area stem = inr d ->
  dir_root d = root ++ [area_name area; stem] /\ dir_names d = derivedName /\ dir_derived d = None.
Proof.
  intros Hr H. unfold derived_dir in H. destruct (stemPattern stem) eqn:Hs; [|done]. injection H as <-. cbn.
  rewrite (file_path_segment root) by (done || apply area_segment).
  rewrite file_path_segment; [by rewrite <- app_assoc | | by apply stem_segment].
  apply segment_clean; [done | apply area_segment].
Qed.

Lemma server_dir_names d name : server_dir d -> dir_names d name = true -> segment name /\ clean_path (dir_root d) = dir_root d.
Proof.
  intros Hd. destruct Hd as [root derived Hr _|root derived Hr _|root area stem d Hr Hd]; cbn.
  - intros H. split; [|done]. eapply generated_segment; [|exact H]. repeat constructor; unfold ending; set_solver.
  - intros H. split; [|done]. eapply generated_segment; [|exact H]. repeat constructor; unfold ending; set_solver.
  - destruct (derived_dir_root root area stem d Hr Hd) as (E & -> & _). intros H. split; [by apply derived_segment|].
    unfold derived_dir in Hd. destruct (stemPattern stem) eqn:Hs; [|done]. rewrite E.
    change [area_name area; stem] with ([area_name area] ++ [stem]). rewrite app_assoc.
    apply segment_clean; [|by apply stem_segment]. apply segment_clean; [done | apply area_segment].
Qed.

Lemma path_ok d name target : server_dir d -> path d name = inr target -> segment name /\ target = dir_root d ++ [name].
Proof.
  intros Hd H. unfold path in H. destruct (dir_names d name) eqn:Hn; [|done]. injection H as <-.
  destruct (server_dir_names d name Hd Hn) as [Hs Hr]. split; [done | by apply file_path_segment].
Qed.

Lemma before_last_dot_app l rest : Forall (fun c => c ≠ "."%char) rest -> before_last_dot (l ++ "."%char :: rest) = Some l.
Proof.
  intros Hr. assert (E : before_last_dot rest = None).
  { induction Hr as [|c rest Hc _ IH]; [done|]. cbn. rewrite IH. by destruct (Ascii.eqb_spec c "."%char). }
  induction l as [|c l IH]; cbn; [by rewrite E | by rewrite IH].
Qed.

Lemma generated_stem exts name : Forall ending exts -> generated exts name = true -> stemPattern (Stem name) = true.
Proof.
  intros He H. unfold generated in H. destruct (before_ext exts (bytes name)) as [l|] eqn:E; [|done].
  apply before_ext_split in E as (ext & Hin & E). rewrite Forall_forall in He. apply He in Hin. unfold Stem. rewrite E.
  assert (X : exists rest, bytes ext = "."%char :: rest /\ Forall (fun c => c ≠ "."%char) rest).
  { unfold ending in Hin. set_unfold in Hin. destruct_or!; subst; eexists; (split; [reflexivity | repeat constructor; done]). }
  destruct X as (rest & -> & Hrest). by rewrite before_last_dot_app.
Qed.

(** A linked directory has a tree of derived sizes for each of its files. *)
Lemma linked_tree d name store area : server_dir d -> dir_names d name = true -> dir_derived d = Some (store, area) ->
  exists d', derived_dir store area (Stem name) = inr d' /\ dir_root d' = store ++ [area_name area; Stem name].
Proof.
  intros Hd Hn E. assert (Hclean : clean_path store = store /\ stemPattern (Stem name) = true).
  { destruct Hd as [root derived Hr Hl|root derived Hr Hl|root area' stem d Hr Hd]; cbn in Hn, E.
    - split; [by eapply Hl|]. eapply generated_stem; [|exact Hn]. repeat constructor; unfold ending; set_solver.
    - split; [by eapply Hl|]. eapply generated_stem; [|exact Hn]. repeat constructor; unfold ending; set_solver.
    - apply derived_dir_root in Hd as (_ & _ & Hd); [congruence | done]. }
  destruct Hclean as [Hc Hs]. destruct (derived_dir store area (Stem name)) as [e|d'] eqn:D.
  - unfold derived_dir in D. rewrite Hs in D. done.
  - exists d'. split; [done|]. by apply (derived_dir_root store area (Stem name) d' Hc).
Qed.

(** What goes with a file: itself, and the tree of the sizes derived from it. *)
Definition goes_with (d : Dir) (name : string) (other : list string) : Prop :=
  other = dir_root d ++ [name] \/
  exists store area, dir_derived d = Some (store, area) /\ (store ++ [area_name area; Stem name]) `prefix_of` other.

Lemma Remove_spec d os name fs r fs' : server_dir d -> Remove d os name fs = (r, fs') ->
  (r = inr tt <-> dir_names d name = true /\ os = true) /\ (r ≠ inr tt -> fs' = fs) /\
  (r = inr tt -> segment name /\ forall other, (goes_with d name other -> fs' !! other = None) /\ (~ goes_with d name other -> fs' !! other = fs !! other)).
Proof.
  intros Hdir H. unfold Remove in H. destruct (path d name) as [e|target] eqn:Hp.
  { injection H as <- <-. unfold path in Hp. destruct (dir_names d name); [done|]. split; [|split; [done|]]; naive_solver. }
  destruct (path_ok d name target Hdir Hp) as [Hs ->]. assert (Hn : dir_names d name = true) by (unfold path in Hp; by destruct (dir_names d name)).
  destruct os; [|injection H as <- <-; split; [|split; [done|]]; naive_solver].
  destruct (dir_derived d) as [[store area]|] eqn:Hl.
  - destruct (linked_tree d name store area Hdir Hn Hl) as (d' & Hd' & Er). unfold RemoveSource in H. rewrite Hd' in H. injection H as <- <-.
    rewrite Er. split; [done|]. split; [done|]. intros _. split; [done|]. intros other. unfold remove_tree. rewrite map_lookup_filter. split.
    + intros [->|(store' & area' & E & Hpre)]; [by rewrite lookup_delete_eq|]. rewrite Hl in E. injection E as <- <-.
      destruct (delete _ fs !! other); [|done]. cbn. by case_guard.
    + intros Hno. rewrite lookup_delete_ne by (intros <-; apply Hno; by left). destruct (fs !! other); [|done]. cbn.
      case_guard as Hg; [done|]. exfalso. apply Hno. right. eauto.
  - injection H as <- <-. split; [done|]. split; [done|]. intros _. split; [done|]. intros other. split.
    + intros [->|(? & ? & E & _)]; [by rewrite lookup_delete_eq | congruence].
    + intros Hno. apply lookup_delete_ne. intros <-. apply Hno. by left.
Qed.


Definition sample_name := "01912345-6789-7abc-8def-0123456789ab.png".

Definition linked_pictures : Dir := RemoveDerivedWith DerivedDir AreaProducts (NewPictureDir ProductImagesDir).
Definition sample_thumb := ["data"; "cache"; "derived"; "products"; "01912345-6789-7abc-8def-0123456789ab"; "thumb-96.png"].


