(* ===== verification/Password.v ===== *)
(** * Password hashes: internal/auth/password.go

    The encoding of an argon2id hash and its reading back.  argon2.IDKey itself is
    third-party code: [IDKey] is an argument, a function of the password, the salt,
    the costs and the length of the key. *)

From Stdlib Require Import Ascii String Decimal DecimalString.
From S2P Require Import Prelude Text Encoding.

#[local] Open Scope string_scope.
#[local] Open Scope list_scope.
#[local] Open Scope Z_scope.

Record argonParams := mkArgon { memory : Z; time : Z; threads : Z }.

Definition argonMemoryKiB : Z := 19 * 1024.
Definition argonTime : Z := 2.
Definition argonThreads : Z := 1.
Definition argonSaltBytes : Z := 16.
Definition argonKeyBytes : Z := 32.

(** argon2.Version *)
Definition argon2_Version : Z := 19.

(** What the call of [decodeHash] can say. *)
Inductive HashError := ErrInvalidHash.

Definition dollar : ascii := "$".
Definition comma : ascii := ",".

Definition Split (s : string) (sep : ascii) : list string := map text (split_from sep [] (bytes s)).

(** A verb of Sscanf whose value prints back as the text it was read from: the
    decimal numeral of a number in range, without leading zeros.  Anything else
    fails the scan or the comparison that follows it. *)
Definition scan_back (prefix : string) (lo hi : Z) (s : string) : option Z :=
  if String.prefix prefix s then
    n ← ParseInt (String.substring (String.length prefix) (String.length s - String.length prefix) s);
    if (lo <=? n) && (n <=? hi) && String.eqb (prefix +:+ FormatInt n) s then Some n else None
  else None.

Definition decodeHash (encoded : string) : HashError + (argonParams * list ascii * list ascii) :=
  match Split encoded dollar with
  | [p0; p1; p2; p3; p4; p5] =>
    if negb (String.eqb p0 "" && String.eqb p1 "argon2id") then inl ErrInvalidHash
    else match scan_back "v=" (- 2 ^ 63) (2 ^ 63 - 1) p2 with
    | None => inl ErrInvalidHash
    | Some version =>
      if negb (version =? argon2_Version) then inl ErrInvalidHash
      else match Split p3 comma with
      | [m; t; p] =>
        match scan_back "m=" 0 (2 ^ 32 - 1) m, scan_back "t=" 0 (2 ^ 32 - 1) t, scan_back "p=" 0 255 p with
        | Some m, Some t, Some p =>
          if (m =? 0) || (t =? 0) || (p =? 0) then inl ErrInvalidHash
          else match DecodeString RawStdEncoding p4, DecodeString RawStdEncoding p5 with
          | Some salt, Some digest =>
            match salt, digest with
            | [], _ | _, [] => inl ErrInvalidHash
            | _, _ => inr (mkArgon m t p, salt, digest)
            end
          | _, _ => inl ErrInvalidHash
          end
        | _, _, _ => inl ErrInvalidHash
        end
      | _ => inl ErrInvalidHash
      end
    end
  | _ => inl ErrInvalidHash
  end.

Section argon2.
Context (IDKey : string -> list ascii -> argonParams -> Z -> list ascii).

Definition livePar : argonParams := mkArgon argonMemoryKiB argonTime argonThreads.

(** [salt] is what rand.Read filled in; without it there is no hash. *)
Definition HashPassword (salt : list ascii) (password : string) : string :=
  let digest := IDKey password salt livePar argonKeyBytes in
  "$argon2id$v=" +:+ FormatInt argon2_Version +:+ "$m=" +:+ FormatInt argonMemoryKiB +:+ ",t=" +:+ FormatInt argonTime +:+
  ",p=" +:+ FormatInt argonThreads +:+ "$" +:+ EncodeToString RawStdEncoding salt +:+ "$" +:+
  EncodeToString RawStdEncoding digest.

(** ConstantTimeCompare is equality of the bytes, lengths included. *)
Definition VerifyPassword (encoded password : string) : HashError + bool :=
  match decodeHash encoded with
  | inl e => inl e
  | inr (params, salt, want) =>
    inr (bool_decide (IDKey password salt params (Z.of_nat (Datatypes.length want)) = want))
  end.

End argon2.

(** ** A hash verifies the password it was made from *)

Lemma split_from_app sep piece a b :
  sep ∉ a -> split_from sep piece (a ++ sep :: b) = (reverse piece ++ a) :: split_from sep [] b.
Proof.
  revert piece. induction a as [|c a IH]; intros piece Ha; cbn [split_from app].
  - by rewrite Ascii.eqb_refl, app_nil_r.
  - apply not_elem_of_cons in Ha as [Hne Ha]. destruct (Ascii.eqb_spec c sep); [congruence|].
    rewrite IH by done. by rewrite reverse_cons, <- app_assoc.
Qed.

Lemma split_from_last sep piece a : sep ∉ a -> split_from sep piece a = [reverse piece ++ a].
Proof.
  revert piece. induction a as [|c a IH]; intros piece Ha; cbn [split_from].
  - by rewrite app_nil_r.
  - apply not_elem_of_cons in Ha as [Hne Ha]. destruct (Ascii.eqb_spec c sep); [congruence|].
    rewrite IH by done. by rewrite reverse_cons, <- app_assoc.
Qed.

(** base64 text holds no dollar sign. *)
Lemma sextets_no_dollar enc :
  forallb (fun v => negb (Ascii.eqb (sextet enc v) dollar)) (map Z.of_nat (seq 0 64)) = true.
Proof. by destruct enc; vm_compute. Qed.

Lemma sextet_no_dollar enc v : 0 <= v < 64 -> dollar ≠ sextet enc v.
Proof.
  intros Hv E. pose proof (sextets_no_dollar enc) as H. rewrite forallb_forall in H.
  assert (Hin : In v (map Z.of_nat (seq 0 64))) by (apply in_map_iff; exists (Z.to_nat v); rewrite in_seq; lia).
  apply H in Hin. by rewrite <- E, Ascii.eqb_refl in Hin.
Qed.

Lemma encode_no_dollar enc l : dollar ∉ encode enc l.
Proof.
  induction l as [| a | a b | a b c r IH] using groups_ind; cbn [encode];
    repeat (apply not_elem_of_cons; split; [apply sextet_no_dollar; codes|]); try apply not_elem_of_nil; exact IH.
Qed.

(** Splitting at a separator undoes joining with it. *)
Lemma split_from_join sep l : l ≠ [] -> Forall (fun p => sep ∉ p) l -> split_from sep [] (join_bytes [sep] l) = l.
Proof.
  induction l as [|p l IH]; intros Hne H; [done|]. apply Forall_cons in H as [Hp Hl]. destruct l as [|q l].
  - by rewrite split_from_last.
  - change (join_bytes [sep] (p :: q :: l)) with (p ++ sep :: join_bytes [sep] (q :: l)).
    rewrite split_from_app by done. by rewrite IH.
Qed.

(** The pieces of a hash between its dollar signs. *)
Lemma Split_hash IDKey salt password :
  Split (HashPassword IDKey salt password) dollar =
  [""; "argon2id"; "v=19"; "m=19456,t=2,p=1"; EncodeToString RawStdEncoding salt;
   EncodeToString RawStdEncoding (IDKey password salt livePar argonKeyBytes)].
Proof.
  unfold Split. set (digest := IDKey password salt livePar argonKeyBytes).
  assert (E : bytes (HashPassword IDKey salt password) =
    join_bytes [dollar] [[]; bytes "argon2id"; bytes "v=19"; bytes "m=19456,t=2,p=1"; encode RawStdEncoding salt;
                         encode RawStdEncoding digest]).
  { unfold HashPassword. fold digest.
    replace (FormatInt argon2_Version) with "19" by (by vm_compute).
    replace (FormatInt argonMemoryKiB) with "19456" by (by vm_compute).
    replace (FormatInt argonTime) with "2" by (by vm_compute).
    replace (FormatInt argonThreads) with "1" by (by vm_compute).
    assert (S : forall a b, bytes ("$argon2id$v=" +:+ "19" +:+ "$m=" +:+ "19456" +:+ ",t=" +:+ "2" +:+ ",p=" +:+ "1" +:+ "$" +:+ a +:+
      "$" +:+ b) = bytes "$argon2id$v=19$m=19456,t=2,p=1$" ++ bytes a ++ dollar :: bytes b).
    { intros a b. cbn [String.append]. change (String "$" b) with ("$" +:+ b).
      repeat (apply (f_equal (cons _)); fold bytes). exact (bytes_app a ("$" +:+ b)). }
    rewrite S. unfold EncodeToString. rewrite (bytes_text (encode RawStdEncoding salt)).
    rewrite (bytes_text (encode RawStdEncoding digest)). reflexivity. }
  rewrite E, split_from_join; [reflexivity | done |].
  repeat first [apply Forall_cons; split | apply Forall_nil]; try apply encode_no_dollar;
    apply (bool_decide_unpack _); by vm_compute.
Qed.

(** VerifyPassword accepts a hash made by HashPassword exactly for the passwords
    with the same argon2id key, the right one among them, and never calls the hash
    malformed; the salt and the digest being the bytes HashPassword asks for. *)
Theorem VerifyPassword_HashPassword IDKey salt password attempt :
  salt ≠ [] ->
  (forall p s c n, 0 <= n -> Z.of_nat (Datatypes.length (IDKey p s c n)) = n) ->
  VerifyPassword IDKey (HashPassword IDKey salt password) attempt =
    inr (bool_decide (IDKey attempt salt livePar argonKeyBytes = IDKey password salt livePar argonKeyBytes)) /\
  VerifyPassword IDKey (HashPassword IDKey salt password) password = inr true.
Proof.
  intros Hs Hk.
  assert (D : forall digest, digest = IDKey password salt livePar argonKeyBytes ->
    decodeHash (HashPassword IDKey salt password) = inr (livePar, salt, digest)).
  { intros digest ->. unfold decodeHash. rewrite Split_hash.
    replace (negb (String.eqb "" "" && String.eqb "argon2id" "argon2id")) with false by done.
    replace (scan_back "v=" (- 2 ^ 63) (2 ^ 63 - 1) "v=19") with (Some 19) by (by vm_compute).
    replace (Split "m=19456,t=2,p=1" comma) with ["m=19456"; "t=2"; "p=1"] by (by vm_compute).
    replace (scan_back "m=" 0 (2 ^ 32 - 1) "m=19456") with (Some 19456) by (by vm_compute).
    replace (scan_back "t=" 0 (2 ^ 32 - 1) "t=2") with (Some 2) by (by vm_compute).
    replace (scan_back "p=" 0 255 "p=1") with (Some 1) by (by vm_compute).
    rewrite !DecodeString_EncodeToString. cbn [Z.eqb negb orb Pos.eqb].
    destruct salt as [|c salt]; [done|]. specialize (Hk password (c :: salt) livePar argonKeyBytes ltac:(done)).
    destruct (IDKey password (c :: salt) livePar argonKeyBytes) as [|k key]; [done | reflexivity]. }
  assert (V : forall q, VerifyPassword IDKey (HashPassword IDKey salt password) q =
    inr (bool_decide (IDKey q salt livePar argonKeyBytes = IDKey password salt livePar argonKeyBytes))).
  { intros q. unfold VerifyPassword. rewrite (D _ eq_refl). by rewrite (Hk _ _ _ argonKeyBytes). }
  split; [apply V|]. rewrite V. by rewrite bool_decide_eq_true_2.
Qed.

(** A key function that keeps the start of the password. *)
Definition sample_key (password : string) (salt : list ascii) (c : argonParams) (n : Z) : list ascii :=
  take (Z.to_nat n) (bytes password ++ replicate (Z.to_nat n) zero).

Lemma length_sample_key p s c n : 0 <= n -> Z.of_nat (Datatypes.length (sample_key p s c n)) = n.
Proof. intros Hn. unfold sample_key. rewrite length_take, length_app, length_replicate. lia. Qed.

Lemma VerifyPassword_HashPassword_witness :
  let hash := HashPassword sample_key (bytes "sixteen bytes..!") "correct horse" in
  VerifyPassword sample_key hash "correct horse" = inr true /\
  VerifyPassword sample_key hash "battery staple" = inr false.
Proof.
  cbv zeta. split.
  - by apply (VerifyPassword_HashPassword sample_key (bytes "sixteen bytes..!") "correct horse" "" ltac:(discriminate) length_sample_key).
  - rewrite (proj1 (VerifyPassword_HashPassword sample_key (bytes "sixteen bytes..!") "correct horse" "battery staple"
      ltac:(discriminate) length_sample_key)). by vm_compute.
Defined.
