(* ===== verification/Json.v ===== *)
(** * JSON values and the decoding of request bodies: encoding/json as it is used

    A request body is read into a struct whose fields are text, numbers, flags or
    pointers to these: a member is matched to its field without regard to case,
    null leaves a field as it is, the last member of a name wins, and a value of
    another type is an error. *)

From Stdlib Require Import Ascii String.
From S2P Require Import Prelude Gamification Text Encoding.

#[local] Open Scope list_scope.
#[local] Open Scope Z_scope.

(** A number whose text is not an integer is kept as text. *)
Inductive Json :=
| JNull
| JBool (b : bool)
| JNum (z : Z)
| JReal (literal : string)
(** a float64 that is written, as the value it is *)
| JFloat (f : float64)
| JStr (s : string)
(** an instant, printed as RFC 3339 *)
| JTime (t : Z)
| JArr (l : list Json)
| JObj (l : list (string * Json)).

(** ** Names *)

(** foldName: ASCII letters, the Kelvin sign and the long s fold to lower case. *)
Fixpoint fold_name (l : list ascii) : list ascii :=
  match l with
  | [] => []
  | c :: l1 =>
    match l1 with
    | c2 :: l2 =>
      if (byte_code c =? 197) && (byte_code c2 =? 191) then "s"%char :: fold_name l2
      else match l2 with
        | c3 :: l3 =>
          if (byte_code c =? 226) && (byte_code c2 =? 132) && (byte_code c3 =? 170) then "k"%char :: fold_name l3
          else lower c :: fold_name l1
        | [] => lower c :: fold_name l1
        end
    | [] => [lower c]
    end
  end.

Definition names_field (name key : string) : bool := bool_decide (fold_name (bytes key) = fold_name (bytes name)).

(** ** Fields *)

(** A field's values are applied in the order of the text; [None] is a type error. *)
Definition read_field {A} (name : string) (read : A -> Json -> option A) (zero : A) (obj : list (string * Json)) : option A :=
  foldl (fun acc kv => v ← acc; if names_field name kv.1 then read v kv.2 else Some v) (Some zero) obj.

Definition read_string (old : string) (j : Json) : option string :=
  match j with JNull => Some old | JStr s => Some s | _ => None end.
Definition read_bool (old : bool) (j : Json) : option bool :=
  match j with JNull => Some old | JBool b => Some b | _ => None end.
(** int has 64 bits *)
Definition read_int (old : Z) (j : Json) : option Z :=
  match j with JNull => Some old | JNum z => if (- 2 ^ 63 <=? z) && (z <? 2 ^ 63) then Some z else None | _ => None end.
Definition read_strings (old : list string) (j : Json) : option (list string) :=
  match j with
  | JNull => Some []
  | JArr l => mapM (fun e => read_string ""%string e) l
  | _ => None
  end.

(** A pointer: null and absence are nil. *)
Definition read_ptr {A} (read : A -> Json -> option A) (zero : A) (old : option A) (j : Json) : option (option A) :=
  match j with JNull => Some None | _ => a ← read (default zero old) j; Some (Some a) end.

(** A json.RawMessage keeps the value, null included. *)
Definition read_raw (old : option Json) (j : Json) : option (option Json) := Some (Some j).

Definition str_field (name : string) := read_field name read_string ""%string.
Definition bool_field (name : string) := read_field name read_bool false.
Definition int_field (name : string) := read_field name read_int 0.
Definition str_ptr (name : string) := read_field name (read_ptr read_string ""%string) None.
Definition int_ptr (name : string) := read_field name (read_ptr read_int 0) None.
Definition bool_ptr (name : string) := read_field name (read_ptr read_bool false) None.
Definition raw_field (name : string) := read_field name read_raw None.

(** A slice of structs. *)
Definition read_slice {A} (read : Json -> option A) (old : list A) (j : Json) : option (list A) :=
  match j with JNull => Some [] | JArr l => mapM read l | _ => None end.
Definition slice_field {A} (name : string) (read : Json -> option A) := read_field name (read_slice read) [].

(** The members of the value read into a struct: null is the struct as it was. *)
Definition members (j : Json) : option (list (string * Json)) :=
  match j with JNull => Some [] | JObj l => Some l | _ => None end.

Definition read_struct {A} (read : list (string * Json) -> option A) (j : Json) : option A := l ← members j; read l.

(** A pointer to a struct. *)
Definition struct_ptr {A} (name : string) (read : list (string * Json) -> option A) :=
  read_field name (fun (_ : option A) j => match j with JNull => Some None | _ => a ← read_struct read j; Some (Some a) end) None.

(** ** Text *)

(** strconv.Quote on printable text. *)
Definition quote_byte (c : ascii) : list ascii :=
  if (byte_code c =? 34) || (byte_code c =? 92) then ["\"%char; c]
  else if byte_code c =? 10 then ["\"%char; "n"%char]
  else if byte_code c =? 13 then ["\"%char; "r"%char]
  else if byte_code c =? 9 then ["\"%char; "t"%char]
  else [c].
Definition quote_mark : ascii := ascii_of_N 34.
Definition Quote (s : string) : string := text (quote_mark :: flat_map quote_byte (bytes s) ++ [quote_mark]).

(** A byte that starts a rune: encoding/json only yields valid UTF-8. *)
Definition rune_start (c : ascii) : bool := negb (in_range 128 191 c).

Definition RuneCountInString (s : string) : Z := Z.of_nat (Datatypes.length (List.filter rune_start (bytes s))).

(** string([]rune(s)[:n]) *)
Fixpoint take_runes (n : nat) (l : list ascii) : list ascii :=
  match l with
  | [] => []
  | c :: l' =>
    if rune_start c then match n with O => [] | S n' => c :: take_runes n' l' end
    else c :: take_runes n l'
  end.

(** The order of sort.Strings. *)
Definition text_le (a b : string) : Prop := String.leb a b = true.
#[global] Instance text_le_dec a b : Decision (text_le a b).
Proof. unfold text_le. apply _. Defined.
#[global] Instance text_le_total : Total text_le.
Proof. intros a b. apply String.leb_total. Qed.
#[global] Instance text_le_trans : Transitive text_le.
Proof. intros a b c H1 H2. apply Is_true_true. transitivity b; by apply Is_true_true. Qed.

(** A nullable column. *)
Definition opt_json {A} (f : A -> Json) (o : option A) : Json := match o with Some a => f a | None => JNull end.

(** ** Members that no field is named after *)

(** The shape of a struct: its fields, each a value, a struct or a slice. *)
Inductive Shape :=
| Leaf
| Struct (fields : list (string * Shape))
| Slice (elem : Shape).

Definition field_shape (fields : list (string * Shape)) (key : string) : option Shape :=
  snd <$> List.find (fun f : string * Shape => names_field f.1 key) fields.

(** The first unknown member with the document up to it. *)
Fixpoint cut_unknown (sh : Shape) (j : Json) {struct j} : option (string * Json) :=
  match j, sh with
  | JObj l, Struct fields =>
    (fix walk (before : list (string * Json)) (l : list (string * Json)) : option (string * Json) :=
       match l with
       | [] => None
       | (key, v) :: l' =>
         match field_shape fields key with
         | None => Some (key, JObj before)
         | Some sh' =>
           match cut_unknown sh' v with
           | Some (unknown, v') => Some (unknown, JObj (before ++ [(key, v')]))
           | None => walk (before ++ [(key, v)]) l'
           end
         end
       end) [] l
  | JArr l, Slice sh' =>
    (fix walk (before : list Json) (l : list Json) : option (string * Json) :=
       match l with
       | [] => None
       | v :: l' =>
         match cut_unknown sh' v with
         | Some (unknown, v') => Some (unknown, JArr (before ++ [v']))
         | None => walk (before ++ [v]) l'
         end
       end) [] l
  | _, _ => None
  end.

Definition plain (names : list string) : list (string * Shape) := map (fun name => (name, Leaf)) names.

Example cut_nested :
  cut_unknown (Struct [("a", Leaf); ("items", Slice (Struct [("id", Leaf)]))]%string)
    (JObj [("A", JNum 1); ("items", JArr [JObj [("ID", JNull)]; JObj [("x", JNull)]]); ("y", JNull)]%string)
  = Some ("x", JObj [("A", JNum 1); ("items", JArr [JObj [("ID", JNull)]; JObj []])])%string.
Proof. reflexivity. Qed.
