(* ===== verification/Net.v ===== *)
(** * Addresses: net.ParseIP, net.SplitHostPort and the client address of ratelimit.go

    An address is sixteen bytes, an IPv4 one mapped into them.  The address a
    request is counted under is the connection's peer, or what the proxy reports
    when the peer is internal. *)

From Stdlib Require Import Ascii String.
From S2P Require Import Prelude Text Encoding Password.

#[local] Open Scope list_scope.
#[local] Open Scope Z_scope.

Definition colon : ascii := ":".
Definition dot : ascii := ".".
Definition open_bracket : ascii := "[".
Definition close_bracket : ascii := "]".
Definition percent : ascii := "%".

(** ** net.ParseIP *)

Definition digit_value (c : ascii) : Z := byte_code c - 48.

(** One octet: digits without a leading zero, at most 255. *)
Definition octet (l : list ascii) : option Z :=
  match l with
  | [] => None
  | c :: rest =>
    if negb (forallb is_digit l) then None
    else if (byte_code c =? 48) && negb (is_nil (head rest)) then None
    else let v := foldl (fun n d => n * 10 + digit_value d) 0 l in
      if 255 <? v then None else Some v
  end.

Definition parseIPv4Fields (l : list ascii) : option (list Z) :=
  match split_from dot [] l with
  | [a; b; c; d] => a ← octet a; b ← octet b; c ← octet c; d ← octet d; Some [a; b; c; d]
  | _ => None
  end.

Definition mapped : list Z := [0;0;0;0; 0;0;0;0; 0;0;255;255].

Definition hex_value (c : ascii) : option Z :=
  if is_digit c then Some (digit_value c)
  else if in_range 97 102 c then Some (byte_code c - 87)
  else if in_range 65 70 c then Some (byte_code c - 55)
  else None.

(** A group of hexadecimal digits, what follows it, and how many digits it had. *)
Fixpoint hex_group (acc : Z) (digits : nat) (l : list ascii) : Z * nat * list ascii :=
  match l with
  | [] => (acc, digits, [])
  | c :: l' => match hex_value c with Some v => hex_group (acc * 16 + v) (S digits) l' | None => (acc, digits, l) end
  end.

(** The loop of parseIPv6: the groups read so far, and where the ellipsis stood. *)
Fixpoint groups_from (fuel : nat) (read : list Z) (ellipsis : option nat) (l : list ascii) : option (list Z * option nat) :=
  match fuel with
  | O => if is_nil (head l) then Some (read, ellipsis) else None
  | S fuel' =>
    let '(acc, digits, rest) := hex_group 0 0 l in
    if (digits =? 0)%nat || (4 <? digits)%nat then None
    else
      match rest with
      | [] => Some (read ++ [acc / 256; acc mod 256], ellipsis)
      | c :: rest1 =>
        if Ascii.eqb c dot then
          if negb (is_nil ellipsis) || (Datatypes.length read =? 12)%nat then
            if (12 <? Datatypes.length read)%nat then None
            else v4 ← parseIPv4Fields l; Some (read ++ v4, ellipsis)
          else None
        else if negb (Ascii.eqb c colon) then None
        else
          let read := read ++ [acc / 256; acc mod 256] in
          match rest1 with
          | [] => None
          | c2 :: rest2 =>
            if Ascii.eqb c2 colon then
              if negb (is_nil ellipsis) then None
              else match rest2 with
                | [] => Some (read, Some (Datatypes.length read))
                | _ => groups_from fuel' read (Some (Datatypes.length read)) rest2
                end
            else groups_from fuel' read ellipsis rest1
          end
      end
  end.

(** The ellipsis stands for at least one group of zeros. *)
Definition expand (read : list Z) (ellipsis : option nat) : option (list Z) :=
  match ellipsis with
  | None => if (Datatypes.length read =? 16)%nat then Some read else None
  | Some e =>
    if (Datatypes.length read <? 16)%nat
    then Some (take e read ++ replicate (16 - Datatypes.length read) 0 ++ drop e read) else None
  end.

(** Eight groups at most, so eight rounds of the loop are enough. *)
Definition parseIPv6 (l : list ascii) : option (list Z) :=
  match l with
  | c1 :: c2 :: rest =>
    if Ascii.eqb c1 colon && Ascii.eqb c2 colon then
      match rest with
      | [] => Some (replicate 16 0)
      | _ => '(read, e) ← groups_from 8 [] (Some 0%nat) rest; expand read e
      end
    else '(read, e) ← groups_from 8 [] None l; expand read e
  | _ => '(read, e) ← groups_from 8 [] None l; expand read e
  end.

(** The first of "." and ":" decides; a zone is refused. *)
Definition ParseIP (s : string) : option (list Z) :=
  match List.find (fun c => Ascii.eqb c dot || Ascii.eqb c colon || Ascii.eqb c percent) (bytes s) with
  | Some c =>
    if Ascii.eqb c dot then v4 ← parseIPv4Fields (bytes s); Some (mapped ++ v4)
    else if Ascii.eqb c colon then
      if bool_decide (percent ∈ bytes s) then None else parseIPv6 (bytes s)
    else None
  | None => None
  end.

Definition To4 (ip : list Z) : option (list Z) :=
  if bool_decide (take 12 ip = mapped) then Some (drop 12 ip) else None.

Definition IsLoopback (ip : list Z) : bool :=
  match To4 ip with
  | Some v4 => nth 0 v4 0 =? 127
  | None => bool_decide (ip = replicate 15 0 ++ [1])
  end.
Definition IsPrivate (ip : list Z) : bool :=
  match To4 ip with
  | Some v4 =>
    (nth 0 v4 0 =? 10) || ((nth 0 v4 0 =? 172) && (Z.land (nth 1 v4 0) 240 =? 16)) || ((nth 0 v4 0 =? 192) && (nth 1 v4 0 =? 168))
  | None => Z.land (nth 0 ip 0) 254 =? 252
  end.
Definition IsLinkLocalUnicast (ip : list Z) : bool :=
  match To4 ip with
  | Some v4 => (nth 0 v4 0 =? 169) && (nth 1 v4 0 =? 254)
  | None => (nth 0 ip 0 =? 254) && (Z.land (nth 1 ip 0) 192 =? 128)
  end.

(** ** net.SplitHostPort *)

(** What is before and after the last colon. *)
Fixpoint last_colon (l : list ascii) : option (list ascii * list ascii) :=
  match l with
  | [] => None
  | c :: l' =>
    match last_colon l' with
    | Some (a, b) => Some (c :: a, b)
    | None => if Ascii.eqb c colon then Some ([], l') else None
    end
  end.

Definition SplitHostPort (hostport : string) : option (string * string) :=
  let l := bytes hostport in
  '(before, port) ← last_colon l;
  match l with
  | c :: l1 =>
    if Ascii.eqb c open_bracket then
      '(host, behind) ← Cut close_bracket l1;
      if bool_decide (behind = colon :: port) && bool_decide (open_bracket ∉ host) && bool_decide (open_bracket ∉ port)
         && bool_decide (close_bracket ∉ port)
      then Some (text host, text port) else None
    else if bool_decide (colon ∈ before) || bool_decide (open_bracket ∈ l) || bool_decide (close_bracket ∈ l) then None
    else Some (text before, text port)
  | [] => None
  end.

(** strings.Trim(s, "[]") *)
Definition is_bracket (c : ascii) : bool := Ascii.eqb c open_bracket || Ascii.eqb c close_bracket.
Fixpoint drop_brackets (l : list ascii) : list ascii :=
  match l with
  | c :: l' => if is_bracket c then drop_brackets l' else l
  | [] => []
  end.
Definition trim_brackets (l : list ascii) : list ascii := reverse (drop_brackets (reverse (drop_brackets l))).

Definition hostOf (addr : string) : string :=
  match SplitHostPort addr with
  | Some (host, _) => host
  | None => text (trim_brackets (bytes addr))
  end.

(** ** The address behind the proxy *)

Definition isInternalPeer (remoteAddr : string) : bool :=
  match ParseIP (hostOf remoteAddr) with
  | None => false
  | Some ip => IsLoopback ip || IsPrivate ip || IsLinkLocalUnicast ip
  end.

(** [forwardedFor] and [realIP] are the two headers, empty when absent. *)
Definition forwardedClientIP (remoteAddr forwardedFor realIP : string) : string :=
  if negb (isInternalPeer remoteAddr) then ""%string
  else
    let candidate := TrimSpace (default ""%string (last (Split forwardedFor comma))) in
    if negb (String.eqb forwardedFor "") && negb (is_nil (ParseIP candidate)) then candidate
    else
      let candidate := TrimSpace realIP in
      if is_nil (ParseIP candidate) then ""%string else candidate.

(** The middleware: what RemoteAddr is behind it. *)
Definition TrustedRealIP (remoteAddr forwardedFor realIP : string) : string :=
  let forwarded := forwardedClientIP remoteAddr forwardedFor realIP in
  if String.eqb forwarded "" then remoteAddr else forwarded.

(** ** The text of an address *)

Definition address_char (c : ascii) : bool := negb (is_nil (hex_value c)) || Ascii.eqb c dot || Ascii.eqb c colon.

Definition colons (l : list ascii) : nat := Datatypes.length (List.filter (Ascii.eqb colon) l).

Lemma colons_cons c l : colons (c :: l) = ((if Ascii.eqb colon c then 1 else 0) + colons l)%nat.
Proof. unfold colons. cbn [List.filter]. by destruct (Ascii.eqb colon c). Qed.

Lemma split_chars sep piece l c : c ∈ l -> c = sep \/ exists p, p ∈ split_from sep piece l /\ c ∈ p.
Proof.
  revert piece. induction l as [|x l IH]; intros piece H; [by apply elem_of_nil in H|]. cbn [split_from].
  apply elem_of_cons in H as [->|H].
  - destruct (Ascii.eqb_spec x sep) as [->|Hne]; [by left|]. right. clear IH.
    assert (G : forall l piece, x ∈ piece -> exists p, p ∈ split_from sep piece l /\ x ∈ p).
    { clear. induction l as [|y l IH]; intros piece Hp; cbn [split_from].
      - exists (reverse piece). split; [left | by apply elem_of_reverse].
      - destruct (Ascii.eqb y sep); [exists (reverse piece); split; [left | by apply elem_of_reverse]|]. apply IH. by right. }
    apply G. left.
  - destruct (Ascii.eqb x sep).
    + destruct (IH [] H) as [?|(p & Hp & Hc)]; [by left|]. right. exists p. split; [by right | done].
    + by apply IH.
Qed.

Lemma octet_digits l v : octet l = Some v -> forall c, c ∈ l -> is_digit c = true.
Proof.
  unfold octet. destruct l as [|x l]; [done|]. destruct (forallb is_digit (x :: l)) eqn:F; [|done]. intros _ c Hc.
  rewrite forallb_forall in F. by apply F, list_elem_of_In.
Qed.

Lemma v4_chars l v c : parseIPv4Fields l = Some v -> c ∈ l -> is_digit c = true \/ c = dot.
Proof.
  unfold parseIPv4Fields. intros H Hc. destruct (split_chars dot [] l c Hc) as [->|(p & Hp & Hcp)]; [by right|]. left.
  destruct (split_from dot [] l) as [|p1 [|p2 [|p3 [|p4 [|]]]]]; try done.
  destruct (octet p1) eqn:E1; [|done]. destruct (octet p2) eqn:E2; [|done]. destruct (octet p3) eqn:E3; [|done].
  destruct (octet p4) eqn:E4; [|done].
  rewrite !elem_of_cons in Hp. destruct Hp as [->|[->|[->|[->|Hp]]]]; [exact (octet_digits _ _ E1 c Hcp) | exact (octet_digits _ _ E2 c Hcp) |
    exact (octet_digits _ _ E3 c Hcp) | exact (octet_digits _ _ E4 c Hcp) | by apply elem_of_nil in Hp].
Qed.

Lemma v4_length l v : parseIPv4Fields l = Some v -> Datatypes.length v = 4%nat.
Proof.
  unfold parseIPv4Fields. destruct (split_from dot [] l) as [|p1 [|p2 [|p3 [|p4 [|]]]]]; try done.
  destruct (octet p1); [|done]. destruct (octet p2); [|done]. destruct (octet p3); [|done]. destruct (octet p4); [|done].
  by intros [= <-].
Qed.

Lemma digit_char c : is_digit c = true -> address_char c = true.
Proof. unfold address_char, hex_value. by intros ->. Qed.

Lemma hex_group_rest acc n l v n' rest : hex_group acc n l = (v, n', rest) ->
  colons l = colons rest /\ forall c, c ∈ l -> address_char c = true \/ c ∈ rest.
Proof.
  revert acc n. induction l as [|x l IH]; intros acc n H; cbn [hex_group] in H; [injection H as <- <- <-; by split; [|intros c Hc%elem_of_nil]|].
  destruct (hex_value x) as [d|] eqn:Ed; [|injection H as <- <- <-; split; [done | by intros c; right]].
  apply IH in H as [Hc Hr]. split.
  - rewrite colons_cons. destruct (Ascii.eqb_spec colon x) as [<-|]; [discriminate Ed | exact Hc].
  - intros c Hin. apply elem_of_cons in Hin as [->|Hin]; [left; unfold address_char; by rewrite Ed | by apply Hr].
Qed.

(** What the loop accepts: characters of an address, at most two bytes for each
    colon and a tail of four, and two colons where there is an ellipsis. *)
Lemma groups_from_spec fuel read e l read' e' : groups_from fuel read e l = Some (read', e') ->
  (Datatypes.length read' <= Datatypes.length read + 2 * colons l + 4)%nat /\
  (e = None -> e' ≠ None -> (2 <= colons l)%nat) /\ forall c, c ∈ l -> address_char c = true.
Proof.
  revert read e l. induction fuel as [|fuel IH]; intros read e l H; cbn [groups_from] in H.
  { destruct l; [|done]. injection H as <- <-. split_and!; [lia | by intros -> | by intros c Hc%elem_of_nil]. }
  destruct (hex_group 0 0 l) as [[acc digits] rest] eqn:G. apply hex_group_rest in G as [Hc Hr].
  destruct (_ || _); [done|]. destruct rest as [|c1 rest1].
  { injection H as <- <-. rewrite length_app. cbn. split_and!; [lia | by intros -> |].
    intros c Hin. destruct (Hr c Hin) as [?|Hn]; [done | by apply elem_of_nil in Hn]. }
  destruct (Ascii.eqb_spec c1 dot) as [->|Hdot].
  - destruct (negb _ || _); [|done]. destruct (_ <? _)%nat; [done|]. destruct (parseIPv4Fields l) as [v4|] eqn:V; [|done].
    injection H as <- <-. rewrite length_app, (v4_length _ _ V). split_and!; [lia | by intros -> |].
    intros c Hin. destruct (v4_chars _ _ _ V Hin) as [?| ->]; [by apply digit_char | done].
  - destruct (Ascii.eqb_spec c1 colon) as [->|]; [|done]. cbn [negb] in H.
    destruct rest1 as [|c2 rest2]; [done|]. rewrite colons_cons, Ascii.eqb_refl in Hc.
    assert (Hchars : forall c, c ∈ l -> address_char c = true \/ c ∈ c2 :: rest2).
    { intros c Hin. destruct (Hr c Hin) as [?|Hn]; [by left|]. apply elem_of_cons in Hn as [->|Hn]; [by left | by right]. }
    destruct (Ascii.eqb_spec c2 colon) as [->|Hc2].
    + rewrite colons_cons, Ascii.eqb_refl in Hc. destruct e as [?|]; [done|]. cbn [is_nil negb] in H.
      assert (Hl : (2 <= colons l)%nat) by lia. destruct rest2 as [|c3 rest3].
      * injection H as <- <-. rewrite length_app. cbn. split_and!; [lia | done |].
        intros c Hin. destruct (Hchars c Hin) as [?|Hn]; [done|]. by apply list_elem_of_singleton in Hn as ->.
      * apply IH in H as (Hlen & _ & Hrest). rewrite length_app in Hlen. cbn [Datatypes.length] in Hlen. split_and!; [lia | done |].
        intros c Hin. destruct (Hchars c Hin) as [?|Hn]; [done|]. apply elem_of_cons in Hn as [->|Hn]; [done | by apply Hrest].
    + apply IH in H as (Hlen & Hell & Hrest). rewrite length_app in Hlen. cbn [Datatypes.length] in Hlen. split_and!.
      * lia.
      * intros He He'. specialize (Hell He He'). lia.
      * intros c Hin. destruct (Hchars c Hin) as [?|Hn]; [done | by apply Hrest].
Qed.

Lemma parseIPv6_spec l v : parseIPv6 l = Some v -> (2 <= colons l)%nat /\ forall c, c ∈ l -> address_char c = true.
Proof.
  assert (Go : forall l, (read ← groups_from 8 [] None l; expand read.1 read.2) = Some v -> (2 <= colons l)%nat /\ forall c, c ∈ l -> address_char c = true).
  { intros k H. destruct (groups_from 8 [] None k) as [[read e]|] eqn:G; [|done]. cbn in H. apply groups_from_spec in G as (Hlen & Hell & Hc).
    split; [|exact Hc]. destruct e as [e|]; [by apply Hell|]. unfold expand in H. destruct (Nat.eqb_spec (Datatypes.length read) 16); [|done].
    cbn [Datatypes.length] in Hlen. lia. }
  assert (Pair : forall k, (r ← groups_from 8 [] None k; let '(read, e) := r in expand read e) = (r ← groups_from 8 [] None k; expand r.1 r.2)).
  { intros k. by destruct (groups_from 8 [] None k) as [[]|]. }
  unfold parseIPv6. destruct l as [|c1 [|c2 rest]]; rewrite ?Pair; [by apply Go | by apply Go |].
  destruct (Ascii.eqb_spec c1 colon) as [->|]; [|by apply Go]. destruct (Ascii.eqb_spec c2 colon) as [->|]; [|by apply Go]. cbn [andb].
  intros H. rewrite !colons_cons, !Ascii.eqb_refl. split; [lia|]. intros c Hin.
  apply elem_of_cons in Hin as [->|Hin]; [done|]. apply elem_of_cons in Hin as [->|Hin]; [done|].
  destruct rest as [|c3 rest]; [by apply elem_of_nil in Hin|].
  destruct (groups_from 8 [] (Some 0%nat) (c3 :: rest)) as [[read e]|] eqn:G; [|done]. apply groups_from_spec in G as (_ & _ & Hc). by apply Hc.
Qed.

Lemma ParseIP_chars s ip : ParseIP s = Some ip ->
  (forall c, c ∈ bytes s -> address_char c = true) /\ (colon ∉ bytes s \/ (2 <= colons (bytes s))%nat).
Proof.
  unfold ParseIP. destruct (List.find _ (bytes s)) as [c|]; [|done]. destruct (Ascii.eqb c dot).
  - destruct (parseIPv4Fields (bytes s)) as [v4|] eqn:V; [|done]. intros _. split.
    + intros x Hx. destruct (v4_chars _ _ _ V Hx) as [?| ->]; [by apply digit_char | done].
    + left. intros Hx. by destruct (v4_chars _ _ _ V Hx).
  - destruct (Ascii.eqb c colon); [|done]. case_bool_decide; [done|]. intros Hv. apply parseIPv6_spec in Hv as [? ?]. split; [done | by right].
Qed.

Lemma last_colon_colons l a b : last_colon l = Some (a, b) -> (colons l = S (colons a) /\ colons b = 0)%nat.
Proof.
  revert a b. induction l as [|c l IH]; intros a b H; [done|]. cbn [last_colon] in H. rewrite colons_cons.
  destruct (last_colon l) as [[a' b']|] eqn:E.
  - injection H as <- <-. destruct (IH _ _ eq_refl) as [-> ->]. rewrite colons_cons. lia.
  - destruct (Ascii.eqb_spec c colon) as [->|]; [|done]. injection H as <- <-. rewrite Ascii.eqb_refl.
    assert (Z0 : forall l, last_colon l = None -> colons l = 0%nat).
    { clear. induction l as [|c l IH]; [done|]. cbn [last_colon]. destruct (last_colon l) as [[]|]; [done|].
      destruct (Ascii.eqb_spec c colon) as [->|Hne]; [done|]. intros _. rewrite colons_cons, IH by done.
      destruct (Ascii.eqb_spec colon c); [congruence | done]. }
    rewrite (Z0 l E). done.
Qed.

Lemma colons_elem l : (1 <= colons l)%nat -> colon ∈ l.
Proof.
  induction l as [|c l IH]; [cbn; lia|]. rewrite colons_cons. destruct (Ascii.eqb_spec colon c) as [->|]; [left | right; by apply IH].
Qed.

Lemma drop_brackets_id l : (forall c, c ∈ l -> is_bracket c = false) -> drop_brackets l = l.
Proof. destruct l as [|c l]; [done|]. intros H. cbn. by rewrite (H c) by left. Qed.

(** A bare address is its own host, colons and all. *)
Lemma hostOf_address s ip : ParseIP s = Some ip -> hostOf s = s.
Proof.
  intros H. apply ParseIP_chars in H as [Hc Hn].
  assert (Hb : forall c, c ∈ bytes s -> is_bracket c = false).
  { intros c Hin. apply Hc in Hin. unfold is_bracket. destruct (Ascii.eqb_spec c open_bracket) as [->|]; [discriminate Hin|].
    destruct (Ascii.eqb_spec c close_bracket) as [->|]; [discriminate Hin | done]. }
  unfold hostOf, SplitHostPort. destruct (last_colon (bytes s)) as [[a b]|] eqn:E; cbn.
  - destruct (bytes s) as [|c l] eqn:Es; [done|]. assert (Hc1 : is_bracket c = false) by (apply Hb; rewrite ?Es; left).
    destruct (Ascii.eqb_spec c open_bracket) as [->|]; [discriminate Hc1|]. rewrite bool_decide_eq_true_2.
    + cbn [orb]. unfold trim_brackets. rewrite (drop_brackets_id (c :: l)) by done. rewrite drop_brackets_id by (intros x Hx; by apply Hb, elem_of_reverse).
      rewrite reverse_involutive, <- Es. apply string_of_list_ascii_of_string.
    + apply last_colon_colons in E as [E _]. apply colons_elem. destruct Hn as [Hn|Hn]; [|lia]. exfalso. apply Hn, colons_elem. lia.
  - unfold trim_brackets. rewrite (drop_brackets_id (bytes s)) by done. rewrite drop_brackets_id by (intros x Hx; by apply Hb, elem_of_reverse).
    rewrite reverse_involutive. apply string_of_list_ascii_of_string.
Qed.

Lemma last_split_app sep piece a b : sep ∉ b -> last (split_from sep piece (a ++ sep :: b)) = Some b.
Proof.
  intros Hb. revert piece. induction a as [|c a IH]; intros piece; cbn [split_from app].
  - by rewrite Ascii.eqb_refl, split_from_last.
  - destruct (Ascii.eqb c sep); [|apply IH]. rewrite last_cons. by rewrite IH.
Qed.

(** A peer outside the internal network is counted under its own address,
    whatever it puts into the forwarding headers.  Behind the proxy, the address is
    the last hop of X-Forwarded-For, the one the proxy has seen, whatever the client
    has written before it; and the limiter's key for it is that address, IPv6
    included. *)
Theorem TrustedRealIP_spec remote forged observed realIP ip
    (Hlast : comma ∉ bytes observed) (Hip : ParseIP (TrimSpace observed) = Some ip) :
  let header := forged +:+ "," +:+ observed in
  (isInternalPeer remote = false -> forall forwardedFor, TrustedRealIP remote forwardedFor realIP = remote) /\
  (isInternalPeer remote = true ->
     TrustedRealIP remote header realIP = TrimSpace observed /\
     TrustedRealIP remote observed realIP = TrimSpace observed /\
     hostOf (TrustedRealIP remote header realIP) = TrimSpace observed).
Proof.
  intros header. split.
  { intros Hin f. unfold TrustedRealIP, forwardedClientIP. by rewrite Hin. }
  intros Hin. assert (Hne : String.eqb (TrimSpace observed) "" = false) by (destruct (String.eqb_spec (TrimSpace observed) "") as [E|]; [by rewrite E in Hip | done]).
  assert (Go : forall h, h ≠ ""%string -> default ""%string (last (Split h comma)) = observed -> TrustedRealIP remote h realIP = TrimSpace observed).
  { intros h Hh Hl. unfold TrustedRealIP, forwardedClientIP. rewrite Hin, Hl, Hip. cbn [negb is_nil].
    destruct (String.eqb_spec h ""); [done|]. cbn [negb andb]. by rewrite Hne. }
  assert (E1 : TrustedRealIP remote header realIP = TrimSpace observed).
  { apply Go; [unfold header; by destruct forged|]. unfold Split, header.
    change (map text) with (fmap (M:=list) text). rewrite fmap_last, !bytes_app.
    change (bytes "," ++ bytes observed) with (comma :: bytes observed). rewrite last_split_app by done.
    apply string_of_list_ascii_of_string. }
  assert (E2 : TrustedRealIP remote observed realIP = TrimSpace observed).
  { apply Go; [by intros ->|]. unfold Split. rewrite split_from_last by done. apply string_of_list_ascii_of_string. }
  split_and!; [done | done |]. rewrite E1. by eapply hostOf_address.
Qed.

Lemma TrustedRealIP_spec_witness :
  hostOf (TrustedRealIP "172.18.0.2:41532" ("8.8.8.8, 1.1.1.1" +:+ "," +:+ " 2001:db8::7") "") = "2001:db8::7"%string /\
  TrustedRealIP "100.64.3.4:9000" "127.0.0.1" "" = "100.64.3.4:9000"%string.
Proof.
  split.
  - eapply (TrustedRealIP_spec "172.18.0.2:41532" "8.8.8.8, 1.1.1.1" " 2001:db8::7" ""); [|vm_compute; reflexivity|vm_compute; reflexivity].
    apply (bool_decide_unpack _). vm_compute. exact I.
  - eapply (TrustedRealIP_spec "100.64.3.4:9000" "" "127.0.0.1" ""); [|vm_compute; reflexivity|vm_compute; reflexivity].
    apply (bool_decide_unpack _). vm_compute. exact I.
Defined.
