(* ===== verification/Sha256.v ===== *)
(** * crypto/sha256 and encoding/hex

    FIPS 180-4 on bytes, with 32-bit words as integers modulo 2^32: what device
    handles and request fingerprints are made of. *)

From Stdlib Require Import Ascii String.
From S2P Require Import Prelude Text Encoding.

#[local] Open Scope list_scope.
#[local] Open Scope Z_scope.

Definition word32 (z : Z) : Z := z mod 2 ^ 32.
Definition rotr (n x : Z) : Z := Z.lor (Z.shiftr x n) (word32 (Z.shiftl x (32 - n))).
Definition xor3 (a b c : Z) : Z := Z.lxor a (Z.lxor b c).

Definition sigma0 (x : Z) : Z := xor3 (rotr 7 x) (rotr 18 x) (Z.shiftr x 3).
Definition sigma1 (x : Z) : Z := xor3 (rotr 17 x) (rotr 19 x) (Z.shiftr x 10).
Definition Sigma0 (x : Z) : Z := xor3 (rotr 2 x) (rotr 13 x) (rotr 22 x).
Definition Sigma1 (x : Z) : Z := xor3 (rotr 6 x) (rotr 11 x) (rotr 25 x).
Definition Ch (x y z : Z) : Z := Z.lxor (Z.land x y) (Z.land (2 ^ 32 - 1 - x) z).
Definition Maj (x y z : Z) : Z := xor3 (Z.land x y) (Z.land x z) (Z.land y z).

Definition round_constants : list Z :=
  [1116352408; 1899447441; 3049323471; 3921009573; 961987163; 1508970993; 2453635748; 2870763221;
   3624381080; 310598401; 607225278; 1426881987; 1925078388; 2162078206; 2614888103; 3248222580;
   3835390401; 4022224774; 264347078; 604807628; 770255983; 1249150122; 1555081692; 1996064986;
   2554220882; 2821834349; 2952996808; 3210313671; 3336571891; 3584528711; 113926993; 338241895;
   666307205; 773529912; 1294757372; 1396182291; 1695183700; 1986661051; 2177026350; 2456956037;
   2730485921; 2820302411; 3259730800; 3345764771; 3516065817; 3600352804; 4094571909; 275423344;
   430227734; 506948616; 659060556; 883997877; 958139571; 1322822218; 1537002063; 1747873779;
   1955562222; 2024104815; 2227730452; 2361852424; 2428436474; 2756734187; 3204031479; 3329325298].

Definition initial_hash : list Z :=
  [1779033703; 3144134277; 1013904242; 2773480762; 1359893119; 2600822924; 528734635; 1541459225].

(** The message, a one bit, zeros, and the length in bits in eight bytes. *)
Definition pad (l : list ascii) : list ascii :=
  let n := Z.of_nat (Datatypes.length l) in
  l ++ byte_of 128 :: replicate (Z.to_nat ((55 - n) mod 64)) zero ++ be_bytes 8 (8 * n).

Fixpoint words (l : list ascii) : list Z :=
  match l with
  | a :: b :: c :: d :: r => be_value [a; b; c; d] :: words r
  | _ => []
  end.

(** The schedule, last word first. *)
Fixpoint schedule (n : nat) (w : list Z) : list Z :=
  match n with
  | O => w
  | S n' => schedule n' (word32 (sigma1 (nth 1 w 0) + nth 6 w 0 + sigma0 (nth 14 w 0) + nth 15 w 0) :: w)
  end.

Definition round (h : list Z) (kw : Z * Z) : list Z :=
  match h with
  | [a; b; c; d; e; f; g; hh] =>
    let t1 := hh + Sigma1 e + Ch e f g + kw.1 + kw.2 in
    let t2 := Sigma0 a + Maj a b c in
    [word32 (t1 + t2); a; b; c; word32 (d + t1); e; f; g]
  | _ => h
  end.

Definition compress (h block : list Z) : list Z :=
  let w := reverse (schedule 48 (reverse block)) in
  zip_with (fun a b => word32 (a + b)) h (foldl round h (zip round_constants w)).

Fixpoint blocks (fuel : nat) (h : list Z) (w : list Z) : list Z :=
  match fuel, w with
  | S fuel', _ :: _ => blocks fuel' (compress h (take 16 w)) (drop 16 w)
  | _, _ => h
  end.

(** One round of the loop for every sixteen words. *)
Definition Sum256 (l : list ascii) : list ascii :=
  let w := words (pad l) in
  flat_map (be_bytes 4) (blocks (Datatypes.length w) initial_hash w).

Definition hex_digit (v : Z) : ascii := byte_of (if v <? 10 then 48 + v else 87 + v).
Definition hex_EncodeToString (l : list ascii) : string :=
  text (flat_map (fun c => [hex_digit (byte_code c / 16); hex_digit (byte_code c mod 16)]) l).

Example Sum256_abc : hex_EncodeToString (Sum256 (bytes "abc")) = "ba7816bf8f01cfea414140de5dae2223b00361a396177a9cb410ff61f20015ad"%string.
Proof. vm_compute. reflexivity. Qed.

Example Sum256_two_blocks :
  hex_EncodeToString (Sum256 (bytes "abcdbcdecdefdefgefghfghighijhijkijkljklmklmnlmnomnopnopq"))
    = "248d6a61d20638b8e5c026930c3e6039a33ce45964ff2167f6ecedd419db06c1"%string.
Proof. vm_compute. reflexivity. Qed.
