(* ===== verification/Expiry.v ===== *)
(** * Shelf life and urgency: internal/expiry

    The resolution chain (Resolve), the date a resolution implies (DateFor) and
    the urgency bands (Classify).  A [time.Time] is an instant together with the
    offset of its location at that instant, so that two values in different
    zones can be compared the way calendarDay compares them. *)

From Stdlib Require Import Ascii String.
From S2P Require Import Prelude Gamification Text Encoding.

#[local] Open Scope string_scope.
#[local] Open Scope list_scope.
#[local] Open Scope Z_scope.

(** ** time.Time *)

(** The instant (nanoseconds since the epoch) and the zone's offset. *)
Record Time := mkTime { t_unix : Z; t_zone : Z }.

#[global] Instance Time_eq_dec : EqDecision Time.
Proof. solve_decision. Defined.

Definition Before (a b : Time) : bool := t_unix a <? t_unix b.
Definition UTC (t : Time) : Time := mkTime (t_unix t) 0.

(** The calendar day a time names in its own location, counted from the epoch:
    what [t.Year(), t.Month(), t.Day()] identify. *)
Definition civil_day (t : Time) : Z := (t_unix t + t_zone t) / day.

(** [t.Truncate(24 * time.Hour)]: down to a multiple of 24 hours of absolute
    time. *)
Definition Truncate24h (t : Time) : Time := mkTime ((t_unix t / day) * day) (t_zone t).

(** [t.AddDate(0, 0, n)] for a time in UTC. *)
Definition AddDays (t : Time) (n : Z) : Time := mkTime (t_unix t + n * day) (t_zone t).

(** ** Rules and their resolution *)

Definition Perishable := "perishable".
Definition LongShelfLife := "long_shelf_life".
Definition NonPerishable := "non_perishable".

(** [None] for an item type the map does not know. *)
Definition itemTypeFallbackDays (t : string) : option (option Z) :=
  if String.eqb t Perishable then Some (Some 7)
  else if String.eqb t LongShelfLife then Some (Some 365)
  else if String.eqb t NonPerishable then Some None
  else None.

Record Rules := mkRules {
  ProductDays : option Z;
  CatalogDays : option Z;
  CategoryDays : list (option Z);
  r_ItemType : string;
}.

Inductive Source := SourceProduct | SourceCatalog | SourceCategory | SourceItemType | SourceUnclassified.

Record Resolution := mkResolution { res_Days : option Z; res_Source : Source }.

(** The loop over the category chain: the first rule that is not NULL. *)
Fixpoint first_defined (l : list (option Z)) : option Z :=
  match l with
  | [] => None
  | Some days :: _ => Some days
  | None :: l' => first_defined l'
  end.

Definition Resolve (rules : Rules) : Resolution :=
  match ProductDays rules with
  | Some d => mkResolution (Some d) SourceProduct
  | None =>
    match CatalogDays rules with
    | Some d => mkResolution (Some d) SourceCatalog
    | None =>
      match first_defined (CategoryDays rules) with
      | Some d => mkResolution (Some d) SourceCategory
      | None =>
        match itemTypeFallbackDays (r_ItemType rules) with
        | None => mkResolution None SourceUnclassified
        | Some fallback => mkResolution fallback SourceItemType
        end
      end
    end
  end.

Definition DateFor (createdAt : Time) (resolution : Resolution) : option Time :=
  match res_Days resolution with
  | None => None
  | Some days => Some (AddDays (Truncate24h (UTC createdAt)) days)
  end.

(** ** Urgency *)

Inductive Urgency := UrgencyExpired | UrgencyCritical | UrgencySoon | UrgencyOK | UrgencyNone.

#[global] Instance Urgency_eq_dec : EqDecision Urgency.
Proof. solve_decision. Defined.

Definition CriticalWithinDays : Z := 3.
Definition SoonWithinDays : Z := 14.

Definition calendarDay (t : Time) : Time := mkTime (civil_day t * day) 0.

Definition Classify (date : option Time) (today : Time) : Urgency :=
  match date with
  | None => UrgencyNone
  | Some date =>
    let d := calendarDay date in
    let start := calendarDay today in
    if Before d start then UrgencyExpired
    else if Before d (AddDays start CriticalWithinDays) then UrgencyCritical
    else if Before d (AddDays start SoonWithinDays) then UrgencySoon
    else UrgencyOK
  end.

(** ** The chain as an ordered list of rules *)

(** Every rule in priority order, the item-type fallback last. *)
Definition chain (rules : Rules) : list (option Z) :=
  ProductDays rules :: CatalogDays rules :: CategoryDays rules
    ++ [default None (itemTypeFallbackDays (r_ItemType rules))].

Lemma first_defined_app l k :
  first_defined (l ++ k) = match first_defined l with Some d => Some d | None => first_defined k end.
Proof. induction l as [|[d|] l IH]; [done | done | exact IH]. Qed.

Lemma first_defined_spec l d :
  first_defined l = Some d <->
  exists i, l !! i = Some (Some d) /\ forall j, (j < i)%nat -> l !! j = Some None.
Proof.
  induction l as [|[e|] l IH]; cbn.
  - split; [done | by intros (i & ? & _)].
  - split.
    + intros [= ->]. exists 0%nat. split; [done | lia].
    + intros ([|i] & Hi & Hj); [by simplify_eq/=|]. specialize (Hj 0%nat). cbn in Hj.
      assert (Some (Some e) = Some None) by (apply Hj; lia). done.
  - rewrite IH. split.
    + intros (i & Hi & Hj). exists (S i). split; [done|].
      intros [|j] ?; [done | apply Hj; lia].
    + intros ([|i] & Hi & Hj); [done|]. exists i. split; [done|].
      intros j ?. apply (Hj (S j)). lia.
Qed.

Lemma Resolve_days rules : res_Days (Resolve rules) = first_defined (chain rules).
Proof.
  unfold Resolve, chain. cbn.
  destruct (ProductDays rules); [done|]. destruct (CatalogDays rules); [done|].
  rewrite first_defined_app. destruct (first_defined (CategoryDays rules)); [done|].
  by destruct (itemTypeFallbackDays (r_ItemType rules)) as [[|]|].
Qed.

Lemma day_pos : 0 < day.
Proof. vm_compute. done. Qed.

(** A date computed by the rules is a midnight in UTC. *)
Lemma DateFor_civil createdAt resolution t :
  DateFor createdAt resolution = Some t ->
  exists n, res_Days resolution = Some n /\ t_zone t = 0 /\
    civil_day t = t_unix createdAt / day + n.
Proof.
  unfold DateFor. destruct (res_Days resolution) as [n|]; [|done].
  intros [= <-]. exists n. split; [done|]. split; [done|].
  unfold civil_day. cbn. pose proof day_pos.
  replace (t_unix createdAt / day * day + n * day + 0) with ((t_unix createdAt / day + n) * day) by lia.
  apply Z.div_mul. lia.
Qed.

Lemma Before_calendarDay a b n :
  Before (calendarDay a) (AddDays (calendarDay b) n) = (civil_day a <? civil_day b + n).
Proof.
  unfold Before, calendarDay, AddDays. cbn. pose proof day_pos.
  apply eq_true_iff_eq. rewrite !Z.ltb_lt. nia.
Qed.

(** The shelf life Resolve answers is that of the first rule that is set in the
    chain product, catalog, category and its ancestors nearest first, item type; it
    answers none exactly when no rule of the chain is set. *)
Theorem Resolve_first_rule (rules : Rules) (d : Z) :
  res_Days (Resolve rules) = Some d <->
  exists i, chain rules !! i = Some (Some d) /\ forall j, (j < i)%nat -> chain rules !! j = Some None.
Proof. rewrite Resolve_days. apply first_defined_spec. Qed.

(** A dated batch is expired before today, critical for days 0 to 2, soon for
    days 3 to 13 and fine from day 14 on, counting calendar days in each date's own
    zone: the four bands partition the dates, whatever the hours. *)
Theorem Classify_bands (date today : Time) :
  let days := civil_day date - civil_day today in
  (Classify (Some date) today = UrgencyExpired <-> days < 0) /\
  (Classify (Some date) today = UrgencyCritical <-> 0 <= days < 3) /\
  (Classify (Some date) today = UrgencySoon <-> 3 <= days < 14) /\
  (Classify (Some date) today = UrgencyOK <-> 14 <= days).
Proof.
  intros days. unfold Classify.
  assert (E : Before (calendarDay date) (calendarDay today) = (civil_day date <? civil_day today)).
  { pose proof (Before_calendarDay date today 0) as B. unfold AddDays in B. cbn in B.
    rewrite Z.add_0_r in B. by rewrite Z.add_0_r in B. }
  rewrite E, !Before_calendarDay. unfold CriticalWithinDays, SoonWithinDays.
  destruct (Z.ltb_spec (civil_day date) (civil_day today));
    destruct (Z.ltb_spec (civil_day date) (civil_day today + 3));
    destruct (Z.ltb_spec (civil_day date) (civil_day today + 14));
    repeat split; try done; lia.
Qed.

(** * Dates and timestamps in requests: time.DateOnly and time.RFC3339

    The proleptic Gregorian calendar on day numbers, the two layouts the handlers
    parse, and that a printed date is read back as itself. *)

#[local] Open Scope string_scope.
#[local] Open Scope list_scope.
#[local] Open Scope Z_scope.

(** ** The calendar *)

Definition is_leap (y : Z) : bool := (y mod 4 =? 0) && (negb (y mod 100 =? 0) || (y mod 400 =? 0)).

Definition month_lengths : list Z := [31; 28; 31; 30; 31; 30; 31; 31; 30; 31; 30; 31].

Definition month_days (leap : bool) (m : Z) : Z :=
  nth (Z.to_nat (m - 1)) month_lengths 0 + (if (m =? 2) && leap then 1 else 0).
Definition days_in (y m : Z) : Z := month_days (is_leap y) m.

(** The days of the year before a month. *)
Definition days_before (leap : bool) (m : Z) : Z := lsum (fun k => month_days leap (Z.of_nat k)) (seq 1 (Z.to_nat (m - 1))).

(** 1 January of the year 1 is day -719162. *)
Definition year_start (y : Z) : Z := 365 * (y - 1) + (y - 1) / 4 - (y - 1) / 100 + (y - 1) / 400 - 719162.

Definition day_number (y m d : Z) : Z := year_start y + days_before (is_leap y) m + d - 1.

(** The month a day of the year falls in, and its day in it. *)
Fixpoint month_from (leap : bool) (m yday : Z) (lengths : list Z) : Z * Z :=
  match lengths with
  | [] => (m, yday + 1)
  | _ :: rest => if yday <? month_days leap m then (m, yday + 1) else month_from leap (m + 1) (yday - month_days leap m) rest
  end.

(** Cycles of 400, 100, 4 years and 1 year; the last of each may be a day longer. *)
Definition civil (n : Z) : Z * (Z * Z) :=
  let d := n + 719162 in
  let n400 := d / 146097 in
  let d := d mod 146097 in
  let n100 := Z.min 3 (d / 36524) in
  let d := d - 36524 * n100 in
  let n4 := d / 1461 in
  let d := d - 1461 * n4 in
  let n1 := Z.min 3 (d / 365) in
  let yday := d - 365 * n1 in
  let y := 1 + 400 * n400 + 100 * n100 + 4 * n4 + n1 in
  (y, month_from (is_leap y) 1 yday month_lengths).

(** ** Numbers of a fixed width *)

Definition digit (n : Z) : ascii := byte_of (48 + n).
Definition digit_of (c : ascii) : option Z := if is_digit c then Some (byte_code c - 48) else None.

Definition hyphen : ascii := "-"%char.

Definition two_digits (n : Z) : list ascii := [digit (n / 10 mod 10); digit (n mod 10)].
Definition four_digits (n : Z) : list ascii := two_digits (n / 100) ++ two_digits (n mod 100).

(** getnum with its argument fixed: exactly two digits. *)
Definition read_two (l : list ascii) : option (Z * list ascii) :=
  match l with
  | a :: b :: l' => x ← digit_of a; y ← digit_of b; Some (10 * x + y, l')
  | _ => None
  end.

Definition read_four (l : list ascii) : option (Z * list ascii) :=
  '(x, l) ← read_two l; '(y, l) ← read_two l; Some (100 * x + y, l).

(** getnum otherwise: one digit or two. *)
Definition read_one_or_two (l : list ascii) : option (Z * list ascii) :=
  match read_two l with
  | Some r => Some r
  | None => match l with a :: l' => x ← digit_of a; Some (x, l') | [] => None end
  end.

Definition expect (c : ascii) (l : list ascii) : option (list ascii) :=
  match l with a :: l' => if Ascii.eqb a c then Some l' else None | [] => None end.

(** ** time.DateOnly *)

(** The year, the month and the day, each checked against the calendar. *)
Definition read_date (l : list ascii) : option (Z * list ascii) :=
  '(y, l) ← read_four l; l ← expect hyphen l;
  '(m, l) ← read_two l; l ← expect hyphen l;
  '(d, l) ← read_two l;
  if (1 <=? m) && (m <=? 12) && (1 <=? d) && (d <=? days_in y m) then Some (day_number y m d, l) else None.

(** time.Parse(time.DateOnly, s): midnight in UTC. *)
Definition ParseDateOnly (s : string) : option Time :=
  '(n, l) ← read_date (bytes s);
  match l with [] => Some (mkTime (n * day) 0) | _ => None end.

(** Format(time.DateOnly) of a column of type DATE, in the years of four digits. *)
Definition FormatDateOnly (n : Z) : string :=
  let '(y, (m, d)) := civil n in text (four_digits y ++ hyphen :: two_digits m ++ hyphen :: two_digits d).

(** ** time.RFC3339 *)

(** A fraction of the second: nine digits count, more are read over. *)
Fixpoint read_fraction (l : list ascii) (scale acc : Z) : Z * list ascii :=
  match l with
  | a :: l' => match digit_of a with Some x => read_fraction l' (scale / 10) (acc + x * scale) | None => (acc, l) end
  | [] => (acc, [])
  end.

Definition read_nanoseconds (l : list ascii) : Z * list ascii :=
  match l with
  | a :: b :: l' =>
    if (Ascii.eqb a "." || Ascii.eqb a ",")%char && negb (is_nil (digit_of b)) then read_fraction (b :: l') 100000000 0 else (0, l)
  | _ => (0, l)
  end.

(** Z, or a signed offset: up to 24 hours and 60 minutes pass. *)
Definition read_zone (l : list ascii) : option (Z * list ascii) :=
  match l with
  | a :: l' =>
    if Ascii.eqb a "Z" then Some (0, l')
    else
      '(h, l) ← read_two l'; l ← expect ":"%char l; '(m, l) ← read_two l;
      if (h <=? 24) && (m <=? 60) then
        if Ascii.eqb a "+" then Some (h * hour + m * minute, l)
        else if Ascii.eqb a "-" then Some (- (h * hour + m * minute), l)
        else None
      else None
  | [] => None
  end.

(** time.Parse(time.RFC3339, s), as an instant. *)
Definition ParseRFC3339 (s : string) : option Z :=
  '(n, l) ← read_date (bytes s); l ← expect "T"%char l;
  '(h, l) ← read_one_or_two l; l ← expect ":"%char l;
  '(mi, l) ← read_two l; l ← expect ":"%char l;
  '(sec, l) ← read_two l;
  let '(ns, l) := read_nanoseconds l in
  '(zone, l) ← read_zone l;
  if (h <? 24) && (mi <? 60) && (sec <? 60) && is_nil (head l)
  then Some (n * day + h * hour + mi * minute + sec * second + ns - zone)
  else None.

Example rfc3339_zone : ParseRFC3339 "1970-01-02T01:00:00.5+01:00" = Some (day + 500 * 1000000).
Proof. reflexivity. Qed.
Example rfc3339_no_zone : ParseRFC3339 "1970-01-02T01:00:00" = None.
Proof. reflexivity. Qed.
Example dateonly_leap : (ParseDateOnly "2024-02-29", ParseDateOnly "2023-02-29", FormatDateOnly 19782) = (Some (mkTime (19782 * day) 0), None, "2024-02-29").
Proof. vm_compute. reflexivity. Qed.

(** ** The calendar is one *)

(** The year, the day of the year and what they depend on, from a day number. *)
Lemma cycles_spec d :
  0 <= d < 146097 ->
  let b := Z.min 3 (d / 36524) in let d1 := d - 36524 * b in
  let c := d1 / 1461 in let d2 := d1 - 1461 * c in
  let e := Z.min 3 (d2 / 365) in let yday := d2 - 365 * e in
  0 <= b <= 3 /\ 0 <= c <= 24 /\ 0 <= e <= 3 /\ 0 <= yday <= 365 /\ (yday = 365 -> e = 3 /\ (c = 24 -> b = 3)).
Proof.
  intros Hd b d1 c d2 e yday.
  assert (Hb : 36524 * (d / 36524) <= d < 36524 * (d / 36524) + 36524) by (pose proof (Z.div_mod d 36524); pose proof (Z.mod_pos_bound d 36524); lia).
  assert (Hc : 1461 * c <= d1 < 1461 * c + 1461) by (unfold c; pose proof (Z.div_mod d1 1461); pose proof (Z.mod_pos_bound d1 1461); lia).
  assert (He : 365 * (d2 / 365) <= d2 < 365 * (d2 / 365) + 365) by (pose proof (Z.div_mod d2 365); pose proof (Z.mod_pos_bound d2 365); lia).
  assert (B : 0 <= b <= 3 /\ 0 <= d1 <= 36524 /\ (d1 = 36524 -> b = 3)) by (unfold d1, b in *; lia).
  assert (C : 0 <= c <= 24 /\ 0 <= d2 <= 1460 /\ (c = 24 -> d2 = 1460 -> d1 = 36524)) by (unfold d2 in *; lia).
  assert (E : 0 <= e <= 3 /\ 0 <= yday <= 365 /\ (yday = 365 -> e = 3 /\ d2 = 1460)) by (unfold yday, e in *; lia).
  lia.
Qed.

Lemma year_start_cycles a b c e : 0 <= b <= 3 -> 0 <= c <= 24 -> 0 <= e <= 3 ->
  year_start (1 + 400 * a + 100 * b + 4 * c + e) = 146097 * a + 36524 * b + 1461 * c + 365 * e - 719162.
Proof.
  intros Hb Hc He. unfold year_start. replace (1 + 400 * a + 100 * b + 4 * c + e - 1) with (400 * a + 100 * b + 4 * c + e) by lia.
  rewrite <- (Z.div_unique (400 * a + 100 * b + 4 * c + e) 4 (100 * a + 25 * b + c) e) by lia.
  rewrite <- (Z.div_unique (400 * a + 100 * b + 4 * c + e) 100 (4 * a + b) (4 * c + e)) by lia.
  rewrite <- (Z.div_unique (400 * a + 100 * b + 4 * c + e) 400 a (100 * b + 4 * c + e)) by lia. lia.
Qed.

Lemma leap_cycles a b c : 0 <= b <= 3 -> 0 <= c <= 24 -> (c = 24 -> b = 3) -> is_leap (1 + 400 * a + 100 * b + 4 * c + 3) = true.
Proof.
  intros Hb Hc H. unfold is_leap.
  rewrite <- (Z.mod_unique (1 + 400 * a + 100 * b + 4 * c + 3) 4 (100 * a + 25 * b + c + 1) 0) by lia. cbn.
  destruct (Z.eq_dec c 24) as [->|Hne].
  - rewrite (H eq_refl). rewrite <- (Z.mod_unique (1 + 400 * a + 100 * 3 + 4 * 24 + 3) 400 (a + 1) 0) by lia. apply orb_true_r.
  - rewrite <- (Z.mod_unique (1 + 400 * a + 100 * b + 4 * c + 3) 100 (4 * a + b) (4 * c + 4)) by lia.
    rewrite (proj2 (Z.eqb_neq (4 * c + 4) 0)) by lia. done.
Qed.

Definition month_ok (leap : bool) (yday : Z) : bool :=
  let '(m, d) := month_from leap 1 yday month_lengths in
  (1 <=? m) && (m <=? 12) && (1 <=? d) && (d <=? month_days leap m) && (days_before leap m + d - 1 =? yday).

Lemma months_ok : forallb (month_ok true) (seqZ 0 366) && forallb (month_ok false) (seqZ 0 365) = true.
Proof. vm_compute. reflexivity. Qed.

Lemma month_spec leap yday : 0 <= yday <= 365 -> (yday = 365 -> leap = true) ->
  let '(m, d) := month_from leap 1 yday month_lengths in 1 <= m <= 12 /\ 1 <= d <= month_days leap m /\ days_before leap m + d - 1 = yday.
Proof.
  intros Hy Hl. assert (M : month_ok leap yday = true).
  { destruct (proj1 (andb_true_iff _ _) months_ok) as [H1 H2]. rewrite forallb_forall in H1, H2.
    destruct leap; [apply H1 | apply H2]; apply list_elem_of_In, elem_of_seqZ; [lia|].
    assert (yday ≠ 365) by (intros E; by specialize (Hl E)). lia. }
  unfold month_ok in M. destruct (month_from _ _ _ _) as [m d]. repeat (apply andb_true_iff in M as [M ?]). lia.
Qed.

(** Every day number is a day of the calendar. *)
Lemma civil_spec n : let '(y, (m, d)) := civil n in 1 <= m <= 12 /\ 1 <= d <= days_in y m /\ day_number y m d = n.
Proof.
  unfold civil. pose proof (cycles_spec ((n + 719162) mod 146097) (Z.mod_pos_bound (n + 719162) 146097 eq_refl)) as S.
  pose proof (Z.div_mod (n + 719162) 146097 ltac:(lia)) as D. cbv zeta in S.
  set (a := (n + 719162) / 146097) in *. set (r := (n + 719162) mod 146097) in *.
  set (b := Z.min 3 (r / 36524)) in *. set (c := (r - 36524 * b) / 1461) in *.
  set (e := Z.min 3 ((r - 36524 * b - 1461 * c) / 365)) in *.
  destruct S as (Hb & Hc & He & Hy & Hl). set (yday := r - 36524 * b - 1461 * c - 365 * e) in *.
  pose proof (month_spec (is_leap (1 + 400 * a + 100 * b + 4 * c + e)) yday Hy) as M.
  destruct (month_from _ 1 yday month_lengths) as [m d]. destruct M as (Hm & Hd & Hn).
  { intros E. destruct (Hl E) as [-> Hcb]. by apply leap_cycles. }
  split_and!; try (unfold days_in; lia). unfold days_in, day_number in *. rewrite year_start_cycles by lia. unfold yday in *. lia.
Qed.

(** ** What is printed is read back *)

Lemma digit_of_digit n : 0 <= n <= 9 -> digit_of (digit n) = Some n.
Proof.
  intros Hn. destruct n as [|p|p]; [reflexivity | | lia].
  do 4 (destruct p as [p|p|]; try lia; try reflexivity).
Qed.

Lemma read_two_digits n l : 0 <= n <= 99 -> read_two (two_digits n ++ l) = Some (n, l).
Proof.
  intros Hn. unfold two_digits, read_two. cbn [app].
  assert (0 <= n / 10 <= 9) by (split; [apply Z.div_pos; lia | apply Z.lt_succ_r, Z.div_lt_upper_bound; lia]).
  rewrite (Z.mod_small (n / 10)) by lia. pose proof (Z.mod_pos_bound n 10 eq_refl).
  rewrite !digit_of_digit by lia. cbn. f_equal. f_equal. pose proof (Z.div_mod n 10). lia.
Qed.

Lemma read_four_digits n l : 0 <= n <= 9999 -> read_four (four_digits n ++ l) = Some (n, l).
Proof.
  intros Hn. unfold four_digits, read_four. rewrite <- app_assoc.
  assert (0 <= n / 100 <= 99) by (split; [apply Z.div_pos; lia | apply Z.lt_succ_r, Z.div_lt_upper_bound; lia]).
  pose proof (Z.mod_pos_bound n 100 eq_refl).
  rewrite read_two_digits by lia. cbn [mbind option_bind]. rewrite read_two_digits by lia. cbn [mbind option_bind].
  f_equal. f_equal. pose proof (Z.div_mod n 100). lia.
Qed.

Lemma month_days_bounds leap m : 1 <= m <= 12 -> 28 <= month_days leap m <= 31.
Proof.
  intros Hm. assert (E : m = 1 \/ m = 2 \/ m = 3 \/ m = 4 \/ m = 5 \/ m = 6 \/ m = 7 \/ m = 8 \/ m = 9 \/ m = 10 \/ m = 11 \/ m = 12) by lia.
  repeat destruct E as [->|E]; try subst m; destruct leap; split; vm_compute; discriminate.
Qed.

(** A date the server prints is the date it reads when a client sends it back,
    for every day of the years the layout can print. *)
Theorem ParseDateOnly_FormatDateOnly n :
  0 <= (civil n).1 <= 9999 -> ParseDateOnly (FormatDateOnly n) = Some (mkTime (n * day) 0).
Proof.
  unfold FormatDateOnly, ParseDateOnly, read_date. pose proof (civil_spec n) as C.
  destruct (civil n) as [y [m d]]. intros Hy. cbn in Hy. destruct C as (Hm & Hd & E).
  pose proof (month_days_bounds (is_leap y) m Hm). unfold days_in in Hd.
  rewrite bytes_text, read_four_digits by lia. cbn -[read_two two_digits]. rewrite read_two_digits by lia. cbn -[read_two two_digits].
  rewrite <- (app_nil_r (two_digits d)), read_two_digits by lia. cbn [mbind option_bind].
  unfold days_in. destruct ((1 <=? m) && (m <=? 12) && (1 <=? d) && (d <=? month_days (is_leap y) m)) eqn:B; cycle 1.
  { apply not_true_iff_false in B. rewrite !andb_true_iff, !Z.leb_le in B. lia. }
  rewrite E. reflexivity.
Qed.

Lemma ParseDateOnly_FormatDateOnly_witness : ParseDateOnly (FormatDateOnly 19782) = Some (mkTime (19782 * day) 0) /\ FormatDateOnly 19782 = "2024-02-29".
Proof. split; [apply ParseDateOnly_FormatDateOnly; vm_compute; split; discriminate | vm_compute; reflexivity]. Defined.
