(* ===== verification/Db.v ===== *)
(** * The database and its transactions: internal/store (store.go, errors.go, tx.go)

    The tables of migrations/*.sql the modelled operations read and write, one
    field of [DB] each, rows as records with the columns' meaning; the errors of
    errors.go; and the transaction monad [Tx]: a computation over the world (the
    database, the identifiers uuid.NewV7 will hand out, the two clocks) that
    returns a value or an error, with [inTx] rolling the database back on an
    error.  Row locks have no effect on one transaction's own outcome and are
    not represented: a transaction is one atomic step. *)

From S2P Require Import Prelude Json Gamification.

#[local] Open Scope string_scope.
#[local] Open Scope list_scope.
#[local] Open Scope Z_scope.

(** ** Domain errors (errors.go, delta.go, users.go) and driver errors *)

Inductive Err :=
| ErrNotFound
| ErrConflict
| ErrValidation
| ErrResyncRequired
| ErrShutDown
| ErrDuplicate
(** any other error value: a constraint the database enforces, a value the
    driver cannot encode, a payload that does not decode *)
| ErrOther.

#[global] Instance Err_eq_dec : EqDecision Err.
Proof. solve_decision. Defined.

Inductive Res (A : Type) :=
| Ok (a : A)
| Fail (e : Err).
Arguments Ok {A} a.
Arguments Fail {A} e.

(** ** Rows *)

Abbreviation uuid := Z (only parsing).

(** [uuid.Nil]. *)
Definition uuid_Nil : uuid := 0.

Record Location := mkLocation {
  loc_StorageID : uuid;
  loc_ParentID : option uuid;
  loc_Name : string;
  loc_Description : option string;
  loc_LastAuditedAt : option Z;
  loc_CreatedAt : Z;
  loc_UpdatedAt : Z;
}.

Record Category := mkCategory {
  cat_StorageID : uuid;
  cat_ParentID : option uuid;
  cat_Name : string;
  cat_DefaultShelfLifeDays : option Z;
  cat_CreatedAt : Z;
  cat_UpdatedAt : Z;
}.

Record CatalogProduct := mkCatalogProduct {
  cp_NormalizedName : string;
  cp_DisplayName : string;
  cp_BaseID : option uuid;
  cp_CategoryPath : option string;
  cp_ItemType : string;
  cp_ImageURL : option string;
  cp_IconName : option string;
  cp_DefaultShelfLifeDays : option Z;
  cp_CreatedAt : Z;
}.

Record Product := mkProduct {
  prod_StorageID : uuid;
  prod_Name : string;
  prod_CategoryID : option uuid;
  prod_CatalogID : option uuid;
  prod_ItemType : string;
  prod_DefaultShelfLifeDays : option Z;
  prod_MinStock : Z;
  prod_ImageURL : option string;
  prod_IconName : option string;
  prod_CreatedAt : Z;
  prod_UpdatedAt : Z;
}.

Record Container := mkContainer {
  con_StorageID : uuid;
  con_Label : string;
  con_ContainerType : option string;
  con_CreatedAt : Z;
  con_DestroyedAt : option Z;
}.

(** The columns of inventory_batches; the expiration date is a day number. *)
Record Batch := mkBatch {
  b_ProductID : uuid;
  b_LocationID : uuid;
  b_Quantity : Z;
  b_ExpirationDate : option Z;
  b_ExpirationSource : string;
  b_CreatedAt : Z;
  b_ContainerID : option uuid;
}.

Record LogRow := mkLogRow {
  log_ID : uuid;
  log_ProductID : uuid;
  log_BatchID : option uuid;
  log_ChangeQty : Z;
  log_Reason : string;
  log_CreatedBy : option uuid;
  log_Timestamp : Z;
}.

Record ShoppingListItem := mkItem {
  item_ListID : uuid;
  item_RawText : string;
  item_Status : string;
  item_MatchedProductID : option uuid;
  item_ResolvedQuantity : option Z;
  item_CreatedAt : Z;
}.

(** A submitted list; its lines are the rows of shopping_list_items. *)
Record ShoppingList := mkList {
  list_StorageID : uuid;
  list_Source : string;
  list_CreatedBy : option uuid;
  list_CreatedAt : Z;
}.

(** One row of a job's stored proposal, as the store decodes it: the row id and
    the model's match (status and proposed product). *)
Record ProposalRow := mkProposalRow {
  pr_RowID : string;
  pr_Status : string;
  pr_Product : option uuid;
}.

(** A job's payload column: NULL, bytes that do not decode as a proposal, or a
    proposal's rows. *)
Inductive Payload :=
| NoPayload
| BadPayload
| Proposal (rows : list ProposalRow).

Inductive JobKind := JobShelfIngestion | JobProductPhoto | JobShoppingListPhoto | JobConsumptionPhoto.
Inductive JobStatus := JobPending | JobDone | JobFailed | JobConsumed.

#[global] Instance JobKind_eq_dec : EqDecision JobKind.
Proof. solve_decision. Defined.
#[global] Instance JobStatus_eq_dec : EqDecision JobStatus.
Proof. solve_decision. Defined.

Record Job := mkJob {
  job_StorageID : uuid;
  job_Kind : JobKind;
  job_Status : JobStatus;
  job_Payload : Payload;
  job_Error : option string;
  job_CreatedBy : option uuid;
  job_ImageFilename : option string;
  job_LocationHintID : option uuid;
  job_LeaseOwner : option uuid;
  job_LeaseExpiresAt : option Z;
  job_CreatedAt : Z;
  job_UpdatedAt : Z;
}.

Record Tombstone := mkTombstone {
  ts_ID : uuid;
  ts_StorageID : uuid;
  ts_EntityType : string;
  ts_EntityID : uuid;
  ts_DeletedAt : Z;
}.

Record ContributionEvent := mkContribution {
  ce_ID : uuid;
  ce_StorageID : uuid;
  ce_UserID : uuid;
  ce_Kind : string;
  ce_RefID : option uuid;
  ce_CreatedAt : Z;
}.

(** Weeks are the day number of their Monday. *)
Record UserProgress := mkProgress {
  up_XP : Z;
  up_Level : Z;
  up_StreakWeeks : Z;
  up_LastActiveWeek : option Z;
}.

(** The decoded [params] column of a quest. *)
Inductive QuestParams :=
| IdList (ids : list uuid)
| StaleLocation (location : uuid) (name sinceMonth : string)
| FirstMile (start_count : Z)
| NoParams.

Record Quest := mkQuest {
  q_StorageID : uuid;
  q_WeekStart : Z;
  q_Generator : string;
  q_Params : QuestParams;
  q_TargetCount : Z;
  q_XPReward : Z;
  q_CompletedAt : option Z;
}.

(** A row of storage_gamification_settings. *)
Record GSettings := mkGSettings {
  gs_LeaderboardEnabled : bool;
  gs_WeeklyGoalItems : Z;
  gs_CleanSince : option Z;
  gs_WellStockedSince : option Z;
}.

(** response_body is JSONB: the value is kept, not the text. *)
Record IdempotencyRecord := mkIdem {
  idem_StorageID : option uuid;
  idem_RequestHash : string;
  idem_Status : Z;
  idem_Body : option Json;
  idem_CreatedAt : Z;
}.

(** One storage's association of a code with a product. *)
Record ProductBarcode := mkProductBarcode { pb_ProductID : uuid; pb_CreatedAt : Z }.

(** The global hint a code carries, and how often it was scanned. *)
Record CatalogBarcode := mkCatalogBarcode { cb_CatalogID : uuid; cb_CreatedAt : Z; cb_ScanCount : Z }.

(** The columns users.barcode_prompt_enabled and barcode_prompt_seen_at of a user
    whose columns were ever written; the defaults are TRUE and NULL. *)
Record PromptColumns := mkPrompt { pr_Enabled : bool; pr_SeenAt : option Z }.

(** What an audit row is about and the values it records: an id (stored as its
    text), a text, a number or a flag. *)
Inductive AuditValue :=
| AuditID (id : uuid)
| AuditText (s : string)
| AuditInt (n : Z)
| AuditFlag (b : bool).

(** One row of admin_audit_log; [au_Details] is the decoded JSON column, the fields
    that are present with their values. *)
Record AuditRow := mkAudit {
  au_ID : uuid;
  au_ActorID : option uuid;
  au_Action : string;
  au_Target : option AuditValue;
  au_Details : list (string * AuditValue);
  au_CreatedAt : Z;
}.

(** ** Accounts *)

Record User := mkUser {
  usr_Username : string;
  usr_PasswordHash : string;
  usr_DisplayName : string;
  usr_IsAdmin : bool;
  usr_CreatedAt : Z;
}.

Record Storage := mkStorage { sto_Name : string; sto_CreatedAt : Z }.

(** A row of storage_members; [mem_StartPage] is checked against the pages the
    column admits. *)
Record Member := mkMember { mem_AddedAt : Z; mem_StartPage : string }.

Inductive SessionKind := SessionBrowser | SessionDevice.

#[global] Instance SessionKind_eq_dec : EqDecision SessionKind.
Proof. solve_decision. Defined.

Record Session := mkSession {
  ses_UserID : uuid;
  ses_Kind : SessionKind;
  ses_Label : option string;
  ses_LastSeenAt : option Z;
  ses_CreatedAt : Z;
  ses_ExpiresAt : Z;
}.

Record PairingCode := mkPairing {
  pc_UserID : uuid;
  pc_CreatedAt : Z;
  pc_ExpiresAt : Z;
  pc_UsedAt : option Z;
}.

Inductive NotificationKind := NotificationNtfy | NotificationGotify | NotificationWebhook.

#[global] Instance NotificationKind_eq_dec : EqDecision NotificationKind.
Proof. solve_decision. Defined.

Record NotificationSettings := mkNotify {
  ns_Enabled : bool;
  ns_Kind : NotificationKind;
  ns_URL : string;
  ns_Token : option string;
  ns_SendHour : Z;
  ns_IncludeSoon : bool;
  ns_LastRunAt : option Z;
  ns_LastResult : option string;
  ns_UpdatedAt : Z;
}.

(** ** The database *)

Record DB := mkDB {
  db_accounts : gmap uuid User;
  db_storage_rows : gmap uuid Storage;
  db_memberships : gmap (uuid * uuid) Member;
  db_locations : gmap uuid Location;
  db_categories : gmap uuid Category;
  db_catalog : gmap uuid CatalogProduct;
  db_products : gmap uuid Product;
  db_barcodes : gmap (uuid * string) ProductBarcode;
  db_catalog_barcodes : gmap string CatalogBarcode;
  db_containers : gmap uuid Container;
  db_batches : gmap uuid Batch;
  db_logs : list LogRow;
  db_lists : gmap uuid ShoppingList;
  db_items : gmap uuid ShoppingListItem;
  db_jobs : gmap uuid Job;
  db_tombstones : list Tombstone;
  db_contributions : list ContributionEvent;
  db_progress : gmap (uuid * uuid) UserProgress;
  db_achievements : gset (uuid * uuid * string);
  db_holidays : gset (uuid * Z);
  db_quests : gmap uuid Quest;
  db_contributors : gset (uuid * uuid);
  db_gsettings : gmap uuid GSettings;
  db_idempotency : gmap (string * uuid) IdempotencyRecord;
  db_prompts : gmap uuid PromptColumns;
  db_audit : list AuditRow;
  db_preferences : gmap uuid bool;
  db_sessions : gmap string Session;
  db_pairing : gmap string PairingCode;
  db_notifications : gmap uuid NotificationSettings;
}.

(** The primary keys other tables refer to. *)
Definition db_users (d : DB) : gset uuid := dom (db_accounts d).
Definition db_storages (d : DB) : gset uuid := dom (db_storage_rows d).
Definition db_members (d : DB) : gset (uuid * uuid) := dom (db_memberships d).

(** One update function per table. *)
Definition set_accounts (f : gmap uuid User -> gmap uuid User) (d : DB) : DB :=
  mkDB (f (db_accounts d)) (db_storage_rows d) (db_memberships d) (db_locations d) (db_categories d)
       (db_catalog d) (db_products d) (db_barcodes d) (db_catalog_barcodes d) (db_containers d) (db_batches d)
       (db_logs d) (db_lists d) (db_items d) (db_jobs d) (db_tombstones d) (db_contributions d) (db_progress d)
       (db_achievements d) (db_holidays d) (db_quests d) (db_contributors d) (db_gsettings d) (db_idempotency d)
       (db_prompts d) (db_audit d) (db_preferences d) (db_sessions d) (db_pairing d) (db_notifications d).
Definition set_storage_rows (f : gmap uuid Storage -> gmap uuid Storage) (d : DB) : DB :=
  mkDB (db_accounts d) (f (db_storage_rows d)) (db_memberships d) (db_locations d) (db_categories d)
       (db_catalog d) (db_products d) (db_barcodes d) (db_catalog_barcodes d) (db_containers d) (db_batches d)
       (db_logs d) (db_lists d) (db_items d) (db_jobs d) (db_tombstones d) (db_contributions d) (db_progress d)
       (db_achievements d) (db_holidays d) (db_quests d) (db_contributors d) (db_gsettings d) (db_idempotency d)
       (db_prompts d) (db_audit d) (db_preferences d) (db_sessions d) (db_pairing d) (db_notifications d).
Definition set_memberships (f : gmap (uuid * uuid) Member -> gmap (uuid * uuid) Member) (d : DB) : DB :=
  mkDB (db_accounts d) (db_storage_rows d) (f (db_memberships d)) (db_locations d) (db_categories d)
       (db_catalog d) (db_products d) (db_barcodes d) (db_catalog_barcodes d) (db_containers d) (db_batches d)
       (db_logs d) (db_lists d) (db_items d) (db_jobs d) (db_tombstones d) (db_contributions d) (db_progress d)
       (db_achievements d) (db_holidays d) (db_quests d) (db_contributors d) (db_gsettings d) (db_idempotency d)
       (db_prompts d) (db_audit d) (db_preferences d) (db_sessions d) (db_pairing d) (db_notifications d).
Definition set_locations (f : gmap uuid Location -> gmap uuid Location) (d : DB) : DB :=
  mkDB (db_accounts d) (db_storage_rows d) (db_memberships d) (f (db_locations d)) (db_categories d)
       (db_catalog d) (db_products d) (db_barcodes d) (db_catalog_barcodes d) (db_containers d) (db_batches d)
       (db_logs d) (db_lists d) (db_items d) (db_jobs d) (db_tombstones d) (db_contributions d) (db_progress d)
       (db_achievements d) (db_holidays d) (db_quests d) (db_contributors d) (db_gsettings d) (db_idempotency d)
       (db_prompts d) (db_audit d) (db_preferences d) (db_sessions d) (db_pairing d) (db_notifications d).
Definition set_categories (f : gmap uuid Category -> gmap uuid Category) (d : DB) : DB :=
  mkDB (db_accounts d) (db_storage_rows d) (db_memberships d) (db_locations d) (f (db_categories d))
       (db_catalog d) (db_products d) (db_barcodes d) (db_catalog_barcodes d) (db_containers d) (db_batches d)
       (db_logs d) (db_lists d) (db_items d) (db_jobs d) (db_tombstones d) (db_contributions d) (db_progress d)
       (db_achievements d) (db_holidays d) (db_quests d) (db_contributors d) (db_gsettings d) (db_idempotency d)
       (db_prompts d) (db_audit d) (db_preferences d) (db_sessions d) (db_pairing d) (db_notifications d).
Definition set_catalog (f : gmap uuid CatalogProduct -> gmap uuid CatalogProduct) (d : DB) : DB :=
  mkDB (db_accounts d) (db_storage_rows d) (db_memberships d) (db_locations d) (db_categories d)
       (f (db_catalog d)) (db_products d) (db_barcodes d) (db_catalog_barcodes d) (db_containers d)
       (db_batches d) (db_logs d) (db_lists d) (db_items d) (db_jobs d) (db_tombstones d) (db_contributions d)
       (db_progress d) (db_achievements d) (db_holidays d) (db_quests d) (db_contributors d) (db_gsettings d)
       (db_idempotency d) (db_prompts d) (db_audit d) (db_preferences d) (db_sessions d) (db_pairing d)
       (db_notifications d).
Definition set_products (f : gmap uuid Product -> gmap uuid Product) (d : DB) : DB :=
  mkDB (db_accounts d) (db_storage_rows d) (db_memberships d) (db_locations d) (db_categories d) (db_catalog d)
       (f (db_products d)) (db_barcodes d) (db_catalog_barcodes d) (db_containers d) (db_batches d) (db_logs d)
       (db_lists d) (db_items d) (db_jobs d) (db_tombstones d) (db_contributions d) (db_progress d)
       (db_achievements d) (db_holidays d) (db_quests d) (db_contributors d) (db_gsettings d) (db_idempotency d)
       (db_prompts d) (db_audit d) (db_preferences d) (db_sessions d) (db_pairing d) (db_notifications d).
Definition set_barcodes (f : gmap (uuid * string) ProductBarcode -> gmap (uuid * string) ProductBarcode) (d : DB) : DB :=
  mkDB (db_accounts d) (db_storage_rows d) (db_memberships d) (db_locations d) (db_categories d) (db_catalog d)
       (db_products d) (f (db_barcodes d)) (db_catalog_barcodes d) (db_containers d) (db_batches d) (db_logs d)
       (db_lists d) (db_items d) (db_jobs d) (db_tombstones d) (db_contributions d) (db_progress d)
       (db_achievements d) (db_holidays d) (db_quests d) (db_contributors d) (db_gsettings d) (db_idempotency d)
       (db_prompts d) (db_audit d) (db_preferences d) (db_sessions d) (db_pairing d) (db_notifications d).
Definition set_catalog_barcodes (f : gmap string CatalogBarcode -> gmap string CatalogBarcode) (d : DB) : DB :=
  mkDB (db_accounts d) (db_storage_rows d) (db_memberships d) (db_locations d) (db_categories d) (db_catalog d)
       (db_products d) (db_barcodes d) (f (db_catalog_barcodes d)) (db_containers d) (db_batches d) (db_logs d)
       (db_lists d) (db_items d) (db_jobs d) (db_tombstones d) (db_contributions d) (db_progress d)
       (db_achievements d) (db_holidays d) (db_quests d) (db_contributors d) (db_gsettings d) (db_idempotency d)
       (db_prompts d) (db_audit d) (db_preferences d) (db_sessions d) (db_pairing d) (db_notifications d).
Definition set_containers (f : gmap uuid Container -> gmap uuid Container) (d : DB) : DB :=
  mkDB (db_accounts d) (db_storage_rows d) (db_memberships d) (db_locations d) (db_categories d) (db_catalog d)
       (db_products d) (db_barcodes d) (db_catalog_barcodes d) (f (db_containers d)) (db_batches d) (db_logs d)
       (db_lists d) (db_items d) (db_jobs d) (db_tombstones d) (db_contributions d) (db_progress d)
       (db_achievements d) (db_holidays d) (db_quests d) (db_contributors d) (db_gsettings d) (db_idempotency d)
       (db_prompts d) (db_audit d) (db_preferences d) (db_sessions d) (db_pairing d) (db_notifications d).
Definition set_batches (f : gmap uuid Batch -> gmap uuid Batch) (d : DB) : DB :=
  mkDB (db_accounts d) (db_storage_rows d) (db_memberships d) (db_locations d) (db_categories d) (db_catalog d)
       (db_products d) (db_barcodes d) (db_catalog_barcodes d) (db_containers d) (f (db_batches d)) (db_logs d)
       (db_lists d) (db_items d) (db_jobs d) (db_tombstones d) (db_contributions d) (db_progress d)
       (db_achievements d) (db_holidays d) (db_quests d) (db_contributors d) (db_gsettings d) (db_idempotency d)
       (db_prompts d) (db_audit d) (db_preferences d) (db_sessions d) (db_pairing d) (db_notifications d).
Definition set_logs (f : list LogRow -> list LogRow) (d : DB) : DB :=
  mkDB (db_accounts d) (db_storage_rows d) (db_memberships d) (db_locations d) (db_categories d) (db_catalog d)
       (db_products d) (db_barcodes d) (db_catalog_barcodes d) (db_containers d) (db_batches d) (f (db_logs d))
       (db_lists d) (db_items d) (db_jobs d) (db_tombstones d) (db_contributions d) (db_progress d)
       (db_achievements d) (db_holidays d) (db_quests d) (db_contributors d) (db_gsettings d) (db_idempotency d)
       (db_prompts d) (db_audit d) (db_preferences d) (db_sessions d) (db_pairing d) (db_notifications d).
Definition set_lists (f : gmap uuid ShoppingList -> gmap uuid ShoppingList) (d : DB) : DB :=
  mkDB (db_accounts d) (db_storage_rows d) (db_memberships d) (db_locations d) (db_categories d) (db_catalog d)
       (db_products d) (db_barcodes d) (db_catalog_barcodes d) (db_containers d) (db_batches d) (db_logs d)
       (f (db_lists d)) (db_items d) (db_jobs d) (db_tombstones d) (db_contributions d) (db_progress d)
       (db_achievements d) (db_holidays d) (db_quests d) (db_contributors d) (db_gsettings d) (db_idempotency d)
       (db_prompts d) (db_audit d) (db_preferences d) (db_sessions d) (db_pairing d) (db_notifications d).
Definition set_items (f : gmap uuid ShoppingListItem -> gmap uuid ShoppingListItem) (d : DB) : DB :=
  mkDB (db_accounts d) (db_storage_rows d) (db_memberships d) (db_locations d) (db_categories d) (db_catalog d)
       (db_products d) (db_barcodes d) (db_catalog_barcodes d) (db_containers d) (db_batches d) (db_logs d)
       (db_lists d) (f (db_items d)) (db_jobs d) (db_tombstones d) (db_contributions d) (db_progress d)
       (db_achievements d) (db_holidays d) (db_quests d) (db_contributors d) (db_gsettings d) (db_idempotency d)
       (db_prompts d) (db_audit d) (db_preferences d) (db_sessions d) (db_pairing d) (db_notifications d).
Definition set_jobs (f : gmap uuid Job -> gmap uuid Job) (d : DB) : DB :=
  mkDB (db_accounts d) (db_storage_rows d) (db_memberships d) (db_locations d) (db_categories d) (db_catalog d)
       (db_products d) (db_barcodes d) (db_catalog_barcodes d) (db_containers d) (db_batches d) (db_logs d)
       (db_lists d) (db_items d) (f (db_jobs d)) (db_tombstones d) (db_contributions d) (db_progress d)
       (db_achievements d) (db_holidays d) (db_quests d) (db_contributors d) (db_gsettings d) (db_idempotency d)
       (db_prompts d) (db_audit d) (db_preferences d) (db_sessions d) (db_pairing d) (db_notifications d).
Definition set_tombstones (f : list Tombstone -> list Tombstone) (d : DB) : DB :=
  mkDB (db_accounts d) (db_storage_rows d) (db_memberships d) (db_locations d) (db_categories d) (db_catalog d)
       (db_products d) (db_barcodes d) (db_catalog_barcodes d) (db_containers d) (db_batches d) (db_logs d)
       (db_lists d) (db_items d) (db_jobs d) (f (db_tombstones d)) (db_contributions d) (db_progress d)
       (db_achievements d) (db_holidays d) (db_quests d) (db_contributors d) (db_gsettings d) (db_idempotency d)
       (db_prompts d) (db_audit d) (db_preferences d) (db_sessions d) (db_pairing d) (db_notifications d).
Definition set_contributions (f : list ContributionEvent -> list ContributionEvent) (d : DB) : DB :=
  mkDB (db_accounts d) (db_storage_rows d) (db_memberships d) (db_locations d) (db_categories d) (db_catalog d)
       (db_products d) (db_barcodes d) (db_catalog_barcodes d) (db_containers d) (db_batches d) (db_logs d)
       (db_lists d) (db_items d) (db_jobs d) (db_tombstones d) (f (db_contributions d)) (db_progress d)
       (db_achievements d) (db_holidays d) (db_quests d) (db_contributors d) (db_gsettings d) (db_idempotency d)
       (db_prompts d) (db_audit d) (db_preferences d) (db_sessions d) (db_pairing d) (db_notifications d).
Definition set_progress (f : gmap (uuid * uuid) UserProgress -> gmap (uuid * uuid) UserProgress) (d : DB) : DB :=
  mkDB (db_accounts d) (db_storage_rows d) (db_memberships d) (db_locations d) (db_categories d) (db_catalog d)
       (db_products d) (db_barcodes d) (db_catalog_barcodes d) (db_containers d) (db_batches d) (db_logs d)
       (db_lists d) (db_items d) (db_jobs d) (db_tombstones d) (db_contributions d) (f (db_progress d))
       (db_achievements d) (db_holidays d) (db_quests d) (db_contributors d) (db_gsettings d) (db_idempotency d)
       (db_prompts d) (db_audit d) (db_preferences d) (db_sessions d) (db_pairing d) (db_notifications d).
Definition set_achievements (f : gset (uuid * uuid * string) -> gset (uuid * uuid * string)) (d : DB) : DB :=
  mkDB (db_accounts d) (db_storage_rows d) (db_memberships d) (db_locations d) (db_categories d) (db_catalog d)
       (db_products d) (db_barcodes d) (db_catalog_barcodes d) (db_containers d) (db_batches d) (db_logs d)
       (db_lists d) (db_items d) (db_jobs d) (db_tombstones d) (db_contributions d) (db_progress d)
       (f (db_achievements d)) (db_holidays d) (db_quests d) (db_contributors d) (db_gsettings d)
       (db_idempotency d) (db_prompts d) (db_audit d) (db_preferences d) (db_sessions d) (db_pairing d)
       (db_notifications d).
Definition set_holidays (f : gset (uuid * Z) -> gset (uuid * Z)) (d : DB) : DB :=
  mkDB (db_accounts d) (db_storage_rows d) (db_memberships d) (db_locations d) (db_categories d) (db_catalog d)
       (db_products d) (db_barcodes d) (db_catalog_barcodes d) (db_containers d) (db_batches d) (db_logs d)
       (db_lists d) (db_items d) (db_jobs d) (db_tombstones d) (db_contributions d) (db_progress d)
       (db_achievements d) (f (db_holidays d)) (db_quests d) (db_contributors d) (db_gsettings d)
       (db_idempotency d) (db_prompts d) (db_audit d) (db_preferences d) (db_sessions d) (db_pairing d)
       (db_notifications d).
Definition set_quests (f : gmap uuid Quest -> gmap uuid Quest) (d : DB) : DB :=
  mkDB (db_accounts d) (db_storage_rows d) (db_memberships d) (db_locations d) (db_categories d) (db_catalog d)
       (db_products d) (db_barcodes d) (db_catalog_barcodes d) (db_containers d) (db_batches d) (db_logs d)
       (db_lists d) (db_items d) (db_jobs d) (db_tombstones d) (db_contributions d) (db_progress d)
       (db_achievements d) (db_holidays d) (f (db_quests d)) (db_contributors d) (db_gsettings d)
       (db_idempotency d) (db_prompts d) (db_audit d) (db_preferences d) (db_sessions d) (db_pairing d)
       (db_notifications d).
Definition set_contributors (f : gset (uuid * uuid) -> gset (uuid * uuid)) (d : DB) : DB :=
  mkDB (db_accounts d) (db_storage_rows d) (db_memberships d) (db_locations d) (db_categories d) (db_catalog d)
       (db_products d) (db_barcodes d) (db_catalog_barcodes d) (db_containers d) (db_batches d) (db_logs d)
       (db_lists d) (db_items d) (db_jobs d) (db_tombstones d) (db_contributions d) (db_progress d)
       (db_achievements d) (db_holidays d) (db_quests d) (f (db_contributors d)) (db_gsettings d)
       (db_idempotency d) (db_prompts d) (db_audit d) (db_preferences d) (db_sessions d) (db_pairing d)
       (db_notifications d).
Definition set_gsettings (f : gmap uuid GSettings -> gmap uuid GSettings) (d : DB) : DB :=
  mkDB (db_accounts d) (db_storage_rows d) (db_memberships d) (db_locations d) (db_categories d) (db_catalog d)
       (db_products d) (db_barcodes d) (db_catalog_barcodes d) (db_containers d) (db_batches d) (db_logs d)
       (db_lists d) (db_items d) (db_jobs d) (db_tombstones d) (db_contributions d) (db_progress d)
       (db_achievements d) (db_holidays d) (db_quests d) (db_contributors d) (f (db_gsettings d))
       (db_idempotency d) (db_prompts d) (db_audit d) (db_preferences d) (db_sessions d) (db_pairing d)
       (db_notifications d).
Definition set_idempotency (f : gmap (string * uuid) IdempotencyRecord -> gmap (string * uuid) IdempotencyRecord) (d : DB) : DB :=
  mkDB (db_accounts d) (db_storage_rows d) (db_memberships d) (db_locations d) (db_categories d) (db_catalog d)
       (db_products d) (db_barcodes d) (db_catalog_barcodes d) (db_containers d) (db_batches d) (db_logs d)
       (db_lists d) (db_items d) (db_jobs d) (db_tombstones d) (db_contributions d) (db_progress d)
       (db_achievements d) (db_holidays d) (db_quests d) (db_contributors d) (db_gsettings d)
       (f (db_idempotency d)) (db_prompts d) (db_audit d) (db_preferences d) (db_sessions d) (db_pairing d)
       (db_notifications d).
Definition set_prompts (f : gmap uuid PromptColumns -> gmap uuid PromptColumns) (d : DB) : DB :=
  mkDB (db_accounts d) (db_storage_rows d) (db_memberships d) (db_locations d) (db_categories d) (db_catalog d)
       (db_products d) (db_barcodes d) (db_catalog_barcodes d) (db_containers d) (db_batches d) (db_logs d)
       (db_lists d) (db_items d) (db_jobs d) (db_tombstones d) (db_contributions d) (db_progress d)
       (db_achievements d) (db_holidays d) (db_quests d) (db_contributors d) (db_gsettings d) (db_idempotency d)
       (f (db_prompts d)) (db_audit d) (db_preferences d) (db_sessions d) (db_pairing d) (db_notifications d).
Definition set_audit (f : list AuditRow -> list AuditRow) (d : DB) : DB :=
  mkDB (db_accounts d) (db_storage_rows d) (db_memberships d) (db_locations d) (db_categories d) (db_catalog d)
       (db_products d) (db_barcodes d) (db_catalog_barcodes d) (db_containers d) (db_batches d) (db_logs d)
       (db_lists d) (db_items d) (db_jobs d) (db_tombstones d) (db_contributions d) (db_progress d)
       (db_achievements d) (db_holidays d) (db_quests d) (db_contributors d) (db_gsettings d) (db_idempotency d)
       (db_prompts d) (f (db_audit d)) (db_preferences d) (db_sessions d) (db_pairing d) (db_notifications d).
Definition set_preferences (f : gmap uuid bool -> gmap uuid bool) (d : DB) : DB :=
  mkDB (db_accounts d) (db_storage_rows d) (db_memberships d) (db_locations d) (db_categories d) (db_catalog d)
       (db_products d) (db_barcodes d) (db_catalog_barcodes d) (db_containers d) (db_batches d) (db_logs d)
       (db_lists d) (db_items d) (db_jobs d) (db_tombstones d) (db_contributions d) (db_progress d)
       (db_achievements d) (db_holidays d) (db_quests d) (db_contributors d) (db_gsettings d) (db_idempotency d)
       (db_prompts d) (db_audit d) (f (db_preferences d)) (db_sessions d) (db_pairing d) (db_notifications d).
Definition set_sessions (f : gmap string Session -> gmap string Session) (d : DB) : DB :=
  mkDB (db_accounts d) (db_storage_rows d) (db_memberships d) (db_locations d) (db_categories d) (db_catalog d)
       (db_products d) (db_barcodes d) (db_catalog_barcodes d) (db_containers d) (db_batches d) (db_logs d)
       (db_lists d) (db_items d) (db_jobs d) (db_tombstones d) (db_contributions d) (db_progress d)
       (db_achievements d) (db_holidays d) (db_quests d) (db_contributors d) (db_gsettings d) (db_idempotency d)
       (db_prompts d) (db_audit d) (db_preferences d) (f (db_sessions d)) (db_pairing d) (db_notifications d).
Definition set_pairing (f : gmap string PairingCode -> gmap string PairingCode) (d : DB) : DB :=
  mkDB (db_accounts d) (db_storage_rows d) (db_memberships d) (db_locations d) (db_categories d) (db_catalog d)
       (db_products d) (db_barcodes d) (db_catalog_barcodes d) (db_containers d) (db_batches d) (db_logs d)
       (db_lists d) (db_items d) (db_jobs d) (db_tombstones d) (db_contributions d) (db_progress d)
       (db_achievements d) (db_holidays d) (db_quests d) (db_contributors d) (db_gsettings d) (db_idempotency d)
       (db_prompts d) (db_audit d) (db_preferences d) (db_sessions d) (f (db_pairing d)) (db_notifications d).
Definition set_notifications (f : gmap uuid NotificationSettings -> gmap uuid NotificationSettings) (d : DB) : DB :=
  mkDB (db_accounts d) (db_storage_rows d) (db_memberships d) (db_locations d) (db_categories d) (db_catalog d)
       (db_products d) (db_barcodes d) (db_catalog_barcodes d) (db_containers d) (db_batches d) (db_logs d)
       (db_lists d) (db_items d) (db_jobs d) (db_tombstones d) (db_contributions d) (db_progress d)
       (db_achievements d) (db_holidays d) (db_quests d) (db_contributors d) (db_gsettings d) (db_idempotency d)
       (db_prompts d) (db_audit d) (db_preferences d) (db_sessions d) (db_pairing d) (f (db_notifications d)).

Definition empty_db : DB :=
  mkDB ∅ ∅ ∅ ∅ ∅ ∅ ∅ ∅ ∅ ∅ ∅ [] ∅ ∅ ∅ [] [] ∅ ∅ ∅ ∅ ∅ ∅ ∅ ∅ [] ∅ ∅ ∅ ∅.

(** ** Worlds and transactions *)

Record World := mkWorld {
  wdb : DB;
  (** what uuid.NewV7 returns next; an exhausted supply is its error *)
  wids : list uuid;
  (** PostgreSQL's now(), nanoseconds since the epoch *)
  wnow : Z;
  (** Go's time.Now() *)
  wclock : Z;
}.

Definition with_db (d : DB) (w : World) : World := mkWorld d (wids w) (wnow w) (wclock w).

Definition Tx (A : Type) : Type := World -> Res A * World.

#[global] Instance tx_ret : MRet Tx := fun A a w => (Ok a, w).
#[global] Instance tx_bind : MBind Tx := fun A B f m w =>
  match m w with
  | (Ok a, w') => f a w'
  | (Fail e, w') => (Fail e, w')
  end.

Definition throw {A} (e : Err) : Tx A := fun w => (Fail e, w).
Definition get_db : Tx DB := fun w => (Ok (wdb w), w).
Definition now : Tx Z := fun w => (Ok (wnow w), w).
Definition time_Now : Tx Z := fun w => (Ok (wclock w), w).
Definition modify (f : DB -> DB) : Tx unit := fun w => (Ok tt, with_db (f (wdb w)) w).

(** A Go guard [if !b { return e }] or a constraint of the schema. *)
Definition require (b : bool) (e : Err) : Tx unit := if b then mret tt else throw e.

(** A query for one row: [pgx.ErrNoRows] becomes [e]. *)
Definition some_or {A} (o : option A) (e : Err) : Tx A :=
  match o with Some a => mret a | None => throw e end.

Fixpoint for_each {A} (f : A -> Tx unit) (l : list A) : Tx unit :=
  match l with
  | [] => mret tt
  | a :: l' => f a ;; for_each f l'
  end.

(** A loop that collects what its body returns. *)
Fixpoint traverse {A B} (f : A -> Tx B) (l : list A) : Tx (list B) :=
  match l with
  | [] => mret []
  | a :: l' => b ← f a; bs ← traverse f l'; mret (b :: bs)
  end.

Definition newID : Tx uuid := fun w =>
  match wids w with
  | [] => (Fail ErrOther, w)
  | i :: ids => (Ok i, mkWorld (wdb w) ids (wnow w) (wclock w))
  end.

(** tx.go: commit on success, roll back on any error.  Identifiers that were
    minted stay minted. *)
Definition inTx {A} (fn : Tx A) : Tx A := fun w =>
  match fn w with
  | (Ok a, w') => (Ok a, w')
  | (Fail e, w') => (Fail e, with_db (wdb w) w')
  end.

(** ** Reasoning about transactions *)

Section tx_lemmas.
Context {A B : Type}.

Lemma bind_ok (f : A -> Tx B) (m : Tx A) w b w' :
  mbind f m w = (Ok b, w') <-> exists a w1, m w = (Ok a, w1) /\ f a w1 = (Ok b, w').
Proof.
  unfold mbind, tx_bind. destruct (m w) as [[a|e] w1]; split.
  - eauto.
  - intros (a' & w2 & E & Hf). by simplify_eq.
  - done.
  - intros (a' & w2 & E & Hf). by simplify_eq.
Qed.

Lemma bind_fail (f : A -> Tx B) (m : Tx A) w e w' :
  mbind f m w = (Fail e, w') <->
  m w = (Fail e, w') \/ exists a w1, m w = (Ok a, w1) /\ f a w1 = (Fail e, w').
Proof.
  unfold mbind, tx_bind. destruct (m w) as [[a|e'] w1]; split.
  - right. eauto.
  - intros [?|(a' & w2 & E & Hf)]; by simplify_eq.
  - intros ?. left. by simplify_eq.
  - intros [?|(a' & w2 & E & Hf)]; by simplify_eq.
Qed.

Lemma bind_step (f : A -> Tx B) (m : Tx A) w a w1 :
  m w = (Ok a, w1) -> mbind f m w = f a w1.
Proof. intros E. unfold mbind, tx_bind. by rewrite E. Qed.

Lemma bind_abort (f : A -> Tx B) (m : Tx A) w e w1 :
  m w = (Fail e, w1) -> mbind f m w = (Fail e, w1).
Proof. intros E. unfold mbind, tx_bind. by rewrite E. Qed.

Lemma ret_ok (a b : A) w w' : (mret a : Tx A) w = (Ok b, w') <-> a = b /\ w = w'.
Proof. unfold mret, tx_ret. split; [intros; by simplify_eq | intros [-> ->]; done]. Qed.

Lemma throw_ok e w (a : A) w' : throw e w = (Ok a, w') <-> False.
Proof. unfold throw. by split. Qed.

Lemma inTx_ok (m : Tx A) w a w' : inTx m w = (Ok a, w') <-> m w = (Ok a, w').
Proof. unfold inTx. destruct (m w) as [[]]; by split; intros; simplify_eq. Qed.

Lemma inTx_inv (m : Tx A) w a w' : inTx m w = (Ok a, w') -> m w = (Ok a, w').
Proof. apply inTx_ok. Qed.

Lemma inTx_step (m : Tx A) w a w' : m w = (Ok a, w') -> inTx m w = (Ok a, w').
Proof. apply inTx_ok. Qed.

(** An error leaves the database as it was. *)
Lemma inTx_fail (m : Tx A) w e w' : inTx m w = (Fail e, w') -> wdb w' = wdb w.
Proof. unfold inTx. destruct (m w) as [[]]; intros; by simplify_eq. Qed.

Lemma some_or_ok (o : option A) e w a w' :
  some_or o e w = (Ok a, w') <-> o = Some a /\ w' = w.
Proof.
  destruct o; unfold some_or, mret, tx_ret, throw; split; intros; simplify_eq; auto;
    destruct_and?; by simplify_eq.
Qed.
End tx_lemmas.

Lemma require_ok b e w u w' : require b e w = (Ok u, w') <-> b = true /\ w' = w.
Proof.
  destruct b, u; unfold require, mret, tx_ret, throw; split; intros; simplify_eq; auto;
    destruct_and?; by simplify_eq.
Qed.

(** A guard leaves the world alone, whatever it answers. *)
Lemma require_run b e w r w' : require b e w = (r, w') -> w' = w.
Proof. unfold require. destruct b; cbv [mret tx_ret throw]; intros; by simplify_eq. Qed.

Lemma some_or_run {A} (o : option A) e w r w' : some_or o e w = (r, w') -> w' = w.
Proof. unfold some_or. destruct o; cbv [mret tx_ret throw]; intros; by simplify_eq. Qed.

(** A transaction that does not succeed changes no table. *)
Lemma inTx_run {A} (m : Tx A) w r w' :
  inTx m w = (r, w') -> wdb w' = wdb w \/ exists a, r = Ok a /\ m w = (Ok a, w').
Proof.
  unfold inTx. destruct (m w) as [[a|e] w1]; intros; simplify_eq; [right; eauto | by left].
Qed.

Lemma get_db_ok w d w' : get_db w = (Ok d, w') <-> d = wdb w /\ w' = w.
Proof. unfold get_db. split; [intros; by simplify_eq | intros [-> ->]; done]. Qed.

Lemma now_ok w t w' : now w = (Ok t, w') <-> t = wnow w /\ w' = w.
Proof. unfold now. split; [intros; by simplify_eq | intros [-> ->]; done]. Qed.

Lemma time_Now_ok w t w' : time_Now w = (Ok t, w') <-> t = wclock w /\ w' = w.
Proof. unfold time_Now. split; [intros; by simplify_eq | intros [-> ->]; done]. Qed.

Lemma modify_ok f w u w' : modify f w = (Ok u, w') <-> w' = with_db (f (wdb w)) w.
Proof. destruct u. unfold modify. split; [intros; by simplify_eq | intros ->; done]. Qed.

Lemma newID_ok w i w' :
  newID w = (Ok i, w') <->
  exists ids, wids w = i :: ids /\ w' = mkWorld (wdb w) ids (wnow w) (wclock w).
Proof.
  unfold newID. destruct (wids w) as [|j ids]; split.
  - done.
  - by intros (? & ? & ?).
  - intros; simplify_eq. eauto.
  - intros (ids' & ? & ->). by simplify_eq.
Qed.

(** Invert a successful run of a transaction into its steps. *)
Ltac tx_inv1 H :=
  lazymatch type of H with
  | mbind _ _ _ = (Ok _, _) =>
      apply bind_ok in H as (? & ? & ? & H)
  | mret _ _ = (Ok _, _) => apply ret_ok in H as [? ?]
  | throw _ _ = (Ok _, _) => by apply throw_ok in H
  | inTx _ _ = (Ok _, _) => apply inTx_inv in H
  | some_or _ _ _ = (Ok _, _) => apply some_or_ok in H as [? ?]
  | require _ _ _ = (Ok _, _) => apply require_ok in H as [? ?]
  | get_db _ = (Ok _, _) => apply get_db_ok in H as [? ?]
  | now _ = (Ok _, _) => apply now_ok in H as [? ?]
  | time_Now _ = (Ok _, _) => apply time_Now_ok in H as [? ?]
  | modify _ _ = (Ok _, _) => apply modify_ok in H
  | newID _ = (Ok _, _) => apply newID_ok in H as (? & ? & ?)
  end.

Ltac tx_inv :=
  repeat (match goal with
  | H : _ = (Ok _, _) |- _ => progress (tx_inv1 H)
  end; subst; cbn [wdb wids wnow wclock with_db] in *; try discriminate).

(** Apply a lemma about a sub-transaction to the run of it in the context. *)
Ltac tx_use L :=
  match goal with H : _ = (Ok _, _) |- _ => apply L in H end.

(** Run the first step of a bind whose outcome a lemma describes. *)
Tactic Notation "tx_next" hyp(H) "by" uconstr(L) "as" simple_intropattern(p) :=
  let H1 := fresh "Hrun" in
  apply bind_ok in H as (? & ? & H1 & H); apply L in H1 as p;
  cbn [wdb wids wnow wclock with_db] in *.

Tactic Notation "tx_next" hyp(H) "for" ident(x) "by" uconstr(L) "as" simple_intropattern(p) :=
  let H1 := fresh "Hrun" in
  apply bind_ok in H as (x & ? & H1 & H); apply L in H1 as p;
  cbn [wdb wids wnow wclock with_db] in *.

(** ** What a computation leaves alone *)

(** Whatever its outcome, [m] leaves the part [view] of the database as it was. *)
Definition frames {T A} (view : DB -> T) (m : Tx A) : Prop :=
  forall w r w', m w = (r, w') -> view (wdb w') = view (wdb w).

(** [m] reads only. *)
Definition reads {A} (m : Tx A) : Prop := frames (fun d => d) m.

Section frames.
Context {T : Type} (view : DB -> T).
Context {A B : Type}.

Lemma frames_reads (m : Tx A) : reads m -> frames view m.
Proof. intros Hm w r w' H. by rewrite (Hm w r w' H). Qed.

Lemma frames_bind (m : Tx A) (f : A -> Tx B) : frames view m -> (forall a, frames view (f a)) -> frames view (m ≫= f).
Proof.
  intros Hm Hf w r w' H. unfold mbind, tx_bind in H. destruct (m w) as [[a|e] w1] eqn:E.
  - rewrite (Hf a _ _ _ H). by eapply Hm.
  - injection H as _ <-. by eapply Hm.
Qed.

Lemma frames_inTx (m : Tx A) : frames view m -> frames view (inTx m).
Proof. intros Hm w r w' H. apply inTx_run in H as [->|(a & _ & H)]; [done | by eapply Hm]. Qed.

Lemma frames_modify f : (forall d, view (f d) = view d) -> frames view (modify f).
Proof. intros Hf w r w' H. injection H as _ <-. apply Hf. Qed.

Lemma reads_ret (a : A) : reads (mret a : Tx A).
Proof. intros w r w' H. by injection H as <- <-. Qed.
Lemma reads_throw e : reads (throw e : Tx A).
Proof. intros w r w' H. by injection H as <- <-. Qed.
Lemma reads_some_or (o : option A) e : reads (some_or o e).
Proof. destruct o; [apply reads_ret | apply reads_throw]. Qed.
End frames.

Lemma frames_for_each {T A} (view : DB -> T) (f : A -> Tx unit) l :
  (forall a, frames view (f a)) -> frames view (for_each f l).
Proof.
  intros Hf. induction l as [|a l IH]; [apply frames_reads, reads_ret|].
  apply (frames_bind view (f a) (fun _ => for_each f l)); [done | by intros _].
Qed.

Lemma frames_traverse {T A B} (view : DB -> T) (f : A -> Tx B) l :
  (forall a, frames view (f a)) -> frames view (traverse f l).
Proof.
  intros Hf. induction l as [|a l IH]; [apply frames_reads, reads_ret|].
  apply (frames_bind view (f a)); [done|]. intros b. apply (frames_bind view (traverse f l)); [done|].
  intros bs. apply frames_reads, reads_ret.
Qed.

Lemma reads_require b e : reads (require b e).
Proof. destruct b; [apply reads_ret | apply reads_throw]. Qed.
Lemma reads_get_db : reads get_db.
Proof. intros w r w' H. by injection H as <- <-. Qed.
Lemma reads_now : reads now.
Proof. intros w r w' H. by injection H as <- <-. Qed.
Lemma reads_time_Now : reads time_Now.
Proof. intros w r w' H. by injection H as <- <-. Qed.
Lemma reads_newID : reads newID.
Proof. intros w r w' H. unfold newID in H. destruct (wids w); by injection H as <- <-. Qed.

Create HintDb frames.
#[export] Hint Resolve reads_ret reads_throw reads_some_or reads_require reads_get_db reads_now reads_time_Now
  reads_newID : frames.

(** Walk the structure of a transaction, leaving the leaves to the hints. *)
Ltac frame_step :=
  lazymatch goal with
  | |- frames _ (_ ≫= _) => apply frames_bind; [|intros ?]
  | |- frames _ (for_each _ _) => apply frames_for_each; intros ?
  | |- frames _ (traverse _ _) => apply frames_traverse; intros ?
  | |- frames _ (inTx _) => apply frames_inTx
  | |- frames _ (modify _) => apply frames_modify; intros ?; reflexivity
  | |- frames _ (match ?x with _ => _ end) => destruct x
  | |- frames _ _ => first [solve [auto with frames] | apply frames_reads; solve [auto with frames]]
  end.
Ltac frame_walk := repeat frame_step.
