(* ===== verification/Outcomes.v ===== *)
(** * Outcomes of a transaction

    [clean]: a failure leaves the database as it was; [total]: there is no failure.
    The hint database [clean] and the tactic [cleanup] prove the first from the
    shape of the code. *)

From S2P Require Import Prelude Gamification Db.

#[local] Open Scope list_scope.
#[local] Open Scope Z_scope.

(** A computation whose value is not looked at. *)
Definition void {A} (m : Tx A) : Tx unit := m ;; mret tt.

(** When [m] fails, the database is as it was. *)
Definition clean {A} (m : Tx A) : Prop := forall w e w', m w = (Fail e, w') -> wdb w' = wdb w.

(** [m] never fails. *)
Definition total {A} (m : Tx A) : Prop := forall w, exists a w', m w = (Ok a, w').

Section clean.
Context {A B : Type}.

Lemma clean_reads (m : Tx A) : reads m -> clean m.
Proof. intros Hm w e w' H. by eapply Hm. Qed.
Lemma clean_inTx (m : Tx A) : clean (inTx m).
Proof. intros w e w' H. by eapply inTx_fail. Qed.
Lemma clean_total (m : Tx A) : total m -> clean m.
Proof. intros Hm w e w' H. destruct (Hm w) as (a & v & E). congruence. Qed.
Lemma total_ret (a : A) : total (mret a : Tx A).
Proof. intros w. by exists a, w. Qed.

(** What reads may be followed by anything clean. *)
Lemma clean_after_reads (m : Tx A) (f : A -> Tx B) : reads m -> (forall a, clean (f a)) -> clean (m ≫= f).
Proof.
  intros Hm Hf w e w' H. apply bind_fail in H as [H|(a & w1 & H1 & H2)]; [by eapply Hm|].
  rewrite (Hf a _ _ _ H2). by eapply Hm.
Qed.

(** What is clean may be followed by what cannot fail. *)
Lemma clean_before_total (m : Tx A) (f : A -> Tx B) : clean m -> (forall a, total (f a)) -> clean (m ≫= f).
Proof.
  intros Hm Hf w e w' H. apply bind_fail in H as [H|(a & w1 & H1 & H2)]; [by eapply Hm|].
  destruct (Hf a w1) as (b & v & E). congruence.
Qed.

Lemma total_bind (m : Tx A) (f : A -> Tx B) : total m -> (forall a, total (f a)) -> total (m ≫= f).
Proof.
  intros Hm Hf w. destruct (Hm w) as (a & w1 & E). destruct (Hf a w1) as (b & w2 & E2).
  exists b, w2. by rewrite (bind_step _ _ _ _ _ E).
Qed.
End clean.

Lemma clean_void {A} (m : Tx A) : clean m -> clean (void m).
Proof. intros H. apply clean_before_total; [done | intros; apply total_ret]. Qed.
Lemma total_void {A} (m : Tx A) : total m -> total (void m).
Proof. intros H. apply total_bind; [done | intros; apply total_ret]. Qed.
Lemma total_now : total now.
Proof. intros w. by exists (wnow w), w. Qed.

Lemma total_time_Now : total time_Now.
Proof. intros w. by exists (wclock w), w. Qed.
Lemma total_get_db : total get_db.
Proof. intros w. by exists (wdb w), w. Qed.
Lemma total_modify f : total (modify f).
Proof. intros w. unfold modify. eauto. Qed.

Create HintDb clean.
#[export] Hint Resolve reads_ret reads_throw reads_some_or reads_require reads_get_db reads_now reads_time_Now reads_newID
  clean_inTx clean_void total_ret total_now total_time_Now total_get_db total_modify total_void total_bind : clean.
#[export] Hint Resolve clean_reads clean_total | 2 : clean.

Ltac cleanup :=
  repeat first
    [ solve [auto with clean]
    | apply clean_after_reads; [solve [auto with clean] | intros ?]
    | apply clean_void
    | apply clean_before_total; [|solve [auto with clean]] ].
