(* ===== verification/RateLimit.v ===== *)
(** * The credential limiter: internal/httpapi/ratelimit.go

    A fixed window per key, opened by the first failure and counted until it is
    over.  Each method runs under the limiter's mutex and is one step; the clock is
    the argument. *)

From Stdlib Require Import Ascii String.
From S2P Require Import Prelude Text Gamification Db.

#[local] Open Scope string_scope.
#[local] Open Scope list_scope.
#[local] Open Scope Z_scope.

Definition credentialFailuresPerWindow : Z := 10.
Definition credentialWindow : Z := 15 * minute.

Definition credentialKeys (ip username : string) : list string :=
  (if String.eqb ip "" then [] else ["ip:" +:+ ip]) ++ (if String.eqb username "" then [] else ["user:" +:+ username]).

Record rateWindow := mkWindow { rw_count : Z; rw_start : Z }.

Record rateLimiter := mkLimiter {
  rl_limit : Z;
  rl_window : Z;
  rl_windows : gmap string rateWindow;
}.

Definition newRateLimiter (limit window : Z) : rateLimiter := mkLimiter limit window ∅.

Definition set_windows (m : gmap string rateWindow) (l : rateLimiter) : rateLimiter := mkLimiter (rl_limit l) (rl_window l) m.

Definition elapsed (l : rateLimiter) (now : Z) (w : rateWindow) : bool := rl_window l <=? now - rw_start w.

(** The window that blocks a key, if one does. *)
Definition blocking (l : rateLimiter) (now : Z) (key : string) : option rateWindow :=
  w ← rl_windows l !! key;
  if elapsed l now w || (rw_count w <? rl_limit l) then None else Some w.

(** How long until the last of the blocked keys frees, and whether one is. *)
Definition blockedLocked (l : rateLimiter) (now : Z) (keys : list string) : Z * bool :=
  foldl (fun '(retryAfter, found) key =>
    match blocking l now key with
    | None => (retryAfter, found)
    | Some w => (Z.max retryAfter (rl_window l - (now - rw_start w)), true)
    end) (0, false) keys.

Definition sweep (l : rateLimiter) (now : Z) : rateLimiter :=
  set_windows (base.filter (fun kv : string * rateWindow => elapsed l now kv.2 = false) (rl_windows l)) l.

Definition charge (now : Z) (l : rateLimiter) (key : string) : rateLimiter :=
  match rl_windows l !! key with
  | Some w =>
    if elapsed l now w then set_windows (<[key := mkWindow 1 now]> (rl_windows l)) l
    else set_windows (<[key := mkWindow (rw_count w + 1) (rw_start w)]> (rl_windows l)) l
  | None => set_windows (<[key := mkWindow 1 now]> (rl_windows l)) l
  end.

Definition recordLocked (l : rateLimiter) (now : Z) (keys : list string) : rateLimiter :=
  foldl (charge now) (sweep l now) keys.

Definition blocked (l : rateLimiter) (now : Z) (keys : list string) : Z * bool := blockedLocked l now keys.
Definition record (l : rateLimiter) (now : Z) (keys : list string) : rateLimiter := recordLocked l now keys.
Definition reset (l : rateLimiter) (keys : list string) : rateLimiter :=
  set_windows (foldl (fun m key => delete key m) (rl_windows l) keys) l.

(** An attempt of the attempt-counting style: its answer, and the limiter after it. *)
Definition allow (l : rateLimiter) (now : Z) (key : string) : Z * bool * rateLimiter :=
  let '(retryAfter, blocked) := blockedLocked l now [key] in
  (retryAfter, negb blocked, recordLocked l now [key]).

(** ** What the methods do to one key *)

Lemma blockedLocked_spec l now keys :
  (blockedLocked l now keys).2 = existsb (fun key => negb (is_nil (blocking l now key))) keys.
Proof.
  unfold blockedLocked. assert (G : forall r f, (foldl (fun '(retryAfter, found) key => match blocking l now key with
    | None => (retryAfter, found) | Some w => (Z.max retryAfter (rl_window l - (now - rw_start w)), true) end) (r, f) keys).2
    = f || existsb (fun key => negb (is_nil (blocking l now key))) keys).
  { induction keys as [|k keys IH]; intros r f; cbn; [by rewrite orb_false_r|].
    destruct (blocking l now k) as [w|]; rewrite IH; cbn; [by rewrite orb_true_r | done]. }
  apply G.
Qed.

(** The wait named is that of a key that blocks, and no key blocks longer. *)
Lemma blockedLocked_wait l now keys key w : key ∈ keys -> blocking l now key = Some w ->
  rl_window l - (now - rw_start w) <= (blockedLocked l now keys).1.
Proof.
  unfold blockedLocked. intros Hin Hw.
  assert (Mono : forall ks r f, r <= (foldl (fun '(retryAfter, found) key => match blocking l now key with
    | None => (retryAfter, found) | Some w => (Z.max retryAfter (rl_window l - (now - rw_start w)), true) end) (r, f) ks).1).
  { induction ks as [|k ks IH]; intros r f; cbn; [lia|]. destruct (blocking l now k) as [w'|]; [|apply IH]. etransitivity; [|apply IH]. lia. }
  revert Hin. generalize 0, false. induction keys as [|k keys IH]; intros r f Hin; [by apply elem_of_nil in Hin|].
  apply elem_of_cons in Hin as [<-|Hin]; cbn.
  - rewrite Hw. etransitivity; [|apply Mono]. lia.
  - destruct (blocking l now k) as [w'|]; by apply IH.
Qed.

Lemma record_limits l now keys : rl_limit (record l now keys) = rl_limit l /\ rl_window (record l now keys) = rl_window l.
Proof.
  unfold record, recordLocked. assert (G : forall ks l', rl_limit (foldl (charge now) l' ks) = rl_limit l' /\ rl_window (foldl (charge now) l' ks) = rl_window l').
  { induction ks as [|k ks IH]; intros l'; [done|]. cbn. destruct (IH (charge now l' k)) as [-> ->].
    unfold charge. destruct (rl_windows l' !! k) as [w|]; [|done]. by destruct (elapsed l' now w). }
  destruct (G keys (sweep l now)) as [-> ->]. done.
Qed.

Lemma reset_limits l keys : rl_limit (reset l keys) = rl_limit l /\ rl_window (reset l keys) = rl_window l.
Proof. done. Qed.

Lemma reset_lookup l keys k : rl_windows (reset l keys) !! k = if bool_decide (k ∈ keys) then None else rl_windows l !! k.
Proof.
  unfold reset. cbn. generalize (rl_windows l). induction keys as [|x keys IH]; intros m; cbn.
  - rewrite bool_decide_eq_false_2; [done | apply not_elem_of_nil].
  - rewrite IH. destruct (decide (k = x)) as [->|Hne].
    + rewrite (bool_decide_eq_true_2 (x ∈ x :: keys)) by left. case_bool_decide; [done|]. by rewrite lookup_delete_eq.
    + rewrite lookup_delete_ne by done. destruct (decide (k ∈ keys)) as [Hin|Hin].
      * rewrite !bool_decide_eq_true_2; [done | by right | done].
      * rewrite !bool_decide_eq_false_2; [done | by rewrite not_elem_of_cons | done].
Qed.

(** The window of a key that is not elapsed, after a record. *)
Definition live (l : rateLimiter) (now : Z) (k : string) : option rateWindow :=
  w ← rl_windows l !! k; if elapsed l now w then None else Some w.

Lemma live_sweep l now k : rl_windows (sweep l now) !! k = live l now k.
Proof.
  unfold sweep, live. cbn. rewrite map_lookup_filter. destruct (rl_windows l !! k) as [w|]; [|done]. cbn.
  destruct (elapsed l now w); by case_guard.
Qed.

Lemma charge_lookup l now key k : rl_windows (charge now l key) !! k =
  if decide (k = key) then Some (match live l now key with Some w => mkWindow (rw_count w + 1) (rw_start w) | None => mkWindow 1 now end)
  else rl_windows l !! k.
Proof.
  unfold charge, live. destruct (decide (k = key)) as [->|Hne].
  - destruct (rl_windows l !! key) as [w|]; cbn; [destruct (elapsed l now w)|]; cbn; by rewrite lookup_insert_eq.
  - destruct (rl_windows l !! key) as [w|]; cbn; [destruct (elapsed l now w)|]; cbn; by rewrite lookup_insert_ne.
Qed.

Lemma foldl_charge_other now keys l k : k ∉ keys -> rl_windows (foldl (charge now) l keys) !! k = rl_windows l !! k.
Proof.
  revert l. induction keys as [|x keys IH]; intros l Hk; [done|]. apply not_elem_of_cons in Hk as [Hne Hk]. cbn.
  rewrite IH by done. rewrite charge_lookup. by rewrite decide_False.
Qed.

Lemma record_lookup_other l now keys k : k ∉ keys -> rl_windows (record l now keys) !! k = live l now k.
Proof. intros Hk. unfold record, recordLocked. rewrite <- live_sweep. by apply foldl_charge_other. Qed.

Lemma live_live l now k w : live l now k = Some w -> elapsed l now w = false /\ rl_windows l !! k = Some w.
Proof. unfold live. destruct (rl_windows l !! k) as [w'|]; [|done]. cbn. destruct (elapsed l now w') eqn:E; [done|]. by intros [= <-]. Qed.

(** A key that is charged once: its open window counts one more. *)
Lemma record_lookup l now keys k : NoDup keys -> k ∈ keys ->
  rl_windows (record l now keys) !! k =
    Some (match live l now k with Some w => mkWindow (rw_count w + 1) (rw_start w) | None => mkWindow 1 now end).
Proof.
  unfold record, recordLocked. intros Hnd Hk.
  assert (G : forall l', rl_window l' = rl_window l -> rl_windows l' !! k = live l now k -> rl_windows (foldl (charge now) l' keys) !! k =
    Some (match live l now k with Some w => mkWindow (rw_count w + 1) (rw_start w) | None => mkWindow 1 now end));
    [|by apply G; [|apply live_sweep]].
  induction Hnd as [|x keys Hx Hnd IH]; intros l' Ew Hl; [by apply elem_of_nil in Hk|]. cbn.
  apply elem_of_cons in Hk as [<-|Hk].
  - rewrite foldl_charge_other by done. rewrite charge_lookup, decide_True by done.
    assert (Hlive : live l' now k = live l now k); [|by rewrite Hlive].
    unfold live at 1. rewrite Hl. destruct (live l now k) as [w|] eqn:L; [|done]. apply live_live in L as [L _]. cbn.
    unfold elapsed in *. by rewrite Ew, L.
  - apply IH; [done| |].
    + rewrite <- Ew. unfold charge. destruct (rl_windows l' !! x) as [w|]; [destruct (elapsed l' now w)|]; done.
    + rewrite charge_lookup, decide_False; [done|]. by intros <-.
Qed.

(** ** How many guesses a key gets

    A credential handler calls the limiter twice, under two locks: [blocked] before
    the password is looked at, [record] or [reset] once the answer is known.  In
    between other requests run, so a request is in flight from the one call to the
    other. *)

Inductive Event :=
| Checks (now : Z) (id : nat) (ip username : string)
| Wrong (now : Z) (id : nat) (blank : bool)
| Right (id : nat)
| Ends (id : nat).

Record Traffic := mkTraffic { tr_limiter : rateLimiter; tr_flight : gmap nat (string * string) }.

(** The keys a wrong answer is charged to: a blank field is charged to the address. *)
Definition wrongKeys (blank : bool) (who : string * string) : list string :=
  credentialKeys who.1 (if blank then "" else who.2).

Definition happens (s : Traffic) (e : Event) : Traffic :=
  match e with
  | Checks now id ip username =>
    if negb (is_nil (tr_flight s !! id)) || (blocked (tr_limiter s) now (credentialKeys ip username)).2 then s
    else mkTraffic (tr_limiter s) (<[id := (ip, username)]> (tr_flight s))
  | Wrong now id blank =>
    match tr_flight s !! id with
    | Some who => mkTraffic (record (tr_limiter s) now (wrongKeys blank who)) (delete id (tr_flight s))
    | None => s
    end
  | Right id =>
    match tr_flight s !! id with
    | Some who => mkTraffic (reset (tr_limiter s) (credentialKeys who.1 who.2)) (delete id (tr_flight s))
    | None => s
    end
  | Ends id => mkTraffic (tr_limiter s) (delete id (tr_flight s))
  end.

Definition idle (limit window : Z) : Traffic := mkTraffic (newRateLimiter limit window) ∅.

(** The wrong answers charged to a key between two instants. *)
Definition charged_to (k : string) (from until : Z) (s : Traffic) (e : Event) : Z :=
  match e with
  | Wrong now id blank =>
    match tr_flight s !! id with
    | Some who => if bool_decide (k ∈ wrongKeys blank who) && (from <=? now) && (now <? until) then 1 else 0
    | None => 0
    end
  | _ => 0
  end.

Fixpoint wrong_answers (k : string) (from until : Z) (s : Traffic) (events : list Event) : Z :=
  match events with
  | [] => 0
  | e :: rest => charged_to k from until s e + wrong_answers k from until (happens s e) rest
  end.

(** The requests on a key between their check and their answer. *)
Definition in_flight (k : string) (flight : gmap nat (string * string)) : Z :=
  Z.of_nat (size (base.filter (fun kv : nat * (string * string) => k ∈ credentialKeys kv.2.1 kv.2.2) flight)).

Fixpoint peak (k : string) (s : Traffic) (events : list Event) : Z :=
  match events with
  | [] => in_flight k (tr_flight s)
  | e :: rest => Z.max (in_flight k (tr_flight s)) (peak k (happens s e) rest)
  end.

(** Time does not run backwards, and nobody is let in on the key. *)
Fixpoint in_order (t : Z) (k : string) (s : Traffic) (events : list Event) : Prop :=
  match events with
  | [] => True
  | e :: rest =>
    match e with
    | Checks now _ _ _ | Wrong now _ _ => t <= now /\ in_order now k (happens s e) rest
    | Right id => (forall who, tr_flight s !! id = Some who -> k ∉ credentialKeys who.1 who.2) /\ in_order t k (happens s e) rest
    | Ends _ => in_order t k (happens s e) rest
    end
  end.

Lemma elem_of_credentialKeys k ip username : k ∈ credentialKeys ip username <->
  (ip <> "" /\ k = "ip:" +:+ ip) \/ (username <> "" /\ k = "user:" +:+ username).
Proof.
  unfold credentialKeys. rewrite elem_of_app. destruct (String.eqb_spec ip ""), (String.eqb_spec username "");
    rewrite ?list_elem_of_singleton, ?elem_of_nil; naive_solver.
Qed.

Lemma NoDup_credentialKeys ip username : NoDup (credentialKeys ip username).
Proof.
  unfold credentialKeys. destruct (String.eqb ip ""), (String.eqb username ""); cbn; repeat constructor;
    rewrite ?list_elem_of_singleton, ?elem_of_nil; naive_solver.
Qed.

Lemma wrongKeys_sub blank who : wrongKeys blank who ⊆ credentialKeys who.1 who.2.
Proof.
  intros k. unfold wrongKeys. destruct blank; [|done]. rewrite !elem_of_credentialKeys. naive_solver.
Qed.

Lemma in_flight_delete k id who flight : flight !! id = Some who ->
  in_flight k flight = in_flight k (delete id flight) + (if bool_decide (k ∈ credentialKeys who.1 who.2) then 1 else 0).
Proof.
  intros Hid. unfold in_flight. rewrite map_filter_delete. case_bool_decide as Hk.
  - rewrite map_size_delete_Some; [|exists who; rewrite map_lookup_filter_Some; done].
    assert (size (base.filter (fun kv : nat * (string * string) => k ∈ credentialKeys kv.2.1 kv.2.2) flight) <> O); [|lia].
    apply (map_size_ne_0_lookup_2 _ id). exists who. by apply map_lookup_filter_Some.
  - rewrite map_size_delete_None; [lia|]. apply map_lookup_filter_None. right. intros x. rewrite Hid. by intros [= <-].
Qed.

Lemma in_flight_insert k id who flight : flight !! id = None ->
  in_flight k (<[id := who]> flight) = in_flight k flight + (if bool_decide (k ∈ credentialKeys who.1 who.2) then 1 else 0).
Proof.
  intros Hid. rewrite (in_flight_delete k id who (<[id := who]> flight)) by apply lookup_insert_eq. by rewrite delete_insert_id.
Qed.

Lemma in_flight_ends k id flight : in_flight k (delete id flight) <= in_flight k flight.
Proof.
  destruct (flight !! id) as [who|] eqn:E; [|by rewrite delete_id]. rewrite (in_flight_delete k id who flight) by done. case_bool_decide; lia.
Qed.

Lemma in_flight_bounds k flight : 0 <= in_flight k flight.
Proof. unfold in_flight. lia. Qed.

Section bound.
Context (limit window from m : Z).
Context (Hlimit : 1 <= limit) (Hwindow : 0 < window) (Hm : 1 <= m).

(** What one window can count: the failures up to the limit, and those that were
    already in flight when the one that reached it was answered. *)
Definition capacity : Z := limit + m - 1.

(** The most wrong answers still to come after [t], given the open window of the key. *)
Definition left_over (t : Z) (w : option rateWindow) : Z :=
  if from + window <=? t then 0
  else match w with
    | None => if from <=? t then capacity else 2 * capacity - 1
    | Some w =>
      if from <=? rw_start w then capacity - rw_count w
      else if from <? rw_start w + window then capacity - rw_count w + capacity
      else 2 * capacity - 1
    end.

(** The stored window is counted from one and not from the future; once it blocks,
    what it has counted and what is in flight fit the capacity. *)
Definition sane (s : Traffic) (t : Z) (k : string) : Prop :=
  rl_limit (tr_limiter s) = limit /\ rl_window (tr_limiter s) = window /\
  (forall w, rl_windows (tr_limiter s) !! k = Some w -> 1 <= rw_count w /\ rw_start w <= t) /\
  (forall w, live (tr_limiter s) t k = Some w -> rw_count w < limit \/ rw_count w + in_flight k (tr_flight s) <= capacity).

Definition owed (t : Z) (s : Traffic) (k : string) : Z := left_over t (live (tr_limiter s) t k).

Lemma live_later l t t' k : t <= t' -> live l t' k = match live l t k with Some w => if elapsed l t' w then None else Some w | None => None end.
Proof.
  intros Ht. unfold live. destruct (rl_windows l !! k) as [w|]; [|done]. cbn. unfold elapsed.
  destruct (Z.leb_spec (rl_window l) (t - rw_start w)); [|done]. by replace (rl_window l <=? t' - rw_start w) with true by lia.
Qed.

Lemma sane_later s t t' k : t <= t' -> sane s t k -> sane s t' k.
Proof.
  intros Ht (El & Ew & Hs & Hq). split_and!; [done | done | |].
  - intros w Hw. destruct (Hs w Hw). lia.
  - intros w Hw. apply Hq. rewrite (live_later _ t t') in Hw by done. destruct (live _ t k) as [w'|]; [|done]. by destruct (elapsed _ t' w').
Qed.

Lemma sane_count s t k w : sane s t k -> live (tr_limiter s) t k = Some w ->
  1 <= rw_count w <= capacity /\ rw_start w <= t < rw_start w + window.
Proof.
  intros (El & Ew & Hs & Hq) Hw. pose proof (Hq w Hw) as Hc. apply live_live in Hw as [Le Hw]. destruct (Hs w Hw).
  unfold elapsed in Le. rewrite Ew in Le. pose proof (in_flight_bounds k (tr_flight s)). unfold capacity in *. lia.
Qed.

Lemma owed_later s t t' k : sane s t k -> t <= t' -> owed t' s k <= owed t s k.
Proof.
  intros Hs Ht. unfold owed. rewrite (live_later _ t t') by done. pose proof (sane_count s t k) as Hc. unfold left_over.
  destruct (live (tr_limiter s) t k) as [w|] eqn:L.
  - destruct (Hc w Hs eq_refl). destruct Hs as (_ & Ew & _). unfold elapsed. rewrite Ew.
    destruct (Z.leb_spec window (t' - rw_start w)); repeat case_match; lia.
  - unfold capacity. repeat case_match; lia.
Qed.

Lemma owed_nonneg s t k : sane s t k -> 0 <= owed t s k.
Proof.
  intros Hs. unfold owed, left_over. pose proof (sane_count s t k) as Hc. destruct (live (tr_limiter s) t k) as [w|].
  - destruct (Hc w Hs eq_refl). unfold capacity in *. repeat case_match; lia.
  - unfold capacity. repeat case_match; lia.
Qed.

(** A request that is let through finds the open window of its key below the limit. *)
Lemma let_through_below l now keys k w : (blocked l now keys).2 = false -> k ∈ keys -> live l now k = Some w -> rw_count w < rl_limit l.
Proof.
  unfold blocked. rewrite blockedLocked_spec. intros Ht Hk Hw.
  destruct (Z.lt_ge_cases (rw_count w) (rl_limit l)) as [|Hge]; [done|]. exfalso.
  assert (X : existsb (fun key => negb (is_nil (blocking l now key))) keys = true); [|congruence].
  apply existsb_exists. exists k. split; [by apply list_elem_of_In|]. apply live_live in Hw as [He Hw].
  unfold blocking. rewrite Hw. cbn. rewrite He. cbn. by replace (rw_count w <? rl_limit l) with false by lia.
Qed.

Lemma live_record_other l t keys k : k ∉ keys -> live (record l t keys) t k = live l t k.
Proof.
  intros Hk. unfold live at 1. rewrite record_lookup_other by done. destruct (live l t k) as [w|] eqn:L; [|done]. cbn.
  apply live_live in L as [L _]. unfold elapsed in *. destruct (record_limits l t keys) as [_ ->]. by rewrite L.
Qed.

Lemma live_record l t keys k : rl_window l = window -> NoDup keys -> k ∈ keys ->
  live (record l t keys) t k = Some (match live l t k with Some w => mkWindow (rw_count w + 1) (rw_start w) | None => mkWindow 1 t end).
Proof.
  intros Ew Hnd Hk. unfold live at 1. rewrite record_lookup by done. cbn. unfold elapsed. destruct (record_limits l t keys) as [_ ->].
  destruct (live l t k) as [w|] eqn:L; cbn.
  - apply live_live in L as [L _]. unfold elapsed in L. by rewrite L.
  - by replace (rl_window l <=? t - t) with false by lia.
Qed.

(** One step: the invariant stays, and what is charged comes out of what was left. *)
Definition pays (k : string) (t : Z) (s s' : Traffic) (c : Z) : Prop := sane s' t k /\ c + owed t s' k <= owed t s k.

Lemma pays_same_limiter k t s s' : sane s t k -> tr_limiter s' = tr_limiter s ->
  (forall w, live (tr_limiter s) t k = Some w -> rw_count w < limit \/ in_flight k (tr_flight s') <= in_flight k (tr_flight s)) -> pays k t s s' 0.
Proof.
  intros (El & Ew & Hs & Hq) E Hf. unfold pays, sane, owed. rewrite E. split; [|lia]. split_and!; [done | done | done |].
  intros w Hw. destruct (Hf w Hw) as [|Hle]; [by left|]. destruct (Hq w Hw) as [|H]; [by left|]. right. lia.
Qed.

Lemma Checks_pays k s now id ip u : sane s now k -> pays k now s (happens s (Checks now id ip u)) 0.
Proof.
  intros Hs. cbn [happens]. destruct (tr_flight s !! id) eqn:Hid; cbn [is_nil negb orb]; [by apply pays_same_limiter; [| |by right]|].
  destruct (blocked (tr_limiter s) now (credentialKeys ip u)).2 eqn:Hb; [by apply pays_same_limiter; [| |by right]|].
  apply pays_same_limiter; [done | done |]. intros w Hw. cbn. rewrite in_flight_insert by done. cbn. case_bool_decide as Hk; [|right; lia].
  left. rewrite <- (proj1 Hs). by eapply let_through_below.
Qed.

Lemma Wrong_pays k s now id blank : sane s now k -> in_flight k (tr_flight s) <= m ->
  pays k now s (happens s (Wrong now id blank)) (charged_to k from (from + window) s (Wrong now id blank)).
Proof.
  intros Hs Hflight. pose proof (in_flight_bounds k) as H0. cbn [happens charged_to].
  destruct (tr_flight s !! id) as [who|] eqn:Hid; [|by apply pays_same_limiter; [| |by right]].
  pose proof (in_flight_delete k id who _ Hid) as Ed. pose proof (fun w => sane_count s now k w Hs) as Hcount. destruct Hs as (El & Ew & Hw & Hq).
  destruct (record_limits (tr_limiter s) now (wrongKeys blank who)) as [El2 Ew2]. unfold pays, sane, owed; cbn [tr_limiter tr_flight].
  rewrite El2, Ew2. destruct (decide (k ∈ wrongKeys blank who)) as [Hk|Hk];
    [rewrite (bool_decide_eq_true_2 _ Hk) | rewrite (bool_decide_eq_false_2 _ Hk)]; cbn [andb].
  - rewrite bool_decide_eq_true_2 in Ed by by eapply wrongKeys_sub. specialize (H0 (delete id (tr_flight s))).
    assert (Hnd : NoDup (wrongKeys blank who)) by apply NoDup_credentialKeys.
    rewrite live_record by done. rewrite record_lookup by done. unfold left_over, capacity in *.
    destruct (live (tr_limiter s) now k) as [w|].
    + destruct (Hcount w eq_refl) as [Hc1 Hc2]. specialize (Hq w eq_refl). split.
      * split_and!; [done | done | intros ? [= <-]; cbn; lia | intros ? [= <-]; cbn; lia].
      * cbn [rw_count rw_start]. destruct (Z.leb_spec (from + window) now), (Z.leb_spec from now), (Z.ltb_spec now (from + window)),
          (Z.leb_spec from (rw_start w)), (Z.ltb_spec from (rw_start w + window)); cbn [andb]; lia.
    + split; [split_and!; [done | done | intros ? [= <-]; cbn; lia | intros ? [= <-]; cbn; lia]|].
      cbn [rw_count rw_start]. destruct (Z.leb_spec (from + window) now), (Z.leb_spec from now), (Z.ltb_spec now (from + window)),
          (Z.ltb_spec from (now + window)); cbn [andb]; lia.
  - rewrite live_record_other by done. rewrite record_lookup_other by done. split; [|lia]. split_and!; [done | done | |].
    + intros w L. apply live_live in L as [_ L]. by apply Hw.
    + intros w L. destruct (Hq w L) as [|]; [by left|]. right. pose proof (in_flight_ends k id (tr_flight s)). lia.
Qed.

Lemma Right_pays k s t id : sane s t k -> (forall who, tr_flight s !! id = Some who -> k ∉ credentialKeys who.1 who.2) ->
  pays k t s (happens s (Right id)) 0.
Proof.
  intros Hs Hk. cbn [happens]. destruct (tr_flight s !! id) as [who|] eqn:Hid; [|by apply pays_same_limiter; [| |by right]].
  specialize (Hk _ eq_refl). destruct Hs as (El & Ew & Hw & Hq).
  assert (E : rl_windows (reset (tr_limiter s) (credentialKeys who.1 who.2)) !! k = rl_windows (tr_limiter s) !! k)
    by (rewrite reset_lookup; by rewrite bool_decide_eq_false_2).
  assert (El2 : live (reset (tr_limiter s) (credentialKeys who.1 who.2)) t k = live (tr_limiter s) t k) by (unfold live; by rewrite E).
  unfold pays, sane, owed; cbn [tr_limiter tr_flight]. rewrite E, El2. split; [|lia]. split_and!; [done | done | done |].
  intros w L. destruct (Hq w L) as [|]; [by left|]. right. pose proof (in_flight_ends k id (tr_flight s)). lia.
Qed.

Lemma Ends_pays k s t id : sane s t k -> pays k t s (happens s (Ends id)) 0.
Proof. intros Hs. apply pays_same_limiter; [done | done |]. right. apply in_flight_ends. Qed.

Lemma peak_now k s events : in_flight k (tr_flight s) <= peak k s events.
Proof. destruct events; cbn; lia. Qed.

Lemma wrong_answers_bound k events s t : sane s t k -> in_order t k s events -> peak k s events <= m ->
  wrong_answers k from (from + window) s events <= owed t s k.
Proof.
  revert s t. induction events as [|e rest IH]; intros s t Hs Ho Hp; cbn [wrong_answers]; [by apply owed_nonneg|].
  cbn [peak] in Hp.
  assert (G : forall t', t <= t' -> pays k t' s (happens s e) (charged_to k from (from + window) s e) -> in_order t' k (happens s e) rest ->
    charged_to k from (from + window) s e + wrong_answers k from (from + window) (happens s e) rest <= owed t s k).
  { intros t' Ht [Hs' Hpay] Ho'. specialize (IH _ _ Hs' Ho' ltac:(lia)). pose proof (owed_later s t t' k Hs Ht). lia. }
  destruct e as [now id ip u|now id blank|id|id]; cbn [in_order] in Ho.
  - destruct Ho as [Ht Ho]. apply (G now); [done | | done]. apply Checks_pays. by eapply sane_later.
  - destruct Ho as [Ht Ho]. apply (G now); [done | | done]. apply Wrong_pays; [by eapply sane_later | lia].
  - destruct Ho as [Hk Ho]. apply (G t); [lia | | done]. by apply Right_pays.
  - apply (G t); [lia | | done]. by apply Ends_pays.
Qed.
End bound.


(** Two requests in flight whenever a wrong password is answered, a request every
    second for a minute: eleven are let through, one more than one after the other. *)
Definition hammering : list Event :=
  Checks 0 0 "10.0.0.9" "ada" ::
  flat_map (fun i => [Checks (Z.of_nat i * second) i "10.0.0.9" "ada"; Wrong (Z.of_nat i * second) (i - 1) false]) (seq 1 60).

