(* ===== verification/Http.v ===== *)
(** * Requests, replies and failures: internal/httpapi/errors.go, respond.go, pagination.go

    A handler is a computation [Hd] over the server (its database, its random
    source, its two limiters) that ends in a reply or in a [Failure], which the one
    error writer renders.  What the program links against but does not contain is a
    [Deployment]: the text of identifiers, argon2id, the text of errors, and the two
    settings that are fixed when the process starts. *)

From Stdlib Require Import Ascii String.
From S2P Require Import Prelude Text Encoding Uploads Password Gamification Db RateLimit Json.

#[local] Open Scope string_scope.
#[local] Open Scope list_scope.
#[local] Open Scope Z_scope.

Class Deployment := {
  (** config.IsDev, read once *)
  dev : bool;
  (** false only for a dev deployment over plain HTTP *)
  secureCookies : bool;
  (** github.com/google/uuid *)
  uuid_Parse : string -> option uuid;
  uuid_String : uuid -> string;
  (** golang.org/x/crypto/argon2 *)
  IDKey : string -> list ascii -> argonParams -> Z -> list ascii;
  (** the text an error value carries *)
  error_text : Err -> string;
  (** the hash an unknown username is checked against, made once *)
  decoyHash : string;
}.

(** ** Failures *)

Definition StatusOK : Z := 200.
Definition StatusCreated : Z := 201.
Definition StatusAccepted : Z := 202.
Definition StatusNoContent : Z := 204.
Definition StatusFound : Z := 302.
Definition StatusUnauthorized : Z := 401.
Definition StatusNotFound : Z := 404.
Definition StatusMethodNotAllowed : Z := 405.
Definition StatusConflict : Z := 409.
Definition StatusRequestEntityTooLarge : Z := 413.
Definition StatusUnprocessableEntity : Z := 422.
Definition StatusTooManyRequests : Z := 429.
Definition StatusInternalServerError : Z := 500.
Definition StatusBadGateway : Z := 502.
Definition StatusServiceUnavailable : Z := 503.

Definition CodeUnauthorized := "unauthorized".
Definition CodeNotFound := "not_found".
Definition CodeConflict := "conflict".
Definition CodeValidationFailed := "validation_failed".
Definition CodeResyncRequired := "resync_required".
Definition CodePayloadTooLarge := "payload_too_large".
Definition CodeRateLimited := "rate_limited".
Definition CodeModelUnavailable := "model_unavailable".
Definition CodeUpstreamFailed := "upstream_failed".
Definition CodeInternal := "internal_error".

Definition ReasonSessionMissing := "session_missing".
Definition ReasonSessionExpired := "session_expired".
Definition ReasonNotStorageMember := "not_storage_member".
Definition ReasonStorageNotFound := "storage_not_found".
Definition ReasonNotAdmin := "not_admin".
Definition ReasonAdminAreaHidden := "admin_area_hidden".
Definition ReasonNoRouteMatch := "no_route_match".
Definition ReasonMethodNotAllowed := "method_not_allowed_here".

Abbreviation Fields := (gmap string (list string)) (only parsing).

(** The cause is only logged: an error of the store, or of this package. *)
Record Failure := mkFailure {
  f_Status : Z;
  f_Code : string;
  f_Message : string;
  f_Fields : Fields;
  f_Reason : string;
  f_Err : option Err;
  f_RetryAfter : Z;
}.

(** fields[key] = append(fields[key], message) *)
Definition add_field (key message : string) (fields : Fields) : Fields :=
  <[key := default [] (fields !! key) ++ [message]]> fields.
Definition field (key message : string) : Fields := {[key := [message]]}.

(** A check of a form: the message it adds when it fails. *)
Definition check (ok : bool) (key message : string) (fields : Fields) : Fields :=
  if ok then fields else add_field key message fields.

Definition NotFound (reason : string) : Failure := mkFailure StatusNotFound CodeNotFound "Not found." ∅ reason None 0.
Definition Unauthorized (reason : string) : Failure :=
  mkFailure StatusUnauthorized CodeUnauthorized "Authentication required." ∅ reason None 0.
Definition Conflict (message : string) (err : option Err) : Failure :=
  mkFailure StatusConflict CodeConflict
    (if String.eqb message "" then "That action conflicts with the current state." else message) ∅ "" err 0.
Definition ResyncRequired (reason : string) : Failure :=
  mkFailure StatusConflict CodeResyncRequired "Your cached copy is too old to update. Fetch the full list again." ∅ reason None 0.
Definition ValidationFailed (fields : Fields) (err : option Err) : Failure :=
  mkFailure StatusUnprocessableEntity CodeValidationFailed "The request could not be processed." fields "" err 0.
Definition PayloadTooLarge : Failure :=
  mkFailure StatusRequestEntityTooLarge CodePayloadTooLarge "The uploaded file is too large." ∅ "" None 0.
Definition UpstreamFailed (err : option Err) : Failure :=
  mkFailure StatusBadGateway CodeUpstreamFailed "The AI provider could not complete this request." ∅ "" err 0.
Definition Internal (err : Err) : Failure :=
  mkFailure StatusInternalServerError CodeInternal "Internal error." ∅ "" (Some err) 0.
Definition rateLimited (retryAfter : Z) (reason : string) : Failure :=
  mkFailure StatusTooManyRequests CodeRateLimited "Too many attempts. Wait a moment and try again." ∅ reason None retryAfter.

Definition defaultMessage (code : string) : string :=
  if String.eqb code CodeUnauthorized then "Authentication required."
  else if String.eqb code CodeNotFound then "Not found."
  else if String.eqb code CodeConflict then "That action conflicts with the current state."
  else if String.eqb code CodeValidationFailed then "The request could not be processed."
  else if String.eqb code CodeResyncRequired then "Your cached copy is too old to update. Fetch the full list again."
  else if String.eqb code CodePayloadTooLarge then "The uploaded file is too large."
  else if String.eqb code CodeRateLimited then "Too many attempts. Wait a moment and try again."
  else if String.eqb code CodeModelUnavailable then "The configured vision model is unavailable."
  else if String.eqb code CodeUpstreamFailed then "The AI provider could not complete this request."
  else "Internal error.".

(** ** Requests and replies *)

(** What the JSON decoder finds in the body. *)
Inductive Decoded := TooLarge | Malformed | Value (j : Json).

Record Request := mkRequest {
  rq_Method : string;
  rq_URI : string;
  rq_Param : gmap string string;
  rq_Query : gmap string string;
  rq_Header : gmap string string;
  rq_Cookie : option string;
  rq_RemoteAddr : string;
  rq_Host : string;
  rq_TLS : bool;
  rq_Body : list ascii;
  rq_Json : Decoded;
  (** the context: what the gates put there *)
  ctx_User : option (uuid * User);
  ctx_Session : option (string * Session);
  ctx_StorageID : option uuid;
}.

Definition param (r : Request) (name : string) : string := default "" (rq_Param r !! name).
Definition query (r : Request) (name : string) : string := default "" (rq_Query r !! name).
Definition header (r : Request) (name : string) : string := default "" (rq_Header r !! name).

Record Cookie := mkCookie {
  ck_Name : string;
  ck_Value : string;
  ck_Path : string;
  ck_HttpOnly : bool;
  ck_Secure : bool;
  ck_SameSite : string;
  ck_Expires : option Z;
  ck_MaxAge : Z;
}.

Record Reply := mkReply {
  rp_Status : Z;
  rp_Header : gmap string string;
  rp_Cookie : option Cookie;
  rp_Body : option Json;
  (** a body that is written byte by byte *)
  rp_Data : option (list ascii);
}.

Definition json_headers : gmap string string :=
  <["Content-Type" := "application/json; charset=utf-8"]> (<["Cache-Control" := "no-store"]> ∅).

(** A nil body writes none. *)
Definition writeJSON (status : Z) (body : option Json) : Reply := mkReply status json_headers None body None.

(** encoding/json writes a map in the order of its keys. *)
Definition key_le (a b : string * list string) : Prop := String.leb a.1 b.1 = true.
#[global] Instance key_le_dec a b : Decision (key_le a b).
Proof. unfold key_le. apply _. Defined.

Definition fields_json (fields : Fields) : Json :=
  JObj (map (fun kv : string * list string => (kv.1, JArr (map JStr kv.2))) (merge_sort key_le (map_to_list fields))).

(** Whole seconds, rounded up, never below one. *)
Definition retry_seconds (d : Z) : Z := Z.max 1 (- ((- d) / second)).

Section deployment.
Context `{Deployment}.

(** The one place an error envelope is made, and the only one that discloses a
    reason. *)
Definition WriteError (failure : Failure) : Reply :=
  let status := if f_Status failure =? 0 then StatusInternalServerError else f_Status failure in
  let code := if String.eqb (f_Code failure) "" then CodeInternal else f_Code failure in
  let message := if String.eqb (f_Message failure) "" then defaultMessage code else f_Message failure in
  let reason := if dev then f_Reason failure else "" in
  let body := JObj [("error", JObj ([("code", JStr code); ("message", JStr message)]
    ++ (if (size (f_Fields failure) =? 0)%nat then [] else [("fields", fields_json (f_Fields failure))])
    ++ (if String.eqb reason "" then [] else [("debug_reason", JStr reason)])))] in
  let headers := if f_RetryAfter failure >? 0
    then <["Retry-After" := FormatInt (retry_seconds (f_RetryAfter failure))]> json_headers else json_headers in
  mkReply status headers None (Some body) None.

Definition FromStoreError (err : Err) (reason : string) : Failure :=
  match err with
  | ErrNotFound => NotFound reason
  | ErrConflict => Conflict (error_text err) (Some err)
  | ErrValidation => ValidationFailed ∅ (Some err)
  | ErrResyncRequired => ResyncRequired (error_text ErrResyncRequired)
  | _ => Internal err
  end.

(** ** The server a request runs on *)

Record Server := mkServer {
  sv_World : World;
  (** what crypto/rand will hand out *)
  sv_Rand : list (list ascii);
  sv_Credentials : rateLimiter;
  sv_PairingCodes : rateLimiter;
  (** argon2id digests computed to check a password *)
  sv_Digests : Z;
  sv_Files : FS;
}.

Definition with_world (w : World) (s : Server) : Server := mkServer w (sv_Rand s) (sv_Credentials s) (sv_PairingCodes s) (sv_Digests s) (sv_Files s).
Definition with_credentials (l : rateLimiter) (s : Server) : Server := mkServer (sv_World s) (sv_Rand s) l (sv_PairingCodes s) (sv_Digests s) (sv_Files s).
Definition with_files (m : FS) (s : Server) : Server := mkServer (sv_World s) (sv_Rand s) (sv_Credentials s) (sv_PairingCodes s) (sv_Digests s) m.
Definition with_codes (l : rateLimiter) (s : Server) : Server := mkServer (sv_World s) (sv_Rand s) (sv_Credentials s) l (sv_Digests s) (sv_Files s).

Definition Hd (A : Type) : Type := Server -> (Failure + A) * Server.

#[global] Instance hd_ret : MRet Hd := fun A a s => (inr a, s).
#[global] Instance hd_bind : MBind Hd := fun A B f m s =>
  match m s with
  | (inr a, s') => f a s'
  | (inl e, s') => (inl e, s')
  end.

(** h.errors.WriteError(w, r, failure); return *)
Definition refuse {A} (f : Failure) : Hd A := fun s => (inl f, s).
Definition refuse_if (b : bool) (f : Failure) : Hd unit := if b then refuse f else mret tt.
Definition or_refuse {A} (o : option A) (f : Failure) : Hd A := match o with Some a => mret a | None => refuse f end.

(** A call of the store: its error is a value. *)
Definition call {A} (m : Tx A) : Hd (Res A) := fun s => let '(r, w) := m (sv_World s) in (inr r, with_world w s).

(** [if err != nil { WriteError; return }] *)
Definition store {A} (m : Tx A) (onErr : Err -> Failure) : Hd A :=
  r ← call m;
  match r with Ok a => mret a | Fail e => refuse (onErr e) end.

(** rand.Read; a short read is its error. *)
Definition rand_Read : Hd (list ascii) := fun s =>
  match sv_Rand s with
  | [] => (inr [], s)
  | b :: bs => (inr b, mkServer (sv_World s) bs (sv_Credentials s) (sv_PairingCodes s) (sv_Digests s) (sv_Files s))
  end.

(** auth.VerifyPassword: a hash that does not decode costs no digest. *)
Definition verify (encoded password : string) : Hd (HashError + bool) := fun s =>
  let cost := match decodeHash encoded with inl _ => 0 | inr _ => 1 end in
  (inr (VerifyPassword IDKey encoded password),
   mkServer (sv_World s) (sv_Rand s) (sv_Credentials s) (sv_PairingCodes s) (sv_Digests s + cost) (sv_Files s)).

(** auth.HashPassword *)
Definition hash_password (password : string) : Hd string :=
  salt ← rand_Read;
  if Z.of_nat (Datatypes.length salt) =? argonSaltBytes then mret (HashPassword IDKey salt password)
  else refuse (Internal ErrOther).

Definition handler_now : Hd Z := fun s => (inr (wclock (sv_World s)), s).
Definition credentials_blocked (keys : list string) : Hd (Z * bool) := fun s =>
  (inr (blocked (sv_Credentials s) (wclock (sv_World s)) keys), s).
Definition credentials_record (keys : list string) : Hd unit := fun s =>
  (inr tt, with_credentials (record (sv_Credentials s) (wclock (sv_World s)) keys) s).
Definition credentials_reset (keys : list string) : Hd unit := fun s =>
  (inr tt, with_credentials (reset (sv_Credentials s) keys) s).
Definition codes_allow (key : string) : Hd (Z * bool) := fun s =>
  let '(retryAfter, allowed, l) := allow (sv_PairingCodes s) (wclock (sv_World s)) key in
  (inr (retryAfter, allowed), with_codes l s).

Definition Handler : Type := Request -> Server -> Reply * Server.

(** A handler's body, its failures written. *)
Definition handle (body : Request -> Hd Reply) : Handler := fun r s =>
  match body r s with
  | (inr reply, s') => (reply, s')
  | (inl failure, s') => (WriteError failure, s')
  end.

(** ** Reading the request *)

Definition bad_json : Failure := ValidationFailed (field "body" "The request body is not valid JSON.") (Some ErrOther).

Definition decodeJSON {A} (read : list (string * Json) -> option A) (r : Request) : Hd A :=
  match rq_Json r with
  | TooLarge => refuse PayloadTooLarge
  | Malformed => refuse bad_json
  | Value j => or_refuse (read_struct read j) bad_json
  end.

(** An unknown member is reported unless a member before it has the wrong type. *)
Definition decodeJSONStrict {A} (fields : list (string * Shape)) (read : list (string * Json) -> option A) (r : Request) : Hd A :=
  match rq_Json r with
  | TooLarge => refuse PayloadTooLarge
  | Malformed => refuse bad_json
  | Value j =>
    match cut_unknown (Struct fields) j with
    | None => or_refuse (read_struct read j) bad_json
    | Some (key, before) =>
      if is_nil (read_struct read before) then refuse bad_json
      else refuse (ValidationFailed (field "body" ("Unknown field " +:+ Quote key +:+ ".")) (Some ErrOther))
    end
  end.

Definition errNoStorageInContext : Failure := Internal ErrOther.

(** StorageIDFrom and UserFrom, with the refusals every handler gives. *)
Definition storage_of (r : Request) : Hd uuid := or_refuse (ctx_StorageID r) errNoStorageInContext.
Definition user_of (r : Request) : Hd (uuid * User) := or_refuse (ctx_User r) (Unauthorized ReasonSessionMissing).

(** idFromPath: a malformed id names nothing. *)
Definition idFromPath (r : Request) (name reason : string) : Hd uuid :=
  or_refuse (uuid_Parse (param r name)) (NotFound reason).

(** ** Pages *)

Definition defaultPageLimit : Z := 50.
Definition maxPageLimit : Z := 200.

Record pageRequest := mkPage { page_Limit : Z; page_After : option uuid }.

Definition encodeCursor (id : uuid) : string := EncodeToString RawURLEncoding (uuid_bytes id).

Definition decodeCursor (raw : string) : option uuid :=
  b ← DecodeString RawURLEncoding raw;
  if (Datatypes.length b =? 16)%nat then uuid_FromBytes b else None.

(** strconv.Atoi: an optional sign and digits that fit 64 bits. *)
Definition Atoi (s : string) : option Z :=
  let digits := match bytes s with
    | c :: l => if (byte_code c =? 43) || (byte_code c =? 45) then l else c :: l
    | [] => []
    end in
  if is_nil (head digits) || negb (forallb is_digit digits) then None
  else
    let n := foldl (fun n c => n * 10 + (byte_code c - 48)) 0 digits in
    let n := if String.prefix "-" s then - n else n in
    if (- 2 ^ 63 <=? n) && (n <? 2 ^ 63) then Some n else None.

Definition readPage (r : Request) : Hd pageRequest :=
  limit ← (let raw := query r "limit" in
    if String.eqb raw "" then mret defaultPageLimit
    else
      let n := default 0 (Atoi raw) in
      refuse_if (is_nil (Atoi raw) || (n <? 1)) (ValidationFailed (field "limit" "Must be a positive whole number.") (Some ErrOther)) ;;
      mret (Z.min n maxPageLimit));
  after ← (let raw := query r "cursor" in
    if String.eqb raw "" then mret None
    else
      id ← or_refuse (decodeCursor raw) (ValidationFailed (field "cursor" "Not a cursor from a previous page.") None);
      mret (Some id));
  mret (mkPage limit after).

(** A page of rows fetched with one more than the limit. *)
Definition pageOf {T} (rows : list T) (limit : Z) (idOf : T -> uuid) : list T * option string :=
  if Z.of_nat (Datatypes.length rows) <=? limit then (rows, None)
  else
    let rows := take (Z.to_nat limit) rows in
    (rows, encodeCursor ∘ idOf <$> last rows).

Definition collection (items : list Json) (next : option string) : Json :=
  JObj [("items", JArr items); ("next_cursor", opt_json JStr next)].

Definition uuid_json (id : uuid) : Json := JStr (uuid_String id).

End deployment.

(** ** Reasoning about handlers *)

Section hd_lemmas.
Context `{Deployment} {A B : Type}.
Implicit Types (s : Server).

Lemma hd_bind_inr (f : A -> Hd B) (m : Hd A) s b s' :
  mbind f m s = (inr b, s') <-> exists a s1, m s = (inr a, s1) /\ f a s1 = (inr b, s').
Proof.
  unfold mbind, hd_bind. destruct (m s) as [[e|a] s1]; split; [done | by intros (? & ? & ? & ?) | eauto |].
  by intros (? & ? & [= <- <-] & ?).
Qed.

Lemma hd_bind_inl (f : A -> Hd B) (m : Hd A) s e s' :
  mbind f m s = (inl e, s') <-> m s = (inl e, s') \/ exists a s1, m s = (inr a, s1) /\ f a s1 = (inl e, s').
Proof.
  unfold mbind, hd_bind. destruct (m s) as [[e'|a] s1]; split.
  - intros [= <- <-]. by left.
  - intros [[= <- <-]|(? & ? & ? & ?)]; done.
  - intros ?. right. eauto.
  - intros [?|(? & ? & [= <- <-] & ?)]; done.
Qed.

Lemma hd_run (f : A -> Hd B) (m : Hd A) s :
  mbind f m s = match m s with (inr a, s') => f a s' | (inl e, s') => (inl e, s') end.
Proof. done. Qed.

Lemma store_run (m : Tx A) onErr s :
  store m onErr s = match m (sv_World s) with
    | (Ok a, w') => (inr a, with_world w' s)
    | (Fail e, w') => (inl (onErr e), with_world w' s)
    end.
Proof. unfold store, call, mbind, hd_bind. by destruct (m (sv_World s)) as [[a|e] w']. Qed.

Lemma hd_step (f : A -> Hd B) (m : Hd A) s a s1 : m s = (inr a, s1) -> mbind f m s = f a s1.
Proof. intros E. unfold mbind, hd_bind. by rewrite E. Qed.

Lemma hd_abort (f : A -> Hd B) (m : Hd A) s e s1 : m s = (inl e, s1) -> mbind f m s = (inl e, s1).
Proof. intros E. unfold mbind, hd_bind. by rewrite E. Qed.

Lemma hd_ret_inr (a b : A) s s' : (mret a : Hd A) s = (inr b, s') <-> a = b /\ s = s'.
Proof. unfold mret, hd_ret. split; [intros; by simplify_eq | intros [-> ->]; done]. Qed.

Lemma or_refuse_inr (o : option A) f s a s' : or_refuse o f s = (inr a, s') <-> o = Some a /\ s' = s.
Proof.
  destruct o; unfold or_refuse, refuse, mret, hd_ret; split; intros; destruct_and?; by simplify_eq.
Qed.
Lemma or_refuse_inl (o : option A) f s g s' : or_refuse o f s = (inl g, s') <-> o = None /\ g = f /\ s' = s.
Proof.
  destruct o; unfold or_refuse, refuse, mret, hd_ret; split; intros; destruct_and?; by simplify_eq.
Qed.

Lemma store_inr (m : Tx A) onErr s a s' :
  store m onErr s = (inr a, s') <-> exists w', m (sv_World s) = (Ok a, w') /\ s' = with_world w' s.
Proof.
  unfold store, call, mbind, hd_bind. destruct (m (sv_World s)) as [[x|e] w'] eqn:E; cbn; split.
  - intros [= <- <-]. eauto.
  - intros (w2 & [= <- <-] & ->). done.
  - done.
  - by intros (w2 & ? & _).
Qed.
Lemma store_inl (m : Tx A) onErr s f s' :
  store m onErr s = (inl f, s') <-> exists e w', m (sv_World s) = (Fail e, w') /\ f = onErr e /\ s' = with_world w' s.
Proof.
  unfold store, call, mbind, hd_bind. destruct (m (sv_World s)) as [[x|e] w'] eqn:E; cbn; split.
  - done.
  - by intros (e & w2 & ? & _).
  - intros [= <- <-]. eauto.
  - intros (e2 & w2 & [= <- <-] & -> & ->). done.
Qed.

Lemma store_ok_step (m : Tx A) onErr s a w' : m (sv_World s) = (Ok a, w') -> store m onErr s = (inr a, with_world w' s).
Proof. intros E. apply store_inr. eauto. Qed.
Lemma store_fail_step (m : Tx A) onErr s e w' : m (sv_World s) = (Fail e, w') -> store m onErr s = (inl (onErr e), with_world w' s).
Proof. intros E. apply store_inl. eauto. Qed.

Lemma call_step (m : Tx A) s r w' : m (sv_World s) = (r, w') -> call m s = (inr r, with_world w' s).
Proof. intros E. unfold call. by rewrite E. Qed.
Lemma call_inr (m : Tx A) s r s' : call m s = (inr r, s') <-> exists w', m (sv_World s) = (r, w') /\ s' = with_world w' s.
Proof.
  unfold call. destruct (m (sv_World s)) as [x w'] eqn:E. split; [intros [= <- <-]; eauto|]. intros (w2 & [= <- <-] & ->). done.
Qed.
End hd_lemmas.

Section hd_guards.
Context `{Deployment}.

Lemma refuse_if_inr b f s u s' : refuse_if b f s = (inr u, s') <-> b = false /\ s' = s.
Proof. destruct b, u; unfold refuse_if, refuse, mret, hd_ret; split; intros; destruct_and?; by simplify_eq. Qed.
Lemma refuse_if_inl b f s g s' : refuse_if b f s = (inl g, s') <-> b = true /\ g = f /\ s' = s.
Proof. destruct b; unfold refuse_if, refuse, mret, hd_ret; split; intros; destruct_and?; by simplify_eq. Qed.

Lemma with_world_id s : with_world (sv_World s) s = s.
Proof. by destruct s. Qed.
Lemma with_world_twice w w' s : with_world w (with_world w' s) = with_world w s.
Proof. done. Qed.

(** What a production client sees of a failure: all of it but the reason and the cause. *)
Definition shown (f : Failure) : Failure :=
  mkFailure (f_Status f) (f_Code f) (f_Message f) (f_Fields f) "" None (f_RetryAfter f).

Lemma WriteError_shown f : dev = false -> WriteError f = WriteError (shown f).
Proof. intros Hd. unfold WriteError, shown. cbn. by rewrite Hd. Qed.
End hd_guards.
