(* ===== verification/Forms.v ===== *)
(** * What the handlers check in a form

    The validators of internal/httpapi the handlers share: names, UUIDs, dates,
    shelf lives, container fields; nullable members; who acts; and the conflict
    message a person reads. *)

From Stdlib Require Import Ascii String.
From S2P Require Import Prelude Text Encoding Gamification Expiry Db Json RateLimit Http.

#[local] Open Scope string_scope.
#[local] Open Scope list_scope.
#[local] Open Scope Z_scope.

Definition maxLocationName : Z := 255.
Definition maxShelfLifeDays : Z := 36500.
Definition maxBatchQuantity : Z := 100000.
Definition maxContainerLabelLength : Z := 255.
Definition DeltaSinceParam := "updated_since".

Abbreviation Fields := (gmap string (list string)) (only parsing).

(** A value read from a form, with the complaints so far. *)
Definition Form (A : Type) : Type := Fields -> A * Fields.

#[global] Instance form_ret : MRet Form := fun A a fields => (a, fields).
#[global] Instance form_bind : MBind Form := fun A B f m fields => let '(a, fields') := m fields in f a fields'.

(** fields[key] = append(fields[key], message) *)
Definition complain (key message : string) : Form unit := fun fields => (tt, add_field key message fields).
Definition complain_if (b : bool) (key message : string) : Form unit := if b then complain key message else mret tt.

(** The messages of another form under the same names. *)
Definition merge_fields (more : Fields) : Form unit := fun fields =>
  (tt, foldl (fun acc kv => foldl (fun acc m => add_field kv.1 m acc) acc kv.2) fields (map_to_list more)).

(** validateTreeNodeName *)
Definition validateTreeNodeName (raw : string) : Form string :=
  let name := TrimSpace raw in
  (if String.eqb name "" then complain "name" "A name is required."
   else complain_if (RuneCountInString name >? maxLocationName) "name" "Must be at most 255 characters.") ;;
  mret name.

(** json.Unmarshal of a member into a *string, an *int: [None] is a type error. *)
Definition nullable_string (raw : Json) : option (option string) := read_ptr read_string "" None raw.
Definition nullable_int (raw : Json) : option (option Z) := read_ptr read_int 0 None raw.

Definition bad_date : string := "Must be a YYYY-MM-DD date or null.".

(** A stated date: absent, null or a date; or the complaints. *)
Definition parseStatedExpiration (raw : option Json) : list string + (option Time * bool) :=
  match raw with
  | None => inr (None, false)
  | Some raw =>
    match nullable_string raw with
    | None => inl [bad_date]
    | Some None => inr (None, true)
    | Some (Some t) => match ParseDateOnly t with Some d => inr (Some d, true) | None => inl [bad_date] end
    end
  end.

Section forms.
Context `{Deployment}.

(** A form's complaints are one answer. *)
Definition filled {A} (form : Form A) : Hd A := fun s =>
  let '(a, fields) := form ∅ in
  if (size fields =? 0)%nat then (inr a, s) else (inl (ValidationFailed fields None), s).

Definition bad_shelf_life (message : string) (err : option Err) : Failure :=
  ValidationFailed (field "default_shelf_life_days" message) err.

Definition parseShelfLifeDays (raw : Json) : Failure + option Z :=
  match nullable_int raw with
  | None => inl (bad_shelf_life "Must be a whole number of days, or null." (Some ErrOther))
  | Some None => inr None
  | Some (Some days) =>
    if days <? 0 then inl (bad_shelf_life "Cannot be negative." None)
    else if days >? maxShelfLifeDays then inl (bad_shelf_life "That is longer than any shelf life; check the number." None)
    else inr (Some days)
  end.

Definition parseExpirationDate (raw : Json) : Failure + option Time :=
  let bad := ValidationFailed (field "expiration_date" bad_date) (Some ErrOther) in
  match nullable_string raw with
  | None => inl bad
  | Some None => inr None
  | Some (Some t) => match ParseDateOnly t with Some d => inr (Some d) | None => inl bad end
  end.

(** A UUID of the body; nil when it is none. *)
Definition form_uuid (key raw : string) : Form (option uuid) :=
  match uuid_Parse raw with
  | Some id => mret (Some id)
  | None => complain key "Must be a UUID." ;; mret None
  end.

(** An optional one. *)
Definition form_uuid_ptr (key : string) (raw : option string) : Form (option uuid) :=
  match raw with None => mret None | Some raw => form_uuid key raw end.

(** One that may be null: the value to set. *)
Definition form_uuid_or_null (key : string) (raw : Json) : Form (option uuid) :=
  match nullable_string raw with
  | None => complain key "Must be a UUID or null." ;; mret None
  | Some None => mret None
  | Some (Some t) =>
    match uuid_Parse t with
    | Some id => mret (Some id)
    | None => complain key "Must be a UUID or null." ;; mret None
    end
  end.

Definition parseCreationContainerFields (label containerType : option string) : Form (option string * option string) :=
  outLabel ← (match label with
    | None => mret None
    | Some label =>
      let trimmed := TrimSpace label in
      if String.eqb trimmed "" then complain "container_label" "Must not be empty." ;; mret None
      else if RuneCountInString trimmed >? maxContainerLabelLength then
        complain "container_label" "Keep the container label under 255 characters." ;; mret None
      else mret (Some trimmed)
    end);
  outType ← (match containerType with
    | None => mret None
    | Some containerType =>
      let trimmed := TrimSpace containerType in
      if String.eqb trimmed "" then complain "container_type" "Must not be empty." ;; mret None
      else mret (Some trimmed)
    end);
  mret (outLabel, outType).

Definition actingUser (r : Request) : option uuid := fst <$> ctx_User r.

(** A 409 gets a message for a person; the text of the error goes to the reason. *)
Definition conflictAs (err : Err) (notFoundReason message : string) : Failure :=
  let f := FromStoreError err notFoundReason in
  if f_Status f =? StatusConflict
  then mkFailure (f_Status f) (f_Code f) message (f_Fields f) (error_text err) (f_Err f) (f_RetryAfter f)
  else f.

Definition readDeltaSince (r : Request) : Hd (option Z) :=
  let raw := query r DeltaSinceParam in
  if String.eqb raw "" then mret None
  else
    since ← or_refuse (ParseRFC3339 raw)
      (ValidationFailed (field DeltaSinceParam "Must be an RFC 3339 timestamp, e.g. 2026-09-21T14:30:00Z.") (Some ErrOther));
    mret (Some since).

(** A refusal found in a value. *)
Definition or_failure {A} (x : Failure + A) : Hd A := match x with inl f => refuse f | inr a => mret a end.

End forms.
