(* ===== verification/AuditLog.v ===== *)
(** * The audit trail: internal/store/audit.go

    [writeAdminAudit], which every audited operation calls inside its own
    transaction, and the trail read back page by page, newest first.  The text of
    an identifier is written and read by the uuid library: [uuid_String] and
    [uuid_Parse] are arguments of the cursor's functions. *)

From Stdlib Require Import Ascii String.
From S2P Require Import Prelude Text Encoding Gamification Db.

#[local] Open Scope string_scope.
#[local] Open Scope list_scope.
#[local] Open Scope Z_scope.

(** ** Writing *)

Definition ActionUserCreated := "user_created".
Definition ActionUserDeleted := "user_deleted".
Definition ActionUserPasswordReset := "user_password_reset".
Definition ActionStorageCreated := "storage_created".
Definition ActionStorageDeleted := "storage_deleted".
Definition ActionStorageMemberAdded := "storage_member_added".
Definition ActionStorageMemberRemoved := "storage_member_removed".
Definition ActionCatalogEntryUpdated := "catalog_entry_updated".
Definition ActionCatalogEntryDeleted := "catalog_entry_deleted".
Definition ActionCatalogBarcodeDeleted := "catalog_barcode_deleted".

Definition SystemActor : uuid := uuid_Nil.

Definition nullIfEmpty (v : AuditValue) : option AuditValue :=
  match v with AuditText s => if String.eqb s "" then None else Some v | _ => Some v end.

(** The fields of AuditDetails that are not empty, in the order of the struct. *)
Definition text_field (key value : string) : list (string * AuditValue) :=
  if String.eqb value "" then [] else [(key, AuditText value)].

(** The details are a struct of strings and numbers: encoding it cannot fail. *)
Definition writeAdminAudit (actor : uuid) (action : string) (target : AuditValue) (details : list (string * AuditValue)) : Tx unit :=
  id ← newID;
  let actorID := if actor =? SystemActor then None else Some actor in
  d ← get_db;
  require (match actorID with None => true | Some a => bool_decide (a ∈ db_users d) end) ErrOther ;;
  t ← now;
  modify (set_audit (fun l => l ++ [mkAudit id actorID action (nullIfEmpty target) details t])).

(** ** Reading *)

Record AdminAuditEntry := mkEntry {
  ae_ID : uuid;
  ae_ActorUsername : string;
  ae_Action : string;
  ae_Target : option AuditValue;
  ae_Details : list (string * AuditValue);
  ae_CreatedAt : Z;
}.

Record AuditPage := mkAuditPage { pg_Entries : list AdminAuditEntry; pg_Next : string }.

Definition AuditPageSize : Z := 50.

(** [COALESCE(u.username, '')]: the actor's name, while the account is there. *)
Definition actor_name (d : DB) (actor : option uuid) : string :=
  match actor ≫= fun a => db_accounts d !! a with Some u => usr_Username u | None => "" end.

Definition entry_of (d : DB) (r : AuditRow) : AdminAuditEntry :=
  mkEntry (au_ID r) (actor_name d (au_ActorID r)) (au_Action r) (au_Target r) (au_Details r) (au_CreatedAt r).

(** [ORDER BY created_at DESC, id DESC], and [(created_at, id) < cursor]. *)
Definition newest_first (a b : AuditRow) : Prop :=
  au_CreatedAt b < au_CreatedAt a \/ (au_CreatedAt a = au_CreatedAt b /\ au_ID b <= au_ID a).

#[global] Instance newest_first_dec a b : Decision (newest_first a b).
Proof. unfold newest_first. apply _. Defined.

(** [auditCursor]: the pair, or the first page. *)
Definition auditCursor : Type := option (Z * uuid).

Definition older_than (c : auditCursor) (r : AuditRow) : bool :=
  match c with
  | None => true
  | Some (t, id) => (au_CreatedAt r <? t) || ((au_CreatedAt r =? t) && (au_ID r <? id))
  end.

(** The trail from a cursor on. *)
Definition trail (d : DB) (c : auditCursor) : list AuditRow :=
  merge_sort newest_first (base.filter (fun r => older_than c r = true) (db_audit d)).

Section cursor.
Context (uuid_String : uuid -> string) (uuid_Parse : string -> option uuid).

Definition encodeAuditCursor (t : Z) (id : uuid) : string :=
  EncodeToString RawURLEncoding (bytes (FormatInt t +:+ "." +:+ uuid_String id)).

(** The second result of the code is false where this is [None]. *)
Definition decodeAuditCursor (raw : string) : option auditCursor :=
  if String.eqb raw "" then Some None
  else
    decoded ← DecodeString RawURLEncoding raw;
    p ← Cut "." decoded;
    unixNano ← ParseInt (text p.1);
    id ← uuid_Parse (text p.2);
    Some (Some (unixNano, id)).

Definition ListAdminAudit (cursor : string) (limit : Z) : Tx AuditPage :=
  let limit := if limit <? 1 then AuditPageSize else limit in
  before ← some_or (decodeAuditCursor cursor) ErrValidation;
  d ← get_db;
  let rows := take (Z.to_nat limit + 1) (trail d before) in
  if (Z.to_nat limit <? Datatypes.length rows)%nat then
    let page := take (Z.to_nat limit) rows in
    mret (mkAuditPage (map (entry_of d) page)
            (match last page with Some r => encodeAuditCursor (au_CreatedAt r) (au_ID r) | None => "" end))
  else mret (mkAuditPage (map (entry_of d) rows) "").

(** ** The cursor and the pages *)

(** What uuid.Parse promises of uuid.String. *)
Definition uuid_text_ok (id : uuid) : Prop := uuid_Parse (uuid_String id) = Some id.

Lemma encodeAuditCursor_nonempty t id : encodeAuditCursor t id ≠ "".
Proof.
  unfold encodeAuditCursor, EncodeToString. intros E. apply (f_equal bytes) in E. rewrite bytes_text in E. revert E.
  apply encode_nonempty. rewrite bytes_app. intros E. apply app_eq_nil in E as [_ E]. discriminate.
Qed.

Lemma decode_encode_cursor t id :
  is_int64 t -> uuid_text_ok id -> decodeAuditCursor (encodeAuditCursor t id) = Some (Some (t, id)).
Proof.
  intros Ht Hid. unfold decodeAuditCursor. destruct (String.eqb_spec (encodeAuditCursor t id) "") as [E|_].
  { by apply encodeAuditCursor_nonempty in E. }
  unfold encodeAuditCursor. rewrite DecodeString_EncodeToString. cbn [mbind option_bind].
  rewrite bytes_app. change (bytes ("." +:+ uuid_String id)) with ("."%char :: bytes (uuid_String id)).
  rewrite Cut_app by (by eapply numeral_not; [apply FormatInt_numeral|]). cbn [mbind option_bind fst snd].
  by rewrite !text_bytes, ParseInt_FormatInt, Hid by done.
Qed.

(** A client that follows the cursors, one page after the other. *)
Fixpoint read_trail (n : nat) (cursor : string) (limit : Z) : Tx (list AdminAuditEntry) :=
  match n with
  | O => throw ErrOther
  | S n' =>
    page ← ListAdminAudit cursor limit;
    if String.eqb (pg_Next page) "" then mret (pg_Entries page)
    else rest ← read_trail n' (pg_Next page) limit; mret (pg_Entries page ++ rest)
  end.

(** Identifiers of rows are distinct, have a text, and their instants fit. *)
Definition trail_ok (d : DB) : Prop :=
  NoDup (map au_ID (db_audit d)) /\
  Forall (fun r => is_int64 (au_CreatedAt r) /\ uuid_text_ok (au_ID r)) (db_audit d).

#[local] Instance newest_first_trans : Transitive newest_first.
Proof. intros a b c. unfold newest_first. lia. Qed.

#[local] Instance newest_first_total : Total newest_first.
Proof. intros a b. unfold newest_first. lia. Qed.

Lemma rows_untied (l : list AuditRow) : NoDup (map au_ID l) -> untied newest_first l.
Proof.
  intros Hn x y Hx Hy H1 H2. assert (E : au_ID x = au_ID y) by (unfold newest_first in *; lia).
  apply list_elem_of_lookup in Hx as [i Hi]. apply list_elem_of_lookup in Hy as [j Hj].
  assert (i = j) as ->; [|congruence]. apply (NoDup_lookup (map au_ID l) i j (au_ID x) Hn).
  - by rewrite list_lookup_fmap, Hi.
  - by rewrite list_lookup_fmap, Hj, E.
Qed.

Lemma trail_all d (c : auditCursor) :
  NoDup (map au_ID (db_audit d)) ->
  trail d c = base.filter (fun r => older_than c r = true) (trail d None).
Proof.
  intros Hn. unfold trail. rewrite (filter_all_true (fun r => older_than None r = true)) by done.
  symmetry. apply merge_sort_filter; [apply _ | apply _ | by apply rows_untied].
Qed.

Lemma older_than_iff a r :
  older_than (Some (au_CreatedAt a, au_ID a)) r = true <-> newest_first a r /\ (au_CreatedAt r, au_ID r) ≠ (au_CreatedAt a, au_ID a).
Proof.
  unfold older_than, newest_first. rewrite orb_true_iff, andb_true_iff, !Z.ltb_lt, Z.eqb_eq. split.
  - intros H. split; [lia|]. intros [= E1 E2]. lia.
  - intros [H Hne]. destruct (decide (au_CreatedAt r = au_CreatedAt a)) as [E|]; [|lia].
    right. split; [done|]. destruct (decide (au_ID r = au_ID a)); [congruence | lia].
Qed.

(** Everything behind the last row of a page, whatever cursor the page began at. *)
Lemma trail_behind d (c : auditCursor) page rest a :
  NoDup (map au_ID (db_audit d)) -> trail d c = page ++ rest -> last page = Some a ->
  trail d (Some (au_CreatedAt a, au_ID a)) = rest.
Proof.
  intros Hn E Hl. rewrite trail_all by done. set (l := trail d None).
  assert (Ep : l ≡ₚ db_audit d).
  { unfold l, trail. rewrite merge_sort_Permutation. by rewrite (filter_all_true (fun r => older_than None r = true)). }
  assert (Hnl : NoDup (map au_ID l)) by by rewrite Ep.
  assert (Ea : a ∈ trail d c) by (rewrite E; apply elem_of_app; left; by apply last_Some_elem_of).
  rewrite <- (list_filter_filter_l _ (fun r => older_than c r = true) l).
  - unfold l. rewrite <- trail_all by done. apply (filter_behind newest_first _ (trail d c) page rest a); [ | | | done | done |].
    + apply StronglySorted_merge_sort; apply _.
    + rewrite trail_all by done. apply NoDup_filter. by eapply NoDup_fmap_1.
    + rewrite trail_all by done. intros x y Hx Hy. apply list_elem_of_filter in Hx as [_ Hx]. apply list_elem_of_filter in Hy as [_ Hy].
      by apply (rows_untied l).
    + intros x Hx. rewrite older_than_iff. split; [intros [H Hne]; split; [done | congruence]|]. intros [H Hne]. split; [done|].
      intros [= E1 E2]. apply Hne. rewrite trail_all in Hx, Ea by done.
      apply list_elem_of_filter in Hx as [_ Hx]. apply list_elem_of_filter in Ea as [_ Ea].
      apply (rows_untied l Hnl); unfold newest_first; [done | done | lia | lia].
  - intros x Hx. rewrite trail_all in Ea by done. apply list_elem_of_filter in Ea as [Ea _].
    destruct c as [[t i]|]; [|done]. cbn in *. rewrite orb_true_iff, andb_true_iff, !Z.ltb_lt, Z.eqb_eq in *. lia.
Qed.

(** The page a cursor asks for. *)
Definition page_at (d : DB) (l : list AuditRow) (L : nat) : AuditPage :=
  if (L <? Datatypes.length (take (L + 1) l))%nat
  then mkAuditPage (map (entry_of d) (take L (take (L + 1) l)))
         (match last (take L (take (L + 1) l)) with Some r => encodeAuditCursor (au_CreatedAt r) (au_ID r) | None => "" end)
  else mkAuditPage (map (entry_of d) (take (L + 1) l)) "".

Lemma ListAdminAudit_run cursor limit w (c : auditCursor) :
  decodeAuditCursor cursor = Some c -> 1 <= limit ->
  ListAdminAudit cursor limit w = (Ok (page_at (wdb w) (trail (wdb w) c) (Z.to_nat limit)), w).
Proof.
  intros Hc Hl. unfold ListAdminAudit, page_at. rewrite (proj2 (Z.ltb_ge limit 1)) by lia. rewrite Hc.
  unfold some_or. rewrite (bind_step _ _ w c w) by done. rewrite (bind_step _ get_db w (wdb w) w) by done.
  cbv zeta. by destruct (_ <? _)%nat.
Qed.

Lemma read_trail_from d n (c : auditCursor) limit cursor w :
  trail_ok d -> wdb w = d -> 1 <= limit -> decodeAuditCursor cursor = Some c -> (Datatypes.length (trail d c) < n)%nat ->
  read_trail n cursor limit w = (Ok (map (entry_of d) (trail d c)), w).
Proof.
  intros [Hn Hok] Hd Hlim. revert c cursor. induction n as [|n IH]; intros c cursor Hc Hlen; [lia|].
  cbn [read_trail]. rewrite (bind_step _ _ w _ w (ListAdminAudit_run cursor limit w c Hc Hlim)), Hd.
  set (L := Z.to_nat limit). assert (HL : (1 <= L)%nat) by (unfold L; lia). unfold page_at. rewrite length_take.
  set (l := trail d c) in *.
  destruct (Nat.ltb_spec L (Nat.min (L + 1) (Datatypes.length l))) as [Hlt|Hge]; cbn [pg_Next pg_Entries].
  2: { rewrite take_ge by lia. done. }
  rewrite take_take, Nat.min_l by lia.
  destruct (last (take L l)) as [a|] eqn:Hlast.
  2: { apply last_None in Hlast. apply (f_equal Datatypes.length) in Hlast. rewrite length_take in Hlast. cbn in Hlast. lia. }
  assert (Ea : a ∈ db_audit d).
  { apply last_Some_elem_of in Hlast. apply elem_of_take in Hlast as (i & Hi & _). apply list_elem_of_lookup_2 in Hi.
    unfold l, trail in Hi. rewrite merge_sort_Permutation in Hi. by apply list_elem_of_filter in Hi as [_ ?]. }
  rewrite Forall_forall in Hok. destruct (Hok a Ea) as [Hat Hid].
  destruct (String.eqb_spec (encodeAuditCursor (au_CreatedAt a) (au_ID a)) "") as [E|_].
  { by apply encodeAuditCursor_nonempty in E. }
  assert (B : trail d (Some (au_CreatedAt a, au_ID a)) = drop L l).
  { apply (trail_behind d c (take L l)); [done | by rewrite take_drop | done]. }
  assert (R : read_trail n (encodeAuditCursor (au_CreatedAt a) (au_ID a)) limit w = (Ok (map (entry_of d) (drop L l)), w)).
  { rewrite (IH (Some (au_CreatedAt a, au_ID a))); rewrite ?B; [done | by apply decode_encode_cursor |]. rewrite length_drop. lia. }
  rewrite (bind_step _ _ _ _ _ R). unfold mret, tx_ret. by rewrite <- map_app, take_drop.
Qed.

(** Reading the audit trail by following its cursors shows every entry exactly
    once, newest first, whatever the page size; and entries written while somebody
    reads, being newer than the page they are on, change no later page.  A cursor
    the server did not issue is refused. *)
Theorem audit_trail_pages d w limit :
  trail_ok d -> wdb w = d -> 1 <= limit ->
  read_trail (S (Datatypes.length (db_audit d))) "" limit w = (Ok (map (entry_of d) (trail d None)), w) /\
  trail d None ≡ₚ db_audit d /\ StronglySorted newest_first (trail d None) /\
  (forall t id new, Forall (fun r => older_than (Some (t, id)) r = false) new ->
     trail (set_audit (fun l => l ++ new) d) (Some (t, id)) = trail d (Some (t, id))) /\
  (forall cursor, decodeAuditCursor cursor = None -> ListAdminAudit cursor limit w = (Fail ErrValidation, w)).
Proof.
  intros Hok Hd Hlim. assert (P : trail d None ≡ₚ db_audit d).
  { unfold trail. rewrite merge_sort_Permutation. by rewrite (filter_all_true (fun r => older_than None r = true)). }
  split; [|split; [done|]; split; [apply StronglySorted_merge_sort; apply _|]; split].
  - apply read_trail_from; [done.. |]. rewrite P. lia.
  - intros t id new Hnew. unfold trail. cbn [db_audit set_audit]. rewrite filter_app.
    rewrite (filter_all_false _ new); [by rewrite app_nil_r|]. intros r Hr. rewrite Forall_forall in Hnew.
    by rewrite (Hnew r Hr).
  - intros cursor E. unfold ListAdminAudit. by rewrite E.
Qed.
End cursor.

(** Three entries, two of them of the same instant, read in pages of two. *)
Definition audited : DB :=
  set_audit (fun _ => [mkAudit 5 None ActionUserCreated (Some (AuditID 10)) [("username", AuditText "ada")] 100;
                       mkAudit 7 (Some 10) ActionStorageCreated (Some (AuditID 1)) [] 200;
                       mkAudit 6 (Some 10) ActionStorageCreated (Some (AuditID 2)) [] 200]) empty_db.

Lemma audit_trail_pages_witness :
  exists page, read_trail FormatInt ParseInt 4 "" 2 (mkWorld audited [] 0 0) = (Ok page, mkWorld audited [] 0 0) /\
    map ae_ID page = [7; 6; 5].
Proof.
  eexists. split.
  - apply (audit_trail_pages FormatInt ParseInt audited (mkWorld audited [] 0 0) 2); [|done | done].
    split; [apply (bool_decide_unpack _); by vm_compute|].
    repeat constructor; by vm_compute.
  - by vm_compute.
Defined.
