(* ===== verification/Matching.v ===== *)
(** * Matching text to products: internal/matching (parse.go, matching.go)

    The normal form of a product name, the parsing of shopping-list lines with the
    regular expression quantityPattern, and the staged match: this storage's own
    products first, the anonymous catalog only when those have nothing.  The
    database side of a match is an interface in the source and a class here. *)

From S2P Require Import Prelude Gamification Text Encoding Db.

#[local] Open Scope string_scope.
#[local] Open Scope list_scope.
#[local] Open Scope Z_scope.

(** ** Normal form *)

Definition NormalizeQuery (s : string) : string := Join (Fields (ToLower (TrimSpace s))) " ".

(** ** Regular expressions *)

(** What the patterns of the source are built from. [Many] repeats a class and is
    greedy when its flag says so; [Star] repeats what takes at least a byte, greedily;
    [Alt] prefers its left side; [Cap n] records group [n]; [NotNext p] looks at the
    next byte only. *)
Inductive Re :=
| Eps
| Chr (p : ascii -> bool)
| Seq (a b : Re)
| Alt (a b : Re)
| Many (p : ascii -> bool) (greedy : bool)
| Star (a : Re)
| Cap (n : nat) (a : Re)
| NotNext (p : ascii -> bool)
| End.

Definition Groups : Type := list (nat * list ascii).

(** A backtracking match of [r] at the front of [s], then [k] on what is left: the
    first success in priority order. *)
Fixpoint match_re (r : Re) (s : list ascii) (g : Groups) (k : list ascii -> Groups -> option Groups) : option Groups :=
  match r with
  | Eps => k s g
  | Chr p =>
    match s with
    | c :: s' => if p c then k s' g else None
    | [] => None
    end
  | Seq a b => match_re a s g (fun s' g' => match_re b s' g' k)
  | Alt a b =>
    match match_re a s g k with
    | Some g' => Some g'
    | None => match_re b s g k
    end
  | Many p greedy =>
    (fix many (s : list ascii) : option Groups :=
       let more := match s with
                   | c :: s' => if p c then many s' else None
                   | [] => None
                   end in
       if greedy then match more with Some g' => Some g' | None => k s g end
       else match k s g with Some g' => Some g' | None => more end) s
  | Star a =>
    (fix star (n : nat) (s : list ascii) (g : Groups) : option Groups :=
       let more := match n with
                   | O => None
                   | S n' => match_re a s g (fun s' g' => if (Datatypes.length s' <? Datatypes.length s)%nat then star n' s' g' else None)
                   end in
       match more with Some g' => Some g' | None => k s g end) (Datatypes.length s) s g
  | Cap n a => match_re a s g (fun s' g' => k s' (g' ++ [(n, take (Datatypes.length s - Datatypes.length s') s)]))
  | NotNext p => match s with c :: _ => if p c then None else k s g | [] => k s g end
  | End => match s with [] => k [] g | _ :: _ => None end
  end.

Definition Opt (a : Re) : Re := Alt a Eps.

(** The classes of a Perl pattern. *)
Definition re_digit : ascii -> bool := is_digit.
Definition re_space (c : ascii) : bool := in_range 9 10 c || in_range 12 13 c || (byte_code c =? 32).
Definition re_any (c : ascii) : bool := negb (byte_code c =? 10).
Definition re_times (c : ascii) : bool := Ascii.eqb c "x" || Ascii.eqb c "X" || Ascii.eqb c "*".
Definition re_x (c : ascii) : bool := Ascii.eqb c "x" || Ascii.eqb c "X".

Definition plus (p : ascii -> bool) : Re := Seq (Chr p) (Many p true).

(** [\d{1,6}] *)
Definition digits_1_6 : Re :=
  Seq (Chr re_digit) (Opt (Seq (Chr re_digit) (Opt (Seq (Chr re_digit)
    (Opt (Seq (Chr re_digit) (Opt (Seq (Chr re_digit) (Opt (Chr re_digit)))))))))).

Definition quantityPattern : Re :=
  Seq (Alt (Seq (Cap 1 digits_1_6) (Seq (Many re_space true) (Seq (Opt (Chr re_times)) (plus re_space)))) Eps)
    (Seq (Cap 2 (Many re_any false))
      (Seq (Opt (Alt (Seq (plus re_space) (Seq (Chr re_times) (Seq (Many re_space true) (Cap 3 digits_1_6))))
                     (Seq (plus re_space) (Seq (Cap 4 digits_1_6) (Seq (Many re_space true) (Chr re_x))))))
        End)).

(** FindStringSubmatch of an anchored pattern; an unset group is the empty string. *)
Definition FindStringSubmatch (r : Re) (s : list ascii) : option Groups :=
  match_re r s [] (fun _ g => Some g).

Definition group (n : nat) (g : Groups) : list ascii :=
  match list_find (fun kv : nat * list ascii => kv.1 = n) g with
  | Some (_, kv) => kv.2
  | None => []
  end.

(** ** Lines *)

Definition maxParsedQuantity : Z := 999.

(** strconv.Atoi on a run of digits. *)
Definition Atoi (l : list ascii) : Z := foldl (fun n c => n * 10 + (byte_code c - 48)) 0 l.

(** The loop over the three groups a count can come from. *)
Fixpoint first_count (candidates : list (list ascii)) : Z :=
  match candidates with
  | [] => 0
  | [] :: candidates' => first_count candidates'
  | c :: candidates' =>
    let parsed := Atoi c in
    if parsed <? 1 then first_count candidates' else Z.min parsed maxParsedQuantity
  end.

Definition ParseLine (raw : string) : string * Z :=
  let trimmed := trim (bytes raw) in
  match trimmed with
  | [] => ("", 1)
  | _ =>
    match FindStringSubmatch quantityPattern trimmed with
    | None => (text trimmed, 1)
    | Some groups =>
      let rest := trim (group 2 groups) in
      let quantity := first_count [group 1 groups; group 3 groups; group 4 groups] in
      let quantity := if quantity =? 0 then 1 else quantity in
      match rest with
      | [] => (text trimmed, quantity)
      | _ => (text rest, quantity)
      end
    end
  end.

Definition SplitLines (raw : string) : list string :=
  map text (base.filter (fun l => l ≠ []) (map trim (split_from "010"%char [] (unix_newlines (bytes raw))))).

(** ** The staged match *)

Inductive Status := StatusExactMatch | StatusAmbiguous | StatusNewItem.

#[global] Instance Status_eq_dec : EqDecision Status.
Proof. solve_decision. Defined.

Definition MaxLocalCandidates : Z := 3.
Definition MaxVariants : Z := 5.

(** The binary64 numbers nearest to 0.6, 0.35 and 0.05. *)
Definition ExactThreshold : float64 := S754_finite false 5404319552844595 (-53).
Definition AmbiguousThreshold : float64 := S754_finite false 6305039478318694 (-54).
Definition AmbiguousMargin : float64 := S754_finite false 7205759403792794 (-57).

Record LocalCandidate := mkLocal { lc_ProductID : uuid; lc_Name : string; lc_Similarity : float64 }.
Record CatalogVariant := mkVariant { cv_ID : uuid; cv_DisplayName : string }.

(** The catalog's description, with the variants found around it. *)
Record CatalogMatch := mkCatalogMatch { cm_Row : uuid * CatalogProduct; cm_Variants : list CatalogVariant }.

Record Result := mkResult {
  r_Query : string;
  r_Status : Status;
  r_Product : option LocalCandidate;
  r_Candidates : list LocalCandidate;
  r_Catalog : option CatalogMatch;
}.

Definition NeedsExternalLookup (r : Result) : bool :=
  bool_decide (r_Status r = StatusNewItem) && bool_decide (r_Catalog r = None).

(** The Store interface: three queries, each of which can fail.  [Q] is the world
    they run in, so that what a match asks for can be observed. *)
Class MatchStore (Q : Type) := {
  SimilarProducts : uuid -> string -> float64 -> Z -> Q -> Res (list LocalCandidate) * Q;
  SimilarCatalogProduct : string -> float64 -> Q -> Res (option (uuid * CatalogProduct)) * Q;
  CatalogVariantsOf : uuid -> string -> Z -> Q -> Res (list CatalogVariant) * Q;
}.

Section service.
Context {Q : Type} `{MatchStore Q}.

Definition matchLocal (storageID : uuid) (query : string) (q : Q) : Res Result * Q :=
  match SimilarProducts storageID query AmbiguousThreshold MaxLocalCandidates q with
  | (Fail e, q') => (Fail e, q')
  | (Ok [], q') => (Ok (mkResult query StatusNewItem None [] None), q')
  | (Ok (best :: others), q') =>
    let clearWinner := match others with
                       | [] => true
                       | second :: _ => f_gt (f_sub (lc_Similarity best) (lc_Similarity second)) AmbiguousMargin
                       end in
    if f_ge (lc_Similarity best) ExactThreshold && clearWinner
    then (Ok (mkResult query StatusExactMatch (Some best) [] None), q')
    else (Ok (mkResult query StatusAmbiguous None (best :: others) None), q')
  end.

Definition MatchLocalProduct (storageID : uuid) (s : string) (q : Q) : Res Result * Q :=
  let query := NormalizeQuery s in
  if String.eqb query "" then (Fail ErrOther, q) else matchLocal storageID query q.

Definition MatchProductCandidates (storageID : uuid) (s : string) (q : Q) : Res Result * Q :=
  let query := NormalizeQuery s in
  if String.eqb query "" then (Fail ErrOther, q)
  else
    match matchLocal storageID query q with
    | (Fail e, q1) => (Fail e, q1)
    | (Ok result, q1) =>
      if negb (bool_decide (r_Status result = StatusNewItem)) then (Ok result, q1)
      else
        match SimilarCatalogProduct query AmbiguousThreshold q1 with
        | (Fail e, q2) => (Fail e, q2)
        | (Ok None, q2) => (Ok result, q2)
        | (Ok (Some row), q2) =>
          match CatalogVariantsOf row.1 query MaxVariants q2 with
          | (Fail e, q3) => (Fail e, q3)
          | (Ok variants, q3) =>
            (Ok (mkResult query (r_Status result) (r_Product result) (r_Candidates result)
                   (Some (mkCatalogMatch row variants))), q3)
          end
        end
    end.
End service.

(** ** The cases of parse_test.go *)

Example parse_test_cases :
  map ParseLine ["milk"; "eggs x2"; "eggs x12"; "eggs 2x"; "2x eggs"; "3 apples"; "san marzano tomatoes x4"; "   bread   ";
                 "milk 2"; "milk 3.5%"; "san pellegrino 500"; "eggs x99999"; "eggs x9999"; "eggs x0"; ""] =
  [("milk", 1); ("eggs", 2); ("eggs", 12); ("eggs", 2); ("eggs", 2); ("apples", 3); ("san marzano tomatoes", 4); ("bread", 1);
   ("milk 2", 1); ("milk 3.5%", 1); ("san pellegrino 500", 1); ("eggs", 999); ("eggs", 999); ("eggs", 1); ("", 1)].
Proof. vm_compute. reflexivity. Qed.

Example normalize_test_case : NormalizeQuery "  Cherry   TOMATOES " = "cherry tomatoes".
Proof. reflexivity. Qed.

(** * What parsing and matching promise

    The normal form identifies names up to case and spacing and is stable; a parsed
    line never loses its text or claims an absurd quantity; the catalog is asked only
    when the storage itself has nothing. *)

#[local] Open Scope string_scope.
#[local] Open Scope list_scope.
#[local] Open Scope Z_scope.

(** ** Lower case *)

(** A property of every byte, checked on all 256. *)
Lemma all_bytes (P : ascii -> bool) :
  forallb (fun n => P (ascii_of_N (Z.to_N n))) (seqZ 0 256) = true -> forall c, P c = true.
Proof.
  intros H c. rewrite forallb_forall in H. specialize (H (byte_code c)). unfold byte_code in H at 2.
  rewrite N2Z.id, ascii_N_embedding in H. apply H. apply list_elem_of_In, elem_of_seqZ.
  pose proof (byte_code_range c). lia.
Qed.

Lemma lower_lower c : lower (lower c) = lower c.
Proof. apply Ascii.eqb_eq. revert c. apply all_bytes. vm_compute. reflexivity. Qed.

Lemma is_space_lower c : is_space (lower c) = is_space c.
Proof. apply eqb_prop. revert c. apply (all_bytes (fun c => Bool.eqb (is_space (lower c)) (is_space c))). vm_compute. reflexivity. Qed.

Definition lowered (l : list ascii) : Prop := Forall (fun c => lower c = c) l.

Lemma lowered_map l : lowered (map lower l).
Proof. apply Forall_map, Forall_forall. intros c _. apply lower_lower. Qed.

Lemma lowered_id l : lowered l -> map lower l = l.
Proof. induction 1 as [|c l Hc _ IH]; [done|]. cbn. by rewrite Hc, IH. Qed.

Lemma fields_from_lowered acc l : lowered acc -> lowered l -> Forall lowered (fields_from acc l).
Proof.
  intros Ha Hl. revert acc Ha. induction Hl as [|c l Hc Hl IH]; intros acc Ha; cbn.
  - destruct acc; [constructor|]. repeat constructor. by apply Forall_reverse.
  - destruct (is_space c); [|apply IH; by constructor].
    destruct acc; [apply IH; constructor|]. constructor; [by apply Forall_reverse | apply IH; constructor].
Qed.

Lemma lowered_join l : Forall lowered l -> lowered (join_bytes [" "%char] l).
Proof.
  induction 1 as [|w l Hw Hl IH]; [constructor|]. cbn [join_bytes]. destruct l; [done|].
  apply Forall_app. split; [done|]. constructor; [reflexivity | exact IH].
Qed.

(** ** The normal form *)

(** The words of a name, in lower case. *)
Definition words (s : string) : list (list ascii) := fields_from [] (map lower (bytes s)).

Lemma fields_lower_trim l : fields_from [] (map lower (trim l)) = fields_from [] (map lower l).
Proof.
  destruct (trim_split l) as (k1 & k2 & E & H1 & H2). rewrite E at 2. rewrite !map_app, app_assoc.
  assert (S : forall k, Forall (fun c => is_space c = true) k -> Forall (fun c => is_space c = true) (map lower k)).
  { intros k Hk. apply Forall_map. eapply Forall_impl; [exact Hk|]. intros c Hc. cbn. by rewrite is_space_lower. }
  rewrite fields_from_spaces by auto. apply S in H1. clear E. induction H1 as [|c k Hc _ IH]; [done|].
  cbn. by rewrite Hc.
Qed.

Lemma NormalizeQuery_words s : NormalizeQuery s = text (join_bytes [" "%char] (words s)).
Proof.
  unfold NormalizeQuery, Join, Fields, ToLower, TrimSpace, words. rewrite !bytes_text. f_equal. f_equal.
  rewrite map_map, (map_ext _ id) by apply bytes_text. rewrite map_id. apply fields_lower_trim.
Qed.

Lemma words_word s : Forall word (words s).
Proof. apply fields_from_words. constructor. Qed.

Lemma words_normalized s : words (NormalizeQuery s) = words s.
Proof.
  rewrite NormalizeQuery_words. unfold words at 1. rewrite bytes_text.
  rewrite lowered_id; [apply fields_join, words_word|].
  apply lowered_join, fields_from_lowered; [constructor | apply lowered_map].
Qed.

(** The normal form of a name is stable under normalising again, and two names
    have the same normal form exactly when they are the same words in the same
    order up to case, whatever spaces surround or separate them: a catalog row is
    found under every spelling it could have been written with. *)
Theorem NormalizeQuery_identifies a b :
  NormalizeQuery (NormalizeQuery a) = NormalizeQuery a /\
  (NormalizeQuery a = NormalizeQuery b <-> words a = words b).
Proof.
  split; [|split].
  - rewrite !(NormalizeQuery_words (NormalizeQuery a)), words_normalized. by rewrite <- NormalizeQuery_words.
  - intros E. by rewrite <- (words_normalized a), E, words_normalized.
  - intros E. by rewrite !NormalizeQuery_words, E.
Qed.

(** ** Lines *)

Definition no_digits (l : list ascii) : Prop := Forall (fun c => is_digit c = false) l.

(** Where there is no digit, what starts with one does not match. *)
Lemma digits_need_digit s g k : no_digits s -> match_re digits_1_6 s g k = None.
Proof. intros H. destruct H as [|c s Hc _]; [done|]. cbn. unfold re_digit. by rewrite Hc. Qed.

(** One step of the matcher. *)
Lemma match_seq a b s g k : match_re (Seq a b) s g k = match_re a s g (fun s' g' => match_re b s' g' k).
Proof. done. Qed.
Lemma match_alt a b s g k :
  match_re (Alt a b) s g k = match match_re a s g k with Some g' => Some g' | None => match_re b s g k end.
Proof. done. Qed.
Lemma match_chr p s g k :
  match_re (Chr p) s g k = match s with c :: s' => if p c then k s' g else None | [] => None end.
Proof. done. Qed.
Lemma match_cap n a s g k :
  match_re (Cap n a) s g k =
  match_re a s g (fun s' g' => k s' (g' ++ [(n, take (Datatypes.length s - Datatypes.length s') s)])).
Proof. done. Qed.

Lemma no_digits_tail c s : no_digits (c :: s) -> no_digits s.
Proof. intros H. by inversion H. Qed.

Lemma many_greedy_fails p s g k :
  no_digits s -> (forall s', no_digits s' -> k s' g = None) -> match_re (Many p true) s g k = None.
Proof.
  intros Hs Hk. induction s as [|c s IH]; [cbn; by rewrite Hk|].
  cbn in *. destruct (p c); [|by rewrite Hk]. rewrite IH by (by eapply no_digits_tail). by rewrite Hk.
Qed.

Lemma plus_fails p s g k :
  no_digits s -> (forall s', no_digits s' -> k s' g = None) -> match_re (plus p) s g k = None.
Proof.
  intros Hs Hk. unfold plus. rewrite match_seq, match_chr. destruct s as [|c s]; [done|]. destruct (p c); [|done].
  apply many_greedy_fails; [by eapply no_digits_tail | done].
Qed.

(** The trailing multiplier. *)
Definition trailing : Re :=
  Alt (Seq (plus re_space) (Seq (Chr re_times) (Seq (Many re_space true) (Cap 3 digits_1_6))))
      (Seq (plus re_space) (Seq (Cap 4 digits_1_6) (Seq (Many re_space true) (Chr re_x)))).

Lemma trailing_fails s g k : no_digits s -> match_re trailing s g k = None.
Proof.
  intros Hs. unfold trailing. rewrite match_alt, !match_seq. rewrite plus_fails; [| done |].
  - apply plus_fails; [done|]. intros s' Hs'. rewrite match_seq, match_cap. by apply digits_need_digit.
  - intros s' Hs'. rewrite match_seq, match_chr. destruct s' as [|c s']; [done|]. destruct (re_times c); [|done].
    rewrite match_seq. apply many_greedy_fails; [by eapply no_digits_tail|]. intros s'' Hs''.
    rewrite match_cap. by apply digits_need_digit.
Qed.

(** The lazy group, when only the end can follow it, takes everything up to a
    newline. *)
Lemma lazy_to_end s g (k : list ascii -> Groups -> option Groups) :
  no_digits s -> (forall c s', no_digits (c :: s') -> k (c :: s') g = None) ->
  match_re (Many re_any false) s g k = if forallb re_any s then k [] g else None.
Proof.
  intros Hs Hk. induction s as [|c s IH]; [cbn; by destruct (k [] g)|]. cbn in *. rewrite Hk by done.
  destruct (re_any c); [apply IH; by eapply no_digits_tail | done].
Qed.

Lemma quantityPattern_plain s :
  no_digits s -> FindStringSubmatch quantityPattern s = if forallb re_any s then Some [(2%nat, s)] else None.
Proof.
  intros Hs. unfold FindStringSubmatch, quantityPattern. rewrite match_seq, match_alt, match_seq, match_cap.
  rewrite digits_need_digit by done. change (match_re Eps s [] ?k) with (k s (@nil (nat * list ascii))). cbv beta.
  rewrite match_seq, match_cap. rewrite lazy_to_end; [|done|].
  - destruct (forallb re_any s); [|done]. rewrite Nat.sub_0_r, take_ge by done. reflexivity.
  - intros c s' Hs'. rewrite match_seq. unfold Opt. rewrite match_alt. fold trailing.
    rewrite trailing_fails by done. reflexivity.
Qed.

(** ** What a parsed line is *)

Lemma first_count_bounds l : first_count l = 0 \/ 1 <= first_count l <= maxParsedQuantity.
Proof.
  induction l as [|[|c d] l IH]; [by left | exact IH|]. cbn [first_count].
  destruct (Z.ltb_spec (Atoi (c :: d)) 1); [exact IH|]. right. unfold maxParsedQuantity. lia.
Qed.

(** Whatever the line, the quantity parsed from it is between 1 and 999 and the
    text is not blank unless the line is; a blank line is one unit of nothing; and
    a line without a digit is one unit of its trimmed text. *)
Theorem ParseLine_spec raw :
  let '(name, quantity) := ParseLine raw in
  1 <= quantity <= 999 /\
  (trim (bytes raw) = [] -> name = "" /\ quantity = 1) /\
  (trim (bytes raw) ≠ [] -> name ≠ "") /\
  (no_digits (bytes raw) -> name = TrimSpace raw /\ quantity = 1).
Proof.
  unfold ParseLine. set (t := trim (bytes raw)). cbv zeta.
  assert (T : forall l : list ascii, l ≠ [] -> text l ≠ "") by (intros [|c l] H; done).
  assert (Hd : no_digits (bytes raw) -> no_digits t).
  { intros H. destruct (trim_split (bytes raw)) as (k1 & k2 & E & _). rewrite E in H. unfold no_digits in *.
    rewrite !Forall_app in H. fold t in H. tauto. }
  destruct t as [|c0 t0] eqn:Et.
  { split; [lia|]. split; [done|]. split; [done|]. intros _. unfold TrimSpace. fold t. by rewrite Et. }
  set (l := c0 :: t0) in *. assert (Hl : l ≠ []) by done.
  set (q0 := fun gs => first_count [group 1 gs; group 3 gs; group 4 gs]).
  assert (Q : forall gs, 1 <= (if q0 gs =? 0 then 1 else q0 gs) <= 999).
  { intros gs. unfold q0. destruct (first_count_bounds [group 1 gs; group 3 gs; group 4 gs]) as [->|B]; [cbn; lia|].
    unfold maxParsedQuantity in B. destruct (Z.eqb_spec (first_count [group 1 gs; group 3 gs; group 4 gs]) 0); lia. }
  destruct (FindStringSubmatch quantityPattern l) as [gs|] eqn:F.
  - change (first_count [group 1 gs; group 3 gs; group 4 gs]) with (q0 gs).
    assert (P : no_digits (bytes raw) -> gs = [(2%nat, l)]).
    { intros H. apply Hd in H. rewrite quantityPattern_plain in F by done. destruct (forallb re_any l); [congruence | done]. }
    destruct (trim (group 2 gs)) as [|c r] eqn:Er.
    + split; [apply Q|]. split; [done|]. split; [by auto|]. intros H. rewrite (P H) in *.
      unfold TrimSpace. fold t. by rewrite Et.
    + split; [apply Q|]. split; [done|]. split; [by auto|]. intros H. rewrite (P H) in *. split; [|done].
      rewrite <- Er. cbn [group list_find]. unfold TrimSpace. fold t. rewrite Et. f_equal.
      change (trim l = l). rewrite <- Et. apply trim_idemp.
  - split; [lia|]. split; [done|]. split; [by auto|]. intros H. split; [|done]. unfold TrimSpace. fold t. by rewrite Et.
Qed.

(** ** The staged match *)

Section staging.
Context {Q : Type} `{MatchStore Q}.

(** One clear winner: alone, or ahead of the runner-up by more than the margin. *)
Definition clear_winner (local : list LocalCandidate) : bool :=
  match local with
  | [] => false
  | [_] => true
  | best :: second :: _ => f_gt (f_sub (lc_Similarity best) (lc_Similarity second)) AmbiguousMargin
  end.

Lemma matchLocal_ok st query q r q' :
  matchLocal st query q = (Ok r, q') ->
  exists local, SimilarProducts st query AmbiguousThreshold MaxLocalCandidates q = (Ok local, q') /\
    r_Query r = query /\ r_Catalog r = None /\
    match local with
    | [] => r_Status r = StatusNewItem /\ r_Product r = None /\ r_Candidates r = []
    | best :: _ =>
      if f_ge (lc_Similarity best) ExactThreshold && clear_winner local
      then r_Status r = StatusExactMatch /\ r_Product r = Some best /\ r_Candidates r = []
      else r_Status r = StatusAmbiguous /\ r_Product r = None /\ r_Candidates r = local
    end.
Proof.
  unfold matchLocal. intros E. destruct (SimilarProducts st query AmbiguousThreshold MaxLocalCandidates q) as [[local|e] q1]; [|done].
  destruct local as [|best others]; [injection E as <- <-; by exists []|]. cbv zeta in E.
  exists (best :: others). destruct others as [|second others]; cbn [clear_winner];
    (case_match; injection E as <- <-; by split_and!).
Qed.

(** A match that succeeds asked this storage's own products first. When they
    offered candidates the answer is one of them, preselected only if it scores at
    least 0.6 and is alone or ahead of the second by more than 0.05, and otherwise
    the whole list to choose from; the catalog was not asked and no external lookup
    is due. Only when there were none was the catalog asked, its row is reported
    with its variants, and an external lookup is due exactly when it had none
    either. Blank text is an error that asks nothing. *)
Theorem MatchProductCandidates_spec st s q :
  match MatchProductCandidates st s q with
  | (Fail _, q') => NormalizeQuery s = "" -> q' = q
  | (Ok r, q') =>
    r_Query r = NormalizeQuery s /\ NormalizeQuery s ≠ "" /\
    exists local q1, SimilarProducts st (NormalizeQuery s) AmbiguousThreshold MaxLocalCandidates q = (Ok local, q1) /\
    match local with
    | best :: _ =>
      q' = q1 /\ r_Catalog r = None /\ NeedsExternalLookup r = false /\
      (if f_ge (lc_Similarity best) ExactThreshold && clear_winner local
       then r_Status r = StatusExactMatch /\ r_Product r = Some best /\ r_Candidates r = []
       else r_Status r = StatusAmbiguous /\ r_Product r = None /\ r_Candidates r = local)
    | [] =>
      r_Status r = StatusNewItem /\ r_Product r = None /\
      exists hit q2, SimilarCatalogProduct (NormalizeQuery s) AmbiguousThreshold q1 = (Ok hit, q2) /\
        match hit with
        | None => q' = q2 /\ NeedsExternalLookup r = true
        | Some row =>
          NeedsExternalLookup r = false /\
          exists variants, CatalogVariantsOf row.1 (NormalizeQuery s) MaxVariants q2 = (Ok variants, q') /\
            r_Catalog r = Some (mkCatalogMatch row variants)
        end
    end
  end.
Proof.
  unfold MatchProductCandidates. destruct (String.eqb_spec (NormalizeQuery s) "") as [->|Hne]; [done|].
  destruct (matchLocal st (NormalizeQuery s) q) as [[r0|e] q1] eqn:Hl; [|done].
  apply matchLocal_ok in Hl as (local & Hs & Hq & Hc & Hlocal).
  destruct local as [|best others].
  - destruct Hlocal as (Hst & Hp & Hcand). rewrite bool_decide_true by done. cbn [negb].
    destruct (SimilarCatalogProduct (NormalizeQuery s) AmbiguousThreshold q1) as [[[row|]|e] q2] eqn:Hcat; [| |done].
    + destruct (CatalogVariantsOf row.1 (NormalizeQuery s) MaxVariants q2) as [[variants|e] q3] eqn:Hv; [|done].
      split; [done|]. split; [done|]. exists [], q1. split; [done|]. cbn. split; [done|]. split; [done|].
      exists (Some row), q2. split; [done|]. split; [by unfold NeedsExternalLookup; cbn; rewrite andb_false_r|]. by exists variants.
    + split; [done|]. split; [done|]. exists [], q1. split; [done|]. split; [done|]. split; [done|].
      exists None, q2. split; [done|]. split; [done|]. unfold NeedsExternalLookup. by rewrite !bool_decide_true.
  - assert (Hst : r_Status r0 ≠ StatusNewItem) by (case_match; destruct Hlocal as (-> & _); done).
    rewrite bool_decide_false by done. cbn [negb]. split; [done|]. split; [done|].
    exists (best :: others), q1. split; [done|]. split; [done|]. split; [done|]. split; [|exact Hlocal].
    unfold NeedsExternalLookup. by rewrite bool_decide_false.
Qed.
End staging.
