(* ===== verification/Sample.v ===== *)
(** * A small household

    A concrete database the witnesses of the development run operations on:
    storage 1 with two shelves, one product with a boxed batch of three units
    and the log row that explains it, a reviewer, and one job of each status. *)

From S2P Require Import Prelude Gamification Db.

#[local] Open Scope string_scope.
#[local] Open Scope list_scope.
#[local] Open Scope Z_scope.

Definition shelf (name : string) (parent : option uuid) : Location := mkLocation 1 parent name None None 0 0.

Definition beans : Product := mkProduct 1 "Beans" (Some 25) None "long_shelf_life" None 0 None None 0 0.

Definition pasta : Product := mkProduct 1 "Pasta" None None "long_shelf_life" None 2 None None 0 0.

Definition beans_batch : Batch := mkBatch 30 20 3 None "derived" 0 (Some 50).

Definition box : Container := mkContainer 1 "Box" (Some "crate") 0 None.

Definition sample_job (s : JobStatus) (p : Payload) (owner expiry : option Z) : Job :=
  mkJob 1 JobConsumptionPhoto s p None (Some 10) (Some "photo.jpg") None owner expiry 0 0.

Definition sample_rows : list ProposalRow :=
  [mkProposalRow "a" "exact_match" (Some 30); mkProposalRow "b" "none" None].

Definition sample_db : DB :=
  set_accounts (fun _ => <[10 := mkUser "ada" "" "Ada" false 0]> (<[11 := mkUser "bob" "" "Bob" false 0]> ∅)) (
  set_storage_rows (fun _ => <[1 := mkStorage "Home" 0]> (<[2 := mkStorage "Cabin" 0]> ∅)) (
  set_memberships (fun _ => <[(1, 10) := mkMember 0 "dashboard"]> (<[(1, 11) := mkMember 0 "dashboard"]> ∅)) (
  set_locations (fun _ => <[20 := shelf "Kitchen" None]> (<[21 := shelf "Cellar" None]> (<[22 := shelf "Rack" (Some 21)]> ∅))) (
  set_categories (fun _ => <[24 := mkCategory 1 None "Food" (Some 400) 0 0]>
                             (<[25 := mkCategory 1 (Some 24) "Cans" None 0 0]> ∅)) (
  set_products (fun _ => <[30 := beans]> (<[31 := pasta]> ∅)) (
  set_containers (fun _ => {[50 := box]}) (
  set_batches (fun _ => {[40 := beans_batch]}) (
  set_logs (fun _ => [mkLogRow 70 30 (Some 40) 3 "purchase" (Some 10) 0]) (
  set_jobs (fun _ => <[60 := sample_job JobPending NoPayload (Some 7) (Some (60 * second))]>
                       (<[61 := sample_job JobDone (Proposal sample_rows) None None]>
                       (<[62 := sample_job JobFailed NoPayload None None]>
                       (<[63 := sample_job JobConsumed (Proposal sample_rows) None None]> ∅)))) empty_db))))))))).

(** The ids still to be minted, the database's clock, and Go's. *)
Definition sample_world : World := mkWorld sample_db [100; 101; 102; 103; 104; 105; 106; 107; 108; 109] second second.

(** The same household at a later time of the database's clock. *)
Definition at_time (t : Z) (w : World) : World := mkWorld (wdb w) (wids w) t (wclock w).
