(* ===== verification/Tree.v ===== *)
(** * The location and category trees: internal/store/tree.go

    Both trees are self-referencing tables scoped by storage.  [tree_nodes]
    reads either as a map from node to (storage, parent); the recursive queries
    are walks over that map, bounded by [maxTreeDepth] where the SQL is. *)

From S2P Require Import Prelude Gamification Db.

#[local] Open Scope Z_scope.

(** ** The tables as trees *)

Inductive treeTable := treeLocations | treeCategories.

Record Node := mkNode { n_storage : uuid; n_parent : option uuid }.

Definition location_node (l : Location) : Node := mkNode (loc_StorageID l) (loc_ParentID l).
Definition category_node (c : Category) : Node := mkNode (cat_StorageID c) (cat_ParentID c).

Definition tree_nodes (table : treeTable) (d : DB) : gmap uuid Node :=
  match table with
  | treeLocations => location_node <$> db_locations d
  | treeCategories => category_node <$> db_categories d
  end.

Definition maxTreeDepth : nat := 64.

(** ** Walks *)

(** WITH RECURSIVE ancestors: [id], its parent, its parent's parent, ... while
    the row exists, at most [fuel] rows. *)
Fixpoint ancestors (fuel : nat) (nodes : gmap uuid Node) (id : uuid) : list uuid :=
  match fuel with
  | O => []
  | S fuel' =>
    match nodes !! id with
    | None => []
    | Some n =>
      id :: match n_parent n with
            | None => []
            | Some p => ancestors fuel' nodes p
            end
    end
  end.

(** The rows whose parent_id is [id]. *)
Definition children (nodes : gmap uuid Node) (id : uuid) : list uuid :=
  (map_to_list (base.filter (fun kv : uuid * Node => n_parent kv.2 = Some id) nodes)).*1.

(** WITH RECURSIVE subtree: level by level from [level], at most [fuel] levels. *)
Fixpoint levels (fuel : nat) (nodes : gmap uuid Node) (level : list uuid) : list uuid :=
  match fuel with
  | O => []
  | S fuel' => level ++ levels fuel' nodes (level ≫= children nodes)
  end.

Definition subtree (nodes : gmap uuid Node) (root : uuid) : list uuid :=
  match nodes !! root with
  | None => []
  | Some _ => levels maxTreeDepth nodes [root]
  end.

(** What ON DELETE CASCADE on parent_id removes with [root]: the node and every
    node below it, at any depth. *)
Definition below (nodes : gmap uuid Node) (root : uuid) : gset uuid :=
  dom (base.filter (fun kv : uuid * Node => root ∈ ancestors (S (size nodes)) nodes kv.1) nodes).

(** ** Checks *)

Definition in_storage (nodes : gmap uuid Node) (storageID id : uuid) : bool :=
  match nodes !! id with
  | Some n => n_storage n =? storageID
  | None => false
  end.

Definition requireSameStorage (table : treeTable) (storageID id : uuid) : Tx unit :=
  d ← get_db;
  require (in_storage (tree_nodes table d) storageID id) ErrNotFound.

Definition wouldCycle (table : treeTable) (node parent : uuid) : Tx bool :=
  if node =? parent then mret true
  else
    d ← get_db;
    mret (bool_decide (node ∈ ancestors maxTreeDepth (tree_nodes table d) parent)).

Definition resolveParent (table : treeTable) (storageID : uuid) (node parent : option uuid) : Tx unit :=
  match parent with
  | None => mret tt
  | Some p =>
    requireSameStorage table storageID p ;;
    match node with
    | None => mret tt
    | Some n =>
      cycles ← wouldCycle table n p;
      require (negb cycles) ErrConflict
    end
  end.

(** ** What the checks establish *)

Lemma requireSameStorage_ok table st id w u w' :
  requireSameStorage table st id w = (Ok u, w') <->
  w' = w /\ exists n, tree_nodes table (wdb w) !! id = Some n /\ n_storage n = st.
Proof.
  unfold requireSameStorage. rewrite bind_ok. split.
  - intros (d & w1 & Hd & Hr). tx_inv.
    unfold in_storage in *. destruct (tree_nodes table (wdb w) !! id); [|done].
    bool_to_prop. eauto.
  - intros (-> & n & Hn & Hs). exists (wdb w), w. split; [done|].
    apply require_ok. split; [|done]. unfold in_storage. rewrite Hn. by apply Z.eqb_eq.
Qed.

Lemma wouldCycle_ok table node parent w b w' :
  wouldCycle table node parent w = (Ok b, w') ->
  w' = w /\
  (b = false -> node ≠ parent /\
     node ∉ ancestors maxTreeDepth (tree_nodes table (wdb w)) parent).
Proof.
  unfold wouldCycle. destruct (Z.eqb_spec node parent); intros H; tx_inv.
  - split; [done|]. done.
  - split; [done|]. intros H. by apply bool_decide_eq_false in H.
Qed.

Lemma resolveParent_ok table st node parent w u w' :
  resolveParent table st node parent w = (Ok u, w') ->
  w' = w /\ forall p, parent = Some p ->
    (exists n, tree_nodes table (wdb w) !! p = Some n /\ n_storage n = st) /\
    forall k, node = Some k ->
      k ≠ p /\ k ∉ ancestors maxTreeDepth (tree_nodes table (wdb w)) p.
Proof.
  unfold resolveParent. destruct parent as [p|]; intros H; tx_inv; [|done].
  tx_use requireSameStorage_ok. destruct_and!. subst.
  destruct node as [k|]; tx_inv.
  - tx_use wouldCycle_ok. destruct_and!. subst. bool_to_prop.
    split; [done|]. intros p' [= <-]. split; [done|]. intros k' [= <-]. auto.
  - split; [done|]. intros p' [= <-]. by split.
Qed.
