(* ===== verification/Progress.v ===== *)
(** * Progress, quests and achievements inside a write: internal/store
    (gamification.go, quests.go, achievements.go)

    What every scoring write does in its own transaction: bump the cached XP,
    append a contribution, advance the active quests it is relevant to and pay
    their contributors, unlock achievements. *)

From S2P Require Import Prelude Gamification Expiry Db Tree.

#[local] Open Scope string_scope.
#[local] Open Scope list_scope.
#[local] Open Scope Z_scope.

(** ** Weeks *)

(** The day number of the Monday of [t]'s week: day 0 of the epoch is a
    Thursday, so [(d + 4) mod 7] is the weekday with Sunday at 0. *)
Definition mondayOf (t : Z) : Z :=
  let d := t / day in
  let offset := ((d + 4) mod 7 + 6) mod 7 in
  d - offset.

(** ** The cached row *)

(** The storages and users a row's foreign keys name. *)
Definition fk_storage_user (d : DB) (storageID userID : uuid) : bool :=
  bool_decide (storageID ∈ db_storages d) && bool_decide (userID ∈ db_users d).

Definition bumpProgress (storageID userID : uuid) (xpDelta at_ : Z) : Tx unit :=
  d ← get_db;
  (match db_progress d !! (storageID, userID) with
   | Some _ => mret tt
   | None =>
     require (fk_storage_user d storageID userID) ErrOther ;;
     modify (set_progress (<[(storageID, userID) := mkProgress 0 1 0 None]>))
   end) ;;
  d ← get_db;
  row ← some_or (db_progress d !! (storageID, userID)) ErrOther;
  let newXP := wrap64 (up_XP row + xpDelta) in
  let week := mondayOf at_ in
  require (int4_ok newXP) ErrOther ;;
  modify (set_progress (<[(storageID, userID) :=
    mkProgress newXP (Level newXP) (up_StreakWeeks row) (Some week)]>)).

(** ** Quests *)

Definition param_ids (p : QuestParams) : list uuid := match p with IdList ids => ids | _ => [] end.
Definition param_location (p : QuestParams) : uuid := match p with StaleLocation l _ _ => l | _ => uuid_Nil end.
Definition param_start (p : QuestParams) : Z := match p with FirstMile n => n | _ => 0 end.

(** SELECT count of the rows of a table whose id is among [ids] and which satisfy [f]. *)
Definition countMatching {V} (table : gmap uuid V) (ids : list uuid) (f : V -> bool) : Z :=
  Z.of_nat (size (base.filter (fun kv : uuid * V => kv.1 ∈ ids /\ f kv.2 = true) table)).

Definition questProgress (d : DB) (nowT : Z) (storageID : uuid) (quest : Quest) : Z :=
  let g := q_Generator quest in
  let ids := param_ids (q_Params quest) in
  let today := nowT / day in
  let since := q_WeekStart quest * day in
  if String.eqb g GeneratorMissingExpiry then
    countMatching (db_batches d) ids (fun b => bool_decide (is_Some (b_ExpirationDate b)))
  else if String.eqb g GeneratorUncategorized then
    countMatching (db_products d) ids (fun p => bool_decide (is_Some (prod_CategoryID p)))
  else if String.eqb g GeneratorImageless then
    countMatching (db_products d) ids (fun p =>
      bool_decide (is_Some (prod_ImageURL p)) || bool_decide (is_Some (prod_IconName p)))
  else if String.eqb g GeneratorUntrackedReorder then
    countMatching (db_products d) ids (fun p => prod_MinStock p >? 0)
  else if String.eqb g GeneratorExpiringSoon then
    countMatching (db_batches d) ids (fun b =>
      (b_Quantity b <=? 0) ||
      match b_ExpirationDate b with
      | Some e => (e <? today) || (e >=? today + 3)
      | None => false
      end)
  else if String.eqb g GeneratorStaleLocation then
    let touched := existsb (fun l =>
      match log_BatchID l with
      | Some bid =>
        match db_batches d !! bid with
        | Some b => (b_LocationID b =? param_location (q_Params quest)) && (log_Timestamp l >=? since)
        | None => false
        end
      | None => false
      end) (db_logs d) in
    if touched then 1 else 0
  else if String.eqb g GeneratorConsumptionHygiene then
    let logged := existsb (fun l =>
      match db_products d !! log_ProductID l with
      | Some p => (prod_StorageID p =? storageID) && String.eqb (log_Reason l) "consumption"
                  && (log_Timestamp l >=? since)
      | None => false
      end) (db_logs d) in
    if logged then 1 else 0
  else if String.eqb g GeneratorFirstMile then
    let count := Z.of_nat (size (base.filter (fun kv : uuid * Product => prod_StorageID kv.2 = storageID) (db_products d))) in
    let progress := count - param_start (q_Params quest) in
    let progress := if progress <? 0 then 0 else progress in
    if progress >? q_TargetCount quest then q_TargetCount quest else progress
  else 0.

Definition questTargetQualifies (generator : string) (params : QuestParams) (targetID : option uuid) : bool :=
  if bool_decide (generator ∈ [GeneratorMissingExpiry; GeneratorUncategorized; GeneratorImageless;
                               GeneratorUntrackedReorder; GeneratorExpiringSoon])
  then match targetID with
       | None => false
       | Some t => bool_decide (t ∈ param_ids params)
       end
  else true.

Definition questRelevantGenerators (kind : string) : list string :=
  if String.eqb kind ReasonPurchase then [GeneratorFirstMile; GeneratorStaleLocation]
  else if String.eqb kind ReasonVisionIngestion then [GeneratorFirstMile; GeneratorStaleLocation]
  else if String.eqb kind ReasonConsumption then [GeneratorConsumptionHygiene; GeneratorExpiringSoon]
  else if String.eqb kind KindExpiryConfirmed then [GeneratorMissingExpiry]
  else if String.eqb kind KindLocationMapped then [GeneratorStaleLocation]
  else [].

(** The uncompleted quest of this storage, week and generator: the table's
    UNIQUE constraint leaves at most one. *)
Definition active_quest (d : DB) (storageID : uuid) (weekStart : Z) (generator : string) : option (uuid * Quest) :=
  head (map_to_list (base.filter (fun kv : uuid * Quest =>
    q_StorageID kv.2 = storageID /\ q_WeekStart kv.2 = weekStart /\
    q_Generator kv.2 = generator /\ q_CompletedAt kv.2 = None) (db_quests d))).

Definition complete_quest (t : Z) (q : Quest) : Quest :=
  mkQuest (q_StorageID q) (q_WeekStart q) (q_Generator q) (q_Params q) (q_TargetCount q) (q_XPReward q) (Some t).

Definition advanceOneQuest (storageID userID : uuid) (generator : string) (targetID : option uuid) : Tx unit :=
  clock ← time_Now;
  let weekStart := mondayOf clock in
  d ← get_db;
  match active_quest d storageID weekStart generator with
  | None => mret tt
  | Some (questID, quest) =>
    if negb (questTargetQualifies (q_Generator quest) (q_Params quest) targetID) then mret tt
    else
      require (bool_decide ((questID, userID) ∈ db_contributors d) || bool_decide (userID ∈ db_users d)) ErrOther ;;
      modify (set_contributors (fun s => {[(questID, userID)]} ∪ s)) ;;
      d ← get_db;
      t ← now;
      if questProgress d t storageID quest <? q_TargetCount quest then mret tt
      else
        modify (set_quests (alter (complete_quest t) questID)) ;;
        clock ← time_Now;
        for_each (fun u => bumpProgress storageID u (q_XPReward quest) clock)
          (elements (base.filter (fun qu : uuid * uuid => qu.1 = questID) (db_contributors d))).*2
  end.

Definition advanceQuests (storageID userID : uuid) (kind : string) (targetID : option uuid) : Tx unit :=
  for_each (fun generator => advanceOneQuest storageID userID generator targetID) (questRelevantGenerators kind).

Definition advanceQuestForGenerator (storageID userID : uuid) (generator : string) (targetID : option uuid) : Tx unit :=
  advanceOneQuest storageID userID generator targetID.

(** ** Achievements *)

Definition unlockAchievement (storageID userID : uuid) (key : string) : Tx unit :=
  d ← get_db;
  require (bool_decide ((storageID, userID, key) ∈ db_achievements d) || fk_storage_user d storageID userID) ErrOther ;;
  modify (set_achievements (fun s => {[(storageID, userID, key)]} ∪ s)).

Definition achievementNewlyUnlocked (storageID userID : uuid) (key : string) : Tx bool :=
  d ← get_db;
  let inserted := negb (bool_decide ((storageID, userID, key) ∈ db_achievements d)) in
  require (negb inserted || fk_storage_user d storageID userID) ErrOther ;;
  modify (set_achievements (fun s => {[(storageID, userID, key)]} ∪ s)) ;;
  mret inserted.

Definition checkCurator (storageID userID : uuid) : Tx unit :=
  d ← get_db;
  let count := Z.of_nat (length (base.filter (fun e =>
    ce_StorageID e = storageID /\ ce_UserID e = userID /\ ce_Kind e = KindAICorrection) (db_contributions d))) in
  if count <? CuratorCorrections then mret tt
  else unlockAchievement storageID userID AchCurator.

(** SELECT max(depth) of the ancestor walk: NULL, a scan error, for a location
    that does not exist. *)
Definition locationDepth (id : uuid) : Tx Z :=
  d ← get_db;
  match ancestors maxTreeDepth (tree_nodes treeLocations d) id with
  | [] => throw ErrOther
  | l => mret (Z.of_nat (length l))
  end.

Definition checkCartographer (storageID userID locationID : uuid) : Tx unit :=
  depth ← locationDepth locationID;
  if depth <? CartographerTreeDepth then mret tt
  else unlockAchievement storageID userID AchCartographer.

Definition evaluateContributionAchievements (storageID userID : uuid) (kind : string) (refID : option uuid) : Tx unit :=
  if String.eqb kind KindAICorrection then checkCurator storageID userID
  else if String.eqb kind KindLocationMapped then
    match refID with
    | None => mret tt
    | Some l => checkCartographer storageID userID l
    end
  else mret tt.

(** ** The two seams of every scoring write *)

Definition contribution_kind_ok (kind : string) : bool :=
  bool_decide (kind ∈ [KindAICorrection; KindMetadataFilled; KindLocationMapped;
                       KindCategoryCreated; KindExpiryConfirmed; KindAmbiguityResolved]).

Definition recordContribution (storageID userID : uuid) (kind : string) (refID : option uuid)
    (generator : option string) : Tx unit :=
  id ← newID;
  d ← get_db;
  require (fk_storage_user d storageID userID && contribution_kind_ok kind) ErrOther ;;
  t ← now;
  modify (set_contributions (fun l => l ++ [mkContribution id storageID userID kind refID t])) ;;
  clock ← time_Now;
  bumpProgress storageID userID (XPForContribution kind) clock ;;
  (match generator with
   | Some g => advanceQuestForGenerator storageID userID g refID
   | None => advanceQuests storageID userID kind refID
   end) ;;
  evaluateContributionAchievements storageID userID kind refID.

Definition bumpForLedgerReason (storageID : uuid) (userID : option uuid) (reason : string) (batchID : uuid) : Tx unit :=
  match userID with
  | None => mret tt
  | Some u =>
    match XPForLedgerReason reason with
    | None => mret tt
    | Some xp =>
      clock ← time_Now;
      bumpProgress storageID u xp clock ;;
      advanceQuests storageID u reason (Some batchID)
    end
  end.

(** ** What a scoring write leaves alone

    [inventory_part] is the database with the scoring tables emptied: two
    databases with the same inventory part agree on every other table. *)

Definition inventory_part (d : DB) : DB :=
  set_progress (fun _ => ∅) (set_contributions (fun _ => [])
    (set_achievements (fun _ => ∅) (set_quests (fun _ => ∅) (set_contributors (fun _ => ∅) d)))).

(** Whatever its outcome, [m] changes scoring tables only, and no clock. *)
Definition scoring_only {A} (m : Tx A) : Prop :=
  forall w r w', m w = (r, w') ->
    inventory_part (wdb w') = inventory_part (wdb w) /\ wnow w' = wnow w /\ wclock w' = wclock w.

Create HintDb scoring discriminated.

Section scoring_only.
Context {A B : Type}.

Lemma scoring_only_ret (a : A) : scoring_only (mret a : Tx A).
Proof. intros w r w' H. unfold mret, tx_ret in H. by simplify_eq. Qed.

Lemma scoring_only_throw e : scoring_only (throw e : Tx A).
Proof. intros w r w' H. unfold throw in H. by simplify_eq. Qed.

Lemma scoring_only_some_or (o : option A) e : scoring_only (some_or o e).
Proof. destruct o; [apply scoring_only_ret | apply scoring_only_throw]. Qed.

Lemma scoring_only_bind (m : Tx A) (f : A -> Tx B) :
  scoring_only m -> (forall a, scoring_only (f a)) -> scoring_only (m ≫= f).
Proof.
  intros Hm Hf w r w' H. unfold mbind, tx_bind in H.
  destruct (m w) as [[a|e] w1] eqn:E; apply Hm in E as (E1 & E2 & E3).
  - cbn in H. apply Hf in H as (H1 & H2 & H3). split_and!; congruence.
  - injection H as <- <-. auto.
Qed.

Lemma scoring_only_for_each (f : A -> Tx unit) l :
  (forall a, scoring_only (f a)) -> scoring_only (for_each f l).
Proof.
  intros Hf. induction l as [|a l IH]; cbn.
  - intros w r w' H. unfold mret, tx_ret in H. by simplify_eq.
  - intros w r w' H. unfold mbind, tx_bind in H.
    destruct (f a w) as [[u|e] w1] eqn:E; apply Hf in E as (E1 & E2 & E3).
    + cbn in H. apply IH in H as (H1 & H2 & H3). split_and!; congruence.
    + injection H as <- <-. auto.
Qed.
End scoring_only.

Lemma scoring_only_get_db : scoring_only get_db.
Proof. intros w r w' H. unfold get_db in H. by simplify_eq. Qed.
Lemma scoring_only_now : scoring_only now.
Proof. intros w r w' H. unfold now in H. by simplify_eq. Qed.
Lemma scoring_only_time_Now : scoring_only time_Now.
Proof. intros w r w' H. unfold time_Now in H. by simplify_eq. Qed.
Lemma scoring_only_newID : scoring_only newID.
Proof. intros w r w' H. unfold newID in H. destruct (wids w); by simplify_eq. Qed.
Lemma scoring_only_require b e : scoring_only (require b e).
Proof. destruct b; [apply scoring_only_ret | apply scoring_only_throw]. Qed.

Lemma scoring_only_modify f :
  (forall d, inventory_part (f d) = inventory_part d) -> scoring_only (modify f).
Proof. intros Hf w r w' H. unfold modify in H. simplify_eq. cbn. by rewrite Hf. Qed.

#[export] Hint Resolve scoring_only_ret scoring_only_throw scoring_only_some_or
  scoring_only_get_db scoring_only_now scoring_only_time_Now scoring_only_newID
  scoring_only_require : scoring.

(** Walk the structure of a transaction, leaving the leaves to the hints. *)
Ltac scoring_step :=
  lazymatch goal with
  | |- scoring_only (_ ≫= _) => apply scoring_only_bind; [|intros ?]
  | |- scoring_only (for_each _ _) => apply scoring_only_for_each; intros ?
  | |- scoring_only (modify _) => apply scoring_only_modify; intros ?; reflexivity
  | |- scoring_only (match ?x with _ => _ end) => destruct x
  | |- scoring_only _ => solve [auto with scoring]
  end.
Ltac scoring_walk := repeat scoring_step.

Lemma scoring_bumpProgress st u xp t : scoring_only (bumpProgress st u xp t).
Proof. unfold bumpProgress. scoring_walk. Qed.
#[export] Hint Resolve scoring_bumpProgress : scoring.

Lemma scoring_advanceOneQuest st u g t : scoring_only (advanceOneQuest st u g t).
Proof. unfold advanceOneQuest. scoring_walk. Qed.
#[export] Hint Resolve scoring_advanceOneQuest : scoring.

Lemma scoring_advanceQuests st u k t : scoring_only (advanceQuests st u k t).
Proof. unfold advanceQuests. scoring_walk. Qed.
#[export] Hint Resolve scoring_advanceQuests : scoring.

Lemma scoring_unlockAchievement st u k : scoring_only (unlockAchievement st u k).
Proof. unfold unlockAchievement. scoring_walk. Qed.
#[export] Hint Resolve scoring_unlockAchievement : scoring.

Lemma scoring_evaluate st u k r : scoring_only (evaluateContributionAchievements st u k r).
Proof.
  unfold evaluateContributionAchievements, checkCurator, checkCartographer, locationDepth.
  scoring_walk.
Qed.
#[export] Hint Resolve scoring_evaluate : scoring.

Lemma scoring_recordContribution st u k r g : scoring_only (recordContribution st u k r g).
Proof. unfold recordContribution, advanceQuestForGenerator. scoring_walk. Qed.

Lemma scoring_bumpForLedgerReason st u r b : scoring_only (bumpForLedgerReason st u r b).
Proof. unfold bumpForLedgerReason. scoring_walk. Qed.
#[export] Hint Resolve scoring_recordContribution scoring_bumpForLedgerReason : scoring.

(** What only scores leaves every other table as it is. *)
Lemma frames_scoring {T A} (view : DB -> T) (m : Tx A) :
  scoring_only m -> (forall d, view (inventory_part d) = view d) -> frames view m.
Proof.
  intros Hm Hv w r w' H. destruct (Hm w r w' H) as [E _]. rewrite <- (Hv (wdb w')), E. apply Hv.
Qed.

#[export] Hint Extern 2 (frames _ _) => eapply frames_scoring; [solve [auto with scoring] | intros ?; reflexivity] : frames.
