(* ===== verification/ShelfLife.v ===== *)
(** * Shelf-life rules in the database: internal/store/expiry.go

    Gathering the rules that apply to a product in the order internal/expiry
    expects, and recomputing the dates that follow from them.  Only rows with
    expiration_source 'derived' are ever written by a recompute. *)

From S2P Require Import Prelude Gamification Expiry Db Tree.

#[local] Open Scope string_scope.
#[local] Open Scope list_scope.
#[local] Open Scope Z_scope.

Definition ExpirationDerived := "derived".
Definition ExpirationUser := "user".

(** A DATE column written from a time.Time: the day it names in its zone. *)
Definition date_col (t : option Time) : option Z := civil_day <$> t.

(** A TIMESTAMPTZ read back as a time.Time, in UTC. *)
Definition timestamp (t : Z) : Time := mkTime t 0.

(** ** Ownership through the product *)

Definition product_in_storage (d : DB) (storageID id : uuid) : option Product :=
  match db_products d !! id with
  | Some p => if prod_StorageID p =? storageID then Some p else None
  | None => None
  end.

Definition requireProductInStorage (storageID id : uuid) : Tx unit :=
  d ← get_db;
  require (bool_decide (is_Some (product_in_storage d storageID id))) ErrNotFound.

(** inventory_batches b JOIN products p ... WHERE b.id = $1 AND p.storage_id = $2 *)
Definition batch_in_storage (d : DB) (storageID id : uuid) : option Batch :=
  match db_batches d !! id with
  | Some b => if bool_decide (is_Some (product_in_storage d storageID (b_ProductID b))) then Some b else None
  | None => None
  end.

Definition requireBatchInStorage (storageID batchID : uuid) : Tx unit :=
  d ← get_db;
  require (bool_decide (is_Some (batch_in_storage d storageID batchID))) ErrNotFound.

(** ** Rules *)

(** The category's own rule, then each ancestor's, nearest first; the first row
    is also matched on storage_id. *)
Definition category_days (d : DB) (storageID categoryID : uuid) : list (option Z) :=
  let nodes := tree_nodes treeCategories d in
  if in_storage nodes storageID categoryID then
    map (fun id => db_categories d !! id ≫= cat_DefaultShelfLifeDays)
        (ancestors maxTreeDepth nodes categoryID)
  else [].

Definition rules_of (d : DB) (storageID : uuid) (p : Product) : Rules :=
  mkRules (prod_DefaultShelfLifeDays p)
    (prod_CatalogID p ≫= fun c => db_catalog d !! c ≫= cp_DefaultShelfLifeDays)
    (match prod_CategoryID p with None => [] | Some c => category_days d storageID c end)
    (prod_ItemType p).

Definition expiryRulesFor (storageID productID : uuid) : Tx Rules :=
  d ← get_db;
  p ← some_or (product_in_storage d storageID productID) ErrNotFound;
  mret (rules_of d storageID p).

Definition ResolveExpiryFor (storageID productID : uuid) (createdAt : Time) : Tx (option Time * Source) :=
  rules ← expiryRulesFor storageID productID;
  let resolution := Resolve rules in
  mret (DateFor createdAt resolution, res_Source resolution).

(** ** The cascade *)

(** The derived batches of one product, by id. *)
Definition loadDerivedBatches (d : DB) (productID : uuid) : list (uuid * Z) :=
  let derived := base.filter (fun kv : uuid * Batch =>
    b_ProductID kv.2 = productID /\ b_ExpirationSource kv.2 = ExpirationDerived) (db_batches d) in
  map (fun kv : uuid * Batch => (kv.1, b_CreatedAt kv.2)) (order_by_id derived).

Definition set_expiration (date : option Z) (source : string) (b : Batch) : Batch :=
  mkBatch (b_ProductID b) (b_LocationID b) (b_Quantity b) date source (b_CreatedAt b) (b_ContainerID b).

(** UPDATE inventory_batches SET expiration_date, expiration_source = 'derived'
    WHERE id AND expiration_source = 'derived'; returns the rows affected. *)
Definition update_derived (id : uuid) (date : option Z) : Tx Z :=
  d ← get_db;
  match db_batches d !! id with
  | Some b =>
    if String.eqb (b_ExpirationSource b) ExpirationDerived then
      modify (set_batches (<[id := set_expiration date ExpirationDerived b]>)) ;; mret 1
    else mret 0
  | None => mret 0
  end.

Fixpoint applyDerivedExpiry (batches : list (uuid * Z)) (resolution : Resolution) : Tx Z :=
  match batches with
  | [] => mret 0
  | (id, createdAt) :: batches' =>
    n ← update_derived id (date_col (DateFor (timestamp createdAt) resolution));
    m ← applyDerivedExpiry batches' resolution;
    mret (n + m)
  end.

Definition recomputeDerivedExpiry (storageID productID : uuid) : Tx Z :=
  rules ← expiryRulesFor storageID productID;
  d ← get_db;
  applyDerivedExpiry (loadDerivedBatches d productID) (Resolve rules).

Definition RecomputeDerivedExpiry (storageID productID : uuid) : Tx Z :=
  inTx (recomputeDerivedExpiry storageID productID).

(** Products filed under a category of this storage or anywhere beneath it, to
    the depth bound. *)
Definition productsUnderCategory (d : DB) (storageID categoryID : uuid) : list uuid :=
  let nodes := tree_nodes treeCategories d in
  let cats := if in_storage nodes storageID categoryID then levels maxTreeDepth nodes [categoryID] else [] in
  (map_to_list (base.filter (fun kv : uuid * Product =>
    prod_StorageID kv.2 = storageID /\
    from_option (fun c => bool_decide (c ∈ cats)) false (prod_CategoryID kv.2) = true) (db_products d))).*1.
