(* ===== verification/Containers.v ===== *)
(** * Containers: internal/store/containers.go

    What a batch is physically held in: destroying a container, the label
    upsert, detaching, and the descriptive type. *)

From S2P Require Import Prelude Gamification Db.

#[local] Open Scope string_scope.
#[local] Open Scope list_scope.
#[local] Open Scope Z_scope.

(** ** Dispositions of a split *)

Definition DispositionSource := "source".
Definition DispositionTarget := "target".
Definition DispositionBoth := "both".
Definition DispositionNeither := "neither".
Definition DispositionDestroy := "destroy".

Definition ValidContainerDisposition (d : string) : bool :=
  bool_decide (d ∈ [DispositionSource; DispositionTarget; DispositionBoth; DispositionNeither; DispositionDestroy]).

(** ** Row updates *)

Definition set_container (c : option uuid) (b : Batch) : Batch :=
  mkBatch (b_ProductID b) (b_LocationID b) (b_Quantity b) (b_ExpirationDate b) (b_ExpirationSource b)
    (b_CreatedAt b) c.

Definition set_label (label : string) (c : Container) : Container :=
  mkContainer (con_StorageID c) label (con_ContainerType c) (con_CreatedAt c) (con_DestroyedAt c).

Definition set_type (t : option string) (c : Container) : Container :=
  mkContainer (con_StorageID c) (con_Label c) t (con_CreatedAt c) (con_DestroyedAt c).

Definition set_destroyed (t : Z) (c : Container) : Container :=
  mkContainer (con_StorageID c) (con_Label c) (con_ContainerType c) (con_CreatedAt c) (Some t).

(** UPDATE containers SET ... WHERE id = $1 AND storage_id = $2 *)
Definition update_container (f : Container -> Container) (storageID id : uuid) (d : DB) : DB :=
  match db_containers d !! id with
  | Some c => if con_StorageID c =? storageID then set_containers (<[id := f c]>) d else d
  | None => d
  end.

(** UPDATE inventory_batches SET container_id = NULL WHERE container_id = $1 *)
Definition clear_container (id : uuid) (b : Batch) : Batch :=
  if bool_decide (b_ContainerID b = Some id) then set_container None b else b.

(** ** Operations *)

Definition destroyContainer (storageID containerID : uuid) : Tx unit :=
  d ← get_db;
  t ← now;
  match db_containers d !! containerID with
  | Some c =>
    if (con_StorageID c =? storageID) && bool_decide (con_DestroyedAt c = None) then
      modify (set_containers (<[containerID := set_destroyed t c]>)) ;;
      modify (set_batches (fmap (clear_container containerID)))
    else throw ErrNotFound
  | None => throw ErrNotFound
  end.

Definition DestroyContainer (storageID containerID : uuid) : Tx unit :=
  inTx (destroyContainer storageID containerID).

Definition batchContainerID (batchID : uuid) : Tx (option uuid) :=
  d ← get_db;
  b ← some_or (db_batches d !! batchID) ErrNotFound;
  mret (b_ContainerID b).

Definition upsertBatchContainerLabel (storageID batchID : uuid) (label : string) : Tx unit :=
  current ← batchContainerID batchID;
  match current with
  | Some c => modify (update_container (set_label label) storageID c)
  | None =>
    id ← newID;
    d ← get_db;
    require (bool_decide (db_containers d !! id = None) && bool_decide (storageID ∈ db_storages d)) ErrOther ;;
    t ← now;
    modify (set_containers (<[id := mkContainer storageID label None t None]>)) ;;
    modify (set_batches (alter (set_container (Some id)) batchID))
  end.

Definition detachBatchContainer (batchID : uuid) : Tx unit :=
  modify (set_batches (alter (set_container None) batchID)).

Definition setBatchContainerType (storageID batchID : uuid) (containerType : option string) : Tx unit :=
  current ← batchContainerID batchID;
  match current with
  | None => throw ErrValidation
  | Some c => modify (update_container (set_type containerType) storageID c)
  end.
