(* ===== verification/Batches.v ===== *)
(** * Batches and the ledger: internal/store/batches.go

    A batch is a quantity of one product at one location.  Every write of a
    quantity is paired, in its own transaction, with an inventory_logs row that
    explains it. *)

From S2P Require Import Prelude Gamification Expiry Db Tree Progress ShelfLife Containers.

#[local] Open Scope string_scope.
#[local] Open Scope list_scope.
#[local] Open Scope Z_scope.

(** ** Rows *)

(** A batch as the store returns it: its id, its row, and its container's label
    and type when the read joined them. *)
Record BatchView := mkBatchView {
  bv_ID : uuid;
  bv_Row : Batch;
  bv_ContainerLabel : option string;
  bv_ContainerType : option string;
}.

Record NewBatch := mkNewBatch {
  nb_ProductID : uuid;
  nb_LocationID : uuid;
  nb_Quantity : Z;
  nb_ExpirationDate : option Time;
  nb_ExpirationSource : string;
  nb_Reason : string;
  nb_CreatedBy : option uuid;
  nb_ContainerLabel : option string;
  nb_ContainerType : option string;
}.

Definition set_quantity (q : Z) (b : Batch) : Batch :=
  mkBatch (b_ProductID b) (b_LocationID b) q (b_ExpirationDate b) (b_ExpirationSource b)
    (b_CreatedAt b) (b_ContainerID b).

Definition set_location (l : uuid) (b : Batch) : Batch :=
  mkBatch (b_ProductID b) l (b_Quantity b) (b_ExpirationDate b) (b_ExpirationSource b)
    (b_CreatedAt b) (b_ContainerID b).

(** ** Statements *)

(** The constraints of inventory_batches: primary key, foreign keys, CHECKs. *)
Definition batch_row_ok (d : DB) (id : uuid) (b : Batch) : bool :=
  bool_decide (db_batches d !! id = None) &&
  bool_decide (is_Some (db_products d !! b_ProductID b)) &&
  bool_decide (is_Some (db_locations d !! b_LocationID b)) &&
  (match b_ContainerID b with None => true | Some c => bool_decide (is_Some (db_containers d !! c)) end) &&
  int4_ok (b_Quantity b) && (0 <=? b_Quantity b) &&
  bool_decide (b_ExpirationSource b ∈ [ExpirationDerived; ExpirationUser]).

Definition insert_batch (id : uuid) (b : Batch) : Tx unit :=
  d ← get_db;
  require (batch_row_ok d id b) ErrOther ;;
  modify (set_batches (<[id := b]>)).

(** UPDATE inventory_batches SET quantity = q WHERE id = $1 *)
Definition update_quantity (id : uuid) (q : Z) : Tx unit :=
  require (int4_ok q && (0 <=? q)) ErrOther ;;
  modify (set_batches (alter (set_quantity q) id)).

(** ON DELETE SET NULL on inventory_logs.batch_id *)
Definition unlink_batch (id : uuid) (l : LogRow) : LogRow :=
  if bool_decide (log_BatchID l = Some id)
  then mkLogRow (log_ID l) (log_ProductID l) None (log_ChangeQty l) (log_Reason l) (log_CreatedBy l) (log_Timestamp l)
  else l.

Definition delete_batch (id : uuid) : Tx unit :=
  modify (set_batches (delete id)) ;;
  modify (set_logs (map (unlink_batch id))).

(** The constraints of inventory_logs. *)
Definition log_row_ok (d : DB) (l : LogRow) : bool :=
  negb (bool_decide (log_ID l ∈ map log_ID (db_logs d))) &&
  bool_decide (is_Some (db_products d !! log_ProductID l)) &&
  (match log_BatchID l with None => true | Some b => bool_decide (is_Some (db_batches d !! b)) end) &&
  (match log_CreatedBy l with None => true | Some u => bool_decide (u ∈ db_users d) end) &&
  int4_ok (log_ChangeQty l) &&
  bool_decide (log_Reason l ∈ [ReasonPurchase; ReasonConsumption; ReasonAudit; ReasonVisionIngestion; ReasonMove]).

Definition writeLog (productID : uuid) (batchID : option uuid) (changeQty : Z) (reason : string)
    (userID : option uuid) : Tx unit :=
  id ← newID;
  d ← get_db;
  t ← now;
  let row := mkLogRow id productID batchID changeQty reason userID t in
  require (log_row_ok d row) ErrOther ;;
  modify (set_logs (fun logs => logs ++ [row])).

Definition view_batch (d : DB) (id : uuid) (b : Batch) : BatchView :=
  let c := b_ContainerID b ≫= fun c => db_containers d !! c in
  mkBatchView id b (con_Label <$> c) (c ≫= con_ContainerType).

Definition loadBatch (storageID batchID : uuid) : Tx BatchView :=
  d ← get_db;
  b ← some_or (batch_in_storage d storageID batchID) ErrNotFound;
  mret (view_batch d batchID b).

(** ** Creating a batch *)

Definition createBatch (storageID : uuid) (nb : NewBatch) : Tx BatchView :=
  require (negb (nb_Quantity nb <? 1)) ErrValidation ;;
  require (negb (String.eqb (nb_Reason nb) "")) ErrValidation ;;
  let source := if String.eqb (nb_ExpirationSource nb) "" then ExpirationDerived else nb_ExpirationSource nb in
  id ← newID;
  requireProductInStorage storageID (nb_ProductID nb) ;;
  requireSameStorage treeLocations storageID (nb_LocationID nb) ;;
  date ← (match nb_ExpirationDate nb with
          | None =>
            if negb (String.eqb source ExpirationUser) then
              rules ← expiryRulesFor storageID (nb_ProductID nb);
              clock ← time_Now;
              mret (DateFor (timestamp clock) (Resolve rules))
            else mret None
          | Some date => mret (Some date)
          end);
  t ← now;
  let row := mkBatch (nb_ProductID nb) (nb_LocationID nb) (nb_Quantity nb) (date_col date) source t None in
  insert_batch id row ;;
  (match nb_ContainerLabel nb with
   | Some label => upsertBatchContainerLabel storageID id label
   | None => mret tt
   end) ;;
  (match nb_ContainerType nb with
   | Some _ => setBatchContainerType storageID id (nb_ContainerType nb)
   | None => mret tt
   end) ;;
  writeLog (nb_ProductID nb) (Some id) (nb_Quantity nb) (nb_Reason nb) (nb_CreatedBy nb) ;;
  bumpForLedgerReason storageID (nb_CreatedBy nb) (nb_Reason nb) id ;;
  if bool_decide (is_Some (nb_ContainerLabel nb)) || bool_decide (is_Some (nb_ContainerType nb))
  then loadBatch storageID id
  else mret (mkBatchView id row None None).

Definition CreateBatch (storageID : uuid) (nb : NewBatch) : Tx BatchView :=
  inTx (createBatch storageID nb).

(** ** Adjusting a batch *)

Definition adjustBatch (storageID batchID : uuid) (delta : Z) (reason : string) (userID : option uuid) : Tx uuid :=
  d ← get_db;
  b ← some_or (batch_in_storage d storageID batchID) ErrNotFound;
  let productID := b_ProductID b in
  let updated := wrap64 (b_Quantity b + delta) in
  require (negb (updated <? 0)) ErrValidation ;;
  if updated =? 0 then
    delete_batch batchID ;;
    writeLog productID None delta reason userID ;;
    bumpForLedgerReason storageID userID reason batchID ;;
    mret productID
  else
    update_quantity batchID updated ;;
    writeLog productID (Some batchID) delta reason userID ;;
    bumpForLedgerReason storageID userID reason batchID ;;
    mret productID.

Definition AdjustBatch (storageID batchID : uuid) (delta : Z) (reason : string) (userID : option uuid) : Tx unit :=
  require (negb (delta =? 0)) ErrValidation ;;
  require (negb (String.eqb reason "")) ErrValidation ;;
  inTx (adjustBatch storageID batchID delta reason userID ;; mret tt).

(** ** Splitting a batch *)

Record SplitBatchInput := mkSplit {
  sp_Quantity : Z;
  sp_TargetLocationID : uuid;
  sp_ContainerDisposition : string;
}.

(** What the disposition does to the source's container before the target row
    exists, and the container the target row is inserted with. *)
Definition split_container (storageID batchID : uuid) (disposition : string) (container : option uuid) : Tx (option uuid) :=
  match container with
  | None => mret None
  | Some c =>
    (if bool_decide (disposition ∈ [DispositionSource; DispositionBoth]) then mret tt
     else if bool_decide (disposition ∈ [DispositionTarget; DispositionNeither]) then detachBatchContainer batchID
     else if String.eqb disposition DispositionDestroy then destroyContainer storageID c
     else mret tt) ;;
    mret (if bool_decide (disposition ∈ [DispositionTarget; DispositionBoth]) then Some c else None)
  end.

Definition SplitBatch (storageID batchID : uuid) (sp : SplitBatchInput) (userID : option uuid) : Tx BatchView :=
  let disposition := if String.eqb (sp_ContainerDisposition sp) "" then DispositionSource
                     else sp_ContainerDisposition sp in
  require (ValidContainerDisposition disposition) ErrValidation ;;
  newBatchID ← newID;
  inTx (
    d ← get_db;
    source ← some_or (batch_in_storage d storageID batchID) ErrNotFound;
    require (negb ((sp_Quantity sp <? 1) || (sp_Quantity sp >? b_Quantity source - 1))) ErrValidation ;;
    requireSameStorage treeLocations storageID (sp_TargetLocationID sp) ;;
    update_quantity batchID (b_Quantity source - sp_Quantity sp) ;;
    targetContainerID ← split_container storageID batchID disposition (b_ContainerID source);
    t ← now;
    insert_batch newBatchID (mkBatch (b_ProductID source) (sp_TargetLocationID sp) (sp_Quantity sp)
      (b_ExpirationDate source) (b_ExpirationSource source) t targetContainerID) ;;
    writeLog (b_ProductID source) (Some batchID) (wrap64 (- sp_Quantity sp)) ReasonMove userID ;;
    writeLog (b_ProductID source) (Some newBatchID) (sp_Quantity sp) ReasonMove userID ;;
    loadBatch storageID newBatchID).

(** ** Patching a batch *)

Record BatchPatch := mkBatchPatch {
  bp_Quantity : option Z;
  bp_LocationID : option uuid;
  bp_SetContainerLabel : bool;
  bp_ContainerLabel : option string;
  bp_SetContainerType : bool;
  bp_ContainerType : option string;
}.

Definition touchesContainer (p : BatchPatch) : bool := bp_SetContainerLabel p || bp_SetContainerType p.

Definition setBatchQuantity (storageID batchID : uuid) (quantity : Z) (userID : option uuid) : Tx (uuid * bool) :=
  require (negb (quantity <? 0)) ErrValidation ;;
  d ← get_db;
  b ← some_or (batch_in_storage d storageID batchID) ErrNotFound;
  if quantity =? b_Quantity b then mret (b_ProductID b, false)
  else
    adjustBatch storageID batchID (wrap64 (quantity - b_Quantity b)) ReasonAudit userID ;;
    mret (b_ProductID b, true).

Definition moveBatch (storageID batchID targetLocationID : uuid) (userID : option uuid) : Tx BatchView :=
  d ← get_db;
  b ← some_or (batch_in_storage d storageID batchID) ErrNotFound;
  requireSameStorage treeLocations storageID targetLocationID ;;
  if b_LocationID b =? targetLocationID then loadBatch storageID batchID
  else
    modify (set_batches (alter (set_location targetLocationID) batchID)) ;;
    writeLog (b_ProductID b) (Some batchID) (wrap64 (- b_Quantity b)) ReasonMove userID ;;
    writeLog (b_ProductID b) (Some batchID) (b_Quantity b) ReasonMove userID ;;
    mret (mkBatchView batchID (set_location targetLocationID b) None None).

(** The container half of a patch. *)
Definition patch_container (storageID batchID : uuid) (patch : BatchPatch) : Tx unit :=
  if touchesContainer patch then
    loadBatch storageID batchID ;;
    (if bp_SetContainerLabel patch then
       match bp_ContainerLabel patch with
       | None => detachBatchContainer batchID
       | Some label => upsertBatchContainerLabel storageID batchID label
       end
     else mret tt) ;;
    (if bp_SetContainerType patch then setBatchContainerType storageID batchID (bp_ContainerType patch)
     else mret tt)
  else mret tt.

(** The rest of the transaction once the quantity is set and the row remains. *)
Definition patch_rest (storageID batchID : uuid) (patch : BatchPatch) (userID : option uuid) : Tx (option BatchView) :=
  patch_container storageID batchID patch ;;
  (match bp_LocationID patch with
   | Some l => moveBatch storageID batchID l userID ;; mret tt
   | None => mret tt
   end) ;;
  batch ← loadBatch storageID batchID;
  mret (Some batch).

Definition UpdateBatch (storageID batchID : uuid) (patch : BatchPatch) (userID : option uuid) : Tx (option BatchView) :=
  let zero := bool_decide (bp_Quantity patch = Some 0) in
  require (negb (bool_decide (bp_Quantity patch = None) && bool_decide (bp_LocationID patch = None)
                 && negb (touchesContainer patch))) ErrValidation ;;
  require (negb (zero && bool_decide (is_Some (bp_LocationID patch)))) ErrValidation ;;
  require (negb (zero && touchesContainer patch)) ErrValidation ;;
  inTx (
    match bp_Quantity patch with
    | Some q =>
      setBatchQuantity storageID batchID q userID ;;
      if q =? 0 then mret None else patch_rest storageID batchID patch userID
    | None => patch_rest storageID batchID patch userID
    end).

(** ** Expiration edits (expiry.go) *)

Definition SetBatchExpiration (storageID batchID : uuid) (date : option Time) (userID : option uuid) : Tx BatchView :=
  inTx (
    requireBatchInStorage storageID batchID ;;
    modify (set_batches (alter (set_expiration (date_col date) ExpirationUser) batchID)) ;;
    out ← loadBatch storageID batchID;
    (match userID with
     | Some u => recordContribution storageID u KindExpiryConfirmed (Some batchID) None
     | None => mret tt
     end) ;;
    mret out).

Definition ResetBatchExpirationToDerived (storageID batchID : uuid) : Tx BatchView :=
  inTx (
    d ← get_db;
    b ← some_or (batch_in_storage d storageID batchID) ErrNotFound;
    rules ← expiryRulesFor storageID (b_ProductID b);
    let date := DateFor (timestamp (b_CreatedAt b)) (Resolve rules) in
    modify (set_batches (alter (set_expiration (date_col date) ExpirationDerived) batchID)) ;;
    loadBatch storageID batchID).

(** ** Reading the ledger *)

(** CurrentStock (products.go): the sum over a product's batches. *)
Definition stock (d : DB) (productID : uuid) : Z :=
  msum (fun b => if b_ProductID b =? productID then b_Quantity b else 0) (db_batches d).

Definition CurrentStock (storageID productID : uuid) : Tx Z :=
  d ← get_db;
  mret (match product_in_storage d storageID productID with
        | Some _ => stock d productID
        | None => 0
        end).

(** What a product's log rows sum to. *)
Definition ledger (d : DB) (productID : uuid) : Z :=
  lsum (fun l => if log_ProductID l =? productID then log_ChangeQty l else 0) (db_logs d).
