(* ===== verification/Recompute.v ===== *)
(** * The nightly rebuild and the holiday weeks: internal/store/gamification.go

    user_progress is a cache: the nightly job rebuilds every row of it from the two
    ledgers.  A user's holiday weeks pause the streak, within a budget of eight in
    any 52 weeks. *)

From S2P Require Import Prelude Gamification Db Tree Progress.

#[local] Open Scope string_scope.
#[local] Open Scope list_scope.
#[local] Open Scope Z_scope.

(** ** The ledgers as scoring events *)

(** A (storage, user) pair. *)
Abbreviation progressPair := (uuid * uuid)%type (only parsing).

(** out[pair] = append(out[pair], e) *)
Definition add_event (out : gmap progressPair (list Event)) (pe : progressPair * Event) : gmap progressPair (list Event) :=
  <[pe.1 := default [] (out !! pe.1) ++ [pe.2]]> out.

(** The event of a log row that scores, with the storage of its product. *)
Definition ledger_event (d : DB) (l : LogRow) : option (progressPair * Event) :=
  match db_products d !! log_ProductID l, log_CreatedBy l with
  | Some p, Some u =>
    if bool_decide (log_Reason l ∈ ["purchase"; "consumption"; "vision_ingestion"]) then
      xp ← XPForLedgerReason (log_Reason l);
      Some ((prod_StorageID p, u), mkEvent (log_ProductID l) (log_Reason l) (log_Timestamp l) xp)
    else None
  | _, _ => None
  end.

Definition contribution_event (c : ContributionEvent) : progressPair * Event :=
  ((ce_StorageID c, ce_UserID c),
   mkEvent (default (ce_ID c) (ce_RefID c)) (ce_Kind c) (ce_CreatedAt c) (XPForContribution (ce_Kind c))).

Definition scoring_events (d : DB) : list (progressPair * Event) :=
  omap (ledger_event d) (db_logs d) ++ map contribution_event (db_contributions d).

Definition allScoringEvents (d : DB) : gmap progressPair (list Event) := foldl add_event ∅ (scoring_events d).

Definition existingProgressPairs (d : DB) : gset progressPair := dom (db_progress d).

(** A pair with a cached row and no event left is recomputed too, from nothing. *)
Definition recomputeSnapshot (d : DB) : gmap progressPair (list Event) :=
  allScoringEvents d ∪ gset_to_gmap [] (existingProgressPairs d).

(** ** One pair *)

(** SELECT week_start FROM holiday_weeks WHERE user_id = $1 *)
Definition loadHolidayWeeks (d : DB) (userID : uuid) : gset Z :=
  set_map snd (base.filter (fun uw : uuid * Z => uw.1 = userID) (db_holidays d)).

(** The loop of computeStreakWeeks: [None] when the fuel runs out. *)
Fixpoint streak_loop (fuel : nat) (activeWeeks holidayWeeks : gset Z) (week streak : Z) (current : bool) : option Z :=
  match fuel with
  | O => None
  | S fuel' =>
    if bool_decide (week ∈ holidayWeeks) then streak_loop fuel' activeWeeks holidayWeeks (week - 7) streak false
    else if bool_decide (week ∈ activeWeeks) then streak_loop fuel' activeWeeks holidayWeeks (week - 7) (streak + 1) false
    else if current then streak_loop fuel' activeWeeks holidayWeeks (week - 7) streak false
    else Some streak
  end.

(** Every turn but the first and the last meets another week of the two sets. *)
Definition computeStreakWeeks (activeWeeks holidayWeeks : gset Z) (nowT : Z) : option Z :=
  streak_loop (size (activeWeeks ∪ holidayWeeks) + 2) activeWeeks holidayWeeks (mondayOf nowT) 0 true.

Definition active_weeks (events : list Event) : gset Z := list_to_set (map (fun e => mondayOf (ev_At e)) events).

(** The latest active week, as the loop over the events finds it. *)
Definition last_active (events : list Event) : option Z :=
  foldl (fun lastActive e =>
    let week := mondayOf (ev_At e) in
    match lastActive with
    | None => Some week
    | Some l => if l <? week then Some week else Some l
    end) None events.

Definition recomputeOnePair (storageID userID : uuid) (events : list Event) : Tx unit :=
  inTx (
    d ← get_db;
    let holidayWeeks := loadHolidayWeeks d userID in
    let xp := Coalesce events in
    clock ← time_Now;
    streak ← some_or (computeStreakWeeks (active_weeks events) holidayWeeks clock) ErrOther;
    require ((bool_decide (is_Some (db_progress d !! (storageID, userID))) || fk_storage_user d storageID userID)
             && int4_ok xp && int4_ok (Level xp) && int4_ok streak) ErrOther ;;
    modify (set_progress (<[(storageID, userID) := mkProgress xp (Level xp) streak (last_active events)]>)) ;;
    for_each (unlockAchievement storageID userID) (SteadyHandTiersReached streak)).

(** ** Every pair *)

(** The loop over the snapshot, in the order Go happens to range over the map; the
    number of pairs rebuilt.  An error ends it, and keeps what was rebuilt. *)
Fixpoint recompute_pairs (pairs : list (progressPair * list Event)) : Tx Z :=
  match pairs with
  | [] => mret 0
  | (key, events) :: pairs' =>
    recomputeOnePair key.1 key.2 events ;;
    n ← recompute_pairs pairs';
    mret (n + 1)
  end.

(** [range_ pairs] is one of the orders Go may range over a map with. *)
Definition RecomputeAllProgress (range_ : list (progressPair * list Event) -> list (progressPair * list Event)) : Tx Z :=
  d ← get_db;
  recompute_pairs (range_ (map_to_list (recomputeSnapshot d))).

Definition UserProgressInStorage (d : DB) (storageID userID : uuid) : UserProgress :=
  default (mkProgress 0 1 0 None) (db_progress d !! (storageID, userID)).

(** ** Holiday weeks *)

(** A week as the instant time.Time holds: its Monday at midnight. *)
Definition instant (week : Z) : Z := week * day.

Definition toSlice (weeks : gset Z) : list Z := map instant (elements weeks).

Definition newlyExceedsBudget (existing final : gset Z) : bool :=
  if bool_decide (final ⊆ existing) then false
  else MaxWeeksInWindow (toSlice final) >? HolidayBudgetWeeks.

(** The past and current weeks on record, with the weeks requested. *)
Definition final_weeks (current : Z) (existing requested : gset Z) : gset Z :=
  base.filter (fun w => w <= current) existing ∪ requested.

Definition setHolidayWeeksTx (userID : uuid) (weeks : list Z) : Tx unit :=
  let requested := list_to_set (map mondayOf weeks) : gset Z in
  d ← get_db;
  let existing := loadHolidayWeeks d userID in
  clock ← time_Now;
  let current := mondayOf clock in
  require (negb (existsb (fun w => (w <? current) && negb (bool_decide (w ∈ existing))) (elements requested))) ErrValidation ;;
  let final := final_weeks current existing requested in
  require (negb (newlyExceedsBudget existing final)) ErrConflict ;;
  modify (set_holidays (base.filter (fun uw : uuid * Z => ~ (uw.1 = userID /\ current < uw.2)))) ;;
  let inserted := base.filter (fun w => current < w \/ (w = current /\ w ∉ existing)) final in
  require (bool_decide (inserted = ∅) || bool_decide (userID ∈ db_users d)) ErrOther ;;
  modify (set_holidays (union (set_map (fun w => (userID, w)) inserted))).

Definition SetHolidayWeeks (userID : uuid) (weeks : list Z) : Tx unit := inTx (setHolidayWeeksTx userID weeks).

(** ** Preferences *)

(** gamification_enabled, TRUE for a user without a row, and the weeks, in no order. *)
Definition UserPreferencesFor (userID : uuid) : Tx (bool * gset Z) :=
  d ← get_db;
  mret (default true (db_preferences d !! userID), loadHolidayWeeks d userID).

Definition setGamificationEnabledTx (userID : uuid) (enabled : bool) : Tx unit :=
  d ← get_db;
  require (bool_decide (is_Some (db_preferences d !! userID)) || bool_decide (userID ∈ db_users d)) ErrOther ;;
  modify (set_preferences (<[userID := enabled]>)).

Definition SetGamificationEnabled (userID : uuid) (enabled : bool) : Tx unit := setGamificationEnabledTx userID enabled.

Definition SetPreferences (userID : uuid) (enabled : bool) (weeks : list Z) : Tx unit :=
  inTx (
    setGamificationEnabledTx userID enabled ;;
    setHolidayWeeksTx userID weeks).
