(* ===== verification/Weekly.v ===== *)
(** * The weekly quests and the household's achievements: internal/store
    (quests.go, achievements.go, gamification.go)

    Once a week every storage is given up to three quests, chosen from eight
    generators evaluated on its tables; a week in which none fires extends the clean
    streak, whose milestones pay every member.  Once a night the storage-wide
    achievements are evaluated. *)

From stdpp Require Import pretty.
From S2P Require Import Prelude Gamification Text Expiry Db Tree Progress Batches Recompute.

#[local] Open Scope string_scope.
#[local] Open Scope list_scope.
#[local] Open Scope Z_scope.

(** ** Candidates *)

Definition consumptionHygieneQuestTarget : Z := 1.
Definition staleLocationQuestTarget : Z := 1.

Definition missingExpiryThreshold : nat := 5.
Definition uncategorizedThreshold : nat := 5.
Definition imagelessThreshold : nat := 5.
Definition untrackedReorderThreshold : nat := 5.
Definition expiringSoonThreshold : nat := 3.
Definition firstMileProductCeiling : Z := 10.
Definition staleLocationDays : Z := 90.
Definition consumptionHygieneDays : Z := 14.

(** SELECT id FROM products WHERE storage_id = $1 AND ... ORDER BY id *)
Definition product_ids (d : DB) (storageID : uuid) (f : Product -> bool) : list uuid :=
  (order_by_id (base.filter (fun kv : uuid * Product => prod_StorageID kv.2 = storageID /\ f kv.2 = true) (db_products d))).*1.

(** FROM inventory_batches b JOIN products p WHERE p.storage_id = $1 AND ..., by id. *)
Definition batch_rows (d : DB) (storageID : uuid) (f : Product -> Batch -> bool) : list (uuid * Batch) :=
  order_by_id (base.filter (fun kv : uuid * Batch =>
    match db_products d !! b_ProductID kv.2 with
    | Some p => (prod_StorageID p =? storageID) && f p kv.2
    | None => false
    end = true) (db_batches d)).

Definition no_candidate (generator : string) : Candidate QuestParams :=
  mkCandidate generator false (float64_of_int 0) 0 NoParams.

Definition idListCandidate (generator : string) (threshold : nat) (ids : list uuid) : Candidate QuestParams :=
  if (Datatypes.length ids <? threshold)%nat then no_candidate generator
  else
    let need := float64_of_int (Z.of_nat (Datatypes.length ids)) in
    let ids := take threshold ids in
    mkCandidate generator true need (Z.of_nat (Datatypes.length ids)) (IdList ids).

Definition dated_type (p : Product) : bool := bool_decide (prod_ItemType p ∈ [Perishable; LongShelfLife]).

Definition missing_expiry_ids (d : DB) (storageID : uuid) : list uuid :=
  (batch_rows d storageID (fun p b => dated_type p && is_nil (b_ExpirationDate b) && (b_Quantity b >? 0))).*1.

Definition uncategorized_ids (d : DB) (storageID : uuid) : list uuid :=
  product_ids d storageID (fun p => is_nil (prod_CategoryID p)).

Definition imageless_ids (d : DB) (storageID : uuid) : list uuid :=
  product_ids d storageID (fun p => is_nil (prod_ImageURL p) && is_nil (prod_IconName p)).

Definition untracked_ids (d : DB) (storageID : uuid) : list uuid :=
  product_ids d storageID (fun p => prod_MinStock p =? 0).

(** Dates in the range CURRENT_DATE ... CURRENT_DATE + 2. *)
Definition expires_soon (today : Z) (b : Batch) : bool :=
  match b_ExpirationDate b with Some e => (today <=? e) && (e <? today + 3) | None => false end.

Definition earlier_date (a b : uuid * Batch) : Prop :=
  default 0 (b_ExpirationDate a.2) <= default 0 (b_ExpirationDate b.2).

#[export] Instance earlier_date_dec : RelDecision earlier_date.
Proof. intros a b. unfold earlier_date. apply _. Defined.

Definition expiring_soon_ids (d : DB) (today : Z) (storageID : uuid) : list uuid :=
  (merge_sort earlier_date (batch_rows d storageID (fun _ b => (b_Quantity b >? 0) && expires_soon today b))).*1.

(** The latest of the instants, as MAX. *)
Definition latest (l : list Z) : option Z :=
  foldr (fun t acc => Some (match acc with Some u => Z.max t u | None => t end)) None l.

(** MAX(il.timestamp) over the log rows of the batches that are at the location. *)
Definition last_activity (d : DB) (locationID : uuid) : option Z :=
  latest (omap (fun l =>
    bid ← log_BatchID l;
    b ← db_batches d !! bid;
    if b_LocationID b =? locationID then Some (log_Timestamp l) else None) (db_logs d)).

Definition holds_batch (d : DB) (locationID : uuid) : bool :=
  existsb (fun kv : uuid * Batch => b_LocationID kv.2 =? locationID) (map_to_list (db_batches d)).

(** ORDER BY MAX(il.timestamp) ASC NULLS FIRST *)
Definition longer_idle (a b : uuid * Location * option Z) : Prop :=
  match a.2, b.2 with
  | None, _ => True
  | Some _, None => False
  | Some x, Some y => x <= y
  end.

#[export] Instance longer_idle_dec : RelDecision longer_idle.
Proof. intros a b. unfold longer_idle. destruct a.2, b.2; apply _. Defined.

Definition stale_locations (d : DB) (nowT : Z) (storageID : uuid) : list (uuid * Location * option Z) :=
  merge_sort longer_idle
    (base.filter (fun r : uuid * Location * option Z =>
       match r.2 with None => true | Some t => t <? nowT - staleLocationDays * day end = true)
      (map (fun kv : uuid * Location => (kv, last_activity d kv.1))
        (order_by_id (base.filter (fun kv : uuid * Location =>
           loc_StorageID kv.2 = storageID /\ holds_batch d kv.1 = true) (db_locations d))))).

(** [t.Month()] of a UTC time: the month of a day number, from the 400-year cycle of
    the Gregorian calendar counted from the first of March of year 0. *)
Definition month_of (d : Z) : nat :=
  let doe := (d + 719468) mod 146097 in
  let yoe := (doe - doe / 1460 + doe / 36524 - doe / 146096) / 365 in
  let doy := doe - (365 * yoe + yoe / 4 - yoe / 100) in
  Z.to_nat ((5 * doy + 2) / 153).

Definition month_names : list string :=
  ["March"; "April"; "May"; "June"; "July"; "August"; "September"; "October"; "November"; "December"; "January"; "February"].

(** [t.Month().String()]; the server's zone is taken to be UTC here. *)
Definition MonthString (t : Z) : string := default "" (month_names !! month_of (t / day)).

(** [time.Since(t).Hours() / 24] *)
Definition days_since (clock t : Z) : float64 := f_div (Hours (time_Sub clock t)) (float64_of_int 24).

Definition staleLocationCandidate (d : DB) (nowT clock : Z) (storageID : uuid) : Candidate QuestParams :=
  match stale_locations d nowT storageID with
  | [] => no_candidate GeneratorStaleLocation
  | (locationID, l, lastActive) :: _ =>
    let need := match lastActive with Some t => days_since clock t | None => float64_of_int staleLocationDays end in
    let sinceMonth := match lastActive with Some t => MonthString t | None => "" end in
    mkCandidate GeneratorStaleLocation true need staleLocationQuestTarget (StaleLocation locationID (loc_Name l) sinceMonth)
  end.

Definition last_consumption (d : DB) (storageID : uuid) : option Z :=
  latest (omap (fun l =>
    p ← db_products d !! log_ProductID l;
    if (prod_StorageID p =? storageID) && String.eqb (log_Reason l) "consumption" then Some (log_Timestamp l) else None)
    (db_logs d)).

Definition anyone_on_holiday (d : DB) (storageID week : Z) : bool :=
  existsb (fun uw : uuid * Z => (uw.2 =? week) && bool_decide ((storageID, uw.1) ∈ db_members d)) (elements (db_holidays d)).

Definition consumptionHygieneCandidate (d : DB) (clock : Z) (storageID : uuid) : Candidate QuestParams :=
  if anyone_on_holiday d storageID (mondayOf clock) then no_candidate GeneratorConsumptionHygiene
  else
    let lastConsumption := last_consumption d storageID in
    let need := match lastConsumption with Some t => days_since clock t | None => float64_of_int consumptionHygieneDays end in
    let fires := match lastConsumption with Some _ => f_ge need (float64_of_int consumptionHygieneDays) | None => true end in
    if negb fires then no_candidate GeneratorConsumptionHygiene
    else mkCandidate GeneratorConsumptionHygiene true need consumptionHygieneQuestTarget NoParams.

Definition count_products_where (d : DB) (storageID : uuid) (f : Product -> bool) : Z :=
  Z.of_nat (Datatypes.length (product_ids d storageID f)).

Definition count_products (d : DB) (storageID : uuid) : Z := count_products_where d storageID (fun _ => true).

Definition firstMileCandidate (d : DB) (storageID : uuid) : Candidate QuestParams :=
  let count := count_products d storageID in
  if firstMileProductCeiling <=? count then no_candidate GeneratorFirstMile
  else mkCandidate GeneratorFirstMile true (f_mul (float64_of_int (firstMileProductCeiling - count)) (float64_of_int 10))
         (firstMileProductCeiling - count) (FirstMile count).

(** The candidates in the order of the table, from the rows as they are. *)
Definition candidates_of (d : DB) (nowT clock : Z) (storageID : uuid) : list (Candidate QuestParams) :=
  [ staleLocationCandidate d nowT clock storageID;
    idListCandidate GeneratorMissingExpiry missingExpiryThreshold (missing_expiry_ids d storageID);
    idListCandidate GeneratorUncategorized uncategorizedThreshold (uncategorized_ids d storageID);
    idListCandidate GeneratorImageless imagelessThreshold (imageless_ids d storageID);
    idListCandidate GeneratorUntrackedReorder untrackedReorderThreshold (untracked_ids d storageID);
    idListCandidate GeneratorExpiringSoon expiringSoonThreshold (expiring_soon_ids d (nowT / day) storageID);
    consumptionHygieneCandidate d clock storageID;
    firstMileCandidate d storageID ].

Definition gatherQuestCandidates (storageID : uuid) : Tx (list (Candidate QuestParams)) :=
  d ← get_db;
  nowT ← now;
  clock ← time_Now;
  mret (candidates_of d nowT clock storageID).

(** ** The clean streak *)

(** INSERT INTO storage_gamification_settings (storage_id) ... ON CONFLICT DO NOTHING *)
Definition ensure_settings (storageID : uuid) : Tx unit :=
  d ← get_db;
  match db_gsettings d !! storageID with
  | Some _ => mret tt
  | None =>
    require (bool_decide (storageID ∈ db_storages d)) ErrOther ;;
    modify (set_gsettings (<[storageID := mkGSettings false 20 None None]>))
  end.

Definition settings_row (storageID : uuid) : Tx GSettings :=
  d ← get_db;
  some_or (db_gsettings d !! storageID) ErrOther.

Definition set_clean_since (v : option Z) (g : GSettings) : GSettings :=
  mkGSettings (gs_LeaderboardEnabled g) (gs_WeeklyGoalItems g) v (gs_WellStockedSince g).

Definition set_well_stocked_since (v : option Z) (g : GSettings) : GSettings :=
  mkGSettings (gs_LeaderboardEnabled g) (gs_WeeklyGoalItems g) (gs_CleanSince g) v.

Definition update_settings (f : GSettings -> GSettings) (storageID : uuid) : Tx unit :=
  modify (set_gsettings (alter f storageID)).

(** The members, in the order of the ids where the query leaves it open. *)
Definition storageMemberIDs (storageID : uuid) : Tx (list uuid) :=
  d ← get_db;
  mret (elements (base.filter (fun su : uuid * uuid => su.1 = storageID) (db_members d))).*2.

Definition milestone_key (k : MilestoneKey) : string :=
  match k with FixedKey k => k | YearKey y => ("immaculate_year_" ++ pretty y)%string end.

(** [xp] once, when the key is new for the member. *)
Definition pay_once (storageID userID : uuid) (key : string) (xp : Z) : Tx unit :=
  inserted ← achievementNewlyUnlocked storageID userID key;
  if inserted : bool then clock ← time_Now; bumpProgress storageID userID xp clock else mret tt.

Definition pay_milestones (storageID : uuid) (milestones : list ImmaculateMilestone) (members : list uuid) : Tx unit :=
  for_each (fun m => for_each (fun u => pay_once storageID u (milestone_key (im_Key m)) (im_XP m)) members) milestones.

(** [int(weekStart.Sub( *cleanSince).Hours() / 24)], of two midnights. *)
Definition clean_days (weekStart since : Z) : Z :=
  int_trunc (f_div (Hours (time_Sub (weekStart * day) (since * day))) (float64_of_int 24)).

Definition updateCleanStreak (storageID weekStart : Z) (allClear : bool) : Tx unit :=
  ensure_settings storageID ;;
  row ← settings_row storageID;
  if negb allClear then
    match gs_CleanSince row with
    | Some _ => update_settings (set_clean_since None) storageID
    | None => mret tt
    end
  else
    match gs_CleanSince row with
    | None => update_settings (set_clean_since (Some weekStart)) storageID
    | Some since =>
      match ImmaculateMilestonesReached (clean_days weekStart since) with
      | [] => mret tt
      | milestones => members ← storageMemberIDs storageID; pay_milestones storageID milestones members
      end
    end.

(** ** Generation *)

Definition same_quest (storageID weekStart : Z) (generator : string) (kv : uuid * Quest) : bool :=
  (q_StorageID kv.2 =? storageID) && (q_WeekStart kv.2 =? weekStart) && String.eqb (q_Generator kv.2) generator.

Definition has_quest (d : DB) (storageID weekStart : Z) (generator : string) : bool :=
  existsb (same_quest storageID weekStart generator) (map_to_list (db_quests d)).

Definition candidate_quest (storageID weekStart : Z) (c : Candidate QuestParams) : Quest :=
  mkQuest storageID weekStart (c_Generator c) (c_Params c) (c_TargetCount c) (XPForGenerator (c_Generator c)) None.

(** INSERT INTO quests ... ON CONFLICT (storage_id, week_start, generator) DO NOTHING *)
Definition insert_quest (storageID weekStart : Z) (c : Candidate QuestParams) : Tx unit :=
  id ← newID;
  d ← get_db;
  if has_quest d storageID weekStart (c_Generator c) then mret tt
  else
    require (bool_decide (db_quests d !! id = None) && bool_decide (storageID ∈ db_storages d)
             && int4_ok (c_TargetCount c)) ErrOther ;;
    modify (set_quests (<[id := candidate_quest storageID weekStart c]>)).

Definition GenerateWeeklyQuests (storageID t : Z) : Tx unit :=
  let weekStart := mondayOf t in
  inTx (
    candidates ← gatherQuestCandidates storageID;
    let selected := SelectQuests candidates in
    for_each (insert_quest storageID weekStart) selected ;;
    updateCleanStreak storageID weekStart (match selected with [] => true | _ => false end)).

(** ** Reading the week *)

Record QuestsSnapshot := mkSnapshot {
  snap_WeekStart : Z;
  (** each quest with its progress *)
  snap_Quests : list (uuid * Quest * Z);
  snap_CleanStreakDays : Z;
  snap_IsComeback : bool;
  snap_WeeklyGoalTarget : Z;
  snap_WeeklyGoalCurrent : Z;
}.

(** The rows of one storage and week, ORDER BY xp_reward DESC; equal rewards in the
    order of the ids. *)
Definition better_paid (a b : uuid * Quest) : Prop := q_XPReward b.2 <= q_XPReward a.2.

#[export] Instance better_paid_dec : RelDecision better_paid.
Proof. intros a b. unfold better_paid. apply _. Defined.

Definition quests_of_week (d : DB) (storageID weekStart : Z) : list (uuid * Quest) :=
  merge_sort better_paid (order_by_id (base.filter (fun kv : uuid * Quest =>
    q_StorageID kv.2 = storageID /\ q_WeekStart kv.2 = weekStart) (db_quests d))).

Definition shown_progress (d : DB) (nowT : Z) (storageID : uuid) (q : Quest) : Z :=
  if bool_decide (is_Some (q_CompletedAt q)) then q_TargetCount q else questProgress d nowT storageID q.

(** count(DISTINCT l.product_id) of the scoring rows since the week began. *)
Definition weekly_goal_current (d : DB) (storageID weekStart : Z) : Z :=
  Z.of_nat (size (list_to_set (omap (fun l =>
    p ← db_products d !! log_ProductID l;
    if (prod_StorageID p =? storageID) && bool_decide (log_Reason l ∈ ["purchase"; "consumption"; "vision_ingestion"])
       && (log_Timestamp l >=? weekStart * day)
    then Some (log_ProductID l) else None) (db_logs d)) : gset uuid)).

Definition count_week (d : DB) (storageID weekStart : Z) : nat := Datatypes.length (quests_of_week d storageID weekStart).

(** The queries of one request, with nothing between them here. *)
Definition QuestsForStorage (storageID : uuid) : Tx QuestsSnapshot :=
  clock ← time_Now;
  nowT ← now;
  d ← get_db;
  let weekStart := mondayOf clock in
  let quests := quests_of_week d storageID weekStart in
  let settings := db_gsettings d !! storageID in
  mret (mkSnapshot weekStart
    (map (fun kv => (kv, shown_progress d nowT storageID kv.2)) quests)
    (match settings ≫= gs_CleanSince with
     | Some since => int_trunc (days_since clock (since * day))
     | None => 0
     end)
    (negb (is_nil (head quests)) && (count_week d storageID (weekStart - 7) =? 0)%nat
       && (count_week d storageID (weekStart - 14) =? 0)%nat)
    (match settings with Some g => gs_WeeklyGoalItems g | None => 20 end)
    (weekly_goal_current d storageID weekStart)).

(** ** Settings *)

Definition StorageGamificationSettingsFor (storageID : uuid) : Tx (bool * Z) :=
  d ← get_db;
  mret (match db_gsettings d !! storageID with
        | Some g => (gs_LeaderboardEnabled g, gs_WeeklyGoalItems g)
        | None => (false, 20)
        end).

Definition set_toggles (enabled : bool) (goal : Z) (g : GSettings) : GSettings :=
  mkGSettings enabled goal (gs_CleanSince g) (gs_WellStockedSince g).

(** The upsert checks the foreign key of a new row only; weekly_goal_items is an INT. *)
Definition UpdateStorageGamificationSettings (storageID : uuid) (leaderboardEnabled : bool) (weeklyGoalItems : Z) : Tx unit :=
  require (negb (weeklyGoalItems <? 0)) ErrValidation ;;
  d ← get_db;
  require (int4_ok weeklyGoalItems
           && (bool_decide (is_Some (db_gsettings d !! storageID)) || bool_decide (storageID ∈ db_storages d))) ErrOther ;;
  modify (set_gsettings (fun m =>
    <[storageID := set_toggles leaderboardEnabled weeklyGoalItems (default (mkGSettings false 20 None None) (m !! storageID))]> m)).

(** ** The household's achievements *)

(** [float64(n) / float64(total) * 100] *)
Definition pct (n total : Z) : float64 :=
  f_mul (f_div (float64_of_int n) (float64_of_int total)) (float64_of_int 100).

Definition recently_active (d : DB) (nowT : Z) (storageID : uuid) : Z :=
  Z.of_nat (Datatypes.length (base.filter (fun id =>
    existsb (fun l => (log_ProductID l =? id) && (log_Timestamp l >? nowT - 180 * day)) (db_logs d) = true)
    (product_ids d storageID (fun _ => true)))).

Definition healthScore (d : DB) (nowT : Z) (storageID : uuid) : float64 :=
  let total := count_products d storageID in
  if total =? 0 then float64_of_int 0
  else
    let share f := pct (count_products_where d storageID f) total in
    let eligible := batch_rows d storageID (fun p _ => dated_type p) in
    let tracked := batch_rows d storageID (fun p b => dated_type p && negb (is_nil (b_ExpirationDate b))) in
    let expiryTracked :=
      if (0 <? Datatypes.length eligible)%nat
      then pct (Z.of_nat (Datatypes.length tracked)) (Z.of_nat (Datatypes.length eligible))
      else float64_of_int 0 in
    HealthScore
      (share (fun p => negb (is_nil (prod_CategoryID p))))
      (share (fun p => negb (is_nil (prod_ImageURL p)) || negb (is_nil (prod_IconName p))))
      (share (fun p => prod_MinStock p >? 0))
      expiryTracked
      (pct (recently_active d nowT storageID) total).

Definition HealthScoreForStorage (storageID : uuid) : Tx float64 :=
  d ← get_db;
  nowT ← now;
  mret (healthScore d nowT storageID).

(** [if inserted && xp > 0] *)
Definition award (storageID : uuid) (key : string) (xp : Z) (userID : uuid) : Tx unit :=
  inserted ← achievementNewlyUnlocked storageID userID key;
  if (inserted : bool) && (0 <? xp) then clock ← time_Now; bumpProgress storageID userID xp clock else mret tt.

Definition awardToEveryMember (storageID : uuid) (members : list uuid) (key : string) (xp : Z) : Tx unit :=
  for_each (award storageID key xp) members.

(** A product with a threshold and less stock. *)
Definition any_below_min_stock (d : DB) (storageID : uuid) : bool :=
  existsb (fun kv : uuid * Product =>
    (prod_StorageID kv.2 =? storageID) && (prod_MinStock kv.2 >? 0) && (stock d kv.1 <? prod_MinStock kv.2))
    (map_to_list (db_products d)).

Definition evaluateWellStocked (storageID : uuid) (members : list uuid) : Tx unit :=
  d ← get_db;
  ensure_settings storageID ;;
  if any_below_min_stock d storageID then update_settings (set_well_stocked_since None) storageID
  else
    row ← settings_row storageID;
    match gs_WellStockedSince row with
    | None => nowT ← now; update_settings (set_well_stocked_since (Some (nowT / day))) storageID
    | Some since =>
      clock ← time_Now;
      if int_trunc (days_since clock (since * day)) <? WellStockedDays then mret tt
      else awardToEveryMember storageID members AchWellStocked 0
    end.

Definition EvaluateStorageAchievements (storageID : uuid) : Tx unit :=
  inTx (
    members ← storageMemberIDs storageID;
    match members with
    | [] => mret tt
    | _ =>
      d ← get_db;
      nowT ← now;
      let health := healthScore d nowT storageID in
      (if f_ge health ArchivistHealthScore then awardToEveryMember storageID members AchArchivist 0 else mret tt) ;;
      (if f_ge health LibrarianHealthScore then awardToEveryMember storageID members AchLibrarian 0 else mret tt) ;;
      (if DeepFreezeProductCount <=? count_products d storageID then awardToEveryMember storageID members AchDeepFreeze 0
       else mret tt) ;;
      let categorizedCount := count_products_where d storageID (fun p => negb (is_nil (prod_CategoryID p))) in
      let uncategorizedCount := count_products_where d storageID (fun p => is_nil (prod_CategoryID p)) in
      (if (uncategorizedCount =? 0) && (SpringCleanMinCategorized <? categorizedCount)
       then awardToEveryMember storageID members AchSpringClean 0 else mret tt) ;;
      evaluateWellStocked storageID members
    end).

(** An item of the storage whose date fell in the seven days before [weekStart]. *)
Definition any_wasted (d : DB) (storageID weekStart : Z) : bool :=
  match batch_rows d storageID (fun _ b => (b_Quantity b >? 0) &&
          match b_ExpirationDate b with Some e => (weekStart - 7 <=? e) && (e <? weekStart) | None => false end) with
  | [] => false
  | _ => true
  end.

Definition EvaluateZeroWasteWeek (storageID weekStart : Z) : Tx unit :=
  inTx (
    members ← storageMemberIDs storageID;
    match members with
    | [] => mret tt
    | _ =>
      d ← get_db;
      if any_wasted d storageID weekStart then mret tt
      else awardToEveryMember storageID members AchZeroWasteWeek 0
    end).

(** ** The jobs over every storage *)

(** A call whose error is kept, not returned. *)
Definition attempt {A} (m : Tx A) : Tx (option Err) := fun w =>
  match m w with
  | (Ok _, w') => (Ok None, w')
  | (Fail e, w') => (Ok (Some e), w')
  end.

(** The loop: how many storages went through, and the first error; a failing storage
    does not stop the rest. *)
Fixpoint each_storage (f : uuid -> Tx unit) (storages : list uuid) (n : Z) (firstErr : option Err) : Tx (Z * option Err) :=
  match storages with
  | [] => mret (n, firstErr)
  | s :: storages' =>
    e ← attempt (f s);
    match e with
    | None => each_storage f storages' (n + 1) firstErr
    | Some err => each_storage f storages' n (match firstErr with None => Some err | Some e0 => Some e0 end)
    end
  end.

(** The storages, in the order of the ids for ORDER BY created_at, id. *)
Definition ListStorages : Tx (list uuid) :=
  d ← get_db;
  mret (elements (db_storages d)).

Definition RunWeeklyGamificationJobs (t : Z) : Tx (Z * option Err) :=
  storages ← ListStorages;
  let weekStart := mondayOf t in
  each_storage (fun s => GenerateWeeklyQuests s (weekStart * day) ;; EvaluateZeroWasteWeek s weekStart) storages 0 None.

Definition RunNightlyStorageAchievements : Tx (Z * option Err) :=
  storages ← ListStorages;
  each_storage EvaluateStorageAchievements storages 0 None.
