(* ===== verification/Ledger.v ===== *)
(** * The stock invariant

    [wf]: every batch names a product, a location and a container of one and the
    same storage, holds between one and 2^31-1 units and carries a known
    expiration source; every log row names rows that exist.  [balanced]: for
    every product, the quantities on the shelves are what its log rows sum to.
    The lemmas here say what each statement and each operation of Batches.v and
    Containers.v does to both. *)

From S2P Require Import Prelude Gamification Expiry Db Sample Tree Progress ShelfLife Containers Batches.

#[local] Open Scope list_scope.
#[local] Open Scope Z_scope.

(** ** The invariant *)

Definition batch_ok (d : DB) (b : Batch) : Prop :=
  exists p l,
    db_products d !! b_ProductID b = Some p /\
    db_locations d !! b_LocationID b = Some l /\
    loc_StorageID l = prod_StorageID p /\
    1 <= b_Quantity b < 2 ^ 31 /\
    b_ExpirationSource b ∈ [ExpirationDerived; ExpirationUser] /\
    forall c, b_ContainerID b = Some c ->
      exists con, db_containers d !! c = Some con /\
        con_StorageID con = prod_StorageID p /\ con_DestroyedAt con = None.

Definition log_ok (d : DB) (l : LogRow) : Prop :=
  is_Some (db_products d !! log_ProductID l) /\
  forall id, log_BatchID l = Some id ->
    exists b, db_batches d !! id = Some b /\ b_ProductID b = log_ProductID l.

Definition wf (d : DB) : Prop :=
  (forall id b, db_batches d !! id = Some b -> batch_ok d b) /\
  (forall l, l ∈ db_logs d -> log_ok d l).

(** How far a product's shelves are ahead of its ledger. *)
Definition gap (d : DB) (p : uuid) : Z := stock d p - ledger d p.

Definition balanced (d : DB) : Prop := forall p, stock d p = ledger d p.

Definition consistent (d : DB) : Prop := wf d /\ balanced d.

(** A step that keeps the database well formed and every gap where it was. *)
Definition good_step (d d' : DB) : Prop := wf d -> wf d' /\ forall p, gap d' p = gap d p.

#[export] Instance good_step_refl : Reflexive good_step.
Proof. intros d W. by split. Qed.

#[export] Instance good_step_trans : Transitive good_step.
Proof.
  intros d1 d2 d3 S1 S2 W1. destruct (S1 W1) as [W2 G1]. destruct (S2 W2) as [W3 G2].
  split; [done|]. intros p. by rewrite G2, G1.
Qed.

Lemma good_step_consistent d d' : good_step d d' -> consistent d -> consistent d'.
Proof.
  intros S [W B]. destruct (S W) as [W' Hg]. split; [done|]. intros p. specialize (Hg p). specialize (B p).
  unfold gap in Hg. lia.
Qed.

(** Scoring tables are not part of the invariant. *)
Lemma good_step_scoring d d' : inventory_part d' = inventory_part d -> good_step d d'.
Proof.
  intros E W. split.
  - change (wf (inventory_part d')). by rewrite E.
  - intros p. change (gap (inventory_part d') p = gap d p). by rewrite E.
Qed.

Lemma good_step_run {A} (m : Tx A) w r w' :
  scoring_only m -> m w = (r, w') -> good_step (wdb w) (wdb w').
Proof. intros Hm H. apply good_step_scoring. by apply (Hm w r w'). Qed.

(** ** Statements on batches *)

Lemma alter_as_insert {V} (f : V -> V) (m : gmap Z V) i v :
  m !! i = Some v -> alter f i m = <[i := f v]> m.
Proof.
  intros Hi. apply map_eq. intros j. rewrite lookup_alter, lookup_insert.
  case_decide; [|done]. subst. by rewrite Hi.
Qed.

Lemma alter_missing {V} (f : V -> V) (m : gmap Z V) i : m !! i = None -> alter f i m = m.
Proof.
  intros Hi. apply map_eq. intros j. rewrite lookup_alter.
  case_decide; [|done]. subst. by rewrite Hi.
Qed.

Lemma msum_alter {V} (f : V -> Z) (g : V -> V) (m : gmap Z V) i v :
  m !! i = Some v -> msum f (alter g i m) = msum f m - f v + f (g v).
Proof. intros Hi. rewrite (alter_as_insert g m i v Hi). by apply msum_insert_Some. Qed.

(** Rewriting one batch without touching its product or its quantity. *)
Lemma good_step_alter_batch d id (f : Batch -> Batch) :
  (forall b, b_ProductID (f b) = b_ProductID b /\ b_Quantity (f b) = b_Quantity b) ->
  (forall b, db_batches d !! id = Some b -> batch_ok d b -> batch_ok d (f b)) ->
  good_step d (set_batches (alter f id) d).
Proof.
  intros Hf Hok. destruct (db_batches d !! id) as [b|] eqn:Hb.
  2: { assert (E : set_batches (alter f id) d = d).
       { destruct d; cbn in *. unfold set_batches; cbn. by rewrite alter_missing. }
       by rewrite E. }
  intros W. split.
  - destruct W as [Wb Wl]. split; cbn.
    + intros id' b'. rewrite lookup_alter. case_decide as E.
      * subst. rewrite Hb. intros [= <-]. apply Hok; [done|]. by apply (Wb id').
      * intros H. by apply (Wb id').
    + intros l Hl. destruct (Wl l Hl) as [Hp Hbt]. split; [done|]. cbn.
      intros id' E. destruct (Hbt id' E) as (b' & Hb' & Hp'). rewrite lookup_alter.
      case_decide; [|eauto]. subst. rewrite Hb'. exists (f b'). split; [done|].
      by rewrite (proj1 (Hf b')).
  - intros p. unfold gap, stock. cbn. rewrite (msum_alter _ _ _ _ b Hb).
    destruct (Hf b) as [-> ->]. unfold ledger. cbn. lia.
Qed.

Lemma insert_batch_ok id b w u w' :
  insert_batch id b w = (Ok u, w') <->
  batch_row_ok (wdb w) id b = true /\ w' = with_db (set_batches <[id := b]> (wdb w)) w.
Proof.
  unfold insert_batch. split.
  - intros H. tx_inv. auto.
  - intros [Hr ->]. unfold mbind, tx_bind, get_db, require. rewrite Hr. by destruct u.
Qed.

Lemma update_quantity_ok id q w u w' :
  update_quantity id q w = (Ok u, w') ->
  0 <= q < 2 ^ 31 /\ w' = with_db (set_batches (alter (set_quantity q) id) (wdb w)) w.
Proof. unfold update_quantity. intros H. tx_inv. bool_to_prop. split; [lia | done]. Qed.

Lemma delete_batch_ok id w u w' :
  delete_batch id w = (Ok u, w') <->
  w' = with_db (set_logs (map (unlink_batch id)) (set_batches (delete id) (wdb w))) w.
Proof.
  unfold delete_batch. split.
  - intros H. tx_inv. done.
  - intros ->. by destruct u.
Qed.

Lemma writeLog_ok p b q r u w x w' :
  writeLog p b q r u w = (Ok x, w') <->
  exists id ids,
    let row := mkLogRow id p b q r u (wnow w) in
    wids w = id :: ids /\ log_row_ok (wdb w) row = true /\
    w' = mkWorld (set_logs (fun l => l ++ [row]) (wdb w)) ids (wnow w) (wclock w).
Proof.
  unfold writeLog. split.
  - intros H. tx_inv. eauto 10.
  - cbn. intros (id & ids & E & Hr & ->). destruct w as [d wi n c], x. cbn in *. subst.
    unfold mbind, tx_bind, newID, get_db, now, require, modify. cbn.
    by rewrite Hr.
Qed.

Lemma stock_insert d id b p :
  db_batches d !! id = None ->
  stock (set_batches <[id := b]> d) p =
  stock d p + (if b_ProductID b =? p then b_Quantity b else 0).
Proof. intros H. unfold stock. cbn. rewrite msum_insert_None by done. lia. Qed.

Lemma stock_set_quantity d id b q p :
  db_batches d !! id = Some b ->
  stock (set_batches (alter (set_quantity q) id) d) p =
  stock d p + (if b_ProductID b =? p then q - b_Quantity b else 0).
Proof.
  intros H. unfold stock. cbn. rewrite (msum_alter _ _ _ _ b H). cbn.
  destruct (b_ProductID b =? p); lia.
Qed.

Lemma stock_delete d id b p :
  db_batches d !! id = Some b ->
  stock (set_batches (delete id) d) p =
  stock d p - (if b_ProductID b =? p then b_Quantity b else 0).
Proof. intros H. unfold stock. cbn. by rewrite (msum_delete _ _ _ b H). Qed.

Lemma ledger_append d row p :
  ledger (set_logs (fun l => l ++ [row]) d) p =
  ledger d p + (if log_ProductID row =? p then log_ChangeQty row else 0).
Proof. unfold ledger. cbn. rewrite lsum_app. cbn. lia. Qed.

Lemma ledger_unlink d id p : ledger (set_logs (map (unlink_batch id)) d) p = ledger d p.
Proof.
  unfold ledger. cbn. rewrite lsum_map. apply lsum_ext. intros l.
  unfold unlink_batch. by case_bool_decide.
Qed.

(** ** Moving a gap *)

(** A step that keeps the database well formed and moves one product's gap by [n]. *)
Definition shifts (p : uuid) (n : Z) (d d' : DB) : Prop :=
  wf d -> wf d' /\ forall p', gap d' p' = gap d p' + (if p =? p' then n else 0).

Lemma good_step_shifts p d d' : good_step d d' -> shifts p 0 d d'.
Proof.
  intros S W. destruct (S W) as [W' G]. split; [done|]. intros p'. rewrite G. destruct (p =? p'); lia.
Qed.

Lemma shifts_good p d d' : shifts p 0 d d' -> good_step d d'.
Proof.
  intros S W. destruct (S W) as [W' G]. split; [done|]. intros p'. rewrite G. destruct (p =? p'); lia.
Qed.

Lemma shifts_trans p n m d1 d2 d3 : shifts p n d1 d2 -> shifts p m d2 d3 -> shifts p (n + m) d1 d3.
Proof.
  intros S1 S2 W1. destruct (S1 W1) as [W2 G1]. destruct (S2 W2) as [W3 G2].
  split; [done|]. intros p'. rewrite G2, G1. destruct (p =? p'); lia.
Qed.

(** A shift and the entry that explains it make a good step. *)
Lemma shifts_cancel p n d1 d2 d3 : shifts p n d1 d2 -> shifts p (- n) d2 d3 -> good_step d1 d3.
Proof.
  intros H1 H2. apply (shifts_good p). replace 0 with (n + - n) by lia. by eapply shifts_trans.
Qed.

(** A batch's obligations only look at products, locations and containers. *)
Lemma batch_ok_mono d d' b :
  db_products d' = db_products d -> db_locations d' = db_locations d ->
  (forall c con, b_ContainerID b = Some c -> db_containers d !! c = Some con ->
    exists con', db_containers d' !! c = Some con' /\
      con_StorageID con' = con_StorageID con /\ con_DestroyedAt con' = con_DestroyedAt con) ->
  batch_ok d b -> batch_ok d' b.
Proof.
  intros Ep El Ec (p & l & Hp & Hl & Hs & Hq & Hx & Hc). exists p, l. rewrite Ep, El.
  do 5 (split; [done|]). intros c E. destruct (Hc c E) as (con & H1 & H2 & H3).
  destruct (Ec c con E H1) as (con' & H1' & H2' & H3'). exists con'. split_and!; congruence.
Qed.

Lemma shifts_insert_batch d id b :
  batch_row_ok d id b = true -> (wf d -> batch_ok d b) ->
  shifts (b_ProductID b) (b_Quantity b) d (set_batches <[id := b]> d).
Proof.
  intros Hr Hok. unfold batch_row_ok in Hr. bool_to_prop. intros W. split.
  - specialize (Hok W). destruct W as [Wb Wl]. split; cbn.
    + intros id' b'. rewrite lookup_insert. case_decide; [by intros [= <-]|]. apply Wb.
    + intros l Hl. destruct (Wl l Hl) as [Hp Hb]. split; [done|]. cbn. intros id' E.
      destruct (Hb id' E) as (b' & Hb' & ?). exists b'. rewrite lookup_insert.
      case_decide; [congruence | done].
  - intros p. unfold gap. rewrite stock_insert by done. unfold ledger. cbn.
    destruct (b_ProductID b =? p); lia.
Qed.

Lemma shifts_update_quantity d id b q :
  db_batches d !! id = Some b -> 1 <= q < 2 ^ 31 ->
  shifts (b_ProductID b) (q - b_Quantity b) d (set_batches (alter (set_quantity q) id) d).
Proof.
  intros Hb Hq W. split.
  - destruct W as [Wb Wl]. split; cbn.
    + intros id' b'. rewrite lookup_alter. case_decide; [|apply Wb]. subst. rewrite Hb.
      intros [= <-]. destruct (Wb id' b Hb) as (p & l & Hp & Hl & Hs & _ & Hx). exists p, l. auto.
    + intros l Hl. destruct (Wl l Hl) as [Hp Hlb]. split; [done|]. cbn. intros id' E.
      destruct (Hlb id' E) as (b' & Hb' & ?). rewrite lookup_alter. case_decide; [|eauto].
      subst. rewrite Hb'. eexists. split; [reflexivity | done].
  - intros p. unfold gap. rewrite (stock_set_quantity _ _ _ _ _ Hb). unfold ledger. cbn.
    destruct (b_ProductID b =? p); lia.
Qed.

Lemma shifts_delete_batch d id b :
  db_batches d !! id = Some b ->
  shifts (b_ProductID b) (- b_Quantity b) d (set_logs (map (unlink_batch id)) (set_batches (delete id) d)).
Proof.
  intros Hb W. split.
  - destruct W as [Wb Wl]. split; cbn.
    + intros id' b' H. apply lookup_delete_Some in H as [? ?]. by apply (Wb id').
    + intros l Hl. apply list_elem_of_fmap in Hl as (l0 & -> & Hl0).
      destruct (Wl l0 Hl0) as [Hp Hlb]. unfold unlink_batch. case_bool_decide as E; split; try done.
      cbn. intros id' E'. destruct (Hlb id' E') as (b' & ? & ?). exists b'.
      split; [|done]. apply lookup_delete_Some. split; [congruence | done].
  - intros p. unfold gap. rewrite ledger_unlink.
    change (stock (set_batches (delete id) d) p - ledger d p =
      stock d p - ledger d p + (if b_ProductID b =? p then - b_Quantity b else 0)).
    rewrite (stock_delete _ _ _ _ Hb). destruct (b_ProductID b =? p); lia.
Qed.

Lemma shifts_log d row :
  (wf d -> log_ok d row) ->
  shifts (log_ProductID row) (- log_ChangeQty row) d (set_logs (fun l => l ++ [row]) d).
Proof.
  intros Hok W. split.
  - specialize (Hok W). destruct W as [Wb Wl]. split; cbn.
    + intros id b H. exact (Wb id b H).
    + intros l Hl. apply elem_of_app in Hl as [Hl|Hl]; [exact (Wl l Hl)|].
      apply list_elem_of_singleton in Hl. by subst.
  - intros p. unfold gap. rewrite ledger_append. change (stock (set_logs _ d) p) with (stock d p).
    destruct (log_ProductID row =? p); lia.
Qed.

(** What writeLog leaves behind: a row for [q], and the tables of [w] otherwise. *)
Lemma writeLog_shifts p bid q r u w x w' :
  writeLog p bid q r u w = (Ok x, w') ->
  (forall id, bid = Some id -> exists b, db_batches (wdb w) !! id = Some b /\ b_ProductID b = p) ->
  shifts p (- q) (wdb w) (wdb w') /\
  (exists row, wdb w' = set_logs (fun l => l ++ [row]) (wdb w)) /\ wnow w' = wnow w /\ wclock w' = wclock w.
Proof.
  intros H Hb. apply writeLog_ok in H as (id & ids & E & Hr & ->). cbn.
  split; [|split; [by eexists | done]].
  apply (shifts_log (wdb w) (mkLogRow id p bid q r u (wnow w))).
  intros _. unfold log_row_ok in Hr. bool_to_prop. split; [done|]. cbn. exact Hb.
Qed.

Lemma writeLog_books p b q r u w x w' :
  writeLog p b q r u w = (Ok x, w') ->
  db_jobs (wdb w') = db_jobs (wdb w) /\
  forall p', ledger (wdb w') p' = ledger (wdb w) p' + (if p =? p' then q else 0).
Proof.
  intros H. apply writeLog_ok in H as (id & ids & _ & _ & ->). split; [done|]. intros p'.
  apply (ledger_append (wdb w) (mkLogRow id p b q r u (wnow w))).
Qed.

(** The tables the stock invariant looks at. *)
Definition inventory_of (d : DB) :=
  (db_products d, db_locations d, db_containers d, db_batches d, db_logs d).

Lemma good_step_inventory d d' : inventory_of d' = inventory_of d -> good_step d d'.
Proof.
  unfold inventory_of. intros [= Ep El Ec Eb Eg]. intros W. split.
  - destruct W as [Wb Wl]. unfold wf, batch_ok, log_ok in *. rewrite Ep, El, Ec, Eb, Eg. by split.
  - intros p. unfold gap, stock, ledger. by rewrite Eb, Eg.
Qed.

(** ** The sample household satisfies it *)

Lemma sample_consistent : consistent sample_db.
Proof.
  split; [split|].
  - intros id b H. cbn in H. apply lookup_singleton_Some in H as [<- <-].
    exists beans, (shelf "Kitchen" None). split; [reflexivity|]. split; [reflexivity|]. split; [reflexivity|].
    split; [vm_compute; split; [discriminate | reflexivity]|]. split; [vm_compute; left|].
    intros c [= <-]. exists box. split_and!; reflexivity.
  - intros l H. cbn in H. apply list_elem_of_singleton in H as ->. split; [vm_compute; eauto|].
    intros id [= <-]. exists beans_batch. split; reflexivity.
  - intros p. change (msum (fun b => if b_ProductID b =? p then b_Quantity b else 0) (<[40 := beans_batch]> ∅)
      = (if 30 =? p then 3 else 0) + 0).
    rewrite msum_insert_None by apply lookup_empty. by rewrite msum_empty.
Qed.
