(* ===== verification/StockSteps.v ===== *)
(** * Every batch operation keeps the stock invariant

    For each operation of Containers.v and Batches.v, a lemma that a successful
    run takes a well-formed database to a well-formed one and leaves every
    product's gap between shelves and ledger where it was ([good_step]), together
    with what the operation leaves alone ([keeps]). *)

From S2P Require Import Prelude Gamification Expiry Db Tree Progress ShelfLife Containers Batches Ledger.

#[local] Open Scope list_scope.
#[local] Open Scope Z_scope.

(** ** What a step leaves alone *)

(** Products and locations as they were, and every batch still there with the
    product it had. *)
Definition keeps (d d' : DB) : Prop :=
  db_products d' = db_products d /\ db_locations d' = db_locations d /\
  b_ProductID <$> db_batches d' = b_ProductID <$> db_batches d.

#[export] Instance keeps_refl : Reflexive keeps.
Proof. by intros d. Qed.

#[export] Instance keeps_trans : Transitive keeps.
Proof. intros d1 d2 d3 (A1 & B1 & C1) (A2 & B2 & C2). split_and!; congruence. Qed.

Lemma keeps_batch d d' id b :
  keeps d d' -> db_batches d !! id = Some b ->
  exists b', db_batches d' !! id = Some b' /\ b_ProductID b' = b_ProductID b.
Proof.
  intros (_ & _ & E) Hb. assert (H : (b_ProductID <$> db_batches d') !! id = Some (b_ProductID b)).
  { rewrite E, lookup_fmap, Hb. done. }
  rewrite lookup_fmap in H. destruct (db_batches d' !! id) as [b'|]; [|done]. injection H. eauto.
Qed.

Lemma keeps_alter f id d :
  (forall b, b_ProductID (f b) = b_ProductID b) -> keeps d (set_batches (alter f id) d).
Proof.
  intros Hf. split_and!; [done | done |]. apply map_eq. intros i. cbn.
  rewrite !lookup_fmap, lookup_alter. case_decide; [|done]. subst.
  destruct (db_batches d !! i); cbn; [by rewrite Hf | done].
Qed.

Lemma keeps_scoring d d' : inventory_part d' = inventory_part d -> keeps d d'.
Proof.
  intros E. split_and!.
  - change (db_products (inventory_part d') = db_products d). by rewrite E.
  - change (db_locations (inventory_part d') = db_locations d). by rewrite E.
  - change (b_ProductID <$> db_batches (inventory_part d') = b_ProductID <$> db_batches d). by rewrite E.
Qed.

(** ** Ownership checks *)

Lemma product_in_storage_some d st id p :
  product_in_storage d st id = Some p <-> db_products d !! id = Some p /\ prod_StorageID p = st.
Proof.
  unfold product_in_storage. destruct (db_products d !! id) as [p'|]; [|naive_solver].
  destruct (Z.eqb_spec (prod_StorageID p') st); naive_solver.
Qed.

Lemma batch_in_storage_some d st id b :
  batch_in_storage d st id = Some b <->
  db_batches d !! id = Some b /\
  exists p, db_products d !! b_ProductID b = Some p /\ prod_StorageID p = st.
Proof.
  unfold batch_in_storage. destruct (db_batches d !! id) as [b'|]; [|naive_solver].
  case_bool_decide as E.
  - destruct E as [p E]. apply product_in_storage_some in E. split; [intros [= <-]; eauto | naive_solver].
  - split; [done|]. intros ([= ->] & p & Hp & Hs). exfalso. apply E. exists p.
    by apply product_in_storage_some.
Qed.

Lemma requireProductInStorage_ok st id w u w' :
  requireProductInStorage st id w = (Ok u, w') ->
  w' = w /\ exists p, db_products (wdb w) !! id = Some p /\ prod_StorageID p = st.
Proof.
  unfold requireProductInStorage. intros H. tx_inv. bool_to_prop.
  split; [done|]. match goal with E : is_Some _ |- _ => destruct E as [p Hp] end.
  exists p. by apply product_in_storage_some.
Qed.

Lemma requireBatchInStorage_ok st id w u w' :
  requireBatchInStorage st id w = (Ok u, w') ->
  w' = w /\ exists b, batch_in_storage (wdb w) st id = Some b.
Proof. unfold requireBatchInStorage. intros H. tx_inv. bool_to_prop. auto. Qed.

Lemma location_in_storage d st id n :
  tree_nodes treeLocations d !! id = Some n -> n_storage n = st ->
  exists l, db_locations d !! id = Some l /\ loc_StorageID l = st.
Proof.
  cbn. rewrite lookup_fmap. destruct (db_locations d !! id) as [l|]; [|done].
  intros [= <-] <-. eauto.
Qed.

Lemma expiryRulesFor_ok st p w r w' : expiryRulesFor st p w = (Ok r, w') -> w' = w.
Proof. unfold expiryRulesFor. intros H. by tx_inv. Qed.

Lemma loadBatch_ok st id w v w' :
  loadBatch st id w = (Ok v, w') <->
  w' = w /\ exists b, batch_in_storage (wdb w) st id = Some b /\ v = view_batch (wdb w) id b.
Proof.
  unfold loadBatch. split.
  - intros H. tx_inv. eauto.
  - intros (-> & b & Hb & ->). unfold mbind, tx_bind, get_db. by rewrite Hb.
Qed.

(** ** Containers *)

Lemma good_step_containers d f :
  (forall c con, db_containers d !! c = Some con ->
    exists con', f (db_containers d) !! c = Some con' /\
      con_StorageID con' = con_StorageID con /\ con_DestroyedAt con' = con_DestroyedAt con) ->
  good_step d (set_containers f d).
Proof.
  intros Hf [Wb Wl]. split; [|done]. split; [|done].
  intros id b Hb. apply (batch_ok_mono d); [done | done | intros c con _; apply Hf | exact (Wb id b Hb)].
Qed.

Lemma update_container_step f st c d :
  (forall con, con_StorageID (f con) = con_StorageID con /\ con_DestroyedAt (f con) = con_DestroyedAt con) ->
  good_step d (update_container f st c d) /\ keeps d (update_container f st c d).
Proof.
  intros Hf. unfold update_container. destruct (db_containers d !! c) as [con|] eqn:Hc; [|done].
  case_match; [|done]. split; [|done]. apply good_step_containers. intros c' con' Hc'.
  rewrite lookup_insert. case_decide; [|eauto]. subst. rewrite Hc in Hc'. injection Hc' as <-.
  exists (f con). by destruct (Hf con).
Qed.

Lemma batch_ok_uncontained d b : batch_ok d b -> batch_ok d (set_container None b).
Proof.
  intros (p & l & Hp & Hl & Hs & Hq & Hx & _). exists p, l. do 5 (split; [done|]). done.
Qed.

Lemma good_step_detach id d : good_step d (set_batches (alter (set_container None) id) d).
Proof.
  apply good_step_alter_batch; [done|]. intros b _. apply batch_ok_uncontained.
Qed.

Lemma detachBatchContainer_step id w u w' :
  detachBatchContainer id w = (Ok u, w') -> good_step (wdb w) (wdb w') /\ keeps (wdb w) (wdb w').
Proof.
  unfold detachBatchContainer. intros H. tx_inv.
  split; [apply good_step_detach | by apply keeps_alter].
Qed.

Lemma batchContainerID_ok id w c w' :
  batchContainerID id w = (Ok c, w') ->
  w' = w /\ exists b, db_batches (wdb w) !! id = Some b /\ b_ContainerID b = c.
Proof. unfold batchContainerID. intros H. tx_inv. eauto. Qed.

(** Putting a batch into a live container of its product's storage. *)
Lemma good_step_attach id c con d :
  db_containers d !! c = Some con -> con_DestroyedAt con = None ->
  (forall b p, db_batches d !! id = Some b -> db_products d !! b_ProductID b = Some p ->
     prod_StorageID p = con_StorageID con) ->
  good_step d (set_batches (alter (set_container (Some c)) id) d).
Proof.
  intros Hc Hlive Hst. apply good_step_alter_batch; [done|].
  intros b Hb (p & l & Hp & Hl & Hs & Hq & Hx & _). exists p, l. do 5 (split; [done|]).
  intros c' [= <-]. exists con. split_and!; [done | | done]. symmetry. by apply (Hst b).
Qed.

Lemma upsertBatchContainerLabel_step st id label w u w' :
  upsertBatchContainerLabel st id label w = (Ok u, w') ->
  (forall b p, db_batches (wdb w) !! id = Some b -> db_products (wdb w) !! b_ProductID b = Some p ->
     prod_StorageID p = st) ->
  good_step (wdb w) (wdb w') /\ keeps (wdb w) (wdb w').
Proof.
  unfold upsertBatchContainerLabel. intros H Hst. apply bind_ok in H as (cur & w1 & H1 & H).
  apply batchContainerID_ok in H1 as (-> & b & Hb & Hcur). destruct cur as [c|]; tx_inv.
  - by apply update_container_step.
  - bool_to_prop. split; [|etransitivity; [|by apply keeps_alter]; done].
    etransitivity; [|eapply good_step_attach; [apply lookup_insert_eq | done | exact Hst]].
    apply good_step_containers. intros c con Hc. exists con.
    rewrite lookup_insert_ne by congruence. done.
Qed.

Lemma setBatchContainerType_step st id t w u w' :
  setBatchContainerType st id t w = (Ok u, w') -> good_step (wdb w) (wdb w') /\ keeps (wdb w) (wdb w').
Proof.
  unfold setBatchContainerType. intros H. apply bind_ok in H as (cur & w1 & H1 & H).
  apply batchContainerID_ok in H1 as (-> & _). destruct cur as [c|]; tx_inv.
  by apply update_container_step.
Qed.

Lemma keeps_fmap f d : (forall b, b_ProductID (f b) = b_ProductID b) -> keeps d (set_batches (fmap f) d).
Proof.
  intros Hf. split_and!; [done | done |]. cbn. rewrite <- map_fmap_compose. apply map_fmap_ext.
  intros i b _. apply Hf.
Qed.

Lemma clear_container_fields c b :
  b_ProductID (clear_container c b) = b_ProductID b /\ b_Quantity (clear_container c b) = b_Quantity b.
Proof. unfold clear_container. by case_bool_decide. Qed.

Lemma destroyContainer_step st c w u w' :
  destroyContainer st c w = (Ok u, w') -> good_step (wdb w) (wdb w') /\ keeps (wdb w) (wdb w').
Proof.
  unfold destroyContainer. intros H. apply bind_ok in H as (d & w1 & H1 & H). tx_inv.
  destruct (db_containers (wdb w) !! c) as [con|] eqn:Hc; [|by tx_inv].
  destruct (_ && _); tx_inv. split; [intros [Wb Wl]; split|].
  - split.
    + intros id b Hb. cbn in Hb. rewrite lookup_fmap in Hb.
      destruct (db_batches (wdb w) !! id) as [b0|] eqn:Hb0; [|done]. injection Hb as <-.
      specialize (Wb id b0 Hb0). unfold clear_container. case_bool_decide as Ec.
      * apply (batch_ok_mono (wdb w)); [done..|]. by apply batch_ok_uncontained.
      * apply (batch_ok_mono (wdb w)); [done | done | | done].
        intros c' con' E Hc'. exists con'. cbn. rewrite lookup_insert_ne by congruence. done.
    + intros l Hl. destruct (Wl l Hl) as [Hp Hlb]. split; [done|]. cbn. intros id E.
      destruct (Hlb id E) as (b & Hb & Hbp). exists (clear_container c b).
      rewrite lookup_fmap, Hb. split; [done|]. by rewrite (proj1 (clear_container_fields c b)).
  - intros p. unfold gap, stock, ledger. cbn. rewrite msum_fmap. f_equal. apply msum_ext.
    intros i b _. by destruct (clear_container_fields c b) as [-> ->].
  - etransitivity; [|apply keeps_fmap; apply clear_container_fields]. done.
Qed.

(** ** Creating a batch *)

Lemma batch_row_ok_bounds d id b :
  batch_row_ok d id b = true ->
  b_Quantity b < 2 ^ 31 /\ b_ExpirationSource b ∈ [ExpirationDerived; ExpirationUser].
Proof. unfold batch_row_ok. intros H. bool_to_prop. split; [lia | done]. Qed.

Lemma create_date_ok (source : string) (o : option Time) st p w r w' :
  (match o with
   | None =>
     if negb (String.eqb source ExpirationUser) then
       rules ← expiryRulesFor st p;
       clock ← time_Now;
       mret (DateFor (timestamp clock) (Resolve rules))
     else mret None
   | Some date => mret (Some date)
   end : Tx (option Time)) w = (Ok r, w') -> w' = w.
Proof.
  destruct o; [intros H; by tx_inv|]. destruct (negb _); intros H; tx_inv; [|done].
  by tx_use expiryRulesFor_ok.
Qed.

(** The container half of a creation, for a batch of a product of [st]. *)
Lemma create_container_step st id label type w u1 w1 u2 w2 :
  (match label with Some l => upsertBatchContainerLabel st id l | None => mret tt end : Tx unit) w = (Ok u1, w1) ->
  (match type with Some _ => setBatchContainerType st id type | None => mret tt end : Tx unit) w1 = (Ok u2, w2) ->
  (forall b p, db_batches (wdb w) !! id = Some b -> db_products (wdb w) !! b_ProductID b = Some p ->
     prod_StorageID p = st) ->
  good_step (wdb w) (wdb w2) /\ keeps (wdb w) (wdb w2).
Proof.
  intros H1 H2 Hst.
  assert (S1 : good_step (wdb w) (wdb w1) /\ keeps (wdb w) (wdb w1)).
  { destruct label; [by eapply upsertBatchContainerLabel_step | by tx_inv]. }
  assert (S2 : good_step (wdb w1) (wdb w2) /\ keeps (wdb w1) (wdb w2)).
  { destruct type; [by eapply setBatchContainerType_step | by tx_inv]. }
  destruct S1, S2. split; by etransitivity.
Qed.

(** A log row and the scoring that follows it, for a batch that is there. *)
Lemma log_and_score p id q r u st k w x1 w1 x2 w2 :
  writeLog p (Some id) q r u w = (Ok x1, w1) ->
  bumpForLedgerReason st u r k w1 = (Ok x2, w2) ->
  (exists b, db_batches (wdb w) !! id = Some b /\ b_ProductID b = p) ->
  shifts p (- q) (wdb w) (wdb w2).
Proof.
  intros H1 H2 Hb. apply writeLog_shifts in H1 as (S1 & _); [|intros i [= <-]; exact Hb].
  apply good_step_run in H2; [|auto with scoring].
  replace (- q) with (- q + 0) by lia. eapply shifts_trans; [exact S1 | by apply good_step_shifts].
Qed.

Lemma createBatch_good st nb w v w' :
  createBatch st nb w = (Ok v, w') -> good_step (wdb w) (wdb w').
Proof.
  unfold createBatch. intros H.
  tx_next H by require_ok as [? ->].
  tx_next H by require_ok as [? ->].
  tx_next H for id by newID_ok as (ids & _ & ->).
  tx_next H by requireProductInStorage_ok as (-> & p & Hp & Hps).
  tx_next H by requireSameStorage_ok as (-> & n & Hn & Hns).
  tx_next H by create_date_ok as ->.
  tx_next H by now_ok as [-> ->].
  tx_next H by insert_batch_ok as [Hrow ->].
  apply bind_ok in H as (? & w2 & Hl & H). apply bind_ok in H as (? & w3 & Ht & H).
  apply bind_ok in H as (? & w4 & Hlog & H). apply bind_ok in H as (? & w5 & Hbump & H).
  assert (w' = w5) as -> by (destruct (_ || _); [by apply loadBatch_ok in H as [-> _] | by tx_inv]).
  clear H. cbn [wdb with_db wnow] in *. bool_to_prop.
  eapply create_container_step in Ht as [Gc Kc]; [| exact Hl |].
  2: { cbn. intros b q Hb. rewrite lookup_insert_eq in Hb. injection Hb as <-. cbn. congruence. }
  destruct (keeps_batch _ _ id _ Kc (lookup_insert_eq _ _ _)) as (b' & Hb' & Ep).
  eapply log_and_score in Hlog; [| exact Hbump | by exists b'].
  eapply shifts_cancel; [| exact Hlog].
  replace (nb_Quantity nb) with (nb_Quantity nb + 0) by lia.
  eapply shifts_trans; [|by apply good_step_shifts].
  apply (shifts_insert_batch _ _ _ Hrow). intros _.
  destruct (location_in_storage _ _ _ _ Hn Hns) as (l & Hl1 & Hl2).
  destruct (batch_row_ok_bounds _ _ _ Hrow) as [Hmax Hsrc].
  exists p, l. do 2 (split; [done|]). split; [congruence|]. do 2 (split; [done|]). done.
Qed.

(** ** Adjusting and counting *)

(** What adjustBatch looks up, and the two ways it ends. *)
Lemma adjustBatch_ok st id delta r u w p w' :
  adjustBatch st id delta r u w = (Ok p, w') ->
  exists b wl, batch_in_storage (wdb w) st id = Some b /\ p = b_ProductID b /\
    let q := wrap64 (b_Quantity b + delta) in
    ((q = 0 /\
      writeLog p None delta r u (with_db (set_logs (map (unlink_batch id)) (set_batches (delete id) (wdb w))) w) = (Ok tt, wl)) \/
     (1 <= q < 2 ^ 31 /\
      writeLog p (Some id) delta r u (with_db (set_batches (alter (set_quantity q) id) (wdb w)) w) = (Ok tt, wl))) /\
    bumpForLedgerReason st u r id wl = (Ok tt, w').
Proof.
  unfold adjustBatch. intros H.
  tx_next H for d by get_db_ok as [-> ->].
  tx_next H for b by some_or_ok as [Hb ->].
  tx_next H by require_ok as [Hq ->].
  exists b. destruct (Z.eqb_spec (wrap64 (b_Quantity b + delta)) 0) as [E|E].
  - tx_next H by delete_batch_ok as ->.
    apply bind_ok in H as ([] & wl & Hl & H). apply bind_ok in H as ([] & w2 & H2 & H). tx_inv.
    exists wl. auto 10.
  - tx_next H by update_quantity_ok as (Hr & ->).
    apply bind_ok in H as ([] & wl & Hl & H). apply bind_ok in H as ([] & w2 & H2 & H). tx_inv.
    exists wl. bool_to_prop. do 2 (split; [done|]). split; [|done]. right. split; [lia | done].
Qed.

(** No overflow: a quantity column plus a delta the ledger accepts. *)
Lemma wrap_int4 q delta :
  0 <= q < 2 ^ 31 -> - 2 ^ 31 <= delta < 2 ^ 31 -> wrap64 (q + delta) = q + delta.
Proof. intros ? ?. apply wrap64_id. unfold is_int64. lia. Qed.

Lemma writeLog_int4 p b q r u w x w' : writeLog p b q r u w = (Ok x, w') -> - 2 ^ 31 <= q < 2 ^ 31.
Proof.
  intros H. apply writeLog_ok in H as (id & ids & _ & Hr & _). unfold log_row_ok in Hr.
  bool_to_prop. cbn in *. lia.
Qed.

Lemma adjustBatch_good st id delta r u w p w' :
  adjustBatch st id delta r u w = (Ok p, w') -> good_step (wdb w) (wdb w').
Proof.
  intros H W. apply adjustBatch_ok in H as (b & wl & Hb & -> & H & Hbump).
  apply batch_in_storage_some in Hb as (Hb & _). revert W.
  enough (wf (wdb w) -> good_step (wdb w) (wdb wl)) as G.
  { intros W. apply good_step_run in Hbump; [|auto with scoring].
    by apply (transitivity (G W) Hbump). }
  intros W. assert (Hq : 1 <= b_Quantity b < 2 ^ 31).
  { destruct W as [Wb _]. destruct (Wb id b Hb) as (? & ? & _ & _ & _ & Hq & _). exact Hq. }
  destruct H as [[E H]|[E H]]; pose proof (writeLog_int4 _ _ _ _ _ _ _ _ H) as Hd;
    rewrite wrap_int4 in * by lia;
    apply writeLog_shifts in H as (S & _); cbn in *.
  - eapply shifts_cancel; [by apply shifts_delete_batch|].
    replace (- - b_Quantity b) with (- delta) by lia. exact S.
  - done.
  - apply (shifts_cancel _ _ _ _ _ (shifts_update_quantity _ _ _ _ Hb E)).
    replace (- (b_Quantity b + delta - b_Quantity b)) with (- delta) by lia. exact S.
  - intros i [= <-]. rewrite lookup_alter_eq, Hb. eexists. split; [reflexivity | done].
Qed.

Lemma setBatchQuantity_good st id q u w x w' :
  setBatchQuantity st id q u w = (Ok x, w') -> good_step (wdb w) (wdb w').
Proof.
  unfold setBatchQuantity. intros H. tx_next H by require_ok as [_ ->].
  tx_next H for d by get_db_ok as [-> ->]. tx_next H for b by some_or_ok as [_ ->].
  case_match; tx_inv; [done|]. by tx_use adjustBatch_good.
Qed.

(** ** Splitting and moving *)

Lemma split_container_step st id disposition con w tc w' :
  split_container st id disposition con w = (Ok tc, w') ->
  good_step (wdb w) (wdb w') /\ keeps (wdb w) (wdb w') /\
  forall c, tc = Some c -> con = Some c /\ db_containers (wdb w') = db_containers (wdb w).
Proof.
  unfold split_container. destruct con as [c|]; intros H; [|by tx_inv].
  apply bind_ok in H as ([] & w1 & H1 & H). apply ret_ok in H as [<- <-].
  destruct (bool_decide (disposition ∈ [DispositionSource; DispositionBoth])) eqn:E1.
  { tx_inv. split_and!; [done | done |]. case_match; naive_solver. }
  destruct (bool_decide (disposition ∈ [DispositionTarget; DispositionNeither])) eqn:E2.
  { assert (E : db_containers (wdb w1) = db_containers (wdb w)).
    { unfold detachBatchContainer in H1. by tx_inv. }
    tx_use detachBatchContainer_step. destruct_and!. split_and!; [done | done |]. case_match; naive_solver. }
  assert (E3 : bool_decide (disposition ∈ [DispositionTarget; DispositionBoth]) = false).
  { apply bool_decide_eq_false in E1, E2. apply bool_decide_eq_false. set_solver. }
  rewrite E3. destruct (String.eqb disposition DispositionDestroy).
  - tx_use destroyContainer_step. destruct_and!. split_and!; [done | done | done].
  - tx_inv. split_and!; done.
Qed.

(** A pair of log rows that sum to zero. *)
Lemma move_pair_good p q i j u w x1 w1 x2 w2 :
  1 <= q < 2 ^ 31 ->
  writeLog p (Some i) (wrap64 (- q)) ReasonMove u w = (Ok x1, w1) ->
  writeLog p (Some j) q ReasonMove u w1 = (Ok x2, w2) ->
  (exists b, db_batches (wdb w) !! i = Some b /\ b_ProductID b = p) ->
  (exists b, db_batches (wdb w) !! j = Some b /\ b_ProductID b = p) ->
  good_step (wdb w) (wdb w2).
Proof.
  intros Hq H1 H2 Hi Hj. rewrite wrap64_id in H1 by (unfold is_int64; lia).
  apply writeLog_shifts in H1 as (S1 & (row & E) & _); [|intros k [= <-]; exact Hi].
  apply writeLog_shifts in H2 as (S2 & _); [|intros k [= <-]; by rewrite E].
  replace (- - q) with q in S1 by lia. by eapply shifts_cancel.
Qed.

Lemma moveBatch_good st id target u w v w' :
  moveBatch st id target u w = (Ok v, w') -> good_step (wdb w) (wdb w').
Proof.
  unfold moveBatch. intros H W. revert W.
  tx_next H for d by get_db_ok as [-> ->]. tx_next H for b by some_or_ok as [Hb ->].
  apply batch_in_storage_some in Hb as (Hb & p & Hp & Hps).
  tx_next H by requireSameStorage_ok as (-> & n & Hn & Hns).
  destruct (location_in_storage _ _ _ _ Hn Hns) as (l & Hl & Hls).
  case_match; [apply loadBatch_ok in H as [-> _]; by intros|].
  tx_next H by modify_ok as ->. apply bind_ok in H as (? & w1 & H1 & H).
  apply bind_ok in H as (? & w2 & H2 & H). tx_inv. intros W.
  assert (Hq : 1 <= b_Quantity b < 2 ^ 31).
  { destruct W as [Wb _]. destruct (Wb id b Hb) as (? & ? & _ & _ & _ & Hq & _). exact Hq. }
  assert (Hin : exists b', db_batches (set_batches (alter (set_location target) id) (wdb w)) !! id = Some b'
                  /\ b_ProductID b' = b_ProductID b).
  { cbn. rewrite lookup_alter_eq, Hb. eexists. split; [reflexivity | done]. }
  revert W. change (good_step (wdb w) (wdb w')).
  etransitivity; [|exact (move_pair_good _ _ _ _ _ _ _ _ _ _ Hq H1 H2 Hin Hin)].
  apply good_step_alter_batch; [done|]. intros b0 Hb0 (p0 & l0 & Hp0 & Hl0 & Hs0 & Hq0 & Hx0 & Hc0).
  exists p0, l. split; [done|]. split; [done|]. split; [|by split].
  assert (b0 = b) as -> by congruence. congruence.
Qed.

(** The state a split's log rows are written in: the source debited, its
    container dealt with, the target row inserted. *)
Lemma split_rows_shift d wd id new b con target st t n :
  wf d -> db_batches d !! id = Some b -> 1 <= n <= b_Quantity b - 1 ->
  (exists l, db_locations d !! target = Some l /\ loc_StorageID l = st) ->
  (exists p, db_products d !! b_ProductID b = Some p /\ prod_StorageID p = st) ->
  good_step (set_batches (alter (set_quantity (b_Quantity b - n)) id) d) wd ->
  keeps (set_batches (alter (set_quantity (b_Quantity b - n)) id) d) wd ->
  (forall c, con = Some c -> b_ContainerID b = Some c /\ db_containers wd = db_containers d) ->
  let row := mkBatch (b_ProductID b) target n (b_ExpirationDate b) (b_ExpirationSource b) t con in
  batch_row_ok wd new row = true ->
  good_step d (set_batches <[new := row]> wd).
Proof.
  intros W Hb Hn (l & Hl & Hls) (p & Hp & Hps) G (Kp & Kl & _) Hcon row Hrow.
  pose proof W as [Wb _]. destruct (Wb id b Hb) as (p' & l' & Hp' & _ & _ & Hq & Hsrc & Hc).
  assert (p' = p) as -> by congruence.
  apply (shifts_good (b_ProductID b)). replace 0 with (b_Quantity b - n - b_Quantity b + 0 + n) by lia.
  eapply shifts_trans; [eapply shifts_trans|].
  - apply (shifts_update_quantity _ _ _ (b_Quantity b - n) Hb). lia.
  - by apply good_step_shifts.
  - apply (shifts_insert_batch _ _ row Hrow). intros _. cbn in Kp, Kl.
    exists p, l. rewrite Kp, Kl. do 2 (split; [done|]). split; [congruence|].
    split; [cbn; lia|]. split; [done|]. intros c E. destruct (Hcon c E) as [Ec Ed]. rewrite Ed.
    by apply Hc.
Qed.

Lemma SplitBatch_good st id sp u w v w' :
  SplitBatch st id sp u w = (Ok v, w') -> good_step (wdb w) (wdb w').
Proof.
  unfold SplitBatch. intros H W. revert W.
  tx_next H by require_ok as [_ ->]. tx_next H for new by newID_ok as (ids & _ & ->). tx_inv1 H.
  tx_next H for d by get_db_ok as [-> ->]. tx_next H for b by some_or_ok as [Hb ->].
  apply batch_in_storage_some in Hb as (Hb & Hprod).
  tx_next H by require_ok as [Hn ->].
  tx_next H by requireSameStorage_ok as (-> & n & Hloc & Hlst).
  pose proof (location_in_storage _ _ _ _ Hloc Hlst) as Hl.
  tx_next H by update_quantity_ok as (_ & ->).
  apply bind_ok in H as (con & w1 & Hsc & H).
  tx_next H for t by now_ok as [-> ->].
  tx_next H by insert_batch_ok as [Hrow ->].
  apply bind_ok in H as (? & w2 & H1 & H). apply bind_ok in H as (? & w3 & H2 & H).
  apply loadBatch_ok in H as [-> _].
  apply split_container_step in Hsc as (G & K & Hcon). cbn in G, K, Hcon.
  assert (Hn' : 1 <= sp_Quantity sp <= b_Quantity b - 1) by (bool_to_prop; rewrite Z.gtb_ltb in *; bool_to_prop; lia).
  intros W. pose proof W as [Wb _].
  assert (Hq : 1 <= b_Quantity b < 2 ^ 31).
  { destruct (Wb id b Hb) as (? & ? & _ & _ & _ & Hq & _). exact Hq. }
  pose proof (split_rows_shift _ _ _ _ _ _ _ _ _ _ W Hb Hn' Hl Hprod G K Hcon Hrow) as S.
  revert W. change (good_step (wdb w) (wdb w3)). etransitivity; [exact S|].
  refine (move_pair_good _ _ _ _ _ _ _ _ _ _ _ H1 H2 _ _); [lia | |].
  - destruct (keeps_batch _ _ id (set_quantity (b_Quantity b - sp_Quantity sp) b) K) as (b' & Hb' & Eb').
    { cbn. by rewrite lookup_alter_eq, Hb. }
    exists b'. cbn. rewrite lookup_insert_ne; [done|]. intros ->.
    unfold batch_row_ok in Hrow. bool_to_prop. congruence.
  - eexists. cbn. rewrite lookup_insert_eq. split; [reflexivity | done].
Qed.

(** ** Patching *)

Lemma patch_container_step st id patch w u w' :
  patch_container st id patch w = (Ok u, w') -> good_step (wdb w) (wdb w').
Proof.
  unfold patch_container. destruct (touchesContainer patch); intros H; [|by tx_inv].
  tx_next H by loadBatch_ok as (-> & b & Hb & _).
  apply batch_in_storage_some in Hb as (Hb & p & Hp & Hps).
  apply bind_ok in H as (? & w1 & H1 & H2).
  transitivity (wdb w1).
  - destruct (bp_SetContainerLabel patch); [|by tx_inv]. destruct (bp_ContainerLabel patch).
    + apply upsertBatchContainerLabel_step in H1; [by destruct H1 | naive_solver].
    + by apply detachBatchContainer_step in H1 as [? _].
  - destruct (bp_SetContainerType patch); [|by tx_inv].
    by apply setBatchContainerType_step in H2 as [? _].
Qed.

Lemma patch_rest_good st id patch u w r w' :
  patch_rest st id patch u w = (Ok r, w') -> good_step (wdb w) (wdb w').
Proof.
  unfold patch_rest. intros H. apply bind_ok in H as (? & w1 & H1 & H).
  apply patch_container_step in H1. apply bind_ok in H as (? & w2 & H2 & H).
  apply bind_ok in H as (? & ? & H3 & H). apply loadBatch_ok in H3 as [-> _]. tx_inv.
  etransitivity; [exact H1|]. destruct (bp_LocationID patch); tx_inv; [|done].
  by tx_use moveBatch_good.
Qed.

Lemma UpdateBatch_good st id patch u w r w' :
  UpdateBatch st id patch u w = (Ok r, w') -> good_step (wdb w) (wdb w').
Proof.
  unfold UpdateBatch. intros H. do 3 (tx_next H by require_ok as [_ ->]). tx_inv1 H.
  destruct (bp_Quantity patch) as [q|]; [|by tx_use patch_rest_good].
  apply bind_ok in H as (? & w1 & H1 & H). apply setBatchQuantity_good in H1.
  etransitivity; [exact H1|]. case_match; tx_inv; [done|]. by tx_use patch_rest_good.
Qed.

Lemma AdjustBatch_good st id delta r u w x w' :
  AdjustBatch st id delta r u w = (Ok x, w') -> good_step (wdb w) (wdb w').
Proof. unfold AdjustBatch. intros H. tx_inv. by tx_use adjustBatch_good. Qed.

Lemma CreateBatch_good st nb w v w' :
  CreateBatch st nb w = (Ok v, w') -> good_step (wdb w) (wdb w').
Proof. unfold CreateBatch. intros H. tx_inv. by tx_use createBatch_good. Qed.

Lemma DestroyContainer_good st c w u w' :
  DestroyContainer st c w = (Ok u, w') -> good_step (wdb w) (wdb w').
Proof. unfold DestroyContainer. intros H. tx_inv. by apply destroyContainer_step in H as [? _]. Qed.

(** ** Expiration dates *)

Lemma good_step_set_expiration id date source d :
  source ∈ [ExpirationDerived; ExpirationUser] ->
  good_step d (set_batches (alter (set_expiration date source) id) d).
Proof.
  intros Hs. apply good_step_alter_batch; [done|]. intros b _ (p & l & Hp & Hl & Hst & Hq & _ & Hc).
  exists p, l. by do 5 (split; [done|]).
Qed.

Lemma SetBatchExpiration_good st id date u w v w' :
  SetBatchExpiration st id date u w = (Ok v, w') -> good_step (wdb w) (wdb w').
Proof.
  unfold SetBatchExpiration. intros H. tx_inv1 H.
  tx_next H by requireBatchInStorage_ok as (-> & _). tx_next H by modify_ok as ->.
  tx_next H by loadBatch_ok as (-> & _). apply bind_ok in H as (? & w1 & H1 & H). tx_inv1 H. subst.
  etransitivity; [apply (good_step_set_expiration id (date_col date) ExpirationUser); set_solver|].
  destruct u; tx_inv; [|done].
  match goal with E : recordContribution _ _ _ _ _ _ = _ |- _ =>
    apply good_step_run in E; [exact E | auto with scoring] end.
Qed.

Lemma ResetBatchExpirationToDerived_good st id w v w' :
  ResetBatchExpirationToDerived st id w = (Ok v, w') -> good_step (wdb w) (wdb w').
Proof.
  unfold ResetBatchExpirationToDerived. intros H. tx_inv1 H.
  tx_next H for d by get_db_ok as [-> ->]. tx_next H for b by some_or_ok as [_ ->].
  tx_next H by expiryRulesFor_ok as ->. tx_next H by modify_ok as ->.
  apply loadBatch_ok in H as [-> _]. apply good_step_set_expiration. set_solver.
Qed.

Lemma update_derived_step id date w n w' :
  update_derived id date w = (Ok n, w') -> good_step (wdb w) (wdb w') /\ keeps (wdb w) (wdb w').
Proof.
  unfold update_derived. intros H. tx_next H for d by get_db_ok as [-> ->].
  destruct (db_batches (wdb w) !! id) as [b|] eqn:Hb; [|by tx_inv]. case_match; [|by tx_inv]. tx_inv.
  assert (E : set_batches <[id := set_expiration date ExpirationDerived b]> (wdb w) =
              set_batches (alter (set_expiration date ExpirationDerived) id) (wdb w)).
  { unfold set_batches. by rewrite (alter_as_insert _ _ _ _ Hb). }
  rewrite E. split; [apply good_step_set_expiration; set_solver | by apply keeps_alter].
Qed.

Lemma applyDerivedExpiry_step l r w n w' :
  applyDerivedExpiry l r w = (Ok n, w') -> good_step (wdb w) (wdb w') /\ keeps (wdb w) (wdb w').
Proof.
  revert w n. induction l as [|[id t] l IH]; intros w n H; [by cbn in H; tx_inv|].
  cbn [applyDerivedExpiry] in H. apply bind_ok in H as (? & w1 & H1 & H).
  apply update_derived_step in H1 as []. apply bind_ok in H as (? & w2 & H2 & H). tx_inv1 H. subst.
  apply IH in H2 as []. split; by etransitivity.
Qed.

Lemma recomputeDerivedExpiry_step st p w n w' :
  recomputeDerivedExpiry st p w = (Ok n, w') -> good_step (wdb w) (wdb w') /\ keeps (wdb w) (wdb w').
Proof.
  unfold recomputeDerivedExpiry. intros H. tx_next H by expiryRulesFor_ok as ->.
  tx_next H by get_db_ok as [-> ->]. by tx_use applyDerivedExpiry_step.
Qed.
