(* ===== verification/BatchSpec.v ===== *)
(** * What the batch operations do, branch by branch

    The functional specifications of adjustBatch, SplitBatch, moveBatch and
    UpdateBatch: which requests are refused with which error, and exactly which
    rows a successful one leaves behind. *)

From S2P Require Import Prelude Gamification Expiry Db Sample Tree Progress ShelfLife Containers Batches Ledger StockSteps.

#[local] Open Scope string_scope.
#[local] Open Scope list_scope.
#[local] Open Scope Z_scope.

(** ** Scoring leaves the inventory alone *)

Lemma scoring_tables {A} (m : Tx A) w r w' :
  scoring_only m -> m w = (r, w') ->
  db_batches (wdb w') = db_batches (wdb w) /\ db_logs (wdb w') = db_logs (wdb w) /\
  db_products (wdb w') = db_products (wdb w) /\ db_containers (wdb w') = db_containers (wdb w).
Proof.
  intros Hm H. destruct (Hm w r w' H) as (E & _).
  pose proof (f_equal db_batches E). pose proof (f_equal db_logs E).
  pose proof (f_equal db_products E). pose proof (f_equal db_containers E). done.
Qed.

(** Every table but batches, containers and the ledger. *)
Definition elsewhere (d : DB) : DB := set_batches (fun _ => ∅) (set_containers (fun _ => ∅) (set_logs (fun _ => []) d)).

Lemma writeLog_row p b q reason u w x w' : writeLog p b q reason u w = (Ok x, w') ->
  exists logID, db_logs (wdb w') = db_logs (wdb w) ++ [mkLogRow logID p b q reason u (wnow w)] /\
    db_batches (wdb w') = db_batches (wdb w) /\ db_containers (wdb w') = db_containers (wdb w) /\
    elsewhere (wdb w') = elsewhere (wdb w) /\ wnow w' = wnow w /\ wclock w' = wclock w.
Proof. intros H. apply writeLog_ok in H as (id & ids & _ & _ & ->). by exists id. Qed.

(** ** Adjusting *)

(** The one log row an adjustment of [id] by [delta] writes. *)
Definition adjust_row (logID p : uuid) (bid : option uuid) (delta : Z) (reason : string) (u : option uuid) (t : Z) : LogRow :=
  mkLogRow logID p bid delta reason u t.

Lemma adjustBatch_rows st id delta reason u w p w' :
  wf (wdb w) -> adjustBatch st id delta reason u w = (Ok p, w') ->
  exists b logID, batch_in_storage (wdb w) st id = Some b /\ p = b_ProductID b /\
    0 <= b_Quantity b + delta < 2 ^ 31 /\
    db_batches (wdb w') = (if b_Quantity b + delta =? 0 then delete id (db_batches (wdb w))
                           else <[id := set_quantity (b_Quantity b + delta) b]> (db_batches (wdb w))) /\
    db_logs (wdb w') = (if b_Quantity b + delta =? 0
                        then map (unlink_batch id) (db_logs (wdb w)) ++ [adjust_row logID p None delta reason u (wnow w)]
                        else db_logs (wdb w) ++ [adjust_row logID p (Some id) delta reason u (wnow w)]).
Proof.
  intros W H. apply adjustBatch_ok in H as (b & wl & Hb & -> & H & Hbump). cbn in H.
  apply scoring_tables in Hbump as (-> & -> & _); [|auto with scoring].
  pose proof Hb as Hb'. apply batch_in_storage_some in Hb' as (Hid & _).
  assert (Hq : 1 <= b_Quantity b < 2 ^ 31).
  { destruct W as [Wb _]. destruct (Wb id b Hid) as (? & ? & _ & _ & _ & Hq & _). exact Hq. }
  destruct H as [[E H]|[E H]]; pose proof (writeLog_int4 _ _ _ _ _ _ _ _ H) as Hd;
    rewrite wrap_int4 in E by lia; apply writeLog_ok in H as (logID & ids & _ & _ & ->); exists b, logID.
  - rewrite E. cbn. split_and!; done.
  - rewrite wrap_int4 by lia. rewrite (proj2 (Z.eqb_neq _ 0)) by lia.
    split; [done|]. split; [done|]. split; [lia|]. cbn. split; [|done]. by apply alter_as_insert.
Qed.

(** Nothing but the pieces AdjustBatch itself needs. *)
Lemma adjustBatch_total st id delta reason w b logID ids :
  wf (wdb w) -> batch_in_storage (wdb w) st id = Some b -> wids w = logID :: ids ->
  logID ∉ map log_ID (db_logs (wdb w)) ->
  0 <= b_Quantity b + delta < 2 ^ 31 ->
  reason ∈ [ReasonPurchase; ReasonConsumption; ReasonAudit; ReasonVisionIngestion; ReasonMove] ->
  exists p w', adjustBatch st id delta reason None w = (Ok p, w').
Proof.
  intros W Hb Hids Hfresh Hr Hreason.
  pose proof Hb as Hb'. apply batch_in_storage_some in Hb' as (Hid & pr & Hpr & _).
  assert (Hq : 1 <= b_Quantity b < 2 ^ 31).
  { destruct W as [Wb _]. destruct (Wb id b Hid) as (? & ? & _ & _ & _ & Hq & _). exact Hq. }
  unfold adjustBatch. erewrite bind_step by reflexivity. rewrite Hb. erewrite bind_step by reflexivity.
  rewrite wrap_int4 by lia.
  assert (Hge : (b_Quantity b + delta <? 0) = false) by (apply Z.ltb_ge; lia). rewrite Hge.
  erewrite bind_step by reflexivity.
  assert (Hrow : forall d bid, db_products d = db_products (wdb w) -> map log_ID (db_logs d) = map log_ID (db_logs (wdb w)) ->
    (forall i, bid = Some i -> is_Some (db_batches d !! i)) ->
    log_row_ok d (mkLogRow logID (b_ProductID b) bid delta reason None (wnow w)) = true).
  { intros d bid Ep El Hbid. unfold log_row_ok. cbn. rewrite Ep, El.
    rewrite (bool_decide_eq_false_2 (logID ∈ _)) by done. rewrite bool_decide_eq_true_2 by (by exists pr).
    rewrite (bool_decide_eq_true_2 (reason ∈ _)) by done. cbn.
    assert (int4_ok delta = true) as -> by (apply int4_ok_spec; lia).
    destruct bid as [i|]; [|done]. rewrite bool_decide_eq_true_2; [done|]. by apply Hbid. }
  assert (Hlog : forall d bid, db_products d = db_products (wdb w) -> map log_ID (db_logs d) = map log_ID (db_logs (wdb w)) ->
    (forall i, bid = Some i -> is_Some (db_batches d !! i)) ->
    exists wl, writeLog (b_ProductID b) bid delta reason None (with_db d w) = (Ok tt, wl)).
  { intros d bid Ep El Hbid. eexists. apply writeLog_ok. exists logID, ids.
    split; [exact Hids|]. split; [by apply Hrow | reflexivity]. }
  destruct (Z.eqb_spec (b_Quantity b + delta) 0) as [E|E].
  - rewrite (bind_step _ _ _ tt _ (proj2 (delete_batch_ok id w tt _) eq_refl)).
    destruct (Hlog (set_logs (map (unlink_batch id)) (set_batches (delete id) (wdb w))) None) as [wl Hwl];
      [done | | done | rewrite (bind_step _ _ _ _ _ Hwl); eexists _, _; reflexivity].
    cbn. rewrite map_map. apply map_ext. intros l. unfold unlink_batch. by case_bool_decide.
  - assert (Hup : int4_ok (b_Quantity b + delta) && (0 <=? b_Quantity b + delta) = true).
    { apply andb_true_iff. rewrite int4_ok_spec, Z.leb_le. lia. }
    destruct (Hlog (set_batches (alter (set_quantity (b_Quantity b + delta)) id) (wdb w)) (Some id)) as [wl Hwl];
      [done | done | |].
    + intros i [= <-]. cbn. rewrite lookup_alter_eq, Hid. eauto.
    + unfold update_quantity. rewrite Hup. rewrite (bind_step _ _ w tt (with_db
        (set_batches (alter (set_quantity (b_Quantity b + delta)) id) (wdb w)) w)) by reflexivity.
      rewrite (bind_step _ _ _ _ _ Hwl). eexists _, _. reflexivity.
Qed.

Lemma AdjustBatch_run st id delta reason u w :
  delta ≠ 0 -> reason ≠ "" ->
  AdjustBatch st id delta reason u w =
    match adjustBatch st id delta reason u w with
    | (Ok _, w') => (Ok tt, w')
    | (Fail e, w') => (Fail e, with_db (wdb w) w')
    end.
Proof.
  intros Hd Hr. unfold AdjustBatch.
  rewrite (proj2 (Z.eqb_neq _ _) Hd), (proj2 (String.eqb_neq _ _) Hr).
  rewrite !(bind_step _ _ w tt w) by reflexivity. unfold inTx, mbind, tx_bind.
  by destruct (adjustBatch st id delta reason u w) as [[]].
Qed.

(** C25: AdjustBatch on every branch.  A zero delta or an empty reason is refused
    without opening a transaction; a batch that is not in the storage is
    ErrNotFound; a delta that would take the batch below zero is ErrValidation
    (never clamped); each refusal leaves the database as it was.  On success the
    batch holds exactly its old quantity plus the delta, or is gone if that is
    zero, no other batch changed, and exactly one log row, carrying the delta,
    the reason and the user, was appended.  And with valid arguments and no user
    to score, it succeeds. *)
Theorem AdjustBatch_branches st id delta reason u w r w' :
  wf (wdb w) -> AdjustBatch st id delta reason u w = (r, w') ->
  (delta = 0 \/ reason = "" -> r = Fail ErrValidation /\ w' = w) /\
  (delta ≠ 0 -> reason ≠ "" -> batch_in_storage (wdb w) st id = None -> r = Fail ErrNotFound /\ wdb w' = wdb w) /\
  (forall b, delta ≠ 0 -> reason ≠ "" -> batch_in_storage (wdb w) st id = Some b -> is_int64 (b_Quantity b + delta) ->
     b_Quantity b + delta < 0 -> r = Fail ErrValidation /\ wdb w' = wdb w) /\
  (r = Ok tt -> exists b logID, batch_in_storage (wdb w) st id = Some b /\ 0 <= b_Quantity b + delta /\
     db_batches (wdb w') !! id = (if b_Quantity b + delta =? 0 then None else Some (set_quantity (b_Quantity b + delta) b)) /\
     (forall id', id' ≠ id -> db_batches (wdb w') !! id' = db_batches (wdb w) !! id') /\
     (exists bid, map log_ID (db_logs (wdb w')) = map log_ID (db_logs (wdb w)) ++ [logID] /\
        last (db_logs (wdb w')) = Some (adjust_row logID (b_ProductID b) bid delta reason u (wnow w)))) /\
  (forall b logID ids, u = None -> delta ≠ 0 -> batch_in_storage (wdb w) st id = Some b -> wids w = logID :: ids ->
     logID ∉ map log_ID (db_logs (wdb w)) -> 0 <= b_Quantity b + delta < 2 ^ 31 ->
     reason ∈ [ReasonPurchase; ReasonConsumption; ReasonAudit; ReasonVisionIngestion; ReasonMove] -> r = Ok tt).
Proof.
  intros W H. split_and!.
  - intros Hz. unfold AdjustBatch in H. destruct (Z.eqb_spec delta 0) as [->|Hd]; [by injection H as <- <-|].
    destruct Hz as [->| ->]; [done|]. by injection H as <- <-.
  - intros Hd Hr Hn. rewrite (AdjustBatch_run _ _ _ _ _ _ Hd Hr) in H.
    unfold adjustBatch, mbind, tx_bind, get_db in H. rewrite Hn in H. by injection H as <- <-.
  - intros b Hd Hr Hb Hi Hlt. rewrite (AdjustBatch_run _ _ _ _ _ _ Hd Hr) in H.
    unfold adjustBatch, mbind, tx_bind, get_db in H. rewrite Hb in H. unfold some_or, mret, tx_ret in H.
    rewrite wrap64_id, (proj2 (Z.ltb_lt _ _) Hlt) in H by done. by injection H as <- <-.
  - intros ->. unfold AdjustBatch in H. do 2 (tx_next H by require_ok as [_ ->]). tx_inv1 H.
    apply bind_ok in H as (p & w1 & H & H2). tx_inv1 H2. subst. apply adjustBatch_rows in H; [|done].
    destruct H as (b & logID & Hb & -> & Hq & Eb & El). exists b, logID. split; [done|]. split; [lia|].
    rewrite Eb, El. split_and!.
    + case_match; [apply lookup_delete_eq | apply lookup_insert_eq].
    + intros id' Hne. case_match; [by apply lookup_delete_ne | by apply lookup_insert_ne].
    + case_match; eexists; rewrite map_app, last_snoc; (split; [|reflexivity]); cbn; [|done].
      f_equal. rewrite map_map. apply map_ext. intros l. unfold unlink_batch. by case_bool_decide.
  - intros b logID ids -> Hd Hb Hids Hf Hq Hr.
    destruct (adjustBatch_total st id delta reason w b logID ids W Hb Hids Hf Hq Hr) as (p & w1 & E).
    assert (reason ≠ "") as Hne by (intros ->; set_solver).
    rewrite (AdjustBatch_run _ _ _ _ _ _ Hd Hne), E in H. by injection H as <- _.
Qed.

(** ** Splitting *)

Definition split_disposition (sp : SplitBatchInput) : string :=
  if String.eqb (sp_ContainerDisposition sp) "" then DispositionSource else sp_ContainerDisposition sp.

Definition source_keeps (disposition : string) : bool := bool_decide (disposition ∈ [DispositionSource; DispositionBoth]).
Definition target_gets (disposition : string) : bool := bool_decide (disposition ∈ [DispositionTarget; DispositionBoth]).

Definition source_drops (disposition : string) : bool := bool_decide (disposition ∈ [DispositionTarget; DispositionNeither]).

(** The five dispositions: who keeps the container, who gets it, whether it is
    destroyed. *)
Definition disposition_row (d : string) (keeps drops gets destroys : bool) : Prop :=
  source_keeps d = keeps /\ source_drops d = drops /\ target_gets d = gets /\ String.eqb d DispositionDestroy = destroys.

Lemma disposition_table d :
  ValidContainerDisposition d = true ->
  disposition_row d true false false false \/ disposition_row d false true true false \/
  disposition_row d true false true false \/ disposition_row d false true false false \/
  disposition_row d false false false true.
Proof.
  intros H. apply bool_decide_eq_true in H.
  repeat (apply elem_of_cons in H as [->|H]; [vm_compute; tauto|]). by apply not_elem_of_nil in H.
Qed.

(** What a split does to a batch that is neither of the two halves. *)
Definition bystander (disposition : string) (con : option uuid) (b : Batch) : Batch :=
  match con with
  | Some c => if String.eqb disposition DispositionDestroy then clear_container c b else b
  | None => b
  end.

(** What it does to a container. *)
Definition after_split (disposition : string) (con : option uuid) (t : Z) (id : uuid) (c : Container) : Container :=
  if String.eqb disposition DispositionDestroy && bool_decide (con = Some id) then set_destroyed t c else c.

Lemma after_split_same d con t id (o : option Container) : String.eqb d DispositionDestroy = false -> o = after_split d con t id <$> o.
Proof. intros E. unfold after_split. rewrite E. by destruct o. Qed.

Lemma set_container_self b : set_container (b_ContainerID b) b = b.
Proof. by destruct b. Qed.

Lemma clear_container_self c b : b_ContainerID b = Some c -> clear_container c b = set_container None b.
Proof. intros E. unfold clear_container. by rewrite bool_decide_eq_true_2. Qed.

(** The table of docs/specs/39-batch-containers.md, row by row. *)
Lemma split_container_rows st id d con w tc w' b :
  split_container st id d con w = (Ok tc, w') -> ValidContainerDisposition d = true ->
  db_batches (wdb w) !! id = Some b -> b_ContainerID b = con ->
  tc = (if target_gets d then con else None) /\
  db_batches (wdb w') !! id = Some (set_container (if source_keeps d then con else None) b) /\
  (forall id', id' ≠ id -> db_batches (wdb w') !! id' = bystander d con <$> db_batches (wdb w) !! id') /\
  (forall c, db_containers (wdb w') !! c = after_split d con (wnow w) c <$> db_containers (wdb w) !! c) /\
  db_logs (wdb w') = db_logs (wdb w) /\ elsewhere (wdb w') = elsewhere (wdb w) /\ wnow w' = wnow w.
Proof.
  intros H Hv Hb <-. unfold split_container in H. destruct (b_ContainerID b) as [c|] eqn:Ec.
  2: { tx_inv1 H. subst. split; [by case_match|]. split; [|split_and!; try done].
       - rewrite Hb. f_equal. destruct b; cbn in *. subst. by case_match.
       - intros id' _. cbn. by destruct (_ !! id').
       - intros c. unfold after_split. rewrite bool_decide_eq_false_2, andb_false_r by done. by destruct (_ !! c). }
  apply bind_ok in H as (u & w1 & H & Hr). tx_inv1 Hr. subst. split; [done|].
  change (bool_decide (d ∈ [DispositionSource; DispositionBoth])) with (source_keeps d) in H.
  change (bool_decide (d ∈ [DispositionTarget; DispositionNeither])) with (source_drops d) in H.
  unfold bystander. pose proof (disposition_table d Hv) as T.
  assert (Keep : String.eqb d DispositionDestroy = false -> source_keeps d = true -> w' = w ->
    db_batches (wdb w') !! id = Some (set_container (if source_keeps d then Some c else None) b) /\
    (forall id', id' ≠ id -> db_batches (wdb w') !! id' = (fun b => if String.eqb d DispositionDestroy then clear_container c b else b) <$> db_batches (wdb w) !! id') /\
    (forall c', db_containers (wdb w') !! c' = after_split d (Some c) (wnow w) c' <$> db_containers (wdb w) !! c') /\
    db_logs (wdb w') = db_logs (wdb w) /\ elsewhere (wdb w') = elsewhere (wdb w) /\ wnow w' = wnow w).
  { intros E1 E2 ->. rewrite E1, E2. split_and!; try done; [by rewrite Hb, <- Ec, set_container_self | |].
    - intros id' _. by destruct (_ !! id').
    - intros c'. by apply after_split_same. }
  assert (Detach : String.eqb d DispositionDestroy = false -> source_keeps d = false -> detachBatchContainer id w = (Ok u, w') ->
    db_batches (wdb w') !! id = Some (set_container (if source_keeps d then Some c else None) b) /\
    (forall id', id' ≠ id -> db_batches (wdb w') !! id' = (fun b => if String.eqb d DispositionDestroy then clear_container c b else b) <$> db_batches (wdb w) !! id') /\
    (forall c', db_containers (wdb w') !! c' = after_split d (Some c) (wnow w) c' <$> db_containers (wdb w) !! c') /\
    db_logs (wdb w') = db_logs (wdb w) /\ elsewhere (wdb w') = elsewhere (wdb w) /\ wnow w' = wnow w).
  { intros E1 E2 Hd. unfold detachBatchContainer in Hd. tx_inv. rewrite E1, E2. cbn. split_and!; try done; [by rewrite lookup_alter_eq, Hb | |].
    - intros id' Hne. rewrite lookup_alter_ne by done. by destruct (_ !! id').
    - intros c'. by apply after_split_same. }
  destruct T as [T|[T|[T|[T|T]]]]; destruct T as (T1 & T2 & T3 & T4); rewrite T1, ?T2, ?T4 in H; [|by apply Detach| |by apply Detach|].
  - tx_inv1 H. by apply Keep.
  - tx_inv1 H. by apply Keep.
  - clear Keep Detach. rewrite T1, T4. unfold destroyContainer in H. apply bind_ok in H as (d0 & w2 & H1 & H). tx_inv.
    destruct (db_containers (wdb w) !! c) as [con|] eqn:Hc; [|by tx_inv].
    destruct (_ && _); tx_inv. cbn. split_and!; try done.
    + rewrite lookup_fmap, Hb. cbn. f_equal. by apply clear_container_self.
    + intros id' _. by rewrite lookup_fmap.
    + intros c'. unfold after_split. rewrite T4. cbn [andb]. case_bool_decide as E.
      * injection E as <-. by rewrite lookup_insert_eq, Hc.
      * rewrite lookup_insert_ne by congruence. by destruct (_ !! c').
Qed.

(** The rows of a successful split. *)
Definition split_row (sp : SplitBatchInput) (b : Batch) (t : Z) : Batch :=
  mkBatch (b_ProductID b) (sp_TargetLocationID sp) (sp_Quantity sp) (b_ExpirationDate b) (b_ExpirationSource b) t
    (if target_gets (split_disposition sp) then b_ContainerID b else None).

Lemma SplitBatch_ok st id sp u w v w' :
  SplitBatch st id sp u w = (Ok v, w') ->
  exists new ids b w1 w2,
    wids w = new :: ids /\ batch_in_storage (wdb w) st id = Some b /\
    ValidContainerDisposition (split_disposition sp) = true /\
    1 <= sp_Quantity sp <= b_Quantity b - 1 /\
    split_container st id (split_disposition sp) (b_ContainerID b)
      (with_db (set_batches (alter (set_quantity (b_Quantity b - sp_Quantity sp)) id) (wdb w)) (mkWorld (wdb w) ids (wnow w) (wclock w)))
      = (Ok (if target_gets (split_disposition sp) then b_ContainerID b else None), w1) /\
    (let row := split_row sp b (wnow w1) in
     batch_row_ok (wdb w1) new row = true /\
     writeLog (b_ProductID b) (Some id) (wrap64 (- sp_Quantity sp)) ReasonMove u
       (with_db (set_batches <[new := row]> (wdb w1)) w1) = (Ok tt, w2)) /\
    writeLog (b_ProductID b) (Some new) (sp_Quantity sp) ReasonMove u w2 = (Ok tt, w') /\
    v = view_batch (wdb w') new (split_row sp b (wnow w1)).
Proof.
  unfold SplitBatch. fold (split_disposition sp). intros H.
  tx_next H by require_ok as [Hv ->]. tx_next H for new by newID_ok as (ids & Hids & ->). tx_inv1 H.
  tx_next H for d by get_db_ok as [-> ->]. tx_next H for b by some_or_ok as [Hb ->].
  tx_next H by require_ok as [Hn ->].
  tx_next H by requireSameStorage_ok as (-> & _).
  tx_next H by update_quantity_ok as (_ & ->).
  apply bind_ok in H as (con & w1 & Hsc & H).
  tx_next H for t by now_ok as [-> ->].
  tx_next H by insert_batch_ok as [Hrow ->].
  apply bind_ok in H as ([] & w2 & H1 & H). apply bind_ok in H as ([] & w3 & H2 & H).
  apply loadBatch_ok in H as [-> (b' & Hb2 & ->)].
  assert (con = if target_gets (split_disposition sp) then b_ContainerID b else None) as ->.
  { pose proof Hb as Hb'. apply batch_in_storage_some in Hb' as [Hid _].
    eapply split_container_rows in Hsc as [E _]; [exact E | done | cbn; by rewrite lookup_alter_eq, Hid | done]. }
  assert (b' = split_row sp b (wnow w1)) as ->.
  { apply batch_in_storage_some in Hb2 as [Hb2 _]. apply writeLog_row in H1 as (? & _ & E1 & _).
    apply writeLog_row in H2 as (? & _ & E2 & _). rewrite E2, E1 in Hb2. cbn in Hb2. rewrite lookup_insert_eq in Hb2. by injection Hb2 as <-. }
  exists new, ids, b, w1, w2. do 3 (split; [done|]). split; [|done].
  rewrite Z.gtb_ltb in Hn. bool_to_prop. lia.
Qed.

(** A pair of move rows leaves every ledger sum alone. *)
Lemma move_pair_ledger p q i j u w x1 w1 x2 w2 :
  1 <= q < 2 ^ 31 ->
  writeLog p i (wrap64 (- q)) ReasonMove u w = (Ok x1, w1) -> writeLog p j q ReasonMove u w1 = (Ok x2, w2) ->
  forall p', ledger (wdb w2) p' = ledger (wdb w) p'.
Proof.
  intros Hq H1 H2 p'. rewrite wrap64_id in H1 by (unfold is_int64; lia).
  apply writeLog_books in H1 as [_ L1]. apply writeLog_books in H2 as [_ L2]. rewrite L2, L1.
  destruct (p =? p'); lia.
Qed.

(** C21: What SplitBatch does.  If it fails, no table has changed.  If it succeeds it
    took between one and all-but-one units: the source keeps its row with the rest;
    the new batch, whose id was not in use, gets the units at the target location
    with the source's product, expiration date and expiration source, and is what is
    returned; the container goes where the disposition's row of the table says, and
    is destroyed, and cleared everywhere, only by "destroy", and every other
    container is as it was; every other batch is untouched; exactly two ledger rows
    are written, the units leaving the source and the units arriving at the new
    batch, both moves of the source's product by the caller; no other table
    changes; and no product's total stock changes. *)
Theorem SplitBatch_spec st id sp u w r w' :
  wf (wdb w) -> SplitBatch st id sp u w = (r, w') ->
  (forall e, r = Fail e -> wdb w' = wdb w) /\
  forall v, r = Ok v ->
  exists b i1 i2, batch_in_storage (wdb w) st id = Some b /\ 1 <= sp_Quantity sp <= b_Quantity b - 1 /\
    let d := split_disposition sp in
    let new := bv_ID v in
    let q := sp_Quantity sp in
    ValidContainerDisposition d = true /\
    db_batches (wdb w) !! new = None /\ v = view_batch (wdb w') new (split_row sp b (wnow w)) /\
    db_batches (wdb w') !! new = Some (split_row sp b (wnow w)) /\
    db_batches (wdb w') !! id = Some (set_container (if source_keeps d then b_ContainerID b else None) (set_quantity (b_Quantity b - q) b)) /\
    (forall id', id' ≠ id -> id' ≠ new ->
       db_batches (wdb w') !! id' = bystander d (b_ContainerID b) <$> db_batches (wdb w) !! id') /\
    (forall c, db_containers (wdb w') !! c = after_split d (b_ContainerID b) (wnow w) c <$> db_containers (wdb w) !! c) /\
    db_logs (wdb w') = db_logs (wdb w) ++ [mkLogRow i1 (b_ProductID b) (Some id) (- q) ReasonMove u (wnow w);
                                           mkLogRow i2 (b_ProductID b) (Some new) q ReasonMove u (wnow w)] /\
    elsewhere (wdb w') = elsewhere (wdb w) /\
    forall p, stock (wdb w') p = stock (wdb w) p.
Proof.
  intros W H. split.
  { intros e ->. unfold SplitBatch in H. apply bind_fail in H as [H|(? & ? & H1 & H)]; [by apply require_run in H as ->|].
    apply require_ok in H1 as [_ ->]. apply bind_fail in H as [H|(? & ? & H1 & H)].
    - unfold newID in H. destruct (wids w); by simplify_eq.
    - apply newID_ok in H1 as (ids & _ & ->). by apply inTx_run in H as [-> | (? & ? & _)]. }
  intros v ->. destruct (SplitBatch_good _ _ _ _ _ _ _ H W) as [_ Hgap].
  apply SplitBatch_ok in H as (new & ids & b & w1 & w2 & _ & Hb & Hv & Hn & Hsc & (Hrow & H1) & H2 & Hview).
  pose proof Hb as Hb'. apply batch_in_storage_some in Hb' as [Hid _].
  assert (Hq : 1 <= b_Quantity b < 2 ^ 31).
  { destruct W as [Wb _]. destruct (Wb id b Hid) as (? & ? & _ & _ & _ & Hq & _). exact Hq. }
  assert (Hq1 : 1 <= sp_Quantity sp < 2 ^ 31) by lia.
  eapply (split_container_rows _ _ _ _ _ _ _ (set_quantity (b_Quantity b - sp_Quantity sp) b)) in Hsc
    as (_ & Hsrc & Hby & Hcon & Hlogs & Helse & Hnow); [| done | cbn; by rewrite lookup_alter_eq, Hid | done].
  assert (HL : forall p, ledger (wdb w') p = ledger (wdb w) p).
  { intros p. rewrite (move_pair_ledger _ _ _ _ _ _ _ _ _ _ Hq1 H1 H2 p). unfold ledger.
    cbn [wdb with_db set_batches db_logs]. by rewrite Hlogs. }
  apply writeLog_row in H1 as (i1 & L1 & B1 & C1 & E1 & N1 & _). apply writeLog_row in H2 as (i2 & L2 & B2 & C2 & E2 & N2 & _).
  cbn [wdb with_db set_logs set_batches db_batches db_logs db_containers wnow] in *.
  rewrite Hnow in *. rewrite wrap64_id in L1 by (unfold is_int64; lia).
  assert (Hne : new ≠ id) by (intros ->; unfold batch_row_ok in Hrow; bool_to_prop; congruence).
  assert (Hnew : db_batches (wdb w1) !! new = None) by (unfold batch_row_ok in Hrow; by bool_to_prop).
  exists b, i1, i2. split; [done|]. split; [done|]. subst v. cbn [bv_ID view_batch]. split_and!.
  - done.
  - rewrite Hby in Hnew by done. rewrite lookup_alter_ne in Hnew by done. by destruct (db_batches (wdb w) !! new).
  - done.
  - by rewrite B2, B1, lookup_insert_eq.
  - by rewrite B2, B1, lookup_insert_ne.
  - intros id' Hi Hj. rewrite B2, B1, lookup_insert_ne, Hby by done. by rewrite lookup_alter_ne.
  - intros c. by rewrite C2, C1, Hcon.
  - by rewrite L2, L1, N1, Hlogs, <- app_assoc.
  - rewrite E2, E1. exact Helse.
  - intros p. specialize (Hgap p). unfold gap in Hgap. specialize (HL p). lia.
Qed.

(** ** Moving and patching *)

Lemma moveBatch_rows st id target u w v w' :
  moveBatch st id target u w = (Ok v, w') ->
  exists b, batch_in_storage (wdb w) st id = Some b /\
    db_batches (wdb w') = <[id := set_location target b]> (db_batches (wdb w)) /\
    length (db_logs (wdb w')) = (length (db_logs (wdb w)) + (if Z.eqb (b_LocationID b) target then 0 else 2))%nat.
Proof.
  unfold moveBatch. intros H.
  tx_next H for d by get_db_ok as [-> ->]. tx_next H for b by some_or_ok as [Hb ->].
  tx_next H by requireSameStorage_ok as (-> & _). pose proof Hb as Hb'. apply batch_in_storage_some in Hb' as [Hid _].
  exists b. split; [done|]. destruct (Z.eqb_spec (b_LocationID b) target) as [E|E].
  - apply loadBatch_ok in H as [-> _]. split; [|lia]. rewrite insert_id; [done|].
    rewrite Hid. f_equal. destruct b; cbn in *; by subst.
  - tx_next H by modify_ok as ->. apply bind_ok in H as (? & w1 & H1 & H). apply bind_ok in H as (? & w2 & H2 & H).
    tx_inv. apply writeLog_ok in H1 as (? & ? & _ & _ & ->). apply writeLog_ok in H2 as (? & ? & _ & _ & ->). cbn.
    split; [by apply alter_as_insert|]. rewrite !length_app. cbn. lia.
Qed.

(** Only which container a batch is in may differ, and only for batch [id]. *)
Definition recontained (id : uuid) (d d' : DB) : Prop :=
  db_logs d' = db_logs d /\ db_products d' = db_products d /\
  (forall id', id' ≠ id -> db_batches d' !! id' = db_batches d !! id') /\
  set_container None <$> db_batches d' !! id = set_container None <$> db_batches d !! id.

#[export] Instance recontained_refl id : Reflexive (recontained id).
Proof. by intros d. Qed.

#[export] Instance recontained_trans id : Transitive (recontained id).
Proof.
  intros d1 d2 d3 (A1 & B1 & C1 & D1) (A2 & B2 & C2 & D2). split; [congruence|]. split; [congruence|].
  split; [|congruence]. intros id' Hne. by rewrite C2, C1.
Qed.

Lemma recontained_attach id c d : recontained id d (set_batches (alter (set_container c) id) d).
Proof.
  split; [done|]. split; [done|]. split; cbn.
  - intros id' Hne. by rewrite lookup_alter_ne.
  - rewrite lookup_alter_eq. by destruct (db_batches d !! id).
Qed.

Lemma recontained_update f st c id d : recontained id d (update_container f st c d).
Proof. unfold update_container. by destruct (db_containers d !! c); [case_match|]. Qed.

Lemma upsert_recontained st id label w u w' :
  upsertBatchContainerLabel st id label w = (Ok u, w') -> recontained id (wdb w) (wdb w').
Proof.
  unfold upsertBatchContainerLabel. intros H. apply bind_ok in H as (cur & w1 & H1 & H).
  apply batchContainerID_ok in H1 as (-> & b & Hb & Hcur). destruct cur as [c|]; tx_inv.
  - apply recontained_update.
  - etransitivity; [|apply recontained_attach]. done.
Qed.

Lemma patch_container_recontained st id patch w u w' :
  patch_container st id patch w = (Ok u, w') -> recontained id (wdb w) (wdb w').
Proof.
  unfold patch_container. destruct (touchesContainer patch); intros H; [|by tx_inv].
  tx_next H by loadBatch_ok as (-> & _). apply bind_ok in H as (? & w1 & H1 & H2). transitivity (wdb w1).
  - destruct (bp_SetContainerLabel patch); [|by tx_inv]. destruct (bp_ContainerLabel patch).
    + by eapply upsert_recontained.
    + unfold detachBatchContainer in H1. tx_inv. apply recontained_attach.
  - destruct (bp_SetContainerType patch); [|by tx_inv]. unfold setBatchContainerType in H2.
    apply bind_ok in H2 as (cur & w2 & H3 & H2). apply batchContainerID_ok in H3 as (-> & _).
    destruct cur; tx_inv. apply recontained_update.
Qed.

Lemma setBatchQuantity_rows st id q u w p changed w' :
  wf (wdb w) -> is_int64 q -> setBatchQuantity st id q u w = (Ok (p, changed), w') ->
  exists b, batch_in_storage (wdb w) st id = Some b /\ p = b_ProductID b /\ 0 <= q /\
    changed = negb (Z.eqb q (b_Quantity b)) /\
    db_batches (wdb w') = (if q =? 0 then delete id (db_batches (wdb w)) else <[id := set_quantity q b]> (db_batches (wdb w))) /\
    length (db_logs (wdb w')) = (length (db_logs (wdb w)) + (if changed then 1 else 0))%nat.
Proof.
  unfold setBatchQuantity. intros W Hq H. tx_next H by require_ok as [Hge ->].
  tx_next H for d by get_db_ok as [-> ->]. tx_next H for b by some_or_ok as [Hb ->]. bool_to_prop.
  pose proof Hb as Hb'. apply batch_in_storage_some in Hb' as [Hid _].
  assert (Hqb : 1 <= b_Quantity b < 2 ^ 31).
  { destruct W as [Wb _]. destruct (Wb id b Hid) as (? & ? & _ & _ & _ & Hqb & _). exact Hqb. }
  exists b. split; [done|]. destruct (Z.eqb_spec q (b_Quantity b)) as [->|Hne].
  - tx_inv1 H. injection H as <- <-. subst. do 3 (split; [done|]). rewrite (proj2 (Z.eqb_neq _ 0)) by lia.
    split; [|lia]. rewrite insert_id; [done|]. rewrite Hid. f_equal. by destruct b.
  - apply bind_ok in H as (p0 & w1 & H1 & H). tx_inv1 H. injection H as <- <-. subst.
    apply adjustBatch_rows in H1 as (b1 & logID & Hb1 & _ & _ & Eb & El); [|done].
    assert (b1 = b) as -> by congruence. unfold is_int64 in Hq. rewrite wrap64_id in Eb, El by (unfold is_int64; lia).
    replace (b_Quantity b + (q - b_Quantity b)) with q in * by lia.
    do 3 (split; [done|]). split; [done|]. rewrite El. cbn [negb].
    case_match; rewrite length_app, ?length_map; cbn; lia.
Qed.

(** A patch that returns found its batch in the storage. *)
Lemma patch_rest_finds st id patch u w r w' :
  patch_rest st id patch u w = (Ok r, w') -> exists b, batch_in_storage (wdb w) st id = Some b.
Proof.
  unfold patch_rest. intros H. apply bind_ok in H as (? & w1 & H1 & H).
  apply patch_container_recontained in H1 as (_ & Ep & _ & Ei). apply bind_ok in H as (? & w2 & H2 & H).
  assert (exists b1, batch_in_storage (wdb w1) st id = Some b1) as [b1 Hb1].
  { destruct (bp_LocationID patch).
    - apply bind_ok in H2 as (? & ? & H2 & _). apply moveBatch_rows in H2 as (b & Hb & _). eauto.
    - tx_inv1 H2. subst. apply bind_ok in H as (? & ? & H & _). apply loadBatch_ok in H as (_ & b & Hb & _). eauto. }
  apply batch_in_storage_some in Hb1 as (Hb1 & p & Hp & Hs). rewrite Hb1 in Ei.
  destruct (db_batches (wdb w) !! id) as [b|] eqn:Hb; [|done]. cbn in Ei. injection Ei as E1 _.
  exists b. apply batch_in_storage_some. split; [done|]. exists p. rewrite Ep in Hp. split; [congruence | done].
Qed.

(** *** A patch, row by row *)

(** A request that is not refused for its shape. *)
Definition well_formed_patch (patch : BatchPatch) : bool :=
  match bp_Quantity patch with
  | None => bool_decide (is_Some (bp_LocationID patch)) || touchesContainer patch
  | Some q => (0 <? q) || (q =? 0) && negb (bool_decide (is_Some (bp_LocationID patch))) && negb (touchesContainer patch)
  end.

(** The label a patch names: an empty one takes the batch out of its container, another
    renames the container, or makes one for a batch that has none. *)
Definition relabelled (st : uuid) (patch : BatchPatch) (t : Z) (con : option uuid) (cs : gmap uuid Container)
    (con1 : option uuid) (cs1 : gmap uuid Container) : Prop :=
  if bp_SetContainerLabel patch then
    match bp_ContainerLabel patch, con with
    | None, _ => con1 = None /\ cs1 = cs
    | Some label, Some c => con1 = con /\ cs1 = alter (fun k => if con_StorageID k =? st then set_label label k else k) c cs
    | Some label, None => exists id, cs !! id = None /\ con1 = Some id /\ cs1 = <[id := mkContainer st label None t None]> cs
    end
  else con1 = con /\ cs1 = cs.

(** The type it names is that of the container the batch is in by then. *)
Definition retyped (st : uuid) (patch : BatchPatch) (con1 : option uuid) (cs1 cs2 : gmap uuid Container) : Prop :=
  if bp_SetContainerType patch
  then exists c, con1 = Some c /\ cs2 = alter (fun k => if con_StorageID k =? st then set_type (bp_ContainerType patch) k else k) c cs1
  else cs2 = cs1.

(** What every step of a patch leaves alone. *)
Definition quiet (w w' : World) : Prop := db_logs (wdb w') = db_logs (wdb w) /\ elsewhere (wdb w') = elsewhere (wdb w) /\ wnow w' = wnow w.

#[local] Instance quiet_refl : Reflexive quiet.
Proof. by intros w. Qed.
#[local] Instance quiet_trans : Transitive quiet.
Proof. intros w1 w2 w3 (A & B & C) (D & E & F). unfold quiet. split_and!; congruence. Qed.

Lemma update_container_rows f st c d :
  db_containers (update_container f st c d) = alter (fun k => if con_StorageID k =? st then f k else k) c (db_containers d) /\
  db_batches (update_container f st c d) = db_batches d /\ db_logs (update_container f st c d) = db_logs d /\
  elsewhere (update_container f st c d) = elsewhere d.
Proof.
  unfold update_container. destruct (db_containers d !! c) as [k|] eqn:E; [destruct (con_StorageID k =? st) eqn:Es|];
    cbn; split_and!; try done; apply map_eq; intros i; (destruct (decide (c = i)) as [->|Hne]; [|by rewrite ?lookup_insert_ne, lookup_alter_ne]);
    by rewrite ?lookup_insert_eq, lookup_alter_eq, ?E; cbn; rewrite ?Es.
Qed.

Lemma batch_at_insert (f : Batch -> Batch) id b (m : gmap uuid Batch) : m !! id = Some b -> alter f id m = <[id := f b]> m.
Proof. intros H. by apply alter_as_insert. Qed.

Lemma same_row id b d : db_batches d !! id = Some b -> db_batches d = <[id := set_container (b_ContainerID b) b]> (db_batches d).
Proof. intros H. rewrite set_container_self. by rewrite insert_id. Qed.

Lemma relabel_rows st id patch w u w' b :
  (if bp_SetContainerLabel patch then
     match bp_ContainerLabel patch with
     | None => detachBatchContainer id
     | Some label => upsertBatchContainerLabel st id label
     end
   else mret tt : Tx unit) w = (Ok u, w') -> db_batches (wdb w) !! id = Some b ->
  exists con, relabelled st patch (wnow w) (b_ContainerID b) (db_containers (wdb w)) con (db_containers (wdb w')) /\
    db_batches (wdb w') = <[id := set_container con b]> (db_batches (wdb w)) /\ quiet w w'.
Proof.
  unfold relabelled. intros H Hb. destruct (bp_SetContainerLabel patch).
  2: { injection H as _ <-. exists (b_ContainerID b). split_and!; [done | done | by apply same_row | done]. }
  destruct (bp_ContainerLabel patch) as [label|].
  - unfold upsertBatchContainerLabel in H. apply bind_ok in H as (cur & w1 & H1 & H).
    apply batchContainerID_ok in H1 as (-> & b' & Hb' & <-). assert (b' = b) as -> by congruence.
    destruct (b_ContainerID b) as [c|] eqn:Ec.
    + tx_inv1 H. subst. destruct (update_container_rows (set_label label) st c (wdb w)) as (E1 & E2 & E3 & E4). exists (Some c). cbn.
      rewrite E1, E2. split_and!; [done | done | rewrite <- Ec; by apply same_row | by split_and!].
    + tx_next H for id2 by newID_ok as (ids & _ & ->). tx_next H for d by get_db_ok as [-> ->].
      tx_next H by require_ok as [Hn ->]. bool_to_prop. tx_next H for t by now_ok as [-> ->].
      tx_next H by modify_ok as ->. apply modify_ok in H as ->. cbn in *. exists (Some id2). split_and!; [by exists id2 | by apply batch_at_insert | done].
  - unfold detachBatchContainer in H. apply modify_ok in H as ->. exists None. cbn. split_and!; [done | done | by apply batch_at_insert | done].
Qed.

Lemma patch_container_rows st id patch w u w' b :
  patch_container st id patch w = (Ok u, w') -> db_batches (wdb w) !! id = Some b ->
  exists con cs1, relabelled st patch (wnow w) (b_ContainerID b) (db_containers (wdb w)) con cs1 /\
    retyped st patch con cs1 (db_containers (wdb w')) /\
    db_batches (wdb w') = <[id := set_container con b]> (db_batches (wdb w)) /\ quiet w w'.
Proof.
  unfold patch_container. intros H Hb. destruct (touchesContainer patch) eqn:Ht.
  2: { injection H as _ <-. apply orb_false_iff in Ht as [E1 E2]. exists (b_ContainerID b), (db_containers (wdb w)).
       unfold relabelled, retyped. rewrite E1, E2. split_and!; [done | done | done | by apply same_row | done]. }
  tx_next H by loadBatch_ok as (-> & _). apply bind_ok in H as (? & w1 & H1 & H).
  apply (relabel_rows _ _ _ _ _ _ b) in H1 as (con & Hr & Eb & Q); [|done].
  exists con, (db_containers (wdb w1)). split; [done|]. unfold retyped. destruct (bp_SetContainerType patch).
  2: { by injection H as _ <-. }
  unfold setBatchContainerType in H. apply bind_ok in H as (cur & w2 & H3 & H). apply batchContainerID_ok in H3 as (-> & b1 & Hb1 & <-).
  rewrite Eb, lookup_insert_eq in Hb1. injection Hb1 as <-. cbn [b_ContainerID set_container] in H.
  destruct con as [c|]; [|by tx_inv1 H]. tx_inv1 H. subst.
  destruct (update_container_rows (set_type (bp_ContainerType patch)) st c (wdb w1)) as (E1 & E2 & E3 & E4). cbn. rewrite E1, E2.
  split_and!; [by exists c | done |]. transitivity w1; [done|]. by split_and!.
Qed.

(** The two rows a move writes. *)
Definition moved (i1 i2 id p q : uuid) (u : option uuid) (t from target : Z) : list LogRow :=
  if from =? target then []
  else [mkLogRow i1 p (Some id) (- q) ReasonMove u t; mkLogRow i2 p (Some id) q ReasonMove u t].

Lemma moveBatch_exact st id target u w v w' :
  moveBatch st id target u w = (Ok v, w') ->
  exists b i1 i2, batch_in_storage (wdb w) st id = Some b /\
    (exists row, db_locations (wdb w) !! target = Some row /\ loc_StorageID row = st) /\
    db_batches (wdb w') = <[id := set_location target b]> (db_batches (wdb w)) /\ db_containers (wdb w') = db_containers (wdb w) /\
    db_logs (wdb w') = db_logs (wdb w) ++ moved i1 i2 id (b_ProductID b) (b_Quantity b) u (wnow w) (b_LocationID b) target /\
    elsewhere (wdb w') = elsewhere (wdb w).
Proof.
  unfold moveBatch. intros H. tx_next H for d by get_db_ok as [-> ->]. tx_next H for b by some_or_ok as [Hb ->].
  tx_next H by requireSameStorage_ok as (-> & n & Hn & Hst). pose proof Hb as Hb'. apply batch_in_storage_some in Hb' as [Hid _].
  assert (Hrow : exists row, db_locations (wdb w) !! target = Some row /\ loc_StorageID row = st).
  { cbn in Hn. rewrite lookup_fmap in Hn. destruct (db_locations (wdb w) !! target) as [row|]; [|done]. cbn in Hn. exists row.
    injection Hn as <-. done. }
  exists b. unfold moved. destruct (Z.eqb_spec (b_LocationID b) target) as [E|E].
  - apply loadBatch_ok in H as [-> _]. exists 0, 0. split_and!; try done; [|by rewrite app_nil_r]. rewrite insert_id; [done|].
    rewrite Hid. f_equal. destruct b; cbn in *; by subst.
  - tx_next H by modify_ok as ->. apply bind_ok in H as (? & w1 & H1 & H). apply bind_ok in H as (? & w2 & H2 & H). tx_inv1 H. subst.
    pose proof (writeLog_int4 _ _ _ _ _ _ _ _ H2) as Hq.
    apply writeLog_row in H1 as (i1 & L1 & B1 & C1 & E1 & N1 & _). apply writeLog_row in H2 as (i2 & L2 & B2 & C2 & E2 & N2 & _).
    cbn [wdb with_db set_batches db_batches db_logs db_containers wnow] in *. exists i1, i2. split_and!; try done.
    + rewrite B2, B1. by apply batch_at_insert.
    + by rewrite C2, C1.
    + rewrite L2, L1, N1, <- app_assoc, wrap64_id by (unfold is_int64; lia). done.
    + rewrite E2, E1. done.
Qed.

(** Every table but batches, containers, the ledger and the scores. *)
Definition off_shelves (d : DB) : DB := inventory_part (elsewhere d).

Lemma off_shelves_scoring d d' : inventory_part d' = inventory_part d -> off_shelves d' = off_shelves d.
Proof. intros E. change (elsewhere (inventory_part d') = elsewhere (inventory_part d)). by rewrite E. Qed.

(** The row a corrected quantity writes. *)
Definition corrected (i id p q old : uuid) (u : option uuid) (t : Z) : list LogRow :=
  if q =? old then [] else [mkLogRow i p (if q =? 0 then None else Some id) (q - old) ReasonAudit u t].

Lemma setBatchQuantity_exact st id q u w p changed w' :
  wf (wdb w) -> is_int64 q -> setBatchQuantity st id q u w = (Ok (p, changed), w') ->
  exists b i, batch_in_storage (wdb w) st id = Some b /\ 1 <= b_Quantity b < 2 ^ 31 /\ 0 <= q < 2 ^ 31 /\
    db_batches (wdb w') = (if q =? 0 then delete id (db_batches (wdb w)) else <[id := set_quantity q b]> (db_batches (wdb w))) /\
    db_containers (wdb w') = db_containers (wdb w) /\
    db_logs (wdb w') = (if q =? 0 then map (unlink_batch id) (db_logs (wdb w)) else db_logs (wdb w))
                       ++ corrected i id (b_ProductID b) q (b_Quantity b) u (wnow w) /\
    off_shelves (wdb w') = off_shelves (wdb w) /\ wnow w' = wnow w /\ wclock w' = wclock w.
Proof.
  unfold setBatchQuantity, corrected. intros W Hq H. tx_next H by require_ok as [Hge ->].
  tx_next H for d by get_db_ok as [-> ->]. tx_next H for b by some_or_ok as [Hb ->]. bool_to_prop.
  pose proof Hb as Hb'. apply batch_in_storage_some in Hb' as [Hid _].
  assert (Hqb : 1 <= b_Quantity b < 2 ^ 31).
  { destruct W as [Wb _]. destruct (Wb id b Hid) as (? & ? & _ & _ & _ & Hqb & _). exact Hqb. }
  exists b. destruct (Z.eqb_spec q (b_Quantity b)) as [->|Hne].
  - injection H as _ _ <-. exists 0. rewrite (proj2 (Z.eqb_neq _ 0)) by lia. do 3 (split; [done || lia|]). split_and!; try done; [|by rewrite app_nil_r].
    rewrite insert_id; [done|]. rewrite Hid. f_equal. by destruct b.
  - apply bind_ok in H as (p0 & w1 & H1 & H). injection H as _ _ <-. apply adjustBatch_ok in H1 as (b1 & wl & Hb1 & -> & H & Hbump).
    assert (b1 = b) as -> by congruence. unfold is_int64 in Hq.
    rewrite (wrap64_id (q - b_Quantity b)) in H by (unfold is_int64; lia). cbv zeta in H.
    rewrite wrap64_id in H by (unfold is_int64; lia). replace (b_Quantity b + (q - b_Quantity b)) with q in H by lia.
    pose proof (scoring_bumpForLedgerReason st u ReasonAudit id) as Hsc. destruct (Hsc _ _ _ Hbump) as (Ei & En & Ek).
    apply scoring_tables in Hbump as (Eb & El & _ & Ec); [|done]. apply off_shelves_scoring in Ei.
    destruct H as [[Ez H]|[Ez H]]; apply writeLog_row in H as (i & L & B & C & E & N & K); exists i; rewrite Eb, El, Ec, En, Ek, L, B, C, N, K, Ei.
    + cbn in Ez. rewrite (proj2 (Z.eqb_eq q 0)) by lia. do 3 (split; [done || lia|]). split_and!; try done. exact (f_equal inventory_part E).
    + cbn in Ez. rewrite (proj2 (Z.eqb_neq q 0)) by lia. do 3 (split; [done || lia|]). split_and!; try done; [by apply batch_at_insert | exact (f_equal inventory_part E)].
Qed.

(** What the part of a patch after the quantity does. *)
Lemma patch_rest_exact st id patch u w r w' b :
  patch_rest st id patch u w = (Ok r, w') -> db_batches (wdb w) !! id = Some b ->
  let l := default (b_LocationID b) (bp_LocationID patch) in
  exists con cs1 i1 i2,
    relabelled st patch (wnow w) (b_ContainerID b) (db_containers (wdb w)) con cs1 /\
    retyped st patch con cs1 (db_containers (wdb w')) /\
    (forall target, bp_LocationID patch = Some target -> exists row, db_locations (wdb w) !! target = Some row /\ loc_StorageID row = st) /\
    let b' := set_container con (set_location l b) in
    r = Some (view_batch (wdb w') id b') /\
    db_batches (wdb w') = <[id := b']> (db_batches (wdb w)) /\
    db_logs (wdb w') = db_logs (wdb w) ++ moved i1 i2 id (b_ProductID b) (b_Quantity b) u (wnow w) (b_LocationID b) l /\
    elsewhere (wdb w') = elsewhere (wdb w).
Proof.
  unfold patch_rest. intros H Hb. apply bind_ok in H as (? & w1 & H1 & H).
  apply (patch_container_rows _ _ _ _ _ _ b) in H1 as (con & cs1 & Hr & Ht & Eb & El & Ee & En); [|done].
  assert (Hloc : db_locations (wdb w1) = db_locations (wdb w)) by apply (f_equal db_locations Ee).
  apply bind_ok in H as (? & w2 & H2 & H). apply bind_ok in H as (v & ? & H3 & H). injection H as <- <-.
  apply loadBatch_ok in H3 as (-> & b2 & Hb2 & ->). apply batch_in_storage_some in Hb2 as [Hb2 _].
  destruct (bp_LocationID patch) as [target|]; cbn [default].
  - apply bind_ok in H2 as (? & w3 & H2 & H4). injection H4 as _ <-.
    apply moveBatch_exact in H2 as (b0 & i1 & i2 & Hb0 & Hrow & Eb3 & Ec3 & El3 & Ee3). apply batch_in_storage_some in Hb0 as [Hb0 _].
    rewrite Eb, lookup_insert_eq in Hb0. injection Hb0 as <-. rewrite Eb3, lookup_insert_eq in Hb2. injection Hb2 as <-.
    exists con, cs1, i1, i2. rewrite Ec3, Eb3, Eb, El3, El, En, Ee3, Ee, insert_insert_eq, <- Hloc. split_and!; try done. by intros ? [= <-].
  - injection H2 as _ <-. rewrite Eb, lookup_insert_eq in Hb2. injection Hb2 as <-.
    assert (Es : set_location (b_LocationID b) b = b) by (by destruct b).
    exists con, cs1, 0, 0. unfold moved. rewrite Es, Z.eqb_refl, Eb, El, Ee, app_nil_r. by split_and!.
Qed.

(** *** Refusals *)

Lemma UpdateBatch_fails st id patch u w e w' : UpdateBatch st id patch u w = (Fail e, w') -> wdb w' = wdb w.
Proof.
  unfold UpdateBatch. intros H.
  do 3 (apply bind_fail in H as [H|(? & ? & H1 & H)]; [by apply require_run in H as ->|]; apply require_run in H1 as ->).
  by apply inTx_run in H as [H | (? & ? & _)].
Qed.

Lemma UpdateBatch_malformed st id patch u w r w' :
  UpdateBatch st id patch u w = (r, w') -> well_formed_patch patch = false -> r = Fail ErrValidation /\ w' = w.
Proof.
  unfold UpdateBatch, well_formed_patch. intros H Hbad. destruct (bp_Quantity patch) as [q|].
  - apply orb_false_iff in Hbad as [Hpos Hbad]. rewrite (bool_decide_eq_false_2 (Some q = None)) in H by done. cbn [andb negb] in H.
    destruct (decide (q = 0)) as [->|Hne].
    + rewrite (bool_decide_eq_true_2 (Some 0 = Some 0)) in H by done. cbn [andb] in *.
      destruct (bool_decide (is_Some (bp_LocationID patch))); [by injection H as <- <-|].
      destruct (touchesContainer patch); [by injection H as <- <- | done].
    + rewrite (bool_decide_eq_false_2 (Some q = Some 0)) in H by congruence. cbn [andb negb] in H.
      unfold setBatchQuantity in H. rewrite (proj2 (Z.ltb_lt q 0)) in H by lia. destruct w. by injection H as <- <-.
  - apply orb_false_iff in Hbad as [H1 H2]. apply bool_decide_eq_false in H1. rewrite H2 in H.
    destruct (bp_LocationID patch); [by exfalso; apply H1|]. by injection H as <- <-.
Qed.

Lemma missing_batch {A} st id w (f : Batch -> Tx A) :
  batch_in_storage (wdb w) st id = None ->
  (d ← get_db; b ← some_or (batch_in_storage d st id) ErrNotFound; f b) w = (Fail ErrNotFound, w).
Proof. intros E. rewrite (bind_step _ get_db _ _ _ eq_refl). by rewrite E. Qed.

Lemma patch_rest_missing st id patch u w :
  batch_in_storage (wdb w) st id = None -> is_Some (bp_LocationID patch) \/ touchesContainer patch = true ->
  (patch_rest st id patch u w).1 = Fail ErrNotFound.
Proof.
  intros E Hne. unfold patch_rest, patch_container. destruct (touchesContainer patch).
  - unfold loadBatch, mbind, tx_bind, get_db. by rewrite E.
  - destruct Hne as [[l Hl]|]; [|done]. rewrite Hl. unfold moveBatch, mbind, tx_bind, get_db. cbn. by rewrite E.
Qed.

Lemma UpdateBatch_missing st id patch u w r w' :
  UpdateBatch st id patch u w = (r, w') -> well_formed_patch patch = true -> batch_in_storage (wdb w) st id = None -> r = Fail ErrNotFound.
Proof.
  unfold UpdateBatch, well_formed_patch. intros H Hgood Hb.
  assert (G : forall m : Tx (option BatchView), (m w).1 = Fail ErrNotFound -> inTx m w = (r, w') -> r = Fail ErrNotFound).
  { intros m Hm Hi. unfold inTx in Hi. destruct (m w) as [[a|e] w1]; cbn in Hm; [done|]. injection Hi as <- _. congruence. }
  destruct (bp_Quantity patch) as [q|] eqn:Eq.
  - rewrite (bool_decide_eq_false_2 (Some q = None)) in H by done. cbn [andb negb] in H.
    assert (Hq : (q <? 0) = false) by (destruct (Z.ltb_spec q 0), (Z.ltb_spec 0 q), (Z.eqb_spec q 0); cbn in Hgood; lia || done).
    revert H. destruct (bool_decide (Some q = Some 0) && bool_decide (is_Some (bp_LocationID patch))) eqn:B1.
    { apply andb_true_iff in B1 as [B0 B1]. apply bool_decide_eq_true in B0. injection B0 as ->. cbn in Hgood. by rewrite B1 in Hgood. }
    destruct (bool_decide (Some q = Some 0) && touchesContainer patch) eqn:B2.
    { apply andb_true_iff in B2 as [B0 B2]. apply bool_decide_eq_true in B0. injection B0 as ->. cbn in Hgood. rewrite B2, andb_false_r in Hgood. done. }
    intros H. eapply G; [|exact H]. unfold setBatchQuantity. rewrite Hq. unfold mbind, tx_bind, get_db. cbn. by rewrite Hb.
  - apply orb_true_iff in Hgood. rewrite bool_decide_eq_true in Hgood.
    assert (B : bool_decide (bp_LocationID patch = None) && negb (touchesContainer patch) = false).
    { destruct Hgood as [[l ->]| ->]; [done | by rewrite andb_false_r]. }
    rewrite (bool_decide_eq_true_2 (None = None)) in H by done. cbn [andb] in H. rewrite B in H. eapply G; [|exact H]. by apply patch_rest_missing.
Qed.

(** *** Success *)

Lemma UpdateBatch_exact st id patch u w out w' :
  wf (wdb w) -> (forall q, bp_Quantity patch = Some q -> is_int64 q) ->
  UpdateBatch st id patch u w = (Ok out, w') -> exists b i0 i1 i2, batch_in_storage (wdb w) st id = Some b /\
    let q := default (b_Quantity b) (bp_Quantity patch) in
    let l := default (b_LocationID b) (bp_LocationID patch) in
    (forall target, bp_LocationID patch = Some target -> exists row, db_locations (wdb w) !! target = Some row /\ loc_StorageID row = st) /\
    db_logs (wdb w') = (if q =? 0 then map (unlink_batch id) (db_logs (wdb w)) else db_logs (wdb w))
      ++ corrected i0 id (b_ProductID b) q (b_Quantity b) u (wnow w)
      ++ moved i1 i2 id (b_ProductID b) q u (wnow w) (b_LocationID b) l /\
    off_shelves (wdb w') = off_shelves (wdb w) /\
    if q =? 0 then out = None /\ db_batches (wdb w') = delete id (db_batches (wdb w)) /\ db_containers (wdb w') = db_containers (wdb w)
    else exists con cs1,
      let b' := set_container con (set_location l (set_quantity q b)) in
      relabelled st patch (wnow w) (b_ContainerID b) (db_containers (wdb w)) con cs1 /\
      retyped st patch con cs1 (db_containers (wdb w')) /\
      db_batches (wdb w') = <[id := b']> (db_batches (wdb w)) /\ out = Some (view_batch (wdb w') id b').
Proof.
  intros W Hint H. unfold UpdateBatch in H. tx_next H by require_ok as [_ ->]. tx_next H by require_ok as [Hz ->].
  tx_next H by require_ok as [_ ->]. tx_inv1 H. destruct (bp_Quantity patch) as [q|] eqn:Eq.
  2: { assert (exists b, batch_in_storage (wdb w) st id = Some b) as [b Hb] by (by eapply patch_rest_finds).
       pose proof Hb as Hb'. apply batch_in_storage_some in Hb' as [Hid _].
       assert (Hqb : 1 <= b_Quantity b < 2 ^ 31).
       { destruct W as [Wb _]. destruct (Wb id b Hid) as (? & ? & _ & _ & _ & Hqb & _). exact Hqb. }
       destruct (patch_rest_exact _ _ _ _ _ _ _ b H Hid) as (con & cs1 & i1 & i2 & Hr & Ht & Hl & Ho & Eb & El & Ee).
       exists b, 0, i1, i2. cbn [default]. unfold corrected. rewrite (proj2 (Z.eqb_neq _ 0)), Z.eqb_refl by lia.
       split_and!; [done | done | by rewrite El | by unfold off_shelves; rewrite Ee |]. exists con, cs1. by destruct b. }
  apply bind_ok in H as ([p changed] & w1 & H1 & H).
  apply setBatchQuantity_exact in H1 as (b & i0 & Hb & Hqb & Hq & Eb & Ec & El & Eo & En & _); [|done|by apply Hint].
  exists b, i0. change (default (b_Quantity b) (Some q)) with q. cbv zeta.
  destruct (Z.eqb_spec q 0) as [->|Hq0].
  - injection H as <- <-. exists 0, 0. rewrite bool_decide_eq_true_2 in Hz by done. cbn in Hz.
    destruct (bp_LocationID patch); [done|]. cbn [default]. unfold moved. rewrite Z.eqb_refl, app_nil_r. by split_and!.
  - destruct (patch_rest_exact _ _ _ _ _ _ _ (set_quantity q b) H) as (con & cs1 & i1 & i2 & Hr & Ht & Hl & Ho & Eb2 & El2 & Ee2).
    { by rewrite Eb, lookup_insert_eq. }
    cbn [b_LocationID b_ContainerID b_ProductID b_Quantity set_quantity] in *.
    exists i1, i2. split_and!.
    + done.
    + intros target Ht'. specialize (Hl target Ht'). pose proof (f_equal db_locations Eo) as Eloc. cbn in Eloc. by rewrite <- Eloc.
    + by rewrite El2, El, En, app_assoc.
    + unfold off_shelves. rewrite Ee2. exact Eo.
    + exists con, cs1. rewrite En, Ec in Hr. split_and!; [done | done | | done]. by rewrite Eb2, Eb, insert_insert_eq.
Qed.


(** ** The theorems at work *)

Lemma AdjustBatch_branches_witness :
  db_batches (wdb (AdjustBatch 1 40 (-1) "consumption" (Some 10) sample_world).2) !! 40 = Some (set_quantity 2 beans_batch).
Proof.
  destruct (AdjustBatch_branches 1 40 (-1) "consumption" (Some 10) sample_world (Ok tt)
    (AdjustBatch 1 40 (-1) "consumption" (Some 10) sample_world).2 (proj1 sample_consistent) ltac:(vm_compute; reflexivity))
    as (_ & _ & _ & T & _).
  destruct (T eq_refl) as (b & logID & Hb & _ & E & _).
  assert (b = beans_batch) as -> by (vm_compute in Hb; unfold beans_batch; congruence). exact E.
Defined.

Definition sample_split : SplitBatchInput := mkSplit 1 21 "target".

Lemma SplitBatch_spec_witness :
  let w' := (SplitBatch 1 40 sample_split (Some 10) sample_world).2 in
  stock (wdb w') 30 = 3 /\ length (db_logs (wdb w')) = S (S (length (db_logs sample_db))).
Proof.
  cbv zeta.
  destruct (SplitBatch 1 40 sample_split (Some 10) sample_world) as [r w'] eqn:E.
  assert (exists v, r = Ok v) as [v ->].
  { change r with (r, w').1. rewrite <- E. eexists. vm_compute. reflexivity. }
  destruct (SplitBatch_spec 1 40 sample_split (Some 10) sample_world (Ok v) w' (proj1 sample_consistent) E) as [_ T].
  destruct (T v eq_refl) as (b & i1 & i2 & _ & _ & _ & _ & _ & _ & _ & _ & _ & L & _ & S).
  cbn [snd]. rewrite S, L, length_app. split; reflexivity.
Defined.

Definition sample_patch : BatchPatch := mkBatchPatch (Some 5) (Some 21) false None false None.

