(* ===== verification/Stocktake.v ===== *)
(** * Stocktakes: internal/store/stocktake.go

    Confirming a walked location: the counts must name exactly the batches the
    location holds; each count that differs is applied with one audit row; found
    stock becomes new batches; the location is stamped as audited. *)

From S2P Require Import Prelude Gamification Expiry Db Sample Tree Progress ShelfLife Containers Batches Ledger StockSteps BatchSpec.

#[local] Open Scope string_scope.
#[local] Open Scope list_scope.
#[local] Open Scope Z_scope.

(** ** Exact sets of ids *)

Section exact_ids.
Context {K : Type} `{Countable K}.

(** The loop both matchBatchIDs and matchRowIDs run: refuse an id that is not
    among the current ones, refuse an id seen before, collect the rest. *)
Fixpoint collect_ids (current seen : gset K) (ids : list K) : option (gset K) :=
  match ids with
  | [] => Some seen
  | id :: ids' =>
    if bool_decide (id ∉ current) then None
    else if bool_decide (id ∈ seen) then None
    else collect_ids current ({[id]} ∪ seen) ids'
  end.

Definition match_exactly (current : gset K) (ids : list K) : bool :=
  match collect_ids current ∅ ids with
  | None => false
  | Some seen => Nat.eqb (size seen) (size current)
  end.

Lemma collect_ids_spec current seen ids s :
  seen ⊆ current ->
  collect_ids current seen ids = Some s <->
  NoDup ids /\ (forall id, id ∈ ids -> id ∈ current /\ id ∉ seen) /\ s = list_to_set ids ∪ seen.
Proof.
  revert seen. induction ids as [|id ids IH]; intros seen Hs; cbn.
  { split; [intros [= <-] | intros (_ & _ & ->)].
    - split; [constructor|]. split; [set_solver | set_solver].
    - f_equal. set_solver. }
  case_bool_decide as H1; [split; [done | intros (_ & Hi & _); set_solver]|].
  case_bool_decide as H2; [split; [done | intros (_ & Hi & _); set_solver]|].
  rewrite IH by set_solver. split.
  - intros (Hn & Hi & ->). split; [constructor; [|done]; set_solver|]. split; [set_solver | set_solver].
  - intros (Hn & Hi & ->). apply NoDup_cons in Hn as [Hid Hn].
    split; [done|]. split; [|set_solver]. intros j Hj. set_solver.
Qed.

Lemma match_exactly_spec current ids :
  match_exactly current ids = true <-> NoDup ids /\ forall id, id ∈ ids <-> id ∈ current.
Proof.
  unfold match_exactly. destruct (collect_ids current ∅ ids) as [s|] eqn:E.
  - apply collect_ids_spec in E as (Hn & Hi & ->); [|set_solver]. rewrite Nat.eqb_eq.
    assert (Hsub : list_to_set ids ∪ ∅ ⊆ current) by set_solver. split.
    + intros Hsz. split; [done|]. pose proof (set_subseteq_size_eq _ _ Hsub) as Heq.
      rewrite Hsz in Heq. specialize (Heq (le_n _)). set_solver.
    + intros [_ Hiff]. f_equal. apply set_eq. set_solver.
  - split; [done|]. intros [Hn Hiff].
    assert (collect_ids current ∅ ids = Some (list_to_set ids ∪ ∅)); [|congruence].
    apply collect_ids_spec; set_solver.
Qed.
End exact_ids.

(** ** Data *)

Record StocktakeCount := mkCount { ct_BatchID : uuid; ct_Quantity : Z }.

Record FoundStock := mkFound {
  fs_ProductID : uuid;
  fs_Quantity : Z;
  fs_ExpirationDate : option Time;
  fs_StatedExpiration : bool;
}.

Record StocktakeResult := mkStocktakeResult {
  st_AuditedAt : Z;
  st_Corrected : Z;
  st_CreatedBatchIDs : list uuid;
}.

(** ** The operation *)

(** The batches directly at a location of this storage, by id. *)
Definition location_batches (d : DB) (storageID locationID : uuid) : list uuid :=
  (order_by_id (base.filter (fun kv : uuid * Batch =>
    b_LocationID kv.2 = locationID /\
    bool_decide (is_Some (product_in_storage d storageID (b_ProductID kv.2))) = true) (db_batches d))).*1.

Definition lockLocationBatches (storageID locationID : uuid) : Tx (list uuid) :=
  d ← get_db;
  mret (location_batches d storageID locationID).

Definition matchBatchIDs (held : list uuid) (counts : list StocktakeCount) : Tx unit :=
  require (match_exactly (list_to_set held) (map ct_BatchID counts)) ErrValidation.

(** The loop over the counts; returns how many changed something. *)
Fixpoint apply_counts (storageID : uuid) (userID : option uuid) (counts : list StocktakeCount) : Tx Z :=
  match counts with
  | [] => mret 0
  | c :: counts' =>
    res ← setBatchQuantity storageID (ct_BatchID c) (ct_Quantity c) userID;
    rest ← apply_counts storageID userID counts';
    mret ((if (res : uuid * bool).2 then 1 else 0) + rest)
  end.

(** The loop over found stock; returns the ids of the batches created. *)
Definition apply_found (storageID locationID : uuid) (userID : option uuid) (found : list FoundStock) : Tx (list uuid) :=
  traverse (fun f =>
    batch ← createBatch storageID (mkNewBatch (fs_ProductID f) locationID (fs_Quantity f)
      (fs_ExpirationDate f) (if fs_StatedExpiration f then ExpirationUser else ExpirationDerived)
      ReasonAudit userID None None);
    mret (bv_ID batch)) found.

Definition set_audited (t : Z) (l : Location) : Location :=
  mkLocation (loc_StorageID l) (loc_ParentID l) (loc_Name l) (loc_Description l) (Some t) (loc_CreatedAt l) t.

(** UPDATE locations SET last_audited_at = now(), updated_at = now() WHERE id AND storage_id *)
Definition stamp_audit (storageID locationID : uuid) : Tx Z :=
  d ← get_db;
  t ← now;
  l ← some_or (db_locations d !! locationID) ErrOther;
  require (loc_StorageID l =? storageID) ErrOther ;;
  modify (set_locations (<[locationID := set_audited t l]>)) ;;
  mret t.

Definition ConfirmStocktake (storageID locationID : uuid) (userID : option uuid)
    (counts : list StocktakeCount) (found : list FoundStock) : Tx StocktakeResult :=
  inTx (
    requireSameStorage treeLocations storageID locationID ;;
    held ← lockLocationBatches storageID locationID;
    matchBatchIDs held counts ;;
    corrected ← apply_counts storageID userID counts;
    created ← apply_found storageID locationID userID found;
    auditedAt ← stamp_audit storageID locationID;
    mret (mkStocktakeResult auditedAt corrected created)).

(** * What a confirmed stocktake leaves behind *)

#[local] Open Scope string_scope.
#[local] Open Scope list_scope.
#[local] Open Scope Z_scope.

(** ** Counting *)

(** What a batch becomes once it is counted at [q]. *)
Definition counted (q : Z) (b : Batch) : option Batch := if q =? 0 then None else Some (set_quantity q b).

(** 1 for a count that differs from what the batch holds. *)
Definition corrects (d : DB) (c : StocktakeCount) : Z :=
  match db_batches d !! ct_BatchID c with
  | Some b => if ct_Quantity c =? b_Quantity b then 0 else 1
  | None => 0
  end.

Lemma corrects_ext d d' c :
  db_batches d' !! ct_BatchID c = db_batches d !! ct_BatchID c -> corrects d' c = corrects d c.
Proof. unfold corrects. by intros ->. Qed.

Lemma setBatchQuantity_counted st id q u w p changed w' :
  wf (wdb w) -> is_int64 q -> setBatchQuantity st id q u w = (Ok (p, changed), w') ->
  (exists b, db_batches (wdb w) !! id = Some b /\ db_batches (wdb w') !! id = counted q b) /\
  (forall id', id' ≠ id -> db_batches (wdb w') !! id' = db_batches (wdb w) !! id') /\
  (if changed then 1 else 0) = corrects (wdb w) (mkCount id q).
Proof.
  intros W Hq H. apply setBatchQuantity_rows in H as (b & Hb & _ & _ & -> & Eb & _); [|done|done].
  apply batch_in_storage_some in Hb as [Hid _]. split; [|split].
  - exists b. split; [done|]. rewrite Eb. unfold counted. case_match; [apply lookup_delete_eq | apply lookup_insert_eq].
  - intros id' Hne. rewrite Eb. case_match; [by apply lookup_delete_ne | by apply lookup_insert_ne].
  - unfold corrects. cbn. rewrite Hid. by destruct (q =? b_Quantity b).
Qed.

Lemma apply_counts_rows st u counts w n w' :
  wf (wdb w) -> NoDup (map ct_BatchID counts) -> Forall (fun c => is_int64 (ct_Quantity c)) counts ->
  apply_counts st u counts w = (Ok n, w') ->
  wf (wdb w') /\ n = lsum (corrects (wdb w)) counts /\
  (forall id, id ∉ map ct_BatchID counts -> db_batches (wdb w') !! id = db_batches (wdb w) !! id) /\
  (forall c, c ∈ counts -> exists b, db_batches (wdb w) !! ct_BatchID c = Some b /\
     db_batches (wdb w') !! ct_BatchID c = counted (ct_Quantity c) b).
Proof.
  intros W Hnd Hint. revert w n W. induction counts as [|[id q] counts IH]; intros w n W H; cbn in H.
  { tx_inv. split; [done|]. split; [done|]. split; [done|]. intros c Hc. by apply not_elem_of_nil in Hc. }
  apply bind_ok in H as ([p changed] & w1 & H1 & H). apply bind_ok in H as (m & w2 & H2 & H). tx_inv1 H. subst.
  cbn in Hnd. apply NoDup_cons in Hnd as [Hni Hnd]. apply Forall_cons in Hint as [Hq Hint]. cbn in Hq.
  destruct (setBatchQuantity_good _ _ _ _ _ _ _ H1 W) as [W1 _].
  apply setBatchQuantity_counted in H1 as ((b & Hb & Hb1) & Ho & Ec); [|done|done].
  destruct (IH Hnd Hint w1 m W1 H2) as (W2 & -> & Hout & Hin). split; [done|]. cbn [snd map] in *. split; [|split].
  - cbn [lsum]. rewrite Ec. f_equal. apply lsum_ext_in. intros c Hc. apply corrects_ext, Ho. intros E.
    apply Hni. rewrite <- E. by apply list_elem_of_fmap_2.
  - intros id' Hid'. apply not_elem_of_cons in Hid' as [Hne Hid']. rewrite (Hout id' Hid'). by apply Ho.
  - intros c Hc. apply elem_of_cons in Hc as [->|Hc]; cbn.
    + exists b. split; [done|]. by rewrite (Hout id Hni).
    + destruct (Hin c Hc) as (b' & Hb' & E). exists b'. split; [|done].
      rewrite <- Ho; [done|]. intros E'. apply Hni. rewrite <- E'. by apply list_elem_of_fmap_2.
Qed.

(** ** Found stock *)

Lemma create_container_frame st id label type w u1 w1 u2 w2 :
  (match label with Some l => upsertBatchContainerLabel st id l | None => mret tt end : Tx unit) w = (Ok u1, w1) ->
  (match type with Some _ => setBatchContainerType st id type | None => mret tt end : Tx unit) w1 = (Ok u2, w2) ->
  recontained id (wdb w) (wdb w2).
Proof.
  intros H1 H2. transitivity (wdb w1).
  - destruct label; [by eapply upsert_recontained | by tx_inv].
  - destruct type; [|by tx_inv]. unfold setBatchContainerType in H2.
    apply bind_ok in H2 as (cur & w3 & H3 & H2). apply batchContainerID_ok in H3 as (-> & _).
    destruct cur; tx_inv. apply recontained_update.
Qed.

(** A created batch is a new row; no other batch changes. *)
Lemma createBatch_rows st nb w v w' :
  createBatch st nb w = (Ok v, w') ->
  db_batches (wdb w) !! bv_ID v = None /\
  (exists b, db_batches (wdb w') !! bv_ID v = Some b /\ b_ProductID b = nb_ProductID nb /\
     b_LocationID b = nb_LocationID nb /\ b_Quantity b = nb_Quantity nb) /\
  (forall id, id ≠ bv_ID v -> db_batches (wdb w') !! id = db_batches (wdb w) !! id).
Proof.
  unfold createBatch. intros H. tx_next H by require_ok as [_ ->]. tx_next H by require_ok as [_ ->].
  tx_next H for id by newID_ok as (ids & _ & ->). tx_next H by requireProductInStorage_ok as (-> & _).
  tx_next H by requireSameStorage_ok as (-> & _). tx_next H by create_date_ok as ->.
  tx_next H by now_ok as [-> ->]. tx_next H by insert_batch_ok as [Hrow ->].
  apply bind_ok in H as (? & w2 & Hl & H). apply bind_ok in H as (? & w3 & Ht & H).
  apply bind_ok in H as (? & w4 & Hlog & H). apply bind_ok in H as (? & w5 & Hbump & H).
  assert (w' = w5 /\ bv_ID v = id) as [-> ->].
  { destruct (_ || _); [by apply loadBatch_ok in H as [-> (? & _ & ->)] | by tx_inv]. }
  pose proof (create_container_frame _ _ _ _ _ _ _ _ _ Hl Ht) as (_ & _ & Ho & Ei).
  apply scoring_tables in Hbump as (-> & _); [|auto with scoring].
  apply writeLog_ok in Hlog as (? & ? & _ & _ & ->). cbn in *. clear Hl Ht H.
  assert (Hnew : db_batches (wdb w) !! id = None) by (unfold batch_row_ok in Hrow; by bool_to_prop).
  split; [done|]. split.
  - rewrite lookup_insert_eq in Ei. destruct (db_batches (wdb w3) !! id) as [b|]; [|done].
    cbn in Ei. injection Ei as E1 E2 E3 _ _ _. exists b. done.
  - intros id' Hne. by rewrite Ho, lookup_insert_ne.
Qed.

Lemma apply_found_rows st loc u found w ids w' :
  apply_found st loc u found w = (Ok ids, w') ->
  length ids = length found /\
  (forall id b, db_batches (wdb w) !! id = Some b -> db_batches (wdb w') !! id = Some b) /\
  (forall id, id ∉ ids -> db_batches (wdb w') !! id = db_batches (wdb w) !! id) /\
  Forall (fun id => db_batches (wdb w) !! id = None) ids.
Proof.
  unfold apply_found. revert w ids. induction found as [|f found IH]; intros w ids H; cbn in H; [by tx_inv|].
  apply bind_ok in H as (id & w1 & H1 & H). apply bind_ok in H1 as (v & w2 & H1 & E). tx_inv1 E. subst.
  apply bind_ok in H as (ids' & w3 & H2 & H). tx_inv1 H. subst.
  apply createBatch_rows in H1 as (Hn & (b & Hb & _) & Ho).
  apply IH in H2 as (El & Hkeep & Hout & Hnew). cbn. split; [congruence|]. split; [|split].
  - intros id' b' Hb'. apply Hkeep. rewrite Ho; [done|]. intros ->. congruence.
  - intros id' Hid'. apply not_elem_of_cons in Hid' as [Hne Hid']. rewrite Hout by done. by apply Ho.
  - constructor; [done|]. apply (Forall_impl _ _ _ Hnew). intros id' Hid'. cbn in Hid'.
    destruct (decide (id' = bv_ID v)) as [->|Hne]; [done|]. by rewrite <- Ho.
Qed.

(** ** The rows and the ledger *)

(** What none of the steps on the shelf touches. *)
Definition audit_frame (w w' : World) : Prop :=
  db_containers (wdb w') = db_containers (wdb w) /\ off_shelves (wdb w') = off_shelves (wdb w) /\
  wnow w' = wnow w /\ wclock w' = wclock w.

#[local] Instance audit_frame_refl : Reflexive audit_frame.
Proof. by intros w. Qed.
#[local] Instance audit_frame_trans : Transitive audit_frame.
Proof. intros w1 w2 w3 (A & B & C & D) (A2 & B2 & C2 & D2). unfold audit_frame. split_and!; congruence. Qed.

(** A ledger row of a batch that was counted to nothing keeps its product only. *)
Fixpoint unlink_counted (counts : list StocktakeCount) (l : LogRow) : LogRow :=
  match counts with
  | [] => l
  | c :: counts' => unlink_counted counts' (if ct_Quantity c =? 0 then unlink_batch (ct_BatchID c) l else l)
  end.

(** The audit row of one count: none if the record was right. *)
Definition count_rows (batches : gmap uuid Batch) (u : option uuid) (t : Z) (c : StocktakeCount) (rows : list LogRow) : Prop :=
  exists i b, batches !! ct_BatchID c = Some b /\
    rows = corrected i (ct_BatchID c) (b_ProductID b) (ct_Quantity c) (b_Quantity b) u t.

Lemma unlink_other id l : log_BatchID l <> Some id -> unlink_batch id l = l.
Proof. intros H. unfold unlink_batch. by rewrite bool_decide_eq_false_2. Qed.

Lemma unlink_counted_other counts l : (forall id, log_BatchID l = Some id -> id ∉ map ct_BatchID counts) -> unlink_counted counts l = l.
Proof.
  induction counts as [|c counts IH]; intros H; [done|]. cbn [unlink_counted].
  assert (E : (if ct_Quantity c =? 0 then unlink_batch (ct_BatchID c) l else l) = l).
  { case_match; [|done]. apply unlink_other. intros X. apply (H _ X). cbn. left. }
  rewrite E. apply IH. intros id Hid. specialize (H id Hid). cbn in H. by apply not_elem_of_cons in H as [_ H].
Qed.

Lemma unlink_corrected counts i id p q old u t : id ∉ map ct_BatchID counts ->
  map (unlink_counted counts) (corrected i id p q old u t) = corrected i id p q old u t.
Proof.
  intros Hid. unfold corrected. case_match; [done|]. cbn. f_equal. apply unlink_counted_other. cbn. intros id'. case_match; [done|]. by intros [= <-].
Qed.

Lemma apply_counts_ledger st u counts w n w' :
  wf (wdb w) -> NoDup (map ct_BatchID counts) -> Forall (fun c => is_int64 (ct_Quantity c)) counts ->
  apply_counts st u counts w = (Ok n, w') ->
  audit_frame w w' /\ Forall (fun c => 0 <= ct_Quantity c < 2 ^ 31) counts /\
  exists rows, Forall2 (count_rows (db_batches (wdb w)) u (wnow w)) counts rows /\
    db_logs (wdb w') = map (unlink_counted counts) (db_logs (wdb w)) ++ concat rows.
Proof.
  intros W Hnd Hint. revert w n W. induction counts as [|[id q] counts IH]; intros w n W H; cbn in H.
  { injection H as _ <-. split; [done|]. split; [constructor|]. exists []. split; [constructor|]. rewrite app_nil_r. symmetry. apply list_fmap_id. }
  apply bind_ok in H as ([p changed] & w1 & H1 & H). apply bind_ok in H as (m & w2 & H2 & H). injection H as _ <-.
  cbn in Hnd. apply NoDup_cons in Hnd as [Hni Hnd]. apply Forall_cons in Hint as [Hq Hint]. cbn in Hq.
  destruct (setBatchQuantity_good _ _ _ _ _ _ _ H1 W) as [W1 _]. apply setBatchQuantity_counted in H1 as Hrows; [|done|done].
  destruct Hrows as (_ & Ho & _).
  apply setBatchQuantity_exact in H1 as (b & i & Hb & _ & Hr & _ & Ec & El & Eo & En & Ek); [|done|done].
  apply batch_in_storage_some in Hb as [Hb _].
  destruct (IH Hnd Hint w1 m W1 H2) as (F & Hcs & rows & Hrows & E). split; [|split].
  - transitivity w1; [by split_and! | done].
  - by constructor.
  - exists (corrected i id (b_ProductID b) q (b_Quantity b) u (wnow w) :: rows). split.
    + constructor; [by exists i, b|]. rewrite En in Hrows.
      apply Forall2_same_length_lookup. apply Forall2_same_length_lookup in Hrows as [Hlen Hrows]. split; [done|].
      intros k c l Hc Hl. destruct (Hrows k c l Hc Hl) as (i2 & b2 & Hb2 & ->). exists i2, b2. split; [|done].
      rewrite <- Ho; [done|]. intros X. apply Hni. rewrite <- X. by apply list_elem_of_fmap_2, (list_elem_of_lookup_2 _ k).
    + rewrite E, El, map_app, unlink_corrected by done. cbn [concat unlink_counted ct_Quantity ct_BatchID]. rewrite app_assoc. do 2 f_equal.
      destruct (q =? 0); [by rewrite map_map | done].
Qed.

(** The date of found stock: the one that was stated, or the one the rules derive. *)
Definition found_date (d : DB) (st clock : Z) (f : FoundStock) : option Time :=
  match fs_ExpirationDate f with
  | Some date => Some date
  | None =>
    if fs_StatedExpiration f then None
    else p ← product_in_storage d st (fs_ProductID f); DateFor (timestamp clock) (Resolve (rules_of d st p))
  end.

Definition found_row (d : DB) (st loc t clock : Z) (f : FoundStock) : Batch :=
  mkBatch (fs_ProductID f) loc (fs_Quantity f) (date_col (found_date d st clock f))
    (if fs_StatedExpiration f then ExpirationUser else ExpirationDerived) t None.

Lemma found_row_off_shelves d d' st loc t clock f : off_shelves d' = off_shelves d -> found_row d' st loc t clock f = found_row d st loc t clock f.
Proof. intros E. change (found_row (off_shelves d') st loc t clock f = found_row (off_shelves d) st loc t clock f). by rewrite E. Qed.

Lemma create_found st loc u f w v w' :
  createBatch st (mkNewBatch (fs_ProductID f) loc (fs_Quantity f) (fs_ExpirationDate f)
    (if fs_StatedExpiration f then ExpirationUser else ExpirationDerived) ReasonAudit u None None) w = (Ok v, w') ->
  audit_frame w w' /\ 1 <= fs_Quantity f /\
  (exists p, db_products (wdb w) !! fs_ProductID f = Some p /\ prod_StorageID p = st) /\
  db_batches (wdb w) !! bv_ID v = None /\
  db_batches (wdb w') = <[bv_ID v := found_row (wdb w) st loc (wnow w) (wclock w) f]> (db_batches (wdb w)) /\
  exists i, db_logs (wdb w') = db_logs (wdb w) ++ [mkLogRow i (fs_ProductID f) (Some (bv_ID v)) (fs_Quantity f) ReasonAudit u (wnow w)].
Proof.
  unfold createBatch. cbn [nb_ProductID nb_LocationID nb_Quantity nb_ExpirationDate nb_ExpirationSource nb_Reason nb_CreatedBy nb_ContainerLabel nb_ContainerType].
  intros H. tx_next H by require_ok as [Hge ->]. tx_next H by require_ok as [_ ->]. bool_to_prop.
  tx_next H for id by newID_ok as (ids & _ & ->). tx_next H by requireProductInStorage_ok as (-> & p & Hp & Hst).
  tx_next H by requireSameStorage_ok as (-> & _). apply bind_ok in H as (date & w1 & Hd & H).
  assert (w1 = mkWorld (wdb w) ids (wnow w) (wclock w) /\ date = found_date (wdb w) st (wclock w) f) as [-> ->].
  { unfold found_date. assert (Hprod : product_in_storage (wdb w) st (fs_ProductID f) = Some p).
    { unfold product_in_storage. cbn in Hp. rewrite Hp, Hst, Z.eqb_refl. done. }
    destruct (fs_ExpirationDate f); [by injection Hd as <- <-|]. destruct (fs_StatedExpiration f); [by injection Hd as <- <-|].
    cbn [String.eqb negb] in Hd. unfold expiryRulesFor, mbind, tx_bind, get_db, time_Now in Hd. cbn in Hd.
    rewrite Hprod in *. cbn in Hd. by injection Hd as <- <-. }
  tx_next H by now_ok as [-> ->]. tx_next H by insert_batch_ok as [Hrow ->].
  apply bind_ok in H as (? & w2 & Hl & H). injection Hl as _ <-. apply bind_ok in H as (? & w3 & Ht & H). injection Ht as _ <-.
  apply bind_ok in H as (? & w4 & Hlog & H). apply bind_ok in H as (? & w5 & Hbump & H). injection H as <- <-.
  pose proof (scoring_bumpForLedgerReason st u ReasonAudit id _ _ _ Hbump) as (Ei & En & Ek).
  apply scoring_tables in Hbump as (Eb & El & _ & Ec); [|auto with scoring]. apply off_shelves_scoring in Ei.
  apply writeLog_row in Hlog as (i & L & B & C & E & N & K). cbn [wdb with_db set_batches db_batches db_logs db_containers wnow wclock bv_ID] in *.
  split; [|split; [lia|split; [by exists p|split; [|split]]]].
  - unfold audit_frame. rewrite Ec, Ei, En, Ek, C, N, K. split_and!; try done. exact (f_equal inventory_part E).
  - unfold batch_row_ok in Hrow. by bool_to_prop.
  - rewrite Eb, B. unfold found_row. by destruct (fs_StatedExpiration f).
  - exists i. by rewrite El, L.
Qed.

(** The ledger row of one found entry. *)
Definition found_log (u : option uuid) (t : Z) (f : FoundStock) (kv : uuid * LogRow) : Prop :=
  exists i, kv.2 = mkLogRow i (fs_ProductID f) (Some kv.1) (fs_Quantity f) ReasonAudit u t.

Lemma apply_found_exact st loc u found w ids w' :
  apply_found st loc u found w = (Ok ids, w') ->
  audit_frame w w' /\ NoDup ids /\ Forall (fun id => db_batches (wdb w) !! id = None) ids /\
  Forall (fun f => 1 <= fs_Quantity f /\ exists p, db_products (wdb w) !! fs_ProductID f = Some p /\ prod_StorageID p = st) found /\
  Forall2 (fun f id => db_batches (wdb w') !! id = Some (found_row (wdb w) st loc (wnow w) (wclock w) f)) found ids /\
  (forall id, id ∉ ids -> db_batches (wdb w') !! id = db_batches (wdb w) !! id) /\
  exists rows, Forall2 (found_log u (wnow w)) found (zip ids rows) /\ length rows = length ids /\ db_logs (wdb w') = db_logs (wdb w) ++ rows.
Proof.
  unfold apply_found. revert w ids. induction found as [|f found IH]; intros w ids H; cbn in H.
  { injection H as <- <-. split_and!; try constructor; try done. exists []. rewrite app_nil_r. by split_and!. }
  apply bind_ok in H as (id & w1 & H1 & H). apply bind_ok in H1 as (v & w2 & H1 & E). injection E as <- <-.
  apply bind_ok in H as (ids' & w3 & H2 & H). injection H as <- <-.
  apply create_found in H1 as (F & Hq & Hp & Hn & Eb & i & El).
  apply IH in H2 as (F2 & Hnd & Hnew & Hps & Hrows & Hout & rows & Hlog & Hlen & El2). pose proof F as (_ & Eo & En & Ek).
  assert (Hni : bv_ID v ∉ ids').
  { intros Hin. rewrite Forall_forall in Hnew. specialize (Hnew _ Hin). by rewrite Eb, lookup_insert_eq in Hnew. }
  split; [by transitivity w2|]. split; [by constructor|]. split; [|split; [|split; [|split]]].
  - constructor; [done|]. eapply Forall_impl; [exact Hnew|]. cbn. intros x Hx. rewrite Eb in Hx. by apply lookup_insert_None in Hx as [].
  - constructor; [by split|]. eapply Forall_impl; [exact Hps|]. cbn. intros x [Hx Hx2]. split; [done|].
    pose proof (f_equal db_products Eo) as Eprod. cbn in Eprod. by rewrite <- Eprod.
  - constructor; [rewrite Hout by done; by rewrite Eb, lookup_insert_eq|]. eapply Forall2_impl; [exact Hrows|]. cbn. intros x y Hx.
    by rewrite Hx, En, Ek, (found_row_off_shelves _ _ _ _ _ _ _ Eo).
  - intros x Hx. apply not_elem_of_cons in Hx as [Hx1 Hx2]. by rewrite Hout, Eb, lookup_insert_ne.
  - exists (mkLogRow i (fs_ProductID f) (Some (bv_ID v)) (fs_Quantity f) ReasonAudit u (wnow w) :: rows). split; [|split].
    + cbn [zip]. constructor; [by exists i|]. rewrite <- En. exact Hlog.
    + cbn. by rewrite Hlen.
    + by rewrite El2, El, <- app_assoc.
Qed.

(** ** The whole transaction *)

(** Rewriting locations in place, each in the storage it was in. *)
Lemma good_step_locations d f :
  (forall id l, db_locations d !! id = Some l ->
    exists l', f (db_locations d) !! id = Some l' /\ loc_StorageID l' = loc_StorageID l) ->
  good_step d (set_locations f d).
Proof.
  intros Hf [Wb Wl]. split; [|done]. split; [|done]. intros id b Hb.
  destruct (Wb id b Hb) as (p & l & Hp & Hl & Hs & Hrest). destruct (Hf _ _ Hl) as (l' & Hl' & Hs').
  exists p, l'. split; [done|]. split; [done|]. split; [congruence | done].
Qed.

Lemma stamp_audit_ok st loc w t w' :
  stamp_audit st loc w = (Ok t, w') ->
  t = wnow w /\ exists l, db_locations (wdb w) !! loc = Some l /\
    wdb w' = set_locations <[loc := set_audited t l]> (wdb w).
Proof. unfold stamp_audit. intros H. tx_inv. eauto. Qed.

Lemma stamp_audit_good st loc w t w' : stamp_audit st loc w = (Ok t, w') -> good_step (wdb w) (wdb w').
Proof.
  intros H. apply stamp_audit_ok in H as (-> & l & Hl & ->). apply good_step_locations.
  intros id l' Hl'. rewrite lookup_insert. case_decide; [|eauto]. subst.
  eexists. split; [reflexivity|]. cbn. congruence.
Qed.

Lemma apply_counts_good st u counts w n w' :
  apply_counts st u counts w = (Ok n, w') -> good_step (wdb w) (wdb w').
Proof.
  revert w n. induction counts as [|c counts IH]; intros w n H; cbn in H; [by tx_inv|].
  apply bind_ok in H as (? & w1 & H1 & H). apply bind_ok in H as (? & w2 & H2 & H). tx_inv1 H. subst.
  etransitivity; [by eapply setBatchQuantity_good | by eapply IH].
Qed.

Lemma apply_found_good st loc u found w ids w' :
  apply_found st loc u found w = (Ok ids, w') -> good_step (wdb w) (wdb w').
Proof.
  unfold apply_found. revert w ids. induction found as [|f found IH]; intros w ids H; cbn in H; [by tx_inv|].
  apply bind_ok in H as (id & w1 & H1 & H). apply bind_ok in H1 as (v & w2 & H1 & E). tx_inv1 E. subst.
  apply bind_ok in H as (ids' & w3 & H2 & H). tx_inv1 H. subst.
  etransitivity; [by eapply createBatch_good | by eapply IH].
Qed.

Lemma matchBatchIDs_ok held counts w u w' :
  matchBatchIDs held counts w = (Ok u, w') ->
  w' = w /\ NoDup (map ct_BatchID counts) /\ forall id, id ∈ map ct_BatchID counts <-> id ∈ held.
Proof.
  unfold matchBatchIDs. intros H. apply require_ok in H as [H ->]. apply match_exactly_spec in H as [Hn Hi].
  split; [done|]. split; [done|]. intros id. by rewrite Hi, elem_of_list_to_set.
Qed.

Lemma ConfirmStocktake_ok st loc u counts found w r w' :
  ConfirmStocktake st loc u counts found w = (Ok r, w') ->
  exists w1 w2,
    (NoDup (map ct_BatchID counts) /\
     forall id, id ∈ map ct_BatchID counts <-> id ∈ location_batches (wdb w) st loc) /\
    apply_counts st u counts w = (Ok (st_Corrected r), w1) /\
    apply_found st loc u found w1 = (Ok (st_CreatedBatchIDs r), w2) /\
    stamp_audit st loc w2 = (Ok (st_AuditedAt r), w').
Proof.
  unfold ConfirmStocktake. intros H. tx_inv1 H. tx_next H by requireSameStorage_ok as (-> & _).
  apply bind_ok in H as (held & w0 & H0 & H).
  assert (held = location_batches (wdb w) st loc /\ w0 = w) as [-> ->] by (injection H0 as <- <-; done).
  tx_next H by matchBatchIDs_ok as (-> & Hm).
  apply bind_ok in H as (n & w1 & H1 & H). apply bind_ok in H as (ids & w2 & H2 & H).
  apply bind_ok in H as (t & w3 & H3 & H). tx_inv1 H. subst.
  exists w1, w2. done.
Qed.

Lemma ConfirmStocktake_good st loc u counts found w r w' :
  ConfirmStocktake st loc u counts found w = (Ok r, w') -> good_step (wdb w) (wdb w').
Proof.
  intros H. apply ConfirmStocktake_ok in H as (w1 & w2 & _ & H1 & H2 & H3).
  etransitivity; [by eapply apply_counts_good|]. etransitivity; [by eapply apply_found_good|].
  by eapply stamp_audit_good.
Qed.

Lemma stamp_audit_exact st loc w t w' :
  stamp_audit st loc w = (Ok t, w') ->
  t = wnow w /\ exists l, db_locations (wdb w) !! loc = Some l /\ loc_StorageID l = st /\
    wdb w' = set_locations <[loc := set_audited t l]> (wdb w).
Proof. unfold stamp_audit. intros H. tx_inv. bool_to_prop. eauto. Qed.

(** The batches a stocktake leaves: what was found, what was counted, the rest. *)
Definition stocktake_batches (d : DB) (st loc t clock : Z) (counts : list StocktakeCount) (found : list FoundStock)
    (created : list uuid) (batches : gmap uuid Batch) : Prop :=
  NoDup created /\
  Forall2 (fun f id => batches !! id = Some (found_row d st loc t clock f)) found created /\
  (forall id, id ∈ created -> db_batches d !! id = None \/ exists c, c ∈ counts /\ ct_BatchID c = id /\ ct_Quantity c = 0) /\
  (forall c, c ∈ counts -> exists b, db_batches d !! ct_BatchID c = Some b /\
     (ct_BatchID c ∉ created -> batches !! ct_BatchID c = counted (ct_Quantity c) b)) /\
  (forall id, id ∉ map ct_BatchID counts -> id ∉ created -> batches !! id = db_batches d !! id).

(** The ledger it leaves. *)
Definition stocktake_ledger (d : DB) (u : option uuid) (t : Z) (counts : list StocktakeCount) (found : list FoundStock)
    (created : list uuid) (logs : list LogRow) : Prop :=
  exists corrections arrivals,
    Forall2 (count_rows (db_batches d) u t) counts corrections /\
    length arrivals = length created /\ Forall2 (found_log u t) found (zip created arrivals) /\
    logs = map (unlink_counted counts) (db_logs d) ++ concat corrections ++ arrivals.

(** C19: What ConfirmStocktake does.  If it fails, no table has changed.  If it
    succeeds, the counts named every batch directly at the location, each once, and
    nothing else, none below zero, and found at least one of a product of the
    storage each time.  Every counted batch holds exactly its count, and is gone
    where the count is zero; each found entry is a batch of its own, with an id
    nothing else has, of that product, quantity and location, with the date that was
    stated or the one the storage's rules derive; every other batch is as it was.
    The ledger gained one audit row by the caller for each count that differed, of
    the difference, and one for each found entry, of its quantity, and nothing else
    but that rows of a batch that is gone no longer name it.  [Corrected] is the number of
    counts that differed, the location carries the audit time and the time of change,
    and no other table but the scores changes. *)
Theorem ConfirmStocktake_spec st loc u counts found w r w' :
  wf (wdb w) -> Forall (fun c => is_int64 (ct_Quantity c)) counts ->
  ConfirmStocktake st loc u counts found w = (r, w') ->
  (forall e, r = Fail e -> wdb w' = wdb w) /\
  forall res, r = Ok res ->
  (NoDup (map ct_BatchID counts) /\ forall id, id ∈ map ct_BatchID counts <-> id ∈ location_batches (wdb w) st loc) /\
  Forall (fun c => 0 <= ct_Quantity c < 2 ^ 31) counts /\
  Forall (fun f => 1 <= fs_Quantity f /\ exists p, db_products (wdb w) !! fs_ProductID f = Some p /\ prod_StorageID p = st) found /\
  stocktake_batches (wdb w) st loc (wnow w) (wclock w) counts found (st_CreatedBatchIDs res) (db_batches (wdb w')) /\
  stocktake_ledger (wdb w) u (wnow w) counts found (st_CreatedBatchIDs res) (db_logs (wdb w')) /\
  st_Corrected res = lsum (corrects (wdb w)) counts /\ st_AuditedAt res = wnow w /\
  (exists l, db_locations (wdb w) !! loc = Some l /\ loc_StorageID l = st /\
     db_locations (wdb w') = <[loc := set_audited (wnow w) l]> (db_locations (wdb w))) /\
  db_containers (wdb w') = db_containers (wdb w) /\
  off_shelves (set_locations (fun _ => ∅) (wdb w')) = off_shelves (set_locations (fun _ => ∅) (wdb w)).
Proof.
  intros W Hint H. split; [intros e ->; by apply inTx_run in H as [H | (? & ? & _)]|]. intros res ->.
  apply ConfirmStocktake_ok in H as (w1 & w2 & Hm & H1 & H2 & H3).
  destruct (apply_counts_rows _ _ _ _ _ _ W (proj1 Hm) Hint H1) as (W1 & Hn & Hout & Hin).
  destruct (apply_counts_ledger _ _ _ _ _ _ W (proj1 Hm) Hint H1) as ((Ec & Eo & En & Ek) & Hcs & rows & Hrows & El).
  apply apply_found_exact in H2 as ((Ec2 & Eo2 & En2 & _) & Hnd & Hnew & Hps & Hfound & Hother & arr & Harr & Hlen & El2).
  apply stamp_audit_exact in H3 as (Et & l & Hl & Hst & E3).
  pose proof (f_equal db_locations Eo) as Eloc. pose proof (f_equal db_locations Eo2) as Eloc2. cbn in Eloc, Eloc2.
  pose proof (f_equal db_products Eo) as Eprod. cbn in Eprod. rewrite E3, Et, En2, En in *. cbn in *.
  split; [exact Hm|]. split; [exact Hcs|]. split; [by rewrite <- Eprod|]. split; [|split; [|split; [exact Hn|split; [done|split; [|split]]]]].
  - split_and!; [done | | | |].
    + eapply Forall2_impl; [exact Hfound|]. cbn. intros f id Hid. by rewrite Hid, Ek, (found_row_off_shelves _ _ _ _ _ _ _ Eo).
    + intros id Hid. rewrite Forall_forall in Hnew. specialize (Hnew id Hid). destruct (decide (id ∈ map ct_BatchID counts)) as [Hc|Hc].
      * apply list_elem_of_fmap in Hc as (c & -> & Hc). right. exists c. split; [done|]. split; [done|].
        destruct (Hin c Hc) as (b & _ & E). rewrite Hnew in E. unfold counted in E. by destruct (Z.eqb_spec (ct_Quantity c) 0).
      * left. by rewrite <- Hout.
    + intros c Hc. destruct (Hin c Hc) as (b & Hb & E). exists b. split; [done|]. intros Hid. by rewrite Hother.
    + intros id Hid Hid2. by rewrite Hother, Hout.
  - exists rows, arr. split_and!; [done | done | done|]. by rewrite El2, El, <- app_assoc.
  - exists l. by rewrite <- Eloc, <- Eloc2.
  - congruence.
  - change (set_locations (fun _ => ∅) (off_shelves (wdb w2)) = set_locations (fun _ => ∅) (off_shelves (wdb w))). congruence.
Qed.

(** ** The theorem at work *)

Definition sample_counts : list StocktakeCount := [mkCount 40 2].
Definition sample_found : list FoundStock := [mkFound 31 4 None false].

Lemma ConfirmStocktake_spec_witness :
  let w' := (ConfirmStocktake 1 20 (Some 10) sample_counts sample_found sample_world).2 in
  db_batches (wdb w') !! 40 = Some (set_quantity 2 beans_batch) /\
  exists id, db_batches (wdb w') !! id = Some (found_row sample_db 1 20 (wnow sample_world) (wclock sample_world) (mkFound 31 4 None false)).
Proof.
  cbv zeta. destruct (ConfirmStocktake 1 20 (Some 10) sample_counts sample_found sample_world) as [r w'] eqn:E.
  assert (exists v, r = Ok v /\ 40 ∉ st_CreatedBatchIDs v) as (v & -> & Hv).
  { change r with (r, w').1. rewrite <- E. eexists. split; [vm_compute; reflexivity|]. vm_compute. set_solver. }
  destruct (ConfirmStocktake_spec 1 20 (Some 10) sample_counts sample_found sample_world (Ok v) w' (proj1 sample_consistent)) as [_ T];
    [repeat constructor; vm_compute; discriminate | exact E |].
  destruct (T v eq_refl) as (_ & _ & _ & (_ & F & _ & C & _) & _). cbn [snd]. split.
  - destruct (C (mkCount 40 2)) as (b & Hb & T1); [left|].
    assert (b = beans_batch) as -> by (vm_compute in Hb; unfold beans_batch; congruence). by apply T1.
  - inversion F as [|f id fs ids Hid _ E1 E2]. exists id. exact Hid.
Defined.

