(* ===== verification/Jobs.v ===== *)
(** * Background jobs: internal/store/jobs.go

    The life of a job (pending, done, failed, consumed), the lease a process
    holds on a pending job, and the statements that move both.  Instants and
    durations are nanoseconds; a lease's expiry is always computed from the
    database's clock. *)

From S2P Require Import Prelude Gamification Expiry Db Sample Tree.

#[local] Open Scope string_scope.
#[local] Open Scope list_scope.
#[local] Open Scope Z_scope.

(** ** Leases *)

Definition InterruptedJobError := "Processing was interrupted by a server restart. Upload the photo again.".

Record JobLease := mkLease { lease_Owner : uuid; lease_TTL : Z }.

(** The owner and the TTL a statement writes, both NULL for an unowned lease. *)
Definition claim (l : JobLease) : option (uuid * Z) :=
  if lease_Owner l =? uuid_Nil then None else Some (lease_Owner l, lease_TTL l).

(** lease_owner = $n, lease_expires_at = now() + make_interval(secs => $m) *)
Definition set_claim (c : option (uuid * Z)) (t : Z) (j : Job) : Job :=
  mkJob (job_StorageID j) (job_Kind j) (job_Status j) (job_Payload j) (job_Error j) (job_CreatedBy j)
    (job_ImageFilename j) (job_LocationHintID j) (fst <$> c) ((fun os => t + os.2) <$> c)
    (job_CreatedAt j) (job_UpdatedAt j).

(** status, payload, error and updated_at set, the lease dropped. *)
Definition set_outcome (s : JobStatus) (p : Payload) (e : option string) (t : Z) (j : Job) : Job :=
  mkJob (job_StorageID j) (job_Kind j) s p e (job_CreatedBy j) (job_ImageFilename j) (job_LocationHintID j)
    None None (job_CreatedAt j) t.

Definition set_consumed (t : Z) (j : Job) : Job :=
  mkJob (job_StorageID j) (job_Kind j) JobConsumed (job_Payload j) (job_Error j) (job_CreatedBy j)
    (job_ImageFilename j) (job_LocationHintID j) (job_LeaseOwner j) (job_LeaseExpiresAt j) (job_CreatedAt j) t.

Definition clear_image (j : Job) : Job :=
  mkJob (job_StorageID j) (job_Kind j) (job_Status j) (job_Payload j) (job_Error j) (job_CreatedBy j)
    None (job_LocationHintID j) (job_LeaseOwner j) (job_LeaseExpiresAt j) (job_CreatedAt j) (job_UpdatedAt j).

(** ** Statements *)

(** The rows of jobs a WHERE clause selects. *)
Definition jobs_where (sel : uuid * Job -> bool) (d : DB) : gmap uuid Job :=
  base.filter (fun kv : uuid * Job => sel kv = true) (db_jobs d).

(** UPDATE jobs SET f WHERE sel; the number of rows affected. *)
Definition update_jobs (sel : uuid * Job -> bool) (f : Job -> Job) : Tx Z :=
  d ← get_db;
  modify (set_jobs (map_imap (fun id j => Some (if sel (id, j) then f j else j)))) ;;
  mret (Z.of_nat (size (jobs_where sel d))).

(** DELETE FROM jobs WHERE sel RETURNING id, image_filename. *)
Definition delete_jobs (sel : uuid * Job -> bool) : Tx (list (uuid * option string)) :=
  d ← get_db;
  modify (set_jobs (base.filter (fun kv : uuid * Job => sel kv = false))) ;;
  mret (map (fun kv : uuid * Job => (kv.1, job_ImageFilename kv.2)) (order_by_id (jobs_where sel d))).

Definition is_status (s : JobStatus) (j : Job) : bool := bool_decide (job_Status j = s).

(** WHERE id = $1 AND storage_id = $2 *)
Definition job_in_storage (d : DB) (storageID id : uuid) : option Job :=
  match db_jobs d !! id with
  | Some j => if job_StorageID j =? storageID then Some j else None
  | None => None
  end.

(** ** Operations *)

Record NewJob := mkNewJob {
  nj_StorageID : uuid;
  nj_Kind : JobKind;
  nj_CreatedBy : option uuid;
  nj_ImageFilename : option string;
  nj_LocationHintID : option uuid;
  nj_Lease : JobLease;
}.

Definition CreateJob (nj : NewJob) : Tx (uuid * Job) :=
  id ← newID;
  inTx (
    (match nj_LocationHintID nj with
     | Some l => requireSameStorage treeLocations (nj_StorageID nj) l
     | None => mret tt
     end) ;;
    d ← get_db;
    t ← now;
    require (bool_decide (db_jobs d !! id = None)) ErrOther ;;
    require (bool_decide (nj_StorageID nj ∈ db_storages d) &&
             (match nj_CreatedBy nj with None => true | Some u => bool_decide (u ∈ db_users d) end)) ErrNotFound ;;
    let row := set_claim (claim (nj_Lease nj)) t
      (mkJob (nj_StorageID nj) (nj_Kind nj) JobPending NoPayload None (nj_CreatedBy nj)
         (nj_ImageFilename nj) (nj_LocationHintID nj) None None t t) in
    modify (set_jobs (<[id := row]>)) ;;
    mret (id, row)).

Definition ClearJobImage (id : uuid) : Tx unit :=
  update_jobs (fun kv => kv.1 =? id) clear_image ;; mret tt.

Definition finishJob (id : uuid) (status : JobStatus) (payload : Payload) (message : option string) : Tx unit :=
  t ← now;
  n ← update_jobs (fun kv => (kv.1 =? id) && is_status JobPending kv.2) (set_outcome status payload message t);
  require (negb (n =? 0)) ErrNotFound.

Definition CompleteJob (id : uuid) (payload : Payload) : Tx unit := finishJob id JobDone payload None.

Definition FailJob (id : uuid) (message : string) : Tx unit := finishJob id JobFailed NoPayload (Some message).

(** A pending job whose owner is gone, as [owner] sees it at [t]. *)
Definition orphaned (owner t : Z) (j : Job) : bool :=
  is_status JobPending j &&
  negb (bool_decide (job_LeaseOwner j = Some owner)) &&
  match job_LeaseExpiresAt j with
  | None => true
  | Some e => e <? t
  end.

Definition FailOrphanedJobs (owner : uuid) : Tx Z :=
  t ← now;
  update_jobs (fun kv => orphaned owner t kv.2) (set_outcome JobFailed NoPayload (Some InterruptedJobError) t).

(** The pending jobs a process holds. *)
Definition held_by (owner : uuid) (j : Job) : bool :=
  is_status JobPending j && bool_decide (job_LeaseOwner j = Some owner).

Definition set_expiry (e : option Z) (j : Job) : Job :=
  mkJob (job_StorageID j) (job_Kind j) (job_Status j) (job_Payload j) (job_Error j) (job_CreatedBy j)
    (job_ImageFilename j) (job_LocationHintID j) (job_LeaseOwner j) e (job_CreatedAt j) (job_UpdatedAt j).

Definition RenewJobLeases (lease : JobLease) : Tx Z :=
  match claim lease with
  | None => throw ErrValidation
  | Some (owner, secs) =>
    t ← now;
    update_jobs (fun kv => held_by owner kv.2) (set_expiry (Some (t + secs)))
  end.

Definition ReleaseJobLeases (owner : uuid) : Tx Z :=
  update_jobs (fun kv => held_by owner kv.2) (set_claim None 0).

Definition GetJob (storageID id : uuid) : Tx Job :=
  d ← get_db;
  some_or (job_in_storage d storageID id) ErrNotFound.

(** Newest first, in the given statuses, before the cursor, at most [limit]. *)
Definition ListJobs (storageID : uuid) (statuses : list JobStatus) (after : option uuid) (limit : nat)
    : Tx (list (uuid * Job)) :=
  require (negb (bool_decide (statuses = []))) ErrValidation ;;
  d ← get_db;
  mret (take limit (reverse (order_by_id (jobs_where (fun kv =>
    (job_StorageID kv.2 =? storageID) && bool_decide (job_Status kv.2 ∈ statuses) &&
    match after with None => true | Some a => kv.1 <? a end) d)))).

Definition DeleteJob (storageID id : uuid) : Tx (option string) :=
  rows ← delete_jobs (fun kv => (kv.1 =? id) && (job_StorageID kv.2 =? storageID));
  row ← some_or (head rows) ErrNotFound;
  mret row.2.

Definition DiscardJobs (storageID : uuid) (upTo : Z) : Tx (list (uuid * option string)) :=
  delete_jobs (fun kv =>
    (job_StorageID kv.2 =? storageID) &&
    bool_decide (job_Status kv.2 ∈ [JobPending; JobDone; JobFailed]) &&
    (job_CreatedAt kv.2 <=? upTo)).

Definition RequeueJob (storageID id : uuid) (lease : JobLease) : Tx unit :=
  inTx (
    d ← get_db;
    j ← some_or (job_in_storage d storageID id) ErrNotFound;
    require (bool_decide (job_Status j ∈ [JobDone; JobFailed])) ErrConflict ;;
    require (bool_decide (is_Some (job_ImageFilename j))) ErrConflict ;;
    t ← now;
    update_jobs (fun kv => kv.1 =? id)
      (fun j => set_claim (claim lease) t (set_outcome JobPending NoPayload None t j)) ;;
    mret tt).

Definition ConsumeJob (storageID id : uuid) : Tx unit :=
  d ← get_db;
  j ← some_or (job_in_storage d storageID id) ErrNotFound;
  require (bool_decide (job_Status j = JobDone)) ErrConflict ;;
  t ← now;
  update_jobs (fun kv => kv.1 =? id) (set_consumed t) ;;
  mret tt.

(** * The life of a job and of its lease

    [job_op] is one statement of internal/store/jobs.go, or the passing of time.
    The lemmas say which moves between statuses an operation can make, that only
    pending jobs hold leases, and what recovery does to live and lapsed claims. *)

#[local] Open Scope list_scope.
#[local] Open Scope Z_scope.

(** ** Statements *)

Lemma update_jobs_ok sel f w n w' :
  update_jobs sel f w = (Ok n, w') ->
  n = Z.of_nat (size (jobs_where sel (wdb w))) /\
  (forall id, db_jobs (wdb w') !! id = (fun j => if sel (id, j) then f j else j) <$> db_jobs (wdb w) !! id) /\
  db_batches (wdb w') = db_batches (wdb w) /\ wnow w' = wnow w.
Proof.
  unfold update_jobs. intros H. tx_inv. split; [done|]. split; [|done].
  intros id. cbn. rewrite map_lookup_imap. by destruct (db_jobs (wdb w) !! id).
Qed.

Lemma update_jobs_total sel f w : exists n w', update_jobs sel f w = (Ok n, w').
Proof. unfold update_jobs. eexists _, _. reflexivity. Qed.

Lemma delete_jobs_ok sel w rows w' :
  delete_jobs sel w = (Ok rows, w') ->
  (forall id j, db_jobs (wdb w') !! id = Some j <-> db_jobs (wdb w) !! id = Some j /\ sel (id, j) = false) /\
  (forall id i, (id, i) ∈ rows <-> exists j, db_jobs (wdb w) !! id = Some j /\ sel (id, j) = true /\ job_ImageFilename j = i) /\
  wnow w' = wnow w.
Proof.
  unfold delete_jobs. intros H. tx_inv. split; [|split; [|done]].
  - intros id j. cbn. by rewrite map_lookup_filter_Some.
  - intros id i. rewrite list_elem_of_fmap. split.
    + intros ([id' j] & E & Hin). cbn in E. simplify_eq. apply elem_of_order_by_id in Hin.
      unfold jobs_where in Hin. apply map_lookup_filter_Some in Hin as []. eauto.
    + intros (j & Hj & Hs & <-). exists (id, j). split; [done|]. apply elem_of_order_by_id.
      by apply map_lookup_filter_Some.
Qed.

Lemma job_in_storage_some d st id j :
  job_in_storage d st id = Some j <-> db_jobs d !! id = Some j /\ job_StorageID j = st.
Proof.
  unfold job_in_storage. destruct (db_jobs d !! id) as [j'|]; [|naive_solver].
  destruct (Z.eqb_spec (job_StorageID j') st); naive_solver.
Qed.

(** ** One operation *)

Inductive job_op : World -> World -> Prop :=
| op_create nj r w w' : CreateJob nj w = (r, w') -> job_op w w'
| op_clear_image id r w w' : ClearJobImage id w = (r, w') -> job_op w w'
| op_complete id p r w w' : CompleteJob id p w = (r, w') -> job_op w w'
| op_fail id m r w w' : FailJob id m w = (r, w') -> job_op w w'
| op_orphans o r w w' : FailOrphanedJobs o w = (r, w') -> job_op w w'
| op_renew l r w w' : RenewJobLeases l w = (r, w') -> job_op w w'
| op_release o r w w' : ReleaseJobLeases o w = (r, w') -> job_op w w'
| op_delete st id r w w' : DeleteJob st id w = (r, w') -> job_op w w'
| op_discard st t r w w' : DiscardJobs st t w = (r, w') -> job_op w w'
| op_requeue st id l r w w' : RequeueJob st id l w = (r, w') -> job_op w w'
| op_consume st id r w w' : inTx (ConsumeJob st id) w = (r, w') -> job_op w w'
| op_time t w : wnow w <= t -> job_op w (mkWorld (wdb w) (wids w) t (wclock w)).

(** What no operation changes of a row; a photo can only go. *)
Definition job_fixed (j j' : Job) : Prop :=
  job_StorageID j' = job_StorageID j /\ job_Kind j' = job_Kind j /\ job_CreatedBy j' = job_CreatedBy j /\
  job_CreatedAt j' = job_CreatedAt j /\ job_LocationHintID j' = job_LocationHintID j /\
  (job_ImageFilename j' = job_ImageFilename j \/ job_ImageFilename j' = None).

Definition same_outcome (j j' : Job) : Prop :=
  job_Status j' = job_Status j /\ job_Payload j' = job_Payload j /\ job_Error j' = job_Error j.

(** What one operation may do to the outcome of a row. *)
Inductive job_move (j j' : Job) : Prop :=
| move_none : same_outcome j j' -> job_move j j'
| move_complete : job_Status j = JobPending -> job_Status j' = JobDone -> job_Error j' = None ->
    job_LeaseOwner j' = None -> job_move j j'
| move_fail message : job_Status j = JobPending -> job_Status j' = JobFailed -> job_Payload j' = NoPayload ->
    job_Error j' = Some message -> job_LeaseOwner j' = None -> job_move j j'
| move_requeue : job_Status j = JobDone \/ job_Status j = JobFailed -> is_Some (job_ImageFilename j) ->
    job_Status j' = JobPending -> job_Payload j' = NoPayload -> job_Error j' = None -> job_move j j'
| move_consume : job_Status j = JobDone -> job_Status j' = JobConsumed -> job_Payload j' = job_Payload j ->
    job_Error j' = job_Error j -> job_move j j'.

Definition row_step (j j' : Job) : Prop := job_fixed j j' /\ job_move j j'.

(** A row as CreateJob leaves it. *)
Definition fresh_job (j : Job) : Prop := job_Status j = JobPending /\ job_Payload j = NoPayload /\ job_Error j = None.

(** Only a pending job names an owner, and an owner comes with an expiry. *)
Definition lease_ok (j : Job) : Prop :=
  (is_Some (job_LeaseOwner j) -> job_Status j = JobPending) /\
  (is_Some (job_LeaseOwner j) <-> is_Some (job_LeaseExpiresAt j)).

(** Every row afterwards is new and pending, or comes from a row before. *)
Definition rows_from (d d' : DB) : Prop :=
  forall id j', db_jobs d' !! id = Some j' ->
    (db_jobs d !! id = None /\ fresh_job j' /\ lease_ok j') \/
    exists j, db_jobs d !! id = Some j /\ row_step j j' /\ (lease_ok j -> lease_ok j').

Lemma row_step_same j j' : job_fixed j j' -> same_outcome j j' -> row_step j j'.
Proof. intros. split; [done | by apply move_none]. Qed.

Lemma row_step_refl j : row_step j j.
Proof. apply row_step_same; repeat split; auto. Qed.

(** The rows the statements write differ from the old ones only where they say. *)
Ltac row_fixed := repeat split; auto.

Lemma rows_from_same d d' : db_jobs d' = db_jobs d -> rows_from d d'.
Proof. intros E id j' H. rewrite E in H. right. exists j'. auto using row_step_refl. Qed.

(** A statement whose update keeps to the moves, row by row. *)
Lemma update_jobs_rows sel f w n w' :
  update_jobs sel f w = (Ok n, w') ->
  (forall id j, db_jobs (wdb w) !! id = Some j -> sel (id, j) = true -> row_step j (f j) /\ (lease_ok j -> lease_ok (f j))) ->
  rows_from (wdb w) (wdb w').
Proof.
  intros H Hf. apply update_jobs_ok in H as (_ & H & _). intros id j' Hj'. rewrite H in Hj'.
  destruct (db_jobs (wdb w) !! id) as [j|] eqn:Hj; [|done]. injection Hj' as <-. right. exists j.
  split; [done|]. destruct (sel (id, j)) eqn:E; [by apply (Hf id) | auto using row_step_refl].
Qed.

Lemma delete_jobs_rows sel w rows w' :
  delete_jobs sel w = (Ok rows, w') -> rows_from (wdb w) (wdb w').
Proof.
  intros H. apply delete_jobs_ok in H as (H & _). intros id j' Hj'. apply H in Hj' as [Hj _].
  right. exists j'. auto using row_step_refl.
Qed.

Lemma lease_ok_none j : job_LeaseOwner j = None -> job_LeaseExpiresAt j = None -> lease_ok j.
Proof. intros E1 E2. unfold lease_ok. rewrite E1, E2. split; [intros [? ?]; done | split; intros [? ?]; done]. Qed.

Lemma lease_ok_claim c t j : job_Status j = JobPending -> lease_ok (set_claim c t j).
Proof. intros E. split; [done|]. cbn. destruct c; cbn; split; intros [? ?]; eauto; done. Qed.

Lemma finishJob_rows id s p e w r w' :
  (s = JobDone /\ e = None) \/ (s = JobFailed /\ p = NoPayload /\ is_Some e) -> finishJob id s p e w = (r, w') -> rows_from (wdb w) (wdb w').
Proof.
  intros Hs H. unfold finishJob in H.
  destruct (update_jobs_total (fun kv => (kv.1 =? id) && is_status JobPending kv.2) (set_outcome s p e (wnow w)) w)
    as (n & w1 & E).
  erewrite bind_step in H by reflexivity. rewrite (bind_step _ _ _ _ _ E) in H.
  apply require_run in H as ->.
  eapply update_jobs_rows; [exact E|]. cbn. intros id' j Hj Hsel. unfold is_status in Hsel. bool_to_prop.
  split; [|intros _; by apply lease_ok_none].
  split; [row_fixed|]. destruct Hs as [[-> ->]|(-> & -> & [m ->])]; [by apply move_complete | by eapply move_fail].
Qed.

Lemma RenewJobLeases_run l w r w' :
  RenewJobLeases l w = (r, w') ->
  w' = w \/ exists o s n, claim l = Some (o, s) /\
    update_jobs (fun kv => held_by o kv.2) (set_expiry (Some (wnow w + s))) w = (Ok n, w') /\ r = Ok n.
Proof.
  unfold RenewJobLeases. destruct (claim l) as [[o s]|]; [|cbv [throw]; intros; left; by simplify_eq].
  intros H. erewrite bind_step in H by reflexivity. right. exists o, s.
  destruct (update_jobs_total (fun kv => held_by o kv.2) (set_expiry (Some (wnow w + s))) w) as (n & w1 & E).
  rewrite E in H. injection H as <- <-. eauto.
Qed.

Lemma renew_row o e j :
  held_by o j = true -> row_step j (set_expiry (Some e) j) /\ (lease_ok j -> lease_ok (set_expiry (Some e) j)).
Proof.
  unfold held_by, is_status. intros H. bool_to_prop. split; [apply row_step_same; row_fixed|].
  intros _. split; [done|]. cbn. split; intros _; [done | by rewrite H0].
Qed.

Lemma requeue_row l t j :
  job_Status j ∈ [JobDone; JobFailed] -> is_Some (job_ImageFilename j) ->
  row_step j (set_claim (claim l) t (set_outcome JobPending NoPayload None t j)).
Proof.
  intros H Hi. split; [row_fixed|]. apply move_requeue; try done. set_solver.
Qed.

Lemma CreateJob_ok nj w id j w' :
  CreateJob nj w = (Ok (id, j), w') ->
  db_jobs (wdb w) !! id = None /\ db_jobs (wdb w') = <[id := j]> (db_jobs (wdb w)) /\
  j = set_claim (claim (nj_Lease nj)) (wnow w)
        (mkJob (nj_StorageID nj) (nj_Kind nj) JobPending NoPayload None (nj_CreatedBy nj)
           (nj_ImageFilename nj) (nj_LocationHintID nj) None None (wnow w) (wnow w)).
Proof.
  unfold CreateJob. intros H. tx_next H for i by newID_ok as (ids & _ & ->). tx_inv1 H.
  apply bind_ok in H as ([] & w1 & H1 & H).
  assert (w1 = mkWorld (wdb w) ids (wnow w) (wclock w)) as ->.
  { destruct (nj_LocationHintID nj); [by apply requireSameStorage_ok in H1 as [-> _] | by tx_inv]. }
  tx_inv. bool_to_prop. simplify_eq. done.
Qed.

Lemma CreateJob_rows nj w r w' : CreateJob nj w = (r, w') -> rows_from (wdb w) (wdb w').
Proof.
  intros H. destruct r as [[id j]|e].
  - apply CreateJob_ok in H as (Hn & E & Ej). intros id' j' Hj'. rewrite E in Hj'.
    apply lookup_insert_Some in Hj' as [[<- <-]|[? ?]].
    + left. subst j. split_and!; [done.. | by apply lease_ok_claim].
    + right. exists j'. auto using row_step_refl.
  - unfold CreateJob in H. apply rows_from_same. apply bind_fail in H as [H|(id & w1 & H1 & H)].
    + unfold newID in H. destruct (wids w); by simplify_eq.
    + apply newID_ok in H1 as (ids & _ & ->). apply inTx_run in H as [-> | (? & ? & _)]; done.
Qed.

(** A statement that cannot fail, in the shape the operations use it. *)
Lemma update_jobs_run sel f w r w' :
  update_jobs sel f w = (r, w') -> exists n, r = Ok n /\ update_jobs sel f w = (Ok n, w').
Proof.
  destruct (update_jobs_total sel f w) as (n & w1 & E). intros H. rewrite E in H. simplify_eq. eauto.
Qed.

Lemma FailOrphanedJobs_rows o w r w' : FailOrphanedJobs o w = (r, w') -> rows_from (wdb w) (wdb w').
Proof.
  unfold FailOrphanedJobs. intros H. erewrite bind_step in H by reflexivity.
  apply update_jobs_run in H as (n & _ & H). eapply update_jobs_rows; [exact H|].
  cbn. intros id j _ Hs. unfold orphaned, is_status in Hs. bool_to_prop.
  split; [|intros _; by apply lease_ok_none]. split; [row_fixed | by eapply move_fail].
Qed.

Lemma DeleteJob_rows st id w r w' : DeleteJob st id w = (r, w') -> rows_from (wdb w) (wdb w').
Proof.
  unfold DeleteJob. intros H.
  destruct (delete_jobs (fun kv => (kv.1 =? id) && (job_StorageID kv.2 =? st)) w) as [[rows|e] w1] eqn:E; [|done].
  rewrite (bind_step _ _ _ _ _ E) in H. apply delete_jobs_rows in E.
  destruct (head rows) as [row|]; cbv [some_or mbind tx_bind mret tx_ret throw] in H; by simplify_eq.
Qed.

Lemma RequeueJob_rows st id l w r w' : RequeueJob st id l w = (r, w') -> rows_from (wdb w) (wdb w').
Proof.
  intros H. apply inTx_run in H as [E | (u & -> & H)]; [apply rows_from_same; by rewrite E|].
  tx_next H for d by get_db_ok as [-> ->]. tx_next H for j by some_or_ok as [Hj ->].
  apply job_in_storage_some in Hj as [Hj _].
  tx_next H by require_ok as [Hs ->]. tx_next H by require_ok as [Hi ->]. tx_next H by now_ok as [-> ->].
  apply bind_ok in H as (n & w1 & H1 & H). tx_inv1 H. subst.
  eapply update_jobs_rows; [exact H1|]. cbn. intros id' j' Hj' Hid. bool_to_prop. subst.
  assert (j' = j) as -> by congruence. split; [by apply requeue_row | intros _; by apply lease_ok_claim].
Qed.

Lemma ConsumeJob_ok st id w u w' :
  ConsumeJob st id w = (Ok u, w') ->
  exists j n, job_in_storage (wdb w) st id = Some j /\ job_Status j = JobDone /\
    update_jobs (fun kv => kv.1 =? id) (set_consumed (wnow w)) w = (Ok n, w').
Proof.
  unfold ConsumeJob. intros H. tx_next H for d by get_db_ok as [-> ->]. tx_next H for j by some_or_ok as [Hj ->].
  tx_next H by require_ok as [Hs ->]. tx_next H by now_ok as [-> ->].
  apply bind_ok in H as (n & w1 & H1 & H). tx_inv1 H. subst. bool_to_prop. eauto.
Qed.

Lemma ConsumeJob_rows st id w r w' : inTx (ConsumeJob st id) w = (r, w') -> rows_from (wdb w) (wdb w').
Proof.
  intros H. apply inTx_run in H as [E | (u & -> & H)]; [apply rows_from_same; by rewrite E|].
  apply ConsumeJob_ok in H as (j & n & Hj & Hs & H). apply job_in_storage_some in Hj as [Hj _].
  eapply update_jobs_rows; [exact H|]. cbn. intros id' j' Hj' Hid. bool_to_prop. subst.
  assert (j' = j) as -> by congruence. split.
  - split; [row_fixed | by apply move_consume].
  - intros [L1 L2]. split; [|done]. cbn. intros Ho. specialize (L1 Ho). congruence.
Qed.

(** Every operation keeps every row to its moves. *)
Lemma job_op_rows w w' : job_op w w' -> rows_from (wdb w) (wdb w').
Proof.
  intros Hop. destruct Hop as [nj r w w' H|id r w w' H|id p r w w' H|id m r w w' H|o r w w' H|l r w w' H
    |o r w w' H|st id r w w' H|st t r w w' H|st id l r w w' H|st id r w w' H|t w Ht].
  - by eapply CreateJob_rows.
  - unfold ClearJobImage in H.
    destruct (update_jobs_total (fun kv => kv.1 =? id) clear_image w) as (n & w1 & E).
    rewrite (bind_step _ _ _ _ _ E) in H. injection H as <- <-.
    eapply update_jobs_rows; [exact E|]. intros. split; [apply row_step_same; row_fixed | done].
  - eapply finishJob_rows; [|exact H]. by left.
  - eapply finishJob_rows; [|exact H]. right. eauto.
  - by eapply FailOrphanedJobs_rows.
  - apply RenewJobLeases_run in H as [-> | (o & s & n & _ & H & _)]; [by apply rows_from_same|].
    eapply update_jobs_rows; [exact H|]. intros id j _. apply renew_row.
  - unfold ReleaseJobLeases in H. apply update_jobs_run in H as (n & _ & H).
    eapply update_jobs_rows; [exact H|]. intros id j _ _. split; [apply row_step_same; row_fixed|].
    intros _. by apply lease_ok_none.
  - by eapply DeleteJob_rows.
  - unfold DiscardJobs in H. destruct r as [rows|e]; [by eapply delete_jobs_rows | done].
  - by eapply RequeueJob_rows.
  - by eapply ConsumeJob_rows.
  - by apply rows_from_same.
Qed.

(** ** What a sweep and a renewal do to one row *)

Lemma FailOrphanedJobs_ok o w n w' :
  FailOrphanedJobs o w = (Ok n, w') ->
  forall id, db_jobs (wdb w') !! id =
    (fun j => if orphaned o (wnow w) j
              then set_outcome JobFailed NoPayload (Some InterruptedJobError) (wnow w) j else j) <$> db_jobs (wdb w) !! id.
Proof. unfold FailOrphanedJobs. intros H. tx_next H by now_ok as [-> ->]. apply update_jobs_ok in H as (_ & H & _). exact H. Qed.

Lemma RenewJobLeases_ok l w n w' :
  RenewJobLeases l w = (Ok n, w') ->
  lease_Owner l ≠ uuid_Nil /\ wnow w' = wnow w /\
  n = Z.of_nat (size (jobs_where (fun kv => held_by (lease_Owner l) kv.2) (wdb w))) /\
  forall id, db_jobs (wdb w') !! id =
    (fun j => if held_by (lease_Owner l) j then set_expiry (Some (wnow w + lease_TTL l)) j else j) <$> db_jobs (wdb w) !! id.
Proof.
  intros H. apply RenewJobLeases_run in H as H'. destruct H' as [->|(o & s & n' & E & U & [= <-])].
  - unfold RenewJobLeases in H. destruct (claim l) as [[o s]|] eqn:E; [|done].
    erewrite bind_step in H by reflexivity. unfold claim in E. destruct (Z.eqb_spec (lease_Owner l) uuid_Nil); [done|].
    injection E as <- <-. apply update_jobs_ok in H as (-> & H & _). done.
  - unfold claim in E. destruct (Z.eqb_spec (lease_Owner l) uuid_Nil); [done|]. injection E as <- <-.
    apply update_jobs_ok in U as (-> & U & _ & ->). done.
Qed.

Lemma ReleaseJobLeases_ok o w n w' :
  ReleaseJobLeases o w = (Ok n, w') ->
  forall id, db_jobs (wdb w') !! id = (fun j => if held_by o j then set_claim None 0 j else j) <$> db_jobs (wdb w) !! id.
Proof. unfold ReleaseJobLeases. intros H. by apply update_jobs_ok in H as (_ & H & _). Qed.

Lemma held_by_ok o j : held_by o j = true <-> job_Status j = JobPending /\ job_LeaseOwner j = Some o.
Proof. unfold held_by, is_status. rewrite andb_true_iff, !bool_decide_eq_true. done. Qed.

(** ** Pages of the inbox *)

(** The rows a listing ranges over, before the cursor is applied. *)
Definition inbox (storageID : uuid) (statuses : list JobStatus) (d : DB) : list (uuid * Job) :=
  reverse (order_by_id (jobs_where (fun kv =>
    (job_StorageID kv.2 =? storageID) && bool_decide (job_Status kv.2 ∈ statuses)) d)).

Definition before_cursor (after : option uuid) (kv : uuid * Job) : bool :=
  match after with None => true | Some a => kv.1 <? a end.

Lemma ListJobs_inbox st ss after limit w r w' :
  ListJobs st ss after limit w = (Ok r, w') <->
  ss ≠ [] /\ w' = w /\ r = take limit (base.filter (fun kv => before_cursor after kv = true) (inbox st ss (wdb w))).
Proof.
  assert (E : forall d, base.filter (fun kv => before_cursor after kv = true) (inbox st ss d) =
    reverse (order_by_id (jobs_where (fun kv => (job_StorageID kv.2 =? st) &&
      bool_decide (job_Status kv.2 ∈ ss) && before_cursor after kv) d))).
  { intros d. unfold inbox. rewrite filter_reverse, <- order_by_id_filter. do 2 f_equal.
    apply map_eq. intros i. apply option_eq. intros j. unfold jobs_where.
    rewrite !map_lookup_filter_Some, (andb_true_iff _ (before_cursor after (i, j))). tauto. }
  unfold ListJobs. split.
  - intros H. tx_next H by require_ok as [Hs ->]. tx_next H for d by get_db_ok as [-> ->]. tx_inv1 H. subst.
    bool_to_prop. by rewrite E.
  - intros (Hs & -> & ->). rewrite E. destruct ss; [done | reflexivity].
Qed.

Lemma inbox_sorted st ss d : StronglySorted (fun x y : uuid * Job => y.1 < x.1) (inbox st ss d).
Proof. unfold inbox. apply (StronglySorted_reverse (fun x y : uuid * Job => x.1 < y.1)), order_by_id_strict. Qed.

(** A cursor inside the range keeps every row behind it inside the range. *)
Lemma cursor_monotone after a (kv : uuid * Job) j :
  before_cursor (Some a) kv = true -> before_cursor after (a, j) = true -> before_cursor after kv = true.
Proof. destruct after as [b|]; cbn; [|done]. rewrite !Z.ltb_lt. lia. Qed.

(** What precedes the cursor is what follows it in the listing. *)
Lemma filter_after_cursor (l page rest : list (uuid * Job)) a j :
  StronglySorted (fun x y => y.1 < x.1) l -> l = page ++ rest -> last page = Some (a, j) ->
  base.filter (fun kv => before_cursor (Some a) kv = true) l = rest.
Proof.
  intros Hs -> Hlast. apply last_Some in Hlast as (page' & ->).
  rewrite filter_app. apply StronglySorted_app in Hs as (Hpr & Hp & _).
  assert (E1 : base.filter (fun kv => before_cursor (Some a) kv = true) (page' ++ [(a, j)]) = []).
  { apply filter_all_false. intros x Hx. cbn. rewrite Z.ltb_lt.
    apply elem_of_app in Hx as [Hx|Hx].
    - apply StronglySorted_app in Hp as (Hpp & _). specialize (Hpp x (a, j) Hx). cbn in Hpp.
      assert (a < x.1) by (apply Hpp; set_solver). lia.
    - apply list_elem_of_singleton in Hx as ->. cbn. lia. }
  rewrite E1. apply filter_all_true. intros x Hx. cbn. apply Z.ltb_lt.
  apply (Hpr (a, j) x); [set_solver | done].
Qed.

(** ** Theorems *)

(** Along a run that keeps the row and never has it pending, its outcome can only
    be consumed. *)
Lemma settled_outcome id w w' j j' :
  rtc (fun a b => job_op a b /\ exists k, db_jobs (wdb b) !! id = Some k /\ job_Status k <> JobPending) w w' ->
  db_jobs (wdb w) !! id = Some j -> job_Status j <> JobPending -> db_jobs (wdb w') !! id = Some j' ->
  job_Payload j' = job_Payload j /\ job_Error j' = job_Error j /\
  (job_Status j' = job_Status j \/ job_Status j = JobDone /\ job_Status j' = JobConsumed).
Proof.
  intros Hrun. revert j. induction Hrun as [w|w w1 w' [Hop (j1 & Hj1 & Hn1)] Hrun IH]; intros j Hj Hn Hj'.
  - replace j' with j by congruence. auto.
  - destruct (IH j1 Hj1 Hn1 Hj') as (P & E & S).
    destruct (job_op_rows _ _ Hop id j1 Hj1) as [[Hnone _]|(j0 & Hj0 & [_ Hs] & _)]; [congruence|].
    replace j0 with j in * by congruence. clear IH Hrun.
    destruct Hs as [(S1 & P1 & E1)| | | |]; [|congruence..|]; (split_and!; [congruence..|]); destruct S as [|[]]; try (left; congruence); right; split; congruence.
Qed.

(** A consumed row stays consumed, whatever runs. *)
Lemma consumed_final id w w' j :
  rtc (fun a b => job_op a b /\ is_Some (db_jobs (wdb b) !! id)) w w' ->
  db_jobs (wdb w) !! id = Some j -> job_Status j = JobConsumed ->
  exists j', db_jobs (wdb w') !! id = Some j' /\ same_outcome j j'.
Proof.
  intros Hrun. revert j. induction Hrun as [w|w w1 w' [Hop [j1 Hj1]] _ IH]; intros j Hj Hc; [exists j; repeat split; auto|].
  destruct (job_op_rows _ _ Hop id j1 Hj1) as [[Hnone _]|(j0 & Hj0 & [_ Hs] & _)]; [congruence|].
  replace j0 with j in * by congruence.
  destruct Hs as [(S1 & P1 & E1)|?|?|[|]|?]; try congruence.
  destruct (IH j1 Hj1 ltac:(congruence)) as (j' & Hj' & S2 & P2 & E2). exists j'. split; [done|]. unfold same_outcome. by rewrite S2, P2, E2.
Qed.


(** Starting from a table in which it holds, it stays true along any sequence
    of job operations that a job naming a lease owner is pending, and that an
    owner and an expiry are set together: a finished job never still names the
    process that worked it. *)
Theorem job_leases_belong_to_pending w w' :
  rtc job_op w w' ->
  (forall id j, db_jobs (wdb w) !! id = Some j -> lease_ok j) ->
  forall id j, db_jobs (wdb w') !! id = Some j -> lease_ok j.
Proof.
  induction 1 as [w|w w1 w' Hop _ IH]; [done|]. intros Hl. apply IH.
  intros id j Hj. destruct (job_op_rows _ _ Hop id j Hj) as [(_ & _ & ?)|(j0 & Hj0 & _ & Hk)]; [done|].
  apply Hk. by apply (Hl id).
Qed.

(** C31: The work of a process that died is recovered: once its claim has lapsed,
    or once it released its claims at shutdown, the first sweep of any other
    process fails every job it held, with the message the user reads and no
    lease; and a renewal that arrives after the release finds no row to renew. *)
Theorem dead_owners_jobs_are_failed owner other w id j :
  other ≠ owner ->
  db_jobs (wdb w) !! id = Some j -> job_Status j = JobPending -> job_LeaseOwner j = Some owner ->
  (forall e n w', job_LeaseExpiresAt j = Some e -> e < wnow w -> FailOrphanedJobs other w = (Ok n, w') ->
     db_jobs (wdb w') !! id = Some (set_outcome JobFailed NoPayload (Some InterruptedJobError) (wnow w) j)) /\
  (forall n w1, ReleaseJobLeases owner w = (Ok n, w1) ->
     (forall m w2, FailOrphanedJobs other w1 = (Ok m, w2) ->
        exists j', db_jobs (wdb w2) !! id = Some j' /\ job_Status j' = JobFailed /\
          job_Error j' = Some InterruptedJobError /\ job_LeaseOwner j' = None) /\
     (forall ttl m w2, RenewJobLeases (mkLease owner ttl) w1 = (Ok m, w2) ->
        m = 0 /\ db_jobs (wdb w2) = db_jobs (wdb w1))).
Proof.
  intros Hne Hj Hs Ho. split.
  - intros e n w' He Hlt H. rewrite (FailOrphanedJobs_ok _ _ _ _ H), Hj. cbn.
    unfold orphaned, is_status. rewrite Hs, Ho, He, (proj2 (Z.ltb_lt _ _) Hlt).
    rewrite (bool_decide_eq_false_2 (Some owner = Some other)) by congruence. done.
  - intros n w1 H1. pose proof (ReleaseJobLeases_ok _ _ _ _ H1) as E1. split.
    + intros m w2 H2. pose proof (FailOrphanedJobs_ok _ _ _ _ H2 id) as E. rewrite E1, Hj in E. cbn in E.
      rewrite (proj2 (held_by_ok _ _) (conj Hs Ho)) in E. unfold orphaned, is_status in E. cbn in E.
      rewrite Hs in E. cbn in E. eexists. split; [exact E | done].
    + intros ttl m w2 H2. apply RenewJobLeases_ok in H2 as (_ & _ & Hm & H2).
      assert (Hnone : forall i k, db_jobs (wdb w1) !! i = Some k -> held_by owner k = false).
      { intros i k Hk. rewrite E1 in Hk. destruct (db_jobs (wdb w) !! i) as [k0|]; [|done]. cbn in Hk.
        injection Hk as <-. destruct (held_by owner k0) eqn:Ek; [|done].
        unfold held_by. cbn. by rewrite andb_false_r. }
      split.
      * rewrite Hm. cbn. replace (jobs_where _ (wdb w1)) with (∅ : gmap uuid Job); [done|].
        symmetry. apply map_eq. intros i. rewrite lookup_empty. apply map_lookup_filter_None. right.
        intros k Hk. cbn. rewrite (Hnone i k Hk). done.
      * apply map_eq. intros i. rewrite H2. cbn. destruct (db_jobs (wdb w1) !! i) as [k|] eqn:Ek; [|done].
        cbn. by rewrite (Hnone i k Ek).
Qed.

(** The inbox pages without gaps or repeats: a page followed by the page that
    starts after its last job's id is exactly the longer page fetched in one call. *)
Theorem ListJobs_pages st ss after n m w page a j page2 w1 w2 :
  ListJobs st ss after n w = (Ok page, w1) -> last page = Some (a, j) ->
  ListJobs st ss (Some a) m w = (Ok page2, w2) ->
  ListJobs st ss after (n + m)%nat w = (Ok (page ++ page2), w).
Proof.
  intros H1 Hl H2. apply ListJobs_inbox in H1 as (Hs & _ & E1). apply ListJobs_inbox in H2 as (_ & _ & E2).
  apply ListJobs_inbox. split; [done|]. split; [done|].
  set (l := base.filter (fun kv => before_cursor after kv = true) (inbox st ss (wdb w))) in *.
  assert (Hsort : StronglySorted (fun x y : uuid * Job => y.1 < x.1) (inbox st ss (wdb w))) by apply inbox_sorted.
  assert (Hrest : base.filter (fun kv => before_cursor (Some a) kv = true) l = drop n l).
  { apply (filter_after_cursor l page _ a j); [by apply StronglySorted_filter | | done].
    by rewrite E1, take_drop. }
  rewrite <- take_take_drop, <- E1. do 2 f_equal. rewrite E2. f_equal. rewrite <- Hrest.
  unfold l. rewrite list_filter_filter_l; [done|].
  intros kv Hkv. apply (cursor_monotone after a kv j Hkv).
  assert (Hin : (a, j) ∈ l) by (rewrite <- (take_drop n l), <- E1; apply elem_of_app; left; by apply last_Some_elem_of).
  by apply list_elem_of_filter in Hin as [? _].
Qed.

(** ** The theorems at work *)

Definition GenericMessage : string := "Processing failed."%string.

(** A done job that was consumed. *)
Definition consumed_world : World := (inTx (ConsumeJob 1 61) sample_world).2.

Definition consumed_row : Job := set_consumed second (sample_job JobDone (Proposal sample_rows) None None).

Definition pending_row : Job := sample_job JobPending NoPayload (Some 7) (Some (60 * second)).


Lemma job_leases_belong_to_pending_witness :
  lease_ok (set_outcome JobFailed NoPayload (Some GenericMessage) second pending_row).
Proof.
  apply (job_leases_belong_to_pending sample_world (FailJob 60 GenericMessage sample_world).2) with (id := 60).
  - apply rtc_once. apply (op_fail 60 GenericMessage (FailJob 60 GenericMessage sample_world).1).
    by destruct (FailJob 60 GenericMessage sample_world).
  - assert (Hall : map_Forall (fun _ j => lease_ok j) (db_jobs sample_db)).
    { cbn. repeat (apply map_Forall_insert_2; [|]); try apply map_Forall_empty;
        split; cbn; try (intros [? ?]; done); (split; intros [? ?]; first [done | eexists; reflexivity]). }
    exact Hall.
  - vm_compute. reflexivity.
Defined.

Lemma dead_owners_jobs_are_failed_witness :
  db_jobs (wdb (FailOrphanedJobs 8 (at_time (2 * minute) sample_world)).2) !! 60 =
  Some (set_outcome JobFailed NoPayload (Some InterruptedJobError) (2 * minute) pending_row).
Proof.
  refine (proj1 (dead_owners_jobs_are_failed 7 8 (at_time (2 * minute) sample_world) 60 pending_row _ _ _ _)
    (60 * second) 1 _ _ _ _); vm_compute; first [reflexivity | discriminate].
Defined.

Definition inbox_page : list (uuid * Job) := [(63, sample_job JobConsumed (Proposal sample_rows) None None)].
Definition inbox_page2 : list (uuid * Job) := [(62, sample_job JobFailed NoPayload None None)].

Lemma ListJobs_pages_witness :
  ListJobs 1 [JobDone; JobFailed; JobConsumed] None 2 sample_world = (Ok (inbox_page ++ inbox_page2), sample_world).
Proof.
  refine (ListJobs_pages 1 [JobDone; JobFailed; JobConsumed] None 1 1 sample_world inbox_page 63
    (sample_job JobConsumed (Proposal sample_rows) None None) inbox_page2 sample_world sample_world _ _ _);
    vm_compute; reflexivity.
Defined.
