(* ===== verification/Consumption.v ===== *)
(** * Confirming a consumption proposal: internal/store/consumption.go

    A reviewed proposal is applied all or nothing: the decisions must name exactly
    the rows the stored proposal issued, every accepted decrement goes through
    adjustBatch, and the job is consumed last.  The row-set check is matchRowIDs
    of ingestion.go. *)

From S2P Require Import Prelude Gamification Expiry Db Sample Tree Progress ShelfLife Containers Batches Ledger StockSteps Stocktake Jobs.

#[local] Open Scope string_scope.
#[local] Open Scope list_scope.
#[local] Open Scope Z_scope.

(** ** Data *)

Record ConsumeBatchDecrement := mkDecrement { dec_BatchID : uuid; dec_Quantity : Z }.

Record ConsumeDecision := mkConsumeDecision {
  cd_RowID : string;
  cd_Accept : bool;
  cd_ProductID : option uuid;
  cd_Decrements : list ConsumeBatchDecrement;
}.

(** ** The operation *)

(** json.Unmarshal of the payload into the proposal's rows. *)
Definition proposal_rows (p : Payload) : option (list ProposalRow) :=
  match p with
  | Proposal rows => Some rows
  | NoPayload | BadPayload => None
  end.

Definition matchRowIDs (payload : Payload) (rowIDs : list string) : Tx unit :=
  rows ← some_or (proposal_rows payload) ErrOther;
  require (match_exactly (list_to_set (map pr_RowID rows)) rowIDs) ErrValidation.

Fixpoint apply_decrements (storageID productID : uuid) (userID : option uuid)
    (decs : list ConsumeBatchDecrement) : Tx (list uuid) :=
  match decs with
  | [] => mret []
  | dec :: decs' =>
    p ← adjustBatch storageID (dec_BatchID dec) (wrap64 (- dec_Quantity dec)) ReasonConsumption userID;
    require (p =? productID) ErrValidation ;;
    ids ← apply_decrements storageID productID userID decs';
    mret (dec_BatchID dec :: ids)
  end.

(** One decision of the loop: the batches it touched. *)
Definition apply_consume (storageID : uuid) (userID : option uuid) (cd : ConsumeDecision) : Tx (list uuid) :=
  if negb (cd_Accept cd) then mret []
  else
    productID ← some_or (cd_ProductID cd) ErrValidation;
    requireProductInStorage storageID productID ;;
    require (negb (bool_decide (length (cd_Decrements cd) = 0%nat))) ErrValidation ;;
    apply_decrements storageID productID userID (cd_Decrements cd).

(** The job of a confirm, which must be done. *)
Definition lock_done_job (storageID jobID : uuid) : Tx Job :=
  d ← get_db;
  j ← some_or (job_in_storage d storageID jobID) ErrNotFound;
  require (bool_decide (job_Status j = JobDone)) ErrConflict ;;
  mret j.

Definition ConfirmConsumption (storageID jobID : uuid) (userID : option uuid)
    (decisions : list ConsumeDecision) : Tx (list uuid) :=
  inTx (
    j ← lock_done_job storageID jobID;
    matchRowIDs (job_Payload j) (map cd_RowID decisions) ;;
    touched ← traverse (apply_consume storageID userID) decisions;
    ConsumeJob storageID jobID ;;
    mret (concat touched)).

(** ** What the loop does *)

(** What an accepted decision takes from a product. *)
Definition consumed_of (p : uuid) (cd : ConsumeDecision) : Z :=
  if cd_Accept cd && bool_decide (cd_ProductID cd = Some p)
  then lsum dec_Quantity (cd_Decrements cd) else 0.

(** A step that records [n] units for product [p] and keeps the invariant. *)
Definition books (p : uuid) (n : Z) (d d' : DB) : Prop :=
  good_step d d' /\ (forall p', ledger d' p' = ledger d p' + (if p =? p' then n else 0)) /\
  db_jobs d' = db_jobs d.

Lemma books_jobs_scoring {A} (m : Tx A) w r w' :
  scoring_only m -> m w = (r, w') -> db_jobs (wdb w') = db_jobs (wdb w) /\ forall p, ledger (wdb w') p = ledger (wdb w) p.
Proof.
  intros Hm H. destruct (Hm w r w' H) as (E & _). split.
  - change (db_jobs (inventory_part (wdb w')) = db_jobs (inventory_part (wdb w))). by rewrite E.
  - intros p. change (ledger (inventory_part (wdb w')) p = ledger (inventory_part (wdb w)) p). by rewrite E.
Qed.

Lemma adjustBatch_books st id delta r u w p w' :
  adjustBatch st id delta r u w = (Ok p, w') -> books p delta (wdb w) (wdb w').
Proof.
  intros H. split; [by eapply adjustBatch_good|].
  apply adjustBatch_ok in H as (b & wl & _ & _ & H & Hbump).
  apply books_jobs_scoring in Hbump as [-> Hl]; [|auto with scoring].
  assert (Hlog : db_jobs (wdb wl) = db_jobs (wdb w) /\
    forall p', ledger (wdb wl) p' = ledger (wdb w) p' + (if p =? p' then delta else 0)).
  { destruct H as [[_ H]|[_ H]]; apply writeLog_books in H as [Hj HL]; (split; [exact Hj|]); intros p'; rewrite HL.
    - f_equal. apply (ledger_unlink (set_batches (delete id) (wdb w))).
    - done. }
  destruct Hlog as [Hj HL]. split; [|done]. intros p'. by rewrite Hl, HL.
Qed.

(** A decrement the ledger accepted is the one the reviewer entered. *)
Lemma decrement_delta q : is_int64 q -> - 2 ^ 31 <= wrap64 (- q) < 2 ^ 31 -> wrap64 (- q) = - q.
Proof.
  intros Hq Hd. destruct (decide (q = - 2 ^ 63)) as [->|]; [exfalso; revert Hd; vm_compute; intros [H _]; by apply H|].
  apply wrap64_id. unfold is_int64 in *. lia.
Qed.

Lemma adjustBatch_int4 st id delta r u w p w' :
  adjustBatch st id delta r u w = (Ok p, w') -> - 2 ^ 31 <= delta < 2 ^ 31.
Proof. intros H. apply adjustBatch_ok in H as (b & wl & _ & _ & [[_ H]|[_ H]] & _); by apply writeLog_int4 in H. Qed.

Lemma apply_decrements_books st p u decs w ids w' :
  Forall (fun dec => is_int64 (dec_Quantity dec)) decs ->
  apply_decrements st p u decs w = (Ok ids, w') ->
  books p (- lsum dec_Quantity decs) (wdb w) (wdb w') /\ ids = map dec_BatchID decs.
Proof.
  intros Hint. revert w ids. induction Hint as [|dec decs Hq _ IH]; intros w ids H; cbn in H.
  { tx_inv. split; [|done]. split; [done|]. split; [|done]. intros p'. cbn. destruct (p =? p'); lia. }
  apply bind_ok in H as (p0 & w1 & H1 & H). tx_next H by require_ok as [Hp ->].
  apply bind_ok in H as (ids' & w2 & H2 & H). tx_inv1 H. subst. bool_to_prop. subst.
  apply IH in H2 as [(G2 & L2 & J2) ->]. pose proof (adjustBatch_int4 _ _ _ _ _ _ _ _ H1) as Hd.
  apply adjustBatch_books in H1 as (G1 & L1 & J1). rewrite decrement_delta in L1 by done. split; [|done].
  split; [by etransitivity|]. split; [|congruence]. intros p'. rewrite L2, L1. cbn. destruct (p =? p'); lia.
Qed.

Definition int64_decision (cd : ConsumeDecision) : Prop :=
  Forall (fun dec => is_int64 (dec_Quantity dec)) (cd_Decrements cd).

Lemma apply_consume_books st u cds w ids w' :
  Forall int64_decision cds ->
  traverse (apply_consume st u) cds w = (Ok ids, w') ->
  good_step (wdb w) (wdb w') /\ db_jobs (wdb w') = db_jobs (wdb w) /\
  forall p, ledger (wdb w') p = ledger (wdb w) p - lsum (consumed_of p) cds.
Proof.
  intros Hint. revert w ids. induction Hint as [|cd cds Hq _ IH]; intros w ids H; cbn in H.
  { tx_inv. split; [done|]. split; [done|]. intros p. cbn. lia. }
  apply bind_ok in H as (i1 & w1 & H1 & H). apply bind_ok in H as (i2 & w2 & H2 & H). tx_inv1 H. subst.
  apply IH in H2 as (G2 & J2 & L2).
  assert (S : good_step (wdb w) (wdb w1) /\ db_jobs (wdb w1) = db_jobs (wdb w) /\
    forall p, ledger (wdb w1) p = ledger (wdb w) p - consumed_of p cd).
  { unfold apply_consume in H1. unfold consumed_of. destruct (cd_Accept cd); cbn in H1.
    - tx_next H1 for p by some_or_ok as [Hp ->]. tx_next H1 by requireProductInStorage_ok as (-> & _).
      tx_next H1 by require_ok as [_ ->]. apply apply_decrements_books in H1 as [(G & L & J) _]; [|done].
      split; [done|]. split; [done|]. intros p'. rewrite L, Hp. cbn.
      destruct (Z.eqb_spec p p'); case_bool_decide; try congruence; lia.
    - tx_inv. split; [done|]. split; [done|]. intros p. cbn. lia. }
  destruct S as (G1 & J1 & L1). split; [by etransitivity|]. split; [congruence|].
  intros p. rewrite L2, L1. cbn. lia.
Qed.

Lemma matchRowIDs_ok payload ids w u w' :
  matchRowIDs payload ids w = (Ok u, w') ->
  w' = w /\ exists rows, proposal_rows payload = Some rows /\ NoDup ids /\
    forall id, id ∈ ids <-> id ∈ map pr_RowID rows.
Proof.
  unfold matchRowIDs. intros H. tx_next H for rows by some_or_ok as [Hr ->].
  apply require_ok in H as [H ->]. apply match_exactly_spec in H as [Hn Hi].
  split; [done|]. exists rows. split; [done|]. split; [done|]. intros id. by rewrite Hi, elem_of_list_to_set.
Qed.

Lemma lock_done_job_ok st id w j w' :
  lock_done_job st id w = (Ok j, w') -> w' = w /\ job_in_storage (wdb w) st id = Some j /\ job_Status j = JobDone.
Proof. unfold lock_done_job. intros H. tx_inv. bool_to_prop. done. Qed.

(** A job that is not done is refused before anything is read. *)
Lemma lock_done_job_conflict st id w j :
  job_in_storage (wdb w) st id = Some j -> job_Status j ≠ JobDone -> lock_done_job st id w = (Fail ErrConflict, w).
Proof.
  intros Hj Hs. unfold lock_done_job. erewrite bind_step by reflexivity. rewrite Hj.
  erewrite bind_step by reflexivity. by rewrite bool_decide_eq_false_2.
Qed.

Lemma ConsumeJob_after st id w u w' :
  ConsumeJob st id w = (Ok u, w') ->
  (exists j, job_in_storage (wdb w) st id = Some j /\ job_in_storage (wdb w') st id = Some (set_consumed (wnow w) j)) /\
  inventory_of (wdb w') = inventory_of (wdb w).
Proof.
  intros H. apply ConsumeJob_ok in H as (j & n & Hj & _ & H).
  assert (E : inventory_of (wdb w') = inventory_of (wdb w)) by (unfold update_jobs in H; by tx_inv).
  split; [|done]. exists j. split; [done|]. apply job_in_storage_some in Hj as [Hj Hst].
  apply update_jobs_ok in H as (_ & H & _). apply job_in_storage_some. rewrite H, Hj. cbn.
  by rewrite Z.eqb_refl.
Qed.

Lemma ConfirmConsumption_ok st id u cds w ids w' :
  ConfirmConsumption st id u cds w = (Ok ids, w') ->
  exists j rows touched w1,
    job_in_storage (wdb w) st id = Some j /\ job_Status j = JobDone /\
    proposal_rows (job_Payload j) = Some rows /\ NoDup (map cd_RowID cds) /\
    (forall r, r ∈ map cd_RowID cds <-> r ∈ map pr_RowID rows) /\
    traverse (apply_consume st u) cds w = (Ok touched, w1) /\
    ConsumeJob st id w1 = (Ok tt, w') /\ ids = concat touched.
Proof.
  unfold ConfirmConsumption. intros H. tx_inv1 H.
  tx_next H for j by lock_done_job_ok as (-> & Hj & Hs).
  tx_next H by matchRowIDs_ok as (-> & rows & Hr & Hn & Hi).
  apply bind_ok in H as (touched & w1 & H1 & H). apply bind_ok in H as ([] & w2 & H2 & H). tx_inv1 H. subst.
  exists j, rows, touched, w1. done.
Qed.

Lemma ConfirmConsumption_good st id u cds w ids w' :
  Forall int64_decision cds ->
  ConfirmConsumption st id u cds w = (Ok ids, w') -> good_step (wdb w) (wdb w').
Proof.
  intros Hint H. apply ConfirmConsumption_ok in H as (j & rows & t & w1 & _ & _ & _ & _ & _ & H1 & H2 & _).
  apply apply_consume_books in H1 as (G & _ & _); [|done]. apply ConsumeJob_after in H2 as (_ & E).
  etransitivity; [exact G | by apply good_step_inventory].
Qed.

(** Each product's stock goes down by what the accepted decisions take from it. *)
Lemma ConfirmConsumption_stock st id u cds w ids w' :
  consistent (wdb w) -> Forall int64_decision cds ->
  ConfirmConsumption st id u cds w = (Ok ids, w') ->
  (forall p, stock (wdb w') p = stock (wdb w) p - lsum (consumed_of p) cds) /\ consistent (wdb w').
Proof.
  intros HC Hint H. apply ConfirmConsumption_ok in H as (j & rows & t & w1 & _ & _ & _ & _ & _ & H1 & H2 & _).
  apply apply_consume_books in H1 as (G & _ & L); [|done]. apply ConsumeJob_after in H2 as (_ & E).
  assert (C' : consistent (wdb w')).
  { eapply good_step_consistent; [|exact HC]. etransitivity; [exact G | by apply good_step_inventory]. }
  split; [|done]. intros p. destruct HC as [_ B], C' as [_ B']. rewrite B', B, <- L. unfold inventory_of in E. unfold ledger.
  by injection E as _ _ _ _ ->.
Qed.

(** C5: A confirmed consumption takes from every product's stock exactly the sum of
    the accepted decrements for it, no more and no less; it decides exactly the
    rows the proposal issued, each once; and shelves and ledger still agree. *)
Theorem ConfirmConsumption_takes_exactly st id u cds w ids w' :
  consistent (wdb w) -> Forall int64_decision cds ->
  ConfirmConsumption st id u cds w = (Ok ids, w') ->
  (forall p, stock (wdb w') p = stock (wdb w) p - lsum (consumed_of p) cds) /\
  (exists j rows, job_in_storage (wdb w) st id = Some j /\ proposal_rows (job_Payload j) = Some rows /\
     NoDup (map cd_RowID cds) /\ forall r, r ∈ map cd_RowID cds <-> r ∈ map pr_RowID rows) /\
  consistent (wdb w').
Proof.
  intros HC Hint H. destruct (ConfirmConsumption_stock st id u cds w ids w' HC Hint H) as [E C'].
  apply ConfirmConsumption_ok in H as (j & rows & t & w1 & Hj & _ & Hr & Hn & Hi & _). by split_and!; [|exists j, rows|].
Qed.

(** A confirm is applied at most once: after it succeeded, every further confirm
    of the same job, whoever sends it and whatever it decides, is answered
    ErrConflict and changes nothing; and a confirm that fails for any reason leaves
    the whole database as it was. *)
Theorem ConfirmConsumption_at_most_once st id u cds w ids w' :
  ConfirmConsumption st id u cds w = (Ok ids, w') ->
  (forall u2 cds2, ConfirmConsumption st id u2 cds2 w' = (Fail ErrConflict, w')) /\
  (forall u2 id2 cds2 e w2, ConfirmConsumption st id2 u2 cds2 w' = (Fail e, w2) -> wdb w2 = wdb w').
Proof.
  intros H. split.
  - intros u2 cds2. apply ConfirmConsumption_ok in H as (_ & _ & _ & w1 & _ & _ & _ & _ & _ & _ & H2 & _).
    apply ConsumeJob_after in H2 as ((j & _ & Hj) & _).
    assert (Hc : lock_done_job st id w' = (Fail ErrConflict, w')) by (by eapply lock_done_job_conflict).
    unfold ConfirmConsumption, inTx. rewrite (bind_abort _ _ _ _ _ Hc). by destruct w'.
  - intros u2 id2 cds2 e w2 H2. by apply inTx_fail in H2.
Qed.

(** ** The theorems at work *)

Definition sample_decisions : list ConsumeDecision :=
  [mkConsumeDecision "a" true (Some 30) [mkDecrement 40 2]; mkConsumeDecision "b" false None []].

Lemma sample_int64 : Forall int64_decision sample_decisions.
Proof. repeat constructor; vm_compute; discriminate. Qed.

Lemma ConfirmConsumption_takes_exactly_witness :
  stock (wdb (ConfirmConsumption 1 61 (Some 10) sample_decisions sample_world).2) 30 = 1.
Proof.
  pose proof (ConfirmConsumption_takes_exactly 1 61 (Some 10) sample_decisions sample_world [40]
    (ConfirmConsumption 1 61 (Some 10) sample_decisions sample_world).2 sample_consistent sample_int64) as T.
  rewrite (proj1 (T ltac:(vm_compute; reflexivity)) 30). reflexivity.
Defined.

Lemma ConfirmConsumption_at_most_once_witness :
  let w' := (ConfirmConsumption 1 61 (Some 10) sample_decisions sample_world).2 in
  ConfirmConsumption 1 61 (Some 11) sample_decisions w' = (Fail ErrConflict, w').
Proof.
  intros w'. apply (proj1 (ConfirmConsumption_at_most_once 1 61 (Some 10) sample_decisions sample_world [40] w'
    ltac:(vm_compute; reflexivity))).
Defined.
