(* ===== verification/Locations.v ===== *)
(** * Locations and categories: internal/store (locations.go, categories.go, tombstones.go)

    Creating, moving, patching and deleting the nodes of the two trees, with the
    tombstones a deletion leaves for clients and, for categories, the recompute of
    the derived expiry dates under a moved node.  The advisory tree lock has no
    effect on one transaction's own outcome. *)

From S2P Require Import Prelude Gamification Expiry Db Tree Progress ShelfLife.

#[local] Open Scope string_scope.
#[local] Open Scope list_scope.
#[local] Open Scope Z_scope.

(** ** Tombstones *)

Definition TombstoneProduct := "product".
Definition TombstoneCategory := "category".
Definition TombstoneLocation := "location".

Definition TombstoneRetention : Z := 30 * 24 * hour.

Definition recordTombstones (storageID : uuid) (kind : string) (entityIDs : list uuid) : Tx unit :=
  for_each (fun entityID =>
    id ← newID;
    d ← get_db;
    t ← now;
    require (bool_decide (storageID ∈ db_storages d)
             && negb (bool_decide (id ∈ map ts_ID (db_tombstones d)))) ErrOther ;;
    modify (set_tombstones (fun l => l ++ [mkTombstone id storageID kind entityID t]))) entityIDs.

Definition SweepTombstones (nowT : Z) : Tx Z :=
  d ← get_db;
  let gone := base.filter (fun t => ts_DeletedAt t < nowT - TombstoneRetention) (db_tombstones d) in
  modify (set_tombstones (base.filter (fun t => ~ ts_DeletedAt t < nowT - TombstoneRetention))) ;;
  mret (Z.of_nat (length gone)).

(** ** Locations *)

Record NewLocation := mkNewLocation {
  nl_ParentID : option uuid;
  nl_Name : string;
  nl_Description : option string;
}.

(** The constraints a new node of a tree must meet: a fresh id, an existing
    storage, and not its own parent. *)
Definition node_row_ok {V} (table : gmap uuid V) (d : DB) (storageID id : uuid) (parent : option uuid) : bool :=
  bool_decide (table !! id = None) && bool_decide (storageID ∈ db_storages d) && negb (bool_decide (parent = Some id)).

Definition insertLocation (storageID id : uuid) (nl : NewLocation) : Tx (uuid * Location) :=
  resolveParent treeLocations storageID None (nl_ParentID nl) ;;
  d ← get_db;
  t ← now;
  require (node_row_ok (db_locations d) d storageID id (nl_ParentID nl)) ErrOther ;;
  let row := mkLocation storageID (nl_ParentID nl) (nl_Name nl) (nl_Description nl) None t t in
  modify (set_locations (<[id := row]>)) ;;
  mret (id, row).

Definition CreateLocation (storageID : uuid) (nl : NewLocation) : Tx (uuid * Location) :=
  id ← newID;
  inTx (insertLocation storageID id nl).

Definition CreateLocationAsUser (storageID : uuid) (nl : NewLocation) (userID : uuid) : Tx (uuid * Location) :=
  id ← newID;
  inTx (
    loc ← insertLocation storageID id nl;
    recordContribution storageID userID KindLocationMapped (Some loc.1) None ;;
    mret loc).

Definition set_loc_parent (parent : option uuid) (t : Z) (l : Location) : Location :=
  mkLocation (loc_StorageID l) parent (loc_Name l) (loc_Description l) (loc_LastAuditedAt l) (loc_CreatedAt l) t.

(** UPDATE locations SET ... WHERE id = $n AND storage_id = $m; false when no row
    matched. *)
Definition update_location (f : Location -> Location) (storageID id : uuid) : Tx bool :=
  d ← get_db;
  match db_locations d !! id with
  | Some l =>
    if loc_StorageID l =? storageID then
      require (negb (bool_decide (loc_ParentID (f l) = Some id))) ErrOther ;;
      modify (set_locations (<[id := f l]>)) ;; mret true
    else mret false
  | None => mret false
  end.

Definition MoveLocation (storageID id : uuid) (parentID : option uuid) : Tx unit :=
  inTx (
    requireSameStorage treeLocations storageID id ;;
    resolveParent treeLocations storageID (Some id) parentID ;;
    t ← now;
    update_location (set_loc_parent parentID t) storageID id ;;
    mret tt).

Record LocationPatch := mkLocationPatch {
  lp_Name : option string;
  lp_Description : option string;
  lp_SetDescription : bool;
  lp_ParentID : option uuid;
  lp_SetParentID : bool;
}.

Definition patch_location (p : LocationPatch) (t : Z) (l : Location) : Location :=
  mkLocation (loc_StorageID l)
    (if lp_SetParentID p then lp_ParentID p else loc_ParentID l)
    (default (loc_Name l) (lp_Name p))
    (if lp_SetDescription p then lp_Description p else loc_Description l)
    (loc_LastAuditedAt l) (loc_CreatedAt l) t.

Definition UpdateLocation (storageID id : uuid) (patch : LocationPatch) : Tx Location :=
  inTx (
    requireSameStorage treeLocations storageID id ;;
    (if lp_SetParentID patch then resolveParent treeLocations storageID (Some id) (lp_ParentID patch) else mret tt) ;;
    t ← now;
    found ← update_location (patch_location patch t) storageID id;
    require found ErrNotFound ;;
    d ← get_db;
    some_or (db_locations d !! id) ErrNotFound).

Definition RenameLocation (storageID id : uuid) (name : string) (description : option string) : Tx unit :=
  t ← now;
  found ← update_location (fun l =>
    mkLocation (loc_StorageID l) (loc_ParentID l) name description (loc_LastAuditedAt l) (loc_CreatedAt l) t) storageID id;
  require found ErrNotFound.

(** DELETE FROM locations WHERE id = $1: the cascade on parent_id takes everything
    below, the restriction of inventory_batches.location_id refuses while any of
    it holds a batch, jobs lose their location hint. *)
Definition unhint (gone : gset uuid) (j : Job) : Job :=
  match job_LocationHintID j with
  | Some l =>
    if bool_decide (l ∈ gone) then
      mkJob (job_StorageID j) (job_Kind j) (job_Status j) (job_Payload j) (job_Error j) (job_CreatedBy j)
        (job_ImageFilename j) None (job_LeaseOwner j) (job_LeaseExpiresAt j) (job_CreatedAt j) (job_UpdatedAt j)
    else j
  | None => j
  end.

(** SELECT count of the batches at one of these locations. *)
Definition held_at (d : DB) (locations : gset uuid) : Z :=
  Z.of_nat (size (base.filter (fun kv : uuid * Batch => b_LocationID kv.2 ∈ locations) (db_batches d))).

Definition delete_location (id : uuid) : Tx unit :=
  d ← get_db;
  let gone := below (tree_nodes treeLocations d) id in
  require (held_at d gone =? 0) ErrOther ;;
  modify (set_jobs (fmap (unhint gone))) ;;
  modify (set_locations (base.filter (fun kv : uuid * Location => kv.1 ∉ gone))).

Definition DeleteLocation (storageID id : uuid) : Tx unit :=
  inTx (
    requireSameStorage treeLocations storageID id ;;
    d ← get_db;
    let sub := subtree (tree_nodes treeLocations d) id in
    require (held_at d (list_to_set sub) =? 0) ErrConflict ;;
    delete_location id ;;
    recordTombstones storageID TombstoneLocation sub).

(** ** Categories *)

Record NewCategory := mkNewCategory {
  nc_ParentID : option uuid;
  nc_Name : string;
  nc_DefaultShelfLifeDays : option Z;
}.

Definition days_col_ok (days : option Z) : bool := match days with None => true | Some n => int4_ok n end.

Definition insertCategory (storageID id : uuid) (nc : NewCategory) : Tx (uuid * Category) :=
  resolveParent treeCategories storageID None (nc_ParentID nc) ;;
  d ← get_db;
  t ← now;
  require (node_row_ok (db_categories d) d storageID id (nc_ParentID nc)
           && days_col_ok (nc_DefaultShelfLifeDays nc)) ErrOther ;;
  let row := mkCategory storageID (nc_ParentID nc) (nc_Name nc) (nc_DefaultShelfLifeDays nc) t t in
  modify (set_categories (<[id := row]>)) ;;
  mret (id, row).

Definition CreateCategory (storageID : uuid) (nc : NewCategory) : Tx (uuid * Category) :=
  id ← newID;
  inTx (insertCategory storageID id nc).

Definition CreateCategoryAsUser (storageID : uuid) (nc : NewCategory) (userID : uuid) : Tx (uuid * Category) :=
  id ← newID;
  inTx (
    cat ← insertCategory storageID id nc;
    recordContribution storageID userID KindCategoryCreated (Some cat.1) None ;;
    mret cat).

Record CategoryPatch := mkCategoryPatch {
  cpt_Name : option string;
  cpt_ParentID : option uuid;
  cpt_SetParentID : bool;
}.

Definition patch_category (p : CategoryPatch) (t : Z) (c : Category) : Category :=
  mkCategory (cat_StorageID c) (if cpt_SetParentID p then cpt_ParentID p else cat_ParentID c)
    (default (cat_Name c) (cpt_Name p)) (cat_DefaultShelfLifeDays c) (cat_CreatedAt c) t.

Definition update_category (f : Category -> Category) (storageID id : uuid) : Tx bool :=
  d ← get_db;
  match db_categories d !! id with
  | Some c =>
    if cat_StorageID c =? storageID then
      require (negb (bool_decide (cat_ParentID (f c) = Some id)) && days_col_ok (cat_DefaultShelfLifeDays (f c))) ErrOther ;;
      modify (set_categories (<[id := f c]>)) ;; mret true
    else mret false
  | None => mret false
  end.

Definition UpdateCategory (storageID id : uuid) (patch : CategoryPatch) : Tx Category :=
  inTx (
    requireSameStorage treeCategories storageID id ;;
    (if cpt_SetParentID patch then resolveParent treeCategories storageID (Some id) (cpt_ParentID patch) else mret tt) ;;
    t ← now;
    found ← update_category (patch_category patch t) storageID id;
    require found ErrNotFound ;;
    d ← get_db;
    cat ← some_or (db_categories d !! id) ErrNotFound;
    (if negb (cpt_SetParentID patch) then mret tt
     else for_each (fun p => recomputeDerivedExpiry storageID p ;; mret tt) (productsUnderCategory d storageID id)) ;;
    mret cat).

Definition MoveCategory (storageID id : uuid) (parentID : option uuid) : Tx unit :=
  UpdateCategory storageID id (mkCategoryPatch None parentID true) ;; mret tt.

(** SELECT count of the products filed under one of these categories. *)
Definition filed_under (d : DB) (cats : gset uuid) : Z :=
  Z.of_nat (size (base.filter (fun kv : uuid * Product =>
    from_option (fun c => bool_decide (c ∈ cats)) false (prod_CategoryID kv.2) = true) (db_products d))).

(** The cascade on parent_id, refused while a product is filed under any of it. *)
Definition delete_category (id : uuid) : Tx unit :=
  d ← get_db;
  let gone := below (tree_nodes treeCategories d) id in
  require (filed_under d gone =? 0) ErrOther ;;
  modify (set_categories (base.filter (fun kv : uuid * Category => kv.1 ∉ gone))).

Definition DeleteCategory (storageID id : uuid) : Tx unit :=
  inTx (
    requireSameStorage treeCategories storageID id ;;
    d ← get_db;
    let sub := subtree (tree_nodes treeCategories d) id in
    require (filed_under d (list_to_set sub) =? 0) ErrConflict ;;
    delete_category id ;;
    recordTombstones storageID TombstoneCategory sub).

Definition SetCategoryShelfLife (storageID id : uuid) (days : option Z) : Tx unit :=
  t ← now;
  found ← update_category (fun c =>
    mkCategory (cat_StorageID c) (cat_ParentID c) (cat_Name c) days (cat_CreatedAt c) t) storageID id;
  require found ErrNotFound.

(** Each product of the subtree in its own transaction; the number of dates moved. *)
Fixpoint recompute_each (storageID : uuid) (products : list uuid) : Tx Z :=
  match products with
  | [] => mret 0
  | p :: products' =>
    n ← RecomputeDerivedExpiry storageID p;
    m ← recompute_each storageID products';
    mret (n + m)
  end.

Definition RecomputeDerivedExpiryForCategory (storageID categoryID : uuid) : Tx Z :=
  d ← get_db;
  recompute_each storageID (productsUnderCategory d storageID categoryID).
