(* ===== verification/Products.v ===== *)
(** * Products: internal/store/products.go

    Creating, re-filing, patching, deleting and merging products.  Deleting a
    product takes its batches, its log rows and its barcodes with it (the
    cascades of the schema); merging re-points them instead. *)

From S2P Require Import Prelude Gamification Expiry Db Tree Progress ShelfLife Containers Batches Locations.

#[local] Open Scope string_scope.
#[local] Open Scope list_scope.
#[local] Open Scope Z_scope.

(** ** Rows *)

Record NewProduct := mkNewProduct {
  np_Name : string;
  np_CategoryID : option uuid;
  np_CatalogID : option uuid;
  np_ItemType : string;
  np_DefaultShelfLifeDays : option Z;
  np_MinStock : Z;
  np_ImageURL : option string;
  np_IconName : option string;
}.

(** The constraints of products on the columns an operation writes. *)
Definition product_row_ok (d : DB) (p : Product) : bool :=
  bool_decide (prod_StorageID p ∈ db_storages d) &&
  (match prod_CategoryID p with None => true | Some c => bool_decide (is_Some (db_categories d !! c)) end) &&
  (match prod_CatalogID p with None => true | Some c => bool_decide (is_Some (db_catalog d !! c)) end) &&
  bool_decide (prod_ItemType p ∈ [Perishable; LongShelfLife; NonPerishable]) &&
  days_col_ok (prod_DefaultShelfLifeDays p) && int4_ok (prod_MinStock p).

Definition createProduct (storageID : uuid) (np : NewProduct) : Tx (uuid * Product) :=
  id ← newID;
  (match np_CategoryID np with
   | Some c => requireSameStorage treeCategories storageID c
   | None => mret tt
   end) ;;
  d ← get_db;
  t ← now;
  let row := mkProduct storageID (np_Name np) (np_CategoryID np) (np_CatalogID np)
    (if String.eqb (np_ItemType np) "" then LongShelfLife else np_ItemType np)
    (np_DefaultShelfLifeDays np) (np_MinStock np) (np_ImageURL np) (np_IconName np) t t in
  require (bool_decide (db_products d !! id = None) && product_row_ok d row) ErrOther ;;
  modify (set_products (<[id := row]>)) ;;
  mret (id, row).

Definition CreateProduct (storageID : uuid) (np : NewProduct) : Tx (uuid * Product) :=
  inTx (createProduct storageID np).

(** UPDATE products SET ... WHERE id = $n AND storage_id = $m *)
Definition update_product (f : Product -> Product) (storageID id : uuid) : Tx bool :=
  d ← get_db;
  match product_in_storage d storageID id with
  | Some p =>
    require (product_row_ok d (f p)) ErrOther ;;
    modify (set_products (<[id := f p]>)) ;; mret true
  | None => mret false
  end.

Definition set_prod_category (c : option uuid) (t : Z) (p : Product) : Product :=
  mkProduct (prod_StorageID p) (prod_Name p) c (prod_CatalogID p) (prod_ItemType p)
    (prod_DefaultShelfLifeDays p) (prod_MinStock p) (prod_ImageURL p) (prod_IconName p) (prod_CreatedAt p) t.

Definition set_prod_image (url icon : option string) (t : Z) (p : Product) : Product :=
  mkProduct (prod_StorageID p) (prod_Name p) (prod_CategoryID p) (prod_CatalogID p) (prod_ItemType p)
    (prod_DefaultShelfLifeDays p) (prod_MinStock p) url icon (prod_CreatedAt p) t.

Definition touch_product (t : Z) (p : Product) : Product := set_prod_category (prod_CategoryID p) t p.

Definition SetProductCategory (storageID id : uuid) (categoryID : option uuid) : Tx unit :=
  inTx (
    requireProductInStorage storageID id ;;
    (match categoryID with
     | Some c => requireSameStorage treeCategories storageID c
     | None => mret tt
     end) ;;
    t ← now;
    update_product (set_prod_category categoryID t) storageID id ;;
    recomputeDerivedExpiry storageID id ;;
    mret tt).

Definition SetProductCategoryAsUser (storageID id : uuid) (categoryID : option uuid) (userID : uuid) : Tx unit :=
  inTx (
    requireProductInStorage storageID id ;;
    d ← get_db;
    previous ← some_or (product_in_storage d storageID id) ErrOther;
    (match categoryID with
     | Some c => requireSameStorage treeCategories storageID c
     | None => mret tt
     end) ;;
    t ← now;
    update_product (set_prod_category categoryID t) storageID id ;;
    recomputeDerivedExpiry storageID id ;;
    if bool_decide (prod_CategoryID previous = None) && bool_decide (is_Some categoryID)
    then recordContribution storageID userID KindMetadataFilled (Some id) (Some GeneratorUncategorized)
    else mret tt).

Definition ProductImageInStorage (storageID : uuid) (imageURL : string) : Tx bool :=
  d ← get_db;
  mret (bool_decide (base.filter (fun kv : uuid * Product =>
    prod_StorageID kv.2 = storageID /\ prod_ImageURL kv.2 = Some imageURL) (db_products d) ≠ ∅)).

Definition SetProductImageAsUser (storageID id : uuid) (imageURL iconName : option string) (userID : uuid) : Tx unit :=
  inTx (
    requireProductInStorage storageID id ;;
    d ← get_db;
    previous ← some_or (product_in_storage d storageID id) ErrOther;
    t ← now;
    update_product (set_prod_image imageURL iconName t) storageID id ;;
    let hadNone := bool_decide (prod_ImageURL previous = None) && bool_decide (prod_IconName previous = None) in
    let hasOne := bool_decide (is_Some imageURL) || bool_decide (is_Some iconName) in
    if hadNone && hasOne
    then recordContribution storageID userID KindMetadataFilled (Some id) (Some GeneratorImageless)
    else mret tt).

(** ** Deleting *)

(** ON DELETE SET NULL on shopping_list_items.matched_product_id *)
Definition unmatch (id : uuid) (i : ShoppingListItem) : ShoppingListItem :=
  if bool_decide (item_MatchedProductID i = Some id)
  then mkItem (item_ListID i) (item_RawText i) (item_Status i) None (item_ResolvedQuantity i) (item_CreatedAt i)
  else i.

(** ON DELETE SET NULL on inventory_logs.batch_id, for the batches that go. *)
Definition unlink_gone (gone : gset uuid) (l : LogRow) : LogRow :=
  match log_BatchID l with
  | Some b => if bool_decide (b ∈ gone) then unlink_batch b l else l
  | None => l
  end.

(** The batches of a product. *)
Definition batches_of (d : DB) (id : uuid) : gmap uuid Batch :=
  base.filter (fun kv : uuid * Batch => b_ProductID kv.2 = id) (db_batches d).

(** DELETE FROM products WHERE id = $1: batches, logs and barcodes cascade. *)
Definition delete_product (id : uuid) : Tx unit :=
  d ← get_db;
  let gone := dom (batches_of d id) in
  modify (set_logs (fun logs => map (unlink_gone gone) (base.filter (fun l => log_ProductID l ≠ id) logs))) ;;
  modify (set_batches (base.filter (fun kv : uuid * Batch => b_ProductID kv.2 ≠ id))) ;;
  modify (set_barcodes (base.filter (fun kv : uuid * string * ProductBarcode => pb_ProductID kv.2 ≠ id))) ;;
  modify (set_items (fmap (unmatch id))) ;;
  modify (set_products (delete id)).

Definition orphanedImage (imageURL : option string) : Tx string :=
  match imageURL with
  | None => mret ""
  | Some url =>
    if String.eqb url "" then mret ""
    else
      d ← get_db;
      mret (if bool_decide (base.filter (fun kv : uuid * Product => prod_ImageURL kv.2 = Some url) (db_products d) = ∅)
            then url else "")
  end.

Definition DeleteProduct (storageID id : uuid) : Tx string :=
  inTx (
    requireProductInStorage storageID id ;;
    d ← get_db;
    p ← some_or (product_in_storage d storageID id) ErrOther;
    delete_product id ;;
    recordTombstones storageID TombstoneProduct [id] ;;
    orphanedImage (prod_ImageURL p)).

(** ** Patching *)

Record ProductPatch := mkProductPatch {
  pp_Name : option string;
  pp_CategoryID : option uuid;
  pp_SetCategoryID : bool;
  pp_ItemType : option string;
  pp_MinStock : option Z;
  pp_DefaultShelfLifeDays : option Z;
  pp_SetDefaultShelfLifeDays : bool;
  pp_IconName : option string;
  pp_SetIconName : bool;
}.

Definition touchesExpiryRules (p : ProductPatch) : bool := pp_SetCategoryID p || pp_SetDefaultShelfLifeDays p.

Definition patch_product (patch : ProductPatch) (t : Z) (p : Product) : Product :=
  mkProduct (prod_StorageID p) (default (prod_Name p) (pp_Name patch))
    (if pp_SetCategoryID patch then pp_CategoryID patch else prod_CategoryID p)
    (prod_CatalogID p) (default (prod_ItemType p) (pp_ItemType patch))
    (if pp_SetDefaultShelfLifeDays patch then pp_DefaultShelfLifeDays patch else prod_DefaultShelfLifeDays p)
    (default (prod_MinStock p) (pp_MinStock patch)) (prod_ImageURL p)
    (if pp_SetIconName patch then pp_IconName patch else prod_IconName p) (prod_CreatedAt p) t.

Definition UpdateProduct (storageID id : uuid) (patch : ProductPatch) : Tx (Product * Z) :=
  inTx (
    requireProductInStorage storageID id ;;
    (match pp_CategoryID patch with
     | Some c => if pp_SetCategoryID patch then requireSameStorage treeCategories storageID c else mret tt
     | None => mret tt
     end) ;;
    t ← now;
    found ← update_product (patch_product patch t) storageID id;
    require found ErrNotFound ;;
    d ← get_db;
    p ← some_or (db_products d !! id) ErrNotFound;
    if negb (touchesExpiryRules patch) then mret (p, 0)
    else
      n ← recomputeDerivedExpiry storageID id;
      mret (p, n)).

Definition GetProduct (storageID id : uuid) : Tx Product :=
  d ← get_db;
  some_or (product_in_storage d storageID id) ErrNotFound.

(** ** Merging *)

Record MergeResult := mkMergeResult {
  mr_Survivor : Product;
  mr_MovedBatches : Z;
  mr_RecomputedBatches : Z;
  mr_OrphanedImage : string;
}.

Definition set_code_product (survivor source : uuid) (pb : ProductBarcode) : ProductBarcode :=
  if pb_ProductID pb =? source then mkProductBarcode survivor (pb_CreatedAt pb) else pb.

(** barcodes.go: drop the source's codes the survivor has, hand over the rest. *)
Definition repointBarcodes (storageID survivorID sourceID : uuid) : Tx unit :=
  d ← get_db;
  let mine := fun barcode => bool_decide (pb_ProductID <$> db_barcodes d !! (storageID, barcode) = Some survivorID) in
  modify (set_barcodes (base.filter (fun kv : uuid * string * ProductBarcode =>
    ~ (kv.1.1 = storageID /\ pb_ProductID kv.2 = sourceID /\ mine kv.1.2 = true)))) ;;
  modify (set_barcodes (map_imap (fun k pb =>
    Some (if k.1 =? storageID then set_code_product survivorID sourceID pb else pb)))).

Definition set_product (survivor source : uuid) (b : Batch) : Batch :=
  if b_ProductID b =? source then
    mkBatch survivor (b_LocationID b) (b_Quantity b) (b_ExpirationDate b) (b_ExpirationSource b) (b_CreatedAt b) (b_ContainerID b)
  else b.

Definition set_log_product (survivor source : uuid) (l : LogRow) : LogRow :=
  if log_ProductID l =? source then
    mkLogRow (log_ID l) survivor (log_BatchID l) (log_ChangeQty l) (log_Reason l) (log_CreatedBy l) (log_Timestamp l)
  else l.

Definition set_item_product (survivor source : uuid) (i : ShoppingListItem) : ShoppingListItem :=
  if bool_decide (item_MatchedProductID i = Some source) then
    mkItem (item_ListID i) (item_RawText i) (item_Status i) (Some survivor) (item_ResolvedQuantity i) (item_CreatedAt i)
  else i.

(** The three UPDATEs that re-point batches, logs and list items; the number of
    batches moved. *)
Definition repoint (survivorID sourceID : uuid) : Tx Z :=
  d ← get_db;
  modify (set_batches (fmap (set_product survivorID sourceID))) ;;
  modify (set_logs (map (set_log_product survivorID sourceID))) ;;
  modify (set_items (fmap (set_item_product survivorID sourceID))) ;;
  mret (Z.of_nat (size (batches_of d sourceID))).

Definition MergeProducts (storageID survivorID sourceID : uuid) : Tx MergeResult :=
  require (negb (survivorID =? sourceID)) ErrValidation ;;
  inTx (
    d ← get_db;
    let first := if sourceID <? survivorID then sourceID else survivorID in
    let second := if sourceID <? survivorID then survivorID else sourceID in
    some_or (product_in_storage d storageID first) ErrNotFound ;;
    some_or (product_in_storage d storageID second) ErrNotFound ;;
    source ← some_or (db_products d !! sourceID) ErrOther;
    let moved := loadDerivedBatches d sourceID in
    repointBarcodes storageID survivorID sourceID ;;
    movedBatches ← repoint survivorID sourceID;
    rules ← expiryRulesFor storageID survivorID;
    recomputed ← applyDerivedExpiry moved (Resolve rules);
    delete_product sourceID ;;
    recordTombstones storageID TombstoneProduct [sourceID] ;;
    orphaned ← orphanedImage (prod_ImageURL source);
    t ← now;
    found ← update_product (touch_product t) storageID survivorID;
    require found ErrNotFound ;;
    d ← get_db;
    survivor ← some_or (db_products d !! survivorID) ErrNotFound;
    mret (mkMergeResult survivor movedBatches recomputed orphaned)).
