(* ===== verification/Ingestion.v ===== *)
(** * The catalog and the confirmation of an ingestion: internal/store (catalog.go, ingestion.go)

    A reviewed photo proposal becomes products, locations and batches in one
    transaction.  New products are also described in the anonymous catalog, which
    is insert-only: the row that first held a normalized name keeps it. *)

From S2P Require Import Prelude Gamification Text Db Matching Expiry Tree Progress ShelfLife Containers Batches Stocktake Jobs Consumption Locations Products.

#[local] Open Scope string_scope.
#[local] Open Scope list_scope.
#[local] Open Scope Z_scope.

(** ** The catalog *)

Record NewCatalogProduct := mkNewCatalogProduct {
  ncp_DisplayName : string;
  ncp_CategoryPath : option string;
  ncp_ItemType : string;
  ncp_ImageURL : option string;
  ncp_IconName : option string;
  ncp_DefaultShelfLifeDays : option Z;
  ncp_ShownID : option uuid;
}.

Definition NormalizeCatalogName (name : string) : string := NormalizeQuery name.

(** SELECT ... FROM catalog_products WHERE normalized_name = $1, a UNIQUE column. *)
Definition catalog_row (d : DB) (normalized : string) : option (uuid * CatalogProduct) :=
  head (order_by_id (base.filter (fun kv : uuid * CatalogProduct => cp_NormalizedName kv.2 = normalized) (db_catalog d))).

Definition FindCatalogProduct (name : string) : Tx (uuid * CatalogProduct) :=
  d ← get_db;
  some_or (catalog_row d (NormalizeCatalogName name)) ErrNotFound.

Definition resolveVariantBase (shownID : option uuid) : Tx (option uuid) :=
  match shownID with
  | None => mret None
  | Some shown =>
    d ← get_db;
    match db_catalog d !! shown with
    | None => mret None
    | Some row =>
      match cp_BaseID row with
      | Some base => mret (Some base)
      | None => mret (Some shown)
      end
    end
  end.

(** The CHECK constraints of catalog_products. *)
Definition catalog_row_ok (c : CatalogProduct) : bool :=
  bool_decide (cp_ItemType c ∈ [Perishable; LongShelfLife; NonPerishable]) && days_col_ok (cp_DefaultShelfLifeDays c).

(** INSERT ... ON CONFLICT (normalized_name) DO NOTHING, then the row by its name. *)
Definition insertCatalogProduct (inp : NewCatalogProduct) : Tx (uuid * CatalogProduct) :=
  let normalized := NormalizeCatalogName (ncp_DisplayName inp) in
  require (negb (String.eqb normalized "")) ErrValidation ;;
  let itemType := if String.eqb (ncp_ItemType inp) "" then LongShelfLife else ncp_ItemType inp in
  id ← newID;
  baseID ← resolveVariantBase (ncp_ShownID inp);
  d ← get_db;
  t ← now;
  let row := mkCatalogProduct normalized (ncp_DisplayName inp) baseID (ncp_CategoryPath inp) itemType
    (ncp_ImageURL inp) (ncp_IconName inp) (ncp_DefaultShelfLifeDays inp) t in
  require (catalog_row_ok row) ErrOther ;;
  (match catalog_row d normalized with
   | Some _ => mret tt
   | None =>
     require (bool_decide (db_catalog d !! id = None)) ErrOther ;;
     modify (set_catalog (<[id := row]>))
   end) ;;
  d ← get_db;
  some_or (catalog_row d normalized) ErrNotFound.

Definition InsertCatalogProduct (inp : NewCatalogProduct) : Tx (uuid * CatalogProduct) :=
  inTx (insertCatalogProduct inp).

(** ** Decisions *)

Record NewIngestProduct := mkNewIngestProduct {
  nip_Name : string;
  nip_CategoryID : option uuid;
  nip_ItemType : string;
  nip_ImageURL : option string;
}.

Record NewIngestLocation := mkNewIngestLocation { nil_ParentID : option uuid; nil_Names : list string }.

Record IngestDecision := mkIngestDecision {
  id_RowID : string;
  id_Accept : bool;
  id_ProductID : option uuid;
  id_NewProduct : option NewIngestProduct;
  id_Quantity : Z;
  id_LocationID : option uuid;
  id_NewLocation : option NewIngestLocation;
  id_ExpirationEdited : bool;
  id_ExpirationDate : option Time;
  id_ContainerLabel : option string;
  id_ContainerType : option string;
}.

Record IngestResult := mkIngestResult {
  ir_BatchIDs : list uuid;
  ir_CreatedProductIDs : list uuid;
  ir_ProductsCreated : Z;
  ir_LocationsCreated : Z;
}.

(** The rows the model matched with confidence, the last of equal ids winning. *)
Definition exact_matches (rows : list ProposalRow) : gmap string uuid :=
  foldl (fun m r =>
    match pr_Product r with
    | Some p => if String.eqb (pr_Status r) "exact_match" then <[pr_RowID r := p]> m else m
    | None => m
    end) ∅ rows.

Definition proposedExactMatches (payload : Payload) : Tx (gmap string uuid) :=
  rows ← some_or (proposal_rows payload) ErrOther;
  mret (exact_matches rows).

(** The chain's depth column runs from 0 to 64. *)
Definition categoryPathOf (categoryID : uuid) : Tx string :=
  d ← get_db;
  mret (Join (reverse (omap (fun c => cat_Name <$> db_categories d !! c)
    (ancestors (S maxTreeDepth) (tree_nodes treeCategories d) categoryID))) " > ").

(** The product an accepted row files stock against, whether it is new, and the
    products this confirm has created so far by normalized name. *)
Definition resolveIngestProduct (storageID : uuid) (dec : IngestDecision) (created : gmap string uuid)
    : Tx (uuid * bool * gmap string uuid) :=
  match id_ProductID dec with
  | Some p => requireProductInStorage storageID p ;; mret (p, false, created)
  | None =>
    np ← some_or (id_NewProduct dec) ErrValidation;
    let key := NormalizeCatalogName (nip_Name np) in
    match created !! key with
    | Some p => mret (p, false, created)
    | None =>
      categoryPath ← (match nip_CategoryID np with
                      | None => mret None
                      | Some c => requireSameStorage treeCategories storageID c ;;
                                  path ← categoryPathOf c; mret (Some path)
                      end);
      catalog ← insertCatalogProduct (mkNewCatalogProduct (nip_Name np) categoryPath (nip_ItemType np) None None None None);
      product ← createProduct storageID (mkNewProduct (nip_Name np) (nip_CategoryID np) (Some catalog.1)
        (nip_ItemType np) None 0 (nip_ImageURL np) None);
      mret (product.1, true, <[key := product.1]> created)
    end
  end.

(** SELECT id ... WHERE storage_id, parent_id IS NOT DISTINCT FROM, lower(name)
    ORDER BY created_at, id LIMIT 1 *)
Definition older (a b : uuid * Location) : Prop :=
  loc_CreatedAt a.2 < loc_CreatedAt b.2 \/ (loc_CreatedAt a.2 = loc_CreatedAt b.2 /\ a.1 <= b.1).

#[export] Instance older_dec : RelDecision older.
Proof. intros a b. unfold older. apply _. Defined.

Definition named_location (d : DB) (storageID : uuid) (parent : option uuid) (name : string) : option uuid :=
  fst <$> head (merge_sort older (map_to_list (base.filter (fun kv : uuid * Location =>
    loc_StorageID kv.2 = storageID /\ loc_ParentID kv.2 = parent /\ ToLower (loc_Name kv.2) = ToLower name) (db_locations d)))).

(** The walk below [parent]; the leaf and how many nodes it created. *)
Fixpoint walk_path (storageID : uuid) (parent : option uuid) (names : list string) : Tx (option uuid * Z) :=
  match names with
  | [] => mret (parent, 0)
  | raw :: names' =>
    let name := TrimSpace raw in
    require (negb (String.eqb name "")) ErrValidation ;;
    d ← get_db;
    match named_location d storageID parent name with
    | Some existing => walk_path storageID (Some existing) names'
    | None =>
      id ← newID;
      loc ← insertLocation storageID id (mkNewLocation parent name None);
      r ← walk_path storageID (Some loc.1) names';
      mret (r.1, r.2 + 1)
    end
  end.

Definition ensureLocationPath (storageID : uuid) (inp : NewIngestLocation) : Tx (uuid * Z) :=
  require (negb (bool_decide (nil_Names inp = []))) ErrValidation ;;
  (match nil_ParentID inp with
   | Some p => requireSameStorage treeLocations storageID p
   | None => mret tt
   end) ;;
  r ← walk_path storageID (nil_ParentID inp) (nil_Names inp);
  leaf ← some_or r.1 ErrOther;
  mret (leaf, r.2).

(** ** The operation *)

(** The location an accepted row files its batch at, and the nodes created for it. *)
Definition resolveIngestLocation (storageID : uuid) (dec : IngestDecision) : Tx (uuid * Z) :=
  match id_NewLocation dec with
  | Some nl => ensureLocationPath storageID nl
  | None =>
    l ← some_or (id_LocationID dec) ErrValidation;
    mret (l, 0)
  end.

(** The batch an accepted row becomes. *)
Definition ingest_batch (productID locationID : uuid) (userID : option uuid) (dec : IngestDecision) : NewBatch :=
  mkNewBatch productID locationID (id_Quantity dec) (id_ExpirationDate dec)
    (if id_ExpirationEdited dec then ExpirationUser else ExpirationDerived) ReasonVisionIngestion userID
    (id_ContainerLabel dec) (id_ContainerType dec).

(** A correction: the model was confident of one product and the reviewer filed the
    row under another. *)
Definition reward_correction (storageID : uuid) (userID : option uuid) (proposed : option uuid) (productID : uuid) : Tx unit :=
  match userID, proposed with
  | Some u, Some p =>
    if negb (p =? productID) then recordContribution storageID u KindAICorrection (Some productID) None else mret tt
  | _, _ => mret tt
  end.

(** The loop over the decisions, with the products created so far. *)
Fixpoint apply_ingest (storageID : uuid) (userID : option uuid) (proposed : gmap string uuid)
    (created : gmap string uuid) (decisions : list IngestDecision) : Tx IngestResult :=
  match decisions with
  | [] => mret (mkIngestResult [] [] 0 0)
  | dec :: decisions' =>
    if negb (id_Accept dec) then apply_ingest storageID userID proposed created decisions'
    else
      r ← resolveIngestProduct storageID dec created;
      let '(productID, isNew, created') := (r : uuid * bool * gmap string uuid) in
      reward_correction storageID userID (proposed !! id_RowID dec) productID ;;
      l ← resolveIngestLocation storageID dec;
      batch ← createBatch storageID (ingest_batch productID l.1 userID dec);
      rest ← apply_ingest storageID userID proposed created' decisions';
      mret (mkIngestResult (bv_ID batch :: ir_BatchIDs rest)
        (if isNew then productID :: ir_CreatedProductIDs rest else ir_CreatedProductIDs rest)
        ((if isNew then 1 else 0) + ir_ProductsCreated rest)
        (l.2 + ir_LocationsCreated rest))
  end.

Definition ConfirmIngestion (storageID jobID : uuid) (userID : option uuid) (decisions : list IngestDecision) : Tx IngestResult :=
  inTx (
    j ← lock_done_job storageID jobID;
    matchRowIDs (job_Payload j) (map id_RowID decisions) ;;
    proposed ← proposedExactMatches (job_Payload j);
    result ← apply_ingest storageID userID proposed ∅ decisions;
    (match userID with
     | Some u =>
       if bool_decide (job_Kind j = JobShelfIngestion) && negb (bool_decide (ir_BatchIDs result = []))
       then unlockAchievement storageID u AchFirstShelf else mret tt
     | None => mret tt
     end) ;;
    ConsumeJob storageID jobID ;;
    mret result).
