(* ===== verification/Shopping.v ===== *)
(** * Shopping lists: internal/store/shoppinglists.go

    A submitted list is stored with all of its lines or not at all; each line is
    matched once and then resolved by a person, exactly one line at a time: a
    product it names or creates, the batch its quantity becomes, and the line
    marked resolved, in one transaction. *)

From S2P Require Import Prelude Gamification Text Db Tree Progress ShelfLife Containers Batches Jobs Consumption Locations Products Ingestion.

#[local] Open Scope string_scope.
#[local] Open Scope list_scope.
#[local] Open Scope Z_scope.

(** ** Values *)

Definition SourceText := "text".
Definition SourcePhoto := "photo".

Definition ItemExactMatch := "exact_match".
Definition ItemNewItem := "new_item".
Definition ItemAmbiguous := "ambiguous".
Definition ItemResolved := "resolved".

Record NewShoppingListItem := mkNewItem {
  nli_RawText : string;
  nli_Status : string;
  nli_MatchedProductID : option uuid;
}.

(** ** Statements *)

(** The constraints of shopping_list_items on the columns a statement writes. *)
Definition item_row_ok (d : DB) (i : ShoppingListItem) : bool :=
  bool_decide (is_Some (db_lists d !! item_ListID i)) &&
  bool_decide (item_Status i ∈ [ItemExactMatch; ItemNewItem; ItemAmbiguous; ItemResolved]) &&
  (match item_MatchedProductID i with None => true | Some p => bool_decide (is_Some (db_products d !! p)) end) &&
  (match item_ResolvedQuantity i with None => true | Some q => int4_ok q end).

(** The constraints of shopping_lists. *)
Definition list_row_ok (d : DB) (l : ShoppingList) : bool :=
  bool_decide (list_StorageID l ∈ db_storages d) && bool_decide (list_Source l ∈ [SourceText; SourcePhoto]) &&
  (match list_CreatedBy l with None => true | Some u => bool_decide (u ∈ db_users d) end).

(** A line, reached through the list that owns it. *)
Definition item_in_storage (d : DB) (storageID itemID : uuid) : option ShoppingListItem :=
  match db_items d !! itemID with
  | Some i =>
    match db_lists d !! item_ListID i with
    | Some l => if list_StorageID l =? storageID then Some i else None
    | None => None
    end
  | None => None
  end.

Definition list_in_storage (d : DB) (storageID listID : uuid) : option ShoppingList :=
  match db_lists d !! listID with
  | Some l => if list_StorageID l =? storageID then Some l else None
  | None => None
  end.

(** UPDATE shopping_list_items SET ... WHERE id = $n RETURNING ... *)
Definition update_item (f : ShoppingListItem -> ShoppingListItem) (itemID : uuid) : Tx ShoppingListItem :=
  d ← get_db;
  i ← some_or (db_items d !! itemID) ErrNotFound;
  require (item_row_ok d (f i)) ErrOther ;;
  modify (set_items (<[itemID := f i]>)) ;;
  mret (f i).

(** ** Creating a list *)

(** The same-storage check of a line's match. *)
Definition require_match (storageID : uuid) (matched : option uuid) : Tx unit :=
  match matched with
  | Some p => requireProductInStorage storageID p
  | None => mret tt
  end.

Definition insert_item (storageID listID : uuid) (inp : NewShoppingListItem) : Tx (uuid * ShoppingListItem) :=
  require_match storageID (nli_MatchedProductID inp) ;;
  itemID ← newID;
  d ← get_db;
  t ← now;
  let row := mkItem listID (nli_RawText inp) (nli_Status inp) (nli_MatchedProductID inp) None t in
  require (bool_decide (db_items d !! itemID = None) && item_row_ok d row) ErrOther ;;
  modify (set_items (<[itemID := row]>)) ;;
  mret (itemID, row).

Definition insertShoppingList (listID storageID : uuid) (source : string) (createdBy : option uuid)
    (items : list NewShoppingListItem) : Tx (ShoppingList * list (uuid * ShoppingListItem)) :=
  d ← get_db;
  t ← now;
  let row := mkList storageID source createdBy t in
  require (bool_decide (db_lists d !! listID = None) && list_row_ok d row) ErrOther ;;
  modify (set_lists (<[listID := row]>)) ;;
  created ← traverse (insert_item storageID listID) items;
  mret (row, created).

Definition CreateShoppingList (storageID : uuid) (source : string) (createdBy : option uuid)
    (items : list NewShoppingListItem) : Tx (uuid * ShoppingList * list (uuid * ShoppingListItem)) :=
  require (negb (bool_decide (items = []))) ErrValidation ;;
  listID ← newID;
  r ← inTx (insertShoppingList listID storageID source createdBy items);
  mret (listID, r.1, r.2).

(** The photo job becomes the list and is gone; the file name is for the caller to
    remove after the commit. *)
Definition CreateShoppingListFromJob (storageID jobID : uuid) (createdBy : option uuid)
    (items : list NewShoppingListItem) : Tx (uuid * ShoppingList * list (uuid * ShoppingListItem) * option string) :=
  require (negb (bool_decide (items = []))) ErrValidation ;;
  listID ← newID;
  inTx (
    d ← get_db;
    j ← some_or (job_in_storage d storageID jobID) ErrNotFound;
    require (bool_decide (job_Status j = JobDone)) ErrNotFound ;;
    r ← insertShoppingList listID storageID SourcePhoto createdBy items;
    modify (set_jobs (delete jobID)) ;;
    mret (listID, r.1, r.2, job_ImageFilename j)).

(** ** Reading *)

Definition older_item (a b : uuid * ShoppingListItem) : Prop :=
  item_CreatedAt a.2 < item_CreatedAt b.2 \/ (item_CreatedAt a.2 = item_CreatedAt b.2 /\ a.1 <= b.1).

#[export] Instance older_item_dec : RelDecision older_item.
Proof. intros a b. unfold older_item. apply _. Defined.

Definition ShoppingListWithItems (storageID listID : uuid) : Tx (ShoppingList * list (uuid * ShoppingListItem)) :=
  d ← get_db;
  l ← some_or (list_in_storage d storageID listID) ErrNotFound;
  mret (l, merge_sort older_item (map_to_list
    (base.filter (fun kv : uuid * ShoppingListItem => item_ListID kv.2 = listID) (db_items d)))).

Definition ShoppingListItemByID (storageID itemID : uuid) : Tx ShoppingListItem :=
  d ← get_db;
  some_or (item_in_storage d storageID itemID) ErrNotFound.

(** SELECT i.status ... FOR UPDATE OF i, and the refusal of a resolved line. *)
Definition lock_open_item (storageID itemID : uuid) : Tx string :=
  d ← get_db;
  i ← some_or (item_in_storage d storageID itemID) ErrNotFound;
  require (negb (String.eqb (item_Status i) ItemResolved)) ErrConflict ;;
  mret (item_Status i).

Definition rematched (rawText status : string) (matched : option uuid) (i : ShoppingListItem) : ShoppingListItem :=
  mkItem (item_ListID i) rawText status matched (item_ResolvedQuantity i) (item_CreatedAt i).

Definition RematchShoppingListItem (storageID itemID : uuid) (rawText status : string) (matched : option uuid)
    : Tx ShoppingListItem :=
  inTx (
    lock_open_item storageID itemID ;;
    require_match storageID matched ;;
    update_item (rematched rawText status matched) itemID).

(** ** Resolving a line *)

Record ResolvedProduct := mkResolvedProduct {
  rp_Name : string;
  rp_ItemType : string;
  rp_MinStock : Z;
  rp_CategoryID : option uuid;
  rp_CategoryPath : option string;
  rp_DefaultShelfLifeDays : option Z;
  rp_IconName : option string;
  rp_ImageURL : option string;
  rp_AcceptedCatalogID : option uuid;
  rp_Catalog : option NewCatalogProduct;
}.

Record ResolveLine := mkResolveLine {
  rl_ProductID : option uuid;
  rl_NewProduct : option ResolvedProduct;
  rl_Quantity : Z;
  rl_LocationID : option uuid;
}.

Record ResolveResult := mkResolveResult {
  rr_Item : ShoppingListItem;
  rr_ProductCreated : bool;
  rr_BatchID : option uuid;
}.

(** The product half of validate: nil, or the first refusal. *)
Definition validate_product (p : ResolvedProduct) : option Err :=
  if String.eqb (TrimSpace (rp_Name p)) "" then Some ErrValidation
  else if negb (is_nil (rp_CategoryID p)) && negb (is_nil (rp_CategoryPath p)) then Some ErrValidation
  else if Bool.eqb (is_nil (rp_AcceptedCatalogID p)) (is_nil (rp_Catalog p)) then Some ErrValidation
  else if rp_MinStock p <? 0 then Some ErrValidation
  else None.

Definition validate (inp : ResolveLine) : option Err :=
  if negb (is_nil (rl_ProductID inp)) && negb (is_nil (rl_NewProduct inp)) then Some ErrValidation
  else if rl_Quantity inp <? 0 then Some ErrValidation
  else if (0 <? rl_Quantity inp) && is_nil (rl_ProductID inp) && is_nil (rl_NewProduct inp) then Some ErrValidation
  else if (0 <? rl_Quantity inp) && is_nil (rl_LocationID inp) then Some ErrValidation
  else match rl_NewProduct inp with
       | Some p => validate_product p
       | None => None
       end.

(** strings.Split(path, ">"), each part trimmed, blank parts skipped. *)
Definition path_names (path : string) : list string :=
  map text (base.filter (fun l => l ≠ []) (map trim (split_from ">"%char [] (bytes path)))).

(** SELECT id ... WHERE storage_id, parent_id IS NOT DISTINCT FROM, lower(name)
    ORDER BY created_at, id LIMIT 1 *)
Definition older_category (a b : uuid * Category) : Prop :=
  cat_CreatedAt a.2 < cat_CreatedAt b.2 \/ (cat_CreatedAt a.2 = cat_CreatedAt b.2 /\ a.1 <= b.1).

#[export] Instance older_category_dec : RelDecision older_category.
Proof. intros a b. unfold older_category. apply _. Defined.

Definition is_named (storageID : uuid) (parent : option uuid) (name : string) (kv : uuid * Category) : Prop :=
  cat_StorageID kv.2 = storageID /\ cat_ParentID kv.2 = parent /\ ToLower (cat_Name kv.2) = ToLower name.

#[export] Instance is_named_dec st parent name kv : Decision (is_named st parent name kv).
Proof. unfold is_named. apply _. Defined.

Definition named_category (d : DB) (storageID : uuid) (parent : option uuid) (name : string) : option uuid :=
  fst <$> head (merge_sort older_category (map_to_list (base.filter (is_named storageID parent name) (db_categories d)))).

(** INSERT INTO categories (id, storage_id, parent_id, name): the other columns take
    their defaults, parent_id must be a category. *)
Definition insert_category_node (storageID id : uuid) (parent : option uuid) (name : string) : Tx unit :=
  d ← get_db;
  t ← now;
  require (node_row_ok (db_categories d) d storageID id parent
           && (match parent with None => true | Some p => bool_decide (is_Some (db_categories d !! p)) end)) ErrOther ;;
  modify (set_categories (<[id := mkCategory storageID parent name None t t]>)).

Fixpoint ensure_nodes (storageID : uuid) (parent : option uuid) (names : list string) : Tx (option uuid) :=
  match names with
  | [] => mret parent
  | name :: names' =>
    d ← get_db;
    match named_category d storageID parent name with
    | Some existing => ensure_nodes storageID (Some existing) names'
    | None =>
      id ← newID;
      insert_category_node storageID id parent name ;;
      ensure_nodes storageID (Some id) names'
    end
  end.

Definition ensureCategoryPath (storageID : uuid) (path : string) : Tx (option uuid) :=
  ensure_nodes storageID None (path_names path).

(** The catalog row the new product links to: the accepted one, or the one the
    description inserts or finds. *)
Definition resolve_catalog (inp : ResolvedProduct) (categoryID : option uuid) : Tx uuid :=
  match rp_AcceptedCatalogID inp with
  | Some accepted =>
    d ← get_db;
    require (bool_decide (is_Some (db_catalog d !! accepted))) ErrNotFound ;;
    mret accepted
  | None =>
    entry ← some_or (rp_Catalog inp) ErrOther;
    path ← (match categoryID, ncp_CategoryPath entry with
            | Some c, None => p ← categoryPathOf c; mret (Some p)
            | _, given => mret given
            end);
    row ← insertCatalogProduct (mkNewCatalogProduct (ncp_DisplayName entry) path (ncp_ItemType entry)
      (ncp_ImageURL entry) (ncp_IconName entry) (ncp_DefaultShelfLifeDays entry) (ncp_ShownID entry));
    mret row.1
  end.

Definition resolved_product (inp : ResolvedProduct) (categoryID : option uuid) (catalogID : uuid) : NewProduct :=
  mkNewProduct (TrimSpace (rp_Name inp)) categoryID (Some catalogID) (rp_ItemType inp) (rp_DefaultShelfLifeDays inp)
    (rp_MinStock inp) (rp_ImageURL inp) (rp_IconName inp).

Definition createResolvedProduct (storageID : uuid) (inp : ResolvedProduct) : Tx uuid :=
  categoryID ← (match rp_CategoryPath inp with
                | Some path => ensureCategoryPath storageID path
                | None => mret (rp_CategoryID inp)
                end);
  catalogID ← resolve_catalog inp categoryID;
  product ← createProduct storageID (resolved_product inp categoryID catalogID);
  mret product.1.

(** The product the line is resolved to, and whether it is new. *)
Definition resolve_product (storageID : uuid) (inp : ResolveLine) : Tx (option uuid * bool) :=
  match rl_ProductID inp with
  | Some p => requireProductInStorage storageID p ;; mret (Some p, false)
  | None =>
    match rl_NewProduct inp with
    | Some np => p ← createResolvedProduct storageID np; mret (Some p, true)
    | None => mret (None, false)
    end
  end.

(** The batch a positive quantity becomes; [validate] saw to it that the product
    and the location are there to be dereferenced. *)
Definition resolve_batch (storageID : uuid) (inp : ResolveLine) (productID userID : option uuid) : Tx (option uuid) :=
  if 0 <? rl_Quantity inp then
    p ← some_or productID ErrOther;
    l ← some_or (rl_LocationID inp) ErrOther;
    batch ← createBatch storageID (mkNewBatch p l (rl_Quantity inp) None "" ReasonPurchase userID None None);
    mret (Some (bv_ID batch))
  else mret None.

Definition resolved (productID : option uuid) (quantity : Z) (i : ShoppingListItem) : ShoppingListItem :=
  mkItem (item_ListID i) (item_RawText i) ItemResolved productID (Some quantity) (item_CreatedAt i).

(** Clearing an ambiguous line is a contribution. *)
Definition reward_resolution (storageID : uuid) (userID : option uuid) (previous : string) (ref : uuid) : Tx unit :=
  match userID with
  | Some u =>
    if String.eqb previous ItemAmbiguous then recordContribution storageID u KindAmbiguityResolved (Some ref) None
    else mret tt
  | None => mret tt
  end.

Definition ResolveShoppingListItem (storageID itemID : uuid) (inp : ResolveLine) (userID : option uuid)
    : Tx ResolveResult :=
  match validate inp with
  | Some e => throw e
  | None =>
    inTx (
      current ← lock_open_item storageID itemID;
      r ← resolve_product storageID inp;
      batchID ← resolve_batch storageID inp r.1 userID;
      item ← update_item (resolved r.1 (rl_Quantity inp)) itemID;
      reward_resolution storageID userID current (default itemID r.1) ;;
      mret (mkResolveResult item r.2 batchID))
  end.
