(* ===== verification/EditSteps.v ===== *)
(** * Edits of the trees and of products keep the stock invariant

    Locations, categories and products change around the batches; these lemmas
    say that no such edit leaves a batch without its product or its shelf, or a
    product's shelves out of step with its ledger. *)

From S2P Require Import Prelude Gamification Expiry Db Sample Tree Progress ShelfLife Containers Batches Ledger StockSteps Locations Products.

#[local] Open Scope string_scope.
#[local] Open Scope list_scope.
#[local] Open Scope Z_scope.

(** ** Edits around the batches *)

(** Every product is still there in its storage, and so is every location that
    holds a batch; batches, logs and containers are untouched. *)
Definition keeps_shelves (d d' : DB) : Prop :=
  db_batches d' = db_batches d /\ db_logs d' = db_logs d /\ db_containers d' = db_containers d /\
  (forall id p, db_products d !! id = Some p ->
     exists p', db_products d' !! id = Some p' /\ prod_StorageID p' = prod_StorageID p) /\
  (forall id b l, db_batches d !! id = Some b -> db_locations d !! b_LocationID b = Some l ->
     exists l', db_locations d' !! b_LocationID b = Some l' /\ loc_StorageID l' = loc_StorageID l).

Lemma good_step_shelves d d' : keeps_shelves d d' -> good_step d d'.
Proof.
  intros (Eb & El & Ec & Hp & Hl) [Wb Wl]. split; [split|].
  - intros id b Hb. rewrite Eb in Hb. destruct (Wb id b Hb) as (p & l & Hbp & Hbl & Hs & Hq & Hx & Hc).
    destruct (Hp _ _ Hbp) as (p' & Hp' & Hps). destruct (Hl _ _ _ Hb Hbl) as (l' & Hl' & Hls).
    exists p', l'. split; [done|]. split; [done|]. split; [congruence|]. split; [done|]. split; [done|].
    intros c E. rewrite Ec, Hps. by apply Hc.
  - intros l Hlog. rewrite El in Hlog. destruct (Wl l Hlog) as [[p Hbp] Hbt]. split.
    + destruct (Hp _ _ Hbp) as (p' & Hp' & _). by exists p'.
    + rewrite Eb. done.
  - intros p. unfold gap, stock, ledger. by rewrite Eb, El.
Qed.

Lemma recordTombstones_frame st kind ids w u w' :
  recordTombstones st kind ids w = (Ok u, w') ->
  exists ts, wdb w' = set_tombstones (fun l => l ++ ts) (wdb w) /\
    map ts_EntityID ts = ids /\ Forall (fun t => ts_StorageID t = st /\ ts_EntityType t = kind /\ ts_DeletedAt t = wnow w) ts /\
    wnow w' = wnow w.
Proof.
  unfold recordTombstones. revert w. induction ids as [|i ids IH]; intros w H; cbn [for_each] in H.
  { tx_inv. exists []. split; [|split; [done|split; [constructor | done]]].
    unfold set_tombstones. rewrite app_nil_r. by destruct (wdb w'). }
  apply bind_ok in H as ([] & w1 & H1 & H). tx_next H1 for tid by newID_ok as (tids & _ & ->).
  tx_next H1 for d by get_db_ok as [-> ->]. tx_next H1 for t by now_ok as [-> ->].
  tx_next H1 by require_ok as [_ ->]. apply modify_ok in H1 as ->. cbn in H.
  apply IH in H as (ts & E & Ei & Hf & En). cbn in *.
  exists (mkTombstone tid st kind i (wnow w) :: ts). rewrite E. unfold set_tombstones. cbn. split; [|split; [|split]].
  - by rewrite <- app_assoc.
  - by rewrite Ei.
  - by constructor.
  - done.
Qed.

Lemma recordTombstones_good st kind ids w u w' :
  recordTombstones st kind ids w = (Ok u, w') -> good_step (wdb w) (wdb w').
Proof. intros H. apply recordTombstones_frame in H as (ts & -> & _). by apply good_step_inventory. Qed.

(** ** Locations *)

Lemma insertLocation_ok st id nl w r w' :
  insertLocation st id nl w = (Ok r, w') ->
  db_locations (wdb w) !! id = None /\
  (forall p, nl_ParentID nl = Some p -> exists n, tree_nodes treeLocations (wdb w) !! p = Some n /\ n_storage n = st) /\
  r = (id, mkLocation st (nl_ParentID nl) (nl_Name nl) (nl_Description nl) None (wnow w) (wnow w)) /\
  w' = with_db (set_locations <[id := r.2]> (wdb w)) w.
Proof.
  unfold insertLocation. intros H. tx_next H by resolveParent_ok as (-> & Hp).
  tx_next H for d by get_db_ok as [-> ->]. tx_next H for t by now_ok as [-> ->].
  tx_next H by require_ok as [Hr ->]. tx_next H by modify_ok as ->. tx_inv1 H. subst.
  unfold node_row_ok in Hr. bool_to_prop. split; [done|]. split; [|done]. intros p E. by destruct (Hp p E).
Qed.

Lemma insertLocation_good st id nl w r w' :
  insertLocation st id nl w = (Ok r, w') -> good_step (wdb w) (wdb w').
Proof.
  intros H. apply insertLocation_ok in H as (Hn & _ & _ & ->). apply good_step_shelves.
  split_and!; [done | done | done | eauto |]. intros i b l _ Hl. exists l. cbn.
  rewrite lookup_insert_ne by (intros ->; congruence). done.
Qed.

(** Allocating an id changes no table. *)
Lemma good_step_newID w i w' : newID w = (Ok i, w') -> good_step (wdb w) (wdb w').
Proof. intros H. apply newID_ok in H as (ids & _ & ->). done. Qed.

Lemma CreateLocation_good st nl w r w' :
  CreateLocation st nl w = (Ok r, w') -> good_step (wdb w) (wdb w').
Proof.
  unfold CreateLocation. intros H. tx_next H for id by newID_ok as (ids & _ & ->). tx_inv1 H.
  by apply insertLocation_good in H.
Qed.

Lemma CreateLocationAsUser_good st nl u w r w' :
  CreateLocationAsUser st nl u w = (Ok r, w') -> good_step (wdb w) (wdb w').
Proof.
  unfold CreateLocationAsUser. intros H. tx_next H for id by newID_ok as (ids & _ & ->). tx_inv1 H.
  apply bind_ok in H as (loc & w1 & H1 & H). apply bind_ok in H as (? & w2 & H2 & H). tx_inv1 H. subst.
  apply insertLocation_good in H1. apply good_step_run in H2; [|auto with scoring]. by etransitivity.
Qed.

Lemma update_location_ok f st id w r w' :
  update_location f st id w = (Ok r, w') ->
  (r = false /\ w' = w) \/
  exists l, r = true /\ db_locations (wdb w) !! id = Some l /\ loc_StorageID l = st /\
    w' = with_db (set_locations <[id := f l]> (wdb w)) w.
Proof.
  unfold update_location. intros H. tx_next H for d by get_db_ok as [-> ->].
  destruct (db_locations (wdb w) !! id) as [l|] eqn:Hl; [|tx_inv; by left].
  destruct (Z.eqb_spec (loc_StorageID l) st); [|tx_inv; by left]. tx_inv. right. by exists l.
Qed.

Lemma update_location_good f st id w r w' :
  (forall l, loc_StorageID (f l) = loc_StorageID l) ->
  update_location f st id w = (Ok r, w') -> good_step (wdb w) (wdb w').
Proof.
  intros Hf H. apply update_location_ok in H as [[_ ->]|(l & _ & Hl & _ & ->)]; [done|].
  apply good_step_shelves. split_and!; [done | done | done | eauto |]. intros i b l' _ Hl'. cbn.
  destruct (decide (id = b_LocationID b)) as [E|Hne]; [|rewrite lookup_insert_ne by done; eauto].
  rewrite E, lookup_insert_eq. eexists. split; [reflexivity|]. rewrite Hf. congruence.
Qed.

Lemma MoveLocation_good st id p w u w' : MoveLocation st id p w = (Ok u, w') -> good_step (wdb w) (wdb w').
Proof.
  unfold MoveLocation. intros H. tx_inv1 H. tx_next H by requireSameStorage_ok as (-> & _).
  tx_next H by resolveParent_ok as (-> & _). tx_next H by now_ok as [-> ->].
  apply bind_ok in H as (? & w1 & H1 & H). tx_inv1 H. subst. eapply update_location_good; [|exact H1]. done.
Qed.

Lemma UpdateLocation_good st id p w r w' : UpdateLocation st id p w = (Ok r, w') -> good_step (wdb w) (wdb w').
Proof.
  unfold UpdateLocation. intros H. tx_inv1 H. tx_next H by requireSameStorage_ok as (-> & _).
  apply bind_ok in H as (? & w0 & H0 & H).
  assert (w0 = w) as -> by (destruct (lp_SetParentID p); [by apply resolveParent_ok in H0 as [-> _] | by tx_inv]).
  tx_next H by now_ok as [-> ->]. apply bind_ok in H as (found & w1 & H1 & H).
  tx_next H by require_ok as [_ ->]. tx_next H by get_db_ok as [-> ->]. tx_inv1 H. subst.
  eapply update_location_good; [|exact H1]. done.
Qed.

Lemma RenameLocation_good st id n de w u w' : RenameLocation st id n de w = (Ok u, w') -> good_step (wdb w) (wdb w').
Proof.
  unfold RenameLocation. intros H. tx_next H by now_ok as [-> ->]. apply bind_ok in H as (found & w1 & H1 & H).
  tx_inv1 H. subst. eapply update_location_good; [|exact H1]. done.
Qed.

(** ** Deleting a location *)

Lemma held_at_zero d ids :
  held_at d ids = 0 <-> forall id b, db_batches d !! id = Some b -> b_LocationID b ∉ ids.
Proof.
  unfold held_at. split.
  - intros H id b Hb Hin. assert (E : size (base.filter (fun kv : uuid * Batch => b_LocationID kv.2 ∈ ids) (db_batches d)) = 0%nat) by lia.
    apply map_size_empty_inv in E. apply (map_empty_filter_1 _ _ E id b Hb). exact Hin.
  - intros H. replace (base.filter _ (db_batches d)) with (∅ : gmap uuid Batch); [by rewrite map_size_empty|].
    symmetry. apply map_empty_filter. intros id b Hb. apply (H id b Hb).
Qed.

Lemma delete_location_ok id w u w' :
  delete_location id w = (Ok u, w') ->
  let gone := below (tree_nodes treeLocations (wdb w)) id in
  (forall i b, db_batches (wdb w) !! i = Some b -> b_LocationID b ∉ gone) /\
  w' = with_db (set_locations (base.filter (fun kv : uuid * Location => kv.1 ∉ gone))
                 (set_jobs (fmap (unhint gone)) (wdb w))) w.
Proof.
  unfold delete_location. intros H. tx_inv. bool_to_prop. split; [by apply held_at_zero | done].
Qed.

Lemma delete_location_good id w u w' : delete_location id w = (Ok u, w') -> good_step (wdb w) (wdb w').
Proof.
  intros H. apply delete_location_ok in H as (Hh & ->). apply good_step_shelves.
  split_and!; [done | done | done | eauto |]. intros i b l Hb Hl. exists l. split; [|done].
  apply map_lookup_filter_Some. split; [done|]. by apply (Hh i b).
Qed.

Lemma DeleteLocation_ok st id w u w' :
  DeleteLocation st id w = (Ok u, w') ->
  let sub := subtree (tree_nodes treeLocations (wdb w)) id in
  (exists n, tree_nodes treeLocations (wdb w) !! id = Some n /\ n_storage n = st) /\
  held_at (wdb w) (list_to_set sub) = 0 /\
  exists w1, delete_location id w = (Ok tt, w1) /\ recordTombstones st TombstoneLocation sub w1 = (Ok tt, w').
Proof.
  unfold DeleteLocation. intros H. tx_inv1 H. tx_next H by requireSameStorage_ok as (-> & Hn).
  tx_next H for d by get_db_ok as [-> ->]. tx_next H by require_ok as [Hh ->]. bool_to_prop.
  apply bind_ok in H as ([] & w1 & H1 & H). destruct u. split; [done|]. split; [done|]. by exists w1.
Qed.

Lemma DeleteLocation_good st id w u w' : DeleteLocation st id w = (Ok u, w') -> good_step (wdb w) (wdb w').
Proof.
  intros H. apply DeleteLocation_ok in H as (_ & _ & w1 & H1 & H2).
  etransitivity; [by eapply delete_location_good | by eapply recordTombstones_good].
Qed.

(** ** Categories *)

Lemma update_category_good f st id w r w' :
  update_category f st id w = (Ok r, w') -> good_step (wdb w) (wdb w').
Proof.
  unfold update_category. intros H. tx_next H by get_db_ok as [-> ->].
  destruct (db_categories (wdb w) !! id); [|by tx_inv]. case_match; tx_inv; [|done]. by apply good_step_inventory.
Qed.

Lemma insertCategory_good st id nc w r w' :
  insertCategory st id nc w = (Ok r, w') -> good_step (wdb w) (wdb w').
Proof.
  unfold insertCategory. intros H. tx_next H by resolveParent_ok as (-> & _). tx_inv. by apply good_step_inventory.
Qed.

Lemma CreateCategory_good st nc w r w' : CreateCategory st nc w = (Ok r, w') -> good_step (wdb w) (wdb w').
Proof.
  unfold CreateCategory. intros H. tx_next H for id by newID_ok as (ids & _ & ->). tx_inv1 H.
  by apply insertCategory_good in H.
Qed.

Lemma CreateCategoryAsUser_good st nc u w r w' :
  CreateCategoryAsUser st nc u w = (Ok r, w') -> good_step (wdb w) (wdb w').
Proof.
  unfold CreateCategoryAsUser. intros H. tx_next H for id by newID_ok as (ids & _ & ->). tx_inv1 H.
  apply bind_ok in H as (c & w1 & H1 & H). apply bind_ok in H as (? & w2 & H2 & H). tx_inv1 H. subst.
  apply insertCategory_good in H1. apply good_step_run in H2; [|auto with scoring]. by etransitivity.
Qed.

(** Recomputing a list of products, in one transaction. *)
Lemma recompute_list_good st l w u w' :
  for_each (fun p => recomputeDerivedExpiry st p ;; mret tt) l w = (Ok u, w') -> good_step (wdb w) (wdb w').
Proof.
  revert w. induction l as [|p l IH]; intros w H; cbn [for_each] in H; [by tx_inv|].
  apply bind_ok in H as (? & w1 & H1 & H). apply bind_ok in H1 as (n & w2 & H1 & H2). tx_inv1 H2. subst.
  apply recomputeDerivedExpiry_step in H1 as [G _]. etransitivity; [exact G | by apply IH].
Qed.

Lemma UpdateCategory_good st id p w r w' : UpdateCategory st id p w = (Ok r, w') -> good_step (wdb w) (wdb w').
Proof.
  unfold UpdateCategory. intros H. tx_inv1 H. tx_next H by requireSameStorage_ok as (-> & _).
  apply bind_ok in H as (? & w0 & H0 & H).
  assert (w0 = w) as -> by (destruct (cpt_SetParentID p); [by apply resolveParent_ok in H0 as [-> _] | by tx_inv]).
  tx_next H by now_ok as [-> ->]. apply bind_ok in H as (found & w1 & H1 & H). apply update_category_good in H1.
  tx_next H by require_ok as [_ ->]. tx_next H by get_db_ok as [-> ->]. tx_next H by some_or_ok as [_ ->].
  apply bind_ok in H as (? & w2 & H2 & H). tx_inv1 H. subst. etransitivity; [exact H1|].
  destruct (negb (cpt_SetParentID p)); [by tx_inv | by eapply recompute_list_good].
Qed.

Lemma MoveCategory_good st id p w u w' : MoveCategory st id p w = (Ok u, w') -> good_step (wdb w) (wdb w').
Proof. unfold MoveCategory. intros H. apply bind_ok in H as (? & w1 & H1 & H). tx_inv. by eapply UpdateCategory_good. Qed.

Lemma DeleteCategory_good st id w u w' : DeleteCategory st id w = (Ok u, w') -> good_step (wdb w) (wdb w').
Proof.
  unfold DeleteCategory. intros H. tx_inv1 H. tx_next H by requireSameStorage_ok as (-> & _).
  tx_next H by get_db_ok as [-> ->]. tx_next H by require_ok as [_ ->]. apply bind_ok in H as (? & w1 & H1 & H).
  apply recordTombstones_good in H. etransitivity; [|exact H].
  unfold delete_category in H1. tx_inv. by apply good_step_inventory.
Qed.

Lemma SetCategoryShelfLife_good st id n w u w' :
  SetCategoryShelfLife st id n w = (Ok u, w') -> good_step (wdb w) (wdb w').
Proof.
  unfold SetCategoryShelfLife. intros H. tx_next H by now_ok as [-> ->]. apply bind_ok in H as (found & w1 & H1 & H).
  tx_inv1 H. subst. by eapply update_category_good.
Qed.

Lemma RecomputeDerivedExpiry_good st p w n w' :
  RecomputeDerivedExpiry st p w = (Ok n, w') -> good_step (wdb w) (wdb w').
Proof. unfold RecomputeDerivedExpiry. intros H. tx_inv1 H. by apply recomputeDerivedExpiry_step in H as []. Qed.

Lemma recompute_each_good st l w n w' :
  recompute_each st l w = (Ok n, w') -> good_step (wdb w) (wdb w').
Proof.
  revert w n. induction l as [|p l IH]; intros w n H; cbn [recompute_each] in H; [by tx_inv|].
  apply bind_ok in H as (k & w1 & H1 & H). apply bind_ok in H as (m & w2 & H2 & H). tx_inv1 H. subst.
  apply RecomputeDerivedExpiry_good in H1. etransitivity; [exact H1 | by eapply IH].
Qed.

Lemma RecomputeDerivedExpiryForCategory_good st c w n w' :
  RecomputeDerivedExpiryForCategory st c w = (Ok n, w') -> good_step (wdb w) (wdb w').
Proof.
  unfold RecomputeDerivedExpiryForCategory. intros H. tx_next H by get_db_ok as [-> ->].
  by apply recompute_each_good in H.
Qed.

(** ** Products *)

Lemma createProduct_ok st np w r w' :
  createProduct st np w = (Ok r, w') ->
  exists ids, wids w = r.1 :: ids /\ db_products (wdb w) !! r.1 = None /\ prod_StorageID r.2 = st /\
    product_row_ok (wdb w) r.2 = true /\
    w' = mkWorld (set_products <[r.1 := r.2]> (wdb w)) ids (wnow w) (wclock w).
Proof.
  unfold createProduct. intros H. tx_next H for id by newID_ok as (ids & Hi & ->).
  apply bind_ok in H as (? & w1 & H1 & H).
  assert (w1 = mkWorld (wdb w) ids (wnow w) (wclock w)) as ->
    by (destruct (np_CategoryID np); [by apply requireSameStorage_ok in H1 as [-> _] | by tx_inv]).
  tx_next H for d by get_db_ok as [-> ->]. tx_next H for t by now_ok as [-> ->].
  tx_next H by require_ok as [Hr ->]. tx_next H by modify_ok as ->. tx_inv1 H. subst. cbn [fst snd].
  apply andb_true_iff in Hr as [Hn Hr]. bool_to_prop. exists ids. by split_and!.
Qed.

Lemma good_step_new_product d id p :
  db_products d !! id = None -> good_step d (set_products <[id := p]> d).
Proof.
  intros Hn. apply good_step_shelves. split_and!; [done | done | done | | eauto].
  intros i q Hq. exists q. cbn. by rewrite lookup_insert_ne by (intros ->; congruence).
Qed.

Lemma createProduct_good st np w r w' : createProduct st np w = (Ok r, w') -> good_step (wdb w) (wdb w').
Proof. intros H. apply createProduct_ok in H as (ids & _ & Hn & _ & _ & ->). by apply good_step_new_product. Qed.

Lemma CreateProduct_good st np w r w' : CreateProduct st np w = (Ok r, w') -> good_step (wdb w) (wdb w').
Proof. unfold CreateProduct. intros H. tx_inv1 H. by apply createProduct_good in H. Qed.

Lemma update_product_ok f st id w r w' :
  update_product f st id w = (Ok r, w') ->
  (r = false /\ w' = w /\ product_in_storage (wdb w) st id = None) \/
  exists p, r = true /\ product_in_storage (wdb w) st id = Some p /\ product_row_ok (wdb w) (f p) = true /\
    w' = with_db (set_products <[id := f p]> (wdb w)) w.
Proof.
  unfold update_product. intros H. tx_next H for d by get_db_ok as [-> ->].
  destruct (product_in_storage (wdb w) st id) as [p|]; [|tx_inv; by left].
  tx_next H by require_ok as [Hr ->]. tx_next H by modify_ok as ->. tx_inv1 H. subst. right. by exists p.
Qed.

Lemma good_step_edit_product d id p p' :
  db_products d !! id = Some p -> prod_StorageID p' = prod_StorageID p ->
  good_step d (set_products <[id := p']> d).
Proof.
  intros Hp Hs. apply good_step_shelves. split_and!; [done | done | done | | eauto].
  intros i q Hq. cbn. rewrite lookup_insert. case_decide; [|by eauto]. subst. exists p'. split; [done | congruence].
Qed.

Lemma update_product_good f st id w r w' :
  (forall p, prod_StorageID (f p) = prod_StorageID p) ->
  update_product f st id w = (Ok r, w') -> good_step (wdb w) (wdb w').
Proof.
  intros Hf H. apply update_product_ok in H as [(_ & -> & _)|(p & _ & Hp & _ & ->)]; [done|].
  apply product_in_storage_some in Hp as [Hp _]. by eapply good_step_edit_product.
Qed.

Lemma category_guard_ok st (c : option uuid) w u w' :
  (match c with Some c => requireSameStorage treeCategories st c | None => mret tt end) w = (Ok u, w') -> w' = w.
Proof. destruct c; intros H; [by apply requireSameStorage_ok in H as [-> _] | by tx_inv]. Qed.

Lemma SetProductCategory_good st id c w u w' :
  SetProductCategory st id c w = (Ok u, w') -> good_step (wdb w) (wdb w').
Proof.
  unfold SetProductCategory. intros H. tx_inv1 H. tx_next H by requireProductInStorage_ok as (-> & _).
  tx_next H by category_guard_ok as ->. tx_next H by now_ok as [-> ->].
  apply bind_ok in H as (found & w1 & H1 & H). apply bind_ok in H as (n & w2 & H2 & H). tx_inv1 H. subst.
  apply recomputeDerivedExpiry_step in H2 as [G _]. apply update_product_good in H1; [|done]. by etransitivity.
Qed.

Lemma SetProductCategoryAsUser_good st id c u w r w' :
  SetProductCategoryAsUser st id c u w = (Ok r, w') -> good_step (wdb w) (wdb w').
Proof.
  unfold SetProductCategoryAsUser. intros H. tx_inv1 H. tx_next H by requireProductInStorage_ok as (-> & _).
  tx_next H by get_db_ok as [-> ->]. tx_next H by some_or_ok as [_ ->].
  tx_next H by category_guard_ok as ->. tx_next H by now_ok as [-> ->].
  apply bind_ok in H as (found & w1 & H1 & H). apply bind_ok in H as (n & w2 & H2 & H).
  apply recomputeDerivedExpiry_step in H2 as [G _]. apply update_product_good in H1; [|done].
  etransitivity; [exact H1|]. etransitivity; [exact G|]. case_match; [|by tx_inv].
  eapply good_step_run; [|exact H]. auto with scoring.
Qed.

Lemma SetProductImageAsUser_good st id url icon u w r w' :
  SetProductImageAsUser st id url icon u w = (Ok r, w') -> good_step (wdb w) (wdb w').
Proof.
  unfold SetProductImageAsUser. intros H. tx_inv1 H. tx_next H by requireProductInStorage_ok as (-> & _).
  tx_next H by get_db_ok as [-> ->]. tx_next H by some_or_ok as [_ ->]. tx_next H by now_ok as [-> ->].
  apply bind_ok in H as (found & w1 & H1 & H). apply update_product_good in H1; [|done].
  etransitivity; [exact H1|]. cbv zeta in H. case_match; [|by tx_inv].
  eapply good_step_run; [|exact H]. auto with scoring.
Qed.

Lemma UpdateProduct_good st id patch w r w' :
  UpdateProduct st id patch w = (Ok r, w') -> good_step (wdb w) (wdb w').
Proof.
  unfold UpdateProduct. intros H. tx_inv1 H. tx_next H by requireProductInStorage_ok as (-> & _).
  apply bind_ok in H as (? & w0 & H0 & H).
  assert (w0 = w) as -> by (destruct (pp_CategoryID patch); [destruct (pp_SetCategoryID patch);
    [by apply requireSameStorage_ok in H0 as [-> _] | by tx_inv] | by tx_inv]).
  tx_next H by now_ok as [-> ->]. apply bind_ok in H as (found & w1 & H1 & H).
  apply update_product_good in H1; [|done]. etransitivity; [exact H1|].
  tx_next H by require_ok as [_ ->]. tx_next H by get_db_ok as [-> ->]. tx_next H by some_or_ok as [_ ->].
  destruct (negb (touchesExpiryRules patch)); [by tx_inv|]. apply bind_ok in H as (n & w2 & H2 & H). tx_inv1 H. subst.
  by apply recomputeDerivedExpiry_step in H2 as [G _].
Qed.
