(* ===== verification/IngestionSpec.v ===== *)
(** * What a confirmed ingestion leaves behind *)

From S2P Require Import Prelude Gamification Text Db Sample Matching Expiry Tree Progress ShelfLife Containers Batches Ledger StockSteps BatchSpec Stocktake Jobs Consumption Locations Products Ingestion EditSteps.

#[local] Open Scope string_scope.
#[local] Open Scope list_scope.
#[local] Open Scope Z_scope.

(** ** Rows that are only added *)

(** Every product, location and catalog row is still there, unchanged; no job moved. *)
Definition extends (d d' : DB) : Prop :=
  db_products d ⊆ db_products d' /\ db_locations d ⊆ db_locations d' /\ db_catalog d ⊆ db_catalog d' /\
  db_jobs d' = db_jobs d.

#[export] Instance extends_refl : Reflexive extends.
Proof. intros d. by split_and!. Qed.

#[export] Instance extends_trans : Transitive extends.
Proof. intros d1 d2 d3 (A1 & B1 & C1 & E1) (A2 & B2 & C2 & E2). split_and!; [by etransitivity.. | congruence]. Qed.

(** The tables [extends] speaks of. *)
Definition entities (d : DB) := (db_products d, db_locations d, db_catalog d, db_jobs d).

Lemma extends_entities d d' : entities d' = entities d -> extends d d'.
Proof. unfold entities. intros [= E1 E2 E3 E4]. unfold extends. by rewrite E1, E2, E3, E4. Qed.

(** ** Pieces that touch none of them *)

Lemma reads_checks st :
  (forall id, reads (requireProductInStorage st id)) /\ (forall t id, reads (requireSameStorage t st id)) /\
  (forall id, reads (loadBatch st id)) /\ (forall p, reads (expiryRulesFor st p)) /\
  (forall id, reads (batchContainerID id)).
Proof.
  unfold requireProductInStorage, requireSameStorage, loadBatch, expiryRulesFor, batchContainerID, reads.
  split_and!; intros; frame_walk.
Qed.

Lemma reads_requireProductInStorage st id : reads (requireProductInStorage st id).
Proof. apply reads_checks. Qed.
Lemma reads_same_storage t st id : reads (requireSameStorage t st id).
Proof. apply reads_checks. Qed.
Lemma reads_loadBatch st id : reads (loadBatch st id).
Proof. apply reads_checks. Qed.
Lemma reads_expiryRulesFor st p : reads (expiryRulesFor st p).
Proof. apply reads_checks. Qed.
Lemma reads_batchContainerID id : reads (batchContainerID id).
Proof. by apply (reads_checks 0). Qed.
#[export] Hint Resolve reads_requireProductInStorage reads_same_storage reads_loadBatch reads_expiryRulesFor reads_batchContainerID : frames.

Lemma entities_update_container f st c d : entities (update_container f st c d) = entities d.
Proof. unfold update_container. destruct (db_containers d !! c); [|done]. by case_match. Qed.

Lemma frames_createBatch st nb : frames entities (createBatch st nb).
Proof.
  unfold createBatch, upsertBatchContainerLabel, setBatchContainerType, insert_batch, writeLog. frame_walk;
    apply frames_modify; intros ?; apply entities_update_container.
Qed.

Lemma frames_reward_correction st u p q : frames entities (reward_correction st u p q).
Proof. unfold reward_correction. frame_walk. Qed.

Lemma reads_resolveVariantBase shown : reads (resolveVariantBase shown).
Proof. unfold resolveVariantBase, reads. frame_walk. Qed.
#[export] Hint Resolve reads_resolveVariantBase : frames.

(** ** The catalog *)

Lemma catalog_row_some d n r : catalog_row d n = Some r -> db_catalog d !! r.1 = Some r.2 /\ cp_NormalizedName r.2 = n.
Proof.
  unfold catalog_row. intros H. apply head_Some_elem_of in H. destruct r as [i c].
  apply elem_of_order_by_id, map_lookup_filter_Some in H. exact H.
Qed.

Lemma catalog_row_none d n i c : catalog_row d n = None -> db_catalog d !! i = Some c -> cp_NormalizedName c ≠ n.
Proof.
  unfold catalog_row. intros H Hc E. destruct (order_by_id _) as [|x l] eqn:Eo; [|done].
  apply (not_elem_of_nil (i, c)). rewrite <- Eo. by apply elem_of_order_by_id, map_lookup_filter_Some.
Qed.

Lemma insertCatalogProduct_ok inp w r w' :
  insertCatalogProduct inp w = (Ok r, w') ->
  let n := NormalizeCatalogName (ncp_DisplayName inp) in
  db_catalog (wdb w') !! r.1 = Some r.2 /\ cp_NormalizedName r.2 = n /\ n ≠ "" /\ wnow w' = wnow w /\
  ((catalog_row (wdb w) n = Some r /\ wdb w' = wdb w) \/
   (catalog_row (wdb w) n = None /\ db_catalog (wdb w) !! r.1 = None /\ wdb w' = set_catalog <[r.1 := r.2]> (wdb w) /\
    cp_DisplayName r.2 = ncp_DisplayName inp)).
Proof.
  intros H n. unfold insertCatalogProduct in H. fold n in H. tx_next H by require_ok as [Hn ->].
  tx_next H for id by newID_ok as (ids & _ & ->). apply bind_ok in H as (base & w1 & Hb & H).
  assert (E1 : wdb w1 = wdb w /\ wnow w1 = wnow w).
  { split; [by apply (reads_resolveVariantBase _ _ _ _ Hb)|]. unfold resolveVariantBase in Hb.
    destruct (ncp_ShownID inp) as [shown|]; [|by tx_inv]. apply bind_ok in Hb as (d & w2 & Hd & Hb). tx_inv1 Hd. subst.
    destruct (db_catalog _ !! shown) as [row|]; [|by tx_inv]. destruct (cp_BaseID row); by tx_inv. }
  destruct E1 as [E1 E2]. tx_next H for d by get_db_ok as [-> ->]. tx_next H for t by now_ok as [-> ->].
  tx_next H by require_ok as [_ ->]. rewrite E1, E2 in H.
  bool_to_prop. apply String.eqb_neq in Hn.
  destruct (catalog_row (wdb w) n) as [old|] eqn:Ho.
  - apply bind_ok in H as (? & w2 & H2 & H). tx_inv1 H2. subst w2. tx_next H for d by get_db_ok as [-> ->]. apply some_or_ok in H as [H ->].
    rewrite E1, Ho in H. injection H as <-. apply catalog_row_some in Ho as Ho'. rewrite E1.
    split_and!; [apply Ho' | apply Ho' | done | done | by left].
  - apply bind_ok in H as (? & w2 & H2 & H). tx_next H2 by require_ok as [Hf ->]. apply modify_ok in H2 as ->. bool_to_prop.
    tx_next H for d by get_db_ok as [-> ->]. apply some_or_ok in H as [H ->]. cbn [wdb with_db wnow] in *.
    apply catalog_row_some in H as H'. destruct H' as [Hl Hnn]. rewrite E1 in *. cbn in Hl. rewrite lookup_insert in Hl.
    destruct (decide (id = r.1)) as [->|Hne].
    + injection Hl as Er. rewrite <- Er. cbn. rewrite lookup_insert_eq.
      split_and!; [done | done | done | done |]. right. by split_and!.
    + exfalso. by apply (catalog_row_none _ _ _ _ Ho Hl).
Qed.

(** ** Pieces of the confirm *)

(** A step of the confirm before its batch: good, adding rows, no batch touched. *)
Definition prepares (d d' : DB) : Prop := good_step d d' /\ extends d d' /\ db_batches d' = db_batches d.

#[export] Instance prepares_refl : Reflexive prepares.
Proof. intros d. by split_and!. Qed.

#[export] Instance prepares_trans : Transitive prepares.
Proof. intros d1 d2 d3 (A1 & B1 & C1) (A2 & B2 & C2). split_and!; [by etransitivity.. | congruence]. Qed.

Lemma prepares_scoring {A} (m : Tx A) w r w' : scoring_only m -> m w = (r, w') -> prepares (wdb w) (wdb w').
Proof.
  intros Hm H. split_and!; [by eapply good_step_run | | by eapply (frames_scoring db_batches m Hm)].
  apply extends_entities. by eapply (frames_scoring entities m Hm).
Qed.

Lemma reward_correction_prepares st u p q w r w' :
  reward_correction st u p q w = (r, w') -> prepares (wdb w) (wdb w').
Proof.
  intros H. assert (S : scoring_only (reward_correction st u p q)) by (unfold reward_correction; scoring_walk).
  by eapply prepares_scoring.
Qed.

Lemma insertCatalogProduct_prepares inp w r w' :
  insertCatalogProduct inp w = (Ok r, w') -> prepares (wdb w) (wdb w').
Proof.
  intros H. apply insertCatalogProduct_ok in H as (_ & _ & _ & _ & [[_ ->]|(_ & Hf & -> & _)]); [done|].
  split_and!; [by apply good_step_inventory | | done]. split_and!; [done | done | | done].
  by apply insert_subseteq.
Qed.

Lemma createProduct_prepares st np w r w' :
  createProduct st np w = (Ok r, w') -> prepares (wdb w) (wdb w').
Proof.
  intros H. split_and!; [by eapply createProduct_good | |]; apply createProduct_ok in H as (ids & _ & Hn & _ & _ & ->); [|done].
  split_and!; [by apply insert_subseteq | done..].
Qed.

Lemma insertLocation_prepares st id nl w r w' :
  insertLocation st id nl w = (Ok r, w') -> prepares (wdb w) (wdb w').
Proof.
  intros H. split_and!; [by eapply insertLocation_good | |]; apply insertLocation_ok in H as (Hn & _ & _ & ->); [|done].
  split_and!; [done | by apply insert_subseteq | done..].
Qed.

Lemma reads_prepares {A} (m : Tx A) w r w' : reads m -> m w = (r, w') -> prepares (wdb w) (wdb w').
Proof. intros Hm H. pose proof (Hm w r w' H) as E. cbv beta in E. by rewrite E. Qed.

Lemma walk_path_prepares st parent names w r w' :
  walk_path st parent names w = (Ok r, w') -> prepares (wdb w) (wdb w').
Proof.
  revert parent w r. induction names as [|raw names IH]; intros parent w r H; cbn [walk_path] in H; [by tx_inv|].
  cbv zeta in H. tx_next H by require_ok as [_ ->]. tx_next H for d by get_db_ok as [-> ->].
  destruct (named_location (wdb w) st parent (TrimSpace raw)) as [l|]; [by eapply IH|].
  tx_next H for id by newID_ok as (ids & _ & ->). apply bind_ok in H as (loc & w1 & H1 & H).
  apply insertLocation_prepares in H1. apply bind_ok in H as (r1 & w2 & H2 & H). tx_inv1 H. subst.
  etransitivity; [exact H1 | by eapply IH].
Qed.

Lemma resolveIngestLocation_prepares st dec w r w' :
  resolveIngestLocation st dec w = (Ok r, w') ->
  prepares (wdb w) (wdb w') /\ (id_NewLocation dec = None -> id_LocationID dec = Some r.1 /\ r.2 = 0).
Proof.
  unfold resolveIngestLocation. destruct (id_NewLocation dec) as [nl|]; intros H.
  - split; [|done]. unfold ensureLocationPath in H. tx_next H by require_ok as [_ ->].
    apply bind_ok in H as (? & w1 & H1 & H).
    assert (w1 = w) as -> by (destruct (nil_ParentID nl); [by apply requireSameStorage_ok in H1 as [-> _] | by tx_inv]).
    apply bind_ok in H as (r1 & w2 & H2 & H). apply walk_path_prepares in H2.
    tx_next H for leaf by some_or_ok as [_ ->]. tx_inv1 H. by subst.
  - tx_next H for l by some_or_ok as [Hl ->]. tx_inv1 H. subst. split; [done|]. done.
Qed.

Lemma resolveIngestProduct_ok st dec created w p isNew created' w' :
  resolveIngestProduct st dec created w = (Ok (p, isNew, created'), w') ->
  prepares (wdb w) (wdb w') /\ created ⊆ created' /\
  match id_ProductID dec with
  | Some q => p = q /\ isNew = false
  | None => exists np, id_NewProduct dec = Some np /\ created' !! NormalizeCatalogName (nip_Name np) = Some p /\
      (isNew = true -> db_products (wdb w) !! p = None /\
        exists prod, db_products (wdb w') !! p = Some prod /\ prod_StorageID prod = st)
  end.
Proof.
  unfold resolveIngestProduct. intros H. destruct (id_ProductID dec) as [q|].
  { tx_next H by requireProductInStorage_ok as (-> & _). tx_inv1 H. by simplify_eq. }
  tx_next H for np by some_or_ok as [Hnp ->]. cbv zeta in H.
  destruct (created !! NormalizeCatalogName (nip_Name np)) as [q|] eqn:Hc.
  { tx_inv1 H. simplify_eq. split; [done|]. split; [done|]. by exists np. }
  apply bind_ok in H as (path & w1 & H1 & H).
  assert (w1 = w) as ->.
  { destruct (nip_CategoryID np); [|by tx_inv]. tx_next H1 by requireSameStorage_ok as (-> & _).
    apply bind_ok in H1 as (s & w2 & H2 & H1). tx_inv1 H1. subst. unfold categoryPathOf in H2. by tx_inv. }
  apply bind_ok in H as (cat & w2 & H2 & H). apply insertCatalogProduct_prepares in H2 as P2.
  apply bind_ok in H as (prod & w3 & H3 & H). apply createProduct_prepares in H3 as P3.
  apply createProduct_ok in H3 as (ids & _ & Hn & Hst & _ & ->). tx_inv1 H. simplify_eq.
  split; [by etransitivity|]. split; [by apply insert_subseteq|]. exists np. split; [done|].
  split; [apply lookup_insert_eq|]. intros _. split.
  - destruct P2 as (_ & (Hp & _) & _). destruct (db_products (wdb w) !! prod.1) as [x|] eqn:E; [|done].
    eapply lookup_weaken in E; [|exact Hp]. congruence.
  - exists prod.2. split; [apply lookup_insert_eq | done].
Qed.

(** ** The loop *)

(** How the batch [id] follows from the decision: its quantity, the location it
    names, the product it names or the one created under its name. *)
Definition filed (d : DB) (names : gmap string uuid) (dec : IngestDecision) (id : uuid) : Prop :=
  exists b, db_batches d !! id = Some b /\ b_Quantity b = id_Quantity dec /\
    (id_NewLocation dec = None -> id_LocationID dec = Some (b_LocationID b)) /\
    match id_ProductID dec with
    | Some q => b_ProductID b = q
    | None => exists np, id_NewProduct dec = Some np /\
        names !! NormalizeCatalogName (nip_Name np) = Some (b_ProductID b)
    end.

Lemma filed_mono d d' m m' dec id :
  (forall i b, db_batches d !! i = Some b -> db_batches d' !! i = Some b) -> m ⊆ m' ->
  filed d m dec id -> filed d' m' dec id.
Proof.
  intros Hd Hm (b & Hb & Hq & Hl & Hp). exists b. split; [by apply Hd|]. split; [done|]. split; [done|].
  destruct (id_ProductID dec); [done|]. destruct Hp as (np & E & Hp). exists np. split; [done|].
  by eapply lookup_weaken.
Qed.

(** What the loop adds to a database. *)
Record ingested (st : uuid) (created : gmap string uuid) (decisions : list IngestDecision) (r : IngestResult) (d d' : DB) : Prop := {
  ig_good : good_step d d';
  ig_extends : extends d d';
  ig_kept : forall i b, db_batches d !! i = Some b -> db_batches d' !! i = Some b;
  ig_only : forall i, i ∉ ir_BatchIDs r -> db_batches d' !! i = db_batches d !! i;
  ig_new : NoDup (ir_BatchIDs r) /\ Forall (fun i => db_batches d !! i = None) (ir_BatchIDs r);
  ig_filed : exists names, created ⊆ names /\
    Forall2 (filed d' names) (base.filter (fun dec => id_Accept dec = true) decisions) (ir_BatchIDs r);
  ig_products : ir_ProductsCreated r = Z.of_nat (Datatypes.length (ir_CreatedProductIDs r)) /\
    Forall (fun p => db_products d !! p = None /\ exists prod, db_products d' !! p = Some prod /\ prod_StorageID prod = st)
      (ir_CreatedProductIDs r);
}.

Lemma extends_product d d' p prod : extends d d' -> db_products d !! p = Some prod -> db_products d' !! p = Some prod.
Proof. intros (H & _) E. by eapply lookup_weaken. Qed.

Lemma extends_no_product d d' p : extends d d' -> db_products d' !! p = None -> db_products d !! p = None.
Proof. intros (H & _) E. destruct (db_products d !! p) eqn:Ep; [|done]. eapply lookup_weaken in Ep; [|exact H]. congruence. Qed.

Lemma apply_ingest_ok st u proposed created decisions w r w' :
  apply_ingest st u proposed created decisions w = (Ok r, w') ->
  ingested st created decisions r (wdb w) (wdb w').
Proof.
  revert created w r. induction decisions as [|dec decisions IH]; intros created w r H; cbn [apply_ingest] in H.
  { tx_inv. split; cbn; try reflexivity.
    - done.
    - split; constructor.
    - exists created. split; [reflexivity | constructor].
    - split; constructor. }
  destruct (id_Accept dec) eqn:Ea; cbn [negb] in H.
  2: { destruct (IH _ _ _ H) as [G X K O N F P]. split; try done.
       rewrite filter_cons_False by congruence. exact F. }
  apply bind_ok in H as ([[p isNew] created'] & w1 & H1 & H). apply resolveIngestProduct_ok in H1 as (P1 & Hc & Hp).
  apply bind_ok in H as (? & w2 & H2 & H). apply reward_correction_prepares in H2 as P2.
  apply bind_ok in H as (l & w3 & H3 & H). apply resolveIngestLocation_prepares in H3 as (P3 & Hl).
  apply bind_ok in H as (v & w4 & H4 & H). pose proof (frames_createBatch _ _ _ _ _ H4) as X4.
  apply createBatch_good in H4 as G4. apply createBatch_rows in H4 as (Hn & (b & Hb & Ep & El & Eq) & Ho).
  apply bind_ok in H as (rest & w5 & H5 & H). tx_inv1 H. subst.
  assert (P : prepares (wdb w) (wdb w3)) by (etransitivity; [exact P1|]; etransitivity; [exact P2 | exact P3]).
  destruct P as (G3 & X3 & B3). destruct (IH _ _ _ H5) as [G X K O [Nn Na] (m & Hm & F) (Pc & Pn)].
  assert (X04 : extends (wdb w) (wdb w4)) by (etransitivity; [exact X3 | by apply extends_entities]).
  rewrite B3 in Hn, Ho. cbn [nb_ProductID nb_LocationID nb_Quantity ingest_batch] in *.
  assert (Kept : forall i b', db_batches (wdb w) !! i = Some b' -> db_batches (wdb w') !! i = Some b').
  { intros i b' Hi. apply K. rewrite Ho; [done|]. intros ->. congruence. }
  split.
  - etransitivity; [exact G3|]. etransitivity; [exact G4 | exact G].
  - etransitivity; [exact X04 | exact X].
  - exact Kept.
  - cbn. intros i Hi. apply not_elem_of_cons in Hi as [Hne Hi]. rewrite O by done. by apply Ho.
  - cbn. rewrite Forall_forall in Na. split.
    + constructor; [|done]. intros Hin. specialize (Na _ Hin). congruence.
    + constructor; [done|]. apply Forall_forall. intros i Hi. specialize (Na i Hi).
      destruct (decide (i = bv_ID v)) as [->|Hne]; [done|]. by rewrite <- Ho.
  - cbn [ir_BatchIDs]. exists m. split; [by etransitivity|]. rewrite filter_cons_True by done. constructor; [|exact F].
    exists b. split; [by apply K|]. split; [done|]. split.
    + intros E. destruct (Hl E) as [-> _]. by rewrite El.
    + rewrite Ep. destruct (id_ProductID dec) as [q|]; [by destruct Hp|]. destruct Hp as (np & Enp & Hnp & _).
      exists np. split; [done|]. by eapply lookup_weaken.
  - assert (Pn' : Forall (fun p => db_products (wdb w) !! p = None /\
        exists prod, db_products (wdb w') !! p = Some prod /\ prod_StorageID prod = st) (ir_CreatedProductIDs rest)).
    { eapply Forall_impl; [exact Pn|]. cbn. intros q [Hq1 Hq2]. split; [|exact Hq2]. by eapply extends_no_product. }
    destruct isNew; cbn [ir_ProductsCreated ir_CreatedProductIDs Datatypes.length].
    + split; [lia|]. constructor; [|done]. destruct (id_ProductID dec); [by destruct Hp|].
      destruct Hp as (np & _ & _ & Hnew). destruct (Hnew eq_refl) as (Hab & prod & Hpr & Hst). split; [done|].
      exists prod. split; [|done]. eapply extends_product; [|exact Hpr].
      destruct P2 as (_ & X2 & _), P3 as (_ & X3' & _).
      etransitivity; [exact X2|]. etransitivity; [exact X3'|]. etransitivity; [by apply extends_entities | exact X].
    + split; [lia | done].
Qed.

(** ** What it counts *)

Definition count_products (d : DB) : Z := Z.of_nat (size (db_products d)).
Definition count_locations (d : DB) : Z := Z.of_nat (size (db_locations d)).

(** [d'] has [p] products and [l] locations more. *)
Definition grows (p l : Z) (d d' : DB) : Prop :=
  count_products d' = count_products d + p /\ count_locations d' = count_locations d + l.

Lemma grows_trans p1 l1 p2 l2 d1 d2 d3 : grows p1 l1 d1 d2 -> grows p2 l2 d2 d3 -> grows (p1 + p2) (l1 + l2) d1 d3.
Proof. unfold grows. lia. Qed.

Lemma grows_entities d d' : entities d' = entities d -> grows 0 0 d d'.
Proof. unfold entities, grows, count_products, count_locations. intros [= -> -> _ _]. lia. Qed.

Lemma createProduct_grows st np w r w' : createProduct st np w = (Ok r, w') -> grows 1 0 (wdb w) (wdb w').
Proof.
  intros H. apply createProduct_ok in H as (ids & _ & Hn & _ & _ & ->). unfold grows, count_products, count_locations.
  cbn. rewrite map_size_insert_None by done. lia.
Qed.

Lemma insertLocation_grows st id nl w r w' : insertLocation st id nl w = (Ok r, w') -> grows 0 1 (wdb w) (wdb w').
Proof.
  intros H. apply insertLocation_ok in H as (Hn & _ & _ & ->). unfold grows, count_products, count_locations.
  cbn. rewrite map_size_insert_None by done. lia.
Qed.

Lemma insertCatalogProduct_grows inp w r w' : insertCatalogProduct inp w = (Ok r, w') -> grows 0 0 (wdb w) (wdb w').
Proof.
  intros H. apply insertCatalogProduct_ok in H as (_ & _ & _ & _ & [[_ ->]|(_ & _ & -> & _)]);
    unfold grows, count_products, count_locations; cbn; lia.
Qed.

Lemma walk_path_grows st parent names w r w' :
  walk_path st parent names w = (Ok r, w') -> grows 0 r.2 (wdb w) (wdb w').
Proof.
  revert parent w r. induction names as [|raw names IH]; intros parent w r H; cbn [walk_path] in H.
  { tx_inv. unfold grows. cbn. lia. }
  cbv zeta in H. tx_next H by require_ok as [_ ->]. tx_next H for d by get_db_ok as [-> ->].
  destruct (named_location (wdb w) st parent (TrimSpace raw)) as [l|]; [by eapply IH|].
  tx_next H for id by newID_ok as (ids & _ & ->). apply bind_ok in H as (loc & w1 & H1 & H).
  apply insertLocation_grows in H1. apply bind_ok in H as (r1 & w2 & H2 & H). tx_inv1 H. subst.
  apply IH in H2. unfold grows in *. cbn in *. lia.
Qed.

Lemma resolveIngestLocation_grows st dec w r w' :
  resolveIngestLocation st dec w = (Ok r, w') -> grows 0 r.2 (wdb w) (wdb w').
Proof.
  unfold resolveIngestLocation. destruct (id_NewLocation dec) as [nl|]; intros H.
  - unfold ensureLocationPath in H. tx_next H by require_ok as [_ ->].
    apply bind_ok in H as (? & w1 & H1 & H).
    assert (w1 = w) as -> by (destruct (nil_ParentID nl); [by apply requireSameStorage_ok in H1 as [-> _] | by tx_inv]).
    apply bind_ok in H as (r1 & w2 & H2 & H). apply walk_path_grows in H2.
    tx_next H for leaf by some_or_ok as [_ ->]. tx_inv1 H. by subst.
  - tx_next H for l by some_or_ok as [Hl ->]. tx_inv1 H. subst. unfold grows. cbn. lia.
Qed.

Lemma resolveIngestProduct_grows st dec created w p isNew created' w' :
  resolveIngestProduct st dec created w = (Ok (p, isNew, created'), w') ->
  grows (if isNew then 1 else 0) 0 (wdb w) (wdb w').
Proof.
  unfold resolveIngestProduct. intros H. destruct (id_ProductID dec) as [q|].
  { tx_next H by requireProductInStorage_ok as (-> & _). tx_inv1 H. simplify_eq. unfold grows. lia. }
  tx_next H for np by some_or_ok as [Hnp ->]. cbv zeta in H.
  destruct (created !! NormalizeCatalogName (nip_Name np)) as [q|] eqn:Hc.
  { tx_inv1 H. simplify_eq. unfold grows. lia. }
  apply bind_ok in H as (path & w1 & H1 & H).
  assert (w1 = w) as ->.
  { destruct (nip_CategoryID np); [|by tx_inv]. tx_next H1 by requireSameStorage_ok as (-> & _).
    apply bind_ok in H1 as (s & w2 & H2 & H1). tx_inv1 H1. subst. unfold categoryPathOf in H2. by tx_inv. }
  apply bind_ok in H as (cat & w2 & H2 & H). apply insertCatalogProduct_grows in H2.
  apply bind_ok in H as (prod & w3 & H3 & H). apply createProduct_grows in H3.
  tx_inv1 H. simplify_eq. apply (grows_trans _ _ _ _ _ _ _ H2 H3).
Qed.

Lemma apply_ingest_grows st u proposed created decisions w r w' :
  apply_ingest st u proposed created decisions w = (Ok r, w') ->
  grows (ir_ProductsCreated r) (ir_LocationsCreated r) (wdb w) (wdb w').
Proof.
  revert created w r. induction decisions as [|dec decisions IH]; intros created w r H; cbn [apply_ingest] in H.
  { tx_inv. unfold grows. cbn. lia. }
  destruct (id_Accept dec); cbn [negb] in H; [|by eapply IH].
  apply bind_ok in H as ([[p isNew] created'] & w1 & H1 & H). apply resolveIngestProduct_grows in H1.
  apply bind_ok in H as (? & w2 & H2 & H). apply frames_reward_correction, grows_entities in H2.
  apply bind_ok in H as (l & w3 & H3 & H). apply resolveIngestLocation_grows in H3.
  apply bind_ok in H as (v & w4 & H4 & H). apply frames_createBatch, grows_entities in H4.
  apply bind_ok in H as (rest & w5 & H5 & H). tx_inv1 H. subst. apply IH in H5.
  unfold grows in *. cbn. lia.
Qed.

(** ** The whole transaction *)

(** The decisions answer the proposal's rows, each exactly once. *)
Definition answers (j : Job) (ids : list string) : Prop :=
  exists rows, proposal_rows (job_Payload j) = Some rows /\ NoDup ids /\
    forall r, r ∈ ids <-> r ∈ map pr_RowID rows.

Lemma ConsumeJob_sets st id w u w' :
  ConsumeJob st id w = (Ok u, w') ->
  exists j t, job_in_storage (wdb w) st id = Some j /\ wdb w' = set_jobs <[id := set_consumed t j]> (wdb w).
Proof.
  intros H. apply ConsumeJob_ok in H as (j & n & Hj & _ & H). exists j, (wnow w). split; [done|].
  apply job_in_storage_some in Hj as [Hj _].
  unfold update_jobs in H. tx_inv. unfold set_jobs. f_equal.
  apply map_eq. intros i. rewrite map_lookup_imap. cbn. destruct (decide (i = id)) as [->|Hne].
  - rewrite lookup_insert_eq, Hj. cbn. by rewrite Z.eqb_refl.
  - rewrite lookup_insert_ne by done. destruct (db_jobs (wdb w) !! i); [|done]. cbn. by rewrite (proj2 (Z.eqb_neq _ _) Hne).
Qed.

Lemma ConfirmIngestion_ok st id u ds w r w' :
  ConfirmIngestion st id u ds w = (Ok r, w') ->
  exists j proposed w1 w2 t,
    job_in_storage (wdb w) st id = Some j /\ job_Status j = JobDone /\ answers j (map id_RowID ds) /\
    apply_ingest st u proposed ∅ ds w = (Ok r, w1) /\ entities (wdb w2) = entities (wdb w1) /\
    good_step (wdb w1) (wdb w2) /\ db_batches (wdb w2) = db_batches (wdb w1) /\
    wdb w' = set_jobs <[id := set_consumed t j]> (wdb w2).
Proof.
  unfold ConfirmIngestion. intros H. tx_inv1 H.
  tx_next H for j by lock_done_job_ok as (-> & Hj & Hs).
  tx_next H by matchRowIDs_ok as (-> & rows & Hr & Hn & Hi).
  apply bind_ok in H as (proposed & w0 & H0 & H).
  assert (w0 = w) as -> by (unfold proposedExactMatches in H0; by tx_inv).
  apply bind_ok in H as (r1 & w1 & H1 & H). apply bind_ok in H as (? & w2 & H2 & H).
  apply bind_ok in H as ([] & w3 & H3 & H). tx_inv1 H. subst.
  assert (S : scoring_only (match u with
     | Some u => if bool_decide (job_Kind j = JobShelfIngestion) && negb (bool_decide (ir_BatchIDs r = []))
                 then unlockAchievement st u AchFirstShelf else mret tt
     | None => mret tt end)) by scoring_walk.
  apply ConsumeJob_sets in H3 as (j' & t & Hj' & E3).
  assert (E2 : entities (wdb w2) = entities (wdb w1)) by (by eapply (frames_scoring entities _ S)). apply apply_ingest_ok in H1 as I1.
  assert (j' = j) as ->.
  { destruct I1 as [_ (_ & _ & _ & EJ) _ _ _ _ _]. unfold entities in E2.
    assert (EJ2 : db_jobs (wdb w2) = db_jobs (wdb w)) by congruence.
    unfold job_in_storage in *. rewrite EJ2 in Hj'. congruence. }
  exists j, proposed, w1, w2, t. split_and!; [done | done | by exists rows | done | done | | | done].
  - by eapply good_step_run.
  - by eapply (frames_scoring db_batches _ S).
Qed.

Lemma ConfirmIngestion_good st id u ds w r w' :
  ConfirmIngestion st id u ds w = (Ok r, w') -> good_step (wdb w) (wdb w').
Proof.
  intros H. apply ConfirmIngestion_ok in H as (j & pr & w1 & w2 & t & _ & _ & _ & H1 & _ & G & _ & E).
  apply apply_ingest_ok in H1 as [G1 _ _ _ _ _ _]. etransitivity; [exact G1|]. etransitivity; [exact G|].
  rewrite E. by apply good_step_inventory.
Qed.

Lemma InsertCatalogProduct_good inp w r w' :
  InsertCatalogProduct inp w = (Ok r, w') -> good_step (wdb w) (wdb w').
Proof. intros H. apply inTx_ok, insertCatalogProduct_prepares in H. apply H. Qed.

(** C6: A confirmed ingestion decides exactly the rows the proposal issued, each
    once, and consumes the job; it files one new batch per accepted decision, in
    order, with the decision's quantity, at the location it names, against the
    product it names or the one product this confirm holds under that name; every
    product, location, catalog row and batch that existed is unchanged; the ids it
    reports are new products of the storage, and the two counts are how many
    products and locations the household has more; shelves and ledger still agree;
    and a second confirm of the job, whatever it decides, is answered ErrConflict. *)
Theorem ConfirmIngestion_spec st id u ds w r w' :
  consistent (wdb w) -> ConfirmIngestion st id u ds w = (Ok r, w') ->
  (exists j t, job_in_storage (wdb w) st id = Some j /\ job_Status j = JobDone /\ answers j (map id_RowID ds) /\
     db_jobs (wdb w') = <[id := set_consumed t j]> (db_jobs (wdb w))) /\
  (exists names, Forall2 (filed (wdb w') names) (base.filter (fun dec => id_Accept dec = true) ds) (ir_BatchIDs r)) /\
  (NoDup (ir_BatchIDs r) /\ Forall (fun i => db_batches (wdb w) !! i = None) (ir_BatchIDs r) /\
   forall i, i ∉ ir_BatchIDs r -> db_batches (wdb w') !! i = db_batches (wdb w) !! i) /\
  (db_products (wdb w) ⊆ db_products (wdb w') /\ db_locations (wdb w) ⊆ db_locations (wdb w') /\
   db_catalog (wdb w) ⊆ db_catalog (wdb w')) /\
  (Forall (fun p => db_products (wdb w) !! p = None /\ exists prod, db_products (wdb w') !! p = Some prod /\
     prod_StorageID prod = st) (ir_CreatedProductIDs r) /\
   ir_ProductsCreated r = Z.of_nat (Datatypes.length (ir_CreatedProductIDs r)) /\
   grows (ir_ProductsCreated r) (ir_LocationsCreated r) (wdb w) (wdb w')) /\
  consistent (wdb w') /\
  forall u2 ds2, ConfirmIngestion st id u2 ds2 w' = (Fail ErrConflict, w').
Proof.
  intros C H. pose proof (good_step_consistent _ _ (ConfirmIngestion_good _ _ _ _ _ _ _ H) C) as C'.
  apply ConfirmIngestion_ok in H as (j & pr & w1 & w2 & t & Hj & Hs & Ha & H1 & E2 & _ & Eb & E).
  apply apply_ingest_grows in H1 as Hg. apply apply_ingest_ok in H1 as [_ (X1 & X2 & X3 & XJ) _ O [Nn Na] (m & _ & F) (Pc & Pn)].
  unfold entities in E2. injection E2 as Q1 Q2 Q3 Q4.
  assert (B : db_batches (wdb w') = db_batches (wdb w1)) by (rewrite E; exact Eb).
  assert (Ep : db_products (wdb w') = db_products (wdb w1)) by (rewrite E; exact Q1).
  assert (El : db_locations (wdb w') = db_locations (wdb w1)) by (rewrite E; exact Q2).
  assert (Ej : db_jobs (wdb w') = <[id := set_consumed t j]> (db_jobs (wdb w))) by (rewrite E, <- XJ, <- Q4; reflexivity).
  split; [exists j, t; by split_and!|]. split; [exists m|split; [split; [done|split; [done|]]|split; [|split; [|split; [done|]]]]].
  - eapply Forall2_impl; [exact F|]. intros dec i Hf. eapply filed_mono; [|reflexivity|exact Hf]. by rewrite B.
  - by rewrite B.
  - rewrite Ep, El, E. split_and!; [done | done |]. etransitivity; [exact X3|]. by rewrite <- Q3.
  - rewrite Ep. split_and!; [done | done |]. unfold grows, count_products, count_locations in *. by rewrite Ep, El.
  - intros u2 ds2. apply job_in_storage_some in Hj as [_ Hst].
    assert (Hc : lock_done_job st id w' = (Fail ErrConflict, w')).
    { apply (lock_done_job_conflict st id w' (set_consumed t j)); [|done]. apply job_in_storage_some.
      rewrite Ej. split; [apply lookup_insert_eq | done]. }
    unfold ConfirmIngestion, inTx. rewrite (bind_abort _ _ _ _ _ Hc). by destruct w'.
Qed.

(** The catalog is insert-only: no row that was there ever changes; the first
    row under a normalized name keeps it, so inserting any spelling of that name
    again, whatever else it says, returns the same row and writes nothing; a name
    that was free gets one new row with the name as it was typed; and the names
    stay unique. *)
Theorem InsertCatalogProduct_spec inp w r w' :
  InsertCatalogProduct inp w = (Ok r, w') ->
  let n := NormalizeCatalogName (ncp_DisplayName inp) in
  db_catalog (wdb w) ⊆ db_catalog (wdb w') /\
  (db_catalog (wdb w') !! r.1 = Some r.2 /\ cp_NormalizedName r.2 = n /\ n ≠ "") /\
  (forall old, catalog_row (wdb w) n = Some old -> r = old /\ wdb w' = wdb w) /\
  (catalog_row (wdb w) n = None -> wdb w' = set_catalog <[r.1 := r.2]> (wdb w) /\ cp_DisplayName r.2 = ncp_DisplayName inp) /\
  (let unique d := forall i j a b, db_catalog d !! i = Some a -> db_catalog d !! j = Some b ->
     cp_NormalizedName a = cp_NormalizedName b -> i = j in
   unique (wdb w) -> unique (wdb w') /\
   forall inp2 r2 w2, NormalizeCatalogName (ncp_DisplayName inp2) = n ->
     InsertCatalogProduct inp2 w' = (Ok r2, w2) -> r2 = r /\ wdb w2 = wdb w').
Proof.
  intros H n. apply inTx_ok, insertCatalogProduct_ok in H. fold n in H.
  destruct H as (Hl & Hn & Hne & _ & D).
  split; [|split; [done|split; [|split]]].
  - destruct D as [[_ ->]|(_ & Hf & -> & _)]; [done | by apply insert_subseteq].
  - intros old Ho. destruct D as [[Hr ->]|(Hr & _)]; [|congruence]. split; [congruence | done].
  - intros Ho. destruct D as [[Hr _]|(_ & _ & E & Hd)]; [congruence | done].
  - intros unique U. assert (U' : unique (wdb w')).
    { destruct D as [[_ ->]|(Hr & Hf & -> & _)]; [exact U|]. intros i j a b. cbn.
      rewrite !lookup_insert. destruct (decide (r.1 = i)) as [Ei|Ei], (decide (r.1 = j)) as [Ej|Ej]; intros Ha Hb Hab.
      - congruence.
      - exfalso. injection Ha as <-. apply (catalog_row_none _ _ _ _ Hr Hb). congruence.
      - exfalso. injection Hb as <-. apply (catalog_row_none _ _ _ _ Hr Ha). congruence.
      - by apply (U i j a b). }
    split; [exact U'|]. intros inp2 r2 w2 E2 H2. apply inTx_ok, insertCatalogProduct_ok in H2.
    rewrite E2 in H2. destruct H2 as (Hl2 & Hn2 & _ & _ & [[Hr2 Ew]|(Hr2 & _)]).
    + split; [|done]. rewrite Ew in Hl2. assert (r2.1 = r.1) as Ei by (apply (U' _ _ _ _ Hl2 Hl); congruence).
      rewrite Ei in Hl2. destruct r2, r. cbn in *. congruence.
    + exfalso. by apply (catalog_row_none _ _ _ _ Hr2 Hl).
Qed.

(** ** The theorems at work *)

(** One row filed under another product than the model proposed, one as a new
    product on a new shelf of the cellar. *)
Definition sample_ingest : list IngestDecision :=
  [ mkIngestDecision "a" true (Some 31) None 2 (Some 20) None false None None None;
    mkIngestDecision "b" true None (Some (mkNewIngestProduct "Red  Lentils" (Some 25) "" None)) 5 None
      (Some (mkNewIngestLocation None ["cellar "; "Top shelf"])) false None None None ].

Lemma ConfirmIngestion_spec_witness :
  exists r w', ConfirmIngestion 1 61 (Some 10) sample_ingest sample_world = (Ok r, w') /\
    ir_ProductsCreated r = 1 /\ ir_LocationsCreated r = 1 /\
    count_products (wdb w') = 3 /\ count_locations (wdb w') = 4 /\
    ConfirmIngestion 1 61 None [] w' = (Fail ErrConflict, w').
Proof.
  destruct (ConfirmIngestion 1 61 (Some 10) sample_ingest sample_world) as [r w'] eqn:E.
  assert (V : exists v, r = Ok v /\ ir_ProductsCreated v = 1 /\ ir_LocationsCreated v = 1).
  { change r with (r, w').1. rewrite <- E. eexists. vm_compute. split_and!; reflexivity. }
  destruct V as (v & -> & E1 & E2). exists v, w'.
  destruct (ConfirmIngestion_spec 1 61 (Some 10) sample_ingest sample_world v w' sample_consistent E)
    as (_ & _ & _ & _ & (_ & _ & [G1 G2]) & _ & A).
  rewrite G1, G2, E1, E2. split_and!; [done.. | apply A].
Defined.

Definition sample_catalog_product (name : string) : NewCatalogProduct := mkNewCatalogProduct name None "" None None None None.

Lemma InsertCatalogProduct_spec_witness :
  let w1 := (InsertCatalogProduct (sample_catalog_product "Baked Beans") sample_world).2 in
  (cp_DisplayName <$> (snd <$> catalog_row (wdb w1) "baked beans")) = Some "Baked Beans" /\
  wdb (InsertCatalogProduct (sample_catalog_product "  BAKED   beans ") w1).2 = wdb w1.
Proof.
  intros w1. split; [vm_compute; reflexivity|].
  destruct (InsertCatalogProduct (sample_catalog_product "  BAKED   beans ") w1) as [r w2] eqn:E.
  assert (V : exists v, r = Ok v).
  { change r with (r, w2).1. rewrite <- E. eexists. vm_compute. reflexivity. }
  destruct V as (v & ->).
  destruct (InsertCatalogProduct_spec _ _ _ _ E) as (_ & _ & T & _).
  destruct (catalog_row (wdb w1) (NormalizeCatalogName (ncp_DisplayName (sample_catalog_product "  BAKED   beans ")))) as [old|] eqn:Eo.
  - exact (proj2 (T old eq_refl)).
  - exfalso. vm_compute in Eo. discriminate Eo.
Defined.
