(* ===== verification/ShoppingSpec.v ===== *)
(** * What a shopping list and a resolved line leave behind *)

From S2P Require Import Prelude Gamification Text Db Sample Expiry Tree Progress ShelfLife Containers Batches Ledger StockSteps BatchSpec Stocktake Jobs Consumption Locations Products Ingestion EditSteps IngestionSpec Shopping.

#[local] Open Scope string_scope.
#[local] Open Scope list_scope.
#[local] Open Scope Z_scope.

(** ** Statements *)

Lemma item_in_storage_some d st id i :
  item_in_storage d st id = Some i <->
  db_items d !! id = Some i /\ exists l, db_lists d !! item_ListID i = Some l /\ list_StorageID l = st.
Proof.
  unfold item_in_storage. destruct (db_items d !! id) as [i'|]; [|naive_solver].
  destruct (db_lists d !! item_ListID i') as [l|] eqn:Hl.
  - destruct (Z.eqb_spec (list_StorageID l) st); naive_solver.
  - split; [done|]. intros ([= <-] & l & E & _). congruence.
Qed.

Lemma lock_open_item_ok st id w s w' :
  lock_open_item st id w = (Ok s, w') ->
  w' = w /\ exists i, item_in_storage (wdb w) st id = Some i /\ item_Status i = s /\ s ≠ ItemResolved.
Proof.
  unfold lock_open_item. intros H. tx_next H for d by get_db_ok as [-> ->].
  tx_next H for i by some_or_ok as [Hi ->]. tx_next H by require_ok as [Hs ->]. tx_inv1 H. subst.
  apply negb_true_iff, String.eqb_neq in Hs. eauto.
Qed.

Lemma lock_open_item_conflict st id w i :
  item_in_storage (wdb w) st id = Some i -> item_Status i = ItemResolved ->
  lock_open_item st id w = (Fail ErrConflict, w).
Proof.
  intros Hi Hs. unfold lock_open_item. rewrite (bind_step _ get_db w _ _ eq_refl), Hi.
  cbn [some_or]. rewrite (bind_step _ (mret i) w i w eq_refl), Hs. done.
Qed.

Lemma update_item_ok f id w i w' :
  update_item f id w = (Ok i, w') ->
  exists i0, db_items (wdb w) !! id = Some i0 /\ i = f i0 /\ item_row_ok (wdb w) i = true /\
    w' = with_db (set_items <[id := i]> (wdb w)) w.
Proof.
  unfold update_item. intros H. tx_next H for d by get_db_ok as [-> ->].
  tx_next H for i0 by some_or_ok as [Hi ->]. tx_next H by require_ok as [Hr ->].
  tx_next H by modify_ok as ->. tx_inv1 H. subst. eauto.
Qed.

Lemma require_match_ok st m w u w' :
  require_match st m w = (Ok u, w') ->
  w' = w /\ forall p, m = Some p -> exists row, db_products (wdb w) !! p = Some row /\ prod_StorageID row = st.
Proof.
  unfold require_match. destruct m as [p|]; intros H; [|tx_inv; by subst].
  apply requireProductInStorage_ok in H as (-> & row & H). split; [done|]. intros q [= <-]. eauto.
Qed.

(** ** The category walk *)

Lemma named_category_some d st parent name e :
  named_category d st parent name = Some e ->
  exists c, db_categories d !! e = Some c /\ is_named st parent name (e, c).
Proof.
  unfold named_category. intros H. apply fmap_Some in H as ([i c] & Hh & ->).
  apply head_Some_elem_of in Hh. rewrite merge_sort_Permutation in Hh.
  apply elem_of_map_to_list, map_lookup_filter_Some in Hh as [Hc Hn]. eauto.
Qed.

(** Two category tables that agree on the rows of that name answer alike. *)
Lemma named_category_agree d d' st parent name :
  base.filter (is_named st parent name) (db_categories d') = base.filter (is_named st parent name) (db_categories d) ->
  named_category d' st parent name = named_category d st parent name.
Proof. unfold named_category. by intros ->. Qed.

Lemma named_category_none d st parent name :
  named_category d st parent name = None -> base.filter (is_named st parent name) (db_categories d) = ∅.
Proof.
  unfold named_category. intros H. apply fmap_None in H. apply map_to_list_empty_iff.
  apply Permutation_nil_r. rewrite <- (merge_sort_Permutation older_category).
  by destruct (merge_sort _ _).
Qed.

Lemma insert_category_node_ok st id parent name w u w' :
  insert_category_node st id parent name w = (Ok u, w') ->
  db_categories (wdb w) !! id = None /\ parent ≠ Some id /\
  (forall p, parent = Some p -> is_Some (db_categories (wdb w) !! p)) /\
  w' = with_db (set_categories <[id := mkCategory st parent name None (wnow w) (wnow w)]> (wdb w)) w.
Proof.
  unfold insert_category_node. intros H. tx_next H for d by get_db_ok as [-> ->]. tx_next H for t by now_ok as [-> ->].
  tx_next H by require_ok as [Hr ->]. apply modify_ok in H as ->. unfold node_row_ok in Hr. bool_to_prop.
  split_and!; [done | done | | done]. intros p ->. by bool_to_prop.
Qed.

(** [p] is the root, or the node reached from it by the path [names], compared as the
    query compares them. *)
Inductive spelled (d : DB) (st : uuid) : option uuid -> list string -> Prop :=
| spelled_root : spelled d st None []
| spelled_node id c names :
    db_categories d !! id = Some c -> cat_StorageID c = st -> spelled d st (cat_ParentID c) names ->
    spelled d st (Some id) (names ++ [ToLower (cat_Name c)]).

Lemma spelled_mono d d' st p names :
  db_categories d ⊆ db_categories d' -> spelled d st p names -> spelled d' st p names.
Proof. intros Hd. induction 1; econstructor; try done. by eapply lookup_weaken. Qed.

(** A node has one path, so no node is its own ancestor. *)
Lemma spelled_fun d st p n m : spelled d st p n -> spelled d st p m -> n = m.
Proof.
  intros Hn. revert m. induction Hn as [|id c names Hc _ _ IH]; intros m Hm; inversion Hm as [|id' c' n' Hc' _ Hs]; subst; [done|].
  rewrite Hc in Hc'. injection Hc' as <-. by rewrite (IH n').
Qed.

Lemma named_category_case d st parent name name' :
  ToLower name' = ToLower name -> named_category d st parent name' = named_category d st parent name.
Proof.
  intros E. unfold named_category. do 4 f_equal. apply map_filter_ext. intros i c _. unfold is_named. by rewrite E.
Qed.

(** A table is [d]'s with rows of [st] added, each below a node at depth [k] or more. *)
Definition grown_below (st : uuid) (k : nat) (d d' : DB) : Prop :=
  db_categories d ⊆ db_categories d' /\
  forall i c, db_categories d' !! i = Some c -> db_categories d !! i = None ->
    cat_StorageID c = st /\ exists m, spelled d' st (cat_ParentID c) m /\ (k <= Datatypes.length m)%nat.

Lemma grown_below_refl st k d : grown_below st k d d.
Proof. split; [done|]. congruence. Qed.

Lemma grown_below_trans st k k' d1 d2 d3 :
  (k <= k')%nat -> grown_below st k d1 d2 -> grown_below st k' d2 d3 -> grown_below st k d1 d3.
Proof.
  intros Hk [S1 N1] [S2 N2]. split; [by etransitivity|]. intros i c Hc Hn.
  destruct (db_categories d2 !! i) as [c2|] eqn:E2.
  - assert (c2 = c) as -> by (eapply lookup_weaken in E2; [|exact S2]; congruence).
    destruct (N1 i c E2 Hn) as (Hst & m & Hm & Hl). split; [done|]. exists m. split; [by eapply spelled_mono | done].
  - destruct (N2 i c Hc E2) as (Hst & m & Hm & Hl). split; [done|]. exists m. split; [done | lia].
Qed.

(** Rows added deeper leave the question asked at a shallower node alone. *)
Lemma named_category_grown st k d d' parent n name :
  grown_below st k d d' -> spelled d st parent n -> (Datatypes.length n < k)%nat ->
  named_category d' st parent name = named_category d st parent name.
Proof.
  intros [Hs Hn] Hp Hk. apply named_category_agree, map_eq. intros i.
  destruct (db_categories d !! i) as [c|] eqn:E.
  - rewrite !map_lookup_filter, E. eapply lookup_weaken in E; [|exact Hs]. by rewrite E.
  - rewrite !map_lookup_filter, E. destruct (db_categories d' !! i) as [c|] eqn:E'; [|done]. cbn.
    rewrite option_guard_False; [done|]. intros (_ & Hpar & _). cbn in Hpar.
    destruct (Hn i c E' E) as (_ & m & Hm & Hl). rewrite Hpar in Hm.
    rewrite (spelled_fun _ _ _ _ _ Hm (spelled_mono _ _ _ _ _ Hs Hp)) in Hl. lia.
Qed.

(** What the walk leaves behind: only category rows are added, the leaf spells the
    path, and walking any spelling of it again finds the leaf and writes nothing. *)
Lemma ensure_nodes_ok st parent names w leaf w' n :
  spelled (wdb w) st parent n -> ensure_nodes st parent names w = (Ok leaf, w') ->
  wdb w' = set_categories (fun _ => db_categories (wdb w')) (wdb w) /\ wnow w' = wnow w /\
  grown_below st (Datatypes.length n) (wdb w) (wdb w') /\
  spelled (wdb w') st leaf (n ++ map ToLower names) /\
  forall names' v, map ToLower names' = map ToLower names -> wdb v = wdb w' ->
    ensure_nodes st parent names' v = (Ok leaf, v).
Proof.
  revert parent w n. induction names as [|name names IH]; intros parent w n Hp H; cbn [ensure_nodes] in H.
  { tx_inv. split; [by destruct (wdb _)|]. split; [done|]. split; [apply grown_below_refl|].
    split; [by rewrite app_nil_r|]. intros [|? ?] v E _; [done | discriminate]. }
  tx_next H for d by get_db_ok as [-> ->].
  (* the node found or made, in the database the rest of the walk starts from *)
  assert (X : exists e w1, ensure_nodes st (Some e) names w1 = (Ok leaf, w') /\
    wdb w1 = set_categories (fun _ => db_categories (wdb w1)) (wdb w) /\ wnow w1 = wnow w /\
    grown_below st (Datatypes.length n) (wdb w) (wdb w1) /\ spelled (wdb w1) st (Some e) (n ++ [ToLower name]) /\
    named_category (wdb w1) st parent name = Some e).
  { destruct (named_category (wdb w) st parent name) as [e|] eqn:En.
    - exists e, w. split; [done|]. split; [by destruct (wdb w)|]. split; [done|]. split; [apply grown_below_refl|].
      split; [|done]. apply named_category_some in En as (c & Hc & Hst & Hpar & Hname). cbn in *.
      rewrite <- Hname. econstructor; [done | done | by rewrite Hpar].
    - tx_next H for id by newID_ok as (ids & _ & ->). apply bind_ok in H as (? & w1 & H1 & H).
      apply insert_category_node_ok in H1 as (Hid & Hne & _ & ->). cbn in H. exists id. eexists. split; [exact H|]. cbn.
      assert (Hsub : db_categories (wdb w) ⊆ <[id:=mkCategory st parent name None (wnow w) (wnow w)]> (db_categories (wdb w)))
        by (by apply insert_subseteq).
      assert (Hp' : spelled (set_categories <[id:=mkCategory st parent name None (wnow w) (wnow w)]> (wdb w)) st parent n)
        by (by eapply spelled_mono).
      split; [done|]. split; [done|]. split; [split; [done|]|split].
      + intros i c. cbn. rewrite lookup_insert. case_decide; [|congruence]. intros [= <-] _. split; [done|]. by exists n.
      + apply (spelled_node _ _ id (mkCategory st parent name None (wnow w) (wnow w)));
          [apply lookup_insert_eq | done | exact Hp'].
      + unfold named_category. cbn. rewrite map_filter_insert_True by done. apply named_category_none in En.
        rewrite En. by rewrite insert_empty, map_to_list_singleton. }
  destruct X as (e & w1 & H1 & E1 & T1 & G1 & S1 & N1).
  destruct (IH _ _ _ S1 H1) as (E2 & T2 & G2 & S2 & A2). rewrite length_app in G2. cbn in G2.
  split; [rewrite E2, E1; done|]. split; [congruence|]. split; [by eapply grown_below_trans; [|exact G1|exact G2]; lia|].
  split; [rewrite <- app_assoc in S2; exact S2|].
  intros [|name' names'] v E Ev; [done|]. cbn in E. injection E as En Es. cbn [ensure_nodes].
  rewrite (bind_step _ get_db v _ _ eq_refl), Ev, (named_category_case _ _ _ _ _ En).
  rewrite (named_category_grown _ _ _ _ parent n name G2), N1; [by apply A2 | | lia].
  eapply spelled_mono; [|exact Hp]. apply G1.
Qed.

(** ** The pieces of a resolution *)

(** Filing a batch without a container: one batch row and one log row, and scoring. *)
Lemma createBatch_plain st nb w v w' :
  nb_ContainerLabel nb = None -> nb_ContainerType nb = None -> createBatch st nb w = (Ok v, w') ->
  wnow w' = wnow w /\ exists b logID,
    db_batches (wdb w) !! bv_ID v = None /\ b_ProductID b = nb_ProductID nb /\ b_LocationID b = nb_LocationID nb /\
    b_Quantity b = nb_Quantity nb /\
    (exists l, db_locations (wdb w) !! nb_LocationID nb = Some l /\ loc_StorageID l = st) /\
     inventory_part (wdb w') = inventory_part (set_logs (fun ls => ls ++
      [mkLogRow logID (nb_ProductID nb) (Some (bv_ID v)) (nb_Quantity nb) (nb_Reason nb) (nb_CreatedBy nb) (wnow w)])
      (set_batches <[bv_ID v := b]> (wdb w))).
Proof.
  unfold createBatch. intros Hl Ht H. rewrite Hl, Ht in H. cbn [bool_decide is_Some] in H.
  tx_next H by require_ok as [_ ->]. tx_next H by require_ok as [_ ->].
  tx_next H for id by newID_ok as (ids & _ & ->). tx_next H by requireProductInStorage_ok as (-> & _).
  tx_next H by requireSameStorage_ok as (-> & n & Hn & Hs). tx_next H by create_date_ok as ->.
  tx_next H by now_ok as [-> ->]. tx_next H by insert_batch_ok as [Hrow ->].
  tx_next H by ret_ok as [_ <-]. tx_next H by ret_ok as [_ <-].
  tx_next H by writeLog_ok as (logID & lids & _ & _ & ->). apply bind_ok in H as (? & w5 & Hbump & H).
  cbn [orb] in H. apply ret_ok in H as [<- <-].
  destruct (scoring_bumpForLedgerReason _ _ _ _ _ _ _ Hbump) as (E & Et & _). split; [exact Et|].
  assert (Hid : db_batches (wdb w) !! id = None) by (unfold batch_row_ok in Hrow; by bool_to_prop).
  match type of Hrow with batch_row_ok _ _ ?b = _ => exists b, logID end. cbn [bv_ID]. rewrite E. cbn in *.
  split; [exact Hid|]. do 3 (split; [done|]).
  split; [by eapply location_in_storage | done].
Qed.

Lemma resolve_catalog_ok inp c w id w' :
  resolve_catalog inp c w = (Ok id, w') ->
  wdb w' = set_catalog (fun _ => db_catalog (wdb w')) (wdb w) /\ wnow w' = wnow w /\
  db_catalog (wdb w) ⊆ db_catalog (wdb w') /\ is_Some (db_catalog (wdb w') !! id) /\
  match rp_AcceptedCatalogID inp with
  | Some accepted => id = accepted /\ db_catalog (wdb w') = db_catalog (wdb w)
  | None => exists entry row, rp_Catalog inp = Some entry /\ db_catalog (wdb w') !! id = Some row /\
      cp_NormalizedName row = NormalizeCatalogName (ncp_DisplayName entry)
  end.
Proof.
  unfold resolve_catalog. destruct (rp_AcceptedCatalogID inp) as [a|]; intros H.
  { tx_next H for d by get_db_ok as [-> ->]. tx_next H by require_ok as [Ha ->]. tx_inv1 H. subst. bool_to_prop.
    split_and!; [by destruct (wdb w') | done | done | done | done | done]. }
  tx_next H for entry by some_or_ok as [He ->]. apply bind_ok in H as (path & w1 & H1 & H).
  assert (w1 = w) as ->.
  { destruct c, (ncp_CategoryPath entry); try by tx_inv. apply bind_ok in H1 as (s & w2 & H2 & H1).
    unfold categoryPathOf in H2. by tx_inv. }
  apply bind_ok in H as (row & w2 & H2 & H). tx_inv1 H. subst.
  apply insertCatalogProduct_ok in H2 as (Hl & Hn & _ & Ht & D). cbn in Hn, D.
  assert (E : wdb w' = set_catalog (fun _ => db_catalog (wdb w')) (wdb w) /\ db_catalog (wdb w) ⊆ db_catalog (wdb w')).
  { destruct D as [[_ ->]|(_ & Hf & -> & _)]; (split; [by destruct (wdb w)|]); [done | by apply insert_subseteq]. }
  destruct E. split_and!; [done | done | done | by eauto |]. by eexists entry, _.
Qed.

(** A product a resolution created: the row it described, filed under the category it
    names or whose path it names. *)
Definition as_described (st : uuid) (inp : ResolvedProduct) (d : DB) (p : Product) : Prop :=
  prod_StorageID p = st /\ prod_Name p = TrimSpace (rp_Name inp) /\ prod_MinStock p = rp_MinStock inp /\
  prod_DefaultShelfLifeDays p = rp_DefaultShelfLifeDays inp /\ prod_ImageURL p = rp_ImageURL inp /\
  prod_IconName p = rp_IconName inp /\
  (match rp_CategoryPath inp with
   | None => prod_CategoryID p = rp_CategoryID inp
   | Some path => spelled d st (prod_CategoryID p) (map ToLower (path_names path))
   end) /\
  exists c row, prod_CatalogID p = Some c /\ db_catalog d !! c = Some row /\
    match rp_AcceptedCatalogID inp with
    | Some accepted => c = accepted
    | None => exists entry, rp_Catalog inp = Some entry /\ cp_NormalizedName row = NormalizeCatalogName (ncp_DisplayName entry)
    end.

Lemma createProduct_columns st np w r w' :
  createProduct st np w = (Ok r, w') ->
  r.2 = mkProduct st (np_Name np) (np_CategoryID np) (np_CatalogID np)
    (if String.eqb (np_ItemType np) "" then LongShelfLife else np_ItemType np)
    (np_DefaultShelfLifeDays np) (np_MinStock np) (np_ImageURL np) (np_IconName np) (wnow w) (wnow w) /\
  wnow w' = wnow w.
Proof.
  unfold createProduct. intros H. tx_next H for id by newID_ok as (ids & _ & ->).
  tx_next H by category_guard_ok as ->. tx_next H for d by get_db_ok as [-> ->]. tx_next H for t by now_ok as [-> ->].
  tx_next H by require_ok as [_ ->]. tx_next H by modify_ok as ->. tx_inv1 H. by subst.
Qed.

Lemma createResolvedProduct_ok st inp w p w' :
  createResolvedProduct st inp w = (Ok p, w') ->
  exists row, db_products (wdb w) !! p = None /\ as_described st inp (wdb w') row /\ wnow w' = wnow w /\
    db_categories (wdb w) ⊆ db_categories (wdb w') /\ db_catalog (wdb w) ⊆ db_catalog (wdb w') /\
    (rp_CategoryPath inp = None -> db_categories (wdb w') = db_categories (wdb w)) /\
    (forall a, rp_AcceptedCatalogID inp = Some a -> db_catalog (wdb w') = db_catalog (wdb w)) /\
    wdb w' = set_products <[p := row]> (set_catalog (fun _ => db_catalog (wdb w'))
               (set_categories (fun _ => db_categories (wdb w')) (wdb w))).
Proof.
  unfold createResolvedProduct. intros H. apply bind_ok in H as (c & w1 & H1 & H).
  apply bind_ok in H as (cat & w2 & H2 & H). apply bind_ok in H as (r & w3 & H3 & H). tx_inv1 H. subst.
  assert (X1 : wdb w1 = set_categories (fun _ => db_categories (wdb w1)) (wdb w) /\ wnow w1 = wnow w /\
    db_categories (wdb w) ⊆ db_categories (wdb w1) /\
    match rp_CategoryPath inp with
    | None => c = rp_CategoryID inp /\ db_categories (wdb w1) = db_categories (wdb w)
    | Some path => spelled (wdb w1) st c (map ToLower (path_names path))
    end).
  { destruct (rp_CategoryPath inp) as [path|].
    - apply (ensure_nodes_ok _ _ _ _ _ _ []) in H1 as (E & T & [G _] & S & _); [|constructor]. done.
    - tx_inv1 H1. subst. split_and!; [by destruct (wdb w1) | done..]. }
  destruct X1 as (E1 & T1 & G1 & C1). apply resolve_catalog_ok in H2 as (E2 & T2 & G2 & [crow Hc] & C2).
  apply createProduct_columns in H3 as Hr. destruct Hr as [Hr T3].
  apply createProduct_ok in H3 as (ids & _ & Hn & _ & _ & ->). cbn [wdb wnow] in *.
  assert (Ec : db_categories (wdb w2) = db_categories (wdb w1)) by (by rewrite E2).
  assert (Ek : db_catalog (wdb w1) = db_catalog (wdb w)) by (by rewrite E1).
  assert (Ep : db_products (wdb w2) = db_products (wdb w)) by (by rewrite E2, E1).
  exists r.2. rewrite Ep in Hn. cbn [db_categories db_catalog set_products].
  split; [done|]. split; [|split; [congruence|]].
  - rewrite Hr. unfold as_described. cbn. do 6 (split; [done|]). split.
    + destruct (rp_CategoryPath inp); [|apply C1]. eapply spelled_mono; [|exact C1]. cbn. by rewrite Ec.
    + exists cat, crow. split; [done|]. split; [done|].
      destruct (rp_AcceptedCatalogID inp); [apply C2|]. destruct C2 as (entry & row & He & Hrow & Hnn).
      exists entry. split; [done|]. congruence.
  - rewrite Ec. split; [done|]. split; [by rewrite <- Ek|]. split; [|split].
    + intros E. rewrite E in C1. apply C1.
    + intros a E. rewrite E in C2. destruct C2 as [_ ->]. exact Ek.
    + rewrite <- Ec, E2, E1. done.
Qed.

(** ** Scoring writes one contribution *)

Lemma frames_contributions_progress st u xp t : frames db_contributions (bumpProgress st u xp t).
Proof. unfold bumpProgress. frame_walk. Qed.
#[export] Hint Resolve frames_contributions_progress : frames.

Lemma frames_contributions_quests st u k t : frames db_contributions (advanceQuests st u k t).
Proof. unfold advanceQuests, advanceOneQuest. frame_walk. Qed.
#[export] Hint Resolve frames_contributions_quests : frames.

Lemma frames_contributions_bump st u r b : frames db_contributions (bumpForLedgerReason st u r b).
Proof. unfold bumpForLedgerReason. frame_walk. Qed.
Lemma frames_contributions_evaluate st u k r : frames db_contributions (evaluateContributionAchievements st u k r).
Proof.
  unfold evaluateContributionAchievements, checkCurator, checkCartographer, locationDepth, unlockAchievement. frame_walk.
Qed.
#[export] Hint Resolve frames_contributions_bump frames_contributions_evaluate : frames.

Lemma contributions_update_container f st c d : db_contributions (update_container f st c d) = db_contributions d.
Proof. unfold update_container. destruct (db_containers d !! c); [|done]. by case_match. Qed.

Lemma frames_contributions_createBatch st nb : frames db_contributions (createBatch st nb).
Proof.
  unfold createBatch, upsertBatchContainerLabel, setBatchContainerType, insert_batch, writeLog. frame_walk;
    apply frames_modify; intros ?; apply contributions_update_container.
Qed.

(** The contributions a cleared line is worth. *)
Definition earned (st : uuid) (u : option uuid) (previous : string) (ref t : Z) (l : list ContributionEvent) : Prop :=
  match u with
  | Some u => if String.eqb previous ItemAmbiguous
              then exists id, l = [mkContribution id st u KindAmbiguityResolved (Some ref) t] else l = []
  | None => l = []
  end.

Lemma reward_resolution_ok st u previous ref w x w' :
  reward_resolution st u previous ref w = (Ok x, w') ->
  inventory_part (wdb w') = inventory_part (wdb w) /\
  exists l, db_contributions (wdb w') = db_contributions (wdb w) ++ l /\ earned st u previous ref (wnow w) l.
Proof.
  intros H. split.
  { assert (S : scoring_only (reward_resolution st u previous ref)) by (unfold reward_resolution; scoring_walk).
    apply (S _ _ _ H). }
  unfold reward_resolution, earned in *. destruct u as [u|]; [|tx_inv; exists []; by rewrite app_nil_r].
  destruct (String.eqb previous ItemAmbiguous); [|tx_inv; exists []; by rewrite app_nil_r].
  unfold recordContribution in H. tx_next H for id by newID_ok as (ids & _ & ->).
  tx_next H for d by get_db_ok as [-> ->]. tx_next H by require_ok as [_ ->]. tx_next H for t by now_ok as [-> ->].
  tx_next H by modify_ok as ->. tx_next H for c by time_Now_ok as [-> ->].
  apply bind_ok in H as (? & w1 & H1 & H). apply bind_ok in H as (? & w2 & H2 & H).
  apply frames_contributions_progress in H1. apply frames_contributions_quests in H2.
  apply frames_contributions_evaluate in H. rewrite H, H2, H1. cbn. eexists. split; [reflexivity|]. by eexists.
Qed.

(** ** The pieces of the main transaction *)

Lemma resolve_product_ok st inp w p isNew w' :
  resolve_product st inp w = (Ok (p, isNew), w') ->
  wnow w' = wnow w /\ db_contributions (wdb w') = db_contributions (wdb w) /\
  db_categories (wdb w) ⊆ db_categories (wdb w') /\ db_catalog (wdb w) ⊆ db_catalog (wdb w') /\
  match rl_ProductID inp, rl_NewProduct inp with
  | Some q, _ => p = Some q /\ isNew = false /\ w' = w /\ is_Some (product_in_storage (wdb w) st q)
  | None, Some np => exists q row, p = Some q /\ isNew = true /\ db_products (wdb w) !! q = None /\
      as_described st np (wdb w') row /\
      wdb w' = set_products <[q := row]> (set_catalog (fun _ => db_catalog (wdb w'))
               (set_categories (fun _ => db_categories (wdb w')) (wdb w)))
  | None, None => p = None /\ isNew = false /\ w' = w
  end.
Proof.
  unfold resolve_product. intros H. destruct (rl_ProductID inp) as [q|].
  { tx_next H by requireProductInStorage_ok as (-> & row & Hr & Hs). tx_inv1 H. simplify_eq.
    do 4 (split; [done|]). do 3 (split; [done|]). exists row. by apply product_in_storage_some. }
  destruct (rl_NewProduct inp) as [np|].
  - apply bind_ok in H as (q & w1 & H1 & H). tx_inv1 H. simplify_eq.
    apply createResolvedProduct_ok in H1 as (row & Hn & Hd & Ht & Hc & Hk & _ & _ & E).
    split; [done|]. split; [by rewrite E|]. split; [done|]. split; [done|]. by exists q, row.
  - tx_inv1 H. by simplify_eq.
Qed.

Lemma resolve_batch_ok st inp p u w bid w' :
  resolve_batch st inp p u w = (Ok bid, w') ->
  wnow w' = wnow w /\ db_contributions (wdb w') = db_contributions (wdb w) /\ good_step (wdb w) (wdb w') /\
  (rl_Quantity inp <= 0 -> bid = None /\ w' = w) /\
  (0 < rl_Quantity inp -> exists q l id b logID, p = Some q /\ rl_LocationID inp = Some l /\ bid = Some id /\
     db_batches (wdb w) !! id = None /\ b_ProductID b = q /\ b_LocationID b = l /\ b_Quantity b = rl_Quantity inp /\
     inventory_part (wdb w') = inventory_part (set_logs (fun ls => ls ++
       [mkLogRow logID q (Some id) (rl_Quantity inp) ReasonPurchase u (wnow w)]) (set_batches <[id := b]> (wdb w)))).
Proof.
  unfold resolve_batch. intros H. destruct (Z.ltb_spec 0 (rl_Quantity inp)) as [Hq|Hq].
  - tx_next H for q by some_or_ok as [-> ->]. tx_next H for l by some_or_ok as [Hl ->].
    apply bind_ok in H as (v & w1 & H1 & H). tx_inv1 H. subst.
    pose proof (frames_contributions_createBatch _ _ _ _ _ H1) as Ec. pose proof (createBatch_good _ _ _ _ _ H1) as G.
    apply createBatch_plain in H1 as (Et & b & logID & Hn & E1 & E2 & E3 & _ & E); [|done..]. cbn in *.
    do 3 (split; [done|]). split; [lia|]. intros _. by exists q, l, (bv_ID v), b, logID.
  - tx_inv1 H. subst. do 2 (split; [done|]). split; [done|]. split; [done|]. lia.
Qed.

Lemma resolve_product_good st inp w r w' :
  resolve_product st inp w = (Ok r, w') ->
  good_step (wdb w) (wdb w') /\ db_items (wdb w') = db_items (wdb w) /\ db_lists (wdb w') = db_lists (wdb w) /\
  db_batches (wdb w') = db_batches (wdb w) /\ db_logs (wdb w') = db_logs (wdb w) /\
  db_locations (wdb w') = db_locations (wdb w) /\ db_jobs (wdb w') = db_jobs (wdb w).
Proof.
  destruct r as [p isNew]. intros H. apply resolve_product_ok in H as (_ & _ & _ & _ & D).
  destruct (rl_ProductID inp); [destruct D as (_ & _ & -> & _); by split_and!|].
  destruct (rl_NewProduct inp); [|destruct D as (_ & _ & ->); by split_and!].
  destruct D as (q & row & _ & _ & Hn & _ & E). rewrite E. split; [|done].
  etransitivity; [|apply good_step_new_product; exact Hn]. by apply good_step_inventory.
Qed.

Lemma ResolveShoppingListItem_ok st id inp u w r w' :
  ResolveShoppingListItem st id inp u w = (Ok r, w') ->
  exists i0 i p w1 w2 w3,
    validate inp = None /\
    item_in_storage (wdb w) st id = Some i0 /\ item_Status i0 ≠ ItemResolved /\
    resolve_product st inp w = (Ok (p, rr_ProductCreated r), w1) /\
    resolve_batch st inp p u w1 = (Ok (rr_BatchID r), w2) /\
    db_items (wdb w2) !! id = Some i /\ rr_Item r = resolved p (rl_Quantity inp) i /\
    w3 = with_db (set_items <[id := rr_Item r]> (wdb w2)) w2 /\
    reward_resolution st u (item_Status i0) (default id p) w3 = (Ok tt, w').
Proof.
  unfold ResolveShoppingListItem. intros H. destruct (validate inp) as [e|]; [by apply throw_ok in H|].
  tx_inv1 H. tx_next H for s by lock_open_item_ok as (-> & i0 & Hi & <- & Hs).
  apply bind_ok in H as ([p isNew] & w1 & H1 & H). apply bind_ok in H as (bid & w2 & H2 & H).
  tx_next H for item by update_item_ok as (i & Hi' & -> & _ & ->). apply bind_ok in H as ([] & w4 & H4 & H).
  tx_inv1 H. subst. cbn in *. by eexists i0, i, p, w1, w2, _.
Qed.

Lemma ResolveShoppingListItem_good st id inp u w r w' :
  ResolveShoppingListItem st id inp u w = (Ok r, w') -> good_step (wdb w) (wdb w').
Proof.
  intros H. apply ResolveShoppingListItem_ok in H as (i0 & i & p & w1 & w2 & w3 & _ & _ & _ & H1 & H2 & _ & _ & -> & H4).
  apply resolve_product_good in H1 as [G1 _]. apply resolve_batch_ok in H2 as (_ & _ & G2 & _).
  apply reward_resolution_ok in H4 as (E & _). etransitivity; [exact G1|]. etransitivity; [exact G2|].
  etransitivity; [|by apply good_step_scoring]. by apply good_step_inventory.
Qed.

(** What the tables of the database owe to its inventory part. *)
Lemma inventory_part_tables d d' :
  inventory_part d' = inventory_part d ->
  db_items d' = db_items d /\ db_lists d' = db_lists d /\ db_products d' = db_products d /\
  db_categories d' = db_categories d /\ db_catalog d' = db_catalog d /\ db_batches d' = db_batches d /\
  db_logs d' = db_logs d /\ db_locations d' = db_locations d /\ db_jobs d' = db_jobs d.
Proof.
  intros E. split_and!.
  - exact (f_equal db_items E).
  - exact (f_equal db_lists E).
  - exact (f_equal db_products E).
  - exact (f_equal db_categories E).
  - exact (f_equal db_catalog E).
  - exact (f_equal db_batches E).
  - exact (f_equal db_logs E).
  - exact (f_equal db_locations E).
  - exact (f_equal db_jobs E).
Qed.

(** The stock a resolution of [q] units adds: nothing, or one batch and its log row. *)
Definition stocked (inp : ResolveLine) (p u : option uuid) (t : Z) (bid : option uuid) (d d' : DB) : Prop :=
  if 0 <? rl_Quantity inp then
    exists prod l id b logID, p = Some prod /\ rl_LocationID inp = Some l /\ bid = Some id /\
      db_batches d !! id = None /\ b_ProductID b = prod /\ b_LocationID b = l /\ b_Quantity b = rl_Quantity inp /\
      db_batches d' = <[id := b]> (db_batches d) /\
      db_logs d' = db_logs d ++ [mkLogRow logID prod (Some id) (rl_Quantity inp) ReasonPurchase u t]
  else bid = None /\ db_batches d' = db_batches d /\ db_logs d' = db_logs d.

(** The product a resolution names, creates, or does without. *)
Definition products_follow (st : uuid) (inp : ResolveLine) (p : option uuid) (isNew : bool) (d d' : DB) : Prop :=
  match rl_ProductID inp, rl_NewProduct inp with
  | Some q, _ => p = Some q /\ isNew = false /\ is_Some (product_in_storage d st q) /\ db_products d' = db_products d
  | None, Some np => exists q row, p = Some q /\ isNew = true /\ db_products d !! q = None /\ as_described st np d' row /\
      db_products d' = <[q := row]> (db_products d)
  | None, None => p = None /\ isNew = false /\ db_products d' = db_products d
  end.

Lemma as_described_tables st np d d' row :
  db_categories d' = db_categories d -> db_catalog d' = db_catalog d -> as_described st np d row -> as_described st np d' row.
Proof.
  intros Ec Ek. unfold as_described. rewrite Ek. intros (A1 & A2 & A3 & A4 & A5 & A6 & A7 & A8).
  do 6 (split; [done|]). split; [|exact A8]. destruct (rp_CategoryPath np); [|done].
  eapply spelled_mono; [|exact A7]. by rewrite Ec.
Qed.

(** ** What holds of every resolution *)

(** C11: Resolving a line touches exactly that line: it was open, in a list of the
    storage, and is now resolved with the confirmed product and quantity, while every
    other line and every list is as it was; the product is the one named, the one
    created as described (linked to the accepted or the described catalog row, and
    filed below the path it names), or none, and no other product changes; a positive
    quantity is exactly one new batch and one purchase row, no quantity is no stock;
    categories and the catalog only grow, locations and jobs stay; a cleared ambiguous
    line is one contribution of the user; shelves and ledger still agree; and a second
    resolution of the line, whatever it names, is answered ErrConflict. *)
Theorem ResolveShoppingListItem_spec st id inp u w r w' :
  ResolveShoppingListItem st id inp u w = (Ok r, w') ->
  exists i p,
    (item_in_storage (wdb w) st id = Some i /\ item_Status i ≠ ItemResolved /\
     rr_Item r = resolved p (rl_Quantity inp) i) /\
    (db_items (wdb w') = <[id := rr_Item r]> (db_items (wdb w)) /\ db_lists (wdb w') = db_lists (wdb w)) /\
    products_follow st inp p (rr_ProductCreated r) (wdb w) (wdb w') /\
    stocked inp p u (wnow w) (rr_BatchID r) (wdb w) (wdb w') /\
    (db_categories (wdb w) ⊆ db_categories (wdb w') /\ db_catalog (wdb w) ⊆ db_catalog (wdb w') /\
     db_locations (wdb w') = db_locations (wdb w) /\ db_jobs (wdb w') = db_jobs (wdb w)) /\
    (exists l, db_contributions (wdb w') = db_contributions (wdb w) ++ l /\
       earned st u (item_Status i) (default id p) (wnow w) l) /\
    (consistent (wdb w) -> consistent (wdb w')) /\
    forall inp2 u2, validate inp2 = None -> ResolveShoppingListItem st id inp2 u2 w' = (Fail ErrConflict, w').
Proof.
  intros H. pose proof (ResolveShoppingListItem_good _ _ _ _ _ _ _ H) as G.
  apply ResolveShoppingListItem_ok in H as (i & i' & p & w1 & w2 & w3 & _ & Hi & Hs & H1 & H2 & Hi' & Er & -> & H4).
  apply resolve_product_good in H1 as P1. destruct P1 as (_ & I1 & L1 & B1 & G1 & O1 & J1).
  apply resolve_product_ok in H1 as (T1 & C1 & K1 & N1 & D1).
  apply resolve_batch_ok in H2 as (T2 & C2 & _ & Z2 & S2).
  assert (X2 : (db_items (wdb w2) = db_items (wdb w1) /\ db_lists (wdb w2) = db_lists (wdb w1) /\
      db_products (wdb w2) = db_products (wdb w1) /\ db_categories (wdb w2) = db_categories (wdb w1) /\
      db_catalog (wdb w2) = db_catalog (wdb w1) /\ db_locations (wdb w2) = db_locations (wdb w1) /\
      db_jobs (wdb w2) = db_jobs (wdb w1)) /\
      stocked inp p u (wnow w1) (rr_BatchID r) (wdb w1) (wdb w2)).
  { unfold stocked. destruct (Z.ltb_spec 0 (rl_Quantity inp)) as [Hq|Hq].
    - destruct (S2 Hq) as (q & l & bid & b & logID & E1 & E2 & E3 & E4 & E5 & E6 & E7 & E).
      apply inventory_part_tables in E as (A1 & A2 & A3 & A4 & A5 & A6 & A7 & A8 & A9). cbn in A1, A2, A3, A4, A5, A6, A7, A8, A9.
      split; [by split_and!|]. by exists q, l, bid, b, logID.
    - destruct (Z2 Hq) as [-> ->]. by split_and!. }
  destruct X2 as ((I2 & L2 & P2 & K2 & N2 & O2 & J2) & Hst).
  apply reward_resolution_ok in H4 as (E4 & contributions & C4 & He).
  apply inventory_part_tables in E4 as (I4 & L4 & P4 & K4 & N4 & B4 & G4 & O4 & J4).
  cbn [wdb with_db set_items db_items db_lists db_products db_categories db_catalog db_batches db_logs db_locations
    db_jobs db_contributions wnow] in *.
  assert (i' = i) as ->.
  { apply item_in_storage_some in Hi as [Hi _]. rewrite I2, I1, Hi in Hi'. congruence. }
  exists i, p. split; [by split_and!|]. split; [split; [by rewrite I4, I2, I1 | by rewrite L4, L2, L1]|].
  split; [|split; [|split; [|split; [|split]]]].
  - unfold products_follow. rewrite P4, P2. destruct (rl_ProductID inp) as [q|].
    + destruct D1 as (-> & -> & -> & Hq). done.
    + destruct (rl_NewProduct inp) as [np|]; [|by destruct D1 as (-> & -> & ->)].
      destruct D1 as (q & row & -> & -> & Hn & Hd & E). exists q, row. do 3 (split; [done|]). split; [|by rewrite E].
      eapply as_described_tables; [| | exact Hd]; congruence.
  - unfold stocked in *. rewrite B4, G4, <- T1, <- B1, <- G1. exact Hst.
  - rewrite K4, K2, N4, N2, O4, O2, O1, J4, J2, J1. done.
  - exists contributions. rewrite C4, C2, C1. split; [done|]. by rewrite <- T1, <- T2.
  - by apply good_step_consistent.
  - intros inp2 u2 Hv. unfold ResolveShoppingListItem. rewrite Hv. unfold inTx.
    assert (Hc : lock_open_item st id w' = (Fail ErrConflict, w')).
    { apply (lock_open_item_conflict _ _ _ (rr_Item r)); [|by rewrite Er].
      apply item_in_storage_some in Hi as (_ & l & Hl & Hls). apply item_in_storage_some.
      rewrite I4, L4, L2, L1. split; [apply lookup_insert_eq|]. exists l. by rewrite Er. }
    rewrite (bind_abort _ _ _ _ _ Hc). by destruct w'.
Qed.

(** A typed list of the sample household, and its second line resolved as a new
    product on a new category path, two units of it put in the kitchen. *)
Definition list_world : World :=
  (CreateShoppingList 1 SourceText (Some 10)
     [mkNewItem "2x Beans" ItemExactMatch (Some 30); mkNewItem "soap" ItemAmbiguous None] sample_world).2.

Definition soap : ResolvedProduct :=
  mkResolvedProduct " Soap " "non_perishable" 1 None (Some "House > Bath") None None None None
    (Some (mkNewCatalogProduct "Soap" None "" None None None None)).

Definition soap_line : ResolveLine := mkResolveLine None (Some soap) 2 (Some 20).

Lemma ResolveShoppingListItem_spec_witness :
  exists r w', ResolveShoppingListItem 1 102 soap_line (Some 10) list_world = (Ok r, w') /\
    rr_ProductCreated r = true /\ db_items (wdb w') !! 101 = db_items (wdb list_world) !! 101 /\
    consistent (wdb w') /\
    ResolveShoppingListItem 1 102 soap_line None w' = (Fail ErrConflict, w').
Proof.
  assert (V : exists v, (ResolveShoppingListItem 1 102 soap_line (Some 10) list_world).1 = Ok v).
  { eexists. vm_compute. reflexivity. }
  destruct (ResolveShoppingListItem 1 102 soap_line (Some 10) list_world) as [r w'] eqn:E.
  destruct V as (v & V). cbn in V. subst r. exists v, w'. split; [done|].
  destruct (ResolveShoppingListItem_spec _ _ _ _ _ _ _ E) as (i & p & _ & (Ei & _) & P & _ & _ & _ & C & A).
  unfold products_follow in P. cbn in P. destruct P as (q & row & _ & Hnew & _).
  split; [done|]. split; [rewrite Ei; by apply lookup_insert_ne|]. split; [|by apply A].
  apply C. apply (good_step_consistent sample_db); [|exact sample_consistent].
  apply good_step_inventory. vm_compute. reflexivity.
Defined.
