(* ===== verification/CategoryPath.v ===== *)
(** * Category paths read back

    A path such as "Food > Dairy" names a category; [categoryPathOf] prints the path
    of a category and [ensureCategoryPath] finds or makes the category of a path.
    The lemmas say when splitting undoes joining and what the printed chain of a
    node is, and the theorem puts the two operations together. *)

From S2P Require Import Prelude Gamification Text Db Sample Expiry Tree Progress ShelfLife Containers Batches Ledger StockSteps Stocktake Jobs Consumption Locations Products Ingestion EditSteps IngestionSpec Shopping ShoppingSpec.

#[local] Open Scope string_scope.
#[local] Open Scope list_scope.
#[local] Open Scope Z_scope.

(** ** Names that survive splitting and trimming *)

Definition gt : ascii := ">"%char.

(** No space at either end, no separator inside, not empty. *)
Definition edge (l : list ascii) : Prop := exists c k, l = c :: k /\ is_space c = false.

Definition neat (w : list ascii) : Prop := edge w /\ edge (reverse w) /\ gt ∉ w.

Lemma drop_edge l : edge l -> drop_spaces l = l.
Proof. intros (c & k & -> & E). cbn. by rewrite E. Qed.

Lemma edge_app l k : edge l -> edge (l ++ k).
Proof. intros (c & m & -> & E). by eexists c, (m ++ k). Qed.

Lemma drop_spaces_all p l : Forall (fun c => is_space c = true) p -> drop_spaces (p ++ l) = drop_spaces l.
Proof. induction 1 as [|c p E _ IH]; [done|]. cbn. by rewrite E. Qed.

(** Padding is trimmed off. *)
Lemma trim_padded p w q :
  Forall (fun c => is_space c = true) p -> Forall (fun c => is_space c = true) q -> edge w -> edge (reverse w) ->
  trim (p ++ w ++ q) = w.
Proof.
  intros Hp Hq Hw Hr. unfold trim. rewrite drop_spaces_all, (drop_edge (w ++ q)) by (done || by apply edge_app).
  rewrite reverse_app, drop_spaces_all, (drop_edge (reverse w)) by (done || by apply Forall_reverse). apply reverse_involutive.
Qed.

Lemma split_from_skip w acc l : gt ∉ w -> split_from gt acc (w ++ l) = split_from gt (reverse w ++ acc) l.
Proof.
  revert acc. induction w as [|c w IH]; intros acc Hw; [done|]. cbn [app split_from].
  apply not_elem_of_cons in Hw as [Hc Hw]. rewrite (proj2 (Ascii.eqb_neq c gt)) by done.
  rewrite IH by done. by rewrite reverse_cons, <- app_assoc.
Qed.

Definition separator : list ascii := [" "%char; gt; " "%char].

Definition blanks (n : nat) : list ascii := repeat " "%char n.

Lemma blanks_spaces n : Forall (fun c => is_space c = true) (blanks n).
Proof. induction n; by constructor. Qed.

(** The names of a joined path, read back. *)
Lemma split_join ws n :
  (n <= 1)%nat -> Forall neat ws -> ws ≠ [] ->
  map trim (split_from gt (blanks n) (join_bytes separator ws)) = ws.
Proof.
  intros Hn Hw Hne. revert n Hn. induction Hw as [|w ws (E1 & E2 & Hgt) Hws IH]; intros n Hn; [done|].
  assert (T : forall q, Forall (fun c => is_space c = true) q -> trim (blanks n ++ w ++ q) = w).
  { intros q Hq. apply trim_padded; [apply blanks_spaces | done..]. }
  assert (B : reverse (blanks n) = blanks n) by (destruct n as [|[|]]; [done | done | lia]).
  destruct ws as [|w2 ws].
  - cbn [join_bytes]. rewrite <- (app_nil_r w) at 1. rewrite split_from_skip by done. cbn [split_from map].
    rewrite reverse_app, reverse_involutive, B. f_equal. rewrite <- (T []) at 2 by done. by rewrite app_nil_r.
  - cbn [join_bytes]. rewrite split_from_skip by done. unfold separator at 1. cbn [app split_from].
    change (Ascii.eqb " "%char gt) with false. change (Ascii.eqb gt gt) with true. cbn iota.
    change (map trim (?x :: ?y)) with (trim x :: map trim y). f_equal.
    + rewrite reverse_cons, reverse_app, reverse_involutive, B, <- app_assoc. apply T. by repeat constructor.
    + cbn [split_from]. change (Ascii.eqb " "%char gt) with false. cbn iota. apply (IH ltac:(done) 1%nat). lia.
Qed.

(** ** Letter case *)

Lemma lower_space c : is_space (lower c) = is_space c.
Proof. by destruct c as [[] [] [] [] [] [] [] []]. Qed.

Lemma lower_gt c : lower c = gt -> c = gt.
Proof. by destruct c as [[] [] [] [] [] [] [] []]. Qed.

Lemma ToLower_bytes a b : ToLower a = ToLower b <-> map lower (bytes a) = map lower (bytes b).
Proof.
  unfold ToLower. split; [|congruence]. intros E. rewrite <- (bytes_text (map lower (bytes a))), E. apply bytes_text.
Qed.

Lemma edge_lower l l' : map lower l' = map lower l -> edge l -> edge l'.
Proof.
  intros E (c & k & -> & Hc). destruct l' as [|c' k']; [done|]. injection E as Ec _. exists c', k'. split; [done|].
  by rewrite <- lower_space, Ec, lower_space.
Qed.

Lemma neat_lower w w' : map lower w' = map lower w -> neat w -> neat w'.
Proof.
  intros E (H1 & H2 & H3). split; [by eapply edge_lower|]. split.
  - apply (edge_lower (reverse w)); [|done]. rewrite !reverse_fmap || rewrite <- !fmap_reverse || idtac.
    change (lower <$> reverse w' = lower <$> reverse w). rewrite !fmap_reverse. by f_equal.
  - intros Hin. apply H3. apply (list_elem_of_fmap_2 lower) in Hin. change (lower gt) with gt in Hin.
    change (lower <$> w') with (map lower w') in Hin. rewrite E in Hin.
    apply list_elem_of_fmap in Hin as (c & Ec & Hin). by rewrite (lower_gt c) in Hin.
Qed.

(** ** The names of a path *)

Definition neat_name (s : string) : Prop := neat (bytes s).

Lemma split_no_gt acc l : gt ∉ acc -> Forall (fun w => gt ∉ w) (split_from gt acc l).
Proof.
  revert acc. induction l as [|c l IH]; intros acc Ha; cbn [split_from].
  - constructor; [by rewrite elem_of_reverse | done].
  - destruct (Ascii.eqb_spec c gt) as [->|Hc].
    + constructor; [by rewrite elem_of_reverse | apply IH, not_elem_of_nil].
    + apply IH. by apply not_elem_of_cons.
Qed.

Lemma trim_neat l : gt ∉ l -> trim l ≠ [] -> neat (trim l).
Proof.
  intros Hg Hne. split; [|split].
  - destruct (trim l) as [|c k] eqn:E; [done|]. exists c, k. split; [done|].
    apply (drop_spaces_head (trim l) c k). by rewrite trim_head.
  - unfold trim in *. rewrite reverse_involutive.
    destruct (drop_spaces (reverse (drop_spaces l))) as [|c k] eqn:E; [done|]. exists c, k. split; [done|].
    by eapply drop_spaces_head.
  - destruct (trim_split l) as (k1 & k2 & E & _). intros Hin. apply Hg. rewrite E, !elem_of_app. auto.
Qed.

Lemma path_names_neat path : Forall neat_name (path_names path).
Proof.
  unfold path_names. apply Forall_forall. intros s Hs. apply list_elem_of_fmap in Hs as (w & -> & Hw).
  apply list_elem_of_filter in Hw as [Hne Hw]. apply list_elem_of_fmap in Hw as (l & -> & Hl).
  unfold neat_name. rewrite bytes_text. apply trim_neat; [|done].
  assert (F : Forall (fun w => gt ∉ w) (split_from gt [] (bytes path))) by (apply split_no_gt, not_elem_of_nil).
  rewrite Forall_forall in F. by apply F.
Qed.

Lemma map_text_bytes l : map text (map bytes l) = l.
Proof. induction l as [|s l IH]; [done|]. cbn. by rewrite text_bytes, IH. Qed.

Lemma neat_nonempty w : neat w -> w ≠ [].
Proof. by intros ((c & k & -> & _) & _). Qed.

(** Splitting undoes joining. *)
Lemma path_names_join ns : Forall neat_name ns -> path_names (Join ns " > ") = ns.
Proof.
  intros H. unfold path_names, Join. rewrite bytes_text. destruct ns as [|n ns]; [done|].
  change (bytes " > ") with separator. change ">"%char with gt. change (@nil ascii) with (blanks 0).
  assert (Hn : Forall neat (map bytes (n :: ns))) by (by apply Forall_fmap).
  rewrite split_join by (done || lia).
  rewrite filter_all_true; [apply map_text_bytes|]. intros w Hw. rewrite Forall_forall in Hn. by apply neat_nonempty, Hn.
Qed.

Lemma neat_names_case ns ns' : map ToLower ns' = map ToLower ns -> Forall neat_name ns -> Forall neat_name ns'.
Proof.
  intros E H. revert ns' E. induction H as [|n ns Hn _ IH]; intros [|n' ns'] E; try done. injection E as En E.
  constructor; [|by apply IH]. apply (neat_lower (bytes n)); [by apply ToLower_bytes | exact Hn].
Qed.

(** ** The printed chain *)

Lemma join_lower sep l : map lower (join_bytes sep l) = join_bytes (map lower sep) (map (map lower) l).
Proof.
  induction l as [|w l IH]; [done|]. destruct l as [|w2 l]; [done|].
  change (join_bytes sep (w :: w2 :: l)) with (w ++ sep ++ join_bytes sep (w2 :: l)).
  rewrite !map_app, IH. done.
Qed.

Lemma Join_case ns ns' : map ToLower ns' = map ToLower ns -> ToLower (Join ns' " > ") = ToLower (Join ns " > ").
Proof.
  intros E. apply ToLower_bytes. unfold Join. rewrite !bytes_text, !join_lower. f_equal. rewrite !map_map.
  revert ns' E. induction ns as [|n ns IH]; intros [|n' ns'] E; try done. injection E as En E. cbn.
  f_equal; [by apply ToLower_bytes | by apply IH].
Qed.

Definition chain_names (d : DB) (fuel : nat) (id : uuid) : list string :=
  reverse (omap (fun c => cat_Name <$> db_categories d !! c) (ancestors fuel (tree_nodes treeCategories d) id)).

Lemma chain_names_spelled d st p names :
  spelled d st p names -> forall fuel id, p = Some id -> (Datatypes.length names <= fuel)%nat ->
  map ToLower (chain_names d fuel id) = names.
Proof.
  induction 1 as [|i c names Hc _ Hp IH]; intros fuel id E Hf; [done|]. injection E as <-.
  rewrite length_app in Hf. cbn in Hf. destruct fuel as [|fuel]; [lia|]. unfold chain_names. cbn [ancestors tree_nodes].
  rewrite lookup_fmap, Hc. cbn [fmap option_fmap option_map category_node n_parent omap list_omap].
  rewrite Hc. cbn [fmap option_fmap option_map]. rewrite reverse_cons, map_app. f_equal.
  destruct (cat_ParentID c) as [p|]; [apply (IH fuel p); [done | lia]|]. by inversion Hp.
Qed.

(** ** The theorem *)

(** C39: The category a path is filed under spells that path from the root, letter case
    aside, and is found or made by adding category rows of the storage and nothing
    else; asking again for the path in any letter case or spacing returns the same
    category and writes nothing; and, down to the 65 levels the store walks, the path
    printed for the category leads back to it, again writing nothing. *)
Theorem ensureCategoryPath_spec st path w leaf w' :
  ensureCategoryPath st path w = (Ok leaf, w') ->
  (wdb w' = set_categories (fun _ => db_categories (wdb w')) (wdb w) /\ db_categories (wdb w) ⊆ db_categories (wdb w') /\
   forall i c, db_categories (wdb w') !! i = Some c -> db_categories (wdb w) !! i = None -> cat_StorageID c = st) /\
  spelled (wdb w') st leaf (map ToLower (path_names path)) /\
  (forall path' v, map ToLower (path_names path') = map ToLower (path_names path) -> wdb v = wdb w' ->
     ensureCategoryPath st path' v = (Ok leaf, v)) /\
  (forall id, leaf = Some id -> (Datatypes.length (path_names path) <= S maxTreeDepth)%nat ->
     exists printed, categoryPathOf id w' = (Ok printed, w') /\
       ToLower printed = ToLower (Join (path_names path) " > ") /\
       ensureCategoryPath st printed w' = (Ok (Some id), w')).
Proof.
  intros H. unfold ensureCategoryPath in *.
  apply (ensure_nodes_ok _ _ _ _ _ _ []) in H as (E & _ & [G N] & S & A); [|constructor]. cbn [app] in S.
  split; [split; [exact E|split; [exact G|]]|split; [exact S|split; [by intros path' v Hp; apply A|]]].
  - intros i c Hc Hn. by destruct (N i c Hc Hn).
  - intros id -> Hl. pose (ns := chain_names (wdb w') (Datatypes.S maxTreeDepth) id).
    assert (En : map ToLower ns = map ToLower (path_names path)).
    { apply (chain_names_spelled _ st (Some id)); [exact S | done | by rewrite length_map]. }
    exists (Join ns " > "). split; [done|]. split; [by apply Join_case|]. apply A; [|done].
    rewrite path_names_join; [exact En|]. apply (neat_names_case (path_names path)); [exact En | apply path_names_neat].
Qed.

(** A path filed twice in the sample household: under "Food", which it has, with one
    node made; read back, it leads to that node. *)
Lemma ensureCategoryPath_spec_witness :
  let w1 := (ensureCategoryPath 1 " food>  Sauces > " sample_world).2 in
  (ensureCategoryPath 1 " food>  Sauces > " sample_world).1 = Ok (Some 100) /\
  ensureCategoryPath 1 "FOOD > sauces" w1 = (Ok (Some 100), w1) /\
  exists printed, categoryPathOf 100 w1 = (Ok printed, w1) /\ ensureCategoryPath 1 printed w1 = (Ok (Some 100), w1).
Proof.
  intros w1. destruct (ensureCategoryPath 1 " food>  Sauces > " sample_world) as [r w2] eqn:E.
  assert (X : r = Ok (Some 100)).
  { change r with (r, w2).1. rewrite <- E. vm_compute. reflexivity. }
  subst r. split; [reflexivity|].
  destruct (ensureCategoryPath_spec 1 " food>  Sauces > " sample_world (Some 100) w2 E) as (_ & _ & A & P).
  split; [apply A; [vm_compute; reflexivity | reflexivity]|].
  destruct (P 100 eq_refl) as (printed & P1 & _ & P2); [vm_compute; lia|]. by exists printed.
Defined.
