(* ===== verification/ListSpec.v ===== *)
(** * A shopping list arrives whole

    Creating a list stores every line, in order, or nothing; a photo job becomes at
    most one list. *)

From S2P Require Import Prelude Gamification Text Db Sample Expiry Tree Progress ShelfLife Containers Batches Ledger StockSteps Stocktake Jobs Consumption Locations Products Ingestion EditSteps IngestionSpec Shopping ShoppingSpec.

#[local] Open Scope string_scope.
#[local] Open Scope list_scope.
#[local] Open Scope Z_scope.

(** ** The lines *)

(** The row a submitted line becomes. *)
Definition line_row (listID t : Z) (inp : NewShoppingListItem) (kv : uuid * ShoppingListItem) : Prop :=
  kv.2 = mkItem listID (nli_RawText inp) (nli_Status inp) (nli_MatchedProductID inp) None t.

(** A line matched to no product, or to one of the storage. *)
Definition matched_here (st : uuid) (d : DB) (inp : NewShoppingListItem) : Prop :=
  forall p, nli_MatchedProductID inp = Some p -> is_Some (product_in_storage d st p).

Lemma insert_item_ok st listID inp w kv w' :
  insert_item st listID inp w = (Ok kv, w') ->
  matched_here st (wdb w) inp /\ line_row listID (wnow w) inp kv /\ db_items (wdb w) !! kv.1 = None /\
  exists ids, wids w = kv.1 :: ids /\ w' = mkWorld (set_items <[kv.1 := kv.2]> (wdb w)) ids (wnow w) (wclock w).
Proof.
  unfold insert_item. intros H. tx_next H by require_match_ok as (-> & Hm).
  tx_next H for id by newID_ok as (ids & E & ->). tx_next H for d by get_db_ok as [-> ->].
  tx_next H for t by now_ok as [-> ->]. tx_next H by require_ok as [Hr ->]. tx_next H by modify_ok as ->.
  tx_inv1 H. subst. apply andb_true_iff in Hr as [Hn%bool_decide_eq_true _]. cbn in *.
  split; [intros p Ep; destruct (Hm p Ep) as (row & Hrow); exists row; by apply product_in_storage_some|].
  split; [done|]. split; [done|]. by exists ids.
Qed.

(** What the loop over the lines adds. *)
Record stored (st listID : uuid) (items : list NewShoppingListItem) (created : list (uuid * ShoppingListItem)) (w w' : World) : Prop := {
  sd_frame : wdb w' = set_items (fun _ => list_to_map created ∪ db_items (wdb w)) (wdb w);
  sd_ids : wids w = map fst created ++ wids w';
  sd_now : wnow w' = wnow w;
  sd_distinct : NoDup created.*1;
  sd_fresh : Forall (fun kv : uuid * ShoppingListItem => db_items (wdb w) !! kv.1 = None) created;
  sd_rows : Forall2 (line_row listID (wnow w)) items created;
  sd_matched : Forall (matched_here st (wdb w)) items;
}.

Lemma insert_items_ok st listID items w created w' :
  traverse (insert_item st listID) items w = (Ok created, w') -> stored st listID items created w w'.
Proof.
  revert w created. induction items as [|inp items IH]; intros w created H; cbn [traverse] in H.
  { tx_inv1 H. subst. split; try constructor. unfold set_items. cbn. rewrite (left_id_L ∅ (∪)). by destruct (wdb w'). }
  apply bind_ok in H as (kv & w1 & H1 & H). apply bind_ok in H as (rest & w2 & H2 & H). tx_inv1 H. subst.
  apply insert_item_ok in H1 as (Hm & Hrow & Hn & ids & Ei & ->).
  apply IH in H2 as [F I T D N R M]. cbn in *. destruct kv as [id row]. cbn in *.
  assert (Hid : id ∉ rest.*1).
  { intros Hin. apply list_elem_of_fmap in Hin as ([id' row'] & Eid & Hin). cbn in Eid. subst id'.
    rewrite Forall_forall in N. specialize (N _ Hin). cbn in N. by rewrite lookup_insert_eq in N. }
  split; cbn.
  - rewrite F. unfold set_items. cbn. f_equal.
    rewrite <- insert_union_r, insert_union_l; [done|]. by apply not_elem_of_list_to_map_1.
  - by rewrite Ei, I.
  - done.
  - by constructor.
  - constructor; [done|]. apply (Forall_impl _ _ _ N). intros [id' row'] Hx. cbn in *.
    rewrite lookup_insert in Hx. by case_decide.
  - by constructor.
  - by constructor.
Qed.

Lemma insertShoppingList_ok listID st source by_ items w r w' :
  insertShoppingList listID st source by_ items w = (Ok r, w') ->
  r.1 = mkList st source by_ (wnow w) /\ db_lists (wdb w) !! listID = None /\ list_row_ok (wdb w) r.1 = true /\
  exists w1, wdb w1 = set_lists <[listID := r.1]> (wdb w) /\ wids w1 = wids w /\ wnow w1 = wnow w /\
    stored st listID items r.2 w1 w'.
Proof.
  unfold insertShoppingList. intros H. tx_next H for d by get_db_ok as [-> ->]. tx_next H for t by now_ok as [-> ->].
  cbv zeta in H. tx_next H by require_ok as [Hr ->]. tx_next H by modify_ok as ->.
  apply bind_ok in H as (created & w2 & H2 & H). tx_inv1 H. subst. apply insert_items_ok in H2.
  apply andb_true_iff in Hr as [Hn%bool_decide_eq_true Hr]. cbn [fst snd]. split; [done|]. split; [done|]. split; [done|].
  eexists. split; [|split; [|split; [|exact H2]]]; done.
Qed.

(** ** Reading a list back *)

#[export] Instance older_item_trans : Transitive older_item.
Proof. intros a b c. unfold older_item. lia. Qed.

#[export] Instance older_item_total : Total older_item.
Proof. intros a b. unfold older_item. lia. Qed.

(** No line belongs to a list that is not there: the foreign key. *)
Definition items_owned (d : DB) : Prop :=
  forall id i, db_items d !! id = Some i -> is_Some (db_lists d !! item_ListID i).

(** Lines written together in the order of their ids come back in that order. *)
Lemma sorted_created listID t (created : list (uuid * ShoppingListItem)) items rest :
  StronglySorted Z.lt (created.*1 ++ rest) -> Forall2 (line_row listID t) items created -> StronglySorted older_item created.
Proof.
  intros S R. revert items R S. induction created as [|[id row] created IH]; intros items R S; [constructor|].
  inversion R as [|inp ? items' ? Hrow R' E1 E2]; subst. cbn in S. apply StronglySorted_inv in S as [S F].
  constructor; [by eapply IH|]. rewrite Forall_forall in F. apply Forall_forall. intros [id' row'] Hin.
  assert (E : item_CreatedAt row' = t).
  { apply list_elem_of_lookup in Hin as (k & Hk). destruct (Forall2_lookup_r _ _ _ _ _ R' Hk) as (inp' & _ & Hr).
    unfold line_row in Hr. cbn in Hr. by rewrite Hr. }
  unfold line_row in Hrow. cbn in Hrow. right. cbn. rewrite Hrow, E. cbn. split; [done|].
  apply Z.lt_le_incl, F, elem_of_app. left. apply list_elem_of_fmap. by exists (id', row').
Qed.

Lemma lines_of_list d listID created t items :
  (forall id i, db_items d !! id = Some i -> item_ListID i ≠ listID) -> NoDup created.*1 ->
  Forall2 (line_row listID t) items created ->
  map_to_list (base.filter (fun kv : uuid * ShoppingListItem => item_ListID kv.2 = listID) (list_to_map created ∪ db_items d)) ≡ₚ created.
Proof.
  intros Hd D R. rewrite <- (map_to_list_to_map created D) at 2. f_equiv. apply map_eq. intros i.
  rewrite map_lookup_filter, lookup_union.
  destruct ((list_to_map created : gmap uuid ShoppingListItem) !! i) as [row|] eqn:E.
  - rewrite union_Some_l. cbn. rewrite option_guard_True; [done|]. apply elem_of_list_to_map_2 in E.
    apply list_elem_of_lookup in E as (k & Hk). destruct (Forall2_lookup_r _ _ _ _ _ R Hk) as (inp & _ & Hr).
    unfold line_row in Hr. cbn in *. by rewrite Hr.
  - rewrite (left_id_L None (∪)). destruct (db_items d !! i) as [row|] eqn:Ei; [|done]. cbn.
    rewrite option_guard_False; [done|]. cbn. by eapply Hd.
Qed.

(** What a committed list is: its row, its lines in the order given, and a read of it. *)
Definition listed (st listID : uuid) (source : string) (by_ : option uuid) (items : list NewShoppingListItem)
    (l : ShoppingList) (created : list (uuid * ShoppingListItem)) (w w' : World) : Prop :=
  l = mkList st source by_ (wnow w) /\ db_lists (wdb w) !! listID = None /\
  db_lists (wdb w') = <[listID := l]> (db_lists (wdb w)) /\
  Forall2 (line_row listID (wnow w)) items created /\ Forall (matched_here st (wdb w)) items /\ NoDup created.*1 /\
  Forall (fun kv : uuid * ShoppingListItem => db_items (wdb w) !! kv.1 = None) created /\
  db_items (wdb w') = list_to_map created ∪ db_items (wdb w) /\
  (items_owned (wdb w) -> StronglySorted Z.lt (wids w) ->
     ShoppingListWithItems st listID w' = (Ok (l, created), w')).

Lemma insertShoppingList_listed listID st source by_ items w r w1 w' :
  insertShoppingList listID st source by_ items w = (Ok r, w1) ->
  db_lists (wdb w') = db_lists (wdb w1) -> db_items (wdb w') = db_items (wdb w1) ->
  listed st listID source by_ items r.1 r.2 w w'.
Proof.
  intros H El Ei. apply insertShoppingList_ok in H as (Er & Hn & _ & w2 & E2 & I2 & T2 & [F I T D N R M]).
  rewrite E2 in *. rewrite T2 in *. cbn in *.
  assert (Ew : db_items (wdb w') = list_to_map r.2 ∪ db_items (wdb w)) by (rewrite Ei, F; done).
  assert (Ew2 : db_lists (wdb w') = <[listID := r.1]> (db_lists (wdb w))) by (rewrite El, F; done).
  split_and!; [done.. |]. intros Hown Hs. unfold ShoppingListWithItems.
  rewrite (bind_step _ get_db w' _ _ eq_refl). unfold list_in_storage. rewrite Ew2, lookup_insert_eq, Er. cbn [list_StorageID].
  rewrite Z.eqb_refl, Ew, (bind_step _ (some_or (Some _) _) w' _ w' eq_refl). unfold mret, tx_ret. do 3 f_equal.
  rewrite <- I2, I in Hs.
  assert (P : merge_sort older_item (map_to_list (base.filter (fun kv : uuid * ShoppingListItem =>
      item_ListID kv.2 = listID) (list_to_map r.2 ∪ db_items (wdb w)))) ≡ₚ r.2).
  { rewrite merge_sort_Permutation. eapply lines_of_list; [|exact D|exact R].
    intros id i Hi E. destruct (Hown id i Hi) as [x Hx]. congruence. }
  apply (StronglySorted_unique_strong older_item); [|by apply StronglySorted_merge_sort; apply _|by eapply sorted_created|exact P].
  intros [i1 r1] [i2 r2] H1 H2 O1 O2. rewrite P in H1.
  assert (E : i1 = i2) by (unfold older_item in *; cbn in *; lia). subst i2. f_equal.
  apply (elem_of_list_to_map_1 (M := gmap uuid)) in H1, H2; [congruence | done..].
Qed.

Lemma listed_newID st listID source by_ items l created ids w w' :
  wids w = listID :: ids -> listed st listID source by_ items l created (mkWorld (wdb w) ids (wnow w) (wclock w)) w' ->
  listed st listID source by_ items l created w w'.
Proof.
  intros E (H1 & H2 & H3 & H4 & H5 & H6 & H7 & H8 & H9). cbn in *. split_and!; [done.. |].
  intros Ho Hs. apply H9; [done|]. rewrite E in Hs. by apply StronglySorted_inv in Hs as [].
Qed.

Lemma CreateShoppingList_ok st source by_ items w listID l created w' :
  CreateShoppingList st source by_ items w = (Ok (listID, l, created), w') ->
  items ≠ [] /\ listed st listID source by_ items l created w w' /\
  wdb w' = set_items (fun _ => db_items (wdb w')) (set_lists (fun _ => db_lists (wdb w')) (wdb w)).
Proof.
  unfold CreateShoppingList. intros H. tx_next H by require_ok as [Hi ->]. bool_to_prop.
  tx_next H for id by newID_ok as (ids & Ei & ->). apply bind_ok in H as (r & w1 & H1 & H). tx_inv1 H. simplify_eq.
  apply inTx_inv in H1. split; [done|]. split; [eapply listed_newID; [exact Ei|]; by eapply insertShoppingList_listed|].
  apply insertShoppingList_ok in H1 as (_ & _ & _ & w2 & E2 & _ & _ & [F _ _ _ _ _ _]). by rewrite F, E2.
Qed.

Lemma CreateShoppingListFromJob_ok st job by_ items w listID l created image w' :
  CreateShoppingListFromJob st job by_ items w = (Ok (listID, l, created, image), w') ->
  items ≠ [] /\ listed st listID SourcePhoto by_ items l created w w' /\
  (exists j, job_in_storage (wdb w) st job = Some j /\ job_Status j = JobDone /\ image = job_ImageFilename j) /\
  wdb w' = set_jobs (delete job) (set_items (fun _ => db_items (wdb w')) (set_lists (fun _ => db_lists (wdb w')) (wdb w))).
Proof.
  unfold CreateShoppingListFromJob. intros H. tx_next H by require_ok as [Hi ->]. bool_to_prop.
  tx_next H for id by newID_ok as (ids & Ei & ->). tx_inv1 H. tx_next H for d by get_db_ok as [-> ->].
  tx_next H for j by some_or_ok as [Hj ->]. tx_next H by require_ok as [Hs ->]. bool_to_prop.
  apply bind_ok in H as (r & w1 & H1 & H). tx_next H by modify_ok as ->. tx_inv1 H. simplify_eq.
  split; [done|]. split; [eapply listed_newID; [exact Ei|]; by eapply insertShoppingList_listed|].
  split; [by exists j|]. cbn.
  apply insertShoppingList_ok in H1 as (_ & _ & _ & w2 & E2 & _ & _ & [F _ _ _ _ _ _]). by rewrite F, E2.
Qed.

Lemma CreateShoppingList_good st source by_ items w r w' :
  CreateShoppingList st source by_ items w = (Ok r, w') -> good_step (wdb w) (wdb w').
Proof.
  destruct r as [[listID l] created]. intros H. apply CreateShoppingList_ok in H as (_ & _ & ->).
  by apply good_step_inventory.
Qed.

Lemma CreateShoppingListFromJob_good st job by_ items w r w' :
  CreateShoppingListFromJob st job by_ items w = (Ok r, w') -> good_step (wdb w) (wdb w').
Proof.
  destruct r as [[[listID l] created] image]. intros H. apply CreateShoppingListFromJob_ok in H as (_ & _ & _ & ->).
  by apply good_step_inventory.
Qed.

Lemma RematchShoppingListItem_good st id raw status m w r w' :
  RematchShoppingListItem st id raw status m w = (Ok r, w') -> good_step (wdb w) (wdb w').
Proof.
  unfold RematchShoppingListItem. intros H. tx_inv1 H. tx_next H by lock_open_item_ok as (-> & _).
  tx_next H by require_match_ok as (-> & _). apply update_item_ok in H as (_ & _ & _ & _ & ->). by apply good_step_inventory.
Qed.

(** ** What holds of every photo list *)

(** A photo job becomes one list: the job was done and in the storage, the list has
    one line per given line, in order, matched only to products of the storage, a read
    of the list returns exactly these lines in this order (identifiers grow with time),
    no other line or list changes, and the job is gone, its image returned for the
    caller to remove; nothing else in the database changes; and asking again for the
    same job is ErrNotFound and changes nothing. *)
Theorem CreateShoppingListFromJob_spec st job by_ items w listID l created image w' :
  CreateShoppingListFromJob st job by_ items w = (Ok (listID, l, created, image), w') ->
  (exists j, job_in_storage (wdb w) st job = Some j /\ job_Status j = JobDone /\ image = job_ImageFilename j) /\
  listed st listID SourcePhoto by_ items l created w w' /\
  wdb w' = set_jobs (delete job) (set_items (fun _ => db_items (wdb w')) (set_lists (fun _ => db_lists (wdb w')) (wdb w))) /\
  forall by2 items2 r2 w2, CreateShoppingListFromJob st job by2 items2 w' = (r2, w2) ->
    wdb w2 = wdb w' /\ (items2 ≠ [] -> wids w' ≠ [] -> r2 = Fail ErrNotFound).
Proof.
  intros H. apply CreateShoppingListFromJob_ok in H as (_ & L & J & E). split; [exact J|]. split; [exact L|].
  split; [exact E|]. intros by2 items2 r2 w2 H2. unfold CreateShoppingListFromJob in H2.
  case_bool_decide as Ei; [by injection H2 as _ <-|]. rewrite (bind_step _ (require (negb false) _) w' tt w' eq_refl) in H2.
  unfold mbind, tx_bind at 1, newID in H2. destruct (wids w') as [|id ids]; [by injection H2 as _ <-|].
  assert (Hj : job_in_storage (wdb w') st job = None).
  { unfold job_in_storage. rewrite E. cbn. by rewrite lookup_delete_eq. }
  unfold inTx in H2. rewrite (bind_step _ get_db _ _ _ eq_refl) in H2. cbn [wdb] in H2. rewrite Hj in H2.
  by injection H2 as <- <-.
Qed.

(** The finished photo job of the sample household, read as two lines. *)
Definition photo_lines : list NewShoppingListItem :=
  [mkNewItem "2x Beans" ItemExactMatch (Some 30); mkNewItem "soap" ItemAmbiguous None].

Lemma CreateShoppingListFromJob_spec_witness :
  exists listID l created image w', CreateShoppingListFromJob 1 61 (Some 10) photo_lines sample_world = (Ok (listID, l, created, image), w') /\
    created.*1 = [101; 102] /\ ShoppingListWithItems 1 listID w' = (Ok (l, created), w') /\
    (CreateShoppingListFromJob 1 61 None photo_lines w').1 = Fail ErrNotFound.
Proof.
  assert (V : exists v, (CreateShoppingListFromJob 1 61 (Some 10) photo_lines sample_world).1 = Ok v /\ v.1.2.*1 = [101; 102] /\
      wids (CreateShoppingListFromJob 1 61 (Some 10) photo_lines sample_world).2 ≠ []).
  { eexists. vm_compute. split_and!; [reflexivity.. | done]. }
  destruct (CreateShoppingListFromJob 1 61 (Some 10) photo_lines sample_world) as [r w'] eqn:E.
  cbn [fst snd] in V.
  destruct V as (v & -> & Ec & Hw). destruct v as [[[listID l] created] image]. cbn in Ec. exists listID, l, created, image, w'.
  destruct (CreateShoppingListFromJob_spec _ _ _ _ _ _ _ _ _ _ E) as (_ & L & _ & A).
  split; [done|]. split; [done|]. split.
  - apply L; [|vm_compute; repeat constructor]. intros id i Hi. vm_compute in Hi. by destruct id.
  - destruct (CreateShoppingListFromJob 1 61 None photo_lines w') as [r2 w2] eqn:E2.
    destruct (A _ _ _ _ E2) as [_ R]. by rewrite R.
Defined.
