(* ===== verification/Accounts.v ===== *)
(** * Accounts: internal/store/users.go, sessions.go, pairing.go

    Users with their password hashes, the sessions that stand for them and the
    single-use codes that pair a device.  A token is 32 bytes of crypto/rand in
    base64url: the operations that mint one take the bytes as an argument.  A user's
    row is deleted with everything the schema cascades to. *)

From Stdlib Require Import Ascii String.
From S2P Require Import Prelude Text Encoding Gamification Db AuditLog.

#[local] Open Scope string_scope.
#[local] Open Scope list_scope.
#[local] Open Scope Z_scope.

Implicit Types (d : DB).

(** ** Users *)

Record NewUser := mkNewUser {
  nu_Username : string;
  nu_PasswordHash : string;
  nu_DisplayName : string;
  nu_IsAdmin : bool;
}.

(** The account of a username: the column is UNIQUE. *)
Definition user_named d (username : string) : option (uuid * User) :=
  head (order_by_id (base.filter (fun kv : uuid * User => usr_Username kv.2 = username) (db_accounts d))).

(** A taken username, or id, is a unique violation. *)
Definition insertUser (inp : NewUser) : Tx (uuid * User) :=
  id ← newID;
  d ← get_db;
  t ← now;
  require (bool_decide (user_named d (nu_Username inp) = None) && bool_decide (db_accounts d !! id = None)) ErrDuplicate ;;
  let row := mkUser (nu_Username inp) (nu_PasswordHash inp) (nu_DisplayName inp) (nu_IsAdmin inp) t in
  modify (set_accounts (<[id := row]>)) ;;
  mret (id, row).

Definition CreateUser (inp : NewUser) : Tx (uuid * User) := insertUser inp.

Definition AdminCreateUser (actor : uuid) (inp : NewUser) : Tx (uuid * User) :=
  inTx (
    user ← insertUser inp;
    writeAdminAudit actor ActionUserCreated (AuditID user.1)
      (text_field "username" (usr_Username user.2) ++ text_field "display_name" (usr_DisplayName user.2) ++
       [("admin_rights", AuditFlag (nu_IsAdmin inp))]) ;;
    mret user).

Definition UserByUsername (username : string) : Tx (uuid * User) :=
  d ← get_db;
  some_or (user_named d username) ErrNotFound.

Definition UserByID (id : uuid) : Tx (uuid * User) :=
  d ← get_db;
  u ← some_or (db_accounts d !! id) ErrNotFound;
  mret (id, u).

(** A deleted user is not an admin. *)
Definition IsAdmin (userID : uuid) : Tx bool :=
  d ← get_db;
  mret (match db_accounts d !! userID with Some u => usr_IsAdmin u | None => false end).

(** UPDATE users SET ... WHERE id = $n; not found when no row matched. *)
Definition update_user (f : User -> User) (userID : uuid) : Tx (uuid * User) :=
  d ← get_db;
  u ← some_or (db_accounts d !! userID) ErrNotFound;
  modify (set_accounts (<[userID := f u]>)) ;;
  mret (userID, f u).

Definition set_is_admin (isAdmin : bool) (u : User) : User :=
  mkUser (usr_Username u) (usr_PasswordHash u) (usr_DisplayName u) isAdmin (usr_CreatedAt u).
Definition set_password_hash (hash : string) (u : User) : User :=
  mkUser (usr_Username u) hash (usr_DisplayName u) (usr_IsAdmin u) (usr_CreatedAt u).
Definition set_display_name (name : string) (u : User) : User :=
  mkUser (usr_Username u) (usr_PasswordHash u) name (usr_IsAdmin u) (usr_CreatedAt u).

Definition SetAdmin (userID : uuid) (isAdmin : bool) : Tx unit :=
  update_user (set_is_admin isAdmin) userID ;; mret tt.

Definition SetDisplayName (userID : uuid) (displayName : string) : Tx (uuid * User) :=
  update_user (set_display_name displayName) userID.

(** An id column that referred to the user is NULL afterwards. *)
Definition unset (u : uuid) (o : option uuid) : option uuid := if bool_decide (o = Some u) then None else o.

Definition unset_log (u : uuid) (l : LogRow) : LogRow :=
  mkLogRow (log_ID l) (log_ProductID l) (log_BatchID l) (log_ChangeQty l) (log_Reason l) (unset u (log_CreatedBy l))
    (log_Timestamp l).
Definition unset_list (u : uuid) (l : ShoppingList) : ShoppingList :=
  mkList (list_StorageID l) (list_Source l) (unset u (list_CreatedBy l)) (list_CreatedAt l).
Definition unset_job (u : uuid) (j : Job) : Job :=
  mkJob (job_StorageID j) (job_Kind j) (job_Status j) (job_Payload j) (job_Error j) (unset u (job_CreatedBy j))
    (job_ImageFilename j) (job_LocationHintID j) (job_LeaseOwner j) (job_LeaseExpiresAt j) (job_CreatedAt j) (job_UpdatedAt j).
Definition unset_audit (u : uuid) (r : AuditRow) : AuditRow :=
  mkAudit (au_ID r) (unset u (au_ActorID r)) (au_Action r) (au_Target r) (au_Details r) (au_CreatedAt r).

(** DELETE FROM users WHERE id = $1, with the rows that cascade and the columns
    that are set to NULL. *)
Definition delete_user (u : uuid) : Tx unit :=
  modify (set_sessions (base.filter (fun kv : string * Session => ses_UserID kv.2 ≠ u))) ;;
  modify (set_memberships (base.filter (fun kv : uuid * uuid * Member => kv.1.2 ≠ u))) ;;
  modify (set_pairing (base.filter (fun kv : string * PairingCode => pc_UserID kv.2 ≠ u))) ;;
  modify (set_idempotency (base.filter (fun kv : string * uuid * IdempotencyRecord => kv.1.2 ≠ u))) ;;
  modify (set_contributions (base.filter (fun e => ce_UserID e ≠ u))) ;;
  modify (set_progress (base.filter (fun kv : uuid * uuid * UserProgress => kv.1.2 ≠ u))) ;;
  modify (set_achievements (base.filter (fun a : uuid * uuid * string => a.1.2 ≠ u))) ;;
  modify (set_preferences (delete u)) ;;
  modify (set_holidays (base.filter (fun h : uuid * Z => h.1 ≠ u))) ;;
  modify (set_contributors (base.filter (fun c : uuid * uuid => c.2 ≠ u))) ;;
  modify (set_prompts (delete u)) ;;
  modify (set_logs (map (unset_log u))) ;;
  modify (set_lists (fmap (unset_list u))) ;;
  modify (set_jobs (fmap (unset_job u))) ;;
  modify (set_audit (map (unset_audit u))) ;;
  modify (set_accounts (delete u)).

(** The audit row is written after the account is gone: an admin who deletes their
    own account can no longer be its actor. *)
Definition DeleteUser (actor id : uuid) : Tx unit :=
  inTx (
    d ← get_db;
    user ← some_or (db_accounts d !! id) ErrNotFound;
    delete_user id ;;
    writeAdminAudit actor ActionUserDeleted (AuditID id) (text_field "username" (usr_Username user))).

(** The statement pair of both password changes; "" keeps no session. *)
Definition changePassword (userID : uuid) (passwordHash keepSessionID : string) : Tx unit :=
  update_user (set_password_hash passwordHash) userID ;;
  modify (set_sessions (base.filter (fun kv : string * Session =>
    ~ (ses_UserID kv.2 = userID /\ (keepSessionID = "" \/ kv.1 ≠ keepSessionID))))).

Definition ChangePassword (userID : uuid) (passwordHash keepSessionID : string) : Tx unit :=
  inTx (changePassword userID passwordHash keepSessionID).

Definition AdminResetPassword (actor userID : uuid) (passwordHash : string) : Tx unit :=
  inTx (
    changePassword userID passwordHash "" ;;
    d ← get_db;
    user ← some_or (db_accounts d !! userID) ErrOther;
    writeAdminAudit actor ActionUserPasswordReset (AuditID userID) (text_field "username" (usr_Username user))).

(** Oldest first; ids break ties. *)
Definition created_before {V} (at_of : V -> Z) (a b : uuid * V) : Prop :=
  at_of a.2 < at_of b.2 \/ (at_of a.2 = at_of b.2 /\ a.1 <= b.1).

#[global] Instance created_before_dec {V} (at_of : V -> Z) a b : Decision (created_before at_of a b).
Proof. unfold created_before. apply _. Defined.

Definition ListUsers : Tx (list (uuid * User)) :=
  d ← get_db;
  mret (merge_sort (created_before usr_CreatedAt) (order_by_id (db_accounts d))).

Definition CountUsers : Tx Z := d ← get_db; mret (Z.of_nat (size (db_accounts d))).

(** ** Sessions *)

Definition tokenBytes : nat := 32.
Definition lastSeenThrottle : Z := hour.

(** [None] when fewer bytes arrived than were asked for: the error of rand.Read. *)
Definition NewToken (buf : list ascii) : option string :=
  if (Datatypes.length buf =? tokenBytes)%nat then Some (EncodeToString RawURLEncoding buf) else None.

(** [kind] is absent where the Go value is the empty string. *)
Definition CreateSession (buf : list ascii) (userID : uuid) (kind : option SessionKind) (label : option string) (ttl : Z)
    : Tx (string * Session) :=
  token ← some_or (NewToken buf) ErrOther;
  let kind := default SessionBrowser kind in
  d ← get_db;
  t ← now;
  require (bool_decide (db_sessions d !! token = None) && bool_decide (userID ∈ db_users d)) ErrOther ;;
  let row := mkSession userID kind label None t (t + ttl) in
  modify (set_sessions (<[token := row]>)) ;;
  mret (token, row).

(** An expired row is deleted as it is found; two statements, no transaction. *)
Definition LookupSession (id : string) : Tx (string * Session) :=
  d ← get_db;
  s ← some_or (db_sessions d !! id) ErrNotFound;
  clock ← time_Now;
  if negb (clock <? ses_ExpiresAt s) then
    modify (set_sessions (delete id)) ;;
    throw ErrNotFound
  else mret (id, s).

Definition set_last_seen (t : Z) (s : Session) : Session :=
  mkSession (ses_UserID s) (ses_Kind s) (ses_Label s) (Some t) (ses_CreatedAt s) (ses_ExpiresAt s).

Definition seen_lately (t : Z) (s : Session) : bool :=
  match ses_LastSeenAt s with None => false | Some seen => t - lastSeenThrottle <=? seen end.

Definition TouchSession (id : string) : Tx unit :=
  t ← now;
  modify (set_sessions (alter (fun s => if seen_lately t s then s else set_last_seen t s) id)).

Definition DeleteSession (id : string) : Tx unit :=
  d ← get_db;
  require (bool_decide (is_Some (db_sessions d !! id))) ErrNotFound ;;
  modify (set_sessions (delete id)).

Definition session_before (a b : string * Session) : Prop := ses_CreatedAt a.2 <= ses_CreatedAt b.2.

#[global] Instance session_before_dec a b : Decision (session_before a b).
Proof. unfold session_before. apply _. Defined.

Definition UserSessions (userID : uuid) : Tx (list (string * Session)) :=
  d ← get_db;
  t ← now;
  mret (merge_sort session_before (map_to_list
    (base.filter (fun kv : string * Session => ses_UserID kv.2 = userID /\ t < ses_ExpiresAt kv.2) (db_sessions d)))).

Definition SweepSessions : Tx Z :=
  d ← get_db;
  t ← now;
  modify (set_sessions (base.filter (fun kv : string * Session => ~ ses_ExpiresAt kv.2 <= t))) ;;
  mret (Z.of_nat (size (base.filter (fun kv : string * Session => ses_ExpiresAt kv.2 <= t) (db_sessions d)))).

(** ** Pairing codes *)

Definition PairingTTL : Z := 2 * minute.

Definition CreatePairingCode (buf : list ascii) (userID : uuid) : Tx string :=
  code ← some_or (NewToken buf) ErrOther;
  d ← get_db;
  t ← now;
  require (bool_decide (db_pairing d !! code = None) && bool_decide (userID ∈ db_users d)) ErrOther ;;
  modify (set_pairing (<[code := mkPairing userID t (t + PairingTTL) None]>)) ;;
  mret code.

(** [used_at IS NULL AND expires_at > now()] *)
Definition redeemable (t : Z) (c : PairingCode) : bool := is_nil (pc_UsedAt c) && (t <? pc_ExpiresAt c).

Definition set_used (t : Z) (c : PairingCode) : PairingCode :=
  mkPairing (pc_UserID c) (pc_CreatedAt c) (pc_ExpiresAt c) (Some t).

(** The row found has the code asked for, so the comparison that follows holds. *)
Definition RedeemPairingCode (code : string) : Tx uuid :=
  if String.eqb code "" then throw ErrNotFound
  else
    d ← get_db;
    t ← now;
    c ← some_or (db_pairing d !! code) ErrNotFound;
    require (redeemable t c) ErrNotFound ;;
    modify (set_pairing (<[code := set_used t c]>)) ;;
    mret (pc_UserID c).

Definition SweepPairingCodes : Tx Z :=
  d ← get_db;
  t ← now;
  modify (set_pairing (base.filter (fun kv : string * PairingCode => redeemable t kv.2 = true))) ;;
  mret (Z.of_nat (size (base.filter (fun kv : string * PairingCode => redeemable t kv.2 = false) (db_pairing d)))).

(** The account a name is looked up to has that name. *)
Lemma user_named_some d name i u : user_named d name = Some (i, u) -> db_accounts d !! i = Some u /\ usr_Username u = name.
Proof.
  unfold user_named. intros H. apply head_Some_elem_of, elem_of_order_by_id, map_lookup_filter_Some in H. exact H.
Qed.
