(* ===== verification/Storages.v ===== *)
(** * Storages and their members: internal/store/storages.go

    A storage is a tenancy boundary: who may see it is a row of storage_members and
    nothing else.  Creating one seeds the starter tree of categories; deleting one
    deletes what the schema cascades to, where nothing restricts it. *)

From Stdlib Require Import Ascii String.
From S2P Require Import Prelude Text Encoding Gamification Db AuditLog Expiry Tree Progress ShelfLife Containers Batches Recompute Locations Products Accounts.

#[local] Open Scope string_scope.
#[local] Open Scope list_scope.
#[local] Open Scope Z_scope.

Implicit Types (d : DB).

(** ** Creating *)

Record StarterCategory := mkStarter { sc_name : string; sc_parent : string; sc_days : option Z }.

Definition starterCategories : list StarterCategory :=
  [mkStarter "Food" "" (Some 365); mkStarter "Dairy" "Food" (Some 10); mkStarter "Produce" "Food" (Some 7);
   mkStarter "Meat" "Food" (Some 4); mkStarter "Canned" "Food" (Some 730); mkStarter "Household" "" None;
   mkStarter "Collectibles" "" None].

(** The loop, with the ids of the names written so far. *)
Fixpoint seed_from (storageID : uuid) (ids : gmap string uuid) (l : list StarterCategory) : Tx unit :=
  match l with
  | [] => mret tt
  | c :: l' =>
    id ← newID;
    parentID ← (if String.eqb (sc_parent c) "" then mret None
                else parent ← some_or (ids !! sc_parent c) ErrOther; mret (Some parent));
    d ← get_db;
    t ← now;
    require (node_row_ok (db_categories d) d storageID id parentID && days_col_ok (sc_days c)
             && match parentID with None => true | Some p => bool_decide (is_Some (db_categories d !! p)) end) ErrOther ;;
    modify (set_categories (<[id := mkCategory storageID parentID (sc_name c) (sc_days c) t t]>)) ;;
    seed_from storageID (<[sc_name c := id]> ids) l'
  end.

Definition seedStarterCategories (storageID : uuid) : Tx unit := seed_from storageID ∅ starterCategories.

Definition CreateStorage (actor : uuid) (name : string) : Tx (uuid * Storage) :=
  id ← newID;
  inTx (
    d ← get_db;
    t ← now;
    require (bool_decide (id ∉ db_storages d)) ErrOther ;;
    let row := mkStorage name t in
    modify (set_storage_rows (<[id := row]>)) ;;
    seedStarterCategories id ;;
    writeAdminAudit actor ActionStorageCreated (AuditID id) (text_field "storage_name" name) ;;
    mret (id, row)).

(** ** Deleting *)

(** The rows of a table that belong to a storage. *)
Definition owned {V} (storage_of : V -> uuid) (st : uuid) (m : gmap uuid V) : gset uuid :=
  dom (base.filter (fun kv : uuid * V => storage_of kv.2 = st) m).

(** DELETE FROM storages WHERE id = $1.  The cascade deletes the storage's
    locations before the batches that hang off its products, and the restriction
    of inventory_batches.location_id is checked as the locations go: one batch on
    a shelf of the storage refuses the whole statement.  So does a product of
    another storage filed under one of its categories.  The links between a
    node and its parent never leave a storage. *)
Definition storage_restricted d (st : uuid) : bool :=
  let locations := owned loc_StorageID st (db_locations d) in
  let categories := owned cat_StorageID st (db_categories d) in
  negb (held_at d locations =? 0) ||
  existsb (fun kv : uuid * Product => negb (prod_StorageID kv.2 =? st) &&
    match prod_CategoryID kv.2 with Some c => bool_decide (c ∈ categories) | None => false end) (map_to_list (db_products d)).

(** A batch loses a container that is gone. *)
Definition uncontain (gone : gset uuid) (b : Batch) : Batch :=
  match b_ContainerID b with
  | Some c => if bool_decide (c ∈ gone)
      then mkBatch (b_ProductID b) (b_LocationID b) (b_Quantity b) (b_ExpirationDate b) (b_ExpirationSource b) (b_CreatedAt b) None
      else b
  | None => b
  end.

(** A line loses a match that is gone. *)
Definition unmatch_any (gone : gset uuid) (i : ShoppingListItem) : ShoppingListItem :=
  match item_MatchedProductID i with
  | Some p => if bool_decide (p ∈ gone)
      then mkItem (item_ListID i) (item_RawText i) (item_Status i) None (item_ResolvedQuantity i) (item_CreatedAt i)
      else i
  | None => i
  end.

Definition delete_storage (st : uuid) : Tx unit :=
  d ← get_db;
  let products := owned prod_StorageID st (db_products d) in
  let locations := owned loc_StorageID st (db_locations d) in
  let containers := owned con_StorageID st (db_containers d) in
  let lists := owned list_StorageID st (db_lists d) in
  let quests := owned q_StorageID st (db_quests d) in
  let batches := dom (base.filter (fun kv : uuid * Batch => b_ProductID kv.2 ∈ products) (db_batches d)) in
  modify (set_memberships (base.filter (fun kv : uuid * uuid * Member => kv.1.1 ≠ st))) ;;
  modify (set_logs (fun logs => map (unlink_gone batches) (base.filter (fun l => log_ProductID l ∉ products) logs))) ;;
  modify (set_batches (fun bs => uncontain containers <$> base.filter (fun kv : uuid * Batch => b_ProductID kv.2 ∉ products) bs)) ;;
  modify (set_containers (base.filter (fun kv : uuid * Container => con_StorageID kv.2 ≠ st))) ;;
  modify (set_barcodes (base.filter (fun kv : uuid * string * ProductBarcode => kv.1.1 ≠ st /\ pb_ProductID kv.2 ∉ products))) ;;
  modify (set_items (fun items => unmatch_any products <$> base.filter (fun kv : uuid * ShoppingListItem => item_ListID kv.2 ∉ lists) items)) ;;
  modify (set_lists (base.filter (fun kv : uuid * ShoppingList => list_StorageID kv.2 ≠ st))) ;;
  modify (set_jobs (fun js => unhint locations <$> base.filter (fun kv : uuid * Job => job_StorageID kv.2 ≠ st) js)) ;;
  modify (set_tombstones (base.filter (fun t => ts_StorageID t ≠ st))) ;;
  modify (set_idempotency (base.filter (fun kv : string * uuid * IdempotencyRecord => idem_StorageID kv.2 ≠ Some st))) ;;
  modify (set_contributions (base.filter (fun e => ce_StorageID e ≠ st))) ;;
  modify (set_progress (base.filter (fun kv : uuid * uuid * UserProgress => kv.1.1 ≠ st))) ;;
  modify (set_achievements (base.filter (fun a : uuid * uuid * string => a.1.1 ≠ st))) ;;
  modify (set_quests (base.filter (fun kv : uuid * Quest => q_StorageID kv.2 ≠ st))) ;;
  modify (set_contributors (base.filter (fun c : uuid * uuid => c.1 ∉ quests))) ;;
  modify (set_gsettings (delete st)) ;;
  modify (set_notifications (delete st)) ;;
  modify (set_products (base.filter (fun kv : uuid * Product => prod_StorageID kv.2 ≠ st))) ;;
  modify (set_categories (base.filter (fun kv : uuid * Category => cat_StorageID kv.2 ≠ st))) ;;
  modify (set_locations (base.filter (fun kv : uuid * Location => loc_StorageID kv.2 ≠ st))) ;;
  modify (set_storage_rows (delete st)).

Definition DeleteStorage (actor id : uuid) : Tx unit :=
  inTx (
    d ← get_db;
    storage ← some_or (db_storage_rows d !! id) ErrNotFound;
    require (negb (storage_restricted d id)) ErrOther ;;
    delete_storage id ;;
    writeAdminAudit actor ActionStorageDeleted (AuditID id) (text_field "storage_name" (sto_Name storage))).

(** ** Membership *)

Definition IsStorageMember (storageID userID : uuid) : Tx bool :=
  d ← get_db;
  mret (bool_decide ((storageID, userID) ∈ db_members d)).

Definition membershipNames (storageID userID : uuid) : Tx (string * string) :=
  d ← get_db;
  s ← some_or (db_storage_rows d !! storageID) ErrNotFound;
  u ← some_or (db_accounts d !! userID) ErrNotFound;
  mret (sto_Name s, usr_Username u).

Definition membership_details (storageID userID : uuid) (names : string * string) : list (string * AuditValue) :=
  text_field "username" names.2 ++ text_field "storage_name" names.1 ++
  [("storage_id", AuditID storageID); ("user_id", AuditID userID)].

Definition DefaultStartPage := "dashboard".

Definition AddMember (actor storageID userID : uuid) : Tx unit :=
  inTx (
    names ← membershipNames storageID userID;
    t ← now;
    modify (set_memberships (fun m => match m !! (storageID, userID) with
      | Some _ => m
      | None => <[(storageID, userID) := mkMember t DefaultStartPage]> m
      end)) ;;
    writeAdminAudit actor ActionStorageMemberAdded (AuditID storageID) (membership_details storageID userID names)).

Definition RemoveMember (actor storageID userID : uuid) : Tx unit :=
  inTx (
    names ← membershipNames storageID userID;
    d ← get_db;
    require (bool_decide ((storageID, userID) ∈ db_members d)) ErrNotFound ;;
    modify (set_memberships (delete (storageID, userID))) ;;
    writeAdminAudit actor ActionStorageMemberRemoved (AuditID storageID) (membership_details storageID userID names)).

Definition ListMembers (storageID : uuid) : Tx (list (uuid * (string * string * Z))) :=
  d ← get_db;
  mret (merge_sort (created_before (fun m : string * string * Z => m.2))
    (omap (fun kv : uuid * uuid * Member =>
       if kv.1.1 =? storageID
       then u ← db_accounts d !! kv.1.2; Some (kv.1.2, (usr_Username u, usr_DisplayName u, mem_AddedAt kv.2))
       else None) (map_to_list (db_memberships d)))).

(** Exactly the storages the user has a membership row of. *)
Definition StoragesForUser (userID : uuid) : Tx (list (uuid * Storage)) :=
  d ← get_db;
  mret (merge_sort (created_before sto_CreatedAt) (order_by_id
    (base.filter (fun kv : uuid * Storage => (kv.1, userID) ∈ db_members d) (db_storage_rows d)))).

Record StorageMembership := mkStorageMembership { sm_ID : uuid; sm_Name : string; sm_StartPage : string }.

Definition StorageMembershipsForUser (userID : uuid) : Tx (list StorageMembership) :=
  d ← get_db;
  storages ← StoragesForUser userID;
  mret (omap (fun s : uuid * Storage =>
    m ← db_memberships d !! (s.1, userID); Some (mkStorageMembership s.1 (sto_Name s.2) (mem_StartPage m))) storages).

Definition start_pages : list string :=
  ["dashboard"; "inventory"; "products"; "locations"; "shopping_list"; "ingest"; "inbox"].

Definition set_start_page (page : string) (m : Member) : Member := mkMember (mem_AddedAt m) page.

(** A page the CHECK does not know is a constraint violation of a row that exists. *)
Definition SetStartPage (storageID userID : uuid) (startPage : string) : Tx unit :=
  d ← get_db;
  m ← some_or (db_memberships d !! (storageID, userID)) ErrNotFound;
  require (bool_decide (startPage ∈ start_pages)) ErrOther ;;
  modify (set_memberships (<[(storageID, userID) := set_start_page startPage m]>)).
