(* ===== verification/Gates.v ===== *)
(** * The gates: internal/httpapi/middleware.go

    Who the caller is, whether they are an admin, and which storage a request is
    about.  A gate turns a handler into one that refuses: what a handler learns about
    its caller is what the gates put into the request. *)

From Stdlib Require Import Ascii String.
From S2P Require Import Prelude Text Encoding Gamification Db Accounts Storages Json Http.

#[local] Open Scope string_scope.
#[local] Open Scope list_scope.
#[local] Open Scope Z_scope.

Definition SessionCookie := "inventory_session".
Definition LoginPage := "/index.html".

Definition with_user (u : uuid * User) (r : Request) : Request :=
  mkRequest (rq_Method r) (rq_URI r) (rq_Param r) (rq_Query r) (rq_Header r) (rq_Cookie r) (rq_RemoteAddr r) (rq_Host r) (rq_TLS r)
    (rq_Body r) (rq_Json r) (Some u) (ctx_Session r) (ctx_StorageID r).
Definition with_session (s : string * Session) (r : Request) : Request :=
  mkRequest (rq_Method r) (rq_URI r) (rq_Param r) (rq_Query r) (rq_Header r) (rq_Cookie r) (rq_RemoteAddr r) (rq_Host r) (rq_TLS r)
    (rq_Body r) (rq_Json r) (ctx_User r) (Some s) (ctx_StorageID r).
Definition with_storage (st : uuid) (r : Request) : Request :=
  mkRequest (rq_Method r) (rq_URI r) (rq_Param r) (rq_Query r) (rq_Header r) (rq_Cookie r) (rq_RemoteAddr r) (rq_Host r) (rq_TLS r)
    (rq_Body r) (rq_Json r) (ctx_User r) (ctx_Session r) (Some st).

(** strings.CutPrefix *)
Definition CutPrefix (p s : string) : option string :=
  if String.prefix p s then Some (String.substring (String.length p) (String.length s - String.length p) s) else None.

(** The cookie wins over the header. *)
Definition sessionIDFrom (r : Request) : string :=
  let bearer := match CutPrefix "Bearer " (header r "Authorization") with Some value => TrimSpace value | None => "" end in
  match rq_Cookie r with
  | Some value => if String.eqb value "" then bearer else value
  | None => bearer
  end.

Section gates.
Context `{Deployment}.

Definition lapsed (e : Err) : Failure :=
  if decide (e = ErrNotFound) then Unauthorized ReasonSessionExpired else Internal e.

(** The touch is best effort: its error is only logged. *)
Definition resolveSession (r : Request) : Hd Request :=
  let id := sessionIDFrom r in
  refuse_if (String.eqb id "") (Unauthorized ReasonSessionMissing) ;;
  session ← store (LookupSession id) lapsed;
  user ← store (UserByID (ses_UserID session.2)) lapsed;
  call (TouchSession session.1) ;;
  mret (with_session session (with_user user r)).

Definition RequireSession (next : Handler) : Handler := fun r s =>
  match resolveSession r s with
  | (inl failure, s') => (WriteError failure, s')
  | (inr authed, s') => next authed s'
  end.

(** http.Redirect; the line of HTML it writes for a reader is left out. *)
Definition Redirect (url : string) (status : Z) : Reply :=
  mkReply status (<["Location" := url]> ∅) None None None.

Definition RequireSessionRedirect (loginPage : string) (next : Handler) : Handler := fun r s =>
  match resolveSession r s with
  | (inr authed, s') => next authed s'
  | (inl failure, s') =>
    if negb (f_Status failure =? StatusUnauthorized) then (WriteError failure, s') else (Redirect loginPage StatusFound, s')
  end.

(** is_admin is read from the database on every request, device sessions included. *)
Definition admitAdmin (r : Request) : Hd Request :=
  user ← or_refuse (ctx_User r) (NotFound ReasonAdminAreaHidden);
  isAdmin ← store (IsAdmin user.1) Internal;
  refuse_if (negb isAdmin) (NotFound ReasonNotAdmin) ;;
  session ← or_refuse (ctx_Session r) (NotFound ReasonAdminAreaHidden);
  refuse_if (negb (bool_decide (ses_Kind session.2 = SessionBrowser))) (NotFound ReasonAdminAreaHidden) ;;
  mret r.

Definition RequireAdmin (next : Handler) : Handler := fun r s =>
  match admitAdmin r s with
  | (inl failure, s') => (WriteError failure, s')
  | (inr r', s') => next r' s'
  end.

(** A malformed id, a storage that does not exist and one the caller is no member
    of are refused with the same status, code and message. *)
Definition admitMember (r : Request) : Hd Request :=
  user ← or_refuse (ctx_User r) (NotFound ReasonNotStorageMember);
  storageID ← or_refuse (uuid_Parse (param r "storage_id")) (NotFound ReasonStorageNotFound);
  member ← store (IsStorageMember storageID user.1) Internal;
  refuse_if (negb member) (NotFound ReasonNotStorageMember) ;;
  mret (with_storage storageID r).

Definition RequireStorageMember (next : Handler) : Handler := fun r s =>
  match admitMember r s with
  | (inl failure, s') => (WriteError failure, s')
  | (inr r', s') => next r' s'
  end.

End gates.
