(* ===== verification/AuthApi.v ===== *)
(** * Logging in and what a caller may do to their own account

    internal/httpapi/auth.go, account.go, devices.go, membership.go and
    internal/auth/bootstrap.go: login, logout, pairing, devices, password and name,
    and the start page of a membership. *)

From Stdlib Require Import Ascii String.
From S2P Require Import Prelude Text Encoding Password Sha256 Net Gamification Db RateLimit Accounts Storages Json Http Gates.

#[local] Open Scope string_scope.
#[local] Open Scope list_scope.
#[local] Open Scope Z_scope.

Definition BrowserSessionTTL : Z := 30 * 24 * hour.
Definition DeviceSessionTTL : Z := 365 * 24 * hour.
Definition minNewPassword : Z := 10.
Definition maxNewPassword : Z := 128.
Definition maxDisplayName : Z := 255.
Definition maxDeviceLabel : nat := 64.
Definition pairingCodesPerWindow : Z := 10.
Definition pairingCodeWindow : Z := minute.

(** The server a process starts with. *)
Definition new_server (w : World) (rand : list (list ascii)) : Server :=
  mkServer w rand (newRateLimiter credentialFailuresPerWindow credentialWindow) (newRateLimiter pairingCodesPerWindow pairingCodeWindow) 0 ∅.

(** Errors of Authenticate: a bad pair, or anything else. *)
Inductive AuthError := ErrBadCredentials | AuthFailed.

Definition clientIP (r : Request) : string := hostOf (rq_RemoteAddr r).

Section api.
Context `{Deployment}.

(** ** auth.Authenticate and the first admin *)

(** An unknown name costs a digest too. *)
Definition Authenticate (username password : string) : Hd (AuthError + (uuid * User)) :=
  user ← call (UserByUsername username);
  match user with
  | Fail ErrNotFound => verify decoyHash password ;; mret (inl ErrBadCredentials)
  | Fail _ => mret (inl AuthFailed)
  | Ok user =>
    ok ← verify (usr_PasswordHash user.2) password;
    mret (match ok with
      | inl _ => inl AuthFailed
      | inr false => inl ErrBadCredentials
      | inr true => inr user
      end)
  end.

(** Whether an account was created; refused before the database is asked when a
    credential is blank. *)
Definition EnsureInitialAdmin (username password : string) : Hd bool :=
  let username := TrimSpace username in
  refuse_if (String.eqb username "" || String.eqb password "") (Internal ErrOther) ;;
  count ← store CountUsers Internal;
  if count >? 0 then mret false
  else
    hash ← hash_password password;
    store (CreateUser (mkNewUser username hash username true)) Internal ;;
    mret true.

(** ** Login, logout, me *)

Definition invalidCredentials (reason : string) : Failure :=
  mkFailure StatusUnauthorized CodeUnauthorized "Incorrect username or password." ∅ reason None 0.

Definition sessionCookie (id : string) (expires : Z) : Cookie :=
  mkCookie SessionCookie id "/" true secureCookies "Lax" (Some expires) 0.
Definition clearedCookie : Cookie := mkCookie SessionCookie "" "/" true secureCookies "Lax" None (-1).

Definition set_cookie (c : Cookie) (reply : Reply) : Reply := mkReply (rp_Status reply) (rp_Header reply) (Some c) (rp_Body reply) (rp_Data reply).

(** meResponse: no is_admin, no hash. *)
Definition storageRef (m : StorageMembership) : Json :=
  JObj [("id", uuid_json (sm_ID m)); ("name", JStr (sm_Name m)); ("start_page", JStr (sm_StartPage m))].
Definition meResponse (user : uuid * User) (storages : list StorageMembership) : Json :=
  JObj [("id", uuid_json user.1); ("username", JStr (usr_Username user.2)); ("display_name", JStr (usr_DisplayName user.2));
        ("storages", JArr (map storageRef storages))].

Definition writeMe (user : uuid * User) : Hd Reply :=
  storages ← store (StorageMembershipsForUser user.1) Internal;
  mret (writeJSON StatusOK (Some (meResponse user storages))).

Definition new_session (userID : uuid) (kind : SessionKind) (label : option string) (ttl : Z) : Hd (string * Session) :=
  buf ← rand_Read;
  store (CreateSession buf userID (Some kind) label ttl) Internal.

(** The part of a login that asks the limiter. *)
Definition login_checks (r : Request) : Hd (string * string * list string) :=
  body ← decodeJSON (fun l => username ← str_field "username" l; password ← str_field "password" l; Some (username, password)) r;
  let ip := clientIP r in
  let username := TrimSpace body.1 in
  let keys := credentialKeys ip username in
  b ← credentials_blocked keys;
  refuse_if b.2 (rateLimited b.1 ("login rate limit for " +:+ ip)) ;;
  mret (username, body.2, keys).

(** The part that verifies, after it. *)
Definition login_verifies (r : Request) (username password : string) (keys : list string) : Hd Reply :=
  if String.eqb username "" || String.eqb password "" then
    credentials_record (credentialKeys (clientIP r) "") ;;
    refuse (invalidCredentials "empty username or password")
  else
    result ← Authenticate username password;
    match result with
    | inl ErrBadCredentials =>
      credentials_record keys ;;
      refuse (invalidCredentials "bad username or password")
    | inl AuthFailed => refuse (Internal ErrOther)
    | inr user =>
      session ← new_session user.1 SessionBrowser None BrowserSessionTTL;
      credentials_reset keys ;;
      me ← writeMe user;
      mret (set_cookie (sessionCookie session.1 (ses_ExpiresAt session.2)) me)
    end.

Definition Login : Handler := handle (fun r =>
  '(username, password, keys) ← login_checks r;
  login_verifies r username password keys).

Definition Logout : Handler := handle (fun r =>
  session ← or_refuse (ctx_Session r) (Unauthorized ReasonSessionMissing);
  store (DeleteSession session.1) Internal ;;
  mret (set_cookie clearedCookie (writeJSON StatusNoContent None))).

Definition Me : Handler := handle (fun r => user ← user_of r; writeMe user).

(** ** The caller's password and name: account.go *)

Definition validateNewPassword (password : string) : option Fields :=
  let n := RuneCountInString password in
  if n <? minNewPassword then Some (field "new_password" "Must be at least 10 characters.")
  else if n >? maxNewPassword then Some (field "new_password" "Must be at most 128 characters.")
  else None.

Definition refuse_fields (fields : option Fields) : Hd unit :=
  match fields with Some fields => refuse (ValidationFailed fields None) | None => mret tt end.

Definition ChangePassword : Handler := handle (fun r =>
  user ← user_of r;
  session ← or_refuse (ctx_Session r) (Unauthorized ReasonSessionMissing);
  let keys := credentialKeys (clientIP r) "" in
  b ← credentials_blocked keys;
  refuse_if b.2 (rateLimited b.1 ("password-change rate limit for " +:+ uuid_String user.1)) ;;
  body ← decodeJSON (fun l => current ← str_field "current_password" l; new ← str_field "new_password" l; Some (current, new)) r;
  refuse_fields (validateNewPassword body.2) ;;
  correct ← verify (usr_PasswordHash user.2) body.1;
  match correct with
  | inl _ => refuse (Internal ErrOther)
  | inr false =>
    credentials_record keys ;;
    refuse (ValidationFailed (field "current_password" "That is not your current password.") None)
  | inr true =>
    hash ← hash_password body.2;
    store (Accounts.ChangePassword user.1 hash session.1)
      (fun e => FromStoreError e ("change password for " +:+ uuid_String user.1)) ;;
    credentials_reset keys ;;
    mret (writeJSON StatusNoContent None)
  end).

Definition UpdateMe : Handler := handle (fun r =>
  user ← user_of r;
  displayName ← decodeJSONStrict (plain ["display_name"]) (str_ptr "display_name") r;
  displayName ← or_refuse displayName (ValidationFailed (field "display_name" "A display name is required.") None);
  let displayName := TrimSpace displayName in
  refuse_if (String.eqb displayName "") (ValidationFailed (field "display_name" "A display name is required.") None) ;;
  refuse_if (RuneCountInString displayName >? maxDisplayName) (ValidationFailed (field "display_name" "Must be at most 255 characters.") None) ;;
  updated ← store (SetDisplayName user.1 displayName) (fun e => FromStoreError e ("set display name for " +:+ uuid_String user.1));
  writeMe updated).

(** ** Pairing and devices: devices.go *)

Definition baseURLOf (r : Request) : string :=
  let forwarded := header r "X-Forwarded-Proto" in
  let scheme := if negb (String.eqb forwarded "") then forwarded else if rq_TLS r then "https" else "http" in
  let forwardedHost := header r "X-Forwarded-Host" in
  scheme +:+ "://" +:+ (if String.eqb forwardedHost "" then rq_Host r else forwardedHost).

Definition CreatePairingCode : Handler := handle (fun r =>
  user ← user_of r;
  a ← codes_allow ("user:" +:+ uuid_String user.1);
  refuse_if (negb a.2) (rateLimited a.1 ("pairing-code rate limit for user " +:+ uuid_String user.1)) ;;
  buf ← rand_Read;
  code ← store (Accounts.CreatePairingCode buf user.1) Internal;
  mret (writeJSON StatusCreated (Some (JObj [("code", JStr code); ("base_url", JStr (baseURLOf r))])))).

Definition device_label (label : string) : string :=
  let label := TrimSpace label in
  let label := if String.eqb label "" then "Paired device" else label in
  text (take_runes maxDeviceLabel (bytes label)).

Definition rejected_code (e : Err) : Failure :=
  match e with
  | ErrNotFound | ErrConflict =>
    mkFailure StatusUnauthorized CodeUnauthorized "That pairing code is not valid." ∅ ("pairing code rejected: " +:+ error_text e) None 0
  | _ => Internal e
  end.

Definition Pair : Handler := handle (fun r =>
  let keys := credentialKeys (clientIP r) "" in
  b ← credentials_blocked keys;
  refuse_if b.2 (rateLimited b.1 ("pairing rate limit for " +:+ clientIP r)) ;;
  body ← decodeJSON (fun l => code ← str_field "code" l; label ← str_field "device_label" l; Some (code, label)) r;
  let label := device_label body.2 in
  redeemed ← call (RedeemPairingCode body.1);
  match redeemed with
  | Fail e =>
    (if bool_decide (e = ErrNotFound \/ e = ErrConflict) then credentials_record keys else mret tt) ;;
    refuse (rejected_code e)
  | Ok userID =>
    session ← new_session userID SessionDevice (Some label) DeviceSessionTTL;
    credentials_reset keys ;;
    mret (writeJSON StatusCreated (Some (JObj [("session_id", JStr session.1); ("label", JStr label);
      ("expires_at", JTime (ses_ExpiresAt session.2))])))
  end).

(** The public name of a session. *)
Definition deviceHandle (sessionID : string) : string := hex_EncodeToString (Sum256 (bytes sessionID)).

Definition kind_text (k : SessionKind) : string := match k with SessionBrowser => "browser" | SessionDevice => "device" end.

Definition deviceResponse (current : option (string * Session)) (s : string * Session) : Json :=
  JObj [("id", JStr (deviceHandle s.1)); ("kind", JStr (kind_text (ses_Kind s.2))); ("label", opt_json JStr (ses_Label s.2));
        ("created_at", JTime (ses_CreatedAt s.2)); ("last_seen_at", opt_json JTime (ses_LastSeenAt s.2));
        ("current", JBool (match current with Some c => String.eqb s.1 c.1 | None => false end))].

Definition ListDevices : Handler := handle (fun r =>
  user ← user_of r;
  sessions ← store (UserSessions user.1) Internal;
  mret (writeJSON StatusOK (Some (collection (map (deviceResponse (ctx_Session r)) sessions) None)))).

(** A handle is only looked up among the caller's own sessions. *)
Definition RevokeDevice : Handler := handle (fun r =>
  user ← user_of r;
  sessions ← store (UserSessions user.1) Internal;
  target ← or_refuse (List.find (fun s : string * Session => String.eqb (deviceHandle s.1) (param r "session_id")) sessions)
    (NotFound "session not owned by caller or nonexistent");
  store (DeleteSession target.1) Internal ;;
  mret (writeJSON StatusNoContent None)).

(** ** The caller's membership: membership.go *)

Definition StartPages : list string := merge_sort text_le start_pages.

Definition PatchMembership : Handler := handle (fun r =>
  storageID ← storage_of r;
  user ← user_of r;
  startPage ← decodeJSONStrict (plain ["start_page"]) (str_field "start_page") r;
  let startPage := TrimSpace startPage in
  refuse_if (negb (bool_decide (startPage ∈ start_pages)))
    (ValidationFailed (field "start_page" ("Choose one of: " +:+ Join StartPages ", " +:+ ".")) (Some ErrOther)) ;;
  store (SetStartPage storageID user.1 startPage)
    (fun e => if decide (e = ErrNotFound) then NotFound "membership removed between the gate and the write" else Internal e) ;;
  mret (writeJSON StatusOK (Some (JObj [("start_page", JStr startPage)])))).

(** ** Where a caller without storages is sent: navigation.go *)

Definition StoragesPage := "/storages.html".
Definition StoragesPageEmpty := "/storages.html?empty=1".
Definition adminPage := "/admin".

Definition NoStorages : Handler := handle (fun r =>
  user ← or_refuse (ctx_User r) (Internal ErrOther);
  isAdmin ← store (IsAdmin user.1) Internal;
  storages ← store (StoragesForUser user.1) Internal;
  let browser := match ctx_Session r with Some session => bool_decide (ses_Kind session.2 = SessionBrowser) | None => false end in
  mret (Redirect
    (if (0 <? Datatypes.length storages)%nat then StoragesPage else if isAdmin && browser then adminPage else StoragesPageEmpty)
    StatusFound)).

Definition noStore (next : Handler) : Handler := fun r s =>
  let '(reply, s') := next r s in
  (mkReply (rp_Status reply) (<["Cache-Control" := "no-store"]> (rp_Header reply)) (rp_Cookie reply) (rp_Body reply) (rp_Data reply), s').

End api.
