(* ===== verification/GatesSpec.v ===== *)
(** * What the gates let through

    The composed gates as one equation each: who is recognised, who is refused, with
    which reply, and what the handler behind them is given.  In production a refusal
    is one of two constants, so it tells nothing about what exists. *)

From Stdlib Require Import Ascii String.
From S2P Require Import Prelude Text Encoding Password Gamification Db RateLimit Sample Accounts Storages Json Http Gates AuthApi.

#[local] Open Scope string_scope.
#[local] Open Scope list_scope.
#[local] Open Scope Z_scope.

Section gates.
Context `{Deployment}.

(** The session and the account a request is made with. *)
Definition identity (r : Request) (w : World) : option (Session * User) :=
  ses ← db_sessions (wdb w) !! sessionIDFrom r;
  if String.eqb (sessionIDFrom r) "" || negb (wclock w <? ses_ExpiresAt ses) then None
  else row ← db_accounts (wdb w) !! ses_UserID ses; Some (ses, row).

(** A session that has lapsed is deleted as it is found. *)
Definition lapse (r : Request) (w : World) : World :=
  match db_sessions (wdb w) !! sessionIDFrom r with
  | Some ses =>
    if negb (String.eqb (sessionIDFrom r) "") && negb (wclock w <? ses_ExpiresAt ses)
    then with_db (set_sessions (delete (sessionIDFrom r)) (wdb w)) w else w
  | None => w
  end.

(** One that is used is stamped, at most once an hour. *)
Definition touched (t : string) (w : World) : World :=
  with_db (set_sessions (alter (fun s => if seen_lately (wnow w) s then s else set_last_seen (wnow w) s) t) (wdb w)) w.

Definition as_caller (r : Request) (ses : Session) (row : User) : Request :=
  with_session (sessionIDFrom r, ses) (with_user (ses_UserID ses, row) r).

Lemma with_world_eq s w : w = sv_World s -> with_world w s = s.
Proof. intros ->. apply with_world_id. Qed.

Lemma LookupSession_run t w : LookupSession t w =
  match db_sessions (wdb w) !! t with
  | None => (Fail ErrNotFound, w)
  | Some ses =>
    if negb (wclock w <? ses_ExpiresAt ses) then (Fail ErrNotFound, with_db (set_sessions (delete t) (wdb w)) w)
    else (Ok (t, ses), w)
  end.
Proof.
  unfold LookupSession. rewrite (bind_step _ get_db _ _ _ eq_refl). destruct (db_sessions (wdb w) !! t) as [ses|]; [|done].
  rewrite (bind_step _ _ w ses w), (bind_step _ time_Now _ _ _ eq_refl) by done. by destruct (negb _).
Qed.

Lemma UserByID_run u w : UserByID u w =
  match db_accounts (wdb w) !! u with None => (Fail ErrNotFound, w) | Some row => (Ok (u, row), w) end.
Proof. unfold UserByID. rewrite (bind_step _ get_db _ _ _ eq_refl). by destruct (db_accounts (wdb w) !! u). Qed.

Lemma resolveSession_spec r s : exists reason, resolveSession r s =
  match identity r (sv_World s) with
  | None => (inl (Unauthorized reason), with_world (lapse r (sv_World s)) s)
  | Some (ses, row) => (inr (as_caller r ses row), with_world (touched (sessionIDFrom r) (sv_World s)) s)
  end.
Proof.
  unfold resolveSession, identity, lapse. rewrite hd_run. destruct (String.eqb (sessionIDFrom r) "") eqn:E0.
  { exists ReasonSessionMissing. cbn [refuse_if refuse].
    destruct (db_sessions (wdb (sv_World s)) !! sessionIDFrom r); cbn; by rewrite with_world_id. }
  exists ReasonSessionExpired. cbn [refuse_if]. unfold mret, hd_ret. rewrite hd_run, store_run, LookupSession_run.
  destruct (db_sessions (wdb (sv_World s)) !! sessionIDFrom r) as [ses|] eqn:Es; [|done]. cbn [mbind option_bind orb negb andb].
  destruct (wclock (sv_World s) <? ses_ExpiresAt ses); [|done]. cbn [negb]. rewrite hd_run, store_run, UserByID_run. cbn [fst snd].
  rewrite with_world_id. destruct (db_accounts (wdb (sv_World s)) !! ses_UserID ses) as [row|]; cbn [mbind option_bind]; by rewrite ?with_world_id.
Qed.

(** The two refusals a production client can see. *)
Definition unauthenticated : Reply := WriteError (Unauthorized "").
Definition hidden : Reply := WriteError (NotFound "").

Lemma unauthorized_shown reason : dev = false -> WriteError (Unauthorized reason) = unauthenticated.
Proof. intros Hd. by rewrite WriteError_shown. Qed.
Lemma hidden_shown reason : dev = false -> WriteError (NotFound reason) = hidden.
Proof. intros Hd. by rewrite WriteError_shown. Qed.

(** The storage a path names, if the user is a member of it. *)
Definition own_storage (r : Request) (userID : uuid) (d : DB) : option uuid :=
  st ← uuid_Parse (param r "storage_id");
  if bool_decide ((st, userID) ∈ db_members d) then Some st else None.

Lemma admitMember_spec r s u row : ctx_User r = Some (u, row) -> exists reason, admitMember r s =
  (match own_storage r u (wdb (sv_World s)) with
   | None => inl (NotFound reason)
   | Some st => inr (with_storage st r)
   end, s).
Proof.
  intros Hu. unfold admitMember, own_storage. rewrite Hu. rewrite (hd_step _ _ s (u, row) s) by done.
  destruct (uuid_Parse (param r "storage_id")) as [st|]; [|exists ReasonStorageNotFound; by erewrite (hd_abort _ _ s)].
  rewrite (hd_step _ _ s st s) by done. cbn [mbind option_bind].
  rewrite (hd_step _ _ s (bool_decide ((st, u) ∈ db_members (wdb (sv_World s)))) s)
    by (erewrite store_ok_step; [by rewrite with_world_id | done]).
  exists ReasonNotStorageMember. by destruct (bool_decide _).
Qed.

Lemma members_touched t w : db_members (wdb (touched t w)) = db_members (wdb w).
Proof. done. Qed.

(** C8: What a production server answers to a request for a storage.  Without a live
    session of an existing account it is one constant 401, and a lapsed session is
    deleted; for a caller who is no member it is one constant 404, whether the id is
    malformed, names nothing, or names a storage of somebody else, and it is the 404
    of a path that does not exist; only for a member does the handler run, and it is
    given the storage the membership was checked for.  Until then nothing but the
    caller's own session row has changed. *)
Theorem storage_gate_spec (Hprod : dev = false) next r s :
  RequireSession (RequireStorageMember next) r s =
  match identity r (sv_World s) with
  | None => (unauthenticated, with_world (lapse r (sv_World s)) s)
  | Some (ses, row) =>
    let s1 := with_world (touched (sessionIDFrom r) (sv_World s)) s in
    match own_storage r (ses_UserID ses) (wdb (sv_World s)) with
    | None => (WriteError (NotFound ReasonNoRouteMatch), s1)
    | Some st => next (with_storage st (as_caller r ses row)) s1
    end
  end.
Proof.
  unfold RequireSession. destruct (resolveSession_spec r s) as [reason ->].
  destruct (identity r (sv_World s)) as [[ses row]|]; [|by rewrite unauthorized_shown]. cbv zeta.
  unfold RequireStorageMember. destruct (admitMember_spec (as_caller r ses row) (with_world (touched (sessionIDFrom r) (sv_World s)) s)
    (ses_UserID ses) row eq_refl) as [reason2 ->].
  change (own_storage (as_caller r ses row) (ses_UserID ses) (wdb (sv_World (with_world (touched (sessionIDFrom r) (sv_World s)) s))))
    with (own_storage r (ses_UserID ses) (wdb (sv_World s))).
  destruct (own_storage r (ses_UserID ses) (wdb (sv_World s))); [done|]. by rewrite !hidden_shown.
Qed.

(** What a production server answers to a request for the admin area.  The
    handler runs only for a browser session whose account is an admin in the database
    at that moment; everyone else who is logged in, a paired device of an admin
    included, gets the 404 of a path that does not exist. *)
Theorem admin_gate_spec (Hprod : dev = false) next r s :
  RequireSession (RequireAdmin next) r s =
  match identity r (sv_World s) with
  | None => (unauthenticated, with_world (lapse r (sv_World s)) s)
  | Some (ses, row) =>
    let s1 := with_world (touched (sessionIDFrom r) (sv_World s)) s in
    if usr_IsAdmin row && bool_decide (ses_Kind ses = SessionBrowser) then next (as_caller r ses row) s1
    else (WriteError (NotFound ReasonNoRouteMatch), s1)
  end.
Proof.
  unfold RequireSession. destruct (resolveSession_spec r s) as [reason ->].
  destruct (identity r (sv_World s)) as [[ses row]|] eqn:Hid; [|by rewrite unauthorized_shown]. cbv zeta.
  set (s1 := with_world _ s). unfold RequireAdmin, admitAdmin.
  rewrite (hd_step _ _ s1 (ses_UserID ses, row) s1) by done.
  rewrite (hd_step _ _ s1 (usr_IsAdmin row) s1); cycle 1.
  { unfold identity in Hid. destruct (db_sessions _ !! _) as [ses'|]; [|done]. cbn in Hid. destruct (_ || _); [done|].
    destruct (db_accounts (wdb (sv_World s)) !! ses_UserID ses') as [row'|] eqn:Er; [|done]. injection Hid as -> ->.
    erewrite store_ok_step; [by rewrite with_world_id|]. unfold IsAdmin. rewrite (bind_step _ get_db _ _ _ eq_refl).
    change (db_accounts (wdb (sv_World s1))) with (db_accounts (wdb (sv_World s))). cbn [fst]. by rewrite Er. }
  destruct (usr_IsAdmin row); cbn [negb andb].
  2: { unfold refuse_if. erewrite (hd_abort _ _ s1) by done. by rewrite !hidden_shown. }
  rewrite (hd_step _ _ s1 tt s1), (hd_step _ _ s1 (sessionIDFrom r, ses) s1) by done. cbn [snd].
  destruct (bool_decide (ses_Kind ses = SessionBrowser)); cbn [negb]; [done|].
  unfold refuse_if. erewrite (hd_abort _ _ s1) by done. by rewrite !hidden_shown.
Qed.
End gates.

(** ** A production server for the witnesses *)

#[export] Instance production : Deployment := {|
  dev := false;
  secureCookies := true;
  uuid_Parse := ParseInt;
  uuid_String := FormatInt;
  IDKey := sample_key;
  error_text := fun _ => "store error";
  decoyHash := HashPassword sample_key (bytes "sixteen bytes..!") "inventory-decoy-fallback-value--";
|}.

Definition sample_hash : string := HashPassword sample_key (bytes "sixteen bytes..!") "correct horse".

(** The sample household with two logins: Ada in a browser, who is an admin, and her
    phone. *)
Definition login_db : DB :=
  set_accounts (fun m => <[10 := mkUser "ada" sample_hash "Ada" true 0]> m) (
  set_sessions (fun _ => <["browser" := mkSession 10 SessionBrowser None None 0 hour]>
    (<["phone" := mkSession 10 SessionDevice (Some "Phone") None 0 hour]> ∅)) sample_db).

Definition login_server : Server :=
  new_server (mkWorld login_db [100; 101; 102] second second) [repeat zero 32; repeat one 32].

Definition request (cookie : string) (path : gmap string string) (body : Decoded) : Request :=
  mkRequest "POST" "/" path ∅ ∅ (Some cookie) "10.0.0.9:4000" "inventory.local" false [] body None None None.

Definition answer (status : Z) : Handler := fun r s => (writeJSON status None, s).

(** Storage 2 exists, storage 7 does not: to Ada, a member of neither, they are the
    same. *)
Lemma storage_gate_spec_witness :
  let to (st : string) := request "browser" {["storage_id" := st]} Malformed in
  let gate := RequireSession (RequireStorageMember (answer 200)) in
  rp_Status (gate (to "1") login_server).1 = 200 /\
  (gate (to "2") login_server).1 = (gate (to "7") login_server).1 /\
  (gate (to "2") login_server).1 = (gate (to "nonsense") login_server).1 /\
  rp_Status (gate (to "2") login_server).1 = 404.
Proof.
  cbv zeta. rewrite !(@storage_gate_spec production eq_refl). vm_compute. split_and!; reflexivity.
Defined.

Lemma admin_gate_spec_witness :
  let gate := RequireSession (RequireAdmin (answer 200)) in
  rp_Status (gate (request "browser" ∅ Malformed) login_server).1 = 200 /\
  rp_Status (gate (request "phone" ∅ Malformed) login_server).1 = 404.
Proof. cbv zeta. rewrite !(@admin_gate_spec production eq_refl). vm_compute. split; reflexivity. Defined.
