(* ===== verification/AuthSpec.v ===== *)
(** * What a login does

    A login hands out a session only for the right password, spends the same work
    and gives the same answer for a wrong password and for an unknown name, and
    spends none while it is blocked. *)

From Stdlib Require Import Ascii String.
From S2P Require Import Prelude Text Encoding Password Net Gamification Db RateLimit Sample Accounts Storages Json Http Gates AuthApi GatesSpec.

#[local] Open Scope string_scope.
#[local] Open Scope list_scope.
#[local] Open Scope Z_scope.

Section login.
Context `{Deployment}.

(** The two fields of the form, as they are used. *)
Definition login_form (r : Request) : Failure + (string * string) :=
  match rq_Json r with
  | TooLarge => inl PayloadTooLarge
  | Malformed => inl bad_json
  | Value j =>
    match read_struct (fun l => username ← str_field "username" l; password ← str_field "password" l; Some (username, password)) j with
    | Some (username, password) => inr (TrimSpace username, password)
    | None => inl bad_json
    end
  end.

Definition form_keys (r : Request) (username : string) : list string := credentialKeys (clientIP r) username.

Definition is_blocked (r : Request) (username : string) (s : Server) : Z * bool :=
  blocked (sv_Credentials s) (wclock (sv_World s)) (form_keys r username).

Lemma login_checks_run r s : login_checks r s =
  match login_form r with
  | inl f => (inl f, s)
  | inr (username, password) =>
    let b := is_blocked r username s in
    if b.2 then (inl (rateLimited b.1 ("login rate limit for " +:+ clientIP r)), s)
    else (inr (username, password, form_keys r username), s)
  end.
Proof.
  unfold login_checks, decodeJSON, login_form. rewrite hd_run. destruct (rq_Json r) as [| |j]; [done | done |].
  destruct (read_struct _ j) as [[username password]|]; [|done]. cbn [or_refuse]. unfold mret, hd_ret. cbv zeta. cbn [fst snd].
  rewrite hd_run. unfold credentials_blocked. rewrite hd_run. unfold is_blocked, form_keys.
  by destruct (blocked _ _ _) as [wait [|]].
Qed.

Definition charged (keys : list string) (s : Server) : Server :=
  with_credentials (record (sv_Credentials s) (wclock (sv_World s)) keys) s.

Definition digest_of (encoded : string) : Z := match decodeHash encoded with inl _ => 0 | inr _ => 1 end.
Definition with_digests (n : Z) (s : Server) : Server :=
  mkServer (sv_World s) (sv_Rand s) (sv_Credentials s) (sv_PairingCodes s) (sv_Digests s + n) (sv_Files s).

Lemma UserByUsername_run username w : UserByUsername username w =
  (match user_named (wdb w) username with Some u => Ok u | None => Fail ErrNotFound end, w).
Proof. unfold UserByUsername. rewrite (bind_step _ get_db _ _ _ eq_refl). by destruct (user_named (wdb w) username). Qed.

Lemma Authenticate_run username password s : Authenticate username password s =
  match user_named (wdb (sv_World s)) username with
  | None => (inr (inl ErrBadCredentials), with_digests (digest_of decoyHash) s)
  | Some u =>
    (inr (match VerifyPassword IDKey (usr_PasswordHash u.2) password with
      | inl _ => inl AuthFailed | inr false => inl ErrBadCredentials | inr true => inr u end),
     with_digests (digest_of (usr_PasswordHash u.2)) s)
  end.
Proof.
  unfold Authenticate. rewrite hd_run. unfold call. rewrite UserByUsername_run, with_world_id.
  by destruct (user_named (wdb (sv_World s)) username).
Qed.

(** What a refused login leaves: its keys charged, one digest spent. *)
Definition refused (keys : list string) (cost : Z) (s : Server) : Server := charged keys (with_digests cost s).

Lemma login_fails_run r username password s keys :
  username ≠ "" -> password ≠ "" ->
  match user_named (wdb (sv_World s)) username with
  | None => True
  | Some u => VerifyPassword IDKey (usr_PasswordHash u.2) password = inr false
  end ->
  login_verifies r username password keys s =
    (inl (invalidCredentials "bad username or password"),
     refused keys (digest_of (match user_named (wdb (sv_World s)) username with None => decoyHash | Some u => usr_PasswordHash u.2 end)) s).
Proof.
  intros Hu Hp Hv. unfold login_verifies. destruct (String.eqb_spec username ""); [done|]. destruct (String.eqb_spec password ""); [done|].
  cbn [orb]. rewrite hd_run, Authenticate_run. destruct (user_named _ username) as [u|]; [|done]. by rewrite Hv.
Qed.

(** C23: A wrong password and an unknown name get the same reply, byte for byte and
    in production and in dev alike, charge the same keys and cost the same work:
    whoever sees only the answers and what the server spends cannot tell who has an
    account. *)
Theorem login_failures_alike r s1 s2 username password u row
    (Hform : login_form r = inr (username, password)) (Husername : username ≠ "") (Hpassword : password ≠ "")
    (Hclock : wclock (sv_World s1) = wclock (sv_World s2))
    (Hcounters : sv_Credentials s1 = sv_Credentials s2) (Hspent : sv_Digests s1 = sv_Digests s2)
    (Hunknown : user_named (wdb (sv_World s1)) username = None)
    (Hknown : user_named (wdb (sv_World s2)) username = Some (u, row))
    (Hwrong : VerifyPassword IDKey (usr_PasswordHash row) password = inr false)
    (Hdecoy : decodeHash decoyHash <> inl ErrInvalidHash) :
  (Login r s1).1 = (Login r s2).1 /\
  sv_Credentials (Login r s1).2 = sv_Credentials (Login r s2).2 /\
  sv_Digests (Login r s1).2 = sv_Digests (Login r s2).2.
Proof.
  unfold Login, handle. rewrite !hd_run, !login_checks_run, Hform. cbv zeta. unfold is_blocked. rewrite Hclock, Hcounters.
  destruct (blocked (sv_Credentials s2) (wclock (sv_World s2)) (form_keys r username)) as [wait [|]]; cbn [fst snd]; [by split_and!|].
  rewrite (login_fails_run _ _ _ s1) by (try done; by rewrite Hunknown).
  rewrite (login_fails_run _ _ _ s2) by (try done; by rewrite Hknown).
  rewrite Hunknown, Hknown. cbn [fst snd]. split; [done|].
  assert (E : digest_of decoyHash = digest_of (usr_PasswordHash row)).
  { unfold digest_of. unfold VerifyPassword in Hwrong. destruct (decodeHash (usr_PasswordHash row)) as [e|]; [done|].
    destruct (decodeHash decoyHash) as [[]|]; done. }
  rewrite E. unfold refused, charged, with_digests, with_credentials. cbn. split; congruence.
Qed.

(** The next random bytes make a token that is not in use. *)
Definition fresh_token (s : Server) (token : string) : Prop :=
  exists buf rest, sv_Rand s = buf :: rest /\ NewToken buf = Some token /\ db_sessions (wdb (sv_World s)) !! token = None.

(** A login that succeeds, from the user it is for: one session, the counters of the
    address and of the name reset, one digest, the cookie. *)
Definition logged_in (r : Request) (s : Server) (username token : string) (u : uuid * User) (reply : Reply) (s' : Server) : Prop :=
  let d := wdb (sv_World s) in
  let row := mkSession u.1 SessionBrowser None None (wnow (sv_World s)) (wnow (sv_World s) + BrowserSessionTTL) in
  wdb (sv_World s') = set_sessions (<[token := row]>) d /\
  sv_Credentials s' = reset (sv_Credentials s) (form_keys r username) /\
  sv_PairingCodes s' = sv_PairingCodes s /\ sv_Digests s' = sv_Digests s + digest_of (usr_PasswordHash u.2) /\ sv_Files s' = sv_Files s /\
  rp_Status reply = StatusOK /\ rp_Cookie reply = Some (sessionCookie token (ses_ExpiresAt row)) /\
  exists storages, StorageMembershipsForUser u.1 (sv_World s') = (Ok storages, sv_World s') /\ rp_Body reply = Some (meResponse u storages).

Lemma StorageMemberships_run u w : exists l, StorageMembershipsForUser u w = (Ok l, w).
Proof. unfold StorageMembershipsForUser, StoragesForUser. eexists. reflexivity. Qed.

Lemma writeMe_run u s : exists l, StorageMembershipsForUser u.1 (sv_World s) = (Ok l, sv_World s) /\
  writeMe u s = (inr (writeJSON StatusOK (Some (meResponse u l))), s).
Proof.
  unfold writeMe. rewrite hd_run, store_run. destruct (StorageMemberships_run u.1 (sv_World s)) as [l E]. rewrite E.
  rewrite with_world_id. by exists l.
Qed.

Lemma CreateSession_fresh buf token u kind label ttl w :
  NewToken buf = Some token -> db_sessions (wdb w) !! token = None -> u ∈ db_users (wdb w) ->
  let row := mkSession u (default SessionBrowser kind) label None (wnow w) (wnow w + ttl) in
  CreateSession buf u kind label ttl w = (Ok (token, row), with_db (set_sessions (<[token := row]>) (wdb w)) w).
Proof.
  intros Ht Hn Hu row. unfold CreateSession. rewrite Ht. cbn [some_or].
  rewrite (bind_step _ _ w token w), (bind_step _ get_db _ _ _ eq_refl), (bind_step _ now _ _ _ eq_refl) by done.
  unfold require. rewrite !bool_decide_eq_true_2 by done. reflexivity.
Qed.

Lemma CreateSession_stale buf u kind label ttl w :
  (forall token, NewToken buf = Some token -> is_Some (db_sessions (wdb w) !! token)) ->
  CreateSession buf u kind label ttl w = (Fail ErrOther, w).
Proof.
  intros Hs. unfold CreateSession. destruct (NewToken buf) as [token|]; [|done]. cbn [some_or].
  rewrite (bind_step _ _ w token w), (bind_step _ get_db _ _ _ eq_refl), (bind_step _ now _ _ _ eq_refl) by done.
  unfold require. rewrite bool_decide_eq_false_2; [done|]. intros E. destruct (Hs token eq_refl) as [? X]. congruence.
Qed.

Lemma NewToken_nil : NewToken [] = None.
Proof. reflexivity. Qed.

(** A right password: a session is added and the counters start again, or, without
    an unused token, nothing but the digest and the random bytes is spent. *)
Lemma login_right_run r username password s keys u :
  keys = form_keys r username ->
  user_named (wdb (sv_World s)) username = Some u -> VerifyPassword IDKey (usr_PasswordHash u.2) password = inr true ->
  username ≠ "" -> password ≠ "" ->
  (forall token, fresh_token s token -> exists reply s', login_verifies r username password keys s = (inr reply, s') /\ logged_in r s username token u reply s') /\
  ((forall token, ~ fresh_token s token) -> exists s', login_verifies r username password keys s = (inl (Internal ErrOther), s') /\
    sv_World s' = sv_World s /\ sv_Credentials s' = sv_Credentials s /\ sv_Digests s' = sv_Digests s + digest_of (usr_PasswordHash u.2)).
Proof.
  intros -> Hu Hv Hne Hp. unfold login_verifies. destruct (String.eqb_spec username ""); [done|]. destruct (String.eqb_spec password ""); [done|].
  cbn [orb]. rewrite hd_run, Authenticate_run, Hu, Hv. set (s0 := with_digests _ s). unfold new_session. rewrite hd_run, hd_run.
  assert (Hin : u.1 ∈ db_users (wdb (sv_World s))).
  { destruct u as [i row]. apply user_named_some in Hu as [Hu _]. by apply elem_of_dom. }
  split.
  - intros token (buf & rest & Er & Ht & Hn).
    assert (E : rand_Read s0 = (inr buf, mkServer (sv_World s) rest (sv_Credentials s) (sv_PairingCodes s) (sv_Digests s0) (sv_Files s)))
      by (unfold rand_Read, s0; cbn; by rewrite Er).
    rewrite E, store_run. cbn [sv_World]. rewrite (CreateSession_fresh buf token) by done. rewrite hd_run. unfold credentials_reset. rewrite hd_run.
    match goal with |- context [writeMe u ?x] => destruct (writeMe_run u x) as (l & El & ->) end.
    eexists _, _. split; [reflexivity|]. unfold logged_in. split_and!; try reflexivity. exists l. by split.
  - intros Hno.
    assert (Hr : exists buf rest, rand_Read s0 = (inr buf, mkServer (sv_World s) rest (sv_Credentials s) (sv_PairingCodes s) (sv_Digests s0) (sv_Files s)) /\
      forall token, NewToken buf = Some token -> is_Some (db_sessions (wdb (sv_World s)) !! token)).
    { unfold rand_Read, s0. cbn. destruct (sv_Rand s) as [|buf rest] eqn:Er; [exists [], []; rewrite NewToken_nil, <- Er; by destruct s|].
      exists buf, rest. split; [done|]. intros token Ht. destruct (db_sessions _ !! token) eqn:D; [done|]. exfalso. apply (Hno token).
      by exists buf, rest. }
    destruct Hr as (buf & rest & E & Hs). rewrite E, store_run. cbn [sv_World]. rewrite CreateSession_stale by done.
    eexists. split; [reflexivity|]. by split_and!.
Qed.

(** C9: What a login does on every branch.  A form that does not decode is refused
    and nothing changes; a caller one of whose counters blocks is told to wait and
    nothing changes, not even a digest is spent; a blank field is refused and the
    address alone is charged; an unknown name or a wrong password is refused, the
    counters of the address and of the name are charged and one digest is spent; a
    stored hash that does not decode is an internal error that charges nobody.  A
    right password is let in whenever the random bytes give an unused token: exactly
    one session of that user with thirty days to live is added, both counters are
    reset, and the cookie carries the token; otherwise it is an internal error, and
    no table and no counter changes. *)
Theorem Login_spec r s :
  let d := wdb (sv_World s) in
  match login_form r with
  | inl f => Login r s = (WriteError f, s)
  | inr (username, password) =>
    let b := is_blocked r username s in
    let keys := credentialKeys (clientIP r) username in
    if b.2 then Login r s = (WriteError (rateLimited b.1 ("login rate limit for " +:+ clientIP r)), s)
    else if String.eqb username "" || String.eqb password "" then
      Login r s = (WriteError (invalidCredentials "empty username or password"), charged (credentialKeys (clientIP r) "") s)
    else match user_named d username with
      | None => Login r s = (WriteError (invalidCredentials "bad username or password"), charged keys (with_digests (digest_of decoyHash) s))
      | Some u =>
        match VerifyPassword IDKey (usr_PasswordHash u.2) password with
        | inl _ => Login r s = (WriteError (Internal ErrOther), with_digests (digest_of (usr_PasswordHash u.2)) s)
        | inr false =>
          Login r s = (WriteError (invalidCredentials "bad username or password"), charged keys (with_digests (digest_of (usr_PasswordHash u.2)) s))
        | inr true =>
          (forall token, fresh_token s token -> logged_in r s username token u (Login r s).1 (Login r s).2) /\
          ((forall token, ~ fresh_token s token) -> (Login r s).1 = WriteError (Internal ErrOther) /\
            sv_World (Login r s).2 = sv_World s /\ sv_Credentials (Login r s).2 = sv_Credentials s)
        end
      end
  end.
Proof.
  cbv zeta. unfold Login, handle. rewrite hd_run, login_checks_run. destruct (login_form r) as [f|[username password]]; [done|].
  cbv zeta. destruct (is_blocked r username s).2; [done|].
  destruct (String.eqb username "" || String.eqb password "") eqn:Hblank; [unfold login_verifies; by rewrite Hblank|].
  apply orb_false_iff in Hblank as [Hu Hp]. apply String.eqb_neq in Hu, Hp.
  destruct (user_named (wdb (sv_World s)) username) as [u|] eqn:Hn.
  - destruct (VerifyPassword IDKey (usr_PasswordHash u.2) password) as [e|[|]] eqn:Hv.
    + unfold login_verifies. rewrite (proj2 (String.eqb_neq _ _) Hu), (proj2 (String.eqb_neq _ _) Hp). cbn [orb].
      by rewrite hd_run, Authenticate_run, Hn, Hv.
    + destruct (login_right_run r username password s (form_keys r username) u eq_refl Hn Hv Hu Hp) as [A B]. split.
      * intros token Ht. destruct (A token Ht) as (reply & s' & -> & L). exact L.
      * intros Hno. destruct (B Hno) as (s' & -> & Ew & Ec & _). done.
    + rewrite (login_fails_run r username password s _ Hu Hp) by (by rewrite Hn). by rewrite Hn.
  - rewrite (login_fails_run r username password s _ Hu Hp) by (by rewrite Hn). by rewrite Hn.
Qed.
End login.

(** ** Concrete logins *)

Definition login_request (username password : string) : Request :=
  request "" ∅ (Value (JObj [("username", JStr username); ("password", JStr password)])).

(** The same server with nobody on it. *)
Definition empty_server : Server := with_world (with_db (set_accounts (fun _ => ∅) login_db) (sv_World login_server)) login_server.

Lemma login_failures_alike_witness :
  (Login (login_request "ada" "battery staple") empty_server).1 = (Login (login_request "ada" "battery staple") login_server).1 /\
  sv_Digests (Login (login_request "ada" "battery staple") empty_server).2 = 1.
Proof.
  split; [|vm_compute; reflexivity].
  apply (@login_failures_alike production (login_request "ada" "battery staple") empty_server login_server "ada" "battery staple" 10
    (mkUser "ada" sample_hash "Ada" true 0)).
  - vm_compute. reflexivity.
  - discriminate.
  - discriminate.
  - reflexivity.
  - reflexivity.
  - reflexivity.
  - vm_compute. reflexivity.
  - vm_compute. reflexivity.
  - vm_compute. reflexivity.
  - vm_compute. discriminate.
Defined.

(** What the random bytes of [login_server] are spelled as. *)
Definition login_token : string := default "" (NewToken (hd [] (sv_Rand login_server))).

Lemma Login_spec_witness :
  rp_Status (Login (login_request " ada " "correct horse") login_server).1 = 200 /\
  exists u, logged_in (login_request " ada " "correct horse") login_server "ada" login_token u (Login (login_request " ada " "correct horse") login_server).1
    (Login (login_request " ada " "correct horse") login_server).2.
Proof.
  split; [vm_compute; reflexivity|].
  exists (10, mkUser "ada" sample_hash "Ada" true 0).
  pose proof (@Login_spec production (login_request " ada " "correct horse") login_server) as L.
  assert (Hf : login_form (login_request " ada " "correct horse") = inr ("ada", "correct horse")) by (vm_compute; reflexivity).
  rewrite Hf in L. cbv zeta in L.
  assert (Hb : (is_blocked (login_request " ada " "correct horse") "ada" login_server).2 = false) by (vm_compute; reflexivity).
  rewrite Hb in L. change (String.eqb "ada" "" || String.eqb "correct horse" "") with false in L. cbv iota in L.
  assert (Hu : user_named (wdb (sv_World login_server)) "ada" = Some (10, mkUser "ada" sample_hash "Ada" true 0)) by (vm_compute; reflexivity).
  rewrite Hu in L. cbn [snd usr_PasswordHash] in L.
  assert (Hv : VerifyPassword (@IDKey production) sample_hash "correct horse" = inr true) by (vm_compute; reflexivity).
  rewrite Hv in L. apply (proj1 L). exists (hd [] (sv_Rand login_server)), (tl (sv_Rand login_server)). vm_compute. split_and!; reflexivity.
Defined.

(** ** Requests that are served at the same time

    The limiter is asked before the digest is computed and charged after it, in two
    calls.  Requests that all ask before the first of them has been answered are all
    let through, however many they are. *)

Fixpoint verify_all (rs : list (Request * (string * string * list string))) (s : Server) `{Deployment} : Server :=
  match rs with
  | [] => s
  | (r, (username, password, keys)) :: rest => verify_all rest (login_verifies r username password keys s).2
  end.

(** Forty wrong guesses at once: all of them pass the check, all of them are
    verified, and only then is the counter at forty. *)
Theorem concurrent_guesses_outrun_limiter :
  let r := login_request "ada" "battery staple" in
  let keys := credentialKeys "10.0.0.9" "ada" in
  (forall n, Forall (fun x => login_checks x login_server = (inr ("ada", "battery staple", keys), login_server)) (replicate n r)) /\
  let after := verify_all (replicate 40 (r, ("ada", "battery staple", keys))) login_server in
  sv_Digests after = 40 /\ (rw_count <$> rl_windows (sv_Credentials after) !! "user:ada") = Some 40.
Proof.
  cbv zeta. split; [|split; vm_compute; reflexivity].
  intros n. apply Forall_replicate. vm_compute. reflexivity.
Qed.
