(* ===== verification/Idempotency.v ===== *)
(** * Writes that are safe to repeat: internal/store/idempotency.go, internal/httpapi/idempotency.go

    A write that carries a key runs once; a repeat of the key gets the stored answer.
    First the store and the middleware as one request sees it; then many requests at
    once, as steps of threads over the lock table and the shared server. *)

From Stdlib Require Import Ascii String.
From S2P Require Import Prelude Gamification Text Encoding Json Sha256 Db RateLimit Http Sample Gates AuthApi GatesSpec.

#[local] Open Scope string_scope.
#[local] Open Scope list_scope.
#[local] Open Scope Z_scope.

(** ** The store *)

Definition IdempotencyRetention : Z := 7 * 24 * hour.

Record IdempotentResponse := mkResponse { ir_Status : Z; ir_Body : option Json }.

Definition nul : ascii := zero.

Definition HashRequest (method path : string) (body : list ascii) : string :=
  hex_EncodeToString (Sum256 (bytes method ++ nul :: bytes path ++ nul :: body)).

Definition LookupIdempotent (key : string) (userID : uuid) (requestHash : string) : Tx (option IdempotentResponse) :=
  d ← get_db;
  match db_idempotency d !! (key, userID) with
  | None => mret None
  | Some rec =>
    require (String.eqb (idem_RequestHash rec) requestHash) ErrValidation ;;
    mret (Some (mkResponse (idem_Status rec) (idem_Body rec)))
  end.

(** INSERT ... ON CONFLICT DO NOTHING; the user and the storage must exist. *)
Definition RecordIdempotent (key : string) (userID : uuid) (storageID : option uuid) (requestHash : string) (status : Z)
    (body : option Json) : Tx unit :=
  require (negb (String.eqb key "")) ErrValidation ;;
  d ← get_db;
  t ← now;
  match db_idempotency d !! (key, userID) with
  | Some _ => mret tt
  | None =>
    require (bool_decide (userID ∈ db_users d)
             && match storageID with None => true | Some st => bool_decide (st ∈ db_storages d) end) ErrOther ;;
    modify (set_idempotency (<[(key, userID) := mkIdem storageID requestHash status body t]>))
  end.

Definition SweepIdempotencyRecords (t : Z) : Tx Z :=
  d ← get_db;
  let old := fun kv : string * uuid * IdempotencyRecord => idem_CreatedAt kv.2 < t - IdempotencyRetention in
  modify (set_idempotency (base.filter (fun kv : string * uuid * IdempotencyRecord => ~ idem_CreatedAt kv.2 < t - IdempotencyRetention))) ;;
  mret (Z.of_nat (size (base.filter old (db_idempotency d)))).

(** ** The middleware *)

Definition IdempotencyKeyHeader := "Idempotency-Key".
Definition IdempotentReplayHeader := "Idempotent-Replayed".
Definition maxIdempotentBody : Z := 26 * 2 ^ 20.

Definition isWrite (method : string) : bool := bool_decide (method ∈ ["POST"; "PUT"; "PATCH"; "DELETE"]).

Definition worthRecording (status : Z) : bool := (status <? 500) && negb (status =? StatusTooManyRequests).

Definition replay (stored : IdempotentResponse) : Reply :=
  let headers := <[IdempotentReplayHeader := "true"]> (<["Cache-Control" := "no-store"]> ∅) in
  mkReply (ir_Status stored)
    (match ir_Body stored with Some _ => <["Content-Type" := "application/json; charset=utf-8"]> headers | None => headers end)
    None (ir_Body stored) None.

(** A keyed write: its key, its user and its fingerprint. *)
Record Keyed := mkKeyed { kd_Key : string; kd_User : uuid; kd_Hash : string }.

Definition record_key (q : Keyed) : string * uuid := (kd_Key q, kd_User q).

Section middleware.
Context `{Deployment}.

(** What is decided before the lock: pass through, refuse, or a keyed write. *)
Definition keyed (r : Request) : Failure + option Keyed :=
  let key := header r IdempotencyKeyHeader in
  if String.eqb key "" || negb (isWrite (rq_Method r)) then inr None
  else match uuid_Parse key with
  | None => inl (ValidationFailed (field IdempotencyKeyHeader "Must be a UUID generated by the client.") (Some ErrOther))
  | Some _ =>
    match ctx_User r with
    | None => inl (Internal ErrOther)
    | Some user =>
      if maxIdempotentBody <? Z.of_nat (Datatypes.length (rq_Body r)) then inl PayloadTooLarge
      else inr (Some (mkKeyed key user.1 (HashRequest (rq_Method r) (rq_URI r) (rq_Body r))))
    end
  end.

Definition key_reused (e : Err) : Failure :=
  if decide (e = ErrValidation) then
    mkFailure StatusUnprocessableEntity CodeValidationFailed "The request could not be processed."
      (field IdempotencyKeyHeader "This key was already used for a different request.") "" (Some e) 0
  else Internal e.

(** A reply that is decided without running the request, if there is one. *)
Definition stored_reply (q : Keyed) : Hd (option Reply) :=
  stored ← store (LookupIdempotent (kd_Key q) (kd_User q) (kd_Hash q)) key_reused;
  mret (replay <$> stored).

(** A failing write of the record is only logged. *)
Definition record_reply (q : Keyed) (r : Request) (reply : Reply) : Hd (Res unit) :=
  if worthRecording (rp_Status reply)
  then call (RecordIdempotent (kd_Key q) (kd_User q) (ctx_StorageID r) (kd_Hash q) (rp_Status reply) (rp_Body reply))
  else mret (Fail ErrOther).

Definition lookup_step (q : Keyed) (s : Server) : option Reply :=
  match stored_reply q s with
  | (inl failure, _) => Some (WriteError failure)
  | (inr reply, _) => reply
  end.

(** One request with the lock to itself. *)
Definition Middleware (next : Handler) : Handler := fun r s =>
  match keyed r with
  | inl failure => (WriteError failure, s)
  | inr None => next r s
  | inr (Some q) =>
    match lookup_step q s with
    | Some reply => (reply, s)
    | None =>
      let '(reply, s1) := next r s in
      (reply, (record_reply q r reply s1).2)
    end
  end.

(** ** Many requests at once *)

(** keyLock: who holds the mutex, and how many requests use it. *)
Record KeyLock := mkKeyLock { kl_Owner : option nat; kl_Refs : Z }.

Inductive PC :=
| Arrived
| Waiting (l : nat)
| Locked (l : nat)
| Missed (l : nat)
| Ran (l : nat) (reply : Reply)
| Settled (l : nat) (reply : Reply)
| Unlocked (l : nat) (reply : Reply)
| Answered (reply : Reply).

Record Thread := mkThread { th_Request : Request; th_PC : PC }.

(** What happened to keyed writes and to their records, oldest first. *)
Inductive Event :=
| EvRan (q : Keyed) (reply : Reply)
| EvRecorded (q : Keyed) (t : Z) (reply : Reply)
| EvReplayed (q : Keyed) (reply : Reply)
(** a sweep at [t], and a deletion whose cascade took records with it *)
| EvSwept (t : Z) (gone : gset (string * uuid))
| EvDropped (gone : gset (string * uuid)).

Record Sys := mkSys {
  sy_Server : Server;
  sy_Heap : gmap nat KeyLock;
  sy_Held : gmap string nat;
  sy_Threads : gmap nat Thread;
  sy_Log : list Event;
}.

(** user.ID.String() + "\x00" + key *)
Definition lock_key (q : Keyed) : string := text (bytes (uuid_String (kd_User q)) ++ nul :: bytes (kd_Key q)).

Definition set_pc (i : nat) (r : Request) (pc : PC) (s : Sys) : Sys :=
  mkSys (sy_Server s) (sy_Heap s) (sy_Held s) (<[i := mkThread r pc]> (sy_Threads s)) (sy_Log s).
Definition set_server (sv : Server) (s : Sys) : Sys := mkSys sv (sy_Heap s) (sy_Held s) (sy_Threads s) (sy_Log s).
Definition set_locks (heap : gmap nat KeyLock) (held : gmap string nat) (s : Sys) : Sys :=
  mkSys (sy_Server s) heap held (sy_Threads s) (sy_Log s).
Definition set_owner (l : nat) (o : option nat) (k : KeyLock) (s : Sys) : Sys :=
  set_locks (<[l := mkKeyLock o (kl_Refs k)]> (sy_Heap s)) (sy_Held s) s.
Definition log_events (es : list Event) (s : Sys) : Sys :=
  mkSys (sy_Server s) (sy_Heap s) (sy_Held s) (sy_Threads s) (sy_Log s ++ es).
Definition log_event (e : Event) (s : Sys) : Sys := log_events [e] s.

Definition at_pc (s : Sys) (i : nat) (r : Request) (pc : PC) : Prop := sy_Threads s !! i = Some (mkThread r pc).

(** The records a server holds. *)
Definition records (sv : Server) := db_idempotency (wdb (sv_World sv)).

(** The records that are gone from one server to the next, as an event if there are any. *)
Definition lost (sv sv' : Server) : gset (string * uuid) := dom (records sv) ∖ dom (records sv').
Definition drops (sv sv' : Server) : list Event := if decide (lost sv sv' = ∅) then [] else [EvDropped (lost sv sv')].

(** The server once the records were swept. *)
Definition swept (t : Z) (sv : Server) : Server := (call (SweepIdempotencyRecords t) sv).2.

Inductive idem_step (next : Handler) : Sys -> Sys -> Prop :=
| id_refuse s i r f : at_pc s i r Arrived -> keyed r = inl f ->
    idem_step next s (set_pc i r (Answered (WriteError f)) s)
| id_bypass s i r reply sv : at_pc s i r Arrived -> keyed r = inr None -> next r (sy_Server s) = (reply, sv) ->
    idem_step next s (log_events (drops (sy_Server s) sv) (set_pc i r (Answered reply) (set_server sv s)))
(** the map's mutex is held: the lock of the key is found ... *)
| id_join s i r q l k : at_pc s i r Arrived -> keyed r = inr (Some q) -> sy_Held s !! lock_key q = Some l -> sy_Heap s !! l = Some k ->
    idem_step next s (set_pc i r (Waiting l) (set_locks (<[l := mkKeyLock (kl_Owner k) (kl_Refs k + 1)]> (sy_Heap s)) (sy_Held s) s))
(** ... or made *)
| id_create s i r q l : at_pc s i r Arrived -> keyed r = inr (Some q) -> sy_Held s !! lock_key q = None -> sy_Heap s !! l = None ->
    idem_step next s (set_pc i r (Waiting l) (set_locks (<[l := mkKeyLock None 1]> (sy_Heap s)) (<[lock_key q := l]> (sy_Held s)) s))
| id_lock s i r l k : at_pc s i r (Waiting l) -> sy_Heap s !! l = Some k -> kl_Owner k = None ->
    idem_step next s (set_pc i r (Locked l) (set_owner l (Some i) k s))
| id_hit s i r l q reply : at_pc s i r (Locked l) -> keyed r = inr (Some q) -> lookup_step q (sy_Server s) = Some reply ->
    idem_step next s (log_event (EvReplayed q reply) (set_pc i r (Settled l reply) s))
| id_miss s i r l q : at_pc s i r (Locked l) -> keyed r = inr (Some q) -> lookup_step q (sy_Server s) = None ->
    idem_step next s (set_pc i r (Missed l) s)
| id_run s i r l q reply sv : at_pc s i r (Missed l) -> keyed r = inr (Some q) -> next r (sy_Server s) = (reply, sv) ->
    idem_step next s (log_events (EvRan q reply :: drops (sy_Server s) sv) (set_pc i r (Ran l reply) (set_server sv s)))
| id_record s i r l q reply sv : at_pc s i r (Ran l reply) -> keyed r = inr (Some q) ->
    record_reply q r reply (sy_Server s) = (inr (Ok tt), sv) ->
    idem_step next s (log_event (EvRecorded q (wnow (sv_World (sy_Server s))) reply) (set_pc i r (Settled l reply) (set_server sv s)))
| id_unrecorded s i r l q reply sv e : at_pc s i r (Ran l reply) -> keyed r = inr (Some q) ->
    record_reply q r reply (sy_Server s) = (inr (Fail e), sv) ->
    idem_step next s (set_pc i r (Settled l reply) (set_server sv s))
| id_unlock s i r l k reply : at_pc s i r (Settled l reply) -> sy_Heap s !! l = Some k ->
    idem_step next s (set_pc i r (Unlocked l reply) (set_owner l None k s))
(** the map's mutex is held again: the last one out removes the lock *)
| id_release s i r l k q reply : at_pc s i r (Unlocked l reply) -> keyed r = inr (Some q) -> sy_Heap s !! l = Some k ->
    idem_step next s (set_pc i r (Answered reply)
      (set_locks (<[l := mkKeyLock (kl_Owner k) (kl_Refs k - 1)]> (sy_Heap s))
        (if kl_Refs k - 1 =? 0 then delete (lock_key q) (sy_Held s) else sy_Held s) s))
(** the daily sweep, by the clock of the process *)
| id_sweep s : let t := wclock (sv_World (sy_Server s)) in
    idem_step next s (log_event (EvSwept t (lost (sy_Server s) (swept t (sy_Server s)))) (set_server (swept t (sy_Server s)) s))
(** everything else the process does: it writes no record, but the deletion of a user or
    of a storage takes theirs with it *)
| id_elsewhere s sv : records sv ⊆ records (sy_Server s) ->
    idem_step next s (log_events (drops (sy_Server s) sv) (set_server sv s)).

(** The step of thread [i], if it can take one; [id_sweep] and [id_elsewhere] are nobody's. *)
Definition advance (next : Handler) (i : nat) (s : Sys) : option Sys :=
  t ← sy_Threads s !! i;
  let r := th_Request t in
  let q := keyed r in
  match th_PC t, q with
  | Arrived, inl f => Some (set_pc i r (Answered (WriteError f)) s)
  | Arrived, inr None => let '(reply, sv) := next r (sy_Server s) in Some (log_events (drops (sy_Server s) sv) (set_pc i r (Answered reply) (set_server sv s)))
  | Arrived, inr (Some q) =>
    match sy_Held s !! lock_key q with
    | Some l => k ← sy_Heap s !! l;
      Some (set_pc i r (Waiting l) (set_locks (<[l := mkKeyLock (kl_Owner k) (kl_Refs k + 1)]> (sy_Heap s)) (sy_Held s) s))
    | None =>
      let l := fresh (dom (sy_Heap s)) in
      Some (set_pc i r (Waiting l) (set_locks (<[l := mkKeyLock None 1]> (sy_Heap s)) (<[lock_key q := l]> (sy_Held s)) s))
    end
  | Waiting l, _ => k ← sy_Heap s !! l;
    match kl_Owner k with None => Some (set_pc i r (Locked l) (set_owner l (Some i) k s)) | Some _ => None end
  | Locked l, inr (Some q) => Some
      match lookup_step q (sy_Server s) with
      | Some reply => log_event (EvReplayed q reply) (set_pc i r (Settled l reply) s)
      | None => set_pc i r (Missed l) s
      end
  | Missed l, inr (Some q) =>
    let '(reply, sv) := next r (sy_Server s) in
    Some (log_events (EvRan q reply :: drops (sy_Server s) sv) (set_pc i r (Ran l reply) (set_server sv s)))
  | Ran l reply, inr (Some q) =>
    match record_reply q r reply (sy_Server s) with
    | (inr (Ok tt), sv) => 
      Some (log_event (EvRecorded q (wnow (sv_World (sy_Server s))) reply) (set_pc i r (Settled l reply) (set_server sv s)))
    | (inr (Fail _), sv) => Some (set_pc i r (Settled l reply) (set_server sv s))
    | (inl _, _) => None
    end
  | Settled l reply, _ => k ← sy_Heap s !! l; Some (set_pc i r (Unlocked l reply) (set_owner l None k s))
  | Unlocked l reply, inr (Some q) => k ← sy_Heap s !! l;
    Some (set_pc i r (Answered reply)
      (set_locks (<[l := mkKeyLock (kl_Owner k) (kl_Refs k - 1)]> (sy_Heap s))
        (if kl_Refs k - 1 =? 0 then delete (lock_key q) (sy_Held s) else sy_Held s) s))
  | _, _ => None
  end.

Definition schedule (next : Handler) (order : list nat) (s : Sys) : option Sys :=
  foldl (fun s i => s ≫= advance next i) (Some s) order.

Definition arrivals (sv : Server) (rs : gmap nat Request) : Sys := mkSys sv ∅ ∅ ((fun r => mkThread r Arrived) <$> rs) [].

End middleware.

(** * A keyed write runs once

    Invariants of the threads of Idempotency.v: a key's lock is held by at most one
    request, a record excludes runs of its key.  From them: once an outcome is
    recorded, no request with its key runs again, and each is answered from the
    record. *)

#[local] Open Scope string_scope.
#[local] Open Scope list_scope.
#[local] Open Scope Z_scope.

Section idempotency.
Context `{Deployment}.
Context (next : Handler).
(** The handler writes no record; a deletion it carries out may take some with it. *)
Context (Hnext : forall r s, records (next r s).2 ⊆ records s).

Definition holds (pc : PC) : option nat :=
  match pc with Locked l | Missed l | Ran l _ | Settled l _ => Some l | _ => None end.
Definition uses (pc : PC) : option nat :=
  match pc with Waiting l | Unlocked l _ => Some l | _ => holds pc end.
(** Between the lookup that found nothing and the record. *)
Definition running (pc : PC) : bool := match pc with Missed _ | Ran _ _ => true | _ => false end.

Definition users (l : nat) (ts : gmap nat Thread) : Z := msum (fun t => if decide (uses (th_PC t) = Some l) then 1 else 0) ts.

(** What a request with a recorded key is answered. *)
Definition answer_of (q : Keyed) (rec : IdempotencyRecord) : Reply :=
  if String.eqb (idem_RequestHash rec) (kd_Hash q) then replay (mkResponse (idem_Status rec) (idem_Body rec))
  else WriteError (key_reused ErrValidation).

Definition records_of (q : Keyed) (t : Z) (reply : Reply) (rec : IdempotencyRecord) : Prop :=
  idem_RequestHash rec = kd_Hash q /\ idem_Status rec = rp_Status reply /\ idem_Body rec = rp_Body reply /\ idem_CreatedAt rec = t.

(** What may follow the record of [q] in the log, as long as the record is there ... *)
Definition follows (q : Keyed) (rec : IdempotencyRecord) (e : Event) : Prop :=
  match e with
  | EvRan q' _ | EvRecorded q' _ _ => record_key q' ≠ record_key q
  | EvReplayed q' reply' => record_key q' = record_key q -> reply' = answer_of q' rec
  | EvSwept _ gone | EvDropped gone => record_key q ∉ gone
  end.

(** ... and what ends it: a sweep once the record is older than the retention, or a
    deletion of its user or of its storage. *)
Definition removes (q : Keyed) (rec : IdempotencyRecord) (e : Event) : Prop :=
  match e with
  | EvSwept t gone => record_key q ∈ gone /\ idem_CreatedAt rec < t - IdempotencyRetention
  | EvDropped gone => record_key q ∈ gone
  | _ => False
  end.

Definition kept (q : Keyed) (rec : IdempotencyRecord) (recs : gmap (string * uuid) IdempotencyRecord) (post : list Event) : Prop :=
  (recs !! record_key q = Some rec /\ Forall (follows q rec) post) \/
  exists mid e rest, post = mid ++ e :: rest /\ Forall (follows q rec) mid /\ removes q rec e.

Record threads_ok (s : Sys) : Prop := {
  tok_owner : forall i r pc l, at_pc s i r pc -> holds pc = Some l -> exists k, sy_Heap s !! l = Some k /\ kl_Owner k = Some i;
  tok_held : forall i r pc l, at_pc s i r pc -> uses pc = Some l -> exists q, keyed r = inr (Some q) /\ sy_Held s !! lock_key q = Some l;
  tok_refs : forall l k, sy_Heap s !! l = Some k -> kl_Refs k = users l (sy_Threads s);
  tok_heap : forall key l, sy_Held s !! key = Some l -> is_Some (sy_Heap s !! l);
}.

Lemma users_insert l i t t' ts : ts !! i = Some t ->
  users l (<[i := t']> ts) = users l ts - (if decide (uses (th_PC t) = Some l) then 1 else 0) + (if decide (uses (th_PC t') = Some l) then 1 else 0).
Proof. intros Hi. unfold users. by rewrite (msum_insert_Some _ _ _ t t' Hi). Qed.

Lemma users_none l ts : (forall i t, ts !! i = Some t -> uses (th_PC t) ≠ Some l) -> users l ts = 0.
Proof. intros Hn. apply msum_zero. intros i t Ht. rewrite decide_False; [done | by eapply Hn]. Qed.

Lemma users_zero l ts i t : users l ts = 0 -> ts !! i = Some t -> uses (th_PC t) ≠ Some l.
Proof.
  intros Hz Ht Hu. unfold users in Hz. pose proof (msum_delete (fun t => if decide (uses (th_PC t) = Some l) then 1 else 0) ts i t Ht) as E.
  cbv beta in E. rewrite (decide_True _ _ Hu) in E.
  assert (0 <= msum (fun t => if decide (uses (th_PC t) = Some l) then 1 else 0) (delete i ts)) by (apply msum_nonneg; intros; case_decide; lia).
  lia.
Qed.

Lemma at_pc_insert s i r pc j r' pc' (heap : gmap nat KeyLock) (held : gmap string nat) sv log :
  sy_Threads (mkSys sv heap held (<[i := mkThread r pc]> (sy_Threads s)) log) !! j = Some (mkThread r' pc') ->
  (j = i /\ r' = r /\ pc' = pc) \/ (j ≠ i /\ at_pc s j r' pc').
Proof. cbn. rewrite lookup_insert. case_decide; intros; simplify_eq; auto. Qed.

Ltac count_users := repeat case_decide; simplify_eq; try done; lia.

(** A thread moves on and keeps the lock it uses; the holder stays the owner. *)
Lemma threads_moved s i r pc pc' sv log :
  threads_ok s -> at_pc s i r pc -> uses pc' = uses pc -> (holds pc' = holds pc \/ holds pc' = None) ->
  threads_ok (mkSys sv (sy_Heap s) (sy_Held s) (<[i := mkThread r pc']> (sy_Threads s)) log).
Proof.
  intros [J1 J2 J3 J4] Hi Hu Hh. split; cbn.
  - intros j r' p l Hj Hl. apply at_pc_insert in Hj as [(-> & -> & ->)|[_ Hj]]; [|by eapply J1].
    destruct Hh as [Hh|Hh]; [|congruence]. eapply J1; [exact Hi | congruence].
  - intros j r' p l Hj Hl. apply at_pc_insert in Hj as [(-> & -> & ->)|[_ Hj]]; [|by eapply J2].
    eapply J2; [exact Hi | congruence].
  - intros l k Hl. rewrite (J3 l k Hl). rewrite (users_insert l i (mkThread r pc)) by done. cbn. rewrite Hu. lia.
  - exact J4.
Qed.

Lemma threads_ok_step s s' : idem_step next s s' -> threads_ok s -> threads_ok s'.
Proof.
  intros Hstep J. destruct Hstep; unfold set_pc, set_server, set_locks, set_owner, log_event, log_events; cbn;
    try (by eapply (threads_moved s i r); eauto).
  - (* join *) destruct J as [J1 J2 J3 J4]. split; cbn.
    + intros j r' p l' Hj Hl. apply at_pc_insert in Hj as [(-> & -> & ->)|[Hne Hj]]; [done|].
      destruct (J1 j r' p l' Hj Hl) as (k' & Hk' & Ho). rewrite lookup_insert. case_decide; [subst l'|by exists k'].
      eexists. split; [done|]. cbn. congruence.
    + intros j r' p l' Hj Hl. apply at_pc_insert in Hj as [(-> & -> & ->)|[Hne Hj]]; [|by eapply J2].
      injection Hl as <-. by exists q.
    + intros l' k' Hl. rewrite (users_insert l' i (mkThread r Arrived)) by done. cbn. rewrite lookup_insert in Hl. case_decide as D.
      * subst l'. injection Hl as <-. cbn. rewrite (J3 l k) by done. count_users.
      * rewrite (J3 l' k') by done. count_users.
    + intros key l' Hl. rewrite lookup_insert. case_decide; [done | by eapply J4].
  - (* create *) destruct J as [J1 J2 J3 J4].
    assert (Hfree : forall j r' p, at_pc s j r' p -> uses p ≠ Some l).
    { intros j r' p Hj Hl. destruct (J2 j r' p l Hj Hl) as (q' & _ & Hh). apply J4 in Hh as [k' Hk']. congruence. }
    split; cbn.
    + intros j r' p l' Hj Hl. apply at_pc_insert in Hj as [(-> & -> & ->)|[Hne Hj]]; [done|].
      destruct (J1 j r' p l' Hj Hl) as (k' & Hk' & Ho). exists k'. split; [|done]. rewrite lookup_insert_ne by congruence. done.
    + intros j r' p l' Hj Hl. apply at_pc_insert in Hj as [(-> & -> & ->)|[Hne Hj]].
      * injection Hl as <-. exists q. split; [done | by rewrite lookup_insert_eq].
      * destruct (J2 j r' p l' Hj Hl) as (q' & Hq' & Hh). exists q'. split; [done|]. rewrite lookup_insert_ne; [done | congruence].
    + intros l' k' Hl. rewrite (users_insert l' i (mkThread r Arrived)) by done. cbn. rewrite lookup_insert in Hl. case_decide as D.
      * subst l'. injection Hl as <-. cbn. rewrite (users_none l); [count_users|]. intros j [r' p] Hj. by eapply Hfree.
      * rewrite (J3 l' k') by done. count_users.
    + intros key l' Hl. rewrite lookup_insert in Hl. case_decide; [injection Hl as <-; rewrite lookup_insert_eq; eauto|].
      destruct (J4 key l' Hl) as [k' Hk']. exists k'. rewrite lookup_insert_ne; [done | congruence].
  - (* lock *) destruct J as [J1 J2 J3 J4]. split; cbn.
    + intros j r' p l' Hj Hl. apply at_pc_insert in Hj as [(-> & -> & ->)|[Hne Hj]].
      * injection Hl as <-. exists (mkKeyLock (Some i) (kl_Refs k)). by rewrite lookup_insert_eq.
      * destruct (J1 j r' p l' Hj Hl) as (k' & Hk' & Ho). exists k'. split; [|done]. rewrite lookup_insert_ne; [done|]. congruence.
    + intros j r' p l' Hj Hl. apply at_pc_insert in Hj as [(-> & -> & ->)|[Hne Hj]]; [|by eapply J2].
      injection Hl as <-. by eapply (J2 i r (Waiting l)).
    + intros l' k' Hl. rewrite (users_insert l' i (mkThread r (Waiting l))) by done. cbn. rewrite lookup_insert in Hl. case_decide as D.
      * subst l'. injection Hl as <-. cbn. rewrite (J3 l k) by done. count_users.
      * rewrite (J3 l' k') by done. count_users.
    + intros key l' Hl. rewrite lookup_insert. case_decide; [done | by eapply J4].
  - (* unlock *) destruct J as [J1 J2 J3 J4]. split; cbn.
    + intros j r' p l' Hj Hl. apply at_pc_insert in Hj as [(-> & -> & ->)|[Hne Hj]]; [done|].
      destruct (J1 j r' p l' Hj Hl) as (k' & Hk' & Ho). exists k'. split; [|done]. rewrite lookup_insert_ne; [done|].
      intros <-. match goal with Hi : at_pc s i r _ |- _ => destruct (J1 i r _ l Hi eq_refl) as (k2 & Hk2 & Ho2) end.
      assert (k2 = k') as -> by congruence. congruence.
    + intros j r' p l' Hj Hl. apply at_pc_insert in Hj as [(-> & -> & ->)|[Hne Hj]]; [|by eapply J2].
      injection Hl as <-. by eapply (J2 i r (Settled l reply)).
    + intros l' k' Hl. rewrite (users_insert l' i (mkThread r (Settled l reply))) by done. cbn. rewrite lookup_insert in Hl. case_decide as D.
      * subst l'. injection Hl as <-. cbn. rewrite (J3 l k) by done. count_users.
      * rewrite (J3 l' k') by done. count_users.
    + intros key l' Hl. rewrite lookup_insert. case_decide; [done | by eapply J4].
  - (* release *) destruct J as [J1 J2 J3 J4].
    assert (Hq : sy_Held s !! lock_key q = Some l).
    { match goal with Hi : at_pc s i r _ |- _ => destruct (J2 i r _ l Hi eq_refl) as (q' & Hq' & Hh) end.
      by replace q with q' by congruence. }
    split; cbn.
    + intros j r' p l' Hj Hl. apply at_pc_insert in Hj as [(-> & -> & ->)|[Hne Hj]]; [done|].
      destruct (J1 j r' p l' Hj Hl) as (k' & Hk' & Ho). rewrite lookup_insert. case_decide; [subst l'|by exists k'].
      eexists. split; [done|]. cbn. congruence.
    + intros j r' p l' Hj Hl. apply at_pc_insert in Hj as [(-> & -> & ->)|[Hne Hj]]; [done|].
      destruct (J2 j r' p l' Hj Hl) as (q' & Hq' & Hh). exists q'. split; [done|].
      destruct (Z.eqb_spec (kl_Refs k - 1) 0) as [Ez|]; [|done]. rewrite lookup_delete_ne; [done|]. intros E.
      assert (l' = l) as -> by congruence.
      assert (Hz : users l (<[i := mkThread r (Answered reply)]> (sy_Threads s)) = 0).
      { rewrite (users_insert l i (mkThread r (Unlocked l reply))) by done. cbn. rewrite <- (J3 l k) by done. count_users. }
      eapply (users_zero l _ j (mkThread r' p)); [exact Hz | by rewrite lookup_insert_ne | exact Hl].
    + intros l' k' Hl. rewrite (users_insert l' i (mkThread r (Unlocked l reply))) by done. cbn. rewrite lookup_insert in Hl. case_decide as D.
      * subst l'. injection Hl as <-. cbn. rewrite (J3 l k) by done. count_users.
      * rewrite (J3 l' k') by done. count_users.
    + intros key l' Hl. rewrite lookup_insert. case_decide; [done|]. eapply (J4 key).
      destruct (kl_Refs k - 1 =? 0); [by apply lookup_delete_Some in Hl as [_ Hl] | exact Hl].
  - (* sweep *) by destruct J.
  - (* elsewhere *) by destruct J.
Qed.

Lemma LookupIdempotent_run key user hash w :
  LookupIdempotent key user hash w = match db_idempotency (wdb w) !! (key, user) with
    | None => (Ok None, w)
    | Some rec => if String.eqb (idem_RequestHash rec) hash then (Ok (Some (mkResponse (idem_Status rec) (idem_Body rec))), w)
                  else (Fail ErrValidation, w)
    end.
Proof.
  unfold LookupIdempotent. rewrite (bind_step _ get_db _ _ _ eq_refl). destruct (db_idempotency (wdb w) !! _); [|done].
  unfold require. by destruct (String.eqb _ _).
Qed.

Lemma lookup_step_run q sv : lookup_step q sv = answer_of q <$> records sv !! record_key q.
Proof.
  unfold lookup_step, stored_reply, records, record_key. rewrite hd_run, store_run, LookupIdempotent_run.
  destruct (db_idempotency _ !! _) as [rec|]; [|done]. cbn. unfold answer_of. by destruct (String.eqb _ _).
Qed.

Lemma record_reply_ok q r reply sv sv' :
  record_reply q r reply sv = (inr (Ok tt), sv') -> records sv !! record_key q = None ->
  exists rec, records sv' = <[record_key q := rec]> (records sv) /\ records_of q (wnow (sv_World sv)) reply rec.
Proof.
  unfold record_reply. destruct (worthRecording _); [|done]. intros (w' & E & ->)%call_inr Hn.
  unfold RecordIdempotent in E. tx_inv. unfold records, record_key in *. rewrite Hn in E. tx_inv.
  eexists. split; [reflexivity | done].
Qed.

Lemma record_reply_fail q r reply sv sv' e :
  record_reply q r reply sv = (inr (Fail e), sv') -> records sv' = records sv.
Proof.
  unfold record_reply. destruct (worthRecording _); [|by intros [= _ <-]]. intros (w' & E & ->)%call_inr.
  unfold RecordIdempotent, mbind, tx_bind, require, get_db, now, modify, throw, mret, tx_ret in E. repeat case_match; by simplify_eq.
Qed.

(** Two requests between lookup and record never share a key. *)
Lemma one_runner s i j r r' p p' q q' :
  threads_ok s -> at_pc s i r p -> at_pc s j r' p' -> running p = true -> running p' = true ->
  keyed r = inr (Some q) -> keyed r' = inr (Some q') -> record_key q = record_key q' -> i = j.
Proof.
  intros [J1 J2 _ _] Hi Hj Rp Rp' Hq Hq' [= Ek Eu].
  assert (exists l, holds p = Some l /\ uses p = Some l) as (l & Hl & Ul) by (destruct p; try done; by eexists).
  assert (exists l, holds p' = Some l /\ uses p' = Some l) as (l' & Hl' & Ul') by (destruct p'; try done; by eexists).
  destruct (J2 i r p l Hi Ul) as (q1 & Hq1 & Hh). destruct (J2 j r' p' l' Hj Ul') as (q2 & Hq2 & Hh').
  assert (q1 = q) as -> by congruence. assert (q2 = q') as -> by congruence.
  unfold lock_key in *. rewrite Ek, Eu in Hh. assert (l' = l) as -> by congruence.
  destruct (J1 i r p l Hi Hl) as (k & Hk & Ho). destruct (J1 j r' p' l Hj Hl') as (k' & Hk' & Ho'). congruence.
Qed.

Definition fresh_runs (s : Sys) : Prop :=
  forall i r pc q, at_pc s i r pc -> running pc = true -> keyed r = inr (Some q) -> records (sy_Server s) !! record_key q = None.

Definition kept_log (s : Sys) : Prop :=
  forall pre q t reply post, sy_Log s = pre ++ EvRecorded q t reply :: post ->
    exists rec, records_of q t reply rec /\ kept q rec (records (sy_Server s)) post.

(** What a step does to the records and the log: every record there is kept or removed
    by what the step logs, and so is one that it writes. *)
Definition extends (s s' : Sys) : Prop :=
  exists es, sy_Log s' = sy_Log s ++ es /\
    (forall q rec, records (sy_Server s) !! record_key q = Some rec -> kept q rec (records (sy_Server s')) es) /\
    (forall pre q t reply post, es = pre ++ EvRecorded q t reply :: post ->
       exists rec, records_of q t reply rec /\ kept q rec (records (sy_Server s')) post).

Lemma kept_here q rec recs post : recs !! record_key q = Some rec -> Forall (follows q rec) post -> kept q rec recs post.
Proof. intros. left. by split. Qed.

Lemma drops_kept q rec sv sv' : records sv' ⊆ records sv -> records sv !! record_key q = Some rec -> kept q rec (records sv') (drops sv sv').
Proof.
  intros Hsub Hrec. unfold drops. assert (Hin : record_key q ∈ dom (records sv)) by (apply elem_of_dom; eauto).
  destruct (records sv' !! record_key q) as [rec'|] eqn:E.
  - assert (rec' = rec) as -> by (apply (lookup_weaken _ (records sv)) in E; [congruence | done]).
    apply kept_here; [done|]. case_decide; constructor; [|constructor]. cbn. unfold lost. apply not_elem_of_difference. right. apply elem_of_dom. eauto.
  - assert (Hl : record_key q ∈ lost sv sv') by (unfold lost; apply elem_of_difference; split; [done | by apply not_elem_of_dom]).
    rewrite decide_False by (intros X; set_solver). right. by exists [], (EvDropped (lost sv sv')), [].
Qed.

Lemma drops_no_record sv sv' pre q t reply post : drops sv sv' ≠ pre ++ EvRecorded q t reply :: post.
Proof. unfold drops. case_decide; destruct pre as [|? [|]]; discriminate. Qed.

Lemma swept_records t sv : records (swept t sv) = base.filter (fun kv : string * uuid * IdempotencyRecord => ~ idem_CreatedAt kv.2 < t - IdempotencyRetention) (records sv).
Proof. reflexivity. Qed.

Lemma swept_kept q rec t sv : records sv !! record_key q = Some rec -> kept q rec (records (swept t sv)) [EvSwept t (lost sv (swept t sv))].
Proof.
  intros Hrec. assert (Hin : record_key q ∈ dom (records sv)) by (apply elem_of_dom; eauto).
  destruct (decide (idem_CreatedAt rec < t - IdempotencyRetention)) as [Hold|Hyoung].
  - right. exists [], (EvSwept t (lost sv (swept t sv))), []. split_and!; [done | constructor|]. split; [|done].
    unfold lost. apply elem_of_difference. split; [done|]. apply not_elem_of_dom. rewrite swept_records. apply map_lookup_filter_None. right.
    intros x Hx. rewrite Hrec in Hx. injection Hx as <-. cbn. tauto.
  - assert (E : records (swept t sv) !! record_key q = Some rec) by (rewrite swept_records; apply map_lookup_filter_Some; by split).
    apply kept_here; [done|]. constructor; [|constructor]. cbn. unfold lost. apply not_elem_of_difference. right. apply elem_of_dom. eauto.
Qed.

Lemma next_records r sv reply sv' : next r sv = (reply, sv') -> records sv' ⊆ records sv.
Proof. intros E. pose proof (Hnext r sv) as Hn. by rewrite E in Hn. Qed.

(** A step that logs nothing and leaves the records alone. *)
Lemma extends_quiet s s' : sy_Log s' = sy_Log s -> records (sy_Server s') = records (sy_Server s) -> extends s s'.
Proof.
  intros El Er. exists []. rewrite app_nil_r, Er. split_and!; [done | | by intros [] ]. intros q rec Hrec. apply kept_here; [done | constructor].
Qed.

Lemma step_extends s s' : idem_step next s s' -> fresh_runs s -> extends s s'.
Proof.
  intros Hstep Hf. destruct Hstep; try (by apply extends_quiet).
  - eexists. split; [reflexivity|]. split; [|intros pre q t reply' post E; by apply drops_no_record in E].
    intros q rec. apply drops_kept. by eapply next_records.
  - eexists. split; [reflexivity|]. split; [|by intros [|? []]]. cbn. intros q1 rec Hrec. apply kept_here; [done|].
    constructor; [|constructor]. cbn. intros E. match goal with Hl : lookup_step _ _ = _ |- _ => rewrite lookup_step_run, E, Hrec in Hl; by injection Hl end.
  - assert (Hnone : records (sy_Server s) !! record_key q = None) by eauto.
    eexists. split; [reflexivity|]. cbn. split.
    + intros q1 rec Hrec. assert (Hne : record_key q ≠ record_key q1) by congruence.
      match goal with Hn : next _ _ = _ |- _ => apply next_records in Hn; destruct (drops_kept q1 rec _ _ Hn Hrec) as [[K1 K2]|(mid & e & rest & -> & K1 & K2)] end.
      * left. split; [done|]. by constructor.
      * right. exists (EvRan q reply :: mid), e, rest. split_and!; [done | by constructor | done].
    + intros pre q1 t reply' post E. destruct pre as [|? pre]; [discriminate|]. injection E as _ E. by apply drops_no_record in E.
  - match goal with Hr : record_reply _ _ _ _ = _ |- _ => apply record_reply_ok in Hr as (rec & Er & Hrec) end; [|by eauto].
    assert (Hnone : records (sy_Server s) !! record_key q = None) by eauto.
    eexists. split; [reflexivity|]. cbn. rewrite Er. split.
    + intros q1 rec1 Hrec1. assert (Hne : record_key q ≠ record_key q1) by congruence. apply kept_here; [by rewrite lookup_insert_ne|].
      constructor; [exact Hne | constructor].
    + intros [|? []] q1 t reply1 post E; try discriminate E. injection E as <- <- <- <-. exists rec. split; [done|].
      apply kept_here; [by rewrite lookup_insert_eq | constructor].
  - match goal with Hr : record_reply _ _ _ _ = _ |- _ => apply record_reply_fail in Hr end. by apply extends_quiet.
  - eexists. split; [reflexivity|]. split; [|by intros [|? []]]. intros q rec. apply swept_kept.
  - eexists. split; [reflexivity|]. split; [|intros pre q t reply' post E; by apply drops_no_record in E].
    intros q rec. by apply drops_kept.
Qed.

(** A thread runs in [s'] because it ran in [s], or because its lookup just missed. *)
Lemma step_running s s' j r p q : idem_step next s s' -> at_pc s' j r p -> running p = true -> keyed r = inr (Some q) ->
  (exists p0, at_pc s j r p0 /\ running p0 = true) \/ (sy_Server s' = sy_Server s /\ lookup_step q (sy_Server s) = None).
Proof.
  intros Hstep Hj Hp Hq. destruct Hstep; unfold set_pc, set_server, set_locks, set_owner, log_event, log_events in *;
    try (apply at_pc_insert in Hj as [(-> & -> & ->)|[_ Hj]]; [try discriminate Hp | by left; eexists]).
  - right. split; [done|]. by replace q with q0 by congruence.
  - left. eexists. split; [eassumption | done].
  - left. by eexists.
  - left. by eexists.
Qed.

(** Records only come from a request that runs; everything else can only remove them. *)
Lemma step_writes s s' : idem_step next s s' -> fresh_runs s ->
  records (sy_Server s') ⊆ records (sy_Server s) \/
  exists i r l q reply rec, at_pc s i r (Ran l reply) /\ keyed r = inr (Some q) /\ at_pc s' i r (Settled l reply) /\
    records (sy_Server s') = <[record_key q := rec]> (records (sy_Server s)).
Proof.
  intros Hstep Hf. destruct Hstep; try (by left); cbn.
  - left. by eapply next_records.
  - left. by eapply next_records.
  - right. match goal with Hr : record_reply _ _ _ _ = _ |- _ => apply record_reply_ok in Hr as (rec & Er & _) end; [|by eauto].
    exists i, r, l, q, reply, rec. split_and!; [done | done | | done]. unfold at_pc. cbn. by rewrite lookup_insert_eq.
  - left. match goal with Hr : record_reply _ _ _ _ = _ |- _ => by apply record_reply_fail in Hr as -> end.
  - left. change (records (swept t (sy_Server s)) ⊆ records (sy_Server s)). rewrite swept_records. apply map_filter_subseteq.
Qed.

Lemma step_fresh s s' : idem_step next s s' -> threads_ok s -> fresh_runs s -> fresh_runs s'.
Proof.
  intros Hstep J Hf j r p q Hj Hp Hq.
  destruct (step_running _ _ _ _ _ _ Hstep Hj Hp Hq) as [(p0 & H0 & R0)|[-> Hmiss]].
  2: { rewrite lookup_step_run in Hmiss. by destruct (records _ !! _). }
  destruct (step_writes _ _ Hstep Hf) as [Hsub|(i & r1 & l & q1 & reply & rec & Hi & Hq1 & Hi' & ->)].
  { eapply lookup_weaken_None; [exact (Hf j r p0 q H0 R0 Hq) | exact Hsub]. }
  rewrite lookup_insert_ne; [exact (Hf j r p0 q H0 R0 Hq)|]. intros E.
  assert (i = j) as -> by exact (one_runner s i j r1 r _ p0 q1 q J Hi H0 eq_refl R0 Hq1 Hq E). unfold at_pc in *. by simplify_eq.
Qed.

Lemma extends_kept s s' : extends s s' -> kept_log s -> kept_log s'.
Proof.
  intros (es & El & Hold & Hnew) Hk pre q t reply post Hlog. rewrite El in Hlog.
  apply app_eq_app in Hlog as (l & [[E1 E2]|[_ E2]]); [|by eapply Hnew].
  destruct l as [|e l]; [cbn in E2; by eapply (Hnew [])|]. injection E2 as <- ->.
  destruct (Hk pre q t reply l E1) as (rec & Hrec & Hkept). exists rec. split; [done|].
  destruct Hkept as [[K1 K2]|(mid & e & rest & -> & K1 & K2)].
  - destruct (Hold q rec K1) as [[K3 K4]|(mid & e & rest & -> & K3 & K4)].
    + apply kept_here; [done|]. by apply Forall_app.
    + right. exists (l ++ mid), e, rest. split_and!; [by rewrite <- app_assoc | by apply Forall_app | done].
  - right. exists mid, e, (rest ++ es). split_and!; [by rewrite <- app_assoc | done | done].
Qed.

Lemma reachable_ok sv rs s : rtc (idem_step next) (arrivals sv rs) s -> threads_ok s /\ fresh_runs s /\ kept_log s.
Proof.
  intros Hr. apply (rtc_ind_r (R := idem_step next) (fun s => threads_ok s /\ fresh_runs s /\ kept_log s) (arrivals sv rs)); [| |exact Hr].
  - assert (Harr : forall i r pc, at_pc (arrivals sv rs) i r pc -> pc = Arrived).
    { intros i r pc. unfold at_pc. cbn. rewrite lookup_fmap_Some. by intros (? & [= _ <-] & _). }
    split_and!.
    + split; cbn; [by intros i r pc l ->%Harr | by intros i r pc l ->%Harr | done | done].
    + by intros i r pc q ->%Harr.
    + intros pre q t reply post. by destruct pre.
  - intros s1 s2 _ Hstep (J & Hf & Hk). split_and!.
    + by eapply threads_ok_step.
    + by eapply step_fresh.
    + eapply extends_kept; [by apply step_extends | done].
Qed.


Lemma advance_step i s s' : advance next i s = Some s' -> idem_step next s s'.
Proof.
  unfold advance. intros ([r pc] & Hi & E)%bind_Some. cbn in E.
  destruct pc; destruct (keyed r) as [f|[q|]] eqn:Hq; try discriminate E.
  all: repeat match type of E with
    | _ ≫= _ = Some _ => apply bind_Some in E as (? & ? & E)
    | context [match ?x with _ => _ end] =>
      lazymatch type of x with bool => fail | _ => destruct x eqn:?; try discriminate E end
    end; injection E as <-.
  all: try (by econstructor; eauto).
  eapply id_create; [exact Hi | exact Hq | done|]. apply not_elem_of_dom, is_fresh.
Qed.

Lemma schedule_reaches order s s' : schedule next order s = Some s' -> rtc (idem_step next) s s'.
Proof.
  revert s. induction order as [|i order IH]; intros s E; [injection E as <-; apply rtc_refl|].
  unfold schedule in E. cbn in E. destruct (advance next i s) as [s1|] eqn:E1.
  - eapply rtc_l; [by eapply advance_step | by apply IH].
  - exfalso. clear -E. induction order; [done | auto].
Qed.


End idempotency.

(** Two copies of one write and a different write under the same key: whoever is first
    runs, the copy is answered the same, the other is refused. *)
Definition keyed_request (body : string) : Request :=
  mkRequest "POST" "/batches" ∅ ∅ {[IdempotencyKeyHeader := "77"]} None "10.0.0.9:4000" "inventory.local" false (bytes body)
    Malformed (Some (10, mkUser "ada" "" "Ada" true 0)) None (Some 1).

Definition three_writes : gmap nat Request := <[0%nat := keyed_request "milk"]> (<[1%nat := keyed_request "milk"]> (<[2%nat := keyed_request "soap"]> ∅)).

Definition outcomes (s : Sys) : list (bool * Z) :=
  omap (fun e => match e with EvRan _ r | EvRecorded _ _ r => Some (true, rp_Status r) | EvReplayed _ r => Some (false, rp_Status r) | _ => None end) (sy_Log s).

Definition write_of (r : Request) : Keyed := match keyed r with inr (Some q) => q | _ => mkKeyed "" 0 "" end.
Definition created : Reply := writeJSON 201 None.
Definition before_writes : Sys := arrivals (new_server sample_world []) three_writes.
Definition the_order : list nat := [0; 1; 2; 0; 0; 0; 0; 0; 0; 1; 1; 1; 1; 2; 2; 2; 2]%nat.
Definition after_writes : Sys := default before_writes (schedule (answer 201) the_order before_writes).

