(* ===== verification/Barcodes.v ===== *)
(** * Barcodes: internal/store/barcodes.go

    A code means a product here ([db_barcodes], one product per storage and code) and
    is a hint of a catalog row everywhere ([db_catalog_barcodes], first claim wins);
    a confirmed scan moves stock in one transaction; a user is offered the capture
    prompt's first-time copy once. *)

From S2P Require Import Prelude Gamification Text Expiry Db AuditLog Sample Tree Progress ShelfLife Containers Batches Ledger StockSteps BatchSpec Stocktake Jobs Consumption Locations Products Ingestion Shopping EditSteps IngestionSpec ShoppingSpec.

#[local] Open Scope string_scope.
#[local] Open Scope list_scope.
#[local] Open Scope Z_scope.

(** ** Codes *)

Definition MaxBarcodeLength : nat := 64.

Definition barcode_byte (c : ascii) : bool :=
  in_range 48 57 c || in_range 65 90 c || in_range 97 122 c ||
  Ascii.eqb c "."%char || Ascii.eqb c "_"%char || Ascii.eqb c "/"%char || Ascii.eqb c "-"%char.

(** nil, or the refusal.  A rune above 127 is none of the characters, nor is any of
    its bytes. *)
Definition ValidateBarcode (code : string) : option Err :=
  if String.eqb code "" then Some ErrValidation
  else if (MaxBarcodeLength <? String.length code)%nat then Some ErrValidation
  else if forallb barcode_byte (bytes code) then None
  else Some ErrValidation.

(** [if err := ValidateBarcode(code); err != nil { return e }] *)
Definition require_code (code : string) (e : Err) : Tx unit :=
  match ValidateBarcode code with Some _ => throw e | None => mret tt end.

(** ** Associations *)

(** product_barcodes joined with the products of its storage. *)
Definition local_product (d : DB) (storageID : uuid) (code : string) : option (uuid * Product) :=
  match db_barcodes d !! (storageID, code) with
  | Some pb => pair (pb_ProductID pb) <$> product_in_storage d storageID (pb_ProductID pb)
  | None => None
  end.

(** catalog_barcodes joined with catalog_products. *)
Definition code_hint (d : DB) (code : string) : option (uuid * CatalogProduct) :=
  match db_catalog_barcodes d !! code with
  | Some cb => pair (cb_CatalogID cb) <$> db_catalog d !! cb_CatalogID cb
  | None => None
  end.

(** INSERT INTO product_barcodes; the primary key's violation is [taken], checked
    before the foreign keys. *)
Definition insert_product_barcode (storageID : uuid) (code : string) (productID : uuid) (taken : Err) : Tx ProductBarcode :=
  d ← get_db;
  require (bool_decide (db_barcodes d !! (storageID, code) = None)) taken ;;
  require (bool_decide (storageID ∈ db_storages d) && bool_decide (is_Some (db_products d !! productID))) ErrOther ;;
  t ← now;
  let row := mkProductBarcode productID t in
  modify (set_barcodes (<[(storageID, code) := row]>)) ;;
  mret row.

Definition insertCatalogBarcode (storageID productID : uuid) (code : string) : Tx unit :=
  d ← get_db;
  p ← some_or (product_in_storage d storageID productID) ErrNotFound;
  match prod_CatalogID p with
  | None => mret tt
  | Some catalogID =>
    match db_catalog_barcodes d !! code with
    | Some _ => mret tt
    | None =>
      require (bool_decide (is_Some (db_catalog d !! catalogID))) ErrOther ;;
      t ← now;
      modify (set_catalog_barcodes (<[code := mkCatalogBarcode catalogID t 0]>))
    end
  end.

Definition AssociateBarcode (storageID productID : uuid) (code : string) : Tx ProductBarcode :=
  require_code code ErrValidation ;;
  inTx (
    requireProductInStorage storageID productID ;;
    row ← insert_product_barcode storageID code productID ErrConflict;
    insertCatalogBarcode storageID productID code ;;
    mret row).

Definition DeleteProductBarcode (storageID productID : uuid) (code : string) : Tx unit :=
  inTx (
    requireProductInStorage storageID productID ;;
    d ← get_db;
    require (bool_decide (pb_ProductID <$> db_barcodes d !! (storageID, code) = Some productID)) ErrNotFound ;;
    modify (set_barcodes (delete (storageID, code)))).

(** ** Lookup *)

Record BarcodeLookup := mkBarcodeLookup {
  bl_Product : option (uuid * Product);
  bl_CurrentStock : Z;
  bl_Catalog : option (uuid * CatalogProduct);
}.

(** Two or three queries outside a transaction, with nothing between them here. *)
Definition LookupBarcode (storageID : uuid) (code : string) : Tx BarcodeLookup :=
  require_code code ErrNotFound ;;
  d ← get_db;
  match local_product d storageID code with
  | Some p =>
    n ← CurrentStock storageID p.1;
    mret (mkBarcodeLookup (Some p) n None)
  | None =>
    c ← some_or (code_hint d code) ErrNotFound;
    mret (mkBarcodeLookup None 0 (Some c))
  end.

Definition maxHotBarcodes : nat := 500.

Record HotBarcode := mkHotBarcode {
  hb_Barcode : string;
  hb_DisplayName : string;
  hb_CategoryPath : option string;
  hb_ItemType : string;
  hb_ImageURL : option string;
  hb_IconName : option string;
  hb_DefaultShelfLifeDays : option Z;
}.

(** ORDER BY scan_count DESC, catalog_id *)
Definition hotter (a b : string * CatalogBarcode) : Prop :=
  cb_ScanCount b.2 < cb_ScanCount a.2 \/ (cb_ScanCount a.2 = cb_ScanCount b.2 /\ cb_CatalogID a.2 <= cb_CatalogID b.2).

#[export] Instance hotter_dec : RelDecision hotter.
Proof. intros a b. unfold hotter. apply _. Defined.

Definition hot_barcode (d : DB) (kv : string * CatalogBarcode) : option HotBarcode :=
  (fun c => mkHotBarcode kv.1 (cp_DisplayName c) (cp_CategoryPath c) (cp_ItemType c) (cp_ImageURL c) (cp_IconName c)
     (cp_DefaultShelfLifeDays c)) <$> db_catalog d !! cb_CatalogID kv.2.

Definition HotBarcodes : Tx (list HotBarcode) :=
  d ← get_db;
  mret (take maxHotBarcodes (omap (hot_barcode d) (merge_sort hotter (map_to_list (db_catalog_barcodes d))))).

Definition bump_scans (cb : CatalogBarcode) : CatalogBarcode :=
  mkCatalogBarcode (cb_CatalogID cb) (cb_CreatedAt cb) (cb_ScanCount cb + 1).

(** One UPDATE; scan_count is a BIGINT. *)
Definition IncrementBarcodeScanCount (code : string) : Tx unit :=
  d ← get_db;
  match db_catalog_barcodes d !! code with
  | None => mret tt
  | Some cb =>
    require (cb_ScanCount cb + 1 <? 2 ^ 63) ErrOther ;;
    modify (set_catalog_barcodes (<[code := bump_scans cb]>))
  end.

(** ** Moderation *)

Definition DeleteCatalogBarcode (actor : uuid) (code : string) : Tx unit :=
  inTx (
    d ← get_db;
    c ← some_or (code_hint d code) ErrNotFound;
    modify (set_catalog_barcodes (delete code)) ;;
    writeAdminAudit actor ActionCatalogBarcodeDeleted (AuditText code)
      (text_field "display_name" (cp_DisplayName c.2))).

(** ** The capture-time offer *)

Record BarcodePrompt := mkBarcodePrompt { bpr_Enabled : bool; bpr_FirstTime : bool }.

(** The two columns of a user's row. *)
Definition prompt_columns (d : DB) (userID : uuid) : option PromptColumns :=
  if bool_decide (userID ∈ db_users d) then Some (default (mkPrompt true None) (db_prompts d !! userID)) else None.

Definition BarcodePromptState (userID : uuid) : Tx BarcodePrompt :=
  d ← get_db;
  c ← some_or (prompt_columns d userID) ErrNotFound;
  mret (mkBarcodePrompt (pr_Enabled c) (is_nil (pr_SeenAt c))).

Definition SetBarcodePromptEnabled (userID : uuid) (enabled : bool) : Tx BarcodePrompt :=
  d ← get_db;
  c ← some_or (prompt_columns d userID) ErrNotFound;
  modify (set_prompts (<[userID := mkPrompt enabled (pr_SeenAt c)]>)) ;;
  mret (mkBarcodePrompt enabled (is_nil (pr_SeenAt c))).

(** The row is locked, marked if it is enabled and unseen, and read as it was locked. *)
Definition MarkBarcodePromptShown (userID : uuid) : Tx BarcodePrompt :=
  inTx (
    d ← get_db;
    locked ← some_or (prompt_columns d userID) ErrNotFound;
    t ← now;
    let marked := pr_Enabled locked && is_nil (pr_SeenAt locked) in
    (if marked then modify (set_prompts (<[userID := mkPrompt (pr_Enabled locked) (Some t)]>)) else mret tt) ;;
    mret (mkBarcodePrompt (pr_Enabled locked) marked)).

(** ** Scan and log *)

Definition BarcodeLogIn := "in".
Definition BarcodeLogOut := "out".

Record BarcodeLogInput := mkBarcodeLog {
  bli_Direction : string;
  bli_Quantity : Z;
  bli_LocationID : option uuid;
  bli_ExpirationDate : option Time;
  bli_ExpirationEdited : bool;
  bli_Decrements : list ConsumeBatchDecrement;
}.

Record BarcodeLogResult := mkBarcodeLogResult {
  blr_ProductID : uuid;
  blr_CreatedBatchID : option uuid;
  blr_TouchedBatchIDs : list uuid;
  blr_CurrentStock : Z;
}.

(** ORDER BY expiration_date NULLS LAST, created_at *)
Definition expires_before (a b : uuid * Batch) : Prop :=
  match b_ExpirationDate a.2, b_ExpirationDate b.2 with
  | Some x, Some y => x < y \/ (x = y /\ b_CreatedAt a.2 <= b_CreatedAt b.2)
  | Some _, None => True
  | None, Some _ => False
  | None, None => b_CreatedAt a.2 <= b_CreatedAt b.2
  end.

#[export] Instance expires_before_dec : RelDecision expires_before.
Proof. intros a b. unfold expires_before. destruct (b_ExpirationDate a.2), (b_ExpirationDate b.2); apply _. Defined.

(** The batches of the product, nearest expiry first; ties, which the query leaves
    open, in the order of their ids. *)
Definition batches_by_expiry (d : DB) (productID : uuid) : list (uuid * Batch) :=
  merge_sort expires_before (order_by_id (batches_of d productID)).

(** The loop over the rows: what is taken from each, and what is left to take. *)
Fixpoint allocate (remaining : Z) (rows : list (uuid * Batch)) : list ConsumeBatchDecrement * Z :=
  match rows with
  | [] => ([], remaining)
  | (id, b) :: rows' =>
    if remaining <=? 0 then ([], remaining)
    else
      let take := Z.min (b_Quantity b) remaining in
      if 0 <? take then
        let r := allocate (remaining - take) rows' in
        (mkDecrement id take :: r.1, r.2)
      else allocate remaining rows'
  end.

Definition defaultDecrements (storageID productID : uuid) (quantity : Z) : Tx (list ConsumeBatchDecrement) :=
  d ← get_db;
  let rows := match product_in_storage d storageID productID with Some _ => batches_by_expiry d productID | None => [] end in
  let r := allocate quantity rows in
  require (r.2 <=? 0) ErrValidation ;;
  mret r.1.

(** [total += dec.Quantity], after each decrement was found positive. *)
Fixpoint total_of (total : Z) (decs : list ConsumeBatchDecrement) : option Z :=
  match decs with
  | [] => Some total
  | dec :: decs' => if dec_Quantity dec <? 1 then None else total_of (wrap64 (total + dec_Quantity dec)) decs'
  end.

Definition log_in (storageID productID : uuid) (userID : option uuid) (inp : BarcodeLogInput) : Tx uuid :=
  l ← some_or (bli_LocationID inp) ErrValidation;
  batch ← createBatch storageID (mkNewBatch productID l (bli_Quantity inp) (bli_ExpirationDate inp)
    (if bli_ExpirationEdited inp then ExpirationUser else ExpirationDerived) ReasonPurchase userID None None);
  mret (bv_ID batch).

Definition log_out (storageID productID : uuid) (userID : option uuid) (inp : BarcodeLogInput) : Tx (list uuid) :=
  decrements ← (match bli_Decrements inp with
                | [] => defaultDecrements storageID productID (bli_Quantity inp)
                | decs => mret decs
                end);
  total ← some_or (total_of 0 decrements) ErrValidation;
  require (total =? bli_Quantity inp) ErrValidation ;;
  apply_decrements storageID productID userID decrements.

Definition LogBarcode (storageID : uuid) (code : string) (userID : option uuid) (inp : BarcodeLogInput) : Tx BarcodeLogResult :=
  require (negb (bli_Quantity inp <? 1)) ErrValidation ;;
  require_code code ErrNotFound ;;
  inTx (
    d ← get_db;
    p ← some_or (local_product d storageID code) ErrNotFound;
    let productID := p.1 in
    r ← (if String.eqb (bli_Direction inp) BarcodeLogIn then
           b ← log_in storageID productID userID inp; mret (Some b, [])
         else if String.eqb (bli_Direction inp) BarcodeLogOut then
           ids ← log_out storageID productID userID inp; mret (None, ids)
         else throw ErrValidation);
    n ← CurrentStock storageID productID;
    mret (mkBarcodeLogResult productID r.1 r.2 n)).

(** ** A product from a hint *)

Definition hint_product (categoryID : option uuid) (c : uuid * CatalogProduct) : NewProduct :=
  mkNewProduct (cp_DisplayName c.2) categoryID (Some c.1) (cp_ItemType c.2) (cp_DefaultShelfLifeDays c.2) 0 None (cp_IconName c.2).

Definition CreateProductFromBarcodeHint (storageID : uuid) (code : string) : Tx (uuid * Product) :=
  require_code code ErrNotFound ;;
  inTx (
    d ← get_db;
    require (bool_decide (db_barcodes d !! (storageID, code) = None)) ErrConflict ;;
    catalog ← some_or (code_hint d code) ErrNotFound;
    categoryID ← (match cp_CategoryPath catalog.2 with
                  | Some path => if String.eqb path "" then mret None else ensureCategoryPath storageID path
                  | None => mret None
                  end);
    product ← createProduct storageID (hint_product categoryID catalog);
    insert_product_barcode storageID code product.1 ErrOther ;;
    mret product).

(** * What a scan may do

    A confirmed scan moves exactly the confirmed units of the scanned product; the
    default allocation takes the nearest expiry first and never more than there is;
    an association is the first one's, here and in the catalog; the first-time copy of
    the capture prompt is shown once. *)

#[local] Open Scope string_scope.
#[local] Open Scope list_scope.
#[local] Open Scope Z_scope.

(** ** Decrements, batch by batch *)

(** What the decrements take from one batch. *)
Definition taken (id : uuid) (decs : list ConsumeBatchDecrement) : Z :=
  lsum (fun dec => if dec_BatchID dec =? id then dec_Quantity dec else 0) decs.

Lemma taken_none id decs : id ∉ map dec_BatchID decs -> taken id decs = 0.
Proof.
  intros H. unfold taken. induction decs as [|dec decs IH]; [done|]. cbn in *. apply not_elem_of_cons in H as [Hne H].
  rewrite (proj2 (Z.eqb_neq _ _)) by congruence. by rewrite IH.
Qed.

(** A batch after [n] units left it. *)
Definition left_with (n : Z) (b : Batch) : option Batch :=
  if b_Quantity b - n =? 0 then None else Some (set_quantity (b_Quantity b - n) b).

Lemma set_quantity_same b : set_quantity (b_Quantity b) b = b.
Proof. by destruct b. Qed.

Lemma left_with_zero d b : batch_ok d b -> left_with 0 b = Some b.
Proof.
  intros (p & l & _ & _ & _ & Hq & _). unfold left_with. rewrite (proj2 (Z.eqb_neq _ _)) by lia.
  by rewrite Z.sub_0_r, set_quantity_same.
Qed.

Lemma left_with_more n m b b' : left_with n b = Some b' -> left_with m b' = left_with (n + m) b.
Proof.
  unfold left_with. destruct (Z.eqb_spec (b_Quantity b - n) 0); [done|]. intros [= <-]. cbn.
  by replace (b_Quantity b - n - m) with (b_Quantity b - (n + m)) by lia.
Qed.

Lemma adjustBatch_left st id q u w p w' :
  wf (wdb w) -> is_int64 q -> adjustBatch st id (wrap64 (- q)) ReasonConsumption u w = (Ok p, w') ->
  exists b, db_batches (wdb w) !! id = Some b /\ p = b_ProductID b /\ 0 <= b_Quantity b - q /\
    db_batches (wdb w') !! id = left_with q b /\
    forall i, i ≠ id -> db_batches (wdb w') !! i = db_batches (wdb w) !! i.
Proof.
  intros W Hq H. pose proof (adjustBatch_int4 _ _ _ _ _ _ _ _ H) as Hd. rewrite decrement_delta in H by done.
  apply adjustBatch_rows in H as (b & logID & Hb & -> & Hr & Eb & _); [|done].
  apply batch_in_storage_some in Hb as [Hb _]. exists b. split; [done|]. split; [done|]. split; [lia|].
  unfold left_with. replace (b_Quantity b + - q) with (b_Quantity b - q) in Eb by lia. rewrite Eb.
  destruct (b_Quantity b - q =? 0).
  - split; [apply lookup_delete_eq | intros; by apply lookup_delete_ne].
  - split; [apply lookup_insert_eq | intros; by apply lookup_insert_ne].
Qed.

Lemma apply_decrements_rows st p u decs w ids w' :
  wf (wdb w) -> Forall (fun dec => is_int64 (dec_Quantity dec)) decs ->
  apply_decrements st p u decs w = (Ok ids, w') ->
  forall id, (match db_batches (wdb w) !! id with
  | Some b => 0 <= b_Quantity b - taken id decs /\ db_batches (wdb w') !! id = left_with (taken id decs) b /\
              (id ∈ map dec_BatchID decs -> b_ProductID b = p)
  | None => (id ∉ map dec_BatchID decs) /\ db_batches (wdb w') !! id = None
  end).
Proof.
  intros W Hint. revert w ids W. induction Hint as [|dec decs Hq _ IH]; intros w ids W H id; cbn [apply_decrements] in H.
  { tx_inv1 H. subst. destruct (db_batches (wdb w') !! id) as [b|] eqn:Hb; [|split; [apply not_elem_of_nil | done]].
    destruct W as [Wb _]. specialize (Wb id b Hb). unfold taken. cbn. rewrite (left_with_zero (wdb w') b Wb).
    destruct Wb as (_ & _ & _ & _ & _ & Hq & _). split; [lia|]. split; [done|]. by intros ?%not_elem_of_nil. }
  apply bind_ok in H as (p0 & w1 & H1 & H). tx_next H by require_ok as [Hp ->]. bool_to_prop. subst p0.
  apply bind_ok in H as (ids' & w2 & H2 & H). tx_inv1 H. subst.
  pose proof (proj1 (adjustBatch_good _ _ _ _ _ _ _ _ H1 W)) as W1.
  apply adjustBatch_left in H1 as (b0 & Hb0 & Ep & Hr & E0 & Eo); [|done|done].
  specialize (IH w1 ids' W1 H2 id). change (taken id (dec :: decs)) with ((if dec_BatchID dec =? id then dec_Quantity dec else 0) + taken id decs).
  cbn [map]. destruct (Z.eqb_spec (dec_BatchID dec) id) as [<-|Hne].
  - rewrite E0 in IH. rewrite Hb0. destruct (left_with (dec_Quantity dec) b0) as [b1|] eqn:Hl.
    + destruct IH as (I1 & I2 & I3). rewrite (left_with_more _ _ _ _ Hl) in I2.
      assert (E : b_Quantity b1 = b_Quantity b0 - dec_Quantity dec).
      { unfold left_with in Hl. destruct (_ =? 0); [done|]. by injection Hl as <-. }
      split; [lia|]. split; [exact I2|]. intros _. done.
    + destruct IH as [I1 I2]. rewrite (taken_none _ _ I1), Z.add_0_r, Hl. split; [exact Hr|]. split; [exact I2|]. done.
  - rewrite Eo in IH by done. destruct (db_batches (wdb w) !! id) as [b|].
    + rewrite Z.add_0_l. destruct IH as (I1 & I2 & I3). split; [done|]. split; [done|].
      intros [E|Hin]%elem_of_cons; [congruence | by apply I3].
    + destruct IH as [I1 I2]. split; [|done]. apply not_elem_of_cons. by split.
Qed.

(** ** The default allocation *)

#[export] Instance expires_before_total : Total expires_before.
Proof. intros a b. unfold expires_before. destruct (b_ExpirationDate a.2), (b_ExpirationDate b.2); auto; lia. Qed.

#[export] Instance expires_before_trans : Transitive expires_before.
Proof.
  intros a b c. unfold expires_before.
  destruct (b_ExpirationDate a.2), (b_ExpirationDate b.2), (b_ExpirationDate c.2); intuition lia.
Qed.

(** Taking a whole batch. *)
Definition whole (kv : uuid * Batch) : ConsumeBatchDecrement := mkDecrement kv.1 (b_Quantity kv.2).

(** The first batches whole, and of the next one a part or nothing. *)
Definition first_of (rows : list (uuid * Batch)) (decs : list ConsumeBatchDecrement) : Prop :=
  exists full rest, rows = full ++ rest /\
    (decs = map whole full \/
     exists kv rest' k, rest = kv :: rest' /\ decs = map whole full ++ [mkDecrement kv.1 k] /\ 1 <= k < b_Quantity kv.2).

Lemma first_of_cons kv rows decs : first_of rows decs -> first_of (kv :: rows) (whole kv :: decs).
Proof.
  intros (full & rest & -> & D). exists (kv :: full), rest. split; [done|].
  destruct D as [->|(kv' & rest' & k & E1 & -> & E2)]; [by left|]. right. by exists kv', rest', k.
Qed.

Lemma allocate_spec rows remaining :
  Forall (fun kv : uuid * Batch => 1 <= b_Quantity kv.2) rows -> 0 <= remaining ->
  let r := allocate remaining rows in
  r.2 = Z.max 0 (remaining - lsum (fun kv : uuid * Batch => b_Quantity kv.2) rows) /\
  lsum dec_Quantity r.1 = remaining - r.2 /\
  Forall (fun dec => 1 <= dec_Quantity dec <= remaining) r.1 /\ first_of rows r.1.
Proof.
  intros H. revert remaining. induction H as [|[id b] rows Hb H IH]; intros n Hn; cbn [allocate lsum fst snd] in *.
  { split; [lia|]. split; [cbn; lia|]. split; [constructor|]. exists [], []. auto. }
  assert (P : 0 <= lsum (fun kv : uuid * Batch => b_Quantity kv.2) rows).
  { clear -H. induction H; cbn in *; lia. }
  destruct (Z.leb_spec n 0).
  { cbn. split; [lia|]. split; [lia|]. split; [constructor|]. exists [], ((id, b) :: rows). auto. }
  rewrite (proj2 (Z.ltb_lt 0 (Z.min (b_Quantity b) n))) by lia. cbn [fst snd lsum dec_Quantity].
  destruct (IH (n - Z.min (b_Quantity b) n) ltac:(lia)) as (I1 & I2 & I3 & I4).
  split; [rewrite I1; lia|]. split; [rewrite I2; lia|]. split.
  { constructor; [cbn; lia|]. apply (Forall_impl _ _ _ I3). intros dec. cbn. lia. }
  destruct (decide (b_Quantity b <= n)) as [Hle|Hgt].
  - rewrite Z.min_l in * by lia. by apply first_of_cons.
  - rewrite Z.min_r in * by lia. rewrite Z.sub_diag in *. exists [], ((id, b) :: rows). split; [done|]. right.
    exists (id, b), rows, n. split; [done|]. cbn. destruct rows as [|[]]; cbn; (split; [done | lia]).
Qed.

Lemma msum_rows {V} (f : V -> Z) (m : gmap uuid V) : msum f m = lsum (fun kv : uuid * V => f kv.2) (map_to_list m).
Proof.
  induction m as [|i v m Hi IH] using map_ind; [by rewrite msum_empty, map_to_list_empty|].
  rewrite msum_insert_None by done. rewrite (lsum_perm _ _ _ (map_to_list_insert m i v Hi)). cbn. by rewrite IH.
Qed.

Lemma batches_by_expiry_perm d p : batches_by_expiry d p ≡ₚ map_to_list (batches_of d p).
Proof. unfold batches_by_expiry, order_by_id. by rewrite !merge_sort_Permutation. Qed.

Lemma stock_rows d p : stock d p = lsum (fun kv : uuid * Batch => b_Quantity kv.2) (batches_by_expiry d p).
Proof.
  rewrite (lsum_perm _ _ _ (batches_by_expiry_perm d p)), <- (msum_rows b_Quantity).
  unfold stock, batches_of. rewrite (msum_filter b_Quantity (fun b => b_ProductID b = p)). apply msum_ext.
  intros i b _. destruct (Z.eqb_spec (b_ProductID b) p); [by rewrite decide_True | by rewrite decide_False].
Qed.

Lemma elem_of_batches_by_expiry d p id b :
  (id, b) ∈ batches_by_expiry d p <-> db_batches d !! id = Some b /\ b_ProductID b = p.
Proof. rewrite batches_by_expiry_perm, elem_of_map_to_list. apply map_lookup_filter_Some. Qed.

Lemma positive_rows d p : wf d -> Forall (fun kv : uuid * Batch => 1 <= b_Quantity kv.2) (batches_by_expiry d p).
Proof.
  intros [Wb _]. apply Forall_forall. intros [id b] Hin. apply elem_of_batches_by_expiry in Hin as [Hb _].
  destruct (Wb id b Hb) as (? & ? & _ & _ & _ & Hq & _). cbn. lia.
Qed.

Lemma defaultDecrements_run st p q w prod :
  wf (wdb w) -> 0 <= q -> product_in_storage (wdb w) st p = Some prod ->
  let r := allocate q (batches_by_expiry (wdb w) p) in
  defaultDecrements st p q w = (if q <=? stock (wdb w) p then Ok r.1 else Fail ErrValidation, w) /\
  (q <= stock (wdb w) p -> lsum dec_Quantity r.1 = q) /\
  Forall (fun dec => 1 <= dec_Quantity dec <= q) r.1 /\ first_of (batches_by_expiry (wdb w) p) r.1.
Proof.
  intros W Hq Hp r. destruct (allocate_spec _ q (positive_rows (wdb w) p W) Hq) as (E & L & F & O).
  fold r in E, L, F, O. rewrite <- stock_rows in E. split; [|split; [lia|split; [exact F | exact O]]].
  unfold defaultDecrements. rewrite (bind_step _ get_db w _ _ eq_refl), Hp. cbv zeta. fold r.
  destruct (Z.leb_spec q (stock (wdb w) p)).
  - rewrite (bind_step _ _ w tt w); [done|]. unfold require. by rewrite (proj2 (Z.leb_le _ _)) by lia.
  - apply bind_abort. unfold require. by rewrite (proj2 (Z.leb_gt _ _)) by lia.
Qed.

(** ** What a scan books *)

Lemma frames_apply_decrements st p u decs : frames db_products (apply_decrements st p u decs).
Proof.
  induction decs as [|dec decs IH]; cbn [apply_decrements]; unfold adjustBatch, update_quantity, delete_batch, writeLog;
    frame_walk.
Qed.

Lemma local_product_some d st code p prod :
  local_product d st code = Some (p, prod) <->
  (exists t, db_barcodes d !! (st, code) = Some (mkProductBarcode p t)) /\ product_in_storage d st p = Some prod.
Proof.
  unfold local_product. destruct (db_barcodes d !! (st, code)) as [[q t]|].
  - cbn. destruct (product_in_storage d st q) as [r|] eqn:E; cbn.
    2: { split; [done|]. intros [[t' [= -> ->]] E']. congruence. }
    split; [intros [= -> ->]; eauto | intros [[t' [= -> ->]] E']; congruence].
  - split; [done | by intros [[? [=]] _]].
Qed.

(** The running total of units each batch could hold is their sum. *)
Lemma total_of_sum total decs n :
  0 <= total -> Forall (fun dec => dec_Quantity dec <= 2 ^ 31) decs ->
  total + Z.of_nat (Datatypes.length decs) * 2 ^ 31 < 2 ^ 63 ->
  total_of total decs = Some n -> n = total + lsum dec_Quantity decs.
Proof.
  intros Ht H. revert total Ht. induction H as [|dec decs Hd _ IH]; intros total Ht Hl E; cbn in E; [injection E as <-; cbn; lia|].
  destruct (Z.ltb_spec (dec_Quantity dec) 1); [done|]. cbn [Datatypes.length] in Hl.
  rewrite wrap64_id in E by (unfold is_int64; nia). apply IH in E; [|lia|nia]. cbn. lia.
Qed.

Lemma total_of_positive total decs n : total_of total decs = Some n -> Forall (fun dec => 1 <= dec_Quantity dec) decs.
Proof.
  revert total. induction decs as [|dec decs IH]; intros total E; [constructor|]. cbn in E.
  destruct (Z.ltb_spec (dec_Quantity dec) 1); [done|]. constructor; [lia | by eapply IH].
Qed.

Lemma apply_decrements_bound st p u decs w ids w' :
  Forall (fun dec => is_int64 (dec_Quantity dec)) decs -> apply_decrements st p u decs w = (Ok ids, w') ->
  Forall (fun dec => dec_Quantity dec <= 2 ^ 31) decs.
Proof.
  intros H. revert w ids w'. induction H as [|dec decs Hq _ IH]; intros w ids w' E; cbn [apply_decrements] in E; [constructor|].
  apply bind_ok in E as (p0 & w1 & H1 & E). tx_next E by require_ok as [_ ->]. apply bind_ok in E as (ids' & w2 & H2 & _).
  apply adjustBatch_int4 in H1. rewrite decrement_delta in H1 by done. constructor; [lia | by eapply IH].
Qed.

(** One batch of the confirmed units, and the purchase that explains it. *)
Definition scanned_in (st p : uuid) (u : option uuid) (inp : BarcodeLogInput) (t : Z) (r : BarcodeLogResult) (d d' : DB) : Prop :=
  exists id l b logID, blr_CreatedBatchID r = Some id /\ blr_TouchedBatchIDs r = [] /\
    bli_LocationID inp = Some l /\ db_batches d !! id = None /\
    b_ProductID b = p /\ b_LocationID b = l /\ b_Quantity b = bli_Quantity inp /\
    db_batches d' = <[id := b]> (db_batches d) /\
    db_logs d' = db_logs d ++ [mkLogRow logID p (Some id) (bli_Quantity inp) ReasonPurchase u t].

(** The confirmed decrements, or the nearest expiry first, taken from batches of the
    scanned product; every batch is left with what was not taken from it, and gone when
    that is nothing. *)
Definition scanned_out (st p : uuid) (inp : BarcodeLogInput) (r : BarcodeLogResult) (d d' : DB) : Prop :=
  exists decs, blr_CreatedBatchID r = None /\ blr_TouchedBatchIDs r = map dec_BatchID decs /\
    lsum dec_Quantity decs = bli_Quantity inp /\ Forall (fun dec => 1 <= dec_Quantity dec) decs /\
    (if decide (bli_Decrements inp = []) then first_of (batches_by_expiry d p) decs else decs = bli_Decrements inp) /\
    forall id, match db_batches d !! id with
      | Some b => 0 <= b_Quantity b - taken id decs /\ db_batches d' !! id = left_with (taken id decs) b /\
                  (id ∈ map dec_BatchID decs -> b_ProductID b = p)
      | None => (id ∉ map dec_BatchID decs) /\ db_batches d' !! id = None
      end.

Lemma stock_same d d' p : db_batches d' = db_batches d -> stock d' p = stock d p.
Proof. unfold stock. by intros ->. Qed.

Lemma log_in_ok st p u inp w id w' :
  log_in st p u inp w = (Ok id, w') ->
  good_step (wdb w) (wdb w') /\ db_products (wdb w') = db_products (wdb w) /\
  (forall n, scanned_in st p u inp (wnow w) (mkBarcodeLogResult p (Some id) [] n) (wdb w) (wdb w')) /\
  forall q, stock (wdb w') q = stock (wdb w) q + (if p =? q then bli_Quantity inp else 0).
Proof.
  unfold log_in. intros H. tx_next H for l by some_or_ok as [Hl ->].
  apply bind_ok in H as (v & w1 & H1 & H). tx_inv1 H. subst.
  split; [by eapply createBatch_good|].
  apply createBatch_plain in H1 as (_ & b & logID & Hn & E1 & E2 & E3 & _ & E); [|done..]. cbn in *.
  apply inventory_part_tables in E as (_ & _ & Ep & _ & _ & Eb & Eg & _). cbn in Ep, Eb, Eg.
  split; [done|]. split; [intros n; by exists (bv_ID v), l, b, logID|].
  intros q. rewrite (stock_same (set_batches <[bv_ID v:=b]> (wdb w))) by done. rewrite stock_insert by done.
  by rewrite E1, E3.
Qed.

Lemma log_out_ok st p prod u inp w ids w' :
  is_int64 (bli_Quantity inp) -> 1 <= bli_Quantity inp ->
  Forall (fun dec => is_int64 (dec_Quantity dec)) (bli_Decrements inp) ->
  Z.of_nat (Datatypes.length (bli_Decrements inp)) < 2 ^ 32 ->
  consistent (wdb w) -> product_in_storage (wdb w) st p = Some prod ->
  log_out st p u inp w = (Ok ids, w') ->
  books p (- bli_Quantity inp) (wdb w) (wdb w') /\ db_products (wdb w') = db_products (wdb w) /\
  forall n, scanned_out st p inp (mkBarcodeLogResult p None ids n) (wdb w) (wdb w').
Proof.
  intros Hq Hq1 Hi Hlen [W _] Hp H. unfold log_out in H.
  apply bind_ok in H as (decs & w1 & H1 & H).
  assert (D : w1 = w /\ Forall (fun dec => is_int64 (dec_Quantity dec)) decs /\
    (bli_Decrements inp <> [] -> decs = bli_Decrements inp) /\
    (bli_Decrements inp = [] -> lsum dec_Quantity decs = bli_Quantity inp /\
       Forall (fun dec => 1 <= dec_Quantity dec) decs /\ first_of (batches_by_expiry (wdb w) p) decs)).
  { destruct (bli_Decrements inp) as [|x l]; [|tx_inv1 H1; by subst].
    destruct (defaultDecrements_run st p (bli_Quantity inp) w prod W ltac:(lia) Hp) as (R & S & F & O).
    rewrite R in H1. destruct (Z.leb_spec (bli_Quantity inp) (stock (wdb w) p)) as [Hle|]; [|discriminate].
    injection H1 as <- <-. split; [done|]. split; [|split; [done|intros _]].
    - apply (Forall_impl _ _ _ F). intros dec. unfold is_int64 in *. lia.
    - split; [by apply S|]. split; [|done]. apply (Forall_impl _ _ _ F). intros dec. lia. }
  destruct D as (-> & Hd & D1 & D2). tx_next H for total by some_or_ok as [Ht ->].
  tx_next H by require_ok as [Et ->]. bool_to_prop. subst total.
  pose proof (apply_decrements_bound _ _ _ _ _ _ _ Hd H) as Hb.
  pose proof (frames_apply_decrements _ _ _ _ _ _ _ H) as Ep.
  pose proof (apply_decrements_rows _ _ _ _ _ _ _ W Hd H) as R.
  apply apply_decrements_books in H as [B ->]; [|done].
  assert (P : Forall (fun dec => 1 <= dec_Quantity dec) decs) by (by eapply total_of_positive).
  assert (S : lsum dec_Quantity decs = bli_Quantity inp).
  { destruct (bli_Decrements inp) as [|y ys] eqn:El; [by apply D2|]. rewrite (D1 ltac:(done)) in *.
    apply total_of_sum in Ht; [lia | lia | done | nia]. }
  rewrite S in B. split; [exact B|]. split; [exact Ep|]. intros n. exists decs. cbn.
  do 4 (split; [done|]). split; [|exact R]. destruct (decide (bli_Decrements inp = [])) as [E|E]; [by apply D2 | by apply D1].
Qed.

(** ** What holds of every scan *)

(** C18: A confirmed scan moves exactly the confirmed units of the product the code
    means in the storage, and of no other: in, one batch of them on the confirmed shelf
    and one purchase row; out, the confirmed decrements (or, when none were sent, the
    nearest expiry first), which sum to the confirmed quantity and come from batches of
    that product only, each left with what was not taken from it.  The stock reported is
    the stock afterwards, and shelves and ledger still agree. *)
Theorem LogBarcode_spec st code u inp w r w' :
  is_int64 (bli_Quantity inp) -> Forall (fun dec => is_int64 (dec_Quantity dec)) (bli_Decrements inp) ->
  Z.of_nat (Datatypes.length (bli_Decrements inp)) < 2 ^ 32 -> consistent (wdb w) ->
  LogBarcode st code u inp w = (Ok r, w') ->
  let p := blr_ProductID r in
  (exists prod, local_product (wdb w) st code = Some (p, prod)) /\ 1 <= bli_Quantity inp /\
  (if String.eqb (bli_Direction inp) BarcodeLogIn then
     scanned_in st p u inp (wnow w) r (wdb w) (wdb w') /\ stock (wdb w') p = stock (wdb w) p + bli_Quantity inp
   else
     bli_Direction inp = BarcodeLogOut /\
     scanned_out st p inp r (wdb w) (wdb w') /\ stock (wdb w') p = stock (wdb w) p - bli_Quantity inp) /\
  (forall q, q <> p -> stock (wdb w') q = stock (wdb w) q) /\
  blr_CurrentStock r = stock (wdb w') p /\ consistent (wdb w').
Proof.
  intros Hq Hi Hlen C H. unfold LogBarcode in H. tx_next H by require_ok as [H1 ->]. apply negb_true_iff, Z.ltb_ge in H1.
  unfold require_code in H. destruct (ValidateBarcode code); [by tx_inv|]. tx_next H by ret_ok as [_ <-]. apply inTx_inv in H.
  tx_next H for d by get_db_ok as [-> ->]. tx_next H for lp by some_or_ok as [Hlp ->]. destruct lp as [p prod]. cbn in H.
  apply local_product_some in Hlp as Hlp'. destruct Hlp' as [_ Hp].
  apply bind_ok in H as (r1 & w1 & Hr & H). apply bind_ok in H as (n & w2 & Hn & H). tx_inv1 H. subst.
  unfold CurrentStock in Hn. tx_next Hn for d by get_db_ok as [-> ->]. tx_inv1 Hn. subst. cbn.
  split; [by exists prod|]. split; [lia|].
  assert (PS : forall d, db_products d = db_products (wdb w) -> product_in_storage d st p = Some prod).
  { intros d E. unfold product_in_storage. by rewrite E. }
  destruct (String.eqb (bli_Direction inp) BarcodeLogIn).
  - apply bind_ok in Hr as (id & w3 & H3 & Hr). tx_inv1 Hr. subst.
    apply log_in_ok in H3 as (G & Ep & S & K). rewrite (PS _ Ep). cbn. split.
    { split; [apply S|]. rewrite K. by rewrite Z.eqb_refl. }
    split; [intros q Hne; rewrite K, (proj2 (Z.eqb_neq _ _)) by congruence; lia|].
    split; [done|]. by eapply good_step_consistent.
  - destruct (String.eqb_spec (bli_Direction inp) BarcodeLogOut) as [Eo|]; [|by tx_inv].
    apply bind_ok in Hr as (ids & w3 & H3 & Hr). tx_inv1 Hr. subst.
    eapply log_out_ok in H3 as ((G & L & _) & Ep & S); [|done..]. rewrite (PS _ Ep). cbn.
    pose proof (good_step_consistent _ _ G C) as C'. destruct C as [_ B]. destruct C' as [W' B'].
    split; [split; [done|]; split; [apply S|]|].
    { rewrite B', B, L, Z.eqb_refl. lia. }
    split; [intros q Hne; rewrite B', B, L, (proj2 (Z.eqb_neq _ _)) by congruence; lia|].
    by split.
Qed.

(** The default allocation of [q] units is refused exactly when the product has
    fewer; otherwise it takes exactly [q], a positive amount of each batch it touches,
    going through the product's batches from the nearest expiry to the undated ones and
    emptying each before it starts the next.  Nothing is written. *)
Theorem defaultDecrements_spec st p q w prod :
  wf (wdb w) -> 0 <= q -> product_in_storage (wdb w) st p = Some prod ->
  let rows := batches_by_expiry (wdb w) p in
  (forall id b, (id, b) ∈ rows <-> db_batches (wdb w) !! id = Some b /\ b_ProductID b = p) /\
  StronglySorted expires_before rows /\
  exists decs,
    defaultDecrements st p q w = (if q <=? stock (wdb w) p then Ok decs else Fail ErrValidation, w) /\
    (q <= stock (wdb w) p -> lsum dec_Quantity decs = q) /\
    Forall (fun dec => 1 <= dec_Quantity dec <= q) decs /\ first_of rows decs.
Proof.
  intros W Hq Hp rows. split; [intros id b; apply elem_of_batches_by_expiry|].
  split; [apply StronglySorted_merge_sort; apply _|].
  exists (allocate q rows).1. by eapply defaultDecrements_run.
Qed.

(** ** Associations *)

Lemma insert_product_barcode_ok st code p e w row w' :
  insert_product_barcode st code p e w = (Ok row, w') ->
  db_barcodes (wdb w) !! (st, code) = None /\ row = mkProductBarcode p (wnow w) /\
  w' = with_db (set_barcodes <[(st, code) := row]> (wdb w)) w.
Proof.
  unfold insert_product_barcode. intros H. tx_next H for d by get_db_ok as [-> ->].
  tx_next H by require_ok as [Hn ->]. tx_next H by require_ok as [_ ->]. tx_next H for t by now_ok as [-> ->].
  tx_next H by modify_ok as ->. tx_inv1 H. subst. by bool_to_prop.
Qed.

Lemma requireProductInStorage_run st p w prod :
  product_in_storage (wdb w) st p = Some prod -> requireProductInStorage st p w = (Ok tt, w).
Proof. intros E. unfold requireProductInStorage. by rewrite (bind_step _ get_db w _ _ eq_refl), E. Qed.

(** The hints after a product of the catalog row [c] was associated with [code]. *)
Definition claimed (c : option uuid) (code : string) (t : Z) (m : gmap string CatalogBarcode) : gmap string CatalogBarcode :=
  match c, m !! code with
  | Some catalogID, None => <[code := mkCatalogBarcode catalogID t 0]> m
  | _, _ => m
  end.

Lemma insertCatalogBarcode_ok st p code w u w' :
  insertCatalogBarcode st p code w = (Ok u, w') ->
  exists prod, product_in_storage (wdb w) st p = Some prod /\
    w' = with_db (set_catalog_barcodes (claimed (prod_CatalogID prod) code (wnow w)) (wdb w)) w.
Proof.
  unfold insertCatalogBarcode, claimed. intros H. tx_next H for d by get_db_ok as [-> ->].
  tx_next H for prod by some_or_ok as [Hp ->]. exists prod. split; [done|].
  destruct (prod_CatalogID prod) as [c|]; [|tx_inv1 H; subst; by destruct w' as [[] ? ? ?]].
  destruct (db_catalog_barcodes (wdb w) !! code) as [cb|] eqn:E.
  - tx_inv1 H. subst. destruct w' as [[] ? ? ?]. cbn in *. unfold set_catalog_barcodes. cbn. by rewrite E.
  - tx_next H by require_ok as [_ ->]. tx_next H for t by now_ok as [-> ->]. apply modify_ok in H as ->.
    destruct w as [[] ? ? ?]. cbn in *. unfold set_catalog_barcodes. cbn. by rewrite E.
Qed.

Lemma AssociateBarcode_ok st p code w row w' :
  AssociateBarcode st p code w = (Ok row, w') ->
  ValidateBarcode code = None /\ db_barcodes (wdb w) !! (st, code) = None /\ row = mkProductBarcode p (wnow w) /\
  exists prod, product_in_storage (wdb w) st p = Some prod /\
    w' = with_db (set_catalog_barcodes (claimed (prod_CatalogID prod) code (wnow w))
                   (set_barcodes <[(st, code) := row]> (wdb w))) w.
Proof.
  unfold AssociateBarcode, require_code. intros H. destruct (ValidateBarcode code) eqn:V; [by tx_inv|].
  tx_next H by ret_ok as [_ <-]. apply inTx_inv in H. tx_next H by requireProductInStorage_ok as (-> & _).
  tx_next H for row0 by insert_product_barcode_ok as (Hn & -> & ->).
  tx_next H by insertCatalogBarcode_ok as (prod & Hp & ->). tx_inv1 H. subst.
  do 3 (split; [done|]). by exists prod.
Qed.

Lemma AssociateBarcode_good st p code w row w' :
  AssociateBarcode st p code w = (Ok row, w') -> good_step (wdb w) (wdb w').
Proof. intros H. apply AssociateBarcode_ok in H as (_ & _ & _ & prod & _ & ->). by apply good_step_inventory. Qed.

Lemma claimed_keeps c code t m k cb : m !! k = Some cb -> claimed c code t m !! k = Some cb.
Proof.
  intros E. unfold claimed. destruct c; [|done]. destruct (m !! code) eqn:Ec; [done|].
  rewrite lookup_insert_ne; [done | intros ->; congruence].
Qed.

Lemma LookupBarcode_local st code w p prod n :
  ValidateBarcode code = None -> local_product (wdb w) st code = Some (p, prod) /\ stock (wdb w) p = n ->
  LookupBarcode st code w = (Ok (mkBarcodeLookup (Some (p, prod)) n None), w).
Proof.
  intros V [Hl <-]. unfold LookupBarcode, require_code. rewrite V, (bind_step _ (mret tt) _ tt _ eq_refl).
  rewrite (bind_step _ get_db _ _ _ eq_refl), Hl. apply local_product_some in Hl as [_ Hp].
  unfold CurrentStock, mbind, tx_bind, get_db, mret, tx_ret. cbn. by rewrite Hp.
Qed.

(** An association is made only for a free code and a product of the storage; from
    then on the code is recalled as that product with its stock, a second association of
    it there is answered ErrConflict, and deleting it gives back exactly the associations
    before it.  No other storage's recall changes, no existing hint changes, and a new
    hint names the product's catalog row; nothing else is written. *)
Theorem AssociateBarcode_spec st p code w row w' :
  AssociateBarcode st p code w = (Ok row, w') ->
  exists prod,
    (product_in_storage (wdb w) st p = Some prod /\ db_barcodes (wdb w) !! (st, code) = None /\ ValidateBarcode code = None) /\
    wdb w' = set_catalog_barcodes (fun _ => db_catalog_barcodes (wdb w')) (set_barcodes <[(st, code) := row]> (wdb w)) /\
    LookupBarcode st code w' = (Ok (mkBarcodeLookup (Some (p, prod)) (stock (wdb w) p) None), w') /\
    (forall q, is_Some (product_in_storage (wdb w) st q) -> AssociateBarcode st q code w' = (Fail ErrConflict, w')) /\
    (exists w2, DeleteProductBarcode st p code w' = (Ok tt, w2) /\ db_barcodes (wdb w2) = db_barcodes (wdb w) /\
       db_catalog_barcodes (wdb w2) = db_catalog_barcodes (wdb w')) /\
    (forall st2 k, st2 <> st -> local_product (wdb w') st2 k = local_product (wdb w) st2 k) /\
    (forall k c, code_hint (wdb w) k = Some c -> code_hint (wdb w') k = Some c) /\
    (forall k cb, db_catalog_barcodes (wdb w') !! k = Some cb -> db_catalog_barcodes (wdb w) !! k = None ->
       k = code /\ prod_CatalogID prod = Some (cb_CatalogID cb) /\ cb_ScanCount cb = 0).
Proof.
  intros H. apply AssociateBarcode_ok in H as (V & Hn & Er & prod & Hp & Ew). exists prod.
  assert (Hr : forall q, product_in_storage (wdb w') st q = product_in_storage (wdb w) st q) by (by rewrite Ew).
  assert (Hb : db_barcodes (wdb w') = <[(st, code) := row]> (db_barcodes (wdb w))) by (by rewrite Ew).
  assert (Hk : db_catalog_barcodes (wdb w') = claimed (prod_CatalogID prod) code (wnow w) (db_catalog_barcodes (wdb w)))
    by (by rewrite Ew).
  assert (Hg : db_catalog (wdb w') = db_catalog (wdb w)) by (by rewrite Ew).
  assert (Hs : stock (wdb w') p = stock (wdb w) p) by (by rewrite Ew).
  split; [done|]. split; [by rewrite Ew|]. split; [|split; [|split; [|split; [|split]]]].
  - apply LookupBarcode_local; [done|]. rewrite <- Hs. split; [|done].
    apply local_product_some. rewrite Hr, Hb, lookup_insert_eq, Er. eauto.
  - intros q [prodq Hq]. unfold AssociateBarcode, require_code. rewrite V.
    rewrite (bind_step _ (mret tt) _ tt _ eq_refl). unfold inTx. rewrite <- Hr in Hq.
    rewrite (bind_step _ _ _ tt _ (requireProductInStorage_run _ _ _ _ Hq)).
    rewrite (bind_abort _ _ _ ErrConflict w'); [by destruct w'|].
    unfold insert_product_barcode. rewrite (bind_step _ get_db _ _ _ eq_refl). apply bind_abort.
    by rewrite Hb, lookup_insert_eq.
  - eexists. unfold DeleteProductBarcode, inTx. rewrite <- Hr in Hp.
    rewrite (bind_step _ _ _ tt _ (requireProductInStorage_run _ _ _ _ Hp)), (bind_step _ get_db _ _ _ eq_refl).
    rewrite (bind_step _ _ _ tt w').
    2: { rewrite Hb, lookup_insert_eq, Er. cbn. by rewrite bool_decide_eq_true_2. }
    split; [reflexivity|]. cbn. split; [|done]. by rewrite Hb, delete_insert_id.
  - intros st2 k Hne. unfold local_product, product_in_storage. rewrite Hb, lookup_insert_ne by congruence. by rewrite Ew.
  - intros k c Hc. unfold code_hint in *. rewrite Hk, Hg. destruct (db_catalog_barcodes (wdb w) !! k) as [cb|] eqn:E; [|done].
    by rewrite (claimed_keeps _ _ _ _ _ _ E).
  - intros k cb. rewrite Hk. unfold claimed. destruct (prod_CatalogID prod) as [c|]; [|congruence].
    destruct (db_catalog_barcodes (wdb w) !! code) eqn:E; [congruence|].
    rewrite lookup_insert. case_decide; [|congruence]. intros [= <-] _. subst. done.
Qed.

(** ** The other operations leave stock alone *)

Lemma apply_decrements_good st p u decs w ids w' :
  apply_decrements st p u decs w = (Ok ids, w') -> good_step (wdb w) (wdb w').
Proof.
  revert w ids w'. induction decs as [|dec decs IH]; intros w ids w' H; cbn [apply_decrements] in H; [by tx_inv|].
  apply bind_ok in H as (p0 & w1 & H1 & H). tx_next H by require_ok as [_ ->].
  apply bind_ok in H as (ids' & w2 & H2 & H). tx_inv1 H. subst.
  etransitivity; [by eapply adjustBatch_good | by eapply IH].
Qed.

Lemma LogBarcode_good st code u inp w r w' : LogBarcode st code u inp w = (Ok r, w') -> good_step (wdb w) (wdb w').
Proof.
  intros H. unfold LogBarcode in H. tx_next H by require_ok as [_ ->].
  unfold require_code in H. destruct (ValidateBarcode code); [by tx_inv|]. tx_next H by ret_ok as [_ <-]. apply inTx_inv in H.
  tx_next H for d by get_db_ok as [-> ->]. tx_next H for lp by some_or_ok as [_ ->]. destruct lp as [p prod]. cbn in H.
  apply bind_ok in H as (r1 & w1 & Hr & H). apply bind_ok in H as (n & w2 & Hn & H). tx_inv1 H. subst.
  unfold CurrentStock in Hn. tx_next Hn for d by get_db_ok as [-> ->]. tx_inv1 Hn. subst.
  destruct (String.eqb (bli_Direction inp) BarcodeLogIn).
  - apply bind_ok in Hr as (id & w3 & H3 & Hr). tx_inv1 Hr. subst. by apply log_in_ok in H3 as [G _].
  - destruct (String.eqb (bli_Direction inp) BarcodeLogOut); [|by tx_inv].
    apply bind_ok in Hr as (ids & w3 & H3 & Hr). tx_inv1 Hr. subst. unfold log_out in H3.
    apply bind_ok in H3 as (decs & w4 & H4 & H3).
    assert (w4 = w) as ->.
    { destruct (bli_Decrements inp); [|by tx_inv1 H4]. unfold defaultDecrements in H4.
      tx_next H4 for d by get_db_ok as [-> ->]. tx_next H4 by require_ok as [_ ->]. by tx_inv1 H4. }
    tx_next H3 for total by some_or_ok as [_ ->]. tx_next H3 by require_ok as [_ ->]. by eapply apply_decrements_good.
Qed.

(** What a hint leaves behind: the product it describes, under the category it names,
    recalled by the code. *)
Lemma CreateProductFromBarcodeHint_ok st code w r w' :
  CreateProductFromBarcodeHint st code w = (Ok r, w') ->
  ValidateBarcode code = None /\ db_barcodes (wdb w) !! (st, code) = None /\
  exists c categoryID w1, code_hint (wdb w) code = Some c /\
    (match cp_CategoryPath c.2 with
     | Some path => if String.eqb path "" then mret None else ensureCategoryPath st path
     | None => mret None
     end : Tx (option uuid)) w = (Ok categoryID, w1) /\
    exists w2, createProduct st (hint_product categoryID c) w1 = (Ok r, w2) /\
      w' = with_db (set_barcodes <[(st, code) := mkProductBarcode r.1 (wnow w2)]> (wdb w2)) w2.
Proof.
  unfold CreateProductFromBarcodeHint, require_code. intros H. destruct (ValidateBarcode code) eqn:V; [by tx_inv|].
  tx_next H by ret_ok as [_ <-]. apply inTx_inv in H. tx_next H for d by get_db_ok as [-> ->].
  tx_next H by require_ok as [Hn ->]. bool_to_prop. tx_next H for c by some_or_ok as [Hc ->].
  apply bind_ok in H as (cat & w1 & H1 & H). apply bind_ok in H as (r0 & w2 & H2 & H).
  tx_next H for row by insert_product_barcode_ok as (_ & -> & ->). tx_inv1 H. subst.
  do 2 (split; [done|]). exists c, cat, w1. do 2 (split; [done|]). by exists w2.
Qed.

Lemma CreateProductFromBarcodeHint_good st code w r w' :
  CreateProductFromBarcodeHint st code w = (Ok r, w') -> good_step (wdb w) (wdb w').
Proof.
  intros H. apply CreateProductFromBarcodeHint_ok in H as (_ & _ & c & cat & w1 & _ & H1 & w2 & H2 & ->).
  apply createProduct_good in H2. etransitivity; [|etransitivity; [exact H2 | by apply good_step_inventory]].
  destruct (cp_CategoryPath c.2) as [path|]; [|by tx_inv1 H1; subst]. destruct (String.eqb path ""); [by tx_inv1 H1; subst|].
  apply (ensure_nodes_ok _ _ _ _ _ _ []) in H1 as (-> & _); [|constructor]. by apply good_step_inventory.
Qed.

(** ** The first-time copy *)

(** What a user's settings page and offers do to the two columns. *)
Inductive PromptOp :=
| PromptShown (userID : uuid)
| PromptSet (userID : uuid) (enabled : bool).

Definition prompt_op (o : PromptOp) : Tx BarcodePrompt :=
  match o with
  | PromptShown u => MarkBarcodePromptShown u
  | PromptSet u enabled => SetBarcodePromptEnabled u enabled
  end.

Fixpoint run_prompts (ops : list PromptOp) (w : World) : list (PromptOp * Res BarcodePrompt) * World :=
  match ops with
  | [] => ([], w)
  | o :: ops => let (r, w1) := prompt_op o w in let (rs, w2) := run_prompts ops w1 in ((o, r) :: rs, w2)
  end.

(** The offers of a run that showed user [u] the first-time copy. *)
Definition first_time_for (u : uuid) (a : PromptOp * Res BarcodePrompt) : bool :=
  match a with
  | (PromptShown v, Ok p) => (v =? u) && bpr_FirstTime p
  | _ => false
  end.

Definition unseen (d : DB) (u : uuid) : bool :=
  match prompt_columns d u with Some c => is_nil (pr_SeenAt c) | None => false end.

Lemma MarkBarcodePromptShown_run v w :
  MarkBarcodePromptShown v w =
  match prompt_columns (wdb w) v with
  | None => (Fail ErrNotFound, w)
  | Some c => let marked := pr_Enabled c && is_nil (pr_SeenAt c) in
      (Ok (mkBarcodePrompt (pr_Enabled c) marked),
       if marked then with_db (set_prompts <[v := mkPrompt (pr_Enabled c) (Some (wnow w))]> (wdb w)) w else w)
  end.
Proof.
  unfold MarkBarcodePromptShown, inTx, mbind, tx_bind, get_db, now, modify, mret, tx_ret. cbv beta iota zeta.
  destruct (prompt_columns (wdb w) v) as [c|]; cbn; [|by destruct w]. by destruct (pr_Enabled c && is_nil (pr_SeenAt c)).
Qed.

Lemma SetBarcodePromptEnabled_run v enabled w :
  SetBarcodePromptEnabled v enabled w =
  match prompt_columns (wdb w) v with
  | None => (Fail ErrNotFound, w)
  | Some c => (Ok (mkBarcodePrompt enabled (is_nil (pr_SeenAt c))),
               with_db (set_prompts <[v := mkPrompt enabled (pr_SeenAt c)]> (wdb w)) w)
  end.
Proof.
  unfold SetBarcodePromptEnabled, mbind, tx_bind, get_db, modify, mret, tx_ret. cbv beta iota zeta.
  by destruct (prompt_columns (wdb w) v).
Qed.

Lemma unseen_set_prompts d u v c :
  unseen (set_prompts <[v := c]> d) u =
  if (u =? v) && bool_decide (v ∈ db_users d) then is_nil (pr_SeenAt c) else unseen d u.
Proof.
  unfold unseen, prompt_columns. change (db_users (set_prompts _ d)) with (db_users d). cbn [db_prompts set_prompts].
  destruct (Z.eqb_spec u v) as [->|Hne].
  - rewrite lookup_insert_eq. by case_bool_decide.
  - by rewrite lookup_insert_ne.
Qed.

Lemma prompt_columns_user d v c : prompt_columns d v = Some c -> v ∈ db_users d.
Proof. unfold prompt_columns. by case_bool_decide. Qed.

(** One command: it shows the copy to a user only if it was unseen, and then it is seen. *)
Lemma prompt_op_unseen o w u r w' :
  prompt_op o w = (r, w') ->
  unseen (wdb w') u = unseen (wdb w) u && negb (first_time_for u (o, r)) /\
  (first_time_for u (o, r) = true -> unseen (wdb w) u = true).
Proof.
  destruct o as [v|v enabled]; cbn [prompt_op first_time_for].
  - rewrite MarkBarcodePromptShown_run. destruct (prompt_columns (wdb w) v) as [c|] eqn:E; intros [= <- <-]; cbn.
    2: { by rewrite andb_true_r. }
    destruct (pr_Enabled c && is_nil (pr_SeenAt c)) eqn:M; cbn [wdb with_db].
    + apply andb_true_iff in M as [_ M]. rewrite unseen_set_prompts, (Z.eqb_sym u v), andb_true_r.
      rewrite bool_decide_eq_true_2 by (by eapply prompt_columns_user). cbn. destruct (Z.eqb_spec v u) as [->|]; cbn.
      * unfold unseen. by rewrite E, andb_false_r.
      * by rewrite andb_true_r.
    + by rewrite andb_false_r, andb_true_r.
  - rewrite SetBarcodePromptEnabled_run. destruct (prompt_columns (wdb w) v) as [c|] eqn:E; intros [= <- <-]; cbn.
    2: { by rewrite andb_true_r. }
    rewrite unseen_set_prompts, andb_true_r. destruct (Z.eqb_spec u v) as [->|]; cbn; [|done].
    case_bool_decide; [|done]. unfold unseen. by rewrite E.
Qed.

Lemma run_prompts_unseen ops u w :
  let r := run_prompts ops w in
  Z.of_nat (Datatypes.length (base.filter (fun a => first_time_for u a = true) r.1)) + Z.b2z (unseen (wdb r.2) u) =
  Z.b2z (unseen (wdb w) u).
Proof.
  revert w. induction ops as [|o ops IH]; intros w; cbn [run_prompts]; [done|].
  destruct (prompt_op o w) as [r w1] eqn:E. specialize (IH w1). cbv zeta in IH.
  destruct (run_prompts ops w1) as [rs w2]. cbn [fst snd] in *.
  apply (prompt_op_unseen o w u) in E as [E1 E2]. rewrite E1 in IH. rewrite filter_cons.
  destruct (decide (first_time_for u (o, r) = true)) as [F|F].
  - rewrite (E2 F) in *. rewrite F in IH. cbn in *. lia.
  - apply not_true_is_false in F. rewrite F, andb_true_r in IH. lia.
Qed.

(** However a user's offers and settings interleave, with other users' among them,
    the first-time copy is shown to that user at most once, and not at all once it was
    seen: the number of times it is shown is one exactly when it was unseen before and is
    seen after. *)
Theorem first_time_copy_once ops u w :
  let r := run_prompts ops w in
  let shown := Datatypes.length (base.filter (fun a => first_time_for u a = true) r.1) in
  (shown <= 1)%nat /\ (shown = 1%nat <-> unseen (wdb w) u = true /\ unseen (wdb r.2) u = false).
Proof.
  intros r shown. pose proof (run_prompts_unseen ops u w) as H. cbv zeta in H. fold r in H. fold shown in H.
  destruct (unseen (wdb w) u), (unseen (wdb r.2) u); cbn [Z.b2z] in H; (split; [lia|]); split; try lia; intros []; done || lia.
Qed.

(** ** Concrete households *)

Definition ean : string := "4006381333931".

(** The beans carry a code, and four more units of them expire on day 20. *)
Definition scanned_world : World :=
  (CreateBatch 1 (mkNewBatch 30 20 4 (Some (mkTime (20 * day) 0)) ExpirationUser ReasonPurchase (Some 10) None None)
     (AssociateBarcode 1 30 ean sample_world).2).2.

Lemma scanned_consistent : consistent (wdb scanned_world).
Proof.
  unfold scanned_world. destruct (AssociateBarcode 1 30 ean sample_world) as [r1 w1] eqn:E1. cbn [snd].
  destruct (CreateBatch 1 _ w1) as [r2 w2] eqn:E2. cbn [snd].
  assert (O1 : exists x, (AssociateBarcode 1 30 ean sample_world).1 = Ok x) by (eexists; vm_compute; reflexivity).
  destruct O1 as [x O1]. rewrite E1 in O1. cbn in O1. subst r1.
  assert (O2 : exists y, r2 = Ok y).
  { assert (w1 = (AssociateBarcode 1 30 ean sample_world).2) as -> by (by rewrite E1).
    eexists. change r2 with (r2, w2).1. rewrite <- E2. vm_compute. reflexivity. }
  destruct O2 as [y ->]. apply AssociateBarcode_good in E1. apply CreateBatch_good in E2.
  eapply good_step_consistent; [exact E2|]. eapply good_step_consistent; [exact E1 | exact sample_consistent].
Qed.

Definition scan_out : BarcodeLogInput := mkBarcodeLog BarcodeLogOut 5 None None false [].

Lemma LogBarcode_spec_witness :
  exists w', LogBarcode 1 ean (Some 10) scan_out scanned_world = (Ok (mkBarcodeLogResult 30 None [100; 40] 2), w') /\
    stock (wdb w') 30 = 2 /\ stock (wdb w') 31 = stock (wdb scanned_world) 31 /\ consistent (wdb w').
Proof.
  assert (V : (LogBarcode 1 ean (Some 10) scan_out scanned_world).1 = Ok (mkBarcodeLogResult 30 None [100; 40] 2))
    by (vm_compute; reflexivity).
  destruct (LogBarcode 1 ean (Some 10) scan_out scanned_world) as [r w'] eqn:E. cbn in V. subst r. exists w'. split; [done|].
  destruct (LogBarcode_spec 1 ean (Some 10) scan_out scanned_world (mkBarcodeLogResult 30 None [100; 40] 2) w') as (_ & _ & _ & K & S & C);
    [unfold is_int64; cbn; lia | constructor | cbn; lia | exact scanned_consistent | exact E |].
  cbn in K, S. split; [done|]. split; [by apply K | exact C].
Defined.

Lemma defaultDecrements_spec_witness :
  (defaultDecrements 1 30 5 scanned_world).1 = Ok [mkDecrement 100 4; mkDecrement 40 1] /\
  (defaultDecrements 1 30 8 scanned_world).1 = Fail ErrValidation /\
  exists decs, Ok [mkDecrement 100 4; mkDecrement 40 1] = (Ok decs : Res (list ConsumeBatchDecrement)) /\ lsum dec_Quantity decs = 5.
Proof.
  split; [vm_compute; reflexivity|]. split; [vm_compute; reflexivity|].
  destruct (product_in_storage (wdb scanned_world) 1 30) as [prod|] eqn:Hp; [|vm_compute in Hp; discriminate Hp].
  destruct (defaultDecrements_spec 1 30 5 scanned_world prod) as (_ & _ & decs & R & S & _);
    [apply scanned_consistent | lia | exact Hp |].
  assert (Hs : stock (wdb scanned_world) 30 = 7) by (vm_compute; reflexivity). rewrite Hs in *. cbn in R.
  exists decs. split; [|apply S; lia].
  change (Ok decs) with ((Ok decs : Res (list ConsumeBatchDecrement), scanned_world).1). rewrite <- R. vm_compute. reflexivity.
Defined.

Lemma AssociateBarcode_spec_witness :
  exists row w', AssociateBarcode 1 30 ean sample_world = (Ok row, w') /\
    LookupBarcode 1 ean w' = (Ok (mkBarcodeLookup (Some (30, beans)) 3 None), w') /\
    AssociateBarcode 1 31 ean w' = (Fail ErrConflict, w').
Proof.
  assert (V : exists v, (AssociateBarcode 1 30 ean sample_world).1 = Ok v) by (eexists; vm_compute; reflexivity).
  destruct (AssociateBarcode 1 30 ean sample_world) as [r w'] eqn:E. destruct V as (v & V). cbn in V. subst r.
  exists v, w'. split; [done|].
  destruct (AssociateBarcode_spec 1 30 ean sample_world v w' E) as (prod & (Hp & _) & _ & L & A & _).
  assert (prod = beans) as -> by (vm_compute in Hp; injection Hp as <-; reflexivity).
  replace (stock (wdb sample_world) 30) with 3 in L by (vm_compute; reflexivity).
  split; [exact L|]. apply A. eexists. vm_compute. reflexivity.
Defined.
