(* ===== verification/RecomputeSpec.v ===== *)
(** * What the nightly rebuild and the holiday budget promise

    A rebuild leaves every cached row a function of the ledgers, whatever the cache
    held and in whatever order the rows came; the streak is the run of weeks it is
    said to be; and no sequence of requests can take more than eight holiday weeks
    in any 52. *)

From S2P Require Import Prelude Gamification Db Sample Tree Progress ShelfLife Locations Products Recompute.

#[local] Open Scope string_scope.
#[local] Open Scope list_scope.
#[local] Open Scope Z_scope.

(** ** The snapshot *)

(** The events of one pair, ledger rows first. *)
Definition events_of (d : DB) (key : progressPair) : list Event :=
  map snd (base.filter (fun pe : progressPair * Event => pe.1 = key) (scoring_events d)).

Lemma add_events_lookup l out key :
  foldl add_event out l !! key =
  match map snd (base.filter (fun pe : progressPair * Event => pe.1 = key) l) with
  | [] => out !! key
  | es => Some (default [] (out !! key) ++ es)
  end.
Proof.
  revert out. induction l as [|[k e] l IH]; intros out; [done|]. cbn [foldl]. rewrite IH, filter_cons. cbn.
  unfold add_event. cbn [fst snd]. destruct (decide (k = key)) as [->|Hne].
  - rewrite lookup_insert_eq. cbn. destruct (map snd _); [done|]. by rewrite <- app_assoc.
  - by rewrite lookup_insert_ne.
Qed.

Lemma snapshot_lookup d key :
  recomputeSnapshot d !! key =
  if bool_decide (events_of d key = []) && negb (bool_decide (is_Some (db_progress d !! key))) then None
  else Some (events_of d key).
Proof.
  unfold recomputeSnapshot, allScoringEvents, existingProgressPairs. rewrite lookup_union, add_events_lookup, lookup_empty.
  fold (events_of d key). destruct (events_of d key) as [|e es]; cbn.
  - rewrite option_union_left_id. destruct (decide (is_Some (db_progress d !! key))) as [H|H].
    + rewrite (bool_decide_true _ H). cbn. apply lookup_gset_to_gmap_Some. split; [|done]. by apply elem_of_dom.
    + rewrite (bool_decide_false _ H). cbn. apply lookup_gset_to_gmap_None. by rewrite elem_of_dom.
  - by rewrite union_Some_l.
Qed.

(** ** The streak *)

(** The Monday [i] weeks before [week]. *)
Definition weeks_before (week : Z) (i : nat) : Z := week - 7 * Z.of_nat i.

(** How many of the [n] weeks up to [week] were active and not on holiday. *)
Definition counted (active holiday : gset Z) (week : Z) (n : nat) : Z :=
  Z.of_nat (Datatypes.length (base.filter (fun i => weeks_before week i ∈ active /\ weeks_before week i ∉ holiday) (seq 0 n))).

Lemma counted_next active holiday week n :
  counted active holiday week (S n) =
  (if bool_decide (week ∈ active) && negb (bool_decide (week ∈ holiday)) then 1 else 0) + counted active holiday (week - 7) n.
Proof.
  unfold counted. cbn [seq]. rewrite <- seq_shift, filter_cons.
  assert (E0 : weeks_before week 0 = week) by (unfold weeks_before; lia).
  assert (E : forall l, Datatypes.length (base.filter (fun i => weeks_before week i ∈ active /\ weeks_before week i ∉ holiday) (map S l)) =
    Datatypes.length (base.filter (fun i => weeks_before (week - 7) i ∈ active /\ weeks_before (week - 7) i ∉ holiday) l)).
  { induction l as [|i l IH]; [done|]. cbn [map]. rewrite !filter_cons.
    replace (weeks_before week (S i)) with (weeks_before (week - 7) i) by (unfold weeks_before; lia).
    destruct (decide _); cbn [length]; by rewrite IH. }
  destruct (decide (weeks_before week 0 ∈ active /\ weeks_before week 0 ∉ holiday)) as [[H1 H2]|Hn]; rewrite E0 in *.
  - rewrite bool_decide_true, bool_decide_false by done. cbn [negb andb length]. rewrite E. lia.
  - rewrite E. destruct (decide (week ∈ active)), (decide (week ∈ holiday));
      [rewrite (bool_decide_true (week ∈ active)), bool_decide_true by done | tauto
      | rewrite (bool_decide_false (week ∈ active)) by done.. ]; cbn; lia.
Qed.

(** From [week] the loop walks the [n] weeks that are active or on holiday. *)
Lemma streak_loop_run active holiday n week streak current fuel :
  (n < fuel)%nat -> (current = true -> n ≠ O) ->
  (forall i, (i < n)%nat -> weeks_before week i ∈ active ∪ holiday \/ (i = O /\ current = true)) ->
  weeks_before week n ∉ active ∪ holiday ->
  streak_loop fuel active holiday week streak current = Some (streak + counted active holiday week n).
Proof.
  revert week streak current fuel. induction n as [|n IH]; intros week streak current fuel Hf Hc Hin Hout.
  - destruct fuel as [|fuel]; [lia|]. cbn. unfold weeks_before in Hout. replace (week - 7 * Z.of_nat 0) with week in Hout by lia.
    rewrite !bool_decide_false by set_solver. destruct current; [by destruct Hc|]. f_equal. unfold counted. cbn. lia.
  - destruct fuel as [|fuel]; [lia|]. cbn [streak_loop].
    assert (Hnext : forall s, streak_loop fuel active holiday (week - 7) s false = Some (s + counted active holiday (week - 7) n)).
    { intros s. apply IH; [lia | done | |].
      - intros i Hi. left. destruct (Hin (S i) ltac:(lia)) as [H|[? _]]; [|done].
        by replace (weeks_before (week - 7) i) with (weeks_before week (S i)) by (unfold weeks_before; lia).
      - by replace (weeks_before (week - 7) n) with (weeks_before week (S n)) by (unfold weeks_before; lia). }
    rewrite !Hnext, counted_next. destruct (decide (week ∈ holiday)) as [Hh|Hh].
    { rewrite (bool_decide_true (week ∈ holiday)) by done. rewrite andb_false_r. f_equal; lia. }
    rewrite (bool_decide_false (week ∈ holiday)) by done. destruct (decide (week ∈ active)) as [Ha|Ha].
    { rewrite (bool_decide_true (week ∈ active)) by done. cbn. f_equal; lia. }
    rewrite (bool_decide_false (week ∈ active)) by done. cbn.
    destruct (Hin O ltac:(lia)) as [H|[_ ->]]; [|f_equal; lia]. exfalso. unfold weeks_before in H.
    replace (week - 7 * Z.of_nat 0) with week in H by lia. set_solver.
Qed.

(** Some week within reach is in neither set. *)
Lemma streak_gap (marked : gset Z) week :
  exists n : nat, (n < size marked + 2)%nat /\ (n ≠ O) /\ (weeks_before week n ∉ marked) /\
    forall i, (i < n)%nat -> weeks_before week i ∈ marked \/ i = O.
Proof.
  assert (W : forall k, (exists n, (n <= k)%nat /\ (n ≠ O) /\ (weeks_before week n ∉ marked) /\
      forall i, (i < n)%nat -> weeks_before week i ∈ marked \/ i = O) \/
    (forall i, (i <= k)%nat -> i ≠ O -> weeks_before week i ∈ marked)).
  { induction k as [|k [(n & Hn & H)|Hall]]; [right; intros i ? ?; lia | left; exists n; split; [lia | done] |].
    destruct (decide (weeks_before week (S k) ∈ marked)) as [Hin|Hout].
    - right. intros i Hi Hi0. destruct (decide (i = S k)) as [->|]; [done | apply Hall; [lia | done]].
    - left. exists (S k). split; [lia|]. split; [done|]. split; [done|]. intros i Hi.
      destruct i as [|i]; [by right|]. left. apply Hall; [lia | done]. }
  destruct (W (size marked + 1)%nat) as [(n & Hn & H)|Hall]; [exists n; split; [lia | done]|]. exfalso.
  set (l := map (weeks_before week) (seq 1 (size marked + 1))).
  assert (Hnd : NoDup l).
  { apply (NoDup_fmap_2_strong (weeks_before week)); [|apply NoDup_seq].
    intros i j _ _ E. unfold weeks_before in E. lia. }
  assert (Hsub : (list_to_set l : gset Z) ⊆ marked).
  { intros x Hx. apply elem_of_list_to_set, list_elem_of_fmap in Hx as (i & -> & Hi). apply elem_of_seq in Hi. apply Hall; lia. }
  apply subseteq_size in Hsub. rewrite size_list_to_set in Hsub by done. unfold l in Hsub. rewrite length_map, length_seq in Hsub. lia.
Qed.

Lemma computeStreakWeeks_run active holiday t :
  exists n, (n ≠ O) /\ computeStreakWeeks active holiday t = Some (counted active holiday (mondayOf t) n) /\
    (weeks_before (mondayOf t) n ∉ active ∪ holiday) /\
    forall i, (i < n)%nat -> weeks_before (mondayOf t) i ∈ active ∪ holiday \/ i = O.
Proof.
  destruct (streak_gap (active ∪ holiday) (mondayOf t)) as (n & Hn & Hn0 & Hout & Hin). exists n. split; [done|]. split; [|done].
  unfold computeStreakWeeks. rewrite (streak_loop_run active holiday n); [f_equal; lia | done | done | | done].
  intros i Hi. destruct (Hin i Hi) as [|]; auto.
Qed.

(** The streak computed back from now always comes out, and counts what it says:
    there is a run of weeks ending with the current one, each active or on holiday
    (the current one excused), before which lies a week that was neither; the streak
    is how many weeks of the run were active and not on holiday. *)
Theorem computeStreakWeeks_spec active holiday t :
  exists streak n, computeStreakWeeks active holiday t = Some streak /\ (n ≠ O) /\
    (forall i, (i < n)%nat -> weeks_before (mondayOf t) i ∈ active ∪ holiday \/ i = O) /\
    (weeks_before (mondayOf t) n ∉ active ∪ holiday) /\
    streak = Z.of_nat (Datatypes.length (base.filter (fun i =>
      weeks_before (mondayOf t) i ∈ active /\ weeks_before (mondayOf t) i ∉ holiday) (seq 0 n))).
Proof.
  destruct (computeStreakWeeks_run active holiday t) as (n & Hn & E & Hout & Hin). rewrite E. eauto 10.
Qed.

(** ** One pair, every pair *)

(** The row a rebuild leaves for a pair. *)
Definition rebuilt (d : DB) (clock : Z) (key : progressPair) (events : list Event) : UserProgress :=
  mkProgress (Coalesce events) (Level (Coalesce events))
    (default 0 (computeStreakWeeks (active_weeks events) (loadHolidayWeeks d key.2) clock)) (last_active events).

Lemma scoring_inTx {A} (m : Tx A) : scoring_only m -> scoring_only (inTx m).
Proof.
  intros Hm w r w' H. unfold inTx in H. destruct (m w) as [[a|e] w1] eqn:E; injection H as _ <-;
    destruct (Hm _ _ _ E) as (E1 & E2 & E3); [done | by split_and!].
Qed.

Lemma scoring_recomputeOnePair st u es : scoring_only (recomputeOnePair st u es).
Proof. unfold recomputeOnePair. apply scoring_inTx. scoring_walk. Qed.

(** Unlocking achievements leaves progress and holiday weeks alone. *)
Lemma frames_unlockAchievement st u k : frames (fun d => (db_progress d, db_holidays d)) (unlockAchievement st u k).
Proof. unfold unlockAchievement. frame_walk. Qed.
#[export] Hint Resolve frames_unlockAchievement : frames.

Lemma recomputeOnePair_ok st u es w x w' :
  recomputeOnePair st u es w = (Ok x, w') ->
  db_progress (wdb w') = <[(st, u) := rebuilt (wdb w) (wclock w) (st, u) es]> (db_progress (wdb w)) /\
  db_holidays (wdb w') = db_holidays (wdb w) /\ wclock w' = wclock w.
Proof.
  intros H. destruct (scoring_recomputeOnePair st u es w _ w' H) as (_ & _ & Ec).
  unfold recomputeOnePair in H. tx_inv1 H. tx_next H for d by get_db_ok as [-> ->]. cbv zeta in H.
  tx_next H for c by time_Now_ok as [-> ->]. tx_next H for streak by some_or_ok as [Es ->].
  tx_next H by require_ok as [_ ->]. tx_next H by modify_ok as ->.
  assert (F : frames (fun d => (db_progress d, db_holidays d)) (for_each (unlockAchievement st u) (SteadyHandTiersReached streak))).
  { apply frames_for_each. intros k. apply frames_unlockAchievement. }
  apply F in H. injection H as E1 E2. rewrite E1, E2. unfold rebuilt. cbn [snd]. by rewrite Es.
Qed.

Lemma recompute_pairs_ok pairs w n w' :
  NoDup pairs.*1 -> recompute_pairs pairs w = (Ok n, w') ->
  n = Z.of_nat (length pairs) /\
  (forall key, db_progress (wdb w') !! key =
     match (list_to_map pairs : gmap progressPair (list Event)) !! key with
     | Some es => Some (rebuilt (wdb w) (wclock w) key es)
     | None => db_progress (wdb w) !! key
     end).
Proof.
  revert w n. induction pairs as [|[key es] pairs IH]; intros w n Hnd H; cbn [recompute_pairs] in H.
  - tx_inv. split; [done|]. intros key. cbn. by rewrite lookup_empty.
  - apply NoDup_cons in Hnd as [Hk Hnd]. apply bind_ok in H as (x & w1 & H1 & H).
    apply recomputeOnePair_ok in H1 as (Ep & Eh & Ec). apply bind_ok in H as (m & w2 & H2 & H). tx_inv.
    destruct (IH _ _ Hnd H2) as [-> El]. split; [cbn; lia|]. intros key'. rewrite El. cbn [list_to_map foldr].
    assert (R : forall k l, rebuilt (wdb w1) (wclock w1) k l = rebuilt (wdb w) (wclock w) k l).
    { intros k l. unfold rebuilt, loadHolidayWeeks. by rewrite Eh, Ec. }
    rewrite Ep. destruct (decide (key = key')) as [<-|Hne].
    + cbn [uncurry fst snd]. rewrite lookup_insert_eq, not_elem_of_list_to_map_1, <- surjective_pairing by done.
      by rewrite lookup_insert_eq.
    + cbn [uncurry fst snd]. rewrite <- surjective_pairing, (lookup_insert_ne (list_to_map pairs)) by done.
      destruct (list_to_map pairs !! key'); [by rewrite R | by rewrite lookup_insert_ne].
Qed.

Lemma scoring_recompute_pairs pairs : scoring_only (recompute_pairs pairs).
Proof.
  induction pairs as [|[key es] pairs IH]; cbn [recompute_pairs]; [auto with scoring|].
  apply scoring_only_bind; [apply scoring_recomputeOnePair|]. intros _. apply scoring_only_bind; [done|]. auto with scoring.
Qed.

(** What is read off a list of events does not depend on its order. *)
Lemma last_active_max es : last_active es = foldr (fun e m => Some (default (mondayOf (ev_At e)) (Z.max (mondayOf (ev_At e)) <$> m))) None es.
Proof.
  unfold last_active. set (f := fun (l : option Z) e => _).
  assert (G : forall l a, foldl f (Some a) l =
    Some (default a (Z.max a <$> foldr (fun e m => Some (default (mondayOf (ev_At e)) (Z.max (mondayOf (ev_At e)) <$> m))) None l))).
  { induction l as [|e l IH]; intros a; [done|]. cbn [foldl foldr].
    assert (Ef : f (Some a) e = Some (Z.max a (mondayOf (ev_At e)))).
    { unfold f. destruct (Z.ltb_spec a (mondayOf (ev_At e))); f_equal; lia. }
    rewrite Ef, IH. cbn. f_equal. destruct (foldr _ None l) as [m|]; cbn; lia. }
  destruct es as [|e es]; [done|]. cbn [foldl foldr]. change (f None e) with (Some (mondayOf (ev_At e))). by rewrite G.
Qed.

Lemma last_active_perm es es' : es ≡ₚ es' -> last_active es = last_active es'.
Proof.
  intros P. rewrite !last_active_max. induction P as [|e l l' P IH|e e' l|l1 l2 l3 _ IH1 _ IH2]; cbn; [done | by rewrite IH | | congruence].
  f_equal. destruct (foldr _ None l) as [m|]; cbn; lia.
Qed.

Lemma rebuilt_perm d clock key es es' : es ≡ₚ es' -> rebuilt d clock key es = rebuilt d clock key es'.
Proof.
  intros P. unfold rebuilt. rewrite (Coalesce_perm es es' P), (last_active_perm es es' P).
  replace (active_weeks es') with (active_weeks es); [done|]. unfold active_weeks. apply list_to_set_perm_L. by rewrite P.
Qed.

(** The loop over the snapshot, in any order. *)
Lemma recompute_run range_ w n w' :
  (forall l, range_ l ≡ₚ l) -> RecomputeAllProgress range_ w = (Ok n, w') ->
  n = Z.of_nat (size (recomputeSnapshot (wdb w))) /\
  db_progress (wdb w') = map_imap (fun key es => Some (rebuilt (wdb w) (wclock w) key es)) (recomputeSnapshot (wdb w)) /\
  inventory_part (wdb w') = inventory_part (wdb w) /\ wclock w' = wclock w.
Proof.
  intros Hr H. unfold RecomputeAllProgress in H. tx_next H for d by get_db_ok as [-> ->].
  set (m := recomputeSnapshot (wdb w)) in *. pose proof (Hr (map_to_list m)) as P.
  assert (Hnd : NoDup (range_ (map_to_list m)).*1) by (rewrite P; apply NoDup_fst_map_to_list).
  destruct (scoring_recompute_pairs _ _ _ _ H) as (Ei & _ & Ec). apply recompute_pairs_ok in H as [-> El]; [|done].
  split; [by rewrite P, length_map_to_list|]. split; [|done]. apply map_eq. intros key.
  assert (Em : (list_to_map (range_ (map_to_list m)) : gmap progressPair (list Event)) = m).
  { rewrite (list_to_map_proper _ (map_to_list m)); [apply list_to_map_to_list | done | done]. }
  rewrite El, Em, map_lookup_imap. destruct (m !! key) as [es|] eqn:Ek; [done|]. cbn.
  unfold m in Ek. rewrite snapshot_lookup in Ek. destruct (bool_decide (events_of (wdb w) key = [])); [|done]. cbn in Ek.
  destruct (decide (is_Some (db_progress (wdb w) !! key))) as [Hs|Hs]; [by rewrite bool_decide_true in Ek|].
  by apply eq_None_not_Some.
Qed.

(** The ledgers decide the events. *)
Lemma events_of_inventory d d' key :
  db_logs d' = db_logs d -> db_products d' = db_products d -> db_contributions d' = db_contributions d ->
  events_of d' key = events_of d key.
Proof. intros E1 E2 E3. unfold events_of, scoring_events, ledger_event. by rewrite E1, E2, E3. Qed.

Lemma frames_recompute_pairs pairs : frames (fun d => (db_contributions d, db_holidays d)) (recompute_pairs pairs).
Proof.
  induction pairs as [|[key es] pairs IH]; cbn [recompute_pairs]; [frame_walk|].
  apply frames_bind; [unfold recomputeOnePair, unlockAchievement; frame_walk|]. intros _. apply frames_bind; [done|]. intros m. frame_walk.
Qed.

(** C32: Whatever the cache held, and in whatever order Go ranges over its maps and
    the database returns its rows, a rebuild that succeeds leaves exactly one row for
    every pair that has events or had a row: its XP is the coalesced score of the
    pair's events and nothing else, its level follows from that, its streak is the
    one computed from the weeks of those events and the user's holidays, and its last
    active week is the latest of them.  No other table but the achievements changes,
    and rebuilding again at the same time changes no row. *)
Theorem RecomputeAllProgress_spec range_ w n w'
    (Hrange : forall l, range_ l ≡ₚ l) (Hrun : RecomputeAllProgress range_ w = (Ok n, w')) :
  n = Z.of_nat (size (db_progress (wdb w'))) /\
  (forall st u, db_progress (wdb w') !! (st, u) =
     let events := events_of (wdb w) (st, u) in
     if bool_decide (events = []) && negb (bool_decide (is_Some (db_progress (wdb w) !! (st, u)))) then None
     else Some (rebuilt (wdb w) (wclock w) (st, u) events)) /\
  (forall key es es', es ≡ₚ es' -> rebuilt (wdb w) (wclock w) key es = rebuilt (wdb w) (wclock w) key es') /\
  inventory_part (wdb w') = inventory_part (wdb w) /\
  (forall again n' w'', (forall l, again l ≡ₚ l) -> RecomputeAllProgress again w' = (Ok n', w'') ->
     n' = n /\ db_progress (wdb w'') = db_progress (wdb w')).
Proof.
  pose proof (recompute_run range_ w n w' Hrange Hrun) as (-> & Ep & Ei & Ec).
  assert (F : db_contributions (wdb w') = db_contributions (wdb w) /\ db_holidays (wdb w') = db_holidays (wdb w)).
  { unfold RecomputeAllProgress in Hrun. tx_next Hrun for d by get_db_ok as [-> ->].
    pose proof (frames_recompute_pairs _ _ _ _ Hrun) as F. by injection F as -> ->. }
  destruct F as [F1 F2].
  assert (El : forall st u, db_progress (wdb w') !! (st, u) =
     if bool_decide (events_of (wdb w) (st, u) = []) && negb (bool_decide (is_Some (db_progress (wdb w) !! (st, u)))) then None
     else Some (rebuilt (wdb w) (wclock w) (st, u) (events_of (wdb w) (st, u)))).
  { intros st u. rewrite Ep, map_lookup_imap, snapshot_lookup. by destruct (_ && _). }
  assert (Esz : size (recomputeSnapshot (wdb w)) = size (db_progress (wdb w'))).
  { rewrite <- !size_dom. f_equal. apply set_eq. intros key. rewrite !elem_of_dom, Ep, map_lookup_imap.
    destruct (recomputeSnapshot (wdb w) !! key); cbn; split; intros [x Hx]; try discriminate Hx; eauto. }
  split; [by rewrite Esz|]. split; [exact El|]. split; [intros key es es'; apply rebuilt_perm|]. split; [exact Ei|].
  intros again n' w'' Ha H. pose proof (recompute_run again w' n' w'' Ha H) as (-> & Ep' & _).
  assert (Es : recomputeSnapshot (wdb w') = recomputeSnapshot (wdb w)).
  { assert (Ev : forall key, events_of (wdb w') key = events_of (wdb w) key).
    { intros key. apply events_of_inventory; [| | exact F1]; [by apply (f_equal db_logs) in Ei | by apply (f_equal db_products) in Ei]. }
    apply map_eq. intros [st u]. rewrite !snapshot_lookup, Ev, El.
    destruct (bool_decide (events_of (wdb w) (st, u) = [])) eqn:Eb; cbn; [|done].
    destruct (decide (is_Some (db_progress (wdb w) !! (st, u)))) as [Hs|Hs].
    - by rewrite (bool_decide_true _ Hs).
    - by rewrite (bool_decide_false _ Hs). }
  split; [by rewrite Es|]. rewrite Ep', Ep, Es. apply map_eq. intros key. rewrite !map_lookup_imap.
  destruct (recomputeSnapshot (wdb w) !! key) as [es|]; [|done]. cbn. unfold rebuilt, loadHolidayWeeks. by rewrite F2, Ec.
Qed.

Definition same_order : list (progressPair * list Event) -> list (progressPair * list Event) := fun l => l.

Definition rebuilt_world : World := (RecomputeAllProgress same_order sample_world).2.

Lemma RecomputeAllProgress_spec_witness :
  RecomputeAllProgress same_order sample_world = (Ok 1, rebuilt_world) /\
  db_progress (wdb rebuilt_world) !! (1, 10) = Some (mkProgress 3 1 1 (Some (-3))) /\
  db_progress (wdb rebuilt_world) !! (1, 11) = None.
Proof.
  assert (E : RecomputeAllProgress same_order sample_world = (Ok 1, rebuilt_world)) by (vm_compute; reflexivity).
  split; [exact E|].
  destruct (RecomputeAllProgress_spec same_order sample_world 1 rebuilt_world (fun l => reflexivity l) E) as (_ & H & _).
  rewrite !H. split; vm_compute; reflexivity.
Defined.

(** ** What the ledgers do not hold *)

(** This week's quest: file the pasta somewhere. *)
Definition filing_quest : Quest := mkQuest 1 (-3) GeneratorUncategorized (IdList [31]) 1 (XPForGenerator GeneratorUncategorized) None.

Definition quest_world : World :=
  mkWorld (set_quests (fun _ => {[80 := filing_quest]}) sample_db) (wids sample_world) (wnow sample_world) (wclock sample_world).

Definition filed : World := (SetProductCategoryAsUser 1 31 (Some 25) 11 quest_world).2.

(** The reward of a quest lasts until the next night.  Completing a quest pays its
    contributors into the cached row only; the rebuild scores the two ledgers, where
    the reward is not, and puts the total back to what the single contribution was
    worth. *)
Theorem recompute_takes_quest_rewards_back :
  (SetProductCategoryAsUser 1 31 (Some 25) 11 quest_world).1 = Ok tt /\
  (exists q, db_quests (wdb filed) !! 80 = Some q /\ is_Some (q_CompletedAt q)) /\
  (exists before, db_progress (wdb filed) !! (1, 11) = Some before /\ up_XP before = 2 + XPForGenerator GeneratorUncategorized) /\
  0 < XPForGenerator GeneratorUncategorized /\ (RecomputeAllProgress same_order filed).1 = Ok 2 /\
  forall range_ n w', (forall l, range_ l ≡ₚ l) -> RecomputeAllProgress range_ filed = (Ok n, w') ->
    exists after, db_progress (wdb w') !! (1, 11) = Some after /\ up_XP after = 2.
Proof.
  split; [vm_compute; reflexivity|]. split; [eexists; split; [vm_compute; reflexivity | by eexists]|].
  split; [eexists; split; vm_compute; reflexivity|]. split; [vm_compute; reflexivity|]. split; [vm_compute; reflexivity|].
  intros range_ n w' Hr H. apply recompute_run in H as (_ & Ep & _); [|done].
  rewrite Ep, map_lookup_imap, snapshot_lookup.
  assert (Ee : events_of (wdb filed) (1, 11) = [mkEvent 31 KindMetadataFilled second 2]) by (vm_compute; reflexivity).
  rewrite Ee. eexists. split; [reflexivity|]. vm_compute. reflexivity.
Qed.

(** ** The holiday budget *)

Lemma mondayOf_monday t : mondayOf t mod 7 = 4.
Proof. unfold mondayOf. generalize (t / day). intros d. Z.to_euclidean_division_equations. lia. Qed.

(** Mondays within 1100 weeks of the Monday [lo]. *)
Definition calendar (lo week : Z) : Prop := week mod 7 = 4 /\ lo <= week < lo + 7 * 1100.

Lemma calendar_mondays lo (s : gset Z) :
  lo mod 7 = 4 -> (forall w, w ∈ s -> calendar lo w) -> mondays (instant lo) (toSlice s).
Proof.
  intros Hlo Hs. unfold mondays, toSlice. apply Forall_map, Forall_forall. intros w Hw. apply elem_of_elements in Hw.
  destruct (Hs w Hw) as [Hm Hr]. exists ((w - lo) / 7). unfold instant, week.
  assert (E : w = lo + 7 * ((w - lo) / 7)) by (Z.to_euclidean_division_equations; lia).
  split; [Z.to_euclidean_division_equations; lia|]. rewrite E at 1. ring.
Qed.

Lemma in_year_mono t (s s' : gset Z) : s ⊆ s' -> in_year t (toSlice s) <= in_year t (toSlice s').
Proof.
  intros Hs. apply elements_submseteq, submseteq_Permutation in Hs as [k P].
  rewrite (in_year_perm t (toSlice s') (map instant (elements s ++ k))) by (unfold toSlice; by rewrite P).
  unfold in_year, toSlice. rewrite map_app, filter_app, length_app. lia.
Qed.

Lemma elem_of_loadHolidayWeeks d u week : week ∈ loadHolidayWeeks d u <-> (u, week) ∈ db_holidays d.
Proof.
  unfold loadHolidayWeeks. rewrite elem_of_map. split.
  - intros ([u' w'] & -> & H). apply elem_of_filter in H as [Hu H]. cbn in *. by subst.
  - intros H. exists (u, week). split; [done|]. by apply elem_of_filter.
Qed.

(** What a request leaves for a user, and for the others. *)
Lemma setHolidayWeeksTx_ok userID weeks w x w' :
  setHolidayWeeksTx userID weeks w = (Ok x, w') ->
  let existing := loadHolidayWeeks (wdb w) userID in
  let requested := list_to_set (map mondayOf weeks) : gset Z in
  let current := mondayOf (wclock w) in
  (forall week, week ∈ requested -> week < current -> week ∈ existing) /\
  newlyExceedsBudget existing (final_weeks current existing requested) = false /\
  loadHolidayWeeks (wdb w') userID = final_weeks current existing requested /\
  (forall other, other ≠ userID -> loadHolidayWeeks (wdb w') other = loadHolidayWeeks (wdb w) other).
Proof.
  intros H existing requested current. unfold setHolidayWeeksTx in H. cbv zeta in H.
  tx_next H for d by get_db_ok as [-> ->]. tx_next H for c by time_Now_ok as [-> ->].
  tx_next H by require_ok as [Hv ->]. tx_next H by require_ok as [Hb ->]. tx_next H by modify_ok as ->.
  tx_next H by require_ok as [_ ->]. apply modify_ok in H as ->. cbn [wdb with_db].
  fold existing requested current in Hv, Hb |- *. apply negb_true_iff in Hv, Hb.
  assert (Hback : forall week, week ∈ requested -> week < current -> week ∈ existing).
  { intros v Hin Hlt. destruct (decide (v ∈ existing)) as [|Hn]; [done|]. exfalso.
    apply not_true_iff_false in Hv. apply Hv, existsb_exists. exists v. split; [by apply list_elem_of_In, elem_of_elements|].
    rewrite bool_decide_false by done. by apply andb_true_iff; split; [apply Z.ltb_lt|]. }
  split; [exact Hback|]. split; [exact Hb|]. split.
  - apply set_eq. intros v. rewrite elem_of_loadHolidayWeeks. cbn [set_holidays db_holidays].
    rewrite elem_of_union, elem_of_map, elem_of_filter, <- elem_of_loadHolidayWeeks. fold existing. cbn [fst snd].
    setoid_rewrite elem_of_filter. unfold final_weeks. rewrite elem_of_union, elem_of_filter.
    setoid_rewrite elem_of_union. setoid_rewrite elem_of_filter. split.
    + intros [(y & [= <-] & Hy & [[Hc He]|Hr])|[Hn He]]; [by left | by right |]. left. split; [|done]. tauto || lia.
    + intros Hv'. destruct (decide (v ∈ existing)) as [He|He]; [destruct (decide (v <= current)) as [Hc|Hc]|].
      * right. split; [lia | done].
      * left. exists v. split; [done|]. split; [lia|]. destruct Hv' as [[? _]|]; [lia | by right].
      * left. exists v. split; [done|]. destruct Hv' as [[_ ?]|Hr]; [done|]. split; [|by right].
        destruct (decide (v = current)) as [->|]; [by right|]. left. specialize (Hback v Hr). destruct (decide (v < current)); [tauto | lia].
  - intros other Hne. apply set_eq. intros v. rewrite !elem_of_loadHolidayWeeks. cbn [set_holidays db_holidays].
    rewrite elem_of_union, elem_of_map, elem_of_filter. cbn. split.
    + intros [(y & [= E _] & _)|[_ ?]]; [congruence | done].
    + intros ?. right. split; [|done]. intros [? _]. congruence.
Qed.

(** Which requests are refused, and why. *)
Lemma setHolidayWeeksTx_fail userID weeks w e w' :
  setHolidayWeeksTx userID weeks w = (Fail e, w') ->
  let existing := loadHolidayWeeks (wdb w) userID in
  let requested := list_to_set (map mondayOf weeks) : gset Z in
  let current := mondayOf (wclock w) in
  (e = ErrValidation /\ exists week, week ∈ requested /\ week < current /\ week ∉ existing) \/
  (e = ErrConflict /\ newlyExceedsBudget existing (final_weeks current existing requested) = true) \/
  (e = ErrOther /\ userID ∉ db_users (wdb w)).
Proof.
  intros H existing requested current. unfold setHolidayWeeksTx in H. cbv zeta in H.
  rewrite (bind_step _ get_db _ _ _ eq_refl), (bind_step _ time_Now _ _ _ eq_refl) in H.
  fold existing requested current in H.
  destruct (existsb _ (elements requested)) eqn:Ev.
  { rewrite (bind_abort _ _ w ErrValidation w) in H by reflexivity. injection H as <- _. left. split; [done|].
    apply existsb_exists in Ev as (v & Hin & Hv). apply list_elem_of_In, elem_of_elements in Hin.
    apply andb_true_iff in Hv as [Hlt Hn]. apply Z.ltb_lt in Hlt. apply negb_true_iff, bool_decide_eq_false in Hn. eauto. }
  rewrite (bind_step _ (require (negb false) ErrValidation) w tt w) in H by reflexivity.
  destruct (newlyExceedsBudget existing (final_weeks current existing requested)) eqn:Eb.
  { rewrite (bind_abort _ _ w ErrConflict w) in H by reflexivity. injection H as <- _. by right; left. }
  rewrite (bind_step _ (require (negb false) ErrConflict) w tt w) in H by reflexivity.
  rewrite (bind_step _ (modify _) w tt _ eq_refl) in H. right. right.
  apply bind_fail in H as [H|(? & w1 & _ & H)]; [|done]. unfold require in H. case_match; [done|]. injection H as <- _. split; [done|].
  match goal with E : _ || _ = false |- _ => apply orb_false_iff in E as [_ E]; by apply bool_decide_eq_false in E end.
Qed.

(** The budget over weeks of the calendar. *)
Lemma budget_kept lo (existing final : gset Z) :
  lo mod 7 = 4 -> (forall week, week ∈ final -> calendar lo week) ->
  newlyExceedsBudget existing final = false -> final ⊆ existing \/ forall t, in_year t (toSlice final) <= HolidayBudgetWeeks.
Proof.
  intros Hlo Hc H. unfold newlyExceedsBudget in H. destruct (decide (final ⊆ existing)) as [|Hn]; [by left|].
  rewrite bool_decide_false in H by done. right. intros t.
  destruct (MaxWeeksInWindow_year (instant lo) (toSlice final)) as [U _]; [by apply calendar_mondays|]. specialize (U t). lia.
Qed.

Lemma budget_broken lo (existing final : gset Z) :
  lo mod 7 = 4 -> (forall week, week ∈ final -> calendar lo week) ->
  newlyExceedsBudget existing final = true ->
  ~ final ⊆ existing /\ exists t, HolidayBudgetWeeks < in_year t (toSlice final).
Proof.
  intros Hlo Hc H. unfold newlyExceedsBudget in H. destruct (decide (final ⊆ existing)) as [|Hn].
  { by rewrite bool_decide_true in H. }
  rewrite bool_decide_false in H by done. split; [done|].
  destruct (MaxWeeksInWindow_year (instant lo) (toSlice final)) as (_ & _ & E); [by apply calendar_mondays|].
  destruct E as (t & _ & E).
  - intros E0. rewrite E0 in H. discriminate H.
  - exists t. lia.
Qed.

(** What SetHolidayWeeks leaves.  A week before the current one stays exactly as it
    was on record, the current week is never taken off, the future is exactly what was
    asked for, and nobody else's weeks move.  A request with a week on it that was not
    on record before leaves at most eight weeks in any 52, wherever they are cut; one
    without leaves a subset; so whoever was within the budget stays within it.  A
    refusal changes nothing and is for a backdated week, for a budget it really would
    exceed, or for a user that does not exist. *)
Theorem SetHolidayWeeks_spec lo userID weeks w
    (Hlo : lo mod 7 = 4) (Hdb : forall week, week ∈ loadHolidayWeeks (wdb w) userID -> calendar lo week)
    (Hreq : forall t, t ∈ weeks -> calendar lo (mondayOf t)) :
  let existing := loadHolidayWeeks (wdb w) userID in
  let requested := list_to_set (map mondayOf weeks) : gset Z in
  let current := mondayOf (wclock w) in
  match SetHolidayWeeks userID weeks w with
  | (Ok _, w') =>
    let final := loadHolidayWeeks (wdb w') userID in
    (forall week, week < current -> week ∈ final <-> week ∈ existing) /\
    (current ∈ final <-> current ∈ existing \/ current ∈ requested) /\
    (forall week, current < week -> week ∈ final <-> week ∈ requested) /\
    (forall week, week ∈ final -> calendar lo week) /\
    (final ⊆ existing \/ forall t, in_year t (toSlice final) <= HolidayBudgetWeeks) /\
    ((forall t, in_year t (toSlice existing) <= HolidayBudgetWeeks) -> forall t, in_year t (toSlice final) <= HolidayBudgetWeeks) /\
    (forall other, other ≠ userID -> loadHolidayWeeks (wdb w') other = loadHolidayWeeks (wdb w) other)
  | (Fail e, w') =>
    wdb w' = wdb w /\
    ((e = ErrValidation /\ exists week, week ∈ requested /\ week < current /\ week ∉ existing) \/
     (e = ErrConflict /\ exists t, HolidayBudgetWeeks < in_year t (toSlice (final_weeks current existing requested))) \/
     (e = ErrOther /\ userID ∉ db_users (wdb w)))
  end.
Proof.
  intros existing requested current.
  assert (Hc : forall v, v ∈ final_weeks current existing requested -> calendar lo v).
  { intros v Hv. unfold final_weeks in Hv. apply elem_of_union in Hv as [Hv|Hv].
    - apply elem_of_filter in Hv as [_ Hv]. by apply Hdb.
    - apply elem_of_list_to_set, list_elem_of_fmap in Hv as (t & -> & Ht). by apply Hreq. }
  destruct (SetHolidayWeeks userID weeks w) as [[x|e] w'] eqn:H.
  - unfold SetHolidayWeeks in H. apply inTx_inv, setHolidayWeeksTx_ok in H. cbv zeta in H.
    destruct H as (Hback & Hb & Hf & Ho). fold existing requested current in Hback, Hb, Hf. cbv zeta. rewrite Hf.
    assert (Hbud := budget_kept lo existing _ Hlo Hc Hb).
    assert (M : forall v, v ∈ final_weeks current existing requested <-> (v <= current /\ v ∈ existing) \/ v ∈ requested)
      by (intros v; unfold final_weeks; by rewrite elem_of_union, elem_of_filter).
    split; [|split; [|split; [|split; [exact Hc|split; [exact Hbud|split; [|exact Ho]]]]]].
    + intros v Hv. rewrite M. split; [|left; split; [lia | done]]. intros [[_ ?]|Hr]; [done | by apply Hback].
    + rewrite M. split; [tauto|]. intros [?|?]; [left; split; [lia | done] | by right].
    + intros v Hv. rewrite M. split; [|by right]. intros [[? _]|?]; [lia | done].
    + intros He t. destruct Hbud as [Hs|Hy]; [|apply Hy]. pose proof (in_year_mono t _ _ Hs). specialize (He t). lia.
  - split; [by eapply inTx_fail|]. unfold SetHolidayWeeks, inTx in H.
    destruct (setHolidayWeeksTx userID weeks w) as [[x|e'] w1] eqn:E; [done|]. injection H as -> _.
    apply setHolidayWeeksTx_fail in E. cbv zeta in E. fold existing requested current in E.
    destruct E as [E|[[-> E]|E]]; [by left | | by right; right]. right. left. split; [done|].
    by apply (budget_broken lo existing).
Qed.

(** A user with the current week and last week on record asks for the current week, and
    for next week: 1970-01-05 is the Monday after the sample's clock. *)
Definition holiday_world : World :=
  mkWorld (set_holidays (fun _ => {[(10, -3); (10, -10); (11, 4)]}) sample_db) [] second second.

Lemma SetHolidayWeeks_spec_witness :
  (SetHolidayWeeks 10 [4 * day; -3 * day] holiday_world).1 = Ok tt /\
  let final := loadHolidayWeeks (wdb (SetHolidayWeeks 10 [4 * day; -3 * day] holiday_world).2) 10 in
  final = {[-10; -3; 4]} /\ (forall t, in_year t (toSlice final) <= 8).
Proof.
  assert (Hdb : forall week, week ∈ loadHolidayWeeks (wdb holiday_world) 10 -> calendar (-3500 - 3) week).
  { intros v Hv. assert (E : loadHolidayWeeks (wdb holiday_world) 10 = {[-3; -10]}) by (vm_compute; reflexivity).
    rewrite E in Hv. apply elem_of_union in Hv as [->%elem_of_singleton| ->%elem_of_singleton]; split; [done | lia | done | lia]. }
  assert (Hreq : forall t, t ∈ [4 * day; -3 * day] -> calendar (-3500 - 3) (mondayOf t)).
  { intros t Ht. apply elem_of_cons in Ht as [->|Ht]; [by vm_compute|]. apply elem_of_cons in Ht as [->|Ht]; [by vm_compute|].
    by apply elem_of_nil in Ht. }
  pose proof (SetHolidayWeeks_spec (-3500 - 3) 10 [4 * day; -3 * day] holiday_world eq_refl Hdb Hreq) as S. cbv zeta in S.
  destruct (SetHolidayWeeks 10 [4 * day; -3 * day] holiday_world) as [r w'] eqn:E.
  assert (Er : r = Ok tt) by (apply (f_equal fst) in E; vm_compute in E; by subst).
  subst r. split; [done|]. cbn [snd]. split.
  - apply (f_equal snd) in E. cbn [snd] in E. rewrite <- E. vm_compute. reflexivity.
  - destruct S as (_ & _ & _ & _ & [Hs|Hs] & _); [|exact Hs]. exfalso.
    assert (H4 : 4 ∈ loadHolidayWeeks (wdb w') 10).
    { apply (f_equal snd) in E. cbn [snd] in E. rewrite <- E. apply (bool_decide_unpack _). vm_compute. exact I. }
    apply Hs in H4. destruct (Hdb 4 H4) as [_ H5].
    assert (E4 : bool_decide (4 ∈ loadHolidayWeeks (wdb holiday_world) 10) = false) by (vm_compute; reflexivity).
    apply bool_decide_eq_false in E4. done.
Defined.
