(* ===== verification/WeeklySpec.v ===== *)
(** * What a weekly and a nightly run leave behind

    A generation adds at most three quests of different generators and repeats to
    nothing; a clean streak's milestones pay each member once; what the quests count,
    and in which week they are looked for. *)

From stdpp Require Import pretty.
From S2P Require Import Prelude Gamification Text Expiry Db Sample Tree Progress Batches Ledger StockSteps BatchSpec Recompute Weekly.

#[local] Open Scope string_scope.
#[local] Open Scope list_scope.
#[local] Open Scope Z_scope.

(** ** What a generation writes *)

(** The database without the tables a weekly or nightly run writes. *)
Definition weekly_rest (d : DB) : DB :=
  set_quests (fun _ => ∅) (set_gsettings (fun _ => ∅) (set_achievements (fun _ => ∅) (set_progress (fun _ => ∅) d))).

Lemma candidates_rest d d' nowT clock st :
  weekly_rest d' = weekly_rest d -> candidates_of d' nowT clock st = candidates_of d nowT clock st.
Proof.
  intros E. change (candidates_of (weekly_rest d') nowT clock st = candidates_of (weekly_rest d) nowT clock st). by rewrite E.
Qed.

Lemma members_rest d d' : weekly_rest d' = weekly_rest d -> db_members d' = db_members d.
Proof. intros E. exact (f_equal db_members E). Qed.

Lemma frames_pay_once st u key xp : frames weekly_rest (pay_once st u key xp).
Proof. unfold pay_once, achievementNewlyUnlocked, bumpProgress. frame_walk. Qed.
#[export] Hint Resolve frames_pay_once : frames.

Lemma frames_award st key xp u : frames weekly_rest (award st key xp u).
Proof. unfold award, achievementNewlyUnlocked, bumpProgress. frame_walk. Qed.
#[export] Hint Resolve frames_award : frames.

Lemma frames_updateCleanStreak st week clear : frames weekly_rest (updateCleanStreak st week clear).
Proof. unfold updateCleanStreak, ensure_settings, settings_row, update_settings, storageMemberIDs, pay_milestones. frame_walk. Qed.

Lemma frames_insert_quest st week c : frames weekly_rest (insert_quest st week c).
Proof. unfold insert_quest. frame_walk. Qed.
#[export] Hint Resolve frames_updateCleanStreak frames_insert_quest : frames.

Lemma frames_streak_quests st week clear : frames db_quests (updateCleanStreak st week clear).
Proof.
  unfold updateCleanStreak, ensure_settings, settings_row, update_settings, storageMemberIDs, pay_milestones, pay_once,
    achievementNewlyUnlocked, bumpProgress. frame_walk.
Qed.

(** ** Quests *)

(** The UNIQUE constraint of the table: one quest per storage, week and generator. *)
Definition unique_quests (m : gmap uuid Quest) : Prop :=
  forall i j x y, m !! i = Some x -> m !! j = Some y ->
    q_StorageID x = q_StorageID y -> q_WeekStart x = q_WeekStart y -> q_Generator x = q_Generator y -> i = j.

Lemma same_quest_true st week g i x :
  same_quest st week g (i, x) = true <-> q_StorageID x = st /\ q_WeekStart x = week /\ q_Generator x = g.
Proof. unfold same_quest. cbn. rewrite !andb_true_iff, !Z.eqb_eq, String.eqb_eq. tauto. Qed.

Lemma has_quest_true d st week g :
  has_quest d st week g = true <->
  exists i x, db_quests d !! i = Some x /\ q_StorageID x = st /\ q_WeekStart x = week /\ q_Generator x = g.
Proof.
  unfold has_quest. rewrite existsb_exists. setoid_rewrite <- list_elem_of_In. split.
  - intros ([i x] & H & E). apply elem_of_map_to_list in H. apply same_quest_true in E. by exists i, x.
  - intros (i & x & H & E). exists (i, x). split; [by apply elem_of_map_to_list | by apply same_quest_true].
Qed.

Lemma insert_quest_ok st week c w u w' :
  insert_quest st week c w = (Ok u, w') ->
  wnow w' = wnow w /\ wclock w' = wclock w /\ has_quest (wdb w') st week (c_Generator c) = true /\
  if has_quest (wdb w) st week (c_Generator c) then wdb w' = wdb w
  else exists id, db_quests (wdb w) !! id = None /\
    wdb w' = set_quests <[id := candidate_quest st week c]> (wdb w).
Proof.
  unfold insert_quest. intros H. tx_next H for id by newID_ok as (ids & _ & ->). tx_next H for d by get_db_ok as [-> ->].
  destruct (has_quest (wdb w) st week (c_Generator c)) eqn:Hq.
  { tx_inv1 H. subst. done. }
  tx_next H by require_ok as [Hr ->]. bool_to_prop. apply modify_ok in H as ->. cbn.
  do 2 (split; [done|]). split; [|by exists id]. apply has_quest_true. exists id, (candidate_quest st week c). cbn.
  split; [apply lookup_insert_eq | done].
Qed.

Lemma insert_quest_done st week c w r w' :
  has_quest (wdb w) st week (c_Generator c) = true -> insert_quest st week c w = (r, w') ->
  wdb w' = wdb w /\ wnow w' = wnow w /\ wclock w' = wclock w.
Proof.
  intros Hq H. unfold insert_quest, mbind, tx_bind, newID, get_db in H. destruct (wids w) as [|id ids].
  - by injection H as _ <-.
  - cbn in H. rewrite Hq in H. by injection H as _ <-.
Qed.

Lemma insert_quests_ok st week l w u w' :
  for_each (insert_quest st week) l w = (Ok u, w') ->
  wnow w' = wnow w /\ wclock w' = wclock w /\
  db_quests (wdb w) ⊆ db_quests (wdb w') /\
  (forall i x, db_quests (wdb w') !! i = Some x -> db_quests (wdb w) !! i = None ->
     exists c, c ∈ l /\ x = candidate_quest st week c) /\
  (unique_quests (db_quests (wdb w)) -> unique_quests (db_quests (wdb w'))) /\
  (forall g, has_quest (wdb w) st week g = true -> has_quest (wdb w') st week g = true) /\
  Forall (fun c => has_quest (wdb w') st week (c_Generator c) = true) l.
Proof.
  revert w. induction l as [|c l IH]; intros w H; cbn [for_each] in H.
  { tx_inv1 H. subst. do 2 (split; [done|]). split; [done|]. split; [congruence|]. by auto. }
  apply bind_ok in H as (u1 & w1 & H1 & H). apply insert_quest_ok in H1 as (T1 & K1 & Q1 & D1).
  destruct (IH _ H) as (T & K & S & N & U & G & F). split; [congruence|]. split; [congruence|].
  destruct (has_quest (wdb w) st week (c_Generator c)) eqn:Hq.
  - rewrite D1 in *. split; [done|]. split; [|split; [done|]; split; [done|]; constructor; [by apply G | done]].
    intros i x Hi Hn. destruct (N i x Hi Hn) as (c' & Hc & ->). exists c'. split; [by right | done].
  - destruct D1 as (id & Hid & E1). rewrite E1 in *. cbn in S, N, U.
    split; [etransitivity; [by apply insert_subseteq | exact S]|]. split; [|split; [|split]].
    + intros i x Hi Hn. destruct (decide (i = id)) as [->|Hne].
      * pose proof (lookup_weaken _ _ _ _ (lookup_insert_eq (db_quests (wdb w)) id (candidate_quest st week c)) S) as X.
        exists c. split; [left | congruence].
      * destruct (N i x Hi) as (c' & Hc & ->); [by rewrite lookup_insert_ne|]. exists c'. split; [by right | done].
    + intros Hu. apply U. intros i j x y Hi Hj E E2 E3. rewrite lookup_insert in Hi, Hj.
      assert (Q : forall k z, db_quests (wdb w) !! k = Some z -> q_StorageID z = st -> q_WeekStart z = week ->
        q_Generator z = c_Generator c -> False).
      { intros k z Hk A B C. assert (X : has_quest (wdb w) st week (c_Generator c) = true) by (apply has_quest_true; eauto 7). congruence. }
      case_decide; case_decide; subst; [done | | | by eapply Hu].
      * injection Hj as <-. cbn in *. exfalso. by eapply Q.
      * injection Hi as <-. cbn in *. exfalso. by eapply Q.
    + intros g Hg. apply G. apply has_quest_true in Hg as (i & x & Hi & Hx). apply has_quest_true. exists i, x.
      split; [|done]. cbn. rewrite lookup_insert_ne; [done | intros ->; congruence].
    + constructor; [by apply G | done].
Qed.

Lemma insert_quests_done st week l w r w' :
  Forall (fun c => has_quest (wdb w) st week (c_Generator c) = true) l -> for_each (insert_quest st week) l w = (r, w') ->
  wdb w' = wdb w /\ wnow w' = wnow w /\ wclock w' = wclock w.
Proof.
  intros F. revert w F. induction l as [|c l IH]; intros w F H; cbn [for_each] in H; [by injection H as _ <-|].
  apply Forall_cons in F as [Fc F]. unfold mbind, tx_bind in H. destruct (insert_quest st week c w) as [[u|e] w1] eqn:E1.
  - destruct (insert_quest_done _ _ _ _ _ _ Fc E1) as (D & T & K). rewrite <- D in F.
    destruct (IH _ F H) as (D2 & T2 & K2). split_and!; congruence.
  - injection H as _ <-. by eapply insert_quest_done.
Qed.

(** ** The clean streak *)

Lemma pay_once_done st u key xp w :
  (st, u, key) ∈ db_achievements (wdb w) -> pay_once st u key xp w = (Ok tt, w).
Proof.
  intros Hin. unfold pay_once, achievementNewlyUnlocked, mbind, tx_bind, get_db, require, modify, mret, tx_ret.
  rewrite bool_decide_eq_true_2 by done. cbn. do 2 f_equal. destruct w as [[] ids n c]. cbn in *.
  unfold set_achievements, with_db. cbn. do 2 f_equal. set_solver.
Qed.

(** A member's cached XP. *)
Definition xp_of (d : DB) (st u : uuid) : Z := up_XP (UserProgressInStorage d st u).

(** What the column holds. *)
Definition xp_typed (d : DB) : Prop := forall k row, db_progress d !! k = Some row -> int4_ok (up_XP row) = true.

Lemma bumpProgress_ok st u xp t w x w' :
  xp_typed (wdb w) -> is_int64 (xp + 2 ^ 32) -> is_int64 (xp - 2 ^ 32) ->
  bumpProgress st u xp t w = (Ok x, w') ->
  wnow w' = wnow w /\ wclock w' = wclock w /\ xp_typed (wdb w') /\
  db_achievements (wdb w') = db_achievements (wdb w) /\ db_gsettings (wdb w') = db_gsettings (wdb w) /\
  db_quests (wdb w') = db_quests (wdb w) /\
  forall st' u', xp_of (wdb w') st' u' = xp_of (wdb w) st' u' + (if bool_decide ((st', u') = (st, u)) then xp else 0).
Proof.
  intros T X1 X2 H. unfold bumpProgress in H. tx_next H for d by get_db_ok as [-> ->].
  apply bind_ok in H as (x1 & w1 & H1 & H). tx_next H for d by get_db_ok as [-> ->].
  tx_next H for row by some_or_ok as [Hr ->]. tx_next H by require_ok as [Hi ->]. apply modify_ok in H as ->.
  assert (D : up_XP row = xp_of (wdb w) st u /\ int4_ok (up_XP row) = true /\ wnow w1 = wnow w /\ wclock w1 = wclock w /\
    exists m, wdb w1 = set_progress (fun _ => m) (wdb w) /\ forall k, k ≠ (st, u) -> m !! k = db_progress (wdb w) !! k).
  { unfold xp_of, UserProgressInStorage. destruct (db_progress (wdb w) !! (st, u)) as [r0|] eqn:E.
    - tx_inv1 H1. subst. rewrite E in Hr. injection Hr as ->. cbn. split; [done|]. split; [by eapply T|]. do 2 (split; [done|]).
      exists (db_progress (wdb w1)). split; [by destruct (wdb w1) | done].
    - tx_next H1 by require_ok as [_ ->]. apply modify_ok in H1 as ->. cbn in *. rewrite lookup_insert_eq in Hr.
      injection Hr as <-. cbn. do 4 (split; [done|]). eexists. split; [reflexivity|]. intros k Hne. by rewrite lookup_insert_ne. }
  destruct D as (Er & Ti & E1 & E2 & m & Em & Hm). rewrite Em. cbn. do 2 (split; [done|]). split.
  { intros k r. cbn. rewrite lookup_insert. case_decide as Hk; [intros [= <-]; exact Hi|].
    intros Hk'. rewrite Hm in Hk' by congruence. by eapply T. }
  do 3 (split; [done|]). intros st' u'. unfold xp_of, UserProgressInStorage. cbn.
  case_bool_decide as Hk.
  - injection Hk as -> ->. rewrite lookup_insert_eq. cbn. rewrite wrap64_id.
    + rewrite Er. done.
    + unfold int4_ok in Ti. bool_to_prop. unfold is_int64 in *. lia.
  - rewrite lookup_insert_ne, Hm by congruence. lia.
Qed.

(** From [w] to [w'] the members earned [due], the keys [ks] were added, and nothing
    but their rows changed. *)
Definition pays (st : uuid) (due : uuid -> Z) (ks : gset (uuid * uuid * string)) (w w' : World) : Prop :=
  wnow w' = wnow w /\ wclock w' = wclock w /\ xp_typed (wdb w') /\
  db_gsettings (wdb w') = db_gsettings (wdb w) /\ db_achievements (wdb w') = db_achievements (wdb w) ∪ ks /\
  forall st' u', xp_of (wdb w') st' u' = xp_of (wdb w) st' u' + (if st' =? st then due u' else 0).

Lemma pays_refl st w : xp_typed (wdb w) -> pays st (fun _ => 0) ∅ w w.
Proof. intros T. unfold pays. split_and!; try done; [set_solver|]. intros st' u'. destruct (st' =? st); lia. Qed.

Lemma pays_trans st due1 due2 k1 k2 w1 w2 w3 :
  pays st due1 k1 w1 w2 -> pays st due2 k2 w2 w3 -> pays st (fun u => due1 u + due2 u) (k1 ∪ k2) w1 w3.
Proof.
  intros (A1 & A2 & A3 & A4 & A5 & A6) (B1 & B2 & B3 & B4 & B5 & B6). unfold pays.
  split_and!; try congruence; [exact B3 | rewrite B5, A5; set_solver|].
  intros st' u'. rewrite B6, A6. destruct (st' =? st); lia.
Qed.

Lemma pays_ext st due due' ks ks' w w' :
  (forall u, due u = due' u) -> ks = ks' -> pays st due ks w w' -> pays st due' ks' w w'.
Proof.
  intros E -> (A1 & A2 & A3 & A4 & A5 & A6). unfold pays. split_and!; try done. intros st' u'. by rewrite A6, E.
Qed.

(** What a member is due for a key: its XP, unless it is on record. *)
Definition due_for (d : DB) (st : uuid) (key : string) (xp : Z) (u : uuid) : Z :=
  if bool_decide ((st, u, key) ∈ db_achievements d) then 0 else xp.

Definition small_xp (xp : Z) : Prop := 0 <= xp <= 3000.

Lemma pay_once_ok st u key xp w x w' :
  xp_typed (wdb w) -> small_xp xp -> pay_once st u key xp w = (Ok x, w') ->
  pays st (fun v => if v =? u then due_for (wdb w) st key xp u else 0) {[(st, u, key)]} w w'.
Proof.
  intros T X H. unfold pay_once, achievementNewlyUnlocked in H. apply bind_ok in H as (ins & w1 & H1 & H).
  tx_next H1 for d by get_db_ok as [-> ->]. tx_next H1 by require_ok as [_ ->]. tx_next H1 by modify_ok as ->.
  tx_inv1 H1. subst. unfold due_for. case_bool_decide as Hin; cbn in H.
  - tx_inv1 H. subst. unfold pays. cbn. split_and!; try done; [set_solver|].
    intros st' u'. unfold xp_of, UserProgressInStorage. cbn. destruct (st' =? st), (u' =? u); lia.
  - tx_next H for clock by time_Now_ok as [-> ->]. apply bumpProgress_ok in H as (A1 & A2 & A3 & A4 & A5 & _ & A6);
      [|exact T|unfold is_int64, small_xp in *; lia..].
    unfold pays. cbn in *. split_and!; try done; [rewrite A4; set_solver|].
    intros st' u'. rewrite A6. unfold xp_of, UserProgressInStorage. cbn.
    destruct (Z.eqb_spec st' st), (Z.eqb_spec u' u); case_bool_decide; naive_solver lia.
Qed.

Lemma due_for_mono d d' st key xp u ks :
  db_achievements d' = db_achievements d ∪ ks -> (st, u, key) ∉ ks -> due_for d' st key xp u = due_for d st key xp u.
Proof. intros E Hn. unfold due_for. rewrite E. do 2 case_bool_decide; set_solver. Qed.

Definition key_set (st : uuid) (members : list uuid) (key : string) : gset (uuid * uuid * string) :=
  list_to_set (map (fun u => (st, u, key)) members).

Lemma elem_of_key_set st members key u k : (st, u, k) ∈ key_set st members key <-> k = key /\ u ∈ members.
Proof.
  unfold key_set. rewrite elem_of_list_to_set, list_elem_of_fmap. split; [intros (v & [= -> ->] & H); auto | intros [-> H]; eauto].
Qed.

Lemma pay_members_ok st key xp members w x w' :
  xp_typed (wdb w) -> small_xp xp -> NoDup members ->
  for_each (fun u => pay_once st u key xp) members w = (Ok x, w') ->
  pays st (fun u => if bool_decide (u ∈ members) then due_for (wdb w) st key xp u else 0) (key_set st members key) w w'.
Proof.
  intros T X N. revert w T. induction N as [|u members Hu N IH]; intros w T H; cbn [for_each] in H.
  { tx_inv1 H. subst. apply (pays_ext st (fun _ => 0) _ ∅); [|done|by apply pays_refl].
    intros u. by rewrite bool_decide_eq_false_2 by apply not_elem_of_nil. }
  apply bind_ok in H as (x1 & w1 & H1 & H). apply pay_once_ok in H1 as P1; [|done..].
  pose proof P1 as (_ & _ & T1 & _ & A1 & _). apply (IH _ T1) in H.
  eapply pays_ext; [| |eapply pays_trans; [exact P1 | exact H]].
  - intros v. cbn beta. destruct (Z.eqb_spec v u) as [->|Hne].
    + rewrite (bool_decide_eq_false_2 (u ∈ members)), (bool_decide_eq_true_2 (u ∈ u :: members)) by (done || left). lia.
    + rewrite (due_for_mono _ _ _ _ _ _ _ A1) by (rewrite elem_of_singleton; congruence).
      do 2 case_bool_decide; try lia; set_solver.
  - unfold key_set. cbn. done.
Qed.

Lemma pay_milestones_ok st ms members w x w' :
  xp_typed (wdb w) -> Forall (fun m => small_xp (im_XP m)) ms -> NoDup (map (fun m => milestone_key (im_Key m)) ms) ->
  NoDup members -> pay_milestones st ms members w = (Ok x, w') ->
  pays st (fun u => if bool_decide (u ∈ members)
                    then lsum (fun m => due_for (wdb w) st (milestone_key (im_Key m)) (im_XP m) u) ms else 0)
    (union_list (map (fun m => key_set st members (milestone_key (im_Key m))) ms)) w w'.
Proof.
  unfold pay_milestones. intros T X N M. revert w T. induction ms as [|m ms IH]; intros w T H; cbn [for_each] in H.
  { tx_inv1 H. subst. apply (pays_ext st (fun _ => 0) _ ∅); [|done|by apply pays_refl].
    intros u. cbn. by case_bool_decide. }
  apply Forall_cons in X as [Xm X]. apply NoDup_cons in N as [Nm N].
  apply bind_ok in H as (x1 & w1 & H1 & H). apply pay_members_ok in H1 as P1; [|done..].
  pose proof P1 as (_ & _ & T1 & _ & A1 & _). apply (IH X N _ T1) in H.
  eapply pays_ext; [| |eapply pays_trans; [exact P1 | exact H]]; [|done].
  intros u. cbn. case_bool_decide; [|lia]. f_equal. apply lsum_ext_in. intros m' Hm'.
  apply (due_for_mono _ _ _ _ _ _ _ A1). rewrite elem_of_key_set. intros [E _].
  apply Nm. rewrite <- E. apply list_elem_of_fmap. by exists m'.
Qed.

(** ** Milestones *)

Lemma ImmaculateMilestones_small n : Forall (fun m => small_xp (im_XP m)) (ImmaculateMilestonesReached n).
Proof.
  unfold ImmaculateMilestonesReached. set (ext := map _ (seqZ _ _)).
  assert (F : Forall (fun m => small_xp (im_XP m)) (map (fun m : Z * string * Z => mkMilestone (FixedKey m.1.2) m.2)
                 (base.filter (fun m : Z * string * Z => m.1.1 <= n) immaculateFixed))).
  { apply Forall_map. apply Forall_forall. intros m Hm. apply list_elem_of_filter in Hm as [_ Hm].
    unfold immaculateFixed in Hm. unfold small_xp. repeat (apply elem_of_cons in Hm as [->|Hm]; [cbn; lia|]).
    by apply elem_of_nil in Hm. }
  destruct (n >? 730); [|exact F]. apply Forall_app. split; [exact F|]. apply Forall_map, Forall_forall.
  intros y _. unfold small_xp, immaculateYearXP. cbn. lia.
Qed.

Lemma year_key_inj y y' : milestone_key (YearKey y) = milestone_key (YearKey y') -> y = y'.
Proof. cbn. intros E. apply (inj pretty). by repeat (injection E as E). Qed.

Lemma ImmaculateMilestones_keys n : NoDup (map (fun m => milestone_key (im_Key m)) (ImmaculateMilestonesReached n)).
Proof.
  set (fixed := map (fun m : Z * string * Z => mkMilestone (FixedKey m.1.2) m.2)
                 (base.filter (fun m : Z * string * Z => m.1.1 <= n) immaculateFixed)).
  assert (E : map (fun m => milestone_key (im_Key m)) fixed = (base.filter (fun m : Z * string * Z => m.1.1 <= n) immaculateFixed).*1.*2).
  { unfold fixed. rewrite map_map. cbn. change map with (@fmap list _ ). by rewrite <- !list_fmap_compose. }
  assert (F : NoDup (map (fun m => milestone_key (im_Key m)) fixed)).
  { rewrite E. apply (sublist_NoDup _ immaculateFixed.*1.*2); [|by apply fmap_sublist, fmap_sublist, sublist_filter].
    apply (bool_decide_unpack _). vm_compute. exact I. }
  unfold ImmaculateMilestonesReached. fold fixed. clearbody fixed. destruct (n >? 730); [|exact F].
  rewrite map_app, (map_map (fun y => mkMilestone (YearKey y) immaculateYearXP)). apply NoDup_app. split; [exact F|]. split.
  - intros k Hk. rewrite E in Hk. intros (y & -> & _)%list_elem_of_fmap.
    apply list_elem_of_fmap in Hk as ([d k] & Ek & Hk). cbn in Ek. subst k.
    apply list_elem_of_fmap in Hk as (m & Em & Hm). apply list_elem_of_filter in Hm as [_ Hm]. destruct m as [[d' k'] x'].
    cbn in Em. injection Em as _ <-. unfold immaculateFixed in Hm.
    repeat (apply elem_of_cons in Hm as [Hm|Hm]; [discriminate Hm|]). by apply elem_of_nil in Hm.
  - apply (NoDup_fmap_2_strong (fun y => milestone_key (YearKey y))); [|apply NoDup_seqZ]. intros y y' _ _. apply year_key_inj.
Qed.

(** ** One week of the streak *)

Definition settings_of (d : DB) (st : uuid) : GSettings := default (mkGSettings false 20 None None) (db_gsettings d !! st).

(** What the row says after a week that was clear, or was not. *)
Definition streak_row (week : Z) (clear : bool) (g : GSettings) : GSettings :=
  if clear then match gs_CleanSince g with Some _ => g | None => set_clean_since (Some week) g end
  else set_clean_since None g.

Definition reached (week : Z) (clear : bool) (g : GSettings) : list ImmaculateMilestone :=
  match clear, gs_CleanSince g with
  | true, Some since => ImmaculateMilestonesReached (clean_days week since)
  | _, _ => []
  end.

Definition members_of (d : DB) (st : uuid) : list uuid :=
  (elements (base.filter (fun su : uuid * uuid => su.1 = st) (db_members d))).*2.

Lemma elem_of_members_of d st u : u ∈ members_of d st <-> (st, u) ∈ db_members d.
Proof.
  unfold members_of. rewrite list_elem_of_fmap. split.
  - intros ([s v] & -> & H). apply elem_of_elements, elem_of_filter in H as [Hs H]. cbn in *. by subst.
  - intros H. exists (st, u). split; [done|]. by apply elem_of_elements, elem_of_filter.
Qed.

Lemma NoDup_members_of d st : NoDup (members_of d st).
Proof.
  unfold members_of. apply NoDup_fmap_2_strong; [|apply NoDup_elements].
  intros [s1 u1] [s2 u2] H1 H2 E. cbn in E. apply elem_of_elements, elem_of_filter in H1 as [H1 _], H2 as [H2 _].
  cbn in *. congruence.
Qed.

Definition all_keys (st : uuid) (members : list uuid) (ms : list ImmaculateMilestone) : gset (uuid * uuid * string) :=
  union_list (map (fun m => key_set st members (milestone_key (im_Key m))) ms).

Lemma ensure_settings_ok st w u w' :
  ensure_settings st w = (Ok u, w') ->
  w' = with_db (set_gsettings <[st := settings_of (wdb w) st]> (wdb w)) w.
Proof.
  unfold ensure_settings, settings_of. intros H. tx_next H for d by get_db_ok as [-> ->].
  destruct (db_gsettings (wdb w) !! st) as [g|] eqn:E; cbn.
  - tx_inv1 H. subst. destruct w' as [[] ? ? ?]. cbn in *. unfold set_gsettings, with_db. cbn. by rewrite insert_id.
  - tx_next H by require_ok as [_ ->]. by apply modify_ok in H as ->.
Qed.

Lemma updateCleanStreak_ok st week clear w x w' :
  xp_typed (wdb w) -> updateCleanStreak st week clear w = (Ok x, w') ->
  let g := settings_of (wdb w) st in
  let members := members_of (wdb w) st in
  wnow w' = wnow w /\ wclock w' = wclock w /\ xp_typed (wdb w') /\
  db_gsettings (wdb w') = <[st := streak_row week clear g]> (db_gsettings (wdb w)) /\
  db_achievements (wdb w') = db_achievements (wdb w) ∪ all_keys st members (reached week clear g) /\
  forall st' u', xp_of (wdb w') st' u' = xp_of (wdb w) st' u' +
    (if (st' =? st) && bool_decide ((st, u') ∈ db_members (wdb w))
     then lsum (fun m => due_for (wdb w) st (milestone_key (im_Key m)) (im_XP m) u') (reached week clear g) else 0).
Proof.
  intros T H g members. unfold updateCleanStreak in H. apply bind_ok in H as (x1 & w1 & H1 & H).
  apply ensure_settings_ok in H1. fold g in H1. apply bind_ok in H as (row & w2 & H2 & H).
  unfold settings_row in H2. tx_next H2 for d by get_db_ok as [-> ->]. apply some_or_ok in H2 as [Hr ->].
  rewrite H1 in Hr. cbn in Hr. rewrite lookup_insert_eq in Hr. injection Hr as <-.
  assert (N : forall f w2, update_settings f st w1 = (Ok x, w2) -> w2 = with_db (set_gsettings <[st := f g]> (wdb w)) w).
  { intros f w2 E. apply modify_ok in E as ->. rewrite H1. cbn. unfold set_gsettings, with_db. cbn.
    by rewrite alter_insert_eq. }
  assert (Z0 : forall d, wdb w' = set_gsettings d (wdb w) -> reached week clear g = [] -> xp_typed (wdb w') /\
    db_achievements (wdb w') = db_achievements (wdb w) ∪ all_keys st members (reached week clear g) /\
    forall st' u', xp_of (wdb w') st' u' = xp_of (wdb w) st' u' +
    (if (st' =? st) && bool_decide ((st, u') ∈ db_members (wdb w))
     then lsum (fun m => due_for (wdb w) st (milestone_key (im_Key m)) (im_XP m) u') (reached week clear g) else 0)).
  { intros f -> ->. split; [exact T|]. split; [cbn; set_solver|]. intros st' u'. destruct (_ && _); cbn; by rewrite Z.add_0_r. }
  unfold streak_row. destruct clear; cbn [negb] in H.
  - destruct (gs_CleanSince g) as [since|] eqn:Es.
    + destruct (ImmaculateMilestonesReached (clean_days week since)) as [|m ms] eqn:Em.
      * tx_inv1 H. subst w1. subst w'. cbn. do 2 (split; [done|]).
        destruct (Z0 <[st := g]>) as (Z1 & Z2 & Z3); [done | by unfold reached; rewrite Es |]. by split_and!.
      * apply bind_ok in H as (ms' & w3 & H3 & H). unfold storageMemberIDs in H3.
        tx_next H3 for d by get_db_ok as [-> ->]. tx_inv1 H3. subst. rewrite <- Em in H.
        change (elements _).*2 with members in H. apply pay_milestones_ok in H as (A1 & A2 & A3 & A4 & A5 & A6);
          [|exact T|apply ImmaculateMilestones_small|apply ImmaculateMilestones_keys|apply NoDup_members_of].
        assert (Er : reached week true g = ImmaculateMilestonesReached (clean_days week since)) by (unfold reached; by rewrite Es).
        rewrite Er. do 2 (split; [done|]). split; [exact A3|]. split; [exact A4|]. split; [exact A5|].
        intros st' u'. rewrite A6. unfold xp_of, UserProgressInStorage. cbn.
        destruct (st' =? st); [|done]. cbn. assert (Hm : u' ∈ members <-> (st, u') ∈ db_members (wdb w)) by apply elem_of_members_of.
        by do 2 case_bool_decide; try tauto.
    + apply N in H as ->. cbn. do 2 (split; [done|]).
      destruct (Z0 <[st := set_clean_since (Some week) g]>) as (Z1 & Z2 & Z3); [done | by unfold reached; rewrite Es |]. by split_and!.
  - assert (E : w' = with_db (set_gsettings <[st := set_clean_since None g]> (wdb w)) w).
    { destruct (gs_CleanSince g) eqn:Es; [by apply N in H|]. tx_inv1 H. subst w'. rewrite H1. do 2 f_equal.
      destruct g. cbn in Es. by subst. }
    rewrite E in *. cbn. do 2 (split; [done|]).
    destruct (Z0 <[st := set_clean_since None g]>) as (Z1 & Z2 & Z3); [done | done |]. by split_and!.
Qed.

Lemma clean_days_same week : clean_days week week = 0.
Proof.
  unfold clean_days, time_Sub. rewrite Z.sub_diag. vm_compute. reflexivity.
Qed.

Lemma pay_members_done st key xp members w :
  (forall u, u ∈ members -> (st, u, key) ∈ db_achievements (wdb w)) ->
  for_each (fun u => pay_once st u key xp) members w = (Ok tt, w).
Proof.
  induction members as [|u members IH]; intros H; [done|]. cbn [for_each].
  rewrite (bind_step _ _ w tt w); [apply IH; intros v Hv; apply H; by right|]. apply pay_once_done, H. left.
Qed.

Lemma pay_milestones_done st ms members w :
  all_keys st members ms ⊆ db_achievements (wdb w) -> pay_milestones st ms members w = (Ok tt, w).
Proof.
  unfold pay_milestones, all_keys. induction ms as [|m ms IH]; intros H; [done|]. cbn [for_each map union_list foldr] in *.
  rewrite (bind_step _ _ w tt w); [apply IH; set_solver|]. apply pay_members_done. intros u Hu. apply H.
  apply elem_of_union_l. by apply elem_of_key_set.
Qed.

Lemma ensure_settings_done st w g : db_gsettings (wdb w) !! st = Some g -> ensure_settings st w = (Ok tt, w).
Proof. intros E. unfold ensure_settings. rewrite (bind_step _ get_db w _ _ eq_refl), E. done. Qed.

(** The same week again changes nothing. *)
Lemma updateCleanStreak_again st week clear w x w' v :
  xp_typed (wdb w) -> updateCleanStreak st week clear w = (Ok x, w') -> wdb v = wdb w' ->
  updateCleanStreak st week clear v = (Ok tt, v).
Proof.
  intros T H E. pose proof (frames_updateCleanStreak _ _ _ _ _ _ H) as F. apply members_rest in F.
  apply updateCleanStreak_ok in H as (_ & _ & _ & G & A & _); [|done].
  unfold updateCleanStreak. rewrite (bind_step _ _ v tt v).
  2: { eapply ensure_settings_done. rewrite E, G. apply lookup_insert_eq. }
  rewrite (bind_step _ _ v (streak_row week clear (settings_of (wdb w) st)) v).
  2: { unfold settings_row. rewrite (bind_step _ get_db v _ _ eq_refl), E, G, lookup_insert_eq. done. }
  destruct clear; cbn; [|done]. destruct (gs_CleanSince (settings_of (wdb w) st)) as [since|] eqn:Es; cbn; rewrite ?Es.
  - unfold reached in A. rewrite Es in A. destruct (ImmaculateMilestonesReached _) as [|m ms] eqn:Em; [done|].
    rewrite (bind_step _ (storageMemberIDs st) v (members_of (wdb v) st) v eq_refl). apply (pay_milestones_done st (m :: ms)).
    unfold members_of at 1. rewrite E, F, A. apply union_subseteq_r.
  - rewrite clean_days_same. done.
Qed.

(** The quests a generation adds are of its week. *)
Lemma GenerateWeeklyQuests_rows st t w x w' :
  GenerateWeeklyQuests st t w = (Ok x, w') ->
  forall i q, db_quests (wdb w') !! i = Some q -> db_quests (wdb w) !! i = Some q \/ q_WeekStart q = mondayOf t.
Proof.
  intros H i q Hi. unfold GenerateWeeklyQuests in H. tx_inv1 H. apply bind_ok in H as (cs & w0 & H0 & H).
  unfold gatherQuestCandidates in H0. tx_next H0 for d by get_db_ok as [-> ->]. tx_next H0 for n by now_ok as [-> ->].
  tx_next H0 for k by time_Now_ok as [-> ->]. tx_inv1 H0. subst cs w0. cbv zeta in H.
  apply bind_ok in H as (x1 & w1 & H1 & H). apply frames_streak_quests in H. rewrite H in Hi.
  apply insert_quests_ok in H1 as (_ & _ & S1 & N1 & _). destruct (db_quests (wdb w) !! i) as [q0|] eqn:E.
  - left. eapply lookup_weaken in S1; [|exact E]. congruence.
  - right. by destruct (N1 i q Hi E) as (c & _ & ->).
Qed.

(** ** What holds of every week *)

(** A week that was not clear ends the storage's clean streak; a clear one starts it
    or keeps it, and then every member of the storage is paid, for each milestone the
    streak has reached, its XP, unless the milestone is on that member's record; after
    that it is on record.  Nobody else's XP changes, and the same week again changes
    nothing, so no milestone is ever paid twice to the same member. *)
Theorem updateCleanStreak_spec st week clear w x w' :
  xp_typed (wdb w) -> updateCleanStreak st week clear w = (Ok x, w') ->
  let g := settings_of (wdb w) st in
  db_gsettings (wdb w') = <[st := streak_row week clear g]> (db_gsettings (wdb w)) /\
  (forall st' u, xp_of (wdb w') st' u = xp_of (wdb w) st' u +
    (if (st' =? st) && bool_decide ((st, u) ∈ db_members (wdb w))
     then lsum (fun m => due_for (wdb w) st (milestone_key (im_Key m)) (im_XP m) u) (reached week clear g) else 0)) /\
  (forall u m, (st, u) ∈ db_members (wdb w) -> m ∈ reached week clear g ->
     (st, u, milestone_key (im_Key m)) ∈ db_achievements (wdb w')) /\
  db_achievements (wdb w) ⊆ db_achievements (wdb w') /\ weekly_rest (wdb w') = weekly_rest (wdb w) /\
  forall v, wdb v = wdb w' -> updateCleanStreak st week clear v = (Ok tt, v).
Proof.
  intros T H g. pose proof (frames_updateCleanStreak _ _ _ _ _ _ H) as F.
  pose proof (fun v => updateCleanStreak_again _ _ _ _ _ _ v T H) as A.
  apply updateCleanStreak_ok in H as (_ & _ & _ & G & K & X); [|done].
  split; [exact G|]. split; [exact X|]. split; [|split; [rewrite K; set_solver | by split]].
  intros u m Hu Hm. rewrite K. apply elem_of_union_r, elem_of_union_list.
  exists (key_set st (members_of (wdb w) st) (milestone_key (im_Key m))). split.
  - apply list_elem_of_fmap. by exists m.
  - apply elem_of_key_set. split; [done|]. by apply elem_of_members_of.
Qed.

Definition settings_and_xp (d : DB) := (db_gsettings d, db_progress d).

Lemma frames_insert_settings st week c : frames settings_and_xp (insert_quest st week c).
Proof. unfold insert_quest. frame_walk. Qed.

Lemma sort_by_need_perm {P} (l : list (Candidate P)) : sort_by_need l ≡ₚ l.
Proof. induction l as [|c l IH]; [done|]. cbn [sort_by_need foldr]. by rewrite insert_by_need_perm, IH. Qed.

Lemma SelectQuests_fired {P} (l : list (Candidate P)) c : c ∈ SelectQuests l -> c_Fires c = true.
Proof.
  unfold SelectQuests. intros H. apply (list_elem_of_filter (fun c => c_Fires c = true) l). rewrite <- sort_by_need_perm.
  destruct (_ <? _)%nat; [|done]. apply list_elem_of_lookup in H as [i H]. apply lookup_take_Some in H as [H _].
  by apply list_elem_of_lookup_2 in H.
Qed.

(** C33: Generating a storage's week keeps every quest on record, adds at most three,
    each the quest of a candidate that was picked and none for a generator the week has,
    so that every picked generator has exactly one quest of the week; it touches quests,
    settings, achievements and XP only, and generating the week again at the same moment
    changes nothing. *)
Theorem GenerateWeeklyQuests_spec st t w x w' :
  xp_typed (wdb w) -> unique_quests (db_quests (wdb w)) -> GenerateWeeklyQuests st t w = (Ok x, w') ->
  let week := mondayOf t in
  let picked := SelectQuests (candidates_of (wdb w) (wnow w) (wclock w) st) in
  (Datatypes.length picked <= 3)%nat /\
  db_quests (wdb w) ⊆ db_quests (wdb w') /\
  (forall i q, db_quests (wdb w') !! i = Some q -> db_quests (wdb w) !! i = None ->
     exists c, c ∈ picked /\ c_Fires c = true /\ q = candidate_quest st week c) /\
  (forall c, c ∈ picked -> exists i q, db_quests (wdb w') !! i = Some q /\
     q_StorageID q = st /\ q_WeekStart q = week /\ q_Generator q = c_Generator c) /\
  unique_quests (db_quests (wdb w')) /\
  gs_CleanSince (settings_of (wdb w') st) =
    (if decide (picked = []) then Some (default week (gs_CleanSince (settings_of (wdb w) st))) else None) /\
  weekly_rest (wdb w') = weekly_rest (wdb w) /\
  (forall v r v', wdb v = wdb w' -> wnow v = wnow w -> wclock v = wclock w ->
     GenerateWeeklyQuests st t v = (r, v') -> wdb v' = wdb w').
Proof.
  intros T U H week picked. unfold GenerateWeeklyQuests in H. tx_inv1 H. apply bind_ok in H as (cs & w0 & H0 & H).
  unfold gatherQuestCandidates in H0. tx_next H0 for d by get_db_ok as [-> ->]. tx_next H0 for n by now_ok as [-> ->].
  tx_next H0 for k by time_Now_ok as [-> ->]. tx_inv1 H0. subst cs w0. cbv zeta in H. fold week picked in H.
  apply bind_ok in H as (x1 & w1 & H1 & H).
  pose proof (frames_for_each weekly_rest _ picked (frames_insert_quest st week) _ _ _ H1) as F1.
  pose proof (frames_for_each settings_and_xp _ picked (frames_insert_settings st week) _ _ _ H1) as E1.
  injection E1 as Eg Ep. apply insert_quests_ok in H1 as (T1 & K1 & S1 & N1 & U1 & _ & P1).
  assert (Tw1 : xp_typed (wdb w1)) by (unfold xp_typed; by rewrite Ep).
  pose proof (frames_updateCleanStreak _ _ _ _ _ _ H) as F2. pose proof (frames_streak_quests _ _ _ _ _ _ H) as Q2.
  pose proof (fun v => updateCleanStreak_again _ _ _ _ _ _ v Tw1 H) as A2.
  apply updateCleanStreak_ok in H as (T2 & K2 & _ & G2 & _); [|done]. rewrite Q2.
  assert (L : (Datatypes.length picked <= 3)%nat).
  { unfold picked, SelectQuests. destruct (Nat.ltb_spec 3 (Datatypes.length (sort_by_need (base.filter (fun c => c_Fires c = true)
      (candidates_of (wdb w) (wnow w) (wclock w) st))))); [rewrite length_take; lia | lia]. }
  split; [exact L|]. split; [exact S1|]. split.
  { intros i q Hi Hn. destruct (N1 i q Hi Hn) as (c & Hc & ->). exists c. split; [done|]. split; [by eapply SelectQuests_fired|done]. }
  split.
  { intros c Hc. rewrite Forall_forall in P1. apply (P1 c), has_quest_true in Hc as (i & q & Hi & Hq). eauto. }
  split; [by apply U1|]. split.
  { unfold settings_of at 1. rewrite G2, lookup_insert_eq. cbn. unfold settings_of. rewrite Eg. destruct picked as [|c l]; cbn.
    - rewrite decide_True by done. by destruct (gs_CleanSince (default _ _)) eqn:Ec; cbn; rewrite ?Ec.
    - by rewrite decide_False. }
  split; [by rewrite F2, F1|].
  intros v r v' Ev Tv Kv Hv. unfold GenerateWeeklyQuests, inTx in Hv.
  rewrite (bind_step _ (gatherQuestCandidates st) v (candidates_of (wdb w) (wnow w) (wclock w) st) v) in Hv.
  2: { unfold gatherQuestCandidates, mbind, tx_bind, get_db, now, time_Now, mret, tx_ret. do 2 f_equal. rewrite Tv, Kv.
       apply candidates_rest. by rewrite Ev, F2, F1. }
  cbv zeta in Hv. fold week picked in Hv. unfold mbind, tx_bind in Hv.
  destruct (for_each (insert_quest st week) picked v) as [r2 v2] eqn:E2.
  apply insert_quests_done in E2 as (D2 & _).
  2: { apply (Forall_impl _ _ _ P1). intros c. rewrite !has_quest_true. by rewrite Ev, Q2. }
  destruct r2 as [[]|e]; [|injection Hv as _ <-; by cbn; rewrite Ev].
  rewrite A2 in Hv by congruence. injection Hv as _ <-. congruence.
Qed.

(** ** What a quest counts *)

(** A row counted in one table was counted in the other. *)
Lemma countMatching_le {V} (m m' : gmap uuid V) ids f :
  (forall id row', id ∈ ids -> m' !! id = Some row' -> f row' = true -> exists row, m !! id = Some row /\ f row = true) ->
  countMatching m' ids f <= countMatching m ids f.
Proof.
  intros H. unfold countMatching. apply inj_le. rewrite <- !(size_dom (D := gset uuid)). apply subseteq_size.
  intros id. rewrite !elem_of_dom. intros [row' Hr]. apply map_lookup_filter_Some in Hr as [Hr [Hi Hf]].
  destruct (H id row' Hi Hr Hf) as (row & Hm & Hf'). exists row. by apply map_lookup_filter_Some.
Qed.

Lemma countMatching_none {V} (m : gmap uuid V) ids f :
  (forall id row, id ∈ ids -> m !! id = Some row -> f row = false) -> countMatching m ids f = 0.
Proof.
  intros H. unfold countMatching. apply (Nat2Z.inj_iff _ 0), map_size_empty_iff, map_empty. intros id.
  apply map_lookup_filter_None. right. intros row Hr [Hi Hf]. cbn in *. rewrite (H id row Hi Hr) in Hf. done.
Qed.

(** A batch whose date is no longer in the days a quest was drawn from. *)
Definition date_out (today : Z) (b : Batch) : bool :=
  match b_ExpirationDate b with Some e => (e <? today) || (e >=? today + 3) | None => false end.

Lemma progress_expiring d nowT st q :
  q_Generator q = GeneratorExpiringSoon ->
  questProgress d nowT st q =
  countMatching (db_batches d) (param_ids (q_Params q)) (fun b => (b_Quantity b <=? 0) || date_out (nowT / day) b).
Proof. intros E. unfold questProgress. rewrite E. reflexivity. Qed.

Lemma progress_missing d nowT st q :
  q_Generator q = GeneratorMissingExpiry ->
  questProgress d nowT st q =
  countMatching (db_batches d) (param_ids (q_Params q)) (fun b => bool_decide (is_Some (b_ExpirationDate b))).
Proof. intros E. unfold questProgress. rewrite E. reflexivity. Qed.

(** What a quest over products counts. *)
Definition product_done (g : string) (p : Product) : bool :=
  if String.eqb g GeneratorUncategorized then bool_decide (is_Some (prod_CategoryID p))
  else if String.eqb g GeneratorImageless then bool_decide (is_Some (prod_ImageURL p)) || bool_decide (is_Some (prod_IconName p))
  else prod_MinStock p >? 0.

Lemma progress_products d nowT st q :
  q_Generator q ∈ [GeneratorUncategorized; GeneratorImageless; GeneratorUntrackedReorder] ->
  questProgress d nowT st q = countMatching (db_products d) (param_ids (q_Params q)) (product_done (q_Generator q)).
Proof.
  intros E. unfold questProgress. repeat (apply elem_of_cons in E as [->|E]; [reflexivity|]). by apply elem_of_nil in E.
Qed.

(** ** Fresh quests *)

Lemma take_elem {A} (x : A) n l : x ∈ take n l -> x ∈ l.
Proof. intros (i & H & _)%elem_of_take. by apply list_elem_of_lookup_2 in H. Qed.

(** A candidate over a list of ids is drawn from that list. *)
Lemma idListCandidate_ids g n ids c :
  idListCandidate g n ids = c -> c_Fires c = true ->
  c_Generator c = g /\ c_TargetCount c = Z.of_nat n /\ c_Params c = IdList (take n ids) /\ Datatypes.length (take n ids) = n.
Proof.
  unfold idListCandidate. destruct (Nat.ltb_spec (Datatypes.length ids) n) as [|Hn]; intros <-; [done|]. intros _. cbn.
  rewrite length_take, Nat.min_l by lia. done.
Qed.

Lemma elem_of_product_ids d st f id :
  id ∈ product_ids d st f <-> exists p, db_products d !! id = Some p /\ prod_StorageID p = st /\ f p = true.
Proof.
  unfold product_ids. rewrite list_elem_of_fmap. split.
  - intros ([i p] & -> & H). apply elem_of_order_by_id, map_lookup_filter_Some in H as [H [H1 H2]]. by exists p.
  - intros (p & H & H1 & H2). exists (id, p). split; [done|]. by apply elem_of_order_by_id, map_lookup_filter_Some.
Qed.

Lemma elem_of_batch_rows d st f id b :
  (id, b) ∈ batch_rows d st f -> db_batches d !! id = Some b /\ exists p, db_products d !! b_ProductID b = Some p /\ f p b = true.
Proof.
  unfold batch_rows. intros H. apply elem_of_order_by_id, map_lookup_filter_Some in H as [H E]. split; [done|]. cbn in E.
  destruct (db_products d !! b_ProductID b) as [p|]; [|done]. apply andb_true_iff in E as [_ E]. eauto.
Qed.

(** A quest over a list of things (missing dates, categories, pictures, thresholds,
    items expiring soon) asks for as many things as it lists, lists each once, and none
    of them counts as done when it is made. *)
Theorem fresh_quest_starts_at_zero d nowT clock st week c ids :
  c ∈ candidates_of d nowT clock st -> c_Fires c = true -> c_Params c = IdList ids ->
  NoDup ids /\ c_TargetCount c = Z.of_nat (Datatypes.length ids) /\ 0 < c_TargetCount c /\
  questProgress d nowT st (candidate_quest st week c) = 0.
Proof.
  intros Hc Hf Hp.
  assert (X : exists g n l, c = idListCandidate g n l /\ NoDup l /\ (0 < n)%nat /\
    (forall k q, q_Generator q = g -> q_Params q = IdList (take k l) -> questProgress d nowT st q = 0)).
  { unfold candidates_of in Hc.
    apply elem_of_cons in Hc as [->|Hc].
    { exfalso. unfold staleLocationCandidate in *. destruct (stale_locations d nowT st) as [|[[? ?] ?] ?]; discriminate. }
    apply elem_of_cons in Hc as [->|Hc].
    { eexists _, _, _. split; [reflexivity|]. split; [apply NoDup_order_by_id|]. split; [unfold missingExpiryThreshold; lia|].
      intros k q E1 E2. rewrite progress_missing by done. apply countMatching_none. rewrite E2. cbn [param_ids].
      intros id b Hi Hb. apply take_elem, list_elem_of_fmap in Hi as ([i b'] & -> & Hi). cbn in Hb.
      apply elem_of_batch_rows in Hi as (Hb' & p & _ & Hfp). rewrite Hb in Hb'. injection Hb' as <-.
      rewrite !andb_true_iff in Hfp. destruct Hfp as [[_ Hfp] _]. by destruct (b_ExpirationDate b). }
    do 3 (apply elem_of_cons in Hc as [->|Hc];
      [eexists _, _, _; split; [reflexivity|]; split; [apply NoDup_order_by_id|]; split; [vm_compute; lia|];
       intros k q E1 E2; rewrite progress_products by (rewrite E1; set_solver); apply countMatching_none; rewrite E1, E2;
       cbn [param_ids]; intros id p Hi Hp'; apply take_elem, elem_of_product_ids in Hi as (p' & Hp2 & _ & Hfp);
       rewrite Hp' in Hp2; injection Hp2 as <-; unfold product_done; cbn;
       unfold is_nil in Hfp; destruct p; cbn in *; repeat case_match; naive_solver lia|]).
    apply elem_of_cons in Hc as [->|Hc].
    { eexists _, _, _. split; [reflexivity|]. split.
      { unfold expiring_soon_ids. rewrite (merge_sort_Permutation earlier_date). apply NoDup_order_by_id. }
      split; [unfold expiringSoonThreshold; lia|].
      intros k q E1 E2. rewrite progress_expiring by done. apply countMatching_none. rewrite E2. cbn [param_ids].
      intros id b Hi Hb. apply take_elem, list_elem_of_fmap in Hi as ([i b'] & -> & Hi). cbn in Hb.
      rewrite (merge_sort_Permutation earlier_date) in Hi. apply elem_of_batch_rows in Hi as (Hb' & p & _ & Hfp).
      rewrite Hb in Hb'. injection Hb' as <-. unfold expires_soon, date_out in *. destruct (b_ExpirationDate b); bool_to_prop; lia. }
    apply elem_of_cons in Hc as [->|Hc].
    { exfalso. unfold consumptionHygieneCandidate in *. repeat case_match; discriminate. }
    apply elem_of_cons in Hc as [->|Hc]; [|by apply elem_of_nil in Hc].
    exfalso. unfold firstMileCandidate in *. case_match; discriminate. }
  destruct X as (g & n & l & -> & Nl & Hn & Hq). pose proof (idListCandidate_ids g n l _ eq_refl Hf) as (E1 & E2 & E3 & E4).
  rewrite E3 in Hp. injection Hp as <-. rewrite E2, E4. split; [by apply (sublist_NoDup _ l); [|apply sublist_take]|].
  split; [done|]. split; [lia|]. apply (Hq n); [exact E1 | exact E3].
Qed.

(** ** Using things up *)

(** One attempt to adjust a batch, whatever the batch, the amount, the reason and the
    outcome. *)
Definition adjusting (w w' : World) : Prop :=
  exists st id delta reason u r, AdjustBatch st id delta reason u w = (r, w').

Lemma adjusting_batches w w' :
  wf (wdb w) -> adjusting w w' ->
  wf (wdb w') /\ forall i b', db_batches (wdb w') !! i = Some b' ->
    exists b, db_batches (wdb w) !! i = Some b /\ b_ExpirationDate b' = b_ExpirationDate b.
Proof.
  intros W (st & id & delta & reason & u & r & H).
  assert (D : (exists x, r = Ok x) \/ wdb w' = wdb w).
  { destruct r as [x|e]; [left; by exists x | right]. unfold AdjustBatch in H.
    apply bind_fail in H as [H|(a & w1 & H1 & H)]; [by eapply reads_require in H; rewrite H|].
    apply require_ok in H1 as [_ ->]. apply bind_fail in H as [H|(a2 & w2 & H2 & H)]; [by eapply reads_require in H; rewrite H|].
    apply require_ok in H2 as [_ ->]. by apply inTx_fail in H. }
  destruct D as [[x ->] | ->]; [|split; [done | eauto]].
  split; [by eapply (AdjustBatch_good _ _ _ _ _ _ _ _ H)|]. unfold AdjustBatch in H.
  tx_next H by require_ok as [_ ->]. tx_next H by require_ok as [_ ->]. apply inTx_inv in H.
  apply bind_ok in H as (p & w1 & H1 & H). tx_inv1 H. subst.
  apply adjustBatch_rows in H1 as (b & logID & Hb & _ & _ & E & _); [|done]. apply batch_in_storage_some in Hb as [Hb _].
  intros i b' Hi. rewrite E in Hi. destruct (b_Quantity b + delta =? 0).
  - apply lookup_delete_Some in Hi as [_ Hi]. eauto.
  - rewrite lookup_insert in Hi. case_decide as Hd; [|eauto]. injection Hi as <-. exists b. by subst.
Qed.

(** A quest to use up what expires soon is not advanced by using it up: whatever is
    adjusted, by whomever and for whatever reason, its progress on the same day does not
    grow, because a batch that is used up is deleted and the quest counts rows. *)
Theorem expiring_soon_ignores_use nowT st q w w' :
  wf (wdb w) -> q_Generator q = GeneratorExpiringSoon -> rtc adjusting w w' ->
  questProgress (wdb w') nowT st q <= questProgress (wdb w) nowT st q.
Proof.
  intros W E R. assert (X : wf (wdb w') /\ forall i b', db_batches (wdb w') !! i = Some b' ->
    exists b, db_batches (wdb w) !! i = Some b /\ b_ExpirationDate b' = b_ExpirationDate b).
  { induction R as [w|w w1 w' S _ IH]; [split; [done | eauto]|]. destruct (adjusting_batches _ _ W S) as [W1 B1].
    destruct (IH W1) as [W2 B2]. split; [done|]. intros i b' Hi. destruct (B2 i b' Hi) as (b1 & Hb1 & ->). by apply B1. }
  destruct X as [[W' _] B]. rewrite !progress_expiring by done. apply countMatching_le. intros id b' _ Hb' Hf.
  destruct (B id b' Hb') as (b & Hb & Ed). exists b. split; [done|]. destruct (W' id b' Hb') as (p & l & _ & _ & _ & Hq & _).
  apply orb_true_iff in Hf as [Hf|Hf]; [bool_to_prop; lia|]. apply orb_true_iff. right. unfold date_out in *. by rewrite <- Ed.
Qed.

(** ** Concrete weeks *)

Lemma sample_typed : xp_typed (wdb sample_world).
Proof. intros k row H. cbn in H. by rewrite lookup_empty in H. Qed.

Lemma GenerateWeeklyQuests_spec_witness :
  exists w', GenerateWeeklyQuests 1 (5 * day) sample_world = (Ok tt, w') /\
    map q_Generator (map_to_list (db_quests (wdb w'))).*2 = [GeneratorConsumptionHygiene; GeneratorFirstMile] /\
    unique_quests (db_quests (wdb w')) /\
    forall r v', GenerateWeeklyQuests 1 (5 * day) w' = (r, v') -> wdb v' = wdb w'.
Proof.
  assert (V : (GenerateWeeklyQuests 1 (5 * day) sample_world).1 = Ok tt) by (vm_compute; reflexivity).
  assert (L : map q_Generator (map_to_list (db_quests (wdb (GenerateWeeklyQuests 1 (5 * day) sample_world).2))).*2 =
    [GeneratorConsumptionHygiene; GeneratorFirstMile]) by (vm_compute; reflexivity).
  assert (K : wnow (GenerateWeeklyQuests 1 (5 * day) sample_world).2 = wnow sample_world /\
    wclock (GenerateWeeklyQuests 1 (5 * day) sample_world).2 = wclock sample_world) by (vm_compute; split; reflexivity).
  destruct (GenerateWeeklyQuests 1 (5 * day) sample_world) as [r w'] eqn:E. cbn in V, L, K. subst r. exists w'. split; [done|].
  split; [exact L|].
  destruct (GenerateWeeklyQuests_spec 1 (5 * day) sample_world tt w' sample_typed) as (_ & _ & _ & _ & U & _ & _ & A);
    [intros i j x y Hi; cbn in Hi; by rewrite lookup_empty in Hi | exact E |].
  split; [exact U|]. intros r v' H. exact (A w' r v' eq_refl (proj1 K) (proj2 K) H).
Defined.

(** A household that has been clear for a hundred days. *)
Definition clean_world : World :=
  with_db (set_gsettings (fun _ => {[1 := mkGSettings false 20 (Some 4) None]}) (wdb sample_world)) sample_world.

Lemma updateCleanStreak_spec_witness :
  exists w', updateCleanStreak 1 102 true clean_world = (Ok tt, w') /\
    xp_of (wdb w') 1 10 = 200 /\ xp_of (wdb w') 1 11 = 200 /\ xp_of (wdb w') 1 12 = 0 /\
    updateCleanStreak 1 102 true w' = (Ok tt, w').
Proof.
  assert (V : (updateCleanStreak 1 102 true clean_world).1 = Ok tt) by (vm_compute; reflexivity).
  destruct (updateCleanStreak 1 102 true clean_world) as [r w'] eqn:E. cbn in V. subst r. exists w'. split; [done|].
  destruct (updateCleanStreak_spec 1 102 true clean_world tt w') as (_ & X & _ & _ & _ & A); [exact sample_typed | exact E |].
  split; [rewrite X; vm_compute; reflexivity|]. split; [rewrite X; vm_compute; reflexivity|].
  split; [rewrite X; vm_compute; reflexivity|]. by apply A.
Defined.

(** Five products without a picture. *)
Definition bare_db : DB :=
  set_products (fun _ => list_to_map (map (fun i => (i, beans)) [81; 82; 83; 84; 85; 86])) (wdb sample_world).

Lemma fresh_quest_starts_at_zero_witness :
  let c := idListCandidate GeneratorImageless imagelessThreshold (imageless_ids bare_db 1) in
  c_Params c = IdList [81; 82; 83; 84; 85] /\
  questProgress bare_db 0 1 (candidate_quest 1 4 c) = 0.
Proof.
  intros c. assert (P : c_Params c = IdList [81; 82; 83; 84; 85]) by (vm_compute; reflexivity). split; [exact P|].
  apply (fresh_quest_starts_at_zero bare_db 0 0 1 4 c [81; 82; 83; 84; 85]);
    [|vm_compute; reflexivity | exact P].
  unfold candidates_of. do 3 right. left.
Defined.

Definition use_up_quest : Quest := mkQuest 1 (-3) GeneratorExpiringSoon (IdList [40]) 1 30 None.

Lemma expiring_soon_ignores_use_witness :
  let w' := (AdjustBatch 1 40 (-3) ReasonConsumption (Some 10) sample_world).2 in
  db_batches (wdb w') !! 40 = None /\ questProgress (wdb w') 0 1 use_up_quest <= 0.
Proof.
  intros w'. split; [vm_compute; reflexivity|].
  replace 0 with (questProgress (wdb sample_world) 0 1 use_up_quest) at 2 by (vm_compute; reflexivity).
  apply expiring_soon_ignores_use; [exact (proj1 sample_consistent) | reflexivity |].
  apply rtc_once. exists 1, 40, (-3), ReasonConsumption, (Some 10), (AdjustBatch 1 40 (-3) ReasonConsumption (Some 10) sample_world).1.
  unfold w'. by destruct (AdjustBatch 1 40 (-3) ReasonConsumption (Some 10) sample_world).
Defined.
