(* ===== verification/Schedule.v ===== *)
(** * When the background jobs run: cmd/inventory/main.go

    The loops of main wait until the next Monday, the next three o'clock or the next
    full hour in the server's own zone and then call the store.  A zone is an offset
    that does not change (a [Time] carries it); daylight saving is not represented. *)

From S2P Require Import Prelude Gamification Text Expiry Db Sample Tree Progress Recompute Weekly WeeklySpec.

#[local] Open Scope string_scope.
#[local] Open Scope list_scope.
#[local] Open Scope Z_scope.

(** ** The next run *)

(** [time.Date(y, m, d, h, 0, 0, 0, now.Location())] on the day of [now]. *)
Definition DateAt (now : Time) (h : Z) : Time := mkTime (civil_day now * day + h * hour - t_zone now) (t_zone now).

(** [t.Weekday()], Sunday at 0. *)
Definition Weekday (t : Time) : Z := (civil_day t + 4) mod 7.
Definition Monday : Z := 1.

Definition After (a b : Time) : bool := t_unix b <? t_unix a.

(** The loop of nextMonday; [None] when the fuel runs out. *)
Fixpoint nextMonday_loop (fuel : nat) (now next : Time) : option Time :=
  match fuel with
  | O => None
  | S fuel' =>
    if negb (Weekday next =? Monday) || negb (After next now)
    then nextMonday_loop fuel' now (AddDays next 1)
    else Some next
  end.

(** Eight steps reach a Monday after any day. *)
Definition nextMonday (now : Time) : option Time := nextMonday_loop 8 now (DateAt now 0).

Definition gamificationRecomputeHour : Z := 3.

Definition nextGamificationRecompute (now : Time) : Time :=
  let next := DateAt now gamificationRecomputeHour in
  if negb (After next now) then AddDays next 1 else next.

(** [now.Hour()] *)
Definition Hour (t : Time) : Z := ((t_unix t + t_zone t) mod day) / hour.

Definition AddHours (t : Time) (n : Z) : Time := mkTime (t_unix t + n * hour) (t_zone t).

Fixpoint nextTopOfHour_loop (fuel : nat) (now next : Time) : option Time :=
  match fuel with
  | O => None
  | S fuel' => if negb (After next now) then nextTopOfHour_loop fuel' now (AddHours next 1) else Some next
  end.

(** Two steps: the full hour the clock is in, and the next. *)
Definition nextTopOfHour (now : Time) : option Time := nextTopOfHour_loop 2 now (DateAt now (Hour now)).

(** ** Days and weeks *)

Lemma hour_pos : 0 < hour.
Proof. reflexivity. Qed.

Lemma day_hours : day = 24 * hour.
Proof. reflexivity. Qed.

Lemma civil_midnight d z : civil_day (mkTime (d * day - z) z) = d.
Proof.
  unfold civil_day. cbn [t_unix t_zone]. replace (d * day - z + z) with (d * day) by lia.
  apply Z.div_mul. pose proof day_pos. lia.
Qed.

Lemma civil_bounds t : civil_day t * day <= t_unix t + t_zone t < (civil_day t + 1) * day.
Proof.
  unfold civil_day. pose proof (Z.div_mod (t_unix t + t_zone t) day) as E. pose proof (Z.mod_pos_bound (t_unix t + t_zone t) day day_pos).
  pose proof day_pos. nia.
Qed.

Lemma AddDays_midnight d z n : AddDays (mkTime (d * day - z) z) n = mkTime ((d + n) * day - z) z.
Proof. unfold AddDays. cbn [t_unix t_zone]. f_equal. lia. Qed.

(** Local midnight of a day, and whether the loop stops there. *)
Definition midnight (z d : Z) : Time := mkTime (d * day - z) z.
Definition stops (now : Time) (d : Z) : Prop := (d + 4) mod 7 = 1 /\ t_unix now < d * day - t_zone now.

Lemma nextMonday_loop_run fuel now d j :
  0 <= j < Z.of_nat fuel -> (forall k, 0 <= k < j -> ~ stops now (d + k)) -> stops now (d + j) ->
  nextMonday_loop fuel now (midnight (t_zone now) d) = Some (midnight (t_zone now) (d + j)).
Proof.
  revert d j. induction fuel as [|fuel IH]; intros d j Hj Hk Hs; [lia|]. cbn [nextMonday_loop].
  unfold Weekday, After, Monday, midnight at 1 2. rewrite civil_midnight. cbn [t_unix].
  destruct (decide (j = 0)) as [->|Hne].
  - rewrite Z.add_0_r in *. destruct Hs as [H1 H2]. rewrite H1, (proj2 (Z.ltb_lt _ _)) by lia. done.
  - assert (N : ~ stops now d) by (specialize (Hk 0); rewrite Z.add_0_r in Hk; apply Hk; lia).
    assert (E : negb ((d + 4) mod 7 =? 1) || negb (t_unix now <? d * day - t_zone now) = true).
    { destruct (Z.eqb_spec ((d + 4) mod 7) 1), (Z.ltb_spec (t_unix now) (d * day - t_zone now)); try done.
      by destruct N. }
    rewrite E. unfold midnight at 1. rewrite AddDays_midnight. fold (midnight (t_zone now) (d + 1)).
    rewrite (IH (d + 1) (j - 1)); [by replace (d + 1 + (j - 1)) with (d + j) by lia | lia | |].
    + intros k Hkk. replace (d + 1 + k) with (d + (k + 1)) by lia. apply Hk. lia.
    + by replace (d + 1 + (j - 1)) with (d + j) by lia.
Qed.

(** The next local Monday begins within seven days, and no Monday begins before it. *)
Lemma nextMonday_run now :
  exists j, 1 <= j <= 7 /\ (civil_day now + j + 4) mod 7 = 1 /\
    (forall k, 1 <= k < j -> (civil_day now + k + 4) mod 7 ≠ 1) /\
    nextMonday now = Some (midnight (t_zone now) (civil_day now + j)).
Proof.
  set (d := civil_day now). exists (7 - (d + 3) mod 7).
  pose proof (Z.mod_pos_bound (d + 3) 7) as B. pose proof (Z.div_mod (d + 3) 7) as E.
  assert (M : (d + (7 - (d + 3) mod 7) + 4) mod 7 = 1).
  { replace (d + (7 - (d + 3) mod 7) + 4) with (1 + ((d + 3) / 7 + 1) * 7) by lia. by rewrite Z.mod_add. }
  assert (N : forall k, 1 <= k < 7 - (d + 3) mod 7 -> (d + k + 4) mod 7 ≠ 1).
  { intros k Hk. replace (d + k + 4) with (((d + 3) mod 7 + k + 1) + ((d + 3) / 7) * 7) by lia. rewrite Z.mod_add by lia.
    destruct (decide ((d + 3) mod 7 + k + 1 = 7)) as [->|]; [done|]. rewrite Z.mod_small by lia. lia. }
  split; [lia|]. split; [exact M|]. split; [exact N|].
  unfold nextMonday, DateAt. replace (civil_day now * day + 0 * hour - t_zone now) with (d * day - t_zone now) by (unfold d; lia).
  pose proof (civil_bounds now) as C. fold d in C. pose proof day_pos.
  apply nextMonday_loop_run; [lia | | split; [exact M | nia]].
  intros k Hk [S1 S2]. destruct (decide (k = 0)) as [->|]; [nia|]. apply (N k); [lia | exact S1].
Qed.

(** The Monday of an instant. *)
Lemma mondayOf_unique t d : (d + 4) mod 7 = 1 -> d * day <= t < (d + 7) * day -> mondayOf t = d.
Proof.
  intros Hd Ht. unfold mondayOf. pose proof day_pos. set (e := t / day).
  assert (B : d <= e < d + 7).
  { unfold e. split; [apply Z.div_le_lower_bound; lia | apply Z.div_lt_upper_bound; lia]. }
  pose proof (Z.div_mod (d + 4) 7) as E. rewrite Hd in E.
  assert (X : (e + 4) mod 7 = (e - d + 1) mod 7).
  { replace (e + 4) with ((e - d + 1) + ((d + 4) / 7) * 7) by lia. by rewrite Z.mod_add. }
  rewrite X. assert (R : ((e - d + 1) mod 7 + 6) mod 7 = e - d); [|lia].
  destruct (decide (e - d = 6)) as [->|]; [done|]. rewrite (Z.mod_small (e - d + 1)) by lia.
  replace (e - d + 1 + 6) with (e - d + 1 * 7) by lia. rewrite Z.mod_add by lia. apply Z.mod_small. lia.
Qed.

(** ** When the jobs run *)

Lemma day_multiple d h : 0 <= h < 24 -> (d * day + h * hour) mod day = h * hour.
Proof.
  intros Hh. rewrite Z.add_comm, Z.mod_add by (pose proof day_pos; lia). apply Z.mod_small. rewrite day_hours.
  pose proof hour_pos. nia.
Qed.

(** Each loop waits for the first instant strictly after now on its grid, in the
    server's own zone: Monday 00:00, three o'clock, the full hour; so no run is skipped
    and none is earlier than now, and the searches for Monday and for the hour end. *)
Theorem next_runs_spec now :
  (exists m, nextMonday now = Some m /\ t_zone m = t_zone now /\ Weekday m = Monday /\
     (t_unix m + t_zone m) mod day = 0 /\ t_unix m - 7 * day <= t_unix now < t_unix m) /\
  (let m := nextGamificationRecompute now in
   t_zone m = t_zone now /\ (t_unix m + t_zone m) mod day = gamificationRecomputeHour * hour /\
   t_unix m - day <= t_unix now < t_unix m) /\
  (exists m, nextTopOfHour now = Some m /\ t_zone m = t_zone now /\
     (t_unix m + t_zone m) mod hour = 0 /\ t_unix m - hour <= t_unix now < t_unix m).
Proof.
  pose proof (civil_bounds now) as C. pose proof day_pos as D. pose proof hour_pos as H. pose proof day_hours as DH.
  split; [|split].
  - destruct (nextMonday_run now) as (j & Hj & M & _ & E). eexists. split; [exact E|]. unfold midnight, Weekday.
    rewrite civil_midnight. cbn. split; [done|]. split; [exact M|]. split; [|nia].
    rewrite Z.sub_add. apply Z.mod_mul. lia.
  - unfold nextGamificationRecompute, After, DateAt, gamificationRecomputeHour. cbn [t_unix].
    destruct (Z.ltb_spec (t_unix now) (civil_day now * day + 3 * hour - t_zone now)) as [L|L];
      cbn [negb AddDays t_unix t_zone].
    + split; [done|]. rewrite Z.sub_add, day_multiple by lia. split; [done|]. nia.
    + split; [done|]. replace (civil_day now * day + 3 * hour - t_zone now + 1 * day + t_zone now)
        with ((civil_day now + 1) * day + 3 * hour) by lia. rewrite day_multiple by lia. split; [done|]. nia.
  - set (s := t_unix now + t_zone now). set (h := Hour now).
    assert (Hh : civil_day now * day + h * hour <= s < civil_day now * day + (h + 1) * hour).
    { assert (E : s = day * civil_day now + s mod day) by (apply Z.div_mod; lia).
      assert (F : s mod day = hour * h + (s mod day) mod hour) by (apply Z.div_mod; lia).
      pose proof (Z.mod_pos_bound (s mod day) hour H). lia. }
    assert (G : forall k, (civil_day now * day + k * hour) mod hour = 0).
    { intros k. replace (civil_day now * day + k * hour) with ((civil_day now * 24 + k) * hour) by lia. apply Z.mod_mul. lia. }
    unfold nextTopOfHour. fold h. cbn [nextTopOfHour_loop]. unfold After, AddHours, DateAt. cbn [t_unix].
    rewrite (proj2 (Z.ltb_ge _ _)) by lia. rewrite (proj2 (Z.ltb_lt _ _)) by lia. cbn [negb].
    eexists. split; [reflexivity|]. cbn. split; [done|].
    replace (civil_day now * day + h * hour - t_zone now + 1 * hour + t_zone now) with (civil_day now * day + (h + 1) * hour) by lia.
    rewrite G. split; [done|]. lia.
Qed.

(** ** Which week the weekly run writes *)

Lemma no_rows_of_week (P : uuid * Quest -> Prop) `{forall kv, Decision (P kv)} d week :
  (forall i q, db_quests d !! i = Some q -> q_WeekStart q ≠ week) -> (forall kv, P kv -> q_WeekStart kv.2 = week) ->
  base.filter P (db_quests d) = ∅.
Proof.
  intros Hn Hp. apply map_empty. intros i. apply map_lookup_filter_None. right. intros q Hi HP.
  exact (Hn i q Hi (Hp _ HP)).
Qed.

Lemma quests_of_week_none d st week :
  (forall i q, db_quests d !! i = Some q -> q_WeekStart q ≠ week) -> quests_of_week d st week = [].
Proof.
  intros Hn. unfold quests_of_week. rewrite (no_rows_of_week _ d week Hn) by (by intros kv [_ ?]). reflexivity.
Qed.

Lemma active_quest_none d st week g :
  (forall i q, db_quests d !! i = Some q -> q_WeekStart q ≠ week) -> active_quest d st week g = None.
Proof.
  intros Hn. unfold active_quest. rewrite (no_rows_of_week _ d week Hn) by (by intros kv (_ & ? & _)). reflexivity.
Qed.

(** At local Monday 00:00 of day [d] the job takes the UTC week of that instant.
    At Greenwich and west of it that is the week of [d].  East of Greenwich it is the
    week before: a run that starts within the zone's offset files its quests under a week
    that is over, so a storage with nothing filed ahead is shown no quest, and earns
    none, through the whole week of [d]. *)
Theorem weekly_run_week now m t st w x w' :
  nextMonday now = Some m -> t_unix m <= t < t_unix m + day -> - day < t_zone now < day ->
  let d := civil_day m in
  (t_zone now <= 0 -> mondayOf t = d) /\
  (t < t_unix m + t_zone now ->
   (forall i q, db_quests (wdb w) !! i = Some q -> q_WeekStart q < d) ->
   GenerateWeeklyQuests st t w = (Ok x, w') ->
   mondayOf t = d - 7 /\
   forall v, wdb v = wdb w' -> d * day <= wclock v < (d + 7) * day ->
     (exists snap, QuestsForStorage st v = (Ok snap, v) /\ snap_WeekStart snap = d /\ snap_Quests snap = []) /\
     forall u kind target, advanceQuests st u kind target v = (Ok tt, v)).
Proof.
  intros Hm Ht Hz d. destruct (nextMonday_run now) as (j & Hj & M & _ & E). rewrite E in Hm. injection Hm as <-.
  assert (Ed : d = civil_day now + j) by apply civil_midnight. clearbody d. rewrite <- Ed in M, E, Ht |- *. clear Ed.
  unfold midnight in Ht |- *. cbn [t_unix] in *. rename d into e.
  pose proof day_pos as D. split; [intros Z0; apply mondayOf_unique; [exact M | nia]|]. intros Hlt Hq H.
  assert (Ew : mondayOf t = e - 7).
  { apply mondayOf_unique; [|nia]. replace (e - 7 + 4) with (e + 4 + (-1) * 7) by lia. by rewrite Z.mod_add. }
  split; [exact Ew|]. intros v Ev Hv.
  assert (Q : forall i q, db_quests (wdb v) !! i = Some q -> q_WeekStart q ≠ e).
  { intros i q Hi. rewrite Ev in Hi. destruct (GenerateWeeklyQuests_rows _ _ _ _ _ H i q Hi) as [Ho | ->]; [|lia].
    specialize (Hq i q Ho). lia. }
  assert (K : mondayOf (wclock v) = e) by (by apply mondayOf_unique).
  split.
  - eexists. split; [reflexivity|]. cbn. rewrite K. split; [done|].
    assert (Z0 : quests_of_week (wdb v) st e = []) by (by apply quests_of_week_none). by rewrite Z0.
  - intros u kind target. unfold advanceQuests. induction (questRelevantGenerators kind) as [|g gs IH]; [done|].
    cbn [for_each]. rewrite (bind_step _ _ v tt v); [exact IH|]. unfold advanceOneQuest.
    rewrite (bind_step _ time_Now v (wclock v) v eq_refl), (bind_step _ get_db v (wdb v) v eq_refl), K.
    by rewrite active_quest_none.
Qed.

(** A server two hours east of Greenwich, on the Tuesday before Monday the 12th of
    January 1970. *)
Definition tuesday : Time := mkTime (5 * day) (2 * hour).

Lemma weekly_run_week_witness :
  exists m w', nextMonday tuesday = Some m /\ civil_day m = 11 /\
    GenerateWeeklyQuests 1 (t_unix m) sample_world = (Ok tt, w') /\ mondayOf (t_unix m) = 4 /\
    exists snap, QuestsForStorage 1 (mkWorld (wdb w') [] (12 * day) (12 * day)) =
      (Ok snap, mkWorld (wdb w') [] (12 * day) (12 * day)) /\ snap_Quests snap = [].
Proof.
  exists (mkTime (11 * day - 2 * hour) (2 * hour)).
  assert (V : (GenerateWeeklyQuests 1 (11 * day - 2 * hour) sample_world).1 = Ok tt) by (vm_compute; reflexivity).
  destruct (GenerateWeeklyQuests 1 (11 * day - 2 * hour) sample_world) as [r w'] eqn:E. cbn in V. subst r.
  exists w'. split; [vm_compute; reflexivity|]. split; [vm_compute; reflexivity|]. cbn [t_unix]. split; [exact E|].
  destruct (weekly_run_week tuesday (mkTime (11 * day - 2 * hour) (2 * hour)) (11 * day - 2 * hour) 1 sample_world tt w') as [_ K];
    [vm_compute; reflexivity | vm_compute; split; [discriminate | reflexivity] | vm_compute; split; reflexivity |].
  destruct K as [Em K]; [vm_compute; reflexivity | intros i q H; cbn in H; by rewrite lookup_empty in H | exact E |].
  split; [vm_compute; reflexivity|].
  destruct (K (mkWorld (wdb w') [] (12 * day) (12 * day)) eq_refl) as [(snap & Hs & _ & Hq) _];
    [vm_compute; split; [discriminate | reflexivity]|]. by exists snap.
Defined.
