(* ===== verification/JobRunner.v ===== *)
(** * The job runner: internal/jobs/runner.go

    A process holds the pending jobs it is working by a lease and works each in a
    goroutine of its own, at most [DefaultConcurrency] at a time.  [Runner] is the
    state of one process's runner: its identity, the flags Shutdown sets, the
    channel of slots, the goroutines and where each stands.  The methods are
    functions; the goroutines, the lease keeper, Shutdown, the HTTP requests and
    the other processes interleave as the rules of [runner_step] and [sys_step],
    each an atomic statement on the database or a channel operation. *)

From S2P Require Import Prelude Gamification Expiry Db Sample Tree Jobs.

#[local] Open Scope string_scope.
#[local] Open Scope list_scope.
#[local] Open Scope Z_scope.

(** ** Constants *)

Definition DefaultConcurrency : Z := 3.
Definition DefaultLeaseTTL : Z := minute.
Definition GenericFailure := "Processing failed. Try uploading the photo again.".
Definition TimeoutFailure := "Processing took too long. Try uploading the photo again.".

(** ** What work returns *)

(** An error, as far as [finish] looks at it: whether context.DeadlineExceeded is in
    its chain, and the message of the first UserError in it. *)
Record WorkError := mkWorkError { we_DeadlineExceeded : bool; we_UserMessage : option string }.

Definition context_Canceled : WorkError := mkWorkError false None.

(** What [call] hands to [finish]: a payload, [None] where it is empty or no JSON,
    or an error, a panic of the work included. *)
Inductive Outcome :=
| Returned (payload : option Payload)
| Errored (err : WorkError).

(** ** One process *)

(** Where a goroutine of [run] stands: at the select, in [call], at [finish] (with a
    slot to give back, or without), or past it with the deferred calls to make. *)
Inductive Phase :=
| Queued
| Working
| Finishing (slot : bool) (out : Outcome)
| Exiting (slot : bool).

Record Task := mkTask { task_Job : uuid; task_Phase : Phase }.

(** The statements of Shutdown: not called, [closed] set, base cancelled, returned
    with the claims given up or not. *)
Inductive ShutdownPC := NotShut | Closed | Draining | Stopped (released : bool).

Record Runner := mkRunner {
  rn_owner : uuid;
  rn_leaseTTL : Z;
  (** base.Err() is not nil *)
  rn_cancelled : bool;
  (** the length of the channel [slots] *)
  rn_slots : Z;
  rn_closed : bool;
  (** the goroutines the WaitGroup counts *)
  rn_tasks : gmap nat Task;
  rn_shutdown : ShutdownPC;
  (** the jobs whose outcome the log says could not be recorded *)
  rn_unrecorded : list uuid;
}.

Definition New (owner : uuid) : Runner :=
  mkRunner owner DefaultLeaseTTL false 0 false ∅ NotShut [].

Definition lease (r : Runner) : JobLease := mkLease (rn_owner r) (rn_leaseTTL r).

Definition set_tasks (f : gmap nat Task -> gmap nat Task) (r : Runner) : Runner :=
  mkRunner (rn_owner r) (rn_leaseTTL r) (rn_cancelled r) (rn_slots r) (rn_closed r) (f (rn_tasks r))
    (rn_shutdown r) (rn_unrecorded r).
Definition set_slots (f : Z -> Z) (r : Runner) : Runner :=
  mkRunner (rn_owner r) (rn_leaseTTL r) (rn_cancelled r) (f (rn_slots r)) (rn_closed r) (rn_tasks r)
    (rn_shutdown r) (rn_unrecorded r).
Definition set_shutdown (cancelled closed : bool) (pc : ShutdownPC) (r : Runner) : Runner :=
  mkRunner (rn_owner r) (rn_leaseTTL r) cancelled (rn_slots r) closed (rn_tasks r) pc (rn_unrecorded r).
Definition log_unrecorded (id : uuid) (r : Runner) : Runner :=
  mkRunner (rn_owner r) (rn_leaseTTL r) (rn_cancelled r) (rn_slots r) (rn_closed r) (rn_tasks r)
    (rn_shutdown r) (id :: rn_unrecorded r).

(** ** Methods *)

(** Start-up: one sweep. *)
Definition Recover (r : Runner) : Tx unit := FailOrphanedJobs (rn_owner r) ;; mret tt.

Definition with_lease (l : JobLease) (nj : NewJob) : NewJob :=
  mkNewJob (nj_StorageID nj) (nj_Kind nj) (nj_CreatedBy nj) (nj_ImageFilename nj) (nj_LocationHintID nj) l.

(** The new goroutine gets the number [g]. *)
Definition Submit (g : nat) (nj : NewJob) (r : Runner) (w : World) : Res (uuid * Job) * Runner * World :=
  if rn_closed r then (Fail ErrShutDown, r, w)
  else
    match CreateJob (with_lease (lease r) nj) w with
    | (Fail e, w') => (Fail e, r, w')
    | (Ok job, w') => (Ok job, set_tasks <[g := mkTask job.1 Queued]> r, w')
    end.

Definition Resubmit (g : nat) (storageID id : uuid) (r : Runner) (w : World) : Res unit * Runner * World :=
  if rn_closed r then (Fail ErrShutDown, r, w)
  else
    match RequeueJob storageID id (lease r) w with
    | (Fail e, w') => (Fail e, r, w')
    | (Ok _, w') => (Ok tt, set_tasks <[g := mkTask id Queued]> r, w')
    end.

(** The statement [finish] makes: which outcome a job's row records. *)
Definition record_outcome (r : Runner) (id : uuid) (out : Outcome) : Tx unit :=
  match out with
  | Returned None => FailJob id GenericFailure
  | Returned (Some payload) => CompleteJob id payload
  | Errored err =>
    if rn_cancelled r then FailJob id InterruptedJobError
    else if we_DeadlineExceeded err then FailJob id TimeoutFailure
    else FailJob id (default GenericFailure (we_UserMessage err))
  end.

(** An ErrNotFound is a job discarded meanwhile and is not logged. *)
Definition finish (r : Runner) (id : uuid) (out : Outcome) (w : World) : Runner * World :=
  match record_outcome r id out w with
  | (Ok _, w') => (r, w')
  | (Fail e, w') => (if decide (e = ErrNotFound) then r else log_unrecorded id r, w')
  end.

(** One tick of the lease keeper is these two statements. *)
Definition renew (r : Runner) : Tx Z := RenewJobLeases (lease r).
Definition sweep (r : Runner) : Tx Z := FailOrphanedJobs (rn_owner r).

Definition releaseLeases (r : Runner) : Tx unit := ReleaseJobLeases (rn_owner r) ;; mret tt.

(** ** The interleaving of one process *)

Definition give_back (slot : bool) (r : Runner) : Runner := if slot then set_slots (fun n => n - 1) r else r.

(** The steps of the goroutines of [run]; [lost] marks a write of [finish] that the
    database did not take (an error, or the ten seconds are over). *)
Inductive task_step (lost : bool) : Runner * World -> Runner * World -> Prop :=
| step_acquire g id r w :
    rn_tasks r !! g = Some (mkTask id Queued) -> rn_slots r < DefaultConcurrency ->
    task_step lost (r, w) (set_slots (fun n => n + 1) (set_tasks <[g := mkTask id Working]> r), w)
| step_cancelled g id r w :
    rn_tasks r !! g = Some (mkTask id Queued) -> rn_cancelled r = true ->
    task_step lost (r, w) (set_tasks <[g := mkTask id (Finishing false (Errored context_Canceled))]> r, w)
| step_return g id out r w :
    rn_tasks r !! g = Some (mkTask id Working) ->
    task_step lost (r, w) (set_tasks <[g := mkTask id (Finishing true out)]> r, w)
| step_finish g id slot out r w r' w' :
    rn_tasks r !! g = Some (mkTask id (Finishing slot out)) -> finish r id out w = (r', w') ->
    task_step lost (r, w) (set_tasks <[g := mkTask id (Exiting slot)]> r', w')
| step_finish_lost g id slot out r w :
    lost = true -> rn_tasks r !! g = Some (mkTask id (Finishing slot out)) ->
    task_step lost (r, w) (set_tasks <[g := mkTask id (Exiting slot)]> (log_unrecorded id r), w)
| step_exit g id slot r w :
    rn_tasks r !! g = Some (mkTask id (Exiting slot)) ->
    task_step lost (r, w) (give_back slot (set_tasks (delete g) r), w).

(** Every step of a process: its goroutines, the requests it serves, the keeper,
    which may tick at any time, and Shutdown, which waits for the goroutines or
    for its deadline and gives up the claims, best effort. *)
Inductive runner_step : Runner * World -> Runner * World -> Prop :=
| step_task lost s s' : task_step lost s s' -> runner_step s s'
| step_submit g nj r w res r' w' :
    rn_tasks r !! g = None -> Submit g nj r w = (res, r', w') -> runner_step (r, w) (r', w')
| step_resubmit g st id r w res r' w' :
    rn_tasks r !! g = None -> Resubmit g st id r w = (res, r', w') -> runner_step (r, w) (r', w')
| step_recover r w res w' : Recover r w = (res, w') -> runner_step (r, w) (r, w')
| step_renew r w res w' : renew r w = (res, w') -> runner_step (r, w) (r, w')
| step_sweep r w res w' : sweep r w = (res, w') -> runner_step (r, w) (r, w')
| step_close r w : rn_shutdown r = NotShut -> runner_step (r, w) (set_shutdown (rn_cancelled r) true Closed r, w)
| step_cancel r w : rn_shutdown r = Closed -> runner_step (r, w) (set_shutdown true (rn_closed r) Draining r, w)
| step_release r w res w' :
    rn_shutdown r = Draining -> releaseLeases r w = (res, w') ->
    runner_step (r, w) (set_shutdown (rn_cancelled r) (rn_closed r) (Stopped true) r, w')
| step_release_lost r w :
    rn_shutdown r = Draining ->
    runner_step (r, w) (set_shutdown (rn_cancelled r) (rn_closed r) (Stopped false) r, w).

(** ** All processes *)

Record Sys := mkSys { sys_procs : gmap uuid Runner; sys_world : World }.

(** No row names [o]: what a freshly minted owner is assumed to satisfy. *)
Definition unowned (o : uuid) (d : DB) : Prop := forall id j, db_jobs d !! id = Some j -> job_LeaseOwner j ≠ Some o.

Inductive sys_step : Sys -> Sys -> Prop :=
| sys_start o procs w :
    procs !! o = None -> o ≠ uuid_Nil -> unowned o (wdb w) ->
    sys_step (mkSys procs w) (mkSys (<[o := New o]> procs) w)
| sys_runner o r w r' w' procs :
    procs !! o = Some r -> runner_step (r, w) (r', w') ->
    sys_step (mkSys procs w) (mkSys (<[o := r']> procs) w')
| sys_killed o procs w : sys_step (mkSys procs w) (mkSys (delete o procs) w)
| sys_clear_image id procs w res w' : ClearJobImage id w = (res, w') -> sys_step (mkSys procs w) (mkSys procs w')
| sys_delete st id procs w res w' : DeleteJob st id w = (res, w') -> sys_step (mkSys procs w) (mkSys procs w')
| sys_discard st t procs w res w' : DiscardJobs st t w = (res, w') -> sys_step (mkSys procs w) (mkSys procs w')
| sys_consume st id procs w res w' : inTx (ConsumeJob st id) w = (res, w') -> sys_step (mkSys procs w) (mkSys procs w')
| sys_time t procs w : wnow w <= t -> sys_step (mkSys procs w) (mkSys procs (mkWorld (wdb w) (wids w) t (wclock w))).

(** * What the runner promises

    No job is silently lost: along every interleaving of any number of processes,
    requests and time, each pending job a process holds is one of its goroutines'
    work or is named in its error log; the slots bound the calls; a process whose
    Shutdown returned holds nothing; and its goroutines always finish. *)

#[local] Open Scope list_scope.
#[local] Open Scope Z_scope.

(** ** Who holds a job *)

Definition held (o : uuid) (d : DB) (id : uuid) : Prop := exists j, db_jobs d !! id = Some j /\ held_by o j = true.

(** No process holds more than it held. *)
Definition no_new_holds (d d' : DB) : Prop := forall o id, held o d' id -> held o d id.

#[export] Instance no_new_holds_refl : Reflexive no_new_holds.
Proof. by intros d o id. Qed.

Lemma no_new_holds_jobs d d' : db_jobs d' = db_jobs d -> no_new_holds d d'.
Proof. intros E o id (j & Hj & Hh). rewrite E in Hj. by exists j. Qed.

Lemma update_jobs_holds sel f w n w' :
  update_jobs sel f w = (Ok n, w') ->
  (forall id j o, sel (id, j) = true -> held_by o (f j) = true -> held_by o j = true) ->
  no_new_holds (wdb w) (wdb w').
Proof.
  intros H Hf o id (j' & Hj' & Hh). apply update_jobs_ok in H as (_ & H & _). rewrite H in Hj'.
  destruct (db_jobs (wdb w) !! id) as [j|] eqn:Hj; [|done]. injection Hj' as <-. exists j. split; [done|].
  destruct (sel (id, j)) eqn:E; [by eapply Hf | done].
Qed.

Lemma delete_jobs_holds sel w rows w' : delete_jobs sel w = (Ok rows, w') -> no_new_holds (wdb w) (wdb w').
Proof.
  intros H o id (j & Hj & Hh). apply delete_jobs_ok in H as (H & _). apply H in Hj as [Hj _]. by exists j.
Qed.

Lemma not_held_unclaimed o j : job_LeaseOwner j = None -> held_by o j = false.
Proof. intros E. unfold held_by. rewrite E. by rewrite andb_false_r. Qed.

(** The tail of [finishJob]: a guard on the number of rows. *)
Lemma finishJob_run id s p e w r w' :
  finishJob id s p e w = (r, w') ->
  update_jobs (fun kv => (kv.1 =? id) && is_status JobPending kv.2) (set_outcome s p e (wnow w)) w
    = (Ok (Z.of_nat (size (jobs_where (fun kv => (kv.1 =? id) && is_status JobPending kv.2) (wdb w)))), w') /\
  r = (if Z.of_nat (size (jobs_where (fun kv => (kv.1 =? id) && is_status JobPending kv.2) (wdb w))) =? 0
       then Fail ErrNotFound else Ok tt).
Proof.
  unfold finishJob. intros H. erewrite bind_step in H by reflexivity.
  destruct (update_jobs_total (fun kv => (kv.1 =? id) && is_status JobPending kv.2) (set_outcome s p e (wnow w)) w)
    as (n & w1 & E).
  rewrite (bind_step _ _ _ _ _ E) in H. apply update_jobs_ok in E as E'. destruct E' as (-> & _).
  rewrite E. destruct (_ =? 0); injection H as <- <-; done.
Qed.

Lemma finishJob_holds id s p e w r w' : finishJob id s p e w = (r, w') -> no_new_holds (wdb w) (wdb w').
Proof.
  intros H. apply finishJob_run in H as [H _]. eapply update_jobs_holds; [exact H|].
  intros i j o _ Hh. by rewrite not_held_unclaimed in Hh.
Qed.

(** Whatever it answers, nobody holds the job afterwards. *)
Lemma finishJob_ends id s p e w r w' o :
  s ≠ JobPending -> finishJob id s p e w = (r, w') -> ~ held o (wdb w') id.
Proof.
  intros Hs H (j' & Hj' & Hh). apply finishJob_run in H as [H _]. apply update_jobs_ok in H as (_ & H & _).
  rewrite H in Hj'. destruct (db_jobs (wdb w) !! id) as [j|]; [|done]. cbn in Hj'. rewrite Z.eqb_refl in Hj'.
  destruct (is_status JobPending j) eqn:E; injection Hj' as <-.
  - by rewrite not_held_unclaimed in Hh.
  - apply held_by_ok in Hh as [Hp _]. unfold is_status in E. by rewrite Hp in E.
Qed.

Lemma record_outcome_shape r id out : exists s p e, s ≠ JobPending /\ record_outcome r id out = finishJob id s p e.
Proof.
  unfold record_outcome, CompleteJob, FailJob.
  destruct out as [[p|]|err]; [| |destruct (rn_cancelled r); [|destruct (we_DeadlineExceeded err)]];
    (eexists _, _, _; split; [|reflexivity]; done).
Qed.

(** The only refusal is that the row is not pending, which is not an error to log. *)
Lemma finish_run r id out w r' w' :
  finish r id out w = (r', w') ->
  r' = r /\ no_new_holds (wdb w) (wdb w') /\ (forall o, ~ held o (wdb w') id).
Proof.
  unfold finish. destruct (record_outcome_shape r id out) as (s & p & e & Hs & ->).
  destruct (finishJob id s p e w) as [res w1] eqn:E. intros H.
  assert (w' = w1 /\ r' = r) as [-> ->].
  { apply finishJob_run in E as [_ ->]. destruct (_ =? 0).
    - change (decide (ErrNotFound = ErrNotFound)) with (Err_eq_dec ErrNotFound ErrNotFound) in H. cbn in H. by simplify_eq.
    - by simplify_eq. }
  split; [done|]. split; [by eapply finishJob_holds|]. intros o. by eapply finishJob_ends.
Qed.

(** The other statements of the job table, each giving no process a job. *)
Lemma FailOrphanedJobs_holds o w r w' : FailOrphanedJobs o w = (r, w') -> no_new_holds (wdb w) (wdb w').
Proof.
  unfold FailOrphanedJobs. intros H. erewrite bind_step in H by reflexivity.
  apply update_jobs_run in H as (n & _ & H). eapply update_jobs_holds; [exact H|].
  intros i j o' _ Hh. by rewrite not_held_unclaimed in Hh.
Qed.

Lemma RenewJobLeases_holds l w r w' : RenewJobLeases l w = (r, w') -> no_new_holds (wdb w) (wdb w').
Proof.
  intros H. apply RenewJobLeases_run in H as [->|(o & s & n & _ & H & _)]; [done|].
  eapply update_jobs_holds; [exact H|]. done.
Qed.

Lemma ReleaseJobLeases_holds o w r w' : ReleaseJobLeases o w = (r, w') -> no_new_holds (wdb w) (wdb w').
Proof.
  unfold ReleaseJobLeases. intros H. apply update_jobs_run in H as (n & _ & H). eapply update_jobs_holds; [exact H|].
  intros i j o' _ Hh. by rewrite not_held_unclaimed in Hh.
Qed.

Lemma ReleaseJobLeases_ends o w r w' id : ReleaseJobLeases o w = (r, w') -> ~ held o (wdb w') id.
Proof.
  intros H (j' & Hj' & Hh). unfold ReleaseJobLeases in H. apply update_jobs_run in H as (n & -> & H).
  rewrite (ReleaseJobLeases_ok _ _ _ _ H) in Hj'. destruct (db_jobs (wdb w) !! id) as [j|]; [|done]. cbn in Hj'.
  destruct (held_by o j) eqn:E; injection Hj' as <-; [by rewrite not_held_unclaimed in Hh | congruence].
Qed.

Lemma void_run {A} (m : Tx A) w r w' : (m ;; mret tt) w = (r, w') -> exists r0, m w = (r0, w').
Proof. unfold mbind, tx_bind. destruct (m w) as [[a|e] w1]; cbv [mret tx_ret]; intros; simplify_eq; eauto. Qed.

Lemma ClearJobImage_holds id w r w' : ClearJobImage id w = (r, w') -> no_new_holds (wdb w) (wdb w').
Proof.
  intros H. apply void_run in H as (r0 & H). apply update_jobs_run in H as (n & _ & H).
  eapply update_jobs_holds; [exact H | done].
Qed.

Lemma DeleteJob_holds st id w r w' : DeleteJob st id w = (r, w') -> no_new_holds (wdb w) (wdb w').
Proof.
  unfold DeleteJob. intros H.
  destruct (delete_jobs (fun kv => (kv.1 =? id) && (job_StorageID kv.2 =? st)) w) as [[rows|e] w1] eqn:E; [|done].
  rewrite (bind_step _ _ _ _ _ E) in H. apply delete_jobs_holds in E.
  destruct (head rows) as [row|]; cbv [some_or mbind tx_bind mret tx_ret throw] in H; by simplify_eq.
Qed.

Lemma DiscardJobs_holds st t w r w' : DiscardJobs st t w = (r, w') -> no_new_holds (wdb w) (wdb w').
Proof. unfold DiscardJobs. intros H. destruct r as [rows|e]; [by eapply delete_jobs_holds | done]. Qed.

Lemma ConsumeJob_holds st id w r w' : inTx (ConsumeJob st id) w = (r, w') -> no_new_holds (wdb w) (wdb w').
Proof.
  intros H. apply inTx_run in H as [E|(u & -> & H)]; [by rewrite E|].
  apply ConsumeJob_ok in H as (j & n & Hj & Hs & H). eapply update_jobs_holds; [exact H|].
  intros i k o _ Hh. by apply held_by_ok in Hh as [Hp _].
Qed.

(** Creating and requeuing give the job to the lease's owner, and only it. *)
Definition claims (o id : uuid) (d d' : DB) : Prop :=
  forall o' id', held o' d' id' -> held o' d id' \/ (o' = o /\ id' = id).

Lemma claim_owner l o : fst <$> claim l = Some o -> o = lease_Owner l.
Proof. unfold claim. case_match; cbn; congruence. Qed.

Lemma CreateJob_holds nj w job w' :
  CreateJob nj w = (Ok job, w') -> claims (lease_Owner (nj_Lease nj)) job.1 (wdb w) (wdb w').
Proof.
  destruct job as [id j]. intros H. apply CreateJob_ok in H as (_ & E & Ej). intros o i (j' & Hj' & Hh).
  rewrite E in Hj'. apply lookup_insert_Some in Hj' as [[<- <-]|[_ Hj']]; [right | left; by exists j'].
  split; [|done]. apply held_by_ok in Hh as [_ Ho]. subst j. cbn in Ho. by apply claim_owner in Ho.
Qed.

Lemma CreateJob_refused nj w e w' : CreateJob nj w = (Fail e, w') -> wdb w' = wdb w.
Proof.
  unfold CreateJob. intros H. apply bind_fail in H as [H|(id & w1 & H1 & H)].
  - unfold newID in H. destruct (wids w); by simplify_eq.
  - apply newID_ok in H1 as (ids & _ & ->). by apply inTx_fail in H.
Qed.

Lemma RequeueJob_holds st id l w u w' :
  RequeueJob st id l w = (Ok u, w') -> claims (lease_Owner l) id (wdb w) (wdb w').
Proof.
  unfold RequeueJob. intros H. tx_inv1 H. tx_next H for d by get_db_ok as [-> ->]. tx_next H for j by some_or_ok as [Hj ->].
  tx_next H by require_ok as [Hs ->]. tx_next H by require_ok as [_ ->]. tx_next H by now_ok as [-> ->].
  apply bind_ok in H as (n & w1 & H1 & H). tx_inv1 H. subst. intros o i (j' & Hj' & Hh).
  apply update_jobs_ok in H1 as (_ & H1 & _). rewrite H1 in Hj'.
  destruct (db_jobs (wdb w) !! i) as [j0|] eqn:Hj0; [|done]. cbn in Hj'.
  destruct (Z.eqb_spec i id) as [->|Hne]; injection Hj' as <-.
  - right. split; [|done]. apply held_by_ok in Hh as [_ Ho]. cbn in Ho. by apply claim_owner in Ho.
  - left. by exists j0.
Qed.

(** ** The invariant of one process *)

Definition uses_slot (t : Task) : Z :=
  match task_Phase t with
  | Working | Finishing true _ | Exiting true => 1
  | _ => 0
  end.

Definition exiting (t : Task) : bool := match task_Phase t with Exiting _ => true | _ => false end.

(** A goroutine that has yet to record the outcome of [id]. *)
Definition worked (tasks : gmap nat Task) (id : uuid) : Prop :=
  exists g t, tasks !! g = Some t /\ task_Job t = id /\ exiting t = false.

Record proc_ok (r : Runner) (d : DB) : Prop := {
  po_owner : rn_owner r ≠ uuid_Nil;
  po_slots : rn_slots r = msum uses_slot (rn_tasks r);
  po_bound : rn_slots r <= DefaultConcurrency;
  po_work : forall id, held (rn_owner r) d id -> id ∈ rn_unrecorded r \/ worked (rn_tasks r) id;
  po_closed : rn_shutdown r ≠ NotShut -> rn_closed r = true;
  po_released : rn_shutdown r = Stopped true -> forall id, ~ held (rn_owner r) d id;
}.

Lemma proc_ok_mono r d d' : no_new_holds d d' -> proc_ok r d -> proc_ok r d'.
Proof. intros Hd [O S B K C R]. split; auto. intros E id Hh. apply (R E id). by apply Hd. Qed.

(** A goroutine moves: it keeps its job, takes or gives back its slot, and if it no
    longer works the job then the job is recorded or logged. *)
Lemma proc_ok_move r d g t t' k :
  proc_ok r d -> rn_tasks r !! g = Some t -> task_Job t' = task_Job t ->
  uses_slot t' = uses_slot t + k -> rn_slots r + k <= DefaultConcurrency ->
  (exiting t' = true -> held (rn_owner r) d (task_Job t) -> task_Job t ∈ rn_unrecorded r) ->
  proc_ok (set_slots (fun n => n + k) (set_tasks <[g := t']> r)) d.
Proof.
  intros [O S B K C R] Hg Ej Eu Hk Hx. split; cbn; try done.
  - rewrite (msum_insert_Some uses_slot _ g t t' Hg), S. lia.
  - intros id Hh. destruct (K id Hh) as [Hu|(h & u & Hh' & Eid & Eu')]; [by left|].
    destruct (decide (h = g)) as [->|Hne].
    + assert (u = t) as -> by congruence. destruct (exiting t') eqn:Ex.
      * left. rewrite <- Eid. apply Hx; [done|]. by rewrite Eid.
      * right. exists g, t'. split; [apply lookup_insert_eq|]. split; congruence.
    + right. exists h, u. by rewrite lookup_insert_ne.
Qed.

(** The same without a slot. *)
Lemma proc_ok_stay r d g t t' :
  proc_ok r d -> rn_tasks r !! g = Some t -> task_Job t' = task_Job t -> uses_slot t' = uses_slot t ->
  (exiting t' = true -> held (rn_owner r) d (task_Job t) -> task_Job t ∈ rn_unrecorded r) ->
  proc_ok (set_tasks <[g := t']> r) d.
Proof.
  intros P Hg Ej Eu Hx. pose proof (proc_ok_move r d g t t' 0 P Hg Ej) as Q.
  destruct P as [O S B K C R], Q as [O' S' B' K' C' R']; [lia | lia | done |].
  split; try done. cbn in *. lia.
Qed.

Lemma proc_ok_log r d id : proc_ok r d -> proc_ok (log_unrecorded id r) d.
Proof.
  intros [O S B K C R]. split; cbn; try done. intros i Hi. destruct (K i Hi) as [Hu|Hw]; [|by right].
  left. apply elem_of_cons. by right.
Qed.

Lemma proc_ok_exit r d g id slot :
  proc_ok r d -> rn_tasks r !! g = Some (mkTask id (Exiting slot)) ->
  proc_ok (give_back slot (set_tasks (delete g) r)) d.
Proof.
  intros [O S B K C R] Hg.
  assert (W : forall i, worked (rn_tasks r) i -> worked (delete g (rn_tasks r)) i).
  { intros i (h & t & Ht & Ei & Ex). exists h, t. rewrite lookup_delete_ne; [done|]. intros ->. by simplify_eq. }
  assert (K' : forall i, held (rn_owner r) d i -> i ∈ rn_unrecorded r \/ worked (delete g (rn_tasks r)) i)
    by (intros i Hi; destruct (K i Hi); auto).
  pose proof (msum_delete uses_slot (rn_tasks r) g _ Hg) as Ed.
  assert (Eu : uses_slot (mkTask id (Exiting slot)) = if slot then 1 else 0) by (by destruct slot). rewrite Eu in Ed.
  destruct slot; split; cbn [give_back set_slots set_tasks rn_slots rn_tasks rn_owner rn_unrecorded rn_shutdown rn_closed];
    try done; lia.
Qed.

Lemma task_step_ok lost r w r' w' :
  task_step lost (r, w) (r', w') -> proc_ok r (wdb w) ->
  proc_ok r' (wdb w') /\ rn_owner r' = rn_owner r /\ no_new_holds (wdb w) (wdb w').
Proof.
  intros H P. inversion H; subst.
  - split; [|done]. eapply (proc_ok_move r _ g _ (mkTask id Working) 1); [done | done | done | done | lia | done].
  - split; [|done]. by eapply (proc_ok_stay r _ g).
  - split; [|done]. by eapply (proc_ok_stay r _ g).
  - match goal with E : finish _ _ _ _ = _ |- _ => apply finish_run in E as (-> & M & Hn) end.
    split; [|done]. apply (proc_ok_mono _ _ _ M) in P. eapply (proc_ok_stay r _ g); [done | done | done | |].
    + by destruct slot.
    + cbn. intros _ Hh. by apply Hn in Hh.
  - split; [|done]. eapply (proc_ok_stay (log_unrecorded id r) _ g); [by apply proc_ok_log | done | done | |].
    + by destruct slot.
    + cbn. intros _ _. apply elem_of_cons. by left.
  - split; [by eapply proc_ok_exit|]. by destruct slot.
Qed.

Lemma proc_ok_spawn r d d' g id :
  proc_ok r d -> rn_closed r = false -> rn_tasks r !! g = None -> claims (rn_owner r) id d d' ->
  proc_ok (set_tasks <[g := mkTask id Queued]> r) d'.
Proof.
  intros [O S B K C R] Hc Hg Hd. split; cbn; try done.
  - rewrite (msum_insert_None uses_slot _ g _ Hg). change (uses_slot (mkTask id Queued)) with 0. lia.
  - intros i Hi. destruct (Hd _ _ Hi) as [Hi'|[_ ->]].
    + destruct (K i Hi') as [Hu|(h & t & Ht & Ht')]; [by left|]. right. exists h, t.
      rewrite lookup_insert_ne; [done|]. intros ->. congruence.
    + right. exists g, (mkTask id Queued). by rewrite lookup_insert_eq.
  - intros E. rewrite C in Hc; [done | by rewrite E].
Qed.

(** What a step of [r] does to the jobs of the others. *)
Definition others_keep (o : uuid) (d d' : DB) : Prop := forall o' id, o' ≠ o -> held o' d' id -> held o' d id.

Lemma others_keep_no_new o d d' : no_new_holds d d' -> others_keep o d d'.
Proof. intros H o' id _. apply H. Qed.

Lemma others_keep_claims o id d d' : claims o id d d' -> others_keep o d d'.
Proof. intros H o' i Hne Hh. destruct (H _ _ Hh) as [?|[? _]]; [done | congruence]. Qed.

(** A statement that only ends claims. *)
Lemma runner_quiet r w w' :
  no_new_holds (wdb w) (wdb w') -> proc_ok r (wdb w) ->
  proc_ok r (wdb w') /\ rn_owner r = rn_owner r /\ others_keep (rn_owner r) (wdb w) (wdb w').
Proof. intros H P. split; [by eapply proc_ok_mono|]. split; [done | by apply others_keep_no_new]. Qed.

Lemma Submit_run g nj r w res r' w' :
  Submit g nj r w = (res, r', w') ->
  (r' = r /\ wdb w' = wdb w) \/
  exists id, rn_closed r = false /\ r' = set_tasks <[g := mkTask id Queued]> r /\ claims (rn_owner r) id (wdb w) (wdb w').
Proof.
  unfold Submit. intros H. destruct (rn_closed r); [left; by simplify_eq|].
  destruct (CreateJob _ w) as [[job|e] w1] eqn:E; injection H as _ <- <-.
  - right. exists job.1. split; [done|]. split; [done|]. apply CreateJob_holds in E. exact E.
  - left. split; [done|]. by apply CreateJob_refused in E.
Qed.

Lemma Resubmit_run g st id r w res r' w' :
  Resubmit g st id r w = (res, r', w') ->
  (r' = r /\ wdb w' = wdb w) \/
  (rn_closed r = false /\ r' = set_tasks <[g := mkTask id Queued]> r /\ claims (rn_owner r) id (wdb w) (wdb w')).
Proof.
  unfold Resubmit. intros H. destruct (rn_closed r); [left; by simplify_eq|].
  destruct (RequeueJob _ _ _ w) as [[u|e] w1] eqn:E; injection H as _ <- <-.
  - right. split; [done|]. split; [done|]. apply RequeueJob_holds in E. exact E.
  - left. split; [done|]. by apply inTx_fail in E.
Qed.

Lemma runner_step_ok r w r' w' :
  runner_step (r, w) (r', w') -> proc_ok r (wdb w) ->
  proc_ok r' (wdb w') /\ rn_owner r' = rn_owner r /\ others_keep (rn_owner r) (wdb w) (wdb w').
Proof.
  intros H P. inversion H; subst.
  - match goal with T : task_step _ _ _ |- _ => apply task_step_ok in T as (P' & Eo & M); [|done] end.
    split; [done|]. split; [done | by apply others_keep_no_new].
  - match goal with S : Submit _ _ _ _ = _ |- _ => apply Submit_run in S as [[-> E]|(id & Hc & -> & M)] end.
    + by apply runner_quiet; [rewrite E|].
    + split; [by eapply proc_ok_spawn|]. split; [done | by eapply others_keep_claims].
  - match goal with S : Resubmit _ _ _ _ _ = _ |- _ => apply Resubmit_run in S as [[-> E]|(Hc & -> & M)] end.
    + by apply runner_quiet; [rewrite E|].
    + split; [by eapply proc_ok_spawn|]. split; [done | by eapply others_keep_claims].
  - apply runner_quiet; [|done]. match goal with R : Recover _ _ = _ |- _ => apply void_run in R as (r0 & R) end.
    by eapply FailOrphanedJobs_holds.
  - apply runner_quiet; [|done]. by eapply RenewJobLeases_holds.
  - apply runner_quiet; [|done]. by eapply FailOrphanedJobs_holds.
  - destruct P as [O S B K C R]. split; [by split; cbn|]. split; [done|]. by apply others_keep_no_new.
  - destruct P as [O S B K C R]. split; [split; cbn; try done | split; [done | by apply others_keep_no_new]].
    intros _. apply C. congruence.
  - match goal with R : releaseLeases _ _ = _ |- _ => apply void_run in R as (r0 & R) end.
    destruct (runner_quiet r w w') as (P' & _ & Q); [by eapply ReleaseJobLeases_holds | done |].
    split; [|split; [done | exact Q]]. destruct P' as [O S B K C R]. split; cbn; try done.
    + intros _. apply C. congruence.
    + intros _ id. by eapply ReleaseJobLeases_ends.
  - destruct P as [O S B K C R]. split; [split; cbn; try done | split; [done | by apply others_keep_no_new]].
    intros _. apply C. congruence.
Qed.

(** ** All processes *)

Definition sys_ok (s : Sys) : Prop :=
  forall o r, sys_procs s !! o = Some r -> rn_owner r = o /\ proc_ok r (wdb (sys_world s)).

Lemma sys_ok_quiet procs w w' :
  no_new_holds (wdb w) (wdb w') -> sys_ok (mkSys procs w) -> sys_ok (mkSys procs w').
Proof. intros H S o r Hr. destruct (S o r Hr) as [E P]. split; [done | by eapply proc_ok_mono]. Qed.

Lemma New_ok o d : o ≠ uuid_Nil -> unowned o d -> proc_ok (New o) d.
Proof.
  intros Ho Hd. split; cbn; try done.
  intros id (j & Hj & Hh). apply held_by_ok in Hh as [_ Hh]. by apply Hd in Hj.
Qed.

Lemma sys_step_ok s s' : sys_step s s' -> sys_ok s -> sys_ok s'.
Proof.
  intros H S. destruct H as [o procs w Ho Hn Hu|o r w r' w' procs Hr H|o procs w|id procs w res w' H|st id procs w res w' H
    |st t procs w res w' H|st id procs w res w' H|t procs w Ht].
  - intros o' r' Hr'. cbn in *. apply lookup_insert_Some in Hr' as [[<- <-]|[_ Hr']]; [split; [done | by apply New_ok]|].
    by apply S.
  - destruct (S o r Hr) as [<- P]. apply runner_step_ok in H as (P' & Eo & M); [|done].
    intros o' r'' Hr'. cbn in Hr'. apply lookup_insert_Some in Hr' as [[<- <-]|[Hne Hr']]; [by split|].
    destruct (S o' r'' Hr') as [<- [O2 S2 B2 K2 C2 R2]]. split; [done|]. split; try done.
    + intros id Hh. apply K2. by apply M.
    + intros E id Hh. apply (R2 E id). by apply M.
  - intros o' r Hr. cbn in Hr. apply lookup_delete_Some in Hr as [_ Hr]. by apply S.
  - eapply sys_ok_quiet; [by eapply ClearJobImage_holds | done].
  - eapply sys_ok_quiet; [by eapply DeleteJob_holds | done].
  - eapply sys_ok_quiet; [by eapply DiscardJobs_holds | done].
  - eapply sys_ok_quiet; [by eapply ConsumeJob_holds | done].
  - eapply sys_ok_quiet; [|done]. done.
Qed.

Lemma sys_run_ok s s' : rtc sys_step s s' -> sys_ok s -> sys_ok s'.
Proof. induction 1; eauto using sys_step_ok. Qed.

(** ** Draining *)

Definition weight (t : Task) : Z :=
  match task_Phase t with Queued => 4 | Working => 3 | Finishing _ _ => 2 | Exiting _ => 1 end.

(** How many steps the goroutines can still make. *)
Definition work_left (r : Runner) : Z := msum weight (rn_tasks r).

Lemma work_left_nonneg r : 0 <= work_left r.
Proof. apply msum_nonneg. intros g t _. unfold weight. destruct (task_Phase t); lia. Qed.

Lemma work_left_tasks r : work_left r <= 4 * Z.of_nat (size (rn_tasks r)).
Proof.
  unfold work_left. induction (rn_tasks r) as [|g t m Hg IH] using map_ind; [done|].
  rewrite msum_insert_None, map_size_insert_None by done. unfold weight at 1. destruct (task_Phase t); lia.
Qed.

Lemma task_step_decreases lost s s' : task_step lost s s' -> work_left s'.1 < work_left s.1.
Proof.
  assert (M : forall (m : gmap nat Task) g t t', m !! g = Some t -> weight t' < weight t -> msum weight (<[g:=t']> m) < msum weight m).
  { intros m g t t' Hg Hw. rewrite (msum_insert_Some weight m g t t' Hg). lia. }
  unfold work_left. destruct 1; cbn.
  - eapply M; [done|]. unfold weight. cbn. lia.
  - eapply M; [done|]. unfold weight. cbn. lia.
  - eapply M; [done|]. unfold weight. cbn. lia.
  - match goal with E : finish _ _ _ _ = _ |- _ => apply finish_run in E as (-> & _) end.
    eapply M; [done|]. unfold weight. cbn. lia.
  - eapply M; [done|]. unfold weight. cbn. lia.
  - match goal with E : rn_tasks r !! g = _ |- _ => pose proof (msum_delete weight _ _ _ E) as Ed end.
    unfold weight in Ed at 3. cbn in Ed. destruct slot; cbn; lia.
Qed.

Definition is_queued (t : Task) : bool := match task_Phase t with Queued => true | _ => false end.

(** A runner with goroutines is never stuck: a slot is free, or its holder can move. *)
Lemma task_step_progress r w :
  proc_ok r (wdb w) -> rn_tasks r ≠ ∅ -> exists s', task_step false (r, w) s'.
Proof.
  intros [_ S _ _ _ _] Hne.
  destruct (decide (map_Forall (fun _ t => is_queued t = true) (rn_tasks r))) as [Hall|Hsome].
  - apply map_choose in Hne as (g & [id ph] & Hg). pose proof (Hall g _ Hg) as Eq. destruct ph; try done.
    eexists. eapply step_acquire; [exact Hg|]. rewrite S.
    rewrite (msum_zero uses_slot); [done|]. intros i t Ht. pose proof (Hall i t Ht) as Eq'.
    unfold is_queued in Eq'. unfold uses_slot. by destruct (task_Phase t).
  - apply map_not_Forall in Hsome as (g & [id ph] & Hg & Hq); [|intros ? ?; apply _]. cbn in Hq. destruct ph.
    + done.
    + eexists. by eapply (step_return false g id (Errored context_Canceled)).
    + destruct (finish r id out w) as [r' w'] eqn:E. eexists. by eapply step_finish.
    + eexists. by eapply step_exit.
Qed.

Lemma task_step_logs r w r' w' : task_step false (r, w) (r', w') -> rn_unrecorded r' = rn_unrecorded r.
Proof.
  intros H. inversion H; subst; try done.
  - match goal with E : finish _ _ _ _ = _ |- _ => by apply finish_run in E as (-> & _) end.
  - by destruct slot.
Qed.

Lemma drain r w :
  proc_ok r (wdb w) -> exists r' w', rtc (task_step false) (r, w) (r', w') /\ rn_tasks r' = ∅ /\
    proc_ok r' (wdb w') /\ rn_owner r' = rn_owner r /\ rn_unrecorded r' = rn_unrecorded r.
Proof.
  remember (Z.to_nat (work_left r)) as n eqn:En. revert r w En.
  induction n as [n IH] using lt_wf_ind. intros r w En P.
  destruct (decide (rn_tasks r = ∅)) as [Ht|Ht]; [exists r, w; by split_and!|].
  destruct (task_step_progress r w P Ht) as ([r1 w1] & H1).
  pose proof (task_step_decreases _ _ _ H1) as Hd. cbn in Hd. pose proof (work_left_nonneg r1).
  pose proof (task_step_logs _ _ _ _ H1) as Hl.
  pose proof H1 as H1'. apply task_step_ok in H1' as (P1 & Eo & _); [|done].
  destruct (IH (Z.to_nat (work_left r1)) ltac:(lia) r1 w1 eq_refl P1) as (r' & w' & H2 & Ht' & P' & Eo' & El').
  exists r', w'. split; [by eapply rtc_l|]. split; [done|]. split; [done|]. split; congruence.
Qed.

Lemma task_steps_bounded lost n s s' : nsteps (task_step lost) n s s' -> Z.of_nat n <= work_left s.1 - work_left s'.1.
Proof.
  induction 1 as [s|n s s1 s' H _ IH]; [lia|]. apply task_step_decreases in H. lia.
Qed.

(** ** Theorems *)

(** C29: No job is silently lost.  Along every interleaving of any number of
    processes (started, serving requests, ticking, shutting down, killed outright),
    of the requests that discard or consume jobs, and of time, for every process:
    a pending job it holds is either the work of one of its goroutines that has yet
    to record it, or named in its log as an outcome the database did not take; at
    most three goroutines hold a slot, and the slot channel counts exactly those;
    and once its Shutdown has given up the claims, it never holds a job again,
    whatever tick or goroutine of it is still in flight. *)
Theorem runner_loses_no_job w s o r :
  rtc sys_step (mkSys ∅ w) s -> sys_procs s !! o = Some r ->
  (forall id j, db_jobs (wdb (sys_world s)) !! id = Some j -> job_Status j = JobPending -> job_LeaseOwner j = Some o ->
     rn_shutdown r ≠ Stopped true /\ (id ∈ rn_unrecorded r \/ worked (rn_tasks r) id)) /\
  rn_slots r = msum uses_slot (rn_tasks r) /\ rn_slots r <= 3.
Proof.
  intros H Hr. apply sys_run_ok in H; [|by intros ? ? ?]. destruct (H o r Hr) as [<- [O S B K C R]].
  split; [|done]. intros id j Hj Hp Ho. assert (Hh : held (rn_owner r) (wdb (sys_world s)) id).
  { exists j. split; [done|]. by apply held_by_ok. }
  split; [|by apply K]. intros E. by apply (R E id).
Qed.

(** C30: The goroutines of a process always finish: wherever a run has left it, they
    can make at most four steps each, whatever the work returns and whether or not
    the writes succeed; they are never stuck waiting for a slot; and if the
    database takes their writes, then when they are done no job is pending under
    the process's claim except those it had already logged as unrecorded.  So
    Shutdown's wait ends, and a restart finds nothing it has to fail. *)
Theorem runner_drains w s o r :
  rtc sys_step (mkSys ∅ w) s -> sys_procs s !! o = Some r ->
  (forall lost n s', nsteps (task_step lost) n (r, sys_world s) s' -> Z.of_nat n <= 4 * Z.of_nat (size (rn_tasks r))) /\
  (rn_tasks r ≠ ∅ -> exists s', task_step false (r, sys_world s) s') /\
  exists r' w', rtc (task_step false) (r, sys_world s) (r', w') /\ rn_tasks r' = ∅ /\
    forall id j, db_jobs (wdb w') !! id = Some j -> job_Status j = JobPending -> job_LeaseOwner j = Some o ->
      id ∈ rn_unrecorded r.
Proof.
  intros H Hr. apply sys_run_ok in H; [|by intros ? ? ?]. destruct (H o r Hr) as [Eo P].
  split; [|split; [by apply task_step_progress|]].
  - intros lost n s' Hn. apply task_steps_bounded in Hn. cbn [fst] in Hn.
    pose proof (work_left_nonneg s'.1). pose proof (work_left_tasks r). lia.
  - destruct (drain r (sys_world s) P) as (r' & w' & Hd & Ht & [_ _ _ K _ _] & Eo' & El).
    exists r', w'. split; [done|]. split; [done|]. intros id j Hj Hp Ho. rewrite <- El.
    destruct (K id) as [Hu|(g & t & Ht' & _)]; [|done|].
    + exists j. split; [done|]. apply held_by_ok. split; [done | congruence].
    + rewrite Ht in Ht'. by rewrite lookup_empty in Ht'.
Qed.

(** What [finish] writes for an outcome. *)
Definition recorded (r : Runner) (out : Outcome) : JobStatus * Payload * option string :=
  match out with
  | Returned None => (JobFailed, NoPayload, Some GenericFailure)
  | Returned (Some p) => (JobDone, p, None)
  | Errored e =>
    (JobFailed, NoPayload, Some (if rn_cancelled r then InterruptedJobError
      else if we_DeadlineExceeded e then TimeoutFailure else default GenericFailure (we_UserMessage e)))
  end.

(** What a finished goroutine records.  A pending job becomes done with the
    payload the work returned, if that is valid, and otherwise failed with a message
    written for the user: after a shutdown the restart message, whatever the work
    returned as error; on a timeout the timeout message; the work's own message only
    if it was written for users; a generic one otherwise, so no other error text
    reaches the inbox.  The claim is dropped with it.  A job that is not pending any
    more (discarded, or failed by a sweep) is left exactly as it is, which is not an
    error; no other job changes. *)
Theorem finish_records r id out w :
  let '(r', w') := finish r id out w in
  let '(status, payload, message) := recorded r out in
  r' = r /\ wnow w' = wnow w /\
  match db_jobs (wdb w) !! id with
  | Some j =>
    if decide (job_Status j = JobPending)
    then db_jobs (wdb w') = <[id := set_outcome status payload message (wnow w) j]> (db_jobs (wdb w))
    else db_jobs (wdb w') = db_jobs (wdb w)
  | None => db_jobs (wdb w') = db_jobs (wdb w)
  end.
Proof.
  assert (E : record_outcome r id out = let '(s, p, e) := recorded r out in finishJob id s p e).
  { unfold record_outcome, recorded, CompleteJob, FailJob. destruct out as [[p|]|e]; [done | done |].
    by destruct (rn_cancelled r), (we_DeadlineExceeded e). }
  destruct (finish r id out w) as [r' w'] eqn:H. apply finish_run in H as H'. destruct H' as (-> & _ & _).
  unfold finish in H. rewrite E in H. destruct (recorded r out) as [[s p] e].
  destruct (finishJob id s p e w) as [res w1] eqn:F. apply finishJob_run in F as [F _].
  assert (w1 = w') as -> by (destruct res; by injection H).
  apply update_jobs_ok in F as (_ & F & _ & Ft). split; [done|]. split; [done|].
  assert (Same : (forall j, db_jobs (wdb w) !! id = Some j -> job_Status j ≠ JobPending) ->
    db_jobs (wdb w') = db_jobs (wdb w)).
  { intros Hn. apply map_eq. intros i. rewrite F. destruct (db_jobs (wdb w) !! i) as [k|] eqn:Hk; [|done]. cbn.
    destruct (Z.eqb_spec i id) as [->|]; [|done]. unfold is_status. by rewrite (bool_decide_eq_false_2 _ (Hn k Hk)). }
  destruct (db_jobs (wdb w) !! id) as [j|] eqn:Hj; [|by apply Same].
  destruct (decide (job_Status j = JobPending)) as [Hp|Hp]; [|apply Same; by intros ? [= <-]].
  apply map_eq. intros i. rewrite F. destruct (decide (i = id)) as [->|Hne].
  - rewrite lookup_insert_eq, Hj. cbn. rewrite Z.eqb_refl. unfold is_status. by rewrite (bool_decide_eq_true_2 _ Hp).
  - rewrite lookup_insert_ne by done. destruct (db_jobs (wdb w) !! i); [|done]. cbn. by rewrite (proj2 (Z.eqb_neq _ _) Hne).
Qed.

(** ** A live process keeps its jobs *)

(** What happens around a process that ticks: time, its renewals, and the sweeps of
    any process, itself included. *)
Inductive Beat := BWait (d : Z) | BRenew | BSweep (other : uuid).

Definition beat (r : Runner) (b : Beat) (w : World) : World :=
  match b with
  | BWait d => mkWorld (wdb w) (wids w) (wnow w + d) (wclock w)
  | BRenew => (renew r w).2
  | BSweep other => (FailOrphanedJobs other w).2
  end.

Definition beats (r : Runner) (bs : list Beat) (w : World) : World := foldl (fun w b => beat r b w) w bs.

(** No sweep comes later than the lease allows; [left] is what remains of it. *)
Fixpoint in_time (ttl left : Z) (bs : list Beat) : bool :=
  match bs with
  | [] => true
  | BWait d :: bs' => in_time ttl (left - d) bs'
  | BRenew :: bs' => in_time ttl ttl bs'
  | BSweep _ :: bs' => (0 <=? left) && in_time ttl left bs'
  end.

Lemma RenewJobLeases_total l w : lease_Owner l ≠ uuid_Nil -> exists n w', RenewJobLeases l w = (Ok n, w').
Proof.
  intros Ho. unfold RenewJobLeases, claim. rewrite (proj2 (Z.eqb_neq _ _) Ho). erewrite bind_step by reflexivity.
  apply update_jobs_total.
Qed.

(** A job a live process holds waits as long as it has to: as long as no sweep
    comes later than the lease time after the last renewal, every job the process
    holds is still pending and still its own, however many renewals ago it was
    queued and however many processes sweep in between. *)
Theorem live_process_keeps_its_jobs r bs w id j e :
  rn_owner r ≠ uuid_Nil -> db_jobs (wdb w) !! id = Some j -> held_by (rn_owner r) j = true ->
  job_LeaseExpiresAt j = Some e -> in_time (rn_leaseTTL r) (e - wnow w) bs = true ->
  exists e', db_jobs (wdb (beats r bs w)) !! id = Some (set_expiry (Some e') j).
Proof.
  intros Ho. revert w j e. induction bs as [|b bs IH]; intros w j e Hj Hh He Ht.
  { exists e. cbn. rewrite Hj. f_equal. destruct j. cbn in *. by subst. }
  assert (S : forall e' k, set_expiry e' (set_expiry k j) = set_expiry e' j) by done.
  assert (Hh' : forall k, held_by (rn_owner r) (set_expiry k j) = true) by done.
  destruct b as [d| |other]; cbn [beats foldl beat in_time] in *.
  - destruct (IH (mkWorld (wdb w) (wids w) (wnow w + d) (wclock w)) j e) as (e' & E); try done; [|by exists e'].
    cbn. by replace (e - (wnow w + d)) with (e - wnow w - d) by lia.
  - destruct (renew r w) as [res w1] eqn:R. cbn [snd].
    assert (R' : exists n, renew r w = (Ok n, w1)).
    { destruct (RenewJobLeases_total (lease r) w Ho) as (n & w2 & E). unfold renew in *. exists n. congruence. }
    destruct R' as (n & R'). apply RenewJobLeases_ok in R' as (_ & Et & _ & E).
    destruct (IH w1 (set_expiry (Some (wnow w + rn_leaseTTL r)) j) (wnow w + rn_leaseTTL r)) as (e' & E'); try done.
    + rewrite E, Hj. cbn. by rewrite Hh.
    + rewrite Et. by replace (wnow w + rn_leaseTTL r - wnow w) with (rn_leaseTTL r) by lia.
    + exists e'. by rewrite S in E'.
  - apply andb_true_iff in Ht as [Hl Ht]. apply Z.leb_le in Hl.
    destruct (FailOrphanedJobs other w) as [res w1] eqn:R. cbn [snd].
    assert (Hw : wnow w1 = wnow w /\ db_jobs (wdb w1) !! id = Some j).
    { unfold FailOrphanedJobs in R. erewrite bind_step in R by reflexivity.
      apply update_jobs_run in R as (n & _ & R). apply update_jobs_ok in R as (_ & R & _ & Et). split; [done|].
      rewrite R, Hj. cbn. unfold orphaned. rewrite He, (proj2 (Z.ltb_ge _ _)) by lia. by rewrite !andb_false_r. }
    destruct Hw as [Ew Ej]. apply (IH w1 j e); try done. by rewrite Ew.
Qed.

(** ** The theorems at work *)

Definition sample_new_job : NewJob := mkNewJob 1 JobShelfIngestion (Some 10) (Some "shelf.jpg"%string) None (mkLease 0 0).

(** Process 5 with one job submitted. *)
Definition submitted : Runner * World :=
  let '(_, r, w) := Submit 0%nat sample_new_job (New 5) sample_world in (r, w).

Definition submitted_sys : Sys := mkSys (<[5 := submitted.1]> ∅) submitted.2.

Lemma submitted_reachable : rtc sys_step (mkSys ∅ sample_world) submitted_sys.
Proof.
  unfold submitted_sys.
  eapply rtc_l; [apply (sys_start 5)|]; [done | done | |].
  - intros id j Hj. cbn in Hj. repeat (apply lookup_insert_Some in Hj as [[_ <-]|[_ Hj]]; [done|]). by rewrite lookup_empty in Hj.
  - apply rtc_once. replace (<[5:=submitted.1]> ∅) with (<[5 := submitted.1]> (<[5 := New 5]> (∅ : gmap uuid Runner)))
      by apply insert_insert_eq.
    apply (sys_runner 5 (New 5)); [apply lookup_insert_eq|].
    destruct (Submit 0%nat sample_new_job (New 5) sample_world) as [[res r] w] eqn:E.
    unfold submitted. rewrite E. by apply (step_submit 0%nat sample_new_job _ _ res).
Qed.

Lemma runner_loses_no_job_witness : worked (rn_tasks submitted.1) 100.
Proof.
  destruct (db_jobs (wdb submitted.2) !! 100) as [j|] eqn:Hj; [|vm_compute in Hj; discriminate Hj].
  destruct (runner_loses_no_job sample_world submitted_sys 5 submitted.1 submitted_reachable (lookup_insert_eq _ _ _)) as [T _].
  assert (job_Status j = JobPending /\ job_LeaseOwner j = Some 5) as [E1 E2]
    by (vm_compute in Hj; injection Hj as <-; split; reflexivity).
  destruct (T 100 j Hj E1 E2) as [_ [Hu|Hw]]; [|exact Hw].
  exfalso. vm_compute in Hu. inversion Hu.
Defined.

Lemma runner_drains_witness :
  exists r' w', rtc (task_step false) (submitted.1, sys_world submitted_sys) (r', w') /\ rn_tasks r' = ∅ /\
    forall j, db_jobs (wdb w') !! 100 = Some j -> job_LeaseOwner j = Some 5 -> job_Status j ≠ JobPending.
Proof.
  destruct (runner_drains sample_world submitted_sys 5 submitted.1 submitted_reachable (lookup_insert_eq _ _ _))
    as (_ & _ & r' & w' & H & Ht & T).
  exists r', w'. split; [exact H|]. split; [exact Ht|]. intros j Hj Ho Hp. specialize (T 100 j Hj Hp Ho).
  vm_compute in T. inversion T.
Defined.

(** Five minutes in the queue, swept by process 8 all the while. *)
Definition sample_beats : list Beat :=
  concat (replicate 10 [BWait (20 * second); BRenew; BSweep 8; BWait (10 * second); BSweep 5]).

Definition submitted_job : Job := default (sample_job JobFailed NoPayload None None) (db_jobs (wdb submitted.2) !! 100).

Lemma live_process_keeps_its_jobs_witness :
  exists e, db_jobs (wdb (beats submitted.1 sample_beats submitted.2)) !! 100 = Some (set_expiry (Some e) submitted_job).
Proof.
  refine (live_process_keeps_its_jobs submitted.1 sample_beats submitted.2 100 submitted_job (second + minute) _ _ _ _ _);
    vm_compute; first [reflexivity | discriminate].
Defined.
