(* ===== verification/Images.v ===== *)
(** * Uploaded images: internal/images (strip.go, exif.go, transform.go)

    No uploaded image is stored with its embedded metadata: an upright picture is
    stripped by copying every JPEG segment or PNG chunk that is not metadata, a
    rotated one is decoded, turned and encoded again.  The functions index into
    untrusted bytes, so every index and every slice is modelled with Go's bounds
    check: a result [None] is a run-time panic. *)

From Stdlib Require Import Strings.Byte.
From S2P Require Import Prelude.

#[local] Open Scope list_scope.
#[local] Open Scope Z_scope.

(** ** Bytes and slices *)

Abbreviation byte := Byte.byte (only parsing).

#[export] Instance byte_eq_decision : EqDecision byte := Byte.byte_eq_dec.

Definition u8 (b : byte) : Z := Z.of_N (Byte.to_N b).

(** The conversion [byte(z)]. *)
Definition to_byte (z : Z) : byte := default x00 (Byte.of_N (Z.to_N (z mod 256))).

Definition len {A} (l : list A) : Z := Z.of_nat (length l).

(** [data[i]] and [data[a:b]]. *)
Definition at_ (data : list byte) (i : Z) : option byte := if i <? 0 then None else data !! Z.to_nat i.

Definition slice (data : list byte) (a b : Z) : option (list byte) :=
  if (0 <=? a) && (a <=? b) && (b <=? len data) then Some (take (Z.to_nat (b - a)) (drop (Z.to_nat a) data)) else None.

(** ** Errors *)

Inductive ImgErr := ErrUnsupportedFormat | ErrMalformed | ErrTooLarge | ErrCodec.

Inductive GoRes (A : Type) :=
| GoOk (a : A)
| GoErr (e : ImgErr).
Arguments GoOk {A} a.
Arguments GoErr {A} e.

(** ** Orientation (exif.go) *)

(** An Orientation is a uint16. *)
Abbreviation Orientation := Z (only parsing).
Definition OrientationNormal : Orientation := 1.
Definition OrientationFlipH : Orientation := 2.
Definition OrientationRotate180 : Orientation := 3.
Definition OrientationFlipV : Orientation := 4.
Definition OrientationTranspose : Orientation := 5.
Definition OrientationRotate90 : Orientation := 6.
Definition OrientationTransverse : Orientation := 7.
Definition OrientationRotate270 : Orientation := 8.
Definition orientationFirstInvalid : Orientation := 9.

Definition NeedsTransform (o : Orientation) : bool := (o >? OrientationNormal) && (o <? orientationFirstInvalid).

Definition tagOrientation : Z := 274.
Definition exifHeader : list byte := [x45; x78; x69; x66; x00; x00].
Definition typeShort : Z := 3.
Definition typeLong : Z := 4.
Definition tiffHeaderLen : Z := 8.
Definition ifdEntryLen : Z := 12.
Definition maxIFDEntries : Z := 512.

Definition normalizeOrientation (raw : Z) : Orientation :=
  if (raw <? OrientationNormal) || (raw >=? orientationFirstInvalid) then OrientationNormal else raw.

(** binary.ByteOrder: [true] is big endian; both read past the end of a short slice. *)
Definition Uint16 (big : bool) (b : list byte) : option Z :=
  b0 ← at_ b 0; b1 ← at_ b 1;
  Some (if big then Z.lor (u8 b1) (Z.shiftl (u8 b0) 8) else Z.lor (u8 b0) (Z.shiftl (u8 b1) 8)).

Definition Uint32 (big : bool) (b : list byte) : option Z :=
  b0 ← at_ b 0; b1 ← at_ b 1; b2 ← at_ b 2; b3 ← at_ b 3;
  let '(b0, b1, b2, b3) := if big then (b3, b2, b1, b0) else (b0, b1, b2, b3) in
  Some (Z.lor (u8 b0) (Z.lor (Z.shiftl (u8 b1) 8) (Z.lor (Z.shiftl (u8 b2) 16) (Z.shiftl (u8 b3) 24)))).

Definition uint32 (z : Z) : Z := z mod 2 ^ 32.

Definition is_byte (b : byte) (z : Z) : bool := u8 b =? z.

(** The loop over the IFD entries, [n] of them left from the [i]-th on. *)
Fixpoint ifd_loop (n : nat) (big : bool) (payload : list byte) (base i : Z) : option Orientation :=
  match n with
  | O => Some OrientationNormal
  | S n' =>
    let start := base + i * ifdEntryLen in
    if start + ifdEntryLen >? len payload then Some OrientationNormal
    else
      entry ← slice payload start (start + ifdEntryLen);
      b ← slice entry 0 2; tag ← Uint16 big b;
      if negb (tag =? tagOrientation) then ifd_loop n' big payload base (i + 1)
      else
        b ← slice entry 2 4; typ ← Uint16 big b;
        if typ =? typeShort then
          b ← slice entry 8 10; v ← Uint16 big b; Some (normalizeOrientation v)
        else if typ =? typeLong then
          b ← slice entry 8 12; v ← Uint32 big b; Some (normalizeOrientation (v mod 2 ^ 16))
        else Some OrientationNormal
  end.

Definition orientationFromEXIF (payload : list byte) : option Orientation :=
  if len payload <? tiffHeaderLen then Some OrientationNormal
  else
    p0 ← at_ payload 0; p1 ← at_ payload 1;
    let order :=
      if is_byte p0 73 && is_byte p1 73 then Some false
      else if is_byte p0 77 && is_byte p1 77 then Some true else None in
    match order with
    | None => Some OrientationNormal
    | Some big =>
      b ← slice payload 2 4; magic ← Uint16 big b;
      if negb (magic =? 42) then Some OrientationNormal
      else
        b ← slice payload 4 8; ifdOffset ← Uint32 big b;
        if (ifdOffset >? uint32 (len payload)) || (ifdOffset + 2 >? len payload) then Some OrientationNormal
        else
          b ← slice payload ifdOffset (uint32 (ifdOffset + 2)); entries ← Uint16 big b;
          let entries := if entries >? maxIFDEntries then maxIFDEntries else entries in
          ifd_loop (Z.to_nat entries) big payload (ifdOffset + 2) 0
    end.

(** ** JPEG (strip.go) *)

Definition markerSOI : byte := xd8.
Definition markerEOI : byte := xd9.
Definition markerSOS : byte := xda.
Definition markerAPP0 : byte := xe0.
Definition markerAPP1 : byte := xe1.
Definition markerAPPF : byte := xef.
Definition markerCOM : byte := xfe.
Definition markerTEM : byte := x01.
Definition markerRST0 : byte := xd0.
Definition markerRST7 : byte := xd7.

Definition isMetadataMarker (marker : byte) : bool :=
  ((u8 markerAPP0 <=? u8 marker) && (u8 marker <=? u8 markerAPPF)) || (u8 marker =? u8 markerCOM).

Definition isStandaloneMarker (marker : byte) : bool :=
  (u8 marker =? u8 markerTEM) || ((u8 markerRST0 <=? u8 marker) && (u8 marker <=? u8 markerRST7)).

Definition isJPEG (data : list byte) : bool :=
  match data with
  | b0 :: b1 :: _ => is_byte b0 255 && is_byte b1 216
  | _ => false
  end.

Definition pngSignature : list byte := [x89; x50; x4e; x47; x0d; x0a; x1a; x0a].

Definition isPNG (data : list byte) : bool := bool_decide (take (length pngSignature) data = pngSignature).

(** The run of fill bytes: [for j < len(data) && data[j] == 0xFF { j++ }]. *)
Fixpoint fill_end (fuel : nat) (data : list byte) (j : Z) : option Z :=
  match fuel with
  | O => None
  | S fuel' =>
    if j <? len data then
      b ← at_ data j;
      if is_byte b 255 then fill_end fuel' data (j + 1) else Some j
    else Some j
  end.

Section walk.
Context {S : Type} (visit : S -> byte -> list byte -> S * bool).

(** The loop of walkJPEGSegments from offset [i] on; [s] is what [visit] closes over. *)
Fixpoint walk_loop (fuel : nat) (data : list byte) (i : Z) (s : S) : option (GoRes (Z * S)) :=
  match fuel with
  | O => None
  | Datatypes.S fuel' =>
    if negb (i + 1 <? len data) then Some (GoOk (len data, s))
    else
      b ← at_ data i;
      if negb (is_byte b 255) then Some (GoErr ErrMalformed)
      else
        j ← fill_end (Datatypes.S (length data)) data i;
        if len data <=? j then Some (GoOk (len data, s))
        else
          marker ← at_ data j;
          let i := j + 1 in
          if u8 marker =? u8 markerEOI then Some (GoOk (i, s))
          else if isStandaloneMarker marker || (u8 marker =? u8 markerSOI) then walk_loop fuel' data i s
          else if len data <? i + 2 then Some (GoErr ErrMalformed)
          else
            hi ← at_ data i; lo ← at_ data (i + 1);
            let length := Z.lor (Z.shiftl (u8 hi) 8) (u8 lo) in
            if (length <? 2) || (len data <? i + length) then Some (GoErr ErrMalformed)
            else
              payload ← slice data (i + 2) (i + length);
              let '(s, go) := visit s marker payload in
              if negb go then Some (GoOk (i + length, s))
              else if u8 marker =? u8 markerSOS then Some (GoOk (i + length, s))
              else walk_loop fuel' data (i + length) s
  end.

Definition walkJPEGSegments (data : list byte) (s : S) : option (GoRes (Z * S)) :=
  if negb (isJPEG data) then Some (GoErr ErrUnsupportedFormat)
  else walk_loop (Datatypes.S (length data)) data 2 s.
End walk.

(** A payload that begins with the EXIF header. *)
Definition has_exif_header (payload : list byte) : bool :=
  bool_decide (take (length exifHeader) payload = exifHeader).

(** The visitor stops at the first EXIF segment; its state is what
    orientationFromEXIF returned, a panic included. *)
Definition visit_orientation (o : option Orientation) (marker : byte) (payload : list byte) : option Orientation * bool :=
  if negb (u8 marker =? u8 markerAPP1) || (len payload <? len exifHeader) then (o, true)
  else if negb (has_exif_header payload) then (o, true)
  else (orientationFromEXIF (drop (length exifHeader) payload), false).

Definition jpegOrientation (data : list byte) : option (GoRes Orientation) :=
  r ← walkJPEGSegments visit_orientation data (Some OrientationNormal);
  match r with
  | GoErr e => Some (GoErr e)
  | GoOk (_, o) => o ← o; Some (GoOk o)
  end.

(** A segment as it is written: marker, length, payload. *)
Definition write_segment (marker : byte) (payload : list byte) : list byte :=
  let length := len payload + 2 in
  [xff; marker; to_byte (Z.shiftr length 8); to_byte length] ++ payload.

Definition visit_drop (out : list byte) (marker : byte) (payload : list byte) : list byte * bool :=
  if isMetadataMarker marker then (out, true) else (out ++ write_segment marker payload, true).

Definition dropJPEGMetadataSegments (data : list byte) : option (GoRes (list byte)) :=
  r ← walkJPEGSegments visit_drop data [xff; markerSOI];
  match r with
  | GoErr e => Some (GoErr e)
  | GoOk (scanStart, out) =>
    if scanStart <? len data then tail ← slice data scanStart (len data); Some (GoOk (out ++ tail))
    else Some (GoOk out)
  end.

(** ** PNG (strip.go) *)

Definition eXIf : list byte := [x65; x58; x49; x66].
Definition IEND : list byte := [x49; x45; x4e; x44].
Definition pngMetadataChunks : list (list byte) :=
  [eXIf; [x74; x45; x58; x74]; [x69; x54; x58; x74]; [x7a; x54; x58; x74]].
Definition pngChunkHeaderLen : Z := 8.
Definition pngChunkCRCLen : Z := 4.

Section walk_png.
Context {S : Type} (visit : S -> list byte -> list byte -> S).

Fixpoint png_loop (fuel : nat) (data : list byte) (i : Z) (s : S) : option (GoRes S) :=
  match fuel with
  | O => None
  | Datatypes.S fuel' =>
    if negb (i + pngChunkHeaderLen <=? len data) then Some (GoOk s)
    else
      b0 ← at_ data i; b1 ← at_ data (i + 1); b2 ← at_ data (i + 2); b3 ← at_ data (i + 3);
      let length := Z.lor (Z.shiftl (u8 b0) 24) (Z.lor (Z.shiftl (u8 b1) 16) (Z.lor (Z.shiftl (u8 b2) 8) (u8 b3))) in
      if length <? 0 then Some (GoErr ErrMalformed)
      else
        let end_ := i + pngChunkHeaderLen + length + pngChunkCRCLen in
        if end_ >? len data then Some (GoErr ErrMalformed)
        else
          chunkType ← slice data (i + 4) (i + 8);
          whole ← slice data i end_;
          let s := visit s chunkType whole in
          if bool_decide (chunkType = IEND) then Some (GoOk s) else png_loop fuel' data end_ s
  end.

Definition walkPNGChunks (data : list byte) (s : S) : option (GoRes S) :=
  if negb (isPNG data) then Some (GoErr ErrUnsupportedFormat)
  else png_loop (Datatypes.S (length data)) data (len pngSignature) s.
End walk_png.

Definition visit_png_orientation (o : option Orientation) (chunkType whole : list byte) : option Orientation :=
  if negb (bool_decide (chunkType = eXIf)) then o
  else
    _ ← o;
    payload ← slice whole pngChunkHeaderLen (len whole - pngChunkCRCLen);
    orientationFromEXIF (if (len exifHeader <=? len payload) && has_exif_header payload
                         then drop (length exifHeader) payload else payload).

Definition pngOrientation (data : list byte) : option (GoRes Orientation) :=
  r ← walkPNGChunks visit_png_orientation data (Some OrientationNormal);
  match r with
  | GoErr e => Some (GoErr e)
  | GoOk o => o ← o; Some (GoOk o)
  end.

Definition visit_png_drop (out chunkType whole : list byte) : list byte :=
  if bool_decide (chunkType ∈ pngMetadataChunks) then out else out ++ whole.

Definition dropPNGMetadataChunks (data : list byte) : option (GoRes (list byte)) :=
  walkPNGChunks visit_png_drop data pngSignature.

(** ** Pixels (transform.go) *)

Definition swapped (o : Orientation) : bool :=
  (o =? OrientationTranspose) || (o =? OrientationRotate90) || (o =? OrientationTransverse) || (o =? OrientationRotate270).

Definition mapPixel (o : Orientation) (x y w h : Z) : Z * Z :=
  if o =? OrientationFlipH then (w - 1 - x, y)
  else if o =? OrientationRotate180 then (w - 1 - x, h - 1 - y)
  else if o =? OrientationFlipV then (x, h - 1 - y)
  else if o =? OrientationTranspose then (y, x)
  else if o =? OrientationRotate90 then (h - 1 - y, x)
  else if o =? OrientationTransverse then (h - 1 - y, w - 1 - x)
  else if o =? OrientationRotate270 then (y, w - 1 - x)
  else (x, y).

Section pixels.
Context {Color : Type}.

(** An image.Image: its bounds and its [At]. *)
Record Image := mkImage { im_MinX : Z; im_MinY : Z; im_W : Z; im_H : Z; im_At : Z -> Z -> Color }.

(** What image.NewRGBA starts from, and the conversion [Set] makes to its color model. *)
Context (blank : Color) (rgba : Color -> Color).

(** The pixels of [dst], as the two nested loops set them. *)
Definition set_pixels (o : Orientation) (src : Image) : gmap (Z * Z) Color :=
  foldl (fun dst y => foldl (fun dst x =>
      <[mapPixel o x y (im_W src) (im_H src) := rgba (im_At src (im_MinX src + x) (im_MinY src + y))]> dst)
    dst (seqZ 0 (im_W src))) ∅ (seqZ 0 (im_H src)).

Definition applyOrientation (src : Image) (o : Orientation) : Image :=
  if negb (NeedsTransform o) then src
  else
    let dst := set_pixels o src in
    mkImage 0 0 (if swapped o then im_H src else im_W src) (if swapped o then im_W src else im_H src)
      (fun x y => default blank (dst !! (x, y))).

(** ** Strip, with the codecs of the standard library as parameters *)

Inductive Format := FormatJPEG | FormatPNG.

Record StripResult := mkStripResult {
  sr_Data : list byte;
  sr_Format : Format;
  sr_Orientation : Orientation;
  sr_ReEncoded : bool;
}.

Definition MaxPixels : Z := 50000000.

(** image.DecodeConfig's width and height, and each format's Decode and Encode. *)
Record Codecs := mkCodecs {
  DecodeConfig : list byte -> option (Z * Z);
  Decode_ : Format -> list byte -> option Image;
  Encode_ : Format -> Image -> option (list byte);
}.

Context (codecs : Codecs).

Definition CheckDimensions (data : list byte) (maxPixels : Z) : GoRes unit :=
  match DecodeConfig codecs data with
  | None => GoErr ErrCodec
  | Some (w, h) => if (maxPixels >? 0) && (w * h >? maxPixels) then GoErr ErrTooLarge else GoOk tt
  end.

(** The two halves of stripJPEG and stripPNG, which differ in the codec and in how
    the metadata is found and dropped. *)
Definition stripWith (format : Format) (orient : list byte -> option (GoRes Orientation))
    (dropper : list byte -> option (GoRes (list byte))) (data : list byte) : option (GoRes StripResult) :=
  r ← orient data;
  match r with
  | GoErr e => Some (GoErr e)
  | GoOk orientation =>
    if NeedsTransform orientation then
      match CheckDimensions data MaxPixels with
      | GoErr e => Some (GoErr e)
      | GoOk _ =>
        match Decode_ codecs format data with
        | None => Some (GoErr ErrCodec)
        | Some src =>
          match Encode_ codecs format (applyOrientation src orientation) with
          | None => Some (GoErr ErrCodec)
          | Some out => Some (GoOk (mkStripResult out format orientation true))
          end
        end
      end
    else
      r ← dropper data;
      match r with
      | GoErr e => Some (GoErr e)
      | GoOk stripped => Some (GoOk (mkStripResult stripped format orientation false))
      end
  end.

Definition stripJPEG := stripWith FormatJPEG jpegOrientation dropJPEGMetadataSegments.
Definition stripPNG := stripWith FormatPNG pngOrientation dropPNGMetadataChunks.

Definition Strip (data : list byte) : option (GoRes StripResult) :=
  if isJPEG data then stripJPEG data
  else if isPNG data then stripPNG data
  else Some (GoErr ErrUnsupportedFormat).

Definition DetectFormat (data : list byte) : GoRes Format :=
  if isJPEG data then GoOk FormatJPEG else if isPNG data then GoOk FormatPNG else GoErr ErrUnsupportedFormat.
End pixels.
