(* ===== verification/ImagesSpec.v ===== *)
(** * What stripping an image leaves of it

    The index loops over untrusted bytes never panic and always end; what they
    visit is described by a grammar of the file ([jpeg_header], [png_chunks]); what
    they read of the orientation is what the TIFF layout says ([tiff_orientation]);
    the stripped file is the same file without the metadata of its header; and turning
    the pixels loses none. *)

From Stdlib Require Import String Strings.Byte.
From S2P Require Import Prelude Images.

#[local] Open Scope list_scope.
#[local] Open Scope Z_scope.

(** ** Bytes *)

Lemma u8_range b : 0 <= u8 b < 256.
Proof. unfold u8. pose proof (Byte.to_N_bounded b). lia. Qed.

Lemma to_byte_u8 b : to_byte (u8 b) = b.
Proof. destruct b; reflexivity. Qed.

Lemma u8_to_byte z : u8 (to_byte z) = z mod 256.
Proof.
  unfold to_byte. pose proof (Z.mod_pos_bound z 256 ltac:(lia)) as H.
  destruct (Byte.of_N (Z.to_N (z mod 256))) as [b|] eqn:E; cbn.
  - apply Byte.to_of_N in E. unfold u8. rewrite E. lia.
  - apply Byte.of_N_None_iff in E. lia.
Qed.

Lemma u8_inj a b : u8 a = u8 b -> a = b.
Proof. intros E. by rewrite <- (to_byte_u8 a), E, to_byte_u8. Qed.

Lemma u8_eqb a b : (u8 a =? u8 b) = bool_decide (a = b).
Proof.
  case_bool_decide as E; [subst; apply Z.eqb_refl|]. apply Z.eqb_neq. intros H. by apply E, u8_inj.
Qed.

(** The two length bytes, read and written. *)
Lemma lor_shift a n lo : 0 <= n -> 0 <= lo < 2 ^ n -> Z.lor (Z.shiftl a n) lo = a * 2 ^ n + lo.
Proof.
  intros Hn H. assert (D : Z.land (Z.shiftl a n) lo = 0).
  { rewrite <- (Z.mod_small lo (2 ^ n)) by lia. rewrite <- Z.land_ones by lia.
    rewrite (Z.land_comm lo), Z.land_assoc, Z.land_ones, Z.shiftl_mul_pow2, Z_mod_mult by lia. apply Z.land_0_l. }
  pose proof (Z.add_lor_land (Z.shiftl a n) lo) as E. rewrite D, Z.shiftl_mul_pow2 in E by lia.
  rewrite Z.shiftl_mul_pow2 by lia. lia.
Qed.

Lemma lor_bytes hi lo : 0 <= lo < 256 -> Z.lor (Z.shiftl hi 8) lo = hi * 256 + lo.
Proof. intros H. rewrite lor_shift; [done | lia | done]. Qed.

Lemma length_bytes n : 0 <= n < 65536 -> Z.lor (Z.shiftl (u8 (to_byte (Z.shiftr n 8))) 8) (u8 (to_byte n)) = n.
Proof.
  intros H. rewrite lor_bytes by apply u8_range. rewrite !u8_to_byte, Z.shiftr_div_pow2 by lia.
  change (2 ^ 8) with 256. rewrite (Z.mod_small (n / 256)); [|split; [apply Z.div_pos; lia | apply Z.div_lt_upper_bound; lia]].
  pose proof (Z.div_mod n 256 ltac:(lia)). lia.
Qed.

(** ** Slices of a file seen from an offset *)

Section slices.
Context (pre l : list byte).

Lemma len_app {A} (a b : list A) : len (a ++ b) = len a + len b.
Proof. unfold len. rewrite length_app. lia. Qed.

Lemma len_nil {A} : len (@nil A) = 0.
Proof. done. Qed.

Lemma len_nonneg {A} (a : list A) : 0 <= len a.
Proof. unfold len. lia. Qed.

Lemma at_app k : 0 <= k -> at_ (pre ++ l) (len pre + k) = l !! Z.to_nat k.
Proof.
  intros Hk. unfold at_, len. rewrite (proj2 (Z.ltb_ge _ _)) by lia.
  rewrite lookup_app_r by lia. f_equal. lia.
Qed.

Lemma at_app0 : at_ (pre ++ l) (len pre) = l !! 0%nat.
Proof. pose proof (at_app 0 ltac:(lia)) as E. by rewrite Z.add_0_r in E. Qed.

Lemma slice_app a b : 0 <= a <= b -> b <= len l ->
  slice (pre ++ l) (len pre + a) (len pre + b) = Some (take (Z.to_nat (b - a)) (drop (Z.to_nat a) l)).
Proof.
  intros Ha Hb. unfold slice. rewrite len_app. pose proof (len_nonneg pre).
  rewrite !(proj2 (Z.leb_le _ _)) by lia. cbn [andb]. f_equal.
  replace (len pre + b - (len pre + a)) with (b - a) by lia.
  replace (Z.to_nat (len pre + a)) with (length pre + Z.to_nat a)%nat by (unfold len; lia).
  by rewrite drop_app_add.
Qed.
End slices.

(** ** Numbers in an EXIF block *)

Lemma Uint16_cons big b0 b1 b :
  Uint16 big (b0 :: b1 :: b) = Some (if big then u8 b0 * 256 + u8 b1 else u8 b1 * 256 + u8 b0).
Proof.
  rewrite <- !lor_bytes by apply u8_range. destruct big.
  - change (Some (Z.lor (u8 b1) (Z.shiftl (u8 b0) 8)) = Some (Z.lor (Z.shiftl (u8 b0) 8) (u8 b1))). by rewrite Z.lor_comm.
  - change (Some (Z.lor (u8 b0) (Z.shiftl (u8 b1) 8)) = Some (Z.lor (Z.shiftl (u8 b1) 8) (u8 b0))). by rewrite Z.lor_comm.
Qed.

Lemma Uint32_total big b : 4 <= len b -> exists v, Uint32 big b = Some v /\ 0 <= v.
Proof.
  unfold len. intros H. destruct b as [|b0 [|b1 [|b2 [|b3 b]]]]; try (cbn in H; lia).
  assert (P : forall x y z t, 0 <= Z.lor (u8 x) (Z.lor (Z.shiftl (u8 y) 8) (Z.lor (Z.shiftl (u8 z) 16) (Z.shiftl (u8 t) 24)))).
  { intros x y z t. pose proof (u8_range x). pose proof (u8_range y). pose proof (u8_range z). pose proof (u8_range t).
    rewrite !Z.lor_nonneg, !Z.shiftl_nonneg. lia. }
  destruct big; (eexists; split; [reflexivity | apply P]).
Qed.

(** ** The grammar of a JPEG's header *)

(** How the header ends: at the scan, at an end-of-image marker, or with the file. *)
Inductive Ending := AtScan | AtEOI | AtEnd.

Definition Segment : Type := byte * list byte.

(** Markers that open an ordinary segment with a length. *)
Definition ordinary (m : byte) : bool :=
  negb (is_byte m 255) && negb (u8 m =? u8 markerEOI) && negb (isStandaloneMarker m) &&
  negb (u8 m =? u8 markerSOI) && negb (u8 m =? u8 markerSOS).

(** A payload a two-byte length can name. *)
Definition fits (payload : list byte) : Prop := len payload + 2 < 65536.

(** [jpeg_header l segs e t]: the bytes after SOI are a header with the segments
    [segs], which ends as [e] says, and then [t]. *)
Inductive jpeg_header : list byte -> list Segment -> Ending -> list byte -> Prop :=
| hd_short l : len l <= 1 -> jpeg_header l [] AtEnd []
| hd_fill k : jpeg_header (replicate k xff ++ [xff]) [] AtEnd []
| hd_eoi k rest : jpeg_header (replicate k xff ++ [xff; markerEOI] ++ rest) [] AtEOI rest
| hd_alone k m rest segs e t :
    isStandaloneMarker m || (u8 m =? u8 markerSOI) = true -> jpeg_header rest segs e t ->
    jpeg_header (replicate k xff ++ [xff; m] ++ rest) segs e t
| hd_scan k payload rest :
    fits payload -> jpeg_header (replicate k xff ++ write_segment markerSOS payload ++ rest) [(markerSOS, payload)] AtScan rest
| hd_segment k m payload rest segs e t :
    ordinary m = true -> fits payload -> jpeg_header rest segs e t ->
    jpeg_header (replicate k xff ++ write_segment m payload ++ rest) ((m, payload) :: segs) e t.

(** [jpeg_read l segs]: the bytes after SOI begin with the segments [segs]; what comes
    then is not looked at. *)
Inductive jpeg_read : list byte -> list Segment -> Prop :=
| rd_stop l : jpeg_read l []
| rd_alone k m rest segs :
    isStandaloneMarker m || (u8 m =? u8 markerSOI) = true -> jpeg_read rest segs ->
    jpeg_read (replicate k xff ++ [xff; m] ++ rest) segs
| rd_segment k m payload rest segs :
    ordinary m = true -> fits payload -> jpeg_read rest segs ->
    jpeg_read (replicate k xff ++ write_segment m payload ++ rest) ((m, payload) :: segs).

(** ** Fill bytes *)

Lemma split_fill (l : list byte) : exists k rest, l = replicate k xff ++ rest /\ (rest = [] \/ exists m r, rest = m :: r /\ is_byte m 255 = false).
Proof.
  induction l as [|b l (k & rest & -> & H)]; [exists 0%nat, []; auto|].
  destruct (is_byte b 255) eqn:E.
  - exists (S k), rest. split; [|done]. cbn. f_equal. apply u8_inj. unfold is_byte in E. apply Z.eqb_eq in E. by rewrite E.
  - exists 0%nat, (b :: replicate k xff ++ rest). split; [done|]. right. eauto.
Qed.

Lemma fill_end_ok fuel pre k rest :
  (length rest + k < fuel)%nat -> (rest = [] \/ exists m r, rest = m :: r /\ is_byte m 255 = false) ->
  fill_end fuel (pre ++ replicate k xff ++ rest) (len pre) = Some (len pre + Z.of_nat k).
Proof.
  intros Hf Hr. revert pre fuel Hf. induction k as [|k IH]; intros pre fuel Hf; (destruct fuel as [|fuel]; [lia|]).
  - cbn [replicate app fill_end]. destruct Hr as [-> | (m & r & -> & Hm)].
    + rewrite app_nil_r, Z.ltb_irrefl. by rewrite Z.add_0_r.
    + rewrite len_app. rewrite (proj2 (Z.ltb_lt _ _)) by (unfold len; cbn; lia).
      rewrite at_app0. cbn. rewrite Hm. by rewrite Z.add_0_r.
  - cbn [replicate app fill_end]. rewrite len_app. rewrite (proj2 (Z.ltb_lt _ _)) by (unfold len; cbn; lia).
    rewrite at_app0. cbn [lookup list_lookup mbind option_bind].
    change (is_byte xff 255) with true. cbn iota.
    replace (pre ++ xff :: replicate k xff ++ rest) with ((pre ++ [xff]) ++ replicate k xff ++ rest) by (by rewrite <- app_assoc).
    replace (len pre + 1) with (len (pre ++ [xff])) by (rewrite len_app; done).
    rewrite IH by lia. rewrite len_app. f_equal. unfold len. cbn. lia.
Qed.

Lemma isff_ff k (rest : list byte) : (replicate k xff ++ xff :: rest) !! 0%nat = Some xff.
Proof. by destruct k. Qed.

(** ** The loop at one marker *)

Section loop.
Context {A : Type} (visit : A -> byte -> list byte -> A * bool).

(** The loop at fill bytes and a marker, seen from just behind the marker. *)
Lemma walk_loop_marker fuel pre k m rest s :
  is_byte m 255 = false ->
  walk_loop visit (S fuel) (pre ++ replicate k xff ++ [xff; m] ++ rest) (len pre) s =
  let pre' := pre ++ replicate k xff ++ [xff; m] in
  let data := pre' ++ rest in
  let i := len pre' in
  if u8 m =? u8 markerEOI then Some (GoOk (i, s))
  else if isStandaloneMarker m || (u8 m =? u8 markerSOI) then walk_loop visit fuel data i s
  else if len data <? i + 2 then Some (GoErr ErrMalformed)
  else
    hi ← at_ data i; lo ← at_ data (i + 1);
    let length := Z.lor (Z.shiftl (u8 hi) 8) (u8 lo) in
    if (length <? 2) || (len data <? i + length) then Some (GoErr ErrMalformed)
    else
      payload ← slice data (i + 2) (i + length);
      let '(s, go) := visit s m payload in
      if negb go then Some (GoOk (i + length, s))
      else if u8 m =? u8 markerSOS then Some (GoOk (i + length, s))
      else walk_loop visit fuel data (i + length) s.
Proof.
  intros Hm. cbv zeta.
  replace ((pre ++ replicate k xff ++ [xff; m]) ++ rest) with (pre ++ replicate k xff ++ [xff; m] ++ rest)
    by (by rewrite <- !app_assoc).
  set (data := pre ++ replicate k xff ++ [xff; m] ++ rest).
  assert (El : len data = len pre + Z.of_nat k + 2 + len rest).
  { unfold data. rewrite !len_app. unfold len. rewrite length_replicate. cbn. lia. }
  assert (Ei : len (pre ++ replicate k xff ++ [xff; m]) = len pre + (Z.of_nat k + 1) + 1).
  { rewrite !len_app. unfold len. rewrite length_replicate. cbn. lia. }
  assert (E0 : at_ data (len pre) = Some xff).
  { unfold data. rewrite at_app0. apply isff_ff. }
  assert (Ef : fill_end (S (length data)) data (len pre) = Some (len pre + (Z.of_nat k + 1))).
  { unfold data. replace (replicate k xff ++ [xff; m] ++ rest) with (replicate (S k) xff ++ m :: rest)
      by (rewrite replicate_S_end, <- app_assoc; done).
    rewrite fill_end_ok; [f_equal; lia | rewrite !length_app, length_replicate; cbn; lia | right; eauto]. }
  assert (Em : at_ data (len pre + (Z.of_nat k + 1)) = Some m).
  { unfold data. rewrite at_app by lia. rewrite lookup_app_r by (rewrite length_replicate; lia).
    rewrite length_replicate. by replace (Z.to_nat (Z.of_nat k + 1) - k)%nat with 1%nat by lia. }
  pose proof (len_nonneg rest). cbn [walk_loop]. rewrite (proj2 (Z.ltb_lt _ _)) by lia. cbn [negb].
  rewrite E0. cbn [mbind option_bind]. change (is_byte xff 255) with true. cbn [negb].
  rewrite Ef. cbn [mbind option_bind]. rewrite (proj2 (Z.leb_gt _ _)) by lia. rewrite Em. cbn [mbind option_bind].
  by rewrite Ei.
Qed.

(** Markers the loop reads a length after. *)
Definition has_length (m : byte) : bool :=
  negb (is_byte m 255) && negb (u8 m =? u8 markerEOI) && negb (isStandaloneMarker m || (u8 m =? u8 markerSOI)).

Lemma len_write_segment m payload : len (write_segment m payload) = len payload + 4.
Proof. unfold write_segment. rewrite len_app. unfold len. cbn. lia. Qed.

Lemma walk_loop_segment fuel pre k m payload rest s :
  has_length m = true -> fits payload ->
  walk_loop visit (S fuel) (pre ++ replicate k xff ++ write_segment m payload ++ rest) (len pre) s =
  let pre' := pre ++ replicate k xff ++ write_segment m payload in
  let '(s', go) := visit s m payload in
  if negb go then Some (GoOk (len pre', s'))
  else if u8 m =? u8 markerSOS then Some (GoOk (len pre', s'))
  else walk_loop visit fuel (pre' ++ rest) (len pre') s'.
Proof.
  intros Hm Hp. unfold has_length in Hm. apply andb_true_iff in Hm as [Hm H3]. apply andb_true_iff in Hm as [H1 H2].
  apply negb_true_iff in H1, H2, H3. pose proof (len_nonneg payload) as Hpos. pose proof (len_nonneg rest).
  set (n := len payload + 2) in *.
  assert (Er : write_segment m payload ++ rest = [xff; m] ++ [to_byte (Z.shiftr n 8); to_byte n] ++ payload ++ rest)
    by reflexivity.
  rewrite Er, walk_loop_marker by done. cbv zeta. rewrite H2, H3.
  set (pre1 := pre ++ replicate k xff ++ [xff; m]). set (r := [to_byte (Z.shiftr n 8); to_byte n] ++ payload ++ rest).
  assert (Lr : len r = n + len rest) by (unfold r; rewrite !len_app; unfold n, len; cbn; lia).
  rewrite len_app, Lr. rewrite (proj2 (Z.ltb_ge _ _)) by lia.
  rewrite at_app0. change (r !! 0%nat) with (Some (to_byte (Z.shiftr n 8))). cbn [mbind option_bind].
  rewrite at_app by lia. change (r !! Z.to_nat 1) with (Some (to_byte n)). cbn [mbind option_bind].
  unfold fits in Hp. rewrite length_bytes by lia.
  rewrite (proj2 (Z.ltb_ge _ _)) by lia. rewrite (proj2 (Z.ltb_ge _ _)) by lia. cbn [orb].
  rewrite slice_app by lia.
  replace (take (Z.to_nat (n - 2)) (drop (Z.to_nat 2) r)) with payload.
  2: { unfold r. cbn [app drop Z.to_nat Pos.to_nat]. change (drop (Z.to_nat 2) _) with (payload ++ rest).
       replace (Z.to_nat (n - 2)) with (length payload) by (unfold n, len; lia). by rewrite take_app_length. }
  cbn [mbind option_bind].
  assert (Ep : len pre1 + n = len (pre ++ replicate k xff ++ write_segment m payload)).
  { unfold pre1. rewrite !len_app, len_write_segment. unfold n, len. cbn. lia. }
  assert (Ed : pre1 ++ r = (pre ++ replicate k xff ++ write_segment m payload) ++ rest).
  { unfold pre1. by rewrite <- !app_assoc, Er. }
  by rewrite Ep, Ed.
Qed.

Lemma ordinary_has_length m : ordinary m = true -> has_length m = true /\ (u8 m =? u8 markerSOS) = false.
Proof. unfold ordinary, has_length. rewrite negb_orb. intros H. repeat (apply andb_true_iff in H as [H ?]).
  rewrite negb_true_iff in *. split_and!; [|done]. rewrite !andb_true_iff, !negb_true_iff. done. Qed.

(** What the visitor has made of the segments once the loop stops, and whether it
    was the visitor that stopped it. *)
Fixpoint run_visit (s : A) (segs : list Segment) : A * bool :=
  match segs with
  | [] => (s, false)
  | (m, payload) :: segs' =>
    let '(s', go) := visit s m payload in
    if go then run_visit s' segs' else (s', true)
  end.

(** A header the grammar accepts is walked, segment by segment. *)
Lemma header_walk l segs e t :
  jpeg_header l segs e t -> forall fuel pre s, (length l < fuel)%nat ->
  exists off, walk_loop visit fuel (pre ++ l) (len pre) s = Some (GoOk (off, (run_visit s segs).1)) /\
    ((run_visit s segs).2 = false -> off = len pre + len l - len t).
Proof.
  induction 1 as [l Hl|k|k rest|k m rest segs e t Hm Hh IH|k payload rest Hp|k m payload rest segs e t Hm Hp Hh IH];
    intros [|fuel] pre s Hf; try lia.
  - exists (len pre + len l). cbn [walk_loop]. rewrite len_app, (proj2 (Z.ltb_ge _ _)) by lia.
    cbn [negb run_visit fst snd]. split; [done|]. rewrite len_nil. lia.
  - assert (El : len (replicate k xff ++ [xff]) = Z.of_nat k + 1).
    { rewrite len_app. unfold len. rewrite length_replicate. cbn. lia. }
    exists (len pre + (Z.of_nat k + 1)). cbn [run_visit fst snd]. split; [|rewrite El, len_nil; lia].
    cbn [walk_loop]. rewrite len_app, El. destruct k as [|k].
    { rewrite (proj2 (Z.ltb_ge _ _)) by lia. done. }
    rewrite (proj2 (Z.ltb_lt _ _)) by lia. cbn [negb]. rewrite at_app0. cbn [replicate app lookup list_lookup mbind option_bind].
    change (is_byte xff 255) with true. cbn [negb].
    replace (xff :: replicate k xff ++ [xff]) with (replicate (S (S k)) xff ++ []) by (rewrite app_nil_r; cbn; by rewrite <- replicate_S_end).
    rewrite fill_end_ok; [|rewrite !length_app, length_replicate; cbn; lia | by left]. cbn [mbind option_bind].
    by rewrite (proj2 (Z.leb_le _ _)) by lia.
  - exists (len (pre ++ replicate k xff ++ [xff; markerEOI])). rewrite walk_loop_marker by done. cbv zeta.
    rewrite Z.eqb_refl. split; [done|]. intros _. rewrite !len_app. unfold len. cbn. lia.
  - assert (Hn : is_byte m 255 = false /\ (u8 m =? u8 markerEOI) = false) by (by destruct m).
    rewrite walk_loop_marker by apply Hn. cbv zeta. rewrite (proj2 Hn), Hm.
    destruct (IH fuel (pre ++ replicate k xff ++ [xff; m]) s) as (off & E & Eo).
    { rewrite !length_app in Hf. cbn in Hf. lia. }
    exists off. split; [done|]. intros Hs. rewrite Eo by done. rewrite !len_app. lia.
  - rewrite walk_loop_segment by done. cbv zeta. cbn [run_visit]. destruct (visit s markerSOS payload) as [s' go].
    rewrite Z.eqb_refl. eexists. split; [by destruct go|]. intros _. rewrite !len_app. lia.
  - apply ordinary_has_length in Hm as [Hm Hs]. rewrite walk_loop_segment by done. cbv zeta. cbn [run_visit].
    destruct (visit s m payload) as [s' go]. destruct go; cbn [negb].
    + rewrite Hs. destruct (IH fuel (pre ++ replicate k xff ++ write_segment m payload) s') as (off & E & Eo).
      { rewrite !length_app in Hf. unfold write_segment in Hf. rewrite length_app in Hf. cbn in Hf. lia. }
      exists off. split; [done|]. intros Hv. rewrite Eo by done. rewrite !len_app. lia.
    + eexists. split; [done|]. done.
Qed.
End loop.

Definition never_stops {A} (visit : A -> byte -> list byte -> A * bool) : Prop := forall s m p, (visit s m p).2 = true.

Lemma run_visit_never_stops {A} (visit : A -> byte -> list byte -> A * bool) segs s :
  never_stops visit -> (run_visit visit s segs).2 = false.
Proof.
  intros Hv. revert s. induction segs as [|[m p] segs IH]; intros s; [done|]. cbn.
  specialize (Hv s m p). destruct (visit s m p) as [s' go]. cbn in Hv. subst go. apply IH.
Qed.

(** A segment read back from its two length bytes. *)
Lemma segment_bytes m hi lo r :
  let n := Z.lor (Z.shiftl (u8 hi) 8) (u8 lo) in
  2 <= n -> n <= len r + 2 ->
  exists payload rest, [xff; m; hi; lo] ++ r = write_segment m payload ++ rest /\ fits payload /\
    len payload + 2 = n /\ r = payload ++ rest.
Proof.
  intros n H1 H2. exists (take (Z.to_nat (n - 2)) r), (drop (Z.to_nat (n - 2)) r).
  assert (El : len (take (Z.to_nat (n - 2)) r) + 2 = n) by (unfold len in *; rewrite length_take; lia).
  assert (En : n = u8 hi * 256 + u8 lo) by (apply lor_bytes, u8_range).
  pose proof (u8_range hi). pose proof (u8_range lo).
  split_and!; [|unfold fits; lia | done | by rewrite take_drop].
  unfold write_segment. rewrite El. cbn [app]. rewrite take_drop, En.
  assert (E1 : Z.shiftr (u8 hi * 256 + u8 lo) 8 = u8 hi).
  { rewrite Z.shiftr_div_pow2 by lia. change (2 ^ 8) with 256. rewrite Z.div_add_l by lia.
    rewrite Z.div_small by lia. lia. }
  assert (E2 : to_byte (u8 hi * 256 + u8 lo) = lo).
  { apply u8_inj. rewrite u8_to_byte, Z.add_comm, Z.mod_add by lia. apply Z.mod_small. lia. }
  by rewrite E1, E2, to_byte_u8.
Qed.

(** Either the grammar accepts the bytes or the loop reports an error; it never
    panics and never runs out of steps. *)
Lemma walk_cases {A} (visit : A -> byte -> list byte -> A * bool) l : forall fuel pre s, (length l < fuel)%nat ->
  (exists segs e t, jpeg_header l segs e t) \/
  (exists r, walk_loop visit fuel (pre ++ l) (len pre) s = Some r /\ (never_stops visit -> r = GoErr ErrMalformed) /\
     match r with
     | GoErr e => e = ErrMalformed
     | GoOk (_, s') => exists segs, jpeg_read l segs /\ run_visit visit s segs = (s', true)
     end).
Proof.
  induction l as [l IH] using (induction_ltof1 _ (@length byte)). unfold ltof in IH. intros [|fuel] pre s Hf; [lia|].
  destruct (decide (len l <= 1)) as [Hl|Hl]; [left; eexists _, _, _; by apply hd_short|].
  destruct (split_fill l) as (k & rest & -> & Hr). destruct k as [|k].
  { destruct Hr as [->|(m & r & -> & Hm)]; [by destruct Hl; vm_compute|]. right. exists (GoErr ErrMalformed). split; [|done].
    cbn [replicate app walk_loop]. rewrite len_app. cbn [replicate app] in Hl. rewrite (proj2 (Z.ltb_lt _ _)) by lia.
    cbn [negb]. rewrite at_app0. cbn. by rewrite Hm. }
  replace (replicate (S k) xff ++ rest) with (replicate k xff ++ [xff] ++ rest) in * by (rewrite replicate_S_end, <- app_assoc; done).
  destruct Hr as [->|(m & r & -> & Hm)]; [left; eexists _, _, _; apply hd_fill|]. cbn [app] in *.
  change (xff :: m :: r) with ([xff; m] ++ r) in *. rewrite !length_app, length_replicate in Hf. cbn in Hf.
  assert (Hlt : (length r < length (replicate k xff ++ [xff; m] ++ r))%nat) by (rewrite !length_app; cbn; lia).
  rewrite walk_loop_marker by done. cbv zeta.
  destruct (u8 m =? u8 markerEOI) eqn:E1.
  { left. eexists _, _, _. rewrite u8_eqb in E1. apply bool_decide_eq_true in E1 as ->. apply hd_eoi. }
  destruct (isStandaloneMarker m || (u8 m =? u8 markerSOI)) eqn:E2.
  { destruct (IH r Hlt fuel (pre ++ replicate k xff ++ [xff; m]) s) as [(segs & e & t & H)|(r' & E & Hn & H)]; [lia | left | right].
    - eexists _, _, _. by eapply hd_alone.
    - exists r'. split_and!; [done..|]. destruct r' as [[off s']|]; [|done]. destruct H as (segs & H & Hv). exists segs. split; [by apply rd_alone | done]. }
  assert (Hh : has_length m = true) by (unfold has_length; by rewrite Hm, E1, E2).
  set (pre1 := pre ++ replicate k xff ++ [xff; m]). rewrite len_app.
  destruct r as [|hi [|lo r]].
  1, 2: right; exists (GoErr ErrMalformed); (rewrite (proj2 (Z.ltb_lt _ _)) by (unfold len; cbn; lia)); done.
  rewrite (proj2 (Z.ltb_ge _ _)) by (unfold len; cbn; lia).
  rewrite at_app0. cbn [lookup list_lookup mbind option_bind]. rewrite at_app by lia.
  change ((hi :: lo :: r) !! Z.to_nat 1) with (Some lo). cbn [mbind option_bind].
  set (n := Z.lor (Z.shiftl (u8 hi) 8) (u8 lo)).
  destruct ((n <? 2) || (len pre1 + len (hi :: lo :: r) <? len pre1 + n)) eqn:En; [right; by eexists|].
  apply orb_false_iff in En as [En1 En2]. rewrite Z.ltb_ge in En1, En2.
  assert (Ln : len (hi :: lo :: r) = len r + 2) by (unfold len; cbn; lia).
  destruct (segment_bytes m hi lo r) as (payload & rest & Eb & Hp & Epl & ->); [done | fold n; lia|]. fold n in Epl.
  destruct (u8 m =? u8 markerSOS) eqn:E3.
  { left. eexists _, _, _. change ([xff; m] ++ hi :: lo :: payload ++ rest) with ([xff; m; hi; lo] ++ payload ++ rest).
    rewrite Eb. rewrite u8_eqb in E3. apply bool_decide_eq_true in E3 as ->. by apply hd_scan. }
  assert (Ho : ordinary m = true).
  { unfold ordinary. apply orb_false_iff in E2 as [-> ->]. by rewrite Hm, E1, E3. }
  rewrite slice_app by lia. cbn [mbind option_bind].
  replace (take (Z.to_nat (n - 2)) (drop (Z.to_nat 2) (hi :: lo :: payload ++ rest))) with payload.
  2: { change (drop (Z.to_nat 2) (hi :: lo :: payload ++ rest)) with (payload ++ rest).
       replace (Z.to_nat (n - 2)) with (length payload) by (unfold len in Epl; lia). by rewrite take_app_length. }
  destruct (visit s m payload) as [s' go] eqn:Ev. destruct go; cbn [negb].
  - assert (Ed : pre1 ++ hi :: lo :: payload ++ rest = (pre ++ replicate k xff ++ write_segment m payload) ++ rest).
    { unfold pre1. rewrite <- !app_assoc. cbn [app]. do 2 f_equal. exact Eb. }
    assert (Ei : len pre1 + n = len (pre ++ replicate k xff ++ write_segment m payload)).
    { unfold pre1. rewrite !len_app, len_write_segment. unfold len in *. cbn. lia. }
    rewrite Ed, Ei.
    destruct (IH rest) with (fuel := fuel) (pre := pre ++ replicate k xff ++ write_segment m payload) (s := s')
      as [(segs & e & t & H)|(r' & E & Hn & H)].
    + rewrite !length_app. cbn. rewrite length_app. lia.
    + cbn in Hf. rewrite length_app in Hf. lia.
    + left. eexists _, _, _. change ([xff; m] ++ hi :: lo :: payload ++ rest) with ([xff; m; hi; lo] ++ payload ++ rest).
      rewrite Eb. by apply hd_segment.
    + right. exists r'. split_and!; [done..|]. destruct r' as [[off s'']|]; [|done]. destruct H as (segs & H & Hv).
      exists ((m, payload) :: segs). split; [|cbn [run_visit]; by rewrite Ev].
      change ([xff; m] ++ hi :: lo :: payload ++ rest) with ([xff; m; hi; lo] ++ payload ++ rest). rewrite Eb. by apply rd_segment.
  - right. eexists. split; [done|]. split.
    + intros Hv. specialize (Hv s m payload). by rewrite Ev in Hv.
    + exists [(m, payload)]. split; [|cbn [run_visit]; by rewrite Ev].
      change ([xff; m] ++ hi :: lo :: payload ++ rest) with ([xff; m; hi; lo] ++ payload ++ rest). rewrite Eb.
      apply rd_segment; [done..|]. apply rd_stop.
Qed.

(** ** What the JPEG surgery leaves *)

Definition jpeg (data : list byte) (segs : list Segment) (e : Ending) (t : list byte) : Prop :=
  exists l, data = [xff; markerSOI] ++ l /\ jpeg_header l segs e t.

Definition render (segs : list Segment) : list byte := concat (map (fun s : Segment => write_segment s.1 s.2) segs).

Definition kept (segs : list Segment) : list Segment := base.filter (fun s : Segment => isMetadataMarker s.1 = false) segs.

Lemma kept_no_metadata segs : Forall (fun s : Segment => isMetadataMarker s.1 = false) (kept segs).
Proof. apply Forall_forall. intros s Hs. by apply list_elem_of_filter in Hs as [? _]. Qed.

Lemma isJPEG_spec data : isJPEG data = true <-> exists l, data = [xff; markerSOI] ++ l.
Proof.
  split.
  - destruct data as [|b0 [|b1 l]]; [done..|]. cbn. intros H. apply andb_true_iff in H as [H0 H1].
    unfold is_byte in *. apply Z.eqb_eq in H0, H1. exists l. unfold markerSOI.
    rewrite (u8_inj b0 xff), (u8_inj b1 xd8) by done. done.
  - by intros [l ->].
Qed.

Lemma run_visit_drop segs out : run_visit visit_drop out segs = (out ++ render (kept segs), false).
Proof.
  revert out. induction segs as [|[m p] segs IH]; intros out; [cbn; by rewrite app_nil_r|].
  cbn [run_visit]. unfold visit_drop, kept. rewrite filter_cons. cbn [fst]. destruct (isMetadataMarker m) eqn:E.
  - rewrite decide_False by done. apply IH.
  - rewrite decide_True by done. rewrite IH. cbn. by rewrite <- app_assoc.
Qed.

Lemma never_stops_drop : never_stops visit_drop.
Proof. intros s m p. unfold visit_drop. by destruct (isMetadataMarker m). Qed.

Lemma header_suffix l segs e t : jpeg_header l segs e t -> exists h, l = h ++ t.
Proof.
  induction 1 as [l _|k|k rest|k m rest segs e t _ _ [h ->]|k payload rest _|k m payload rest segs e t _ _ _ [h ->]].
  - exists l. by rewrite app_nil_r.
  - eexists. by rewrite app_nil_r.
  - exists (replicate k xff ++ [xff; markerEOI]). by rewrite <- app_assoc.
  - exists (replicate k xff ++ [xff; m] ++ h). by rewrite <- !app_assoc.
  - exists (replicate k xff ++ write_segment markerSOS payload). by rewrite <- app_assoc.
  - exists (replicate k xff ++ write_segment m payload ++ h). by rewrite <- !app_assoc.
Qed.

Lemma drop_of_header l segs e t :
  jpeg_header l segs e t ->
  dropJPEGMetadataSegments ([xff; markerSOI] ++ l) = Some (GoOk ([xff; markerSOI] ++ render (kept segs) ++ t)).
Proof.
  intros H. unfold dropJPEGMetadataSegments, walkJPEGSegments. cbn [negb isJPEG app].
  change (is_byte xff 255 && is_byte markerSOI 216) with true. cbn [negb].
  destruct (header_walk visit_drop l segs e t H (S (length (xff :: markerSOI :: l))) [xff; markerSOI] [xff; markerSOI])
    as (off & E & Eo); [cbn; lia|].
  change ([xff; markerSOI] ++ l) with (xff :: markerSOI :: l) in E. change (len [xff; markerSOI]) with 2 in *.
  rewrite E, run_visit_drop in *. cbn [mbind option_bind fst snd] in *. specialize (Eo eq_refl). subst off.
  destruct (header_suffix l segs e t H) as (h & ->).
  change (xff :: markerSOI :: h ++ t) with (([xff; markerSOI] ++ h) ++ t). set (p := [xff; markerSOI] ++ h).
  assert (Ep : 2 + len (h ++ t) - len t = len p) by (unfold p; rewrite !len_app; unfold len; cbn; lia).
  rewrite Ep, len_app. pose proof (len_nonneg t). destruct (Z.ltb_spec (len p) (len p + len t)) as [Hlt|Hge].
  - pose proof (slice_app p t 0 (len t) ltac:(lia) ltac:(lia)) as Es. rewrite Z.add_0_r in Es. rewrite Es.
    cbn [mbind option_bind]. rewrite <- app_assoc. rewrite Z.sub_0_r.
    change (drop (Z.to_nat 0) t) with t. replace (Z.to_nat (len t)) with (length t) by (unfold len; lia).
    by rewrite firstn_all.
  - destruct t; [by rewrite app_nil_r | unfold len in Hge; cbn in Hge; lia].
Qed.

Lemma header_kept l segs e t :
  jpeg_header l segs e t -> e = AtScan -> jpeg_header (render (kept segs) ++ t) (kept segs) AtScan t.
Proof.
  induction 1 as [| | |k m rest segs e t _ _ IH|k payload rest Hp|k m payload rest segs e t Hm Hp _ IH]; intros E; try done.
  - by apply IH.
  - change (kept [(markerSOS, payload)]) with [(markerSOS, payload)]. unfold render. cbn [map concat fst snd].
    rewrite app_nil_r. by apply (hd_scan 0).
  - unfold kept. rewrite filter_cons. cbn [fst]. destruct (decide _); [|by apply IH].
    unfold render. cbn [map concat fst snd]. rewrite <- app_assoc. apply (hd_segment 0); [done | done | by apply IH].
Qed.

Lemma render_cons s segs : render (s :: segs) = write_segment s.1 s.2 ++ render segs.
Proof. done. Qed.

Lemma render_kept_len l segs e t : jpeg_header l segs e t -> len (render (kept segs)) + len t <= len l.
Proof.
  assert (N : len (render (kept [])) = 0) by done.
  induction 1 as [l _|k|k rest|k m rest segs e t _ _ IH|k payload rest _|k m payload rest segs e t _ _ _ IH].
  - pose proof (len_nonneg l). rewrite N, (@len_nil byte). lia.
  - pose proof (len_nonneg (replicate k xff ++ [xff])). rewrite N, (@len_nil byte). lia.
  - rewrite N, !len_app. pose proof (len_nonneg (replicate k xff)). pose proof (len_nonneg [xff; markerEOI]). lia.
  - rewrite !len_app. pose proof (len_nonneg (replicate k xff)). pose proof (len_nonneg [xff; m]). lia.
  - change (kept [(markerSOS, payload)]) with [(markerSOS, payload)]. rewrite render_cons, !len_app.
    change (len (render [])) with 0. pose proof (len_nonneg (replicate k xff)). cbn [fst snd]. lia.
  - rewrite !len_app. pose proof (len_nonneg (replicate k xff)). unfold kept. rewrite filter_cons. cbn [fst].
    destruct (decide _); fold (kept segs).
    + rewrite render_cons, len_app. cbn [fst snd]. lia.
    + pose proof (len_nonneg (write_segment m payload)). lia.
Qed.

Lemma orientation_of_header l segs e t :
  jpeg_header l segs e t -> Forall (fun s : Segment => isMetadataMarker s.1 = false) segs ->
  jpegOrientation ([xff; markerSOI] ++ l) = Some (GoOk OrientationNormal).
Proof.
  intros H Hk. unfold jpegOrientation, walkJPEGSegments. cbn [negb isJPEG app].
  change (is_byte xff 255 && is_byte markerSOI 216) with true. cbn [negb].
  destruct (header_walk visit_orientation l segs e t H (S (length (xff :: markerSOI :: l))) [xff; markerSOI] (Some OrientationNormal))
    as (off & E & _); [cbn; lia|].
  change ([xff; markerSOI] ++ l) with (xff :: markerSOI :: l) in E. change (len [xff; markerSOI]) with 2 in *. rewrite E.
  assert (R : (run_visit visit_orientation (Some OrientationNormal) segs).1 = Some OrientationNormal).
  { clear -Hk. induction Hk as [|[m p] segs Hm _ IH]; [done|]. cbn [run_visit]. unfold visit_orientation at 1.
    rewrite (u8_eqb m). rewrite bool_decide_eq_false_2; [exact IH|]. intros ->. done. }
  by rewrite R.
Qed.

Lemma dropJPEG_total data : exists r, dropJPEGMetadataSegments data = Some r.
Proof.
  destruct (isJPEG data) eqn:Ej.
  - apply isJPEG_spec in Ej as [l ->].
    destruct (walk_cases visit_drop l (S (length ([xff; markerSOI] ++ l))) [xff; markerSOI] [xff; markerSOI])
      as [(segs & e & t & H)|(r & E & Hr & _)]; [cbn; lia | rewrite (drop_of_header l segs e t H); eauto |].
    rewrite (Hr never_stops_drop) in E. unfold dropJPEGMetadataSegments, walkJPEGSegments.
    change (isJPEG ([xff; markerSOI] ++ l)) with true. cbn [negb]. change 2 with (len [xff; markerSOI]). rewrite E. eauto.
  - unfold dropJPEGMetadataSegments, walkJPEGSegments. rewrite Ej. eauto.
Qed.

(** Stripping an upright JPEG never panics and always ends, whatever the bytes.
    It is refused exactly when the bytes are no JPEG header; otherwise the result
    is the picture's other segments in their order, payload for payload, without the
    fill bytes between them, then what followed the header byte for byte; it is never longer.  When the header reaches the scan,
    as every complete picture's does, the result's own header holds no metadata,
    reads as upright, and stripping it again changes nothing. *)
Theorem dropJPEG_spec data :
  match dropJPEGMetadataSegments data with
  | None => False
  | Some (GoErr _) => forall segs e t, ~ jpeg data segs e t
  | Some (GoOk out) => exists segs e t,
      jpeg data segs e t /\ out = [xff; markerSOI] ++ render (kept segs) ++ t /\ len out <= len data /\
      (e = AtScan -> jpeg out (kept segs) AtScan t /\ Forall (fun s => isMetadataMarker s.1 = false) (kept segs) /\
         jpegOrientation out = Some (GoOk OrientationNormal) /\ dropJPEGMetadataSegments out = Some (GoOk out))
  end.
Proof.
  destruct (isJPEG data) eqn:Ej.
  - apply isJPEG_spec in Ej as [l ->].
    destruct (walk_cases visit_drop l (S (length ([xff; markerSOI] ++ l))) [xff; markerSOI] [xff; markerSOI])
      as [(segs & e & t & H)|(r & E & Hr & _)]; [cbn; lia | |].
    + rewrite (drop_of_header l segs e t H). exists segs, e, t. split; [by exists l|]. split; [done|]. split.
      { pose proof (render_kept_len l segs e t H). rewrite !len_app. lia. }
      intros He. pose proof (header_kept l segs e t H He) as Hk. pose proof (kept_no_metadata segs) as Hn.
      split; [eexists; split; [reflexivity | done]|]. split; [done|]. split; [by eapply orientation_of_header|].
      rewrite (drop_of_header _ _ _ _ Hk). unfold kept. rewrite list_filter_filter_l; [done|]. done.
    + rewrite (Hr never_stops_drop) in E. unfold dropJPEGMetadataSegments, walkJPEGSegments.
      change (isJPEG ([xff; markerSOI] ++ l)) with true. cbn [negb]. change 2 with (len [xff; markerSOI]). rewrite E.
      cbn [mbind option_bind]. intros segs e t (l' & El & H). injection El as <-. cbn [app] in E.
      destruct (header_walk visit_drop l segs e t H (S (length ([xff; markerSOI] ++ l))) [xff; markerSOI] [xff; markerSOI])
        as (off & E' & _); [cbn; lia|]. cbn [app] in E'. rewrite E in E'. discriminate E'.
  - unfold dropJPEGMetadataSegments, walkJPEGSegments. rewrite Ej. cbn. intros segs e t (l & -> & _).
    by rewrite (proj2 (isJPEG_spec _)) in Ej by eauto.
Qed.

(** An EXIF block, big endian, whose one entry is the orientation [o]. *)
Definition sample_exif (o : byte) : list byte :=
  exifHeader ++ [x4d; x4d; x00; x2a; x00; x00; x00; x08; x00; x01;
    x01; x12; x00; x03; x00; x00; x00; x01; x00; o; x00; x00; x00; x00; x00; x00].

(** What the surgery does not look at.  Everything behind the first scan header
    is copied verbatim, segments of metadata between scans or behind the picture
    included; and an end-of-image marker in front of the metadata hides it from the
    walk, which then stores a file whose header carries the EXIF block live. *)
Theorem strip_keeps_later_metadata :
  (forall data segs t, jpeg data segs AtScan t ->
     exists head, dropJPEGMetadataSegments data = Some (GoOk (head ++ t))) /\
  exists data out, dropJPEGMetadataSegments data = Some (GoOk out) /\
    jpegOrientation data = Some (GoOk OrientationNormal) /\ jpegOrientation out = Some (GoOk OrientationRotate90).
Proof.
  split.
  - intros data segs t (l & -> & H). rewrite (drop_of_header l segs AtScan t H). eexists. by rewrite app_assoc.
  - exists ([xff; markerSOI; xff; markerEOI] ++ write_segment markerAPP1 (sample_exif x06)),
      ([xff; markerSOI] ++ write_segment markerAPP1 (sample_exif x06)).
    split_and!; vm_compute; reflexivity.
Qed.

(** ** The grammar of a PNG *)

Record Chunk := mkChunk { ck_type : list byte; ck_data : list byte; ck_crc : list byte }.

Definition be32 (n : Z) : list byte :=
  [to_byte (Z.shiftr n 24); to_byte (Z.shiftr n 16); to_byte (Z.shiftr n 8); to_byte n].

Definition whole (c : Chunk) : list byte := be32 (len (ck_data c)) ++ ck_type c ++ ck_data c ++ ck_crc c.

Definition chunk_ok (c : Chunk) : Prop := length (ck_type c) = 4%nat /\ length (ck_crc c) = 4%nat /\ len (ck_data c) < 2 ^ 32.

(** The chunks behind the signature, up to IEND or to where no chunk header fits. *)
Inductive png_chunks : list byte -> list Chunk -> Prop :=
| pc_end l : len l < 8 -> png_chunks l []
| pc_iend c rest : chunk_ok c -> ck_type c = IEND -> png_chunks (whole c ++ rest) [c]
| pc_more c rest cs : chunk_ok c -> ck_type c ≠ IEND -> png_chunks rest cs -> png_chunks (whole c ++ rest) (c :: cs).

Definition png (data : list byte) (cs : list Chunk) : Prop := exists l, data = pngSignature ++ l /\ png_chunks l cs.

Definition png_kept (cs : list Chunk) : list Chunk := base.filter (fun c => ck_type c ∉ pngMetadataChunks) cs.

Definition png_render (cs : list Chunk) : list byte := concat (map whole cs).

Lemma len_whole c : chunk_ok c -> len (whole c) = len (ck_data c) + 12.
Proof. intros (H1 & H2 & _). unfold whole, be32, len. rewrite !length_app, H1, H2. cbn. lia. Qed.

(** The four length bytes, read and written. *)
Lemma be32_read b0 b1 b2 b3 :
  Z.lor (Z.shiftl (u8 b0) 24) (Z.lor (Z.shiftl (u8 b1) 16) (Z.lor (Z.shiftl (u8 b2) 8) (u8 b3))) =
  u8 b0 * 16777216 + u8 b1 * 65536 + u8 b2 * 256 + u8 b3.
Proof.
  rewrite lor_bytes by apply u8_range.
  pose proof (u8_range b0). pose proof (u8_range b1). pose proof (u8_range b2). pose proof (u8_range b3).
  rewrite (lor_shift (u8 b1) 16), lor_shift by (change (2 ^ 16) with 65536; change (2 ^ 24) with 16777216; lia).
  change (2 ^ 16) with 65536. change (2 ^ 24) with 16777216. lia.
Qed.

Lemma be32_written n : 0 <= n < 2 ^ 32 ->
  u8 (to_byte (Z.shiftr n 24)) * 16777216 + u8 (to_byte (Z.shiftr n 16)) * 65536 + u8 (to_byte (Z.shiftr n 8)) * 256 + u8 (to_byte n) = n.
Proof.
  intros H. rewrite !u8_to_byte, !Z.shiftr_div_pow2 by lia.
  change (2 ^ 24) with 16777216. change (2 ^ 16) with 65536. change (2 ^ 8) with 256. change (2 ^ 32) with 4294967296 in H.
  pose proof (Z.div_mod n 256 ltac:(lia)) as E1. pose proof (Z.div_mod (n / 256) 256 ltac:(lia)) as E2.
  pose proof (Z.div_mod (n / 256 / 256) 256 ltac:(lia)) as E3. pose proof (Z.div_mod (n / 256 / 256 / 256) 256 ltac:(lia)) as E4.
  assert (Z0 : n / 256 / 256 / 256 / 256 = 0) by (rewrite !Z.div_div by lia; apply Z.div_small; lia).
  replace (n / 16777216) with (n / 256 / 256 / 256) by (rewrite !Z.div_div by lia; done).
  replace (n / 65536) with (n / 256 / 256) by (rewrite !Z.div_div by lia; done). lia.
Qed.

Lemma to_byte_eq b z : z mod 256 = u8 b -> to_byte z = b.
Proof. intros E. apply u8_inj. by rewrite u8_to_byte. Qed.

Lemma be32_bytes b0 b1 b2 b3 : be32 (u8 b0 * 16777216 + u8 b1 * 65536 + u8 b2 * 256 + u8 b3) = [b0; b1; b2; b3].
Proof.
  pose proof (u8_range b0). pose proof (u8_range b1). pose proof (u8_range b2). pose proof (u8_range b3).
  unfold be32. rewrite !Z.shiftr_div_pow2 by lia.
  change (2 ^ 24) with 16777216. change (2 ^ 16) with 65536. change (2 ^ 8) with 256.
  set (n := _ + _ + _ + u8 b3).
  assert (E1 : n / 256 = u8 b0 * 65536 + u8 b1 * 256 + u8 b2) by (symmetry; apply (Z.div_unique n 256 _ (u8 b3)); unfold n; lia).
  assert (E2 : n / 65536 = u8 b0 * 256 + u8 b1) by (symmetry; apply (Z.div_unique n 65536 _ (u8 b2 * 256 + u8 b3)); unfold n; lia).
  assert (E3 : n / 16777216 = u8 b0) by (symmetry; apply (Z.div_unique n 16777216 _ (u8 b1 * 65536 + u8 b2 * 256 + u8 b3)); unfold n; lia).
  rewrite E1, E2, E3. repeat f_equal; apply to_byte_eq.
  - apply Z.mod_small. lia.
  - symmetry. apply (Z.mod_unique _ 256 (u8 b0)); lia.
  - symmetry. apply (Z.mod_unique _ 256 (u8 b0 * 256 + u8 b1)); lia.
  - symmetry. apply (Z.mod_unique _ 256 (u8 b0 * 65536 + u8 b1 * 256 + u8 b2)); unfold n; lia.
Qed.

(** ** The orientation, read off the layout *)

(** What an EXIF block says of the orientation by the TIFF layout: a byte order mark,
    42, the offset of a directory, its number of entries, and the entries of twelve
    bytes (tag, type, count, value), of which the first with the tag 274 decides.  A
    block that is not laid out so says nothing, which is upright. *)
Definition number (big : bool) (b : list byte) : Z := foldl (fun n x => n * 256 + u8 x) 0 (if big then b else reverse b).

Definition byte_order (block : list byte) : option bool :=
  if decide (take 2 block = [x49; x49]) then Some false else if decide (take 2 block = [x4d; x4d]) then Some true else None.

(** The entries that are there in full, at most [n]. *)
Fixpoint directory (n : nat) (l : list byte) : list (list byte) :=
  match n with
  | O => []
  | S n' => if len l <? 12 then [] else take 12 l :: directory n' (drop 12 l)
  end.

Definition entry_value (big : bool) (e : list byte) : Z :=
  let typ := number big (take 2 (drop 2 e)) in
  let v := if typ =? 3 then number big (take 2 (drop 8 e)) else if typ =? 4 then number big (take 4 (drop 8 e)) mod 65536 else 1 in
  if (1 <=? v) && (v <=? 8) then v else 1.

Definition decided (big : bool) (entries : list (list byte)) : Z :=
  match List.find (fun e => number big (take 2 e) =? 274) entries with Some e => entry_value big e | None => 1 end.

Definition tiff_orientation (block : list byte) : Z :=
  match byte_order block with
  | Some big =>
    let off := number big (take 4 (drop 4 block)) in
    let dir := drop (Z.to_nat off) block in
    if (8 <=? len block) && (number big (take 2 (drop 2 block)) =? 42) && (off + 2 <=? len block)
    then decided big (directory (Z.to_nat (Z.min 512 (number big (take 2 dir)))) (drop 2 dir))
    else 1
  | None => 1
  end.

Lemma lor_rev x y z t : Z.lor x (Z.lor y (Z.lor z t)) = Z.lor t (Z.lor z (Z.lor y x)).
Proof. rewrite (Z.lor_comm x), (Z.lor_comm y), (Z.lor_comm z). by rewrite !Z.lor_assoc. Qed.

Lemma Uint16_number big b : len b = 2 -> Uint16 big b = Some (number big b).
Proof.
  intros H. destruct b as [|b0 [|b1 [|]]]; try (unfold len in H; cbn in H; lia). rewrite Uint16_cons.
  destruct big; unfold number; cbn; f_equal; lia.
Qed.

Lemma Uint32_number big b : len b = 4 -> Uint32 big b = Some (number big b).
Proof.
  intros H. destruct b as [|b0 [|b1 [|b2 [|b3 [|]]]]]; try (unfold len in H; cbn in H; lia).
  assert (P : forall x y z t, Z.lor (u8 x) (Z.lor (Z.shiftl (u8 y) 8) (Z.lor (Z.shiftl (u8 z) 16) (Z.shiftl (u8 t) 24))) =
    ((u8 t * 256 + u8 z) * 256 + u8 y) * 256 + u8 x).
  { intros x y z t. rewrite lor_rev, be32_read. lia. }
  destruct big; [transitivity (Some (((u8 b0 * 256 + u8 b1) * 256 + u8 b2) * 256 + u8 b3)) | transitivity (Some (((u8 b3 * 256 + u8 b2) * 256 + u8 b1) * 256 + u8 b0))].
  all: first [by rewrite <- P | unfold number; cbn; f_equal; lia].
Qed.

Lemma slice_take data a b : 0 <= a <= b -> b <= len data -> slice data a b = Some (take (Z.to_nat (b - a)) (drop (Z.to_nat a) data)).
Proof. intros Ha Hb. unfold slice. by rewrite !(proj2 (Z.leb_le _ _)) by lia. Qed.

Lemma len_take n (l : list byte) : 0 <= n <= len l -> len (take (Z.to_nat n) l) = n.
Proof. unfold len. rewrite length_take. lia. Qed.
Lemma len_drop n (l : list byte) : 0 <= n <= len l -> len (drop (Z.to_nat n) l) = len l - n.
Proof. unfold len. rewrite length_drop. lia. Qed.

Lemma normalize_bounds v : normalizeOrientation v = if (1 <=? v) && (v <=? 8) then v else 1.
Proof.
  unfold normalizeOrientation, OrientationNormal, orientationFirstInvalid.
  destruct (Z.ltb_spec v 1), (Z.geb_spec v 9), (Z.leb_spec 1 v), (Z.leb_spec v 8); cbn; lia.
Qed.

(** The loop finds the entry the layout names. *)
Lemma ifd_loop_directory n big payload base i : 0 <= base -> 0 <= i ->
  ifd_loop n big payload base i = Some (decided big (directory n (drop (Z.to_nat (base + i * 12)) payload))).
Proof.
  intros Hb. revert i. induction n as [|n IH]; intros i Hi; [done|]. cbn [ifd_loop directory]. unfold ifdEntryLen.
  set (start := base + i * 12). rewrite Z.gtb_ltb. destruct (Z.ltb_spec (len payload) (start + 12)) as [Hs|Hs].
  { rewrite (proj2 (Z.ltb_lt _ _)); [done|]. unfold len in *. rewrite length_drop. lia. }
  assert (Ld : len (drop (Z.to_nat start) payload) = len payload - start) by (apply len_drop; lia).
  rewrite (proj2 (Z.ltb_ge _ _)) by lia. rewrite slice_take by lia. cbn [mbind option_bind].
  replace (start + 12 - start) with 12 by lia. change (Z.to_nat 12) with 12%nat.
  set (e := take 12 (drop (Z.to_nat start) payload)). assert (Le : len e = 12) by (apply (len_take 12); lia).
  assert (Field : forall a b, 0 <= a <= b -> b <= 12 -> slice e a b = Some (take (Z.to_nat (b - a)) (drop (Z.to_nat a) e)) /\
    len (take (Z.to_nat (b - a)) (drop (Z.to_nat a) e)) = b - a).
  { intros a b Ha Hb'. split; [apply slice_take; lia|]. apply len_take. rewrite len_drop by lia. lia. }
  destruct (Field 0 2) as [-> L0]; [lia.. |]. destruct (Field 2 4) as [-> L2]; [lia.. |].
  destruct (Field 8 10) as [-> L8]; [lia.. |]. destruct (Field 8 12) as [-> L12]; [lia.. |].
  cbn [mbind option_bind]. rewrite !Uint16_number by done. rewrite Uint32_number by done. cbn [mbind option_bind].
  change (take (Z.to_nat (2 - 0)) (drop (Z.to_nat 0) e)) with (take 2 e).
  unfold decided. cbn [List.find]. unfold tagOrientation. destruct (number big (take 2 e) =? 274); cbn [negb].
  - unfold entry_value. change (take (Z.to_nat (4 - 2)) (drop (Z.to_nat 2) e)) with (take 2 (drop 2 e)).
    unfold typeShort, typeLong. destruct (_ =? 3); [by rewrite normalize_bounds|].
    destruct (_ =? 4); [by rewrite normalize_bounds | done].
  - rewrite IH by lia. unfold decided. rewrite drop_drop.
    by replace (Z.to_nat (base + (i + 1) * 12)) with (Z.to_nat start + 12)%nat by (unfold start; lia).
Qed.

(** The index arithmetic reads what the layout says, and reads it in bounds. *)
Lemma orientationFromEXIF_tiff payload : len payload < 2 ^ 32 -> orientationFromEXIF payload = Some (tiff_orientation payload).
Proof.
  intros Hlen. unfold orientationFromEXIF, tiff_orientation, tiffHeaderLen.
  destruct (Z.ltb_spec (len payload) 8) as [H8|H8].
  { rewrite (proj2 (Z.leb_gt _ _)) by lia. cbn [andb]. by destruct (byte_order payload). }
  destruct payload as [|p0 [|p1 rest]]; try (unfold len in H8; cbn in H8; lia). set (payload := p0 :: p1 :: rest) in *.
  change (at_ payload 0) with (Some p0). change (at_ payload 1) with (Some p1). cbn [mbind option_bind].
  assert (Eo : (if is_byte p0 73 && is_byte p1 73 then Some false else if is_byte p0 77 && is_byte p1 77 then Some true else None) = byte_order payload).
  { unfold byte_order, payload, is_byte. cbn [take]. change 73 with (u8 x49). change 77 with (u8 x4d). rewrite !u8_eqb.
    repeat case_bool_decide; repeat case_decide; cbn; simplify_eq; done. }
  rewrite Eo. destruct (byte_order payload) as [big|]; [|done].
  assert (Field : forall a b, 0 <= a <= b -> b <= len payload -> slice payload a b = Some (take (Z.to_nat (b - a)) (drop (Z.to_nat a) payload)) /\
    len (take (Z.to_nat (b - a)) (drop (Z.to_nat a) payload)) = b - a).
  { intros a b Ha Hb. split; [by apply slice_take|]. apply len_take. rewrite len_drop by lia. lia. }
  destruct (Field 2 4) as [-> L2]; [lia.. |]. destruct (Field 4 8) as [-> L4]; [lia.. |]. cbn [mbind option_bind].
  rewrite Uint16_number by done. rewrite Uint32_number by done. cbn [mbind option_bind].
  change (take (Z.to_nat (4 - 2)) (drop (Z.to_nat 2) payload)) with (take 2 (drop 2 payload)).
  change (take (Z.to_nat (8 - 4)) (drop (Z.to_nat 4) payload)) with (take 4 (drop 4 payload)) in *.
  rewrite (proj2 (Z.leb_le 8 _)) by lia. destruct (number big (take 2 (drop 2 payload)) =? 42); cbn [negb andb]; [|done].
  destruct (Uint32_total big (take 4 (drop 4 payload))) as (off & Eoff & Hoff); [lia|].
  assert (En : number big (take 4 (drop 4 payload)) = off) by (rewrite Uint32_number in Eoff by lia; congruence). rewrite En. clear Eoff En.
  unfold uint32. rewrite (Z.mod_small (len payload)) by lia. rewrite !Z.gtb_ltb.
  destruct (Z.leb_spec (off + 2) (len payload)) as [Hi|Hi].
  2: { rewrite (proj2 (Z.ltb_lt (len payload) (off + 2))) by lia. by rewrite orb_true_r. }
  rewrite !(proj2 (Z.ltb_ge _ _)) by lia. cbn [orb]. rewrite Z.mod_small by lia.
  destruct (Field off (off + 2)) as [-> Ld]; [lia.. |]. cbn [mbind option_bind]. rewrite Uint16_number by lia. cbn [mbind option_bind].
  replace (Z.to_nat (off + 2 - off)) with 2%nat by lia. set (n := number big (take 2 (drop (Z.to_nat off) payload))).
  rewrite ifd_loop_directory by lia. rewrite Z.mul_0_l, Z.add_0_r, drop_drop.
  replace (Z.to_nat (off + 2)) with (Z.to_nat off + 2)%nat by lia. do 4 f_equal. unfold maxIFDEntries.
  rewrite Z.gtb_ltb. destruct (Z.ltb_spec 512 n); lia.
Qed.

Lemma tiff_orientation_range block : 1 <= tiff_orientation block <= 8.
Proof.
  unfold tiff_orientation, decided, entry_value. destruct (byte_order block) as [big|]; [|lia]. cbv zeta.
  destruct (_ && _); [|lia]. destruct (List.find _ _) as [e|]; [|lia].
  match goal with |- 1 <= (if (1 <=? ?v) && _ then _ else _) <= 8 => destruct (Z.leb_spec 1 v), (Z.leb_spec v 8); cbn [andb]; lia end.
Qed.

Section png_walk.
Context {A : Type} (visit : A -> list byte -> list byte -> A).

(** The loop at one chunk. *)
Lemma png_loop_chunk fuel pre c rest s :
  chunk_ok c ->
  png_loop visit (S fuel) (pre ++ whole c ++ rest) (len pre) s =
  let s' := visit s (ck_type c) (whole c) in
  if bool_decide (ck_type c = IEND) then Some (GoOk s')
  else png_loop visit fuel ((pre ++ whole c) ++ rest) (len (pre ++ whole c)) s'.
Proof.
  intros Hc. pose proof (len_whole c Hc) as Lw. destruct Hc as (H1 & H2 & H3).
  pose proof (len_nonneg (ck_data c)) as Hd. pose proof (len_nonneg rest). cbv zeta.
  assert (Lr : len (whole c ++ rest) = len (ck_data c) + 12 + len rest) by (rewrite len_app; lia).
  cbn [png_loop]. unfold pngChunkHeaderLen, pngChunkCRCLen. rewrite len_app, Lr.
  rewrite (proj2 (Z.leb_le _ _)) by lia. cbn [negb]. rewrite at_app0, !at_app by lia.
  set (n := len (ck_data c)) in *.
  change ((whole c ++ rest) !! 0%nat) with (Some (to_byte (Z.shiftr n 24))).
  change ((whole c ++ rest) !! Z.to_nat 1) with (Some (to_byte (Z.shiftr n 16))).
  change ((whole c ++ rest) !! Z.to_nat 2) with (Some (to_byte (Z.shiftr n 8))).
  change ((whole c ++ rest) !! Z.to_nat 3) with (Some (to_byte n)).
  cbn [mbind option_bind]. rewrite be32_read, be32_written by lia.
  rewrite (proj2 (Z.ltb_ge _ _)) by lia. rewrite Z.gtb_ltb, (proj2 (Z.ltb_ge _ _)) by lia.
  rewrite slice_app by lia.
  replace (take (Z.to_nat (8 - 4)) (drop (Z.to_nat 4) (whole c ++ rest))) with (ck_type c).
  2: { change (drop (Z.to_nat 4) (whole c ++ rest)) with ((ck_type c ++ ck_data c ++ ck_crc c) ++ rest).
       rewrite <- !app_assoc. change (Z.to_nat (8 - 4)) with 4%nat. by rewrite <- H1, take_app_length. }
  cbn [mbind option_bind].
  assert (Ew : slice (pre ++ whole c ++ rest) (len pre) (len pre + 8 + n + 4) = Some (whole c)).
  { replace (len pre) with (len pre + 0) at 1 by lia. replace (len pre + 8 + n + 4) with (len pre + (n + 12)) by lia.
    rewrite slice_app by lia. f_equal. change (drop (Z.to_nat 0) ?l) with l.
    replace (Z.to_nat (n + 12 - 0)) with (length (whole c)) by (unfold len in Lw; lia). apply take_app_length. }
  rewrite Ew. cbn [mbind option_bind].
  replace (len pre + 8 + n + 4) with (len (pre ++ whole c)) by (rewrite len_app; lia).
  by rewrite <- app_assoc.
Qed.

Lemma png_walk l cs : png_chunks l cs -> forall fuel pre s, (length l < fuel)%nat ->
  png_loop visit fuel (pre ++ l) (len pre) s = Some (GoOk (foldl (fun s c => visit s (ck_type c) (whole c)) s cs)).
Proof.
  induction 1 as [l Hl|c rest Hc Ht|c rest cs Hc Ht _ IH]; intros [|fuel] pre s Hf; try lia.
  - cbn [png_loop]. unfold pngChunkHeaderLen. rewrite len_app, (proj2 (Z.leb_gt _ _)) by lia. done.
  - rewrite png_loop_chunk by done. cbv zeta. by rewrite bool_decide_eq_true_2.
  - rewrite png_loop_chunk by done. cbv zeta. rewrite bool_decide_eq_false_2 by done. rewrite IH; [done|].
    pose proof (len_whole c Hc) as Lw. pose proof (len_nonneg (ck_data c)). rewrite length_app in Hf. unfold len in *. lia.
Qed.

Lemma png_cases l : forall fuel pre s, (length l < fuel)%nat ->
  (exists cs, png_chunks l cs) \/ png_loop visit fuel (pre ++ l) (len pre) s = Some (GoErr ErrMalformed).
Proof.
  induction l as [l IH] using (induction_ltof1 _ (@length byte)). unfold ltof in IH. intros [|fuel] pre s Hf; [lia|].
  destruct (decide (len l < 8)) as [Hl|Hl]; [left; eexists; by apply pc_end|].
  assert (L0 : exists b0 b1 b2 b3 t0 t1 t2 t3 r, l = [b0; b1; b2; b3] ++ [t0; t1; t2; t3] ++ r).
  { do 8 (destruct l as [|? l]; [unfold len in Hl; cbn in Hl; lia|]). by eexists _, _, _, _, _, _, _, _, _. }
  destruct L0 as (b0 & b1 & b2 & b3 & t0 & t1 & t2 & t3 & r & ->).
  set (n := u8 b0 * 16777216 + u8 b1 * 65536 + u8 b2 * 256 + u8 b3).
  pose proof (u8_range b0). pose proof (u8_range b1). pose proof (u8_range b2). pose proof (u8_range b3).
  destruct (decide (n + 4 <= len r)) as [Hn|Hn].
  - set (c := mkChunk [t0; t1; t2; t3] (take (Z.to_nat n) r) (take 4 (drop (Z.to_nat n) r))).
    assert (Ld : len (ck_data c) = n) by (unfold c, len in *; cbn; rewrite length_take; lia).
    assert (Hc : chunk_ok c).
    { split; [done|]. split; [|rewrite Ld; unfold n; change (2 ^ 32) with 4294967296; lia].
      unfold c, len in *. cbn [ck_crc]. rewrite length_take, length_drop. lia. }
    assert (El : [b0; b1; b2; b3] ++ [t0; t1; t2; t3] ++ r = whole c ++ drop 4 (drop (Z.to_nat n) r)).
    { unfold whole. rewrite Ld. unfold n. rewrite be32_bytes. fold n. unfold c. cbn [ck_type ck_data ck_crc].
      rewrite <- !app_assoc. do 2 f_equal. by rewrite take_drop, take_drop. }
    rewrite El in *. destruct (decide (ck_type c = IEND)) as [Ht|Ht]; [left; eexists; by apply pc_iend|].
    rewrite png_loop_chunk by done. cbv zeta. rewrite bool_decide_eq_false_2 by done.
    pose proof (len_whole c Hc) as Lw. rewrite length_app in Hf, IH.
    destruct (IH (drop 4 (drop (Z.to_nat n) r))) with (fuel := fuel) (pre := pre ++ whole c) (s := visit s (ck_type c) (whole c))
      as [(cs & Hcs)|E]; [unfold len in *; lia | unfold len in *; lia | left | by right].
    eexists. by eapply pc_more.
  - right. cbn [png_loop]. unfold pngChunkHeaderLen, pngChunkCRCLen. set (l := [b0; b1; b2; b3] ++ [t0; t1; t2; t3] ++ r).
    assert (Ll : len l = 8 + len r) by (unfold l; rewrite !len_app; unfold len; cbn; lia).
    rewrite len_app, Ll. pose proof (len_nonneg r). rewrite (proj2 (Z.leb_le _ _)) by lia. cbn [negb].
    rewrite at_app0, !at_app by lia. change (l !! 0%nat) with (Some b0). change (l !! Z.to_nat 1) with (Some b1).
    change (l !! Z.to_nat 2) with (Some b2). change (l !! Z.to_nat 3) with (Some b3). cbn [mbind option_bind].
    rewrite be32_read. fold n. rewrite (proj2 (Z.ltb_ge _ _)) by (unfold n; lia).
    by rewrite Z.gtb_ltb, (proj2 (Z.ltb_lt _ _)) by lia.
Qed.
End png_walk.

Lemma isPNG_spec data : isPNG data = true <-> exists l, data = pngSignature ++ l.
Proof.
  unfold isPNG. rewrite bool_decide_eq_true. split.
  - intros H. exists (drop (length pngSignature) data). by rewrite <- H at 1; rewrite take_drop.
  - intros [l ->]. apply take_app_length.
Qed.

Lemma walkPNG_of_chunks {A} (visit : A -> list byte -> list byte -> A) l cs s :
  png_chunks l cs ->
  walkPNGChunks visit (pngSignature ++ l) s = Some (GoOk (foldl (fun s c => visit s (ck_type c) (whole c)) s cs)).
Proof.
  intros H. unfold walkPNGChunks. rewrite (proj2 (isPNG_spec _)) by eauto. cbn [negb].
  apply png_walk; [done|]. rewrite length_app. lia.
Qed.

Lemma fold_png_drop cs out :
  foldl (fun s c => visit_png_drop s (ck_type c) (whole c)) out cs = out ++ png_render (png_kept cs).
Proof.
  revert out. induction cs as [|c cs IH]; intros out; [cbn; by rewrite app_nil_r|]. cbn [foldl]. rewrite IH.
  unfold visit_png_drop, png_kept. rewrite filter_cons. case_bool_decide as E.
  - by rewrite decide_False by tauto.
  - rewrite decide_True by done. cbn. by rewrite <- app_assoc.
Qed.

Lemma fold_png_upright cs : Forall (fun c => ck_type c ∉ pngMetadataChunks) cs ->
  foldl (fun s c => visit_png_orientation s (ck_type c) (whole c)) (Some OrientationNormal) cs = Some OrientationNormal.
Proof.
  induction 1 as [|c cs Hc _ IH]; [done|]. cbn [foldl]. unfold visit_png_orientation at 2.
  rewrite bool_decide_eq_false_2; [exact IH|]. intros E. apply Hc. rewrite E. by left.
Qed.

Lemma IEND_not_metadata : IEND ∉ pngMetadataChunks.
Proof. apply (bool_decide_unpack _). vm_compute. done. Qed.

Lemma chunks_kept l cs : png_chunks l cs -> png_chunks (png_render (png_kept cs)) (png_kept cs).
Proof.
  induction 1 as [l Hl|c rest Hc Ht|c rest cs Hc Ht _ IH]; unfold png_kept.
  - by apply pc_end.
  - rewrite filter_cons, decide_True by (rewrite Ht; apply IEND_not_metadata). cbn. by apply pc_iend.
  - rewrite filter_cons. destruct (decide _); [|exact IH]. cbn. by apply pc_more.
Qed.

Lemma png_kept_len l cs : png_chunks l cs -> len (png_render (png_kept cs)) <= len l.
Proof.
  induction 1 as [l Hl|c rest Hc Ht|c rest cs Hc Ht _ IH]; unfold png_kept.
  - pose proof (len_nonneg l). unfold len. cbn. lia.
  - rewrite filter_cons, decide_True by (rewrite Ht; apply IEND_not_metadata).
    unfold png_render. cbn [base.filter list_filter map concat]. rewrite !len_app, (@len_nil byte).
    pose proof (len_nonneg rest). lia.
  - rewrite filter_cons. pose proof (len_nonneg (whole c)). destruct (decide _).
    + unfold png_render in *. cbn [map concat]. rewrite !len_app. unfold png_kept in IH. lia.
    + rewrite len_app. unfold png_kept in IH. lia.
Qed.

Lemma dropPNG_total data : exists r, dropPNGMetadataChunks data = Some r.
Proof.
  unfold dropPNGMetadataChunks. destruct (isPNG data) eqn:Ep; [|unfold walkPNGChunks; rewrite Ep; eauto].
  apply isPNG_spec in Ep as [l ->].
  destruct (png_cases visit_png_drop l (S (length (pngSignature ++ l))) pngSignature pngSignature) as [(cs & H)|E].
  { rewrite length_app. lia. }
  - rewrite (walkPNG_of_chunks _ _ _ _ H). eauto.
  - unfold walkPNGChunks. rewrite (proj2 (isPNG_spec _)) by eauto. cbn [negb]. rewrite E. eauto.
Qed.

(** Stripping an upright PNG never panics and always ends, whatever the bytes.
    It is refused exactly when the chunks behind the signature do not fit the file;
    otherwise the result is the signature and every chunk that is not metadata, in
    order and byte for byte with its checksum, nothing of what follows IEND, and
    never longer; it holds no metadata chunk, reads as upright, and stripping it
    again changes nothing. *)
Theorem dropPNG_spec data :
  match dropPNGMetadataChunks data with
  | None => False
  | Some (GoErr _) => forall cs, ~ png data cs
  | Some (GoOk out) => exists cs,
      png data cs /\ out = pngSignature ++ png_render (png_kept cs) /\ len out <= len data /\
      png out (png_kept cs) /\ Forall (fun c => ck_type c ∉ pngMetadataChunks) (png_kept cs) /\
      pngOrientation out = Some (GoOk OrientationNormal) /\ dropPNGMetadataChunks out = Some (GoOk out)
  end.
Proof.
  unfold dropPNGMetadataChunks at 1. destruct (isPNG data) eqn:Ep.
  - apply isPNG_spec in Ep as [l ->].
    destruct (png_cases visit_png_drop l (S (length (pngSignature ++ l))) pngSignature pngSignature) as [(cs & H)|E].
    { rewrite length_app. lia. }
    + rewrite (walkPNG_of_chunks visit_png_drop l cs _ H), fold_png_drop. exists cs.
      pose proof (chunks_kept l cs H) as Hk. pose proof (png_kept_len l cs H).
      assert (Hn : Forall (fun c => ck_type c ∉ pngMetadataChunks) (png_kept cs)).
      { apply Forall_forall. intros c Hin. by apply list_elem_of_filter in Hin as [? _]. }
      split; [by exists l|]. split; [done|]. split; [rewrite !len_app; lia|]. split; [eexists; split; [reflexivity | done]|].
      split; [done|]. split.
      * unfold pngOrientation. rewrite (walkPNG_of_chunks _ _ _ _ Hk). rewrite fold_png_upright by done. done.
      * unfold dropPNGMetadataChunks. rewrite (walkPNG_of_chunks _ _ _ _ Hk), fold_png_drop.
        do 4 f_equal. unfold png_kept. by rewrite list_filter_filter_l.
    + unfold walkPNGChunks. rewrite (proj2 (isPNG_spec _)) by eauto. cbn [negb]. rewrite E. intros cs (l' & El & H).
      apply app_inv_head in El as <-. pose proof (png_walk visit_png_drop l cs H (S (length (pngSignature ++ l))) pngSignature pngSignature) as E2.
      rewrite E in E2. discriminate E2. rewrite length_app. lia.
  - unfold walkPNGChunks. rewrite Ep. cbn. intros cs (l & -> & _). by rewrite (proj2 (isPNG_spec _)) in Ep by eauto.
Qed.

(** ** Pixels *)

Section pixels.
Context {Color : Type} (blank : Color) (rgba : Color -> Color).
Implicit Types (src : @Image Color).

(** The orientation that undoes another. *)
Definition inverse (o : Orientation) : Orientation :=
  if o =? OrientationRotate90 then OrientationRotate270
  else if o =? OrientationRotate270 then OrientationRotate90 else o.

Ltac orientations o :=
  let H := fresh in assert (H : o = 2 \/ o = 3 \/ o = 4 \/ o = 5 \/ o = 6 \/ o = 7 \/ o = 8) by lia;
  destruct H as [->|[->|[->|[->|[->|[->| ->]]]]]].

Lemma NeedsTransform_range o : NeedsTransform o = true <-> 1 < o < 9.
Proof. unfold NeedsTransform, OrientationNormal, orientationFirstInvalid. rewrite andb_true_iff, Z.gtb_ltb, !Z.ltb_lt. lia. Qed.

Lemma mapPixel_bounds o x y w h : 1 < o < 9 -> 0 <= x < w -> 0 <= y < h ->
  let '(dx, dy) := mapPixel o x y w h in
  if swapped o then 0 <= dx < h /\ 0 <= dy < w else 0 <= dx < w /\ 0 <= dy < h.
Proof. intros Ho Hx Hy. orientations o; cbn; lia. Qed.

Lemma mapPixel_inverse o x y w h : 1 < o < 9 ->
  let '(dx, dy) := mapPixel o x y w h in
  mapPixel (inverse o) dx dy (if swapped o then h else w) (if swapped o then w else h) = (x, y).
Proof. intros Ho. orientations o; cbn; f_equal; lia. Qed.

Lemma mapPixel_inj o x y x' y' w h : 1 < o < 9 -> mapPixel o x y w h = mapPixel o x' y' w h -> x = x' /\ y = y'.
Proof.
  intros Ho E. pose proof (mapPixel_inverse o x y w h Ho) as H1. pose proof (mapPixel_inverse o x' y' w h Ho) as H2.
  rewrite <- E in H2. destruct (mapPixel o x y w h). rewrite H1 in H2. by simplify_eq.
Qed.

(** Setting distinct keys, in any order. *)
Lemma foldl_insert {K V X} `{Countable K} (key : X -> K) (val : X -> V) (l : list X) (m : gmap K V) k :
  (forall x y, x ∈ l -> y ∈ l -> key x = key y -> val x = val y) ->
  foldl (fun m x => <[key x := val x]> m) m l !! k =
  match list_find (fun x => key x = k) l with Some (_, x) => Some (val x) | None => m !! k end.
Proof.
  revert m. induction l as [|x l IH]; intros m Hi; [done|]. cbn [foldl].
  rewrite IH by (intros; apply Hi; [by right.. | done]). cbn [list_find]. destruct (decide (key x = k)) as [E|E].
  - destruct (list_find _ l) as [[i y]|] eqn:F; cbn.
    + apply list_find_Some in F as (Hy & Ek & _). f_equal. apply Hi; [right; by apply list_elem_of_lookup_2 in Hy | left | congruence].
    + by rewrite <- E, lookup_insert_eq.
  - destruct (list_find _ l) as [[i y]|] eqn:F; cbn; [done|]. by rewrite lookup_insert_ne.
Qed.

Definition grid (w h : Z) : list (Z * Z) := y ← seqZ 0 h; (fun x => (x, y)) <$> seqZ 0 w.

Lemma elem_of_grid w h x y : (x, y) ∈ grid w h <-> 0 <= x < w /\ 0 <= y < h.
Proof.
  unfold grid. rewrite list_elem_of_bind. split.
  - intros (y' & Hx & Hy). apply list_elem_of_fmap in Hx as (x' & [= <- <-] & Hx). rewrite !elem_of_seqZ in *. lia.
  - intros [Hx Hy]. exists y. split; [|apply elem_of_seqZ; lia]. apply list_elem_of_fmap. exists x. split; [done|].
    apply elem_of_seqZ. lia.
Qed.

Lemma set_pixels_grid o src :
  set_pixels rgba o src = foldl (fun dst p =>
    <[mapPixel o p.1 p.2 (im_W src) (im_H src) := rgba (im_At src (im_MinX src + p.1) (im_MinY src + p.2))]> dst) ∅
    (grid (im_W src) (im_H src)).
Proof.
  unfold set_pixels, grid. generalize (∅ : gmap (Z * Z) Color). induction (seqZ 0 (im_H src)) as [|y ys IH]; intros m; [done|].
  cbn [foldl]. rewrite IH. rewrite bind_cons, foldl_app. f_equal.
  clear. revert m. induction (seqZ 0 (im_W src)) as [|x xs IH]; intros m; [done|]. cbn. apply IH.
Qed.

Lemma set_pixels_lookup o src x y : 1 < o < 9 -> 0 <= x < im_W src -> 0 <= y < im_H src ->
  set_pixels rgba o src !! mapPixel o x y (im_W src) (im_H src) = Some (rgba (im_At src (im_MinX src + x) (im_MinY src + y))).
Proof.
  intros Ho Hx Hy. rewrite set_pixels_grid.
  rewrite (foldl_insert (fun p : Z * Z => mapPixel o p.1 p.2 (im_W src) (im_H src))
    (fun p : Z * Z => rgba (im_At src (im_MinX src + p.1) (im_MinY src + p.2)))).
  - destruct (list_find _ _) as [[i [x' y']]|] eqn:F.
    + apply list_find_Some in F as (_ & E & _). apply mapPixel_inj in E as [-> ->]; [done | done].
    + exfalso. apply list_find_None in F. rewrite Forall_forall in F. apply (F (x, y)); [by apply elem_of_grid | done].
  - intros [x1 y1] [x2 y2] _ _ E. by apply mapPixel_inj in E as [-> ->].
Qed.

Lemma applyOrientation_at o src x y : 1 < o < 9 -> 0 <= x < im_W src -> 0 <= y < im_H src ->
  let '(dx, dy) := mapPixel o x y (im_W src) (im_H src) in
  im_At (applyOrientation blank rgba src o) dx dy = rgba (im_At src (im_MinX src + x) (im_MinY src + y)).
Proof.
  intros Ho Hx Hy. pose proof (set_pixels_lookup o src x y Ho Hx Hy) as E. destruct (mapPixel _ _ _ _ _) as [dx dy].
  unfold applyOrientation. rewrite (proj2 (NeedsTransform_range o) Ho). cbn. by rewrite E.
Qed.

(** Turning the pixels loses none.  For each of the seven orientations that need
    it, the picture has its sides exchanged exactly when the axes are; every source
    pixel lands where the orientation puts it, and every pixel of the result is one
    of them, so none is left blank; and the inverse orientation brings every pixel
    back to where it was.  Any other orientation leaves the picture as it is. *)
Theorem applyOrientation_spec src o :
  let dst := applyOrientation blank rgba src o in
  let w := im_W src in let h := im_H src in
  if NeedsTransform o then
    (im_W dst = (if swapped o then h else w) /\ im_H dst = (if swapped o then w else h)) /\
    (forall x y, 0 <= x < w -> 0 <= y < h ->
       let '(dx, dy) := mapPixel o x y w h in
       (0 <= dx < im_W dst /\ 0 <= dy < im_H dst) /\ im_At dst dx dy = rgba (im_At src (im_MinX src + x) (im_MinY src + y))) /\
    (forall dx dy, 0 <= dx < im_W dst -> 0 <= dy < im_H dst ->
       exists x y, 0 <= x < w /\ 0 <= y < h /\ mapPixel o x y w h = (dx, dy)) /\
    (forall x y, 0 <= x < w -> 0 <= y < h ->
       im_At (applyOrientation blank rgba dst (inverse o)) x y = rgba (rgba (im_At src (im_MinX src + x) (im_MinY src + y))))
  else dst = src.
Proof.
  intros dst w h. destruct (NeedsTransform o) eqn:En; [|unfold dst, applyOrientation; by rewrite En].
  pose proof (proj1 (NeedsTransform_range o) En) as Ho.
  assert (Ed : (im_W dst = (if swapped o then h else w) /\ im_H dst = (if swapped o then w else h)) /\ im_MinX dst = 0 /\ im_MinY dst = 0).
  { unfold dst, applyOrientation. rewrite En. done. }
  destruct Ed as ([Ew Eh] & Ex0 & Ey0). split; [done|]. split; [|split].
  - intros x y Hx Hy. pose proof (mapPixel_bounds o x y w h Ho Hx Hy) as B.
    pose proof (applyOrientation_at o src x y Ho Hx Hy) as A. unfold w, h in *.
    destruct (mapPixel o x y (im_W src) (im_H src)) as [dx dy]. rewrite Ew, Eh. split; [by destruct (swapped o) | exact A].
  - intros dx dy Hx Hy. rewrite Ew in Hx. rewrite Eh in Hy. clearbody w h. clear -Ho Hx Hy.
    orientations o; cbn in *;
      [exists (w - 1 - dx), dy | exists (w - 1 - dx), (h - 1 - dy) | exists dx, (h - 1 - dy) | exists dy, dx
      | exists dy, (h - 1 - dx) | exists (w - 1 - dy), (h - 1 - dx) | exists (w - 1 - dy), dx];
      (split; [lia|]; split; [lia|]; f_equal; lia).
  - intros x y Hx Hy. pose proof (mapPixel_bounds o x y w h Ho Hx Hy) as B.
    pose proof (applyOrientation_at o src x y Ho Hx Hy) as A. pose proof (mapPixel_inverse o x y w h Ho) as I.
    unfold w, h in *. destruct (mapPixel o x y (im_W src) (im_H src)) as [dx dy].
    assert (Hi : 1 < inverse o < 9) by (clear -Ho; orientations o; split; reflexivity).
    pose proof (applyOrientation_at (inverse o) dst dx dy Hi) as A2. rewrite Ew, Eh, I in A2.
    rewrite A2; [|by destruct (swapped o), B..]. rewrite Ex0, Ey0, !Z.add_0_l. f_equal. exact A.
Qed.
End pixels.

(** ** The whole of Strip *)

(** What of a JPEG or a PNG is metadata: application segments and comments, by the
    numbers of their markers; EXIF and text chunks, by their names. *)
Definition metadata_segment (s : Segment) : Prop := 224 <= u8 s.1 <= 239 \/ u8 s.1 = 254.
#[export] Instance metadata_segment_dec s : Decision (metadata_segment s).
Proof. unfold metadata_segment. apply _. Defined.

Definition named (name : string) (c : Chunk) : Prop := ck_type c = list_byte_of_string name.
#[export] Instance named_dec name c : Decision (named name c).
Proof. unfold named. apply _. Defined.

Definition metadata_chunk (c : Chunk) : Prop := named "eXIf" c \/ named "tEXt" c \/ named "iTXt" c \/ named "zTXt" c.
#[export] Instance metadata_chunk_dec c : Decision (metadata_chunk c).
Proof. unfold metadata_chunk. apply _. Defined.

Definition picture_segments (segs : list Segment) : list Segment := base.filter (fun s => ~ metadata_segment s) segs.
Definition picture_chunks (cs : list Chunk) : list Chunk := base.filter (fun c => ~ metadata_chunk c) cs.

Lemma kept_picture segs : kept segs = picture_segments segs.
Proof.
  unfold kept, picture_segments. apply list_filter_iff. intros [m p]. unfold metadata_segment, isMetadataMarker. cbn [fst].
  change (u8 markerAPP0) with 224. change (u8 markerAPPF) with 239. change (u8 markerCOM) with 254.
  rewrite orb_false_iff, andb_false_iff, !Z.leb_gt, Z.eqb_neq. lia.
Qed.

Lemma png_kept_picture cs : png_kept cs = picture_chunks cs.
Proof.
  unfold png_kept, picture_chunks. apply list_filter_iff. intros c. unfold metadata_chunk, named, pngMetadataChunks.
  rewrite !not_elem_of_cons. pose proof (@not_elem_of_nil (list byte) (ck_type c)). split; [intros (? & ? & ? & ? & _); tauto | tauto].
Qed.

(** The segment an EXIF block is in. *)
Definition exif_prefix : list byte := list_byte_of_string "Exif" ++ [x00; x00].
Definition exif_segment (block : list byte) : Segment := (xe1, exif_prefix ++ block).
Definition no_exif (s : Segment) : Prop := forall block, s <> exif_segment block.

(** The orientation a file claims: that of the first EXIF segment of a JPEG, which has
    to be well formed up to there; that of the last eXIf chunk of a PNG, whose block
    may repeat the prefix; and upright where there is none. *)
Definition bare (block : list byte) : list byte := if decide (take 6 block = exif_prefix) then drop 6 block else block.

Definition claims (f : Format) (data : list byte) (o : Z) : Prop :=
  match f with
  | FormatJPEG => exists l before, data = [xff; xd8] ++ l /\ Forall no_exif before /\
      ((exists block, jpeg_read l (before ++ [exif_segment block]) /\ o = tiff_orientation block) \/
       (exists e t, jpeg_header l before e t /\ o = 1))
  | FormatPNG => exists cs, png data cs /\
      o = match last (base.filter (named "eXIf") cs) with Some c => tiff_orientation (bare (ck_data c)) | None => 1 end
  end.

(** The file without its metadata: what is left of its header or of its chunks, and of
    a JPEG what follows the header. *)
Definition stripped (f : Format) (data out : list byte) : Prop :=
  match f with
  | FormatJPEG => exists segs e t, jpeg data segs e t /\ out = [xff; xd8] ++ render (picture_segments segs) ++ t /\
      (e = AtScan -> jpeg out (picture_segments segs) AtScan t)
  | FormatPNG => exists cs, png data cs /\ out = pngSignature ++ png_render (picture_chunks cs) /\ png out (picture_chunks cs)
  end.

Lemma visit_exif o block : visit_orientation o xe1 (exif_prefix ++ block) = (orientationFromEXIF block, false).
Proof.
  unfold visit_orientation. change (u8 xe1 =? u8 markerAPP1) with true. cbn [negb orb].
  rewrite len_app. change (len exif_prefix) with 6. change (len exifHeader) with 6. pose proof (len_nonneg block).
  rewrite (proj2 (Z.ltb_ge _ _)) by lia. unfold has_exif_header. by rewrite bool_decide_eq_true_2.
Qed.

Lemma visit_other o s : no_exif s -> visit_orientation o s.1 s.2 = (o, true).
Proof.
  destruct s as [m p]. intros Hn. unfold visit_orientation. cbn [fst snd]. rewrite u8_eqb. case_bool_decide as Em; cbn [negb orb]; [|done].
  destruct (len p <? len exifHeader); [done|]. unfold has_exif_header. case_bool_decide as Eh; [|done]. exfalso.
  apply (Hn (drop 6 p)). unfold exif_segment. rewrite Em. f_equal. rewrite <- (take_drop 6 p) at 1. f_equal. exact Eh.
Qed.

Lemma no_exif_dec s : no_exif s \/ exists block, s = exif_segment block.
Proof.
  destruct s as [m p]. destruct (decide (m = xe1)) as [->|Hm]; [|left; by intros block [= ->]].
  destruct (decide (take 6 p = exif_prefix)) as [Hp|Hp].
  - right. exists (drop 6 p). unfold exif_segment. by rewrite <- Hp, take_drop.
  - left. intros block E. apply Hp. by injection E as ->.
Qed.

(** The visitor reads the first EXIF segment there is. *)
Lemma run_orientation segs o :
  (Forall no_exif segs /\ run_visit visit_orientation o segs = (o, false)) \/
  exists before block after, segs = before ++ exif_segment block :: after /\ Forall no_exif before /\
    run_visit visit_orientation o segs = (orientationFromEXIF block, true).
Proof.
  induction segs as [|s segs IH]; [left; split; [constructor | done]|]. destruct (no_exif_dec s) as [Hs|[block ->]].
  - assert (E : run_visit visit_orientation o (s :: segs) = run_visit visit_orientation o segs).
    { destruct s as [m p]. cbn [run_visit]. pose proof (visit_other o (m, p) Hs) as V. cbn [fst snd] in V. by rewrite V. }
    rewrite E. destruct IH as [[Hn IH]|(before & block & after & -> & Hn & IH)]; [left | right].
    + split; [by constructor | done].
    + exists (s :: before), block, after. split_and!; [done | by constructor | done].
  - right. exists [], block, segs. split_and!; [done | constructor |]. unfold exif_segment. cbn [run_visit]. by rewrite visit_exif.
Qed.

Lemma read_prefix l segs : jpeg_read l segs -> forall a b, segs = a ++ b -> jpeg_read l a.
Proof.
  induction 1 as [l|k m rest segs Hm _ IH|k m payload rest segs Hm Hp _ IH]; intros a b E.
  - symmetry in E. apply app_nil in E as [-> _]. apply rd_stop.
  - apply rd_alone; [done | by eapply IH].
  - destruct a as [|x a]; [apply rd_stop|]. injection E as <- E. apply rd_segment; [done..|]. by eapply IH.
Qed.

Lemma header_read l segs e t : jpeg_header l segs e t -> forall a s b, segs = a ++ s :: b -> ordinary s.1 = true -> jpeg_read l (a ++ [s]).
Proof.
  induction 1 as [l Hl|k|k rest|k m rest segs e t Hm Hh IH|k payload rest Hp|k m payload rest segs e t Hm Hp Hh IH]; intros a s b E Hs;
    try (by destruct a).
  - apply rd_alone; [done | by eapply IH].
  - destruct a as [|x [|y a]]; [by injection E as <- _ | done | done].
  - destruct a as [|x a]; injection E as <- E; (apply rd_segment; [done..|]); [apply rd_stop | by eapply IH].
Qed.

Lemma read_fits l segs : jpeg_read l segs -> Forall (fun s : Segment => fits s.2) segs.
Proof. induction 1; [constructor | done | by constructor]. Qed.

Lemma read_block l before block : jpeg_read l (before ++ [exif_segment block]) -> orientationFromEXIF block = Some (tiff_orientation block).
Proof.
  intros H. apply read_fits, Forall_app in H as [_ H]. apply Forall_cons in H as [H _]. apply orientationFromEXIF_tiff.
  unfold fits, exif_segment in H. cbn [snd] in H. rewrite len_app in H. change (len exif_prefix) with 6 in H. change (2 ^ 32) with 4294967296. lia.
Qed.

(** What the reader of orientations makes of a file of the format. *)
Lemma jpegOrientation_claims l : exists r, jpegOrientation ([xff; xd8] ++ l) = Some r /\
  match r with
  | GoOk o => claims FormatJPEG ([xff; xd8] ++ l) o
  | GoErr e => e = ErrMalformed /\ forall segs e t, ~ jpeg ([xff; xd8] ++ l) segs e t
  end.
Proof.
  unfold jpegOrientation, walkJPEGSegments. change (isJPEG ([xff; xd8] ++ l)) with true. cbn [negb].
  change 2 with (len [xff; markerSOI]). change xd8 with markerSOI. set (fuel := S (length ([xff; markerSOI] ++ l))).
  assert (Walk : forall segs e t, jpeg_header l segs e t -> exists off,
      walk_loop visit_orientation fuel ([xff; markerSOI] ++ l) (len [xff; markerSOI]) (Some OrientationNormal) =
      Some (GoOk (off, (run_visit visit_orientation (Some OrientationNormal) segs).1))).
  { intros segs e t H. destruct (header_walk visit_orientation l segs e t H fuel [xff; markerSOI] (Some OrientationNormal)) as (off & E & _);
      [unfold fuel; cbn; lia | by exists off]. }
  assert (Read : forall segs, (forall a block b, segs = a ++ exif_segment block :: b -> jpeg_read l (a ++ [exif_segment block])) ->
      Forall no_exif segs \/ exists block, (run_visit visit_orientation (Some OrientationNormal) segs).1 = Some (tiff_orientation block) /\
        claims FormatJPEG ([xff; markerSOI] ++ l) (tiff_orientation block)).
  { intros segs R. destruct (run_orientation segs (Some OrientationNormal)) as [[Hn _]|(before & block & after & E & Hn & ->)]; [by left | right].
    exists block. specialize (R before block after E). split; [by apply (read_block l before)|].
    exists l, before. split_and!; [done | done | left; by exists block]. }
  destruct (walk_cases visit_orientation l fuel [xff; markerSOI] (Some OrientationNormal)) as [(segs & e & t & H)|(r & E & _ & Hr)];
    [unfold fuel; cbn; lia | |].
  - destruct (Walk segs e t H) as (off & ->). cbn [mbind option_bind].
    destruct (Read segs) as [Hn|(block & -> & C)]; [intros a block b Es; by eapply header_read | | by eexists].
    destruct (run_orientation segs (Some OrientationNormal)) as [[_ ->]|(before & block & after & -> & _)].
    + eexists. split; [done|]. exists l, segs. split_and!; [done | done | right; by exists e, t].
    + apply Forall_app in Hn as [_ Hn]. apply Forall_cons in Hn as [Hn _]. by destruct (Hn block).
  - rewrite E. cbn [mbind option_bind]. destruct r as [[off s']|err].
    + destruct Hr as (segs & Hread & Hv).
      destruct (Read segs) as [Hn|(block & Eb & C)]; [intros a block b ->; eapply read_prefix; [exact Hread|]; by rewrite <- app_assoc | |].
      * destruct (run_orientation segs (Some OrientationNormal)) as [[_ Ev]|(before & block & after & -> & _)]; [by rewrite Ev in Hv|].
        apply Forall_app in Hn as [_ Hn]. apply Forall_cons in Hn as [Hn _]. by destruct (Hn block).
      * rewrite Hv in Eb. cbn [fst] in Eb. rewrite Eb. by eexists.
    + eexists. split; [done|]. split; [done|]. intros segs e t (l' & El & H). apply app_inv_head in El as <-.
      destruct (Walk segs e t H) as (off & E'). by rewrite E in E'.
Qed.

Lemma visit_png_exif o c : chunk_ok c -> named "eXIf" c -> is_Some o ->
  visit_png_orientation o (ck_type c) (whole c) = Some (tiff_orientation (bare (ck_data c))).
Proof.
  intros Hc Hn [v ->]. pose proof (len_whole c Hc) as Lw. pose proof (len_nonneg (ck_data c)) as Hd. destruct Hc as (H1 & H2 & H3).
  unfold visit_png_orientation. rewrite bool_decide_eq_true_2 by exact Hn. cbn [negb mbind option_bind].
  unfold pngChunkHeaderLen, pngChunkCRCLen. rewrite slice_take by lia. cbn [mbind option_bind].
  replace (take (Z.to_nat (len (whole c) - 4 - 8)) (drop (Z.to_nat 8) (whole c))) with (ck_data c).
  2: { replace (Z.to_nat (len (whole c) - 4 - 8)) with (length (ck_data c)) by (unfold len in *; lia).
       unfold whole. rewrite app_assoc.
       replace (Z.to_nat 8) with (length (be32 (len (ck_data c)) ++ ck_type c)) by (rewrite length_app, H1; reflexivity).
       by rewrite drop_app_length, take_app_length. }
  rewrite orientationFromEXIF_tiff.
  - do 2 f_equal. unfold bare, has_exif_header. change (length exifHeader) with 6%nat. change exifHeader with exif_prefix at 1 2.
    destruct (decide (take 6 (ck_data c) = exif_prefix)) as [E|E].
    + rewrite bool_decide_eq_true_2 by exact E. rewrite (proj2 (Z.leb_le _ _)); [done|].
      change (len exif_prefix) with 6. rewrite <- (take_drop 6 (ck_data c)), E, len_app. change (len exif_prefix) with 6.
      pose proof (len_nonneg (drop 6 (ck_data c))). lia.
    + rewrite bool_decide_eq_false_2 by exact E. by rewrite andb_false_r.
  - destruct (_ && _); [|lia]. unfold len in *. rewrite length_drop. lia.
Qed.

Lemma fold_png_orientation cs o : Forall chunk_ok cs ->
  foldl (fun s c => visit_png_orientation s (ck_type c) (whole c)) (Some o) cs =
  Some (match last (base.filter (named "eXIf") cs) with Some c => tiff_orientation (bare (ck_data c)) | None => o end).
Proof.
  intros H. revert o. induction H as [|c cs Hc _ IH]; intros o; [done|]. cbn [foldl]. rewrite filter_cons.
  destruct (decide (named "eXIf" c)) as [Hn|Hn].
  - rewrite visit_png_exif, IH by done. rewrite last_cons. by destruct (last _).
  - unfold visit_png_orientation at 2. rewrite bool_decide_eq_false_2 by exact Hn. cbn [negb]. by rewrite IH.
Qed.

Lemma png_chunks_ok l cs : png_chunks l cs -> Forall chunk_ok cs.
Proof.
  induction 1 as [l _|c rest Hc _|c rest cs Hc _ _ IH].
  - apply Forall_nil_2.
  - apply Forall_cons_2; [done | apply Forall_nil_2].
  - by apply Forall_cons_2.
Qed.

Lemma pngOrientation_claims l : exists r, pngOrientation (pngSignature ++ l) = Some r /\
  match r with
  | GoOk o => claims FormatPNG (pngSignature ++ l) o
  | GoErr e => e = ErrMalformed /\ forall cs, ~ png (pngSignature ++ l) cs
  end.
Proof.
  unfold pngOrientation.
  assert (G : forall cs, png_chunks l cs -> walkPNGChunks visit_png_orientation (pngSignature ++ l) (Some OrientationNormal) =
    Some (GoOk (Some (match last (base.filter (named "eXIf") cs) with Some c => tiff_orientation (bare (ck_data c)) | None => 1 end)))).
  { intros cs H. rewrite (walkPNG_of_chunks _ _ _ _ H), fold_png_orientation by (by eapply png_chunks_ok). done. }
  destruct (png_cases visit_png_orientation l (S (length (pngSignature ++ l))) pngSignature (Some OrientationNormal)) as [(cs & H)|E].
  { rewrite length_app. lia. }
  - rewrite (G cs H). cbn [mbind option_bind]. eexists. split; [done|]. exists cs. split; [by exists l | done].
  - assert (W : walkPNGChunks visit_png_orientation (pngSignature ++ l) (Some OrientationNormal) = Some (GoErr ErrMalformed)).
    { unfold walkPNGChunks. by rewrite (proj2 (isPNG_spec _)) by eauto. }
    rewrite W. cbn [mbind option_bind]. eexists. split; [done|]. split; [done|]. intros cs (l' & El & H).
    apply app_inv_head in El as <-. rewrite (G cs H) in W. discriminate W.
Qed.

Lemma claims_range f data o : claims f data o -> 1 <= o <= 8.
Proof.
  destruct f; cbn [claims].
  - intros (l & before & _ & _ & [(block & _ & ->)|(e & t & _ & ->)]); [apply tiff_orientation_range | lia].
  - intros (cs & _ & ->). destruct (last _); [apply tiff_orientation_range | lia].
Qed.

(** The file has the grammar of its format. *)
Definition parses (f : Format) (data : list byte) : Prop :=
  match f with FormatJPEG => exists segs e t, jpeg data segs e t | FormatPNG => exists cs, png data cs end.

Definition signed (f : Format) (data : list byte) : Prop :=
  match f with FormatJPEG => exists l, data = [xff; xd8] ++ l | FormatPNG => exists l, data = pngSignature ++ l end.

Definition orient (f : Format) : list byte -> option (GoRes Orientation) :=
  match f with FormatJPEG => jpegOrientation | FormatPNG => pngOrientation end.
Definition dropper (f : Format) : list byte -> option (GoRes (list byte)) :=
  match f with FormatJPEG => dropJPEGMetadataSegments | FormatPNG => dropPNGMetadataChunks end.

Lemma orient_claims f data : signed f data -> exists r, orient f data = Some r /\
  match r with GoOk o => claims f data o | GoErr e => e = ErrMalformed /\ ~ parses f data end.
Proof.
  destruct f; intros [l ->].
  - destruct (jpegOrientation_claims l) as (r & E & H). exists r. split; [exact E|]. destruct r as [o|e]; [exact H|].
    destruct H as [He H]. split; [done|]. intros (segs & e' & t & Hp). by eapply H.
  - destruct (pngOrientation_claims l) as (r & E & H). exists r. split; [exact E|]. destruct r as [o|e]; [exact H|].
    destruct H as [He H]. split; [done|]. intros (cs & Hp). by eapply H.
Qed.

Lemma dropper_stripped f data : signed f data -> exists r, dropper f data = Some r /\
  match r with GoOk out => stripped f data out | GoErr e => e = ErrMalformed /\ ~ parses f data end.
Proof.
  destruct f; intros [l ->]; cbn [dropper].
  - pose proof (dropJPEG_spec ([xff; xd8] ++ l)) as S. destruct (dropJPEGMetadataSegments _) as [[out|e]|] eqn:E; [| |done].
    + eexists. split; [done|]. destruct S as (segs & e & t & Hj & Eo & _ & Hs). rewrite kept_picture in Eo, Hs.
      exists segs, e, t. split_and!; [done | done |]. intros He. by destruct (Hs He) as [? _].
    + eexists. split; [done|]. split; [|by intros (segs & e' & t & Hp); eapply S].
      unfold dropJPEGMetadataSegments, walkJPEGSegments in E. change (isJPEG ([xff; xd8] ++ l)) with true in E. cbn [negb] in E.
      change 2 with (len [xff; markerSOI]) in E.
      destruct (walk_cases visit_drop l (Datatypes.S (length ([xff; xd8] ++ l))) [xff; markerSOI] [xff; markerSOI])
        as [(segs & e' & t & H)|(r & E' & Hr & _)]; [cbn; lia | |].
      * exfalso. apply (S segs e' t). by exists l.
      * change [xff; xd8] with [xff; markerSOI] in E, E'. rewrite E' in E. rewrite (Hr never_stops_drop) in E. cbn in E. congruence.
  - pose proof (dropPNG_spec (pngSignature ++ l)) as S. destruct (dropPNGMetadataChunks _) as [[out|e]|] eqn:E; [| |done].
    + eexists. split; [done|]. destruct S as (cs & Hp & Eo & _ & Hk & _). rewrite png_kept_picture in Eo, Hk. by exists cs.
    + eexists. split; [done|]. split; [|by intros (cs & Hp); eapply S].
      unfold dropPNGMetadataChunks, walkPNGChunks in E. rewrite (proj2 (isPNG_spec _)) in E by eauto. cbn [negb] in E.
      destruct (png_cases visit_png_drop l (Datatypes.S (length (pngSignature ++ l))) pngSignature pngSignature) as [(cs & H)|E'].
      { rewrite length_app. lia. }
      * exfalso. apply (S cs). by exists l.
      * rewrite E' in E. congruence.
Qed.

Section strip.
Context {Color : Type} (blank : Color) (rgba : Color -> Color) (codecs : Codecs (Color := Color)).

(** What becomes of a file of a format. *)
Definition outcome (f : Format) (data : list byte) (r : GoRes StripResult) : Prop :=
  match r with
  | GoOk res =>
      sr_Format res = f /\ claims f data (sr_Orientation res) /\ 1 <= sr_Orientation res <= 8 /\
      (sr_ReEncoded res = true <-> sr_Orientation res <> 1) /\
      if sr_ReEncoded res
      then CheckDimensions codecs data MaxPixels = GoOk tt /\ exists src, Decode_ codecs f data = Some src /\
             Encode_ codecs f (applyOrientation blank rgba src (sr_Orientation res)) = Some (sr_Data res)
      else stripped f data (sr_Data res)
  | GoErr ErrUnsupportedFormat => False
  | GoErr ErrMalformed => ~ parses f data
  | GoErr ErrTooLarge | GoErr ErrCodec => exists o, claims f data o /\ o <> 1
  end.

Lemma stripWith_outcome f data : signed f data ->
  exists r, stripWith blank rgba codecs f (orient f) (dropper f) data = Some r /\ outcome f data r.
Proof.
  intros Hs. destruct (orient_claims f data Hs) as (r & Er & Hr). unfold stripWith. rewrite Er. cbn [mbind option_bind].
  destruct r as [o|e]; [|eexists; split; [done|]; by destruct Hr as [-> Hr]]. pose proof (claims_range f data o Hr) as Ho.
  assert (Hn : NeedsTransform o = true <-> o <> 1) by (rewrite NeedsTransform_range; lia).
  destruct (NeedsTransform o) eqn:En.
  - assert (H1 : o <> 1) by tauto. unfold CheckDimensions. destruct (DecodeConfig codecs data) as [[w h]|] eqn:Ed; [|by eexists; split; [done|]; exists o].
    destruct ((MaxPixels >? 0) && (w * h >? MaxPixels)) eqn:Em; [by eexists; split; [done|]; exists o|].
    destruct (Decode_ codecs f data) as [src|] eqn:Es; [|by eexists; split; [done|]; exists o].
    destruct (Encode_ codecs f _) as [out|] eqn:Eo; [|by eexists; split; [done|]; exists o].
    eexists. split; [done|]. cbn. unfold CheckDimensions. rewrite Ed, Em. split; [done|]. split; [done|]. split; [lia|]. split; [done|]. split; [done|]. by exists src.
  - destruct (dropper_stripped f data Hs) as (d & -> & Hd). cbn [mbind option_bind]. destruct d as [out|e]; [|eexists; split; [done|]; by destruct Hd as [-> Hd]].
    eexists. split; [done|]. cbn. split; [done|]. split; [done|]. split; [lia|]. by split.
Qed.

End strip.
