(* ===== verification/Crop.v ===== *)
(** * Pictures cut from a photo: images/productimage.go, derive.go, cutout.go

    Which pixels a box selects, the pictures of a product, the small ones a screen
    shows, and the picture without its background.  A picture is its bounds and its
    pixels; the decoders, the encoders and the scaling kernels of the standard library
    and of x/image are a [Pixels]. *)

From Stdlib Require Import Strings.Byte.
From S2P Require Import Prelude Gamification Images.

#[local] Open Scope list_scope.
#[local] Open Scope Z_scope.

Definition MaxProductImageSide : Z := 1024.
Definition PreviewSide : Z := 1600.
Definition derivedJPEGQuality : Z := 82.
Definition maxMaskPixels : Z := 16000000.
Definition maskTransparent : Z := 96.
Definition maskOpaque : Z := 160.

(** ** Rectangles: the image package *)

Record Rect := mkRect { r_MinX : Z; r_MinY : Z; r_MaxX : Z; r_MaxY : Z }.

Definition Dx (r : Rect) : Z := r_MaxX r - r_MinX r.
Definition Dy (r : Rect) : Z := r_MaxY r - r_MinY r.
Definition Empty (r : Rect) : bool := (r_MinX r >=? r_MaxX r) || (r_MinY r >=? r_MaxY r).
(** image.Rect swaps corners that are the wrong way round. *)
Definition Rect_of (x0 y0 x1 y1 : Z) : Rect := mkRect (Z.min x0 x1) (Z.min y0 y1) (Z.max x0 x1) (Z.max y0 y1).
Definition Intersect (r s : Rect) : Rect :=
  let t := mkRect (Z.max (r_MinX r) (r_MinX s)) (Z.max (r_MinY r) (r_MinY s)) (Z.min (r_MaxX r) (r_MaxX s)) (Z.min (r_MaxY r) (r_MaxY s)) in
  if Empty t then mkRect 0 0 0 0 else t.

(** ** Boxes *)

Record Box := mkBox { bx_X : float64; bx_Y : float64; bx_Width : float64; bx_Height : float64 }.

Definition f_zero : float64 := S754_zero false.
Definition f_one : float64 := S754_finite false 4503599627370496 (-52).

Definition f_finite (x : float64) : bool := match x with S754_zero _ | S754_finite _ _ _ => true | _ => false end.

(** math.Min(1, v), math.Max(0, v) *)
Definition f_min1 (v : float64) : float64 := match v with S754_nan => v | _ => if SFltb f_one v then f_one else v end.
Definition f_max0 (v : float64) : float64 := match v with S754_nan => v | S754_zero _ => f_zero | _ => if SFltb v f_zero then f_zero else v end.
Definition clamp01 (v : float64) : float64 := f_max0 (f_min1 v).

(** int(math.Ceil(x)), for the finite values the code passes *)
Definition int_ceil (x : float64) : Z := - int_floor (SFopp x).

(** The pixels from [v] to [v + extent] of an edge that is [n] pixels long. *)
Definition first_pixel (v : float64) (n : Z) : Z := int_floor (f_mul (clamp01 v) (float64_of_int n)).
Definition end_pixel (v extent : float64) (n : Z) : Z := int_ceil (f_mul (clamp01 (f_add v extent)) (float64_of_int n)).

(** [None] is ErrEmptyCrop. *)
Definition cropRect (bounds : Rect) (box : Box) : option Rect :=
  if negb (f_finite (bx_X box) && f_finite (bx_Y box) && f_finite (bx_Width box) && f_finite (bx_Height box)) then None
  else if SFleb (bx_Width box) f_zero || SFleb (bx_Height box) f_zero then None
  else
    let rect := Intersect
      (Rect_of (r_MinX bounds + first_pixel (bx_X box) (Dx bounds)) (r_MinY bounds + first_pixel (bx_Y box) (Dy bounds))
               (r_MinX bounds + end_pixel (bx_X box) (bx_Width box) (Dx bounds)) (r_MinY bounds + end_pixel (bx_Y box) (bx_Height box) (Dy bounds)))
      bounds in
    if Empty rect then None else Some rect.

Definition BoxSelectsNothing (box : Box) : bool := match cropRect (Rect_of 0 0 1 1) box with None => true | Some _ => false end.

(** ** Pictures *)

Class Pixels (Color : Type) := {
  (** image.Decode, whatever the registered format *)
  image_Decode : list byte -> option (@Image Color);
  (** what the two kernels draw into a picture of the given size *)
  CatmullRom : Z -> Z -> @Image Color -> Z -> Z -> Color;
  BiLinearGray : Z -> Z -> @Image Color -> Z -> Z -> Z;
  (** the planes of an image.YCbCr, read at a point *)
  planes : @Image Color -> option (Z -> Z -> Z * Z * Z);
  YCbCr : Z * Z * Z -> Color;
  NRGBA : Color -> Z * Z * Z * Z;
  of_NRGBA : Z * Z * Z * Z -> Color;
  Opaque : @Image Color -> bool;
  jpeg_Encode : Z -> @Image Color -> option (list byte);
}.

Inductive CropErr := ErrEmptyCrop | ErrUnusableMask | Failed (e : ImgErr).

Section pictures.
Context {Color : Type} `{Pixels Color} (blank : Color) (rgba : Color -> Color) (codecs : @Codecs Color).

Abbreviation Picture := (@Image Color).

Definition bounds_of (img : Picture) : Rect := mkRect (im_MinX img) (im_MinY img) (im_MinX img + im_W img) (im_MinY img + im_H img).

Definition Decode (data : list byte) (maxPixels : Z) : GoRes Picture :=
  match CheckDimensions codecs data maxPixels with
  | GoErr e => GoErr e
  | GoOk _ => match image_Decode data with Some img => GoOk img | None => GoErr ErrCodec end
  end.

(** SubImage: the pixels stay where they are. *)
Definition subImage (img : Picture) (rect : Rect) : Picture :=
  let r := Intersect rect (bounds_of img) in mkImage (r_MinX r) (r_MinY r) (Dx r) (Dy r) (im_At img).

Definition f_half : float64 := S754_finite false 4503599627370496 (-53).
(** int(math.Round(x)) of a number that is not negative: a half goes up, and below
    2^52 the sum is exact *)
Definition int_round (x : float64) : Z :=
  match x with
  | S754_finite false m e => if 0 <=? e then Z.pos m * 2 ^ e else (Z.pos m + 2 ^ (- e - 1)) / 2 ^ (- e)
  | _ => 0
  end.

Definition fitted (w h maxSide : Z) : Z * Z :=
  let scale := f_div (float64_of_int maxSide) (float64_of_int (Z.max w h)) in
  (Z.max 1 (int_round (f_mul (float64_of_int w) scale)), Z.max 1 (int_round (f_mul (float64_of_int h) scale))).

Definition scaled (tw th : Z) (img : Picture) : Picture := mkImage 0 0 tw th (CatmullRom tw th img).

Definition fitWithin (img : Picture) (maxSide : Z) : Picture :=
  if (im_W img <=? maxSide) && (im_H img <=? maxSide) then img
  else let '(tw, th) := fitted (im_W img) (im_H img) maxSide in scaled tw th img.

(** Strip, then decode; [None] is a panic of Strip. *)
Definition upright (data : list byte) : option (CropErr + StripResult * Picture) :=
  r ← Strip blank rgba codecs data;
  Some match r with
  | GoErr e => inl (Failed e)
  | GoOk stripped => match Decode (sr_Data stripped) MaxPixels with GoErr e => inl (Failed e) | GoOk img => inr (stripped, img) end
  end.

Definition encoded (format : Format) (orientation : Orientation) (img : Picture) : CropErr + StripResult :=
  match Encode_ codecs format img with
  | None => inl (Failed ErrCodec)
  | Some out => inr (mkStripResult out format orientation true)
  end.

Definition ProductImage (data : list byte) (box : option Box) : option (CropErr + StripResult) :=
  r ← upright data;
  Some match r with
  | inl e => inl e
  | inr (stripped, img) =>
    match (match box with None => Some img | Some box => subImage img <$> cropRect (bounds_of img) box end) with
    | None => inl ErrEmptyCrop
    | Some img => encoded (sr_Format stripped) (sr_Orientation stripped) (fitWithin img MaxProductImageSide)
    end
  end.

(** ** Small pictures: derive.go *)

Inductive Variant := VariantPreview | VariantThumb96 | VariantThumb192 | VariantThumb384 | VariantThumb768.

#[export] Instance variant_eq_dec : EqDecision Variant.
Proof. solve_decision. Defined.

Definition variant_name (v : Variant) : string :=
  match v with
  | VariantPreview => "preview" | VariantThumb96 => "thumb-96" | VariantThumb192 => "thumb-192"
  | VariantThumb384 => "thumb-384" | VariantThumb768 => "thumb-768"
  end%string.

(** thumbSides; a variant it does not hold has side 0 *)
Definition Side (v : Variant) : Z :=
  match v with VariantPreview => 0 | VariantThumb96 => 96 | VariantThumb192 => 192 | VariantThumb384 => 384 | VariantThumb768 => 768 end.

Definition PhotoVariants := [VariantPreview; VariantThumb96; VariantThumb192; VariantThumb384; VariantThumb768].
Definition RowVariants := [VariantThumb192; VariantThumb384].
Definition named_in (variants : list Variant) (s : string) : option Variant := List.find (fun v => String.eqb (variant_name v) s) variants.
Definition ParseVariant := named_in PhotoVariants.
Definition ParseRowVariant := named_in RowVariants.

Record Derived := mkDerived { de_Data : list byte; de_Format : Format; de_Width : Z; de_Height : Z }.

(** 1.5 * 1600 and 1.5 * 768 *)
Definition preview_margin : float64 := float64_of_int 2400.
Definition thumb_margin : float64 := float64_of_int 1152.

Definition preShrinkFactor (w h : Z) : Z :=
  let byPreview := f_div (float64_of_int (Z.max w h)) preview_margin in
  let byThumb := f_div (float64_of_int (Z.min w h)) thumb_margin in
  let f := int_trunc (if SFltb byThumb byPreview then byThumb else byPreview) in
  if f <? 2 then 1 else f.

(** The average of a plane over the block of a pixel, to the nearest. *)
Definition block_average (plane : Z -> Z -> Z) (x0 y0 f : Z) : Z :=
  let total := foldl (fun acc dy => foldl (fun acc dx => acc + plane (x0 + dx) (y0 + dy)) acc (seqZ 0 f)) 0 (seqZ 0 f) in
  (total + (f * f) / 2) / (f * f).

Definition boxShrink (img : Picture) (at_point : Z -> Z -> Z * Z * Z) (f : Z) : Picture :=
  mkImage 0 0 (im_W img / f) (im_H img / f) (fun x y =>
    let average plane := block_average (fun x y => plane (at_point x y)) (im_MinX img + x * f) (im_MinY img + y * f) f in
    YCbCr (average (fun p => p.1.1), average (fun p => p.1.2), average (fun p => p.2))).

Definition preShrunk (img : Picture) : Picture :=
  match planes img with
  | Some at_point => let f := preShrinkFactor (im_W img) (im_H img) in if 2 <=? f then boxShrink img at_point f else img
  | None => img
  end.

Definition centredSquare (img : Picture) : Picture :=
  let side := Z.min (im_W img) (im_H img) in
  if (side =? im_W img) && (side =? im_H img) then img
  else
    let x0 := im_MinX img + (im_W img - side) / 2 in
    let y0 := im_MinY img + (im_H img - side) / 2 in
    subImage img (Rect_of x0 y0 (x0 + side) (y0 + side)).

Definition scaleSquare (square : Picture) (side : Z) : Picture := if im_W square <=? side then square else scaled side side square.

Definition encodeDerived (img : Picture) (source : Format) : option Derived :=
  let png := match source with FormatPNG => negb (Opaque img) | FormatJPEG => false end in
  data ← (if png then Encode_ codecs FormatPNG img else jpeg_Encode derivedJPEGQuality img);
  Some (mkDerived data (if png then FormatPNG else FormatJPEG) (im_W img) (im_H img)).

Definition variant_of (src : Picture) (v : Variant) : Picture :=
  match v with VariantPreview => fitWithin src PreviewSide | _ => scaleSquare (centredSquare src) (Side v) end.

(** The variants of a picture, or the first error. *)
Definition variants_of (draw : Variant -> Picture) (source : Format) (vs : list Variant) : option (list (Variant * Derived)) :=
  mapM (fun v => d ← encodeDerived (draw v) source; Some (v, d)) vs.

Definition PhotoSet (data : list byte) : option (CropErr + list (Variant * Derived)) :=
  r ← upright data;
  Some match r with
  | inl e => inl e
  | inr (stripped, img) =>
    match variants_of (variant_of (preShrunk img)) (sr_Format stripped) PhotoVariants with Some set => inr set | None => inl (Failed ErrCodec) end
  end.

(** The crops of the rows, in the order of their ids; a box that selects nothing has
    none. *)
Definition row_set (img : Picture) (source : Format) (box : Box) : option (option (list (Variant * Derived))) :=
  match cropRect (bounds_of img) box with
  | None => Some None
  | Some rect => let square := centredSquare (subImage img rect) in Some <$> variants_of (fun v => scaleSquare square (Side v)) source RowVariants
  end.

Definition row_sets (img : Picture) (source : Format) (boxes : list (string * Box)) : option (list (string * list (Variant * Derived))) :=
  sets ← mapM (fun kv : string * Box => set ← row_set img source kv.2; Some (kv.1, set)) boxes;
  Some (omap (fun kv : string * option (list (Variant * Derived)) => pair kv.1 <$> kv.2) sets).

Definition RowSets (data : list byte) (boxes : list (string * Box)) : option (CropErr + list (string * list (Variant * Derived))) :=
  r ← upright data;
  Some match r with
  | inl e => inl e
  | inr (stripped, img) => match row_sets img (sr_Format stripped) boxes with Some sets => inr sets | None => inl (Failed ErrCodec) end
  end.

(** ** Cutouts: cutout.go *)

Definition maskAlpha (v : Z) : Z :=
  if v <=? maskTransparent then 0 else if v >=? maskOpaque then 255 else (v - maskTransparent) * 255 / (maskOpaque - maskTransparent).

(** The picture behind the mask, where it keeps something. *)
Definition masked (img : Picture) (rect : Rect) (gray : Z -> Z -> Z) : Picture :=
  mkImage 0 0 (Dx rect) (Dy rect) (fun x y =>
    let alpha := maskAlpha (gray x y) in
    if alpha =? 0 then of_NRGBA (0, 0, 0, 0)
    else
      let '(r, g, b, a) := NRGBA (im_At img (r_MinX rect + x) (r_MinY rect + y)) in
      of_NRGBA (r, g, b, (a * alpha / 255) mod 256)).

Definition keeps_some (rect : Rect) (gray : Z -> Z -> Z) : bool :=
  existsb (fun y => existsb (fun x => negb (maskAlpha (gray x y) =? 0)) (seqZ 0 (Dx rect))) (seqZ 0 (Dy rect)).

Definition Cutout (picture : list byte) (box : Box) (mask : list byte) : option (CropErr + StripResult) :=
  r ← upright picture;
  Some match r with
  | inl e => inl e
  | inr (stripped, img) =>
    match cropRect (bounds_of img) box with
    | None => inl ErrEmptyCrop
    | Some rect =>
      match Decode mask maxMaskPixels with
      | GoErr _ => inl ErrUnusableMask
      | GoOk probability =>
        let gray := BiLinearGray (Dx rect) (Dy rect) probability in
        if negb (keeps_some rect gray) then inl ErrUnusableMask
        else encoded FormatPNG (sr_Orientation stripped) (fitWithin (masked img rect gray) MaxProductImageSide)
      end
    end
  end.

End pictures.

(** ** What a box selects *)

(** A rectangle that a box selects has pixels, all of them in the picture. *)
Lemma cropRect_inside bounds box r : cropRect bounds box = Some r ->
  r_MinX bounds <= r_MinX r < r_MaxX r /\ r_MaxX r <= r_MaxX bounds /\
  r_MinY bounds <= r_MinY r < r_MaxY r /\ r_MaxY r <= r_MaxY bounds.
Proof.
  unfold cropRect. destruct (negb _); [done|]. destruct (_ || _); [done|]. cbv zeta. unfold Intersect. set (t := mkRect _ _ _ _).
  destruct (Empty t) eqn:E; [cbn; done|]. rewrite E. intros [= <-]. unfold Empty in E. apply orb_false_iff in E as [Ex Ey]. subst t. cbn in *.
  rewrite Z.geb_leb, Z.leb_gt in Ex, Ey. lia.
Qed.

(** A strip that is too thin for a pixel: at one size it selects something, at another
    nothing. *)
Lemma thin_box_selects_nothing_twice :
  let box := mkBox f_half f_zero (S754_finite false 4503599627370496 (-1000)) f_one in
  BoxSelectsNothing box = false /\ cropRect (Rect_of 0 0 2 2) box = None.
Proof. split; vm_compute; reflexivity. Qed.

Section sizes.
Context {Color : Type} `{Pixels Color}.

Abbreviation Picture := (@Image Color).

(** ** The sizes of the small pictures *)

Lemma subImage_inside (img : Picture) x0 y0 w h : 0 < w -> 0 < h ->
  im_MinX img <= x0 -> x0 + w <= im_MinX img + im_W img -> im_MinY img <= y0 -> y0 + h <= im_MinY img + im_H img ->
  subImage img (Rect_of x0 y0 (x0 + w) (y0 + h)) = mkImage x0 y0 w h (im_At img).
Proof.
  intros Hw Hh H1 H2 H3 H4. unfold subImage, Intersect, Rect_of, bounds_of. cbn. set (t := mkRect _ _ _ _).
  assert (t = mkRect x0 y0 (x0 + w) (y0 + h)) as -> by (subst t; f_equal; lia). unfold Empty. cbn.
  destruct (Z.geb_spec x0 (x0 + w)); [lia|]. destruct (Z.geb_spec y0 (y0 + h)); [lia|]. cbn. unfold Dx, Dy. cbn. f_equal; lia.
Qed.

(** The centred square is as large as the picture allows, shows the picture's own
    pixels, and leaves the same margin on both sides, up to one pixel. *)
Lemma centredSquare_spec (img : Picture) : 0 < im_W img -> 0 < im_H img ->
  let side := Z.min (im_W img) (im_H img) in
  let sq := centredSquare img in
  im_W sq = side /\ im_H sq = side /\ im_At sq = im_At img /\
  let left := im_MinX sq - im_MinX img in
  let top := im_MinY sq - im_MinY img in
  (0 <= left <= im_W img - side - left /\ im_W img - side - left <= left + 1) /\
  (0 <= top <= im_H img - side - top /\ im_H img - side - top <= top + 1).
Proof.
  intros Hw Hh side sq. subst sq side. unfold centredSquare.
  destruct (Z.eqb_spec (Z.min (im_W img) (im_H img)) (im_W img)), (Z.eqb_spec (Z.min (im_W img) (im_H img)) (im_H img)); cbn [andb]; [split_and!; try done; lia|..];
    (rewrite subImage_inside by (Z.to_euclidean_division_equations; lia); cbn; split_and!; try done; Z.to_euclidean_division_equations; lia).
Qed.

(** A thumbnail is a square, no larger than its side and than the picture. *)
Lemma thumbnail_size (src : Picture) v : 0 < im_W src -> 0 < im_H src -> v ≠ VariantPreview ->
  im_W (variant_of src v) = Z.min (Side v) (Z.min (im_W src) (im_H src)) /\ im_H (variant_of src v) = im_W (variant_of src v).
Proof.
  intros Hw Hh Hv. assert (variant_of src v = scaleSquare (centredSquare src) (Side v)) as -> by by destruct v.
  destruct (centredSquare_spec src Hw Hh) as (Ew & Eh & _). unfold scaleSquare. destruct (Z.leb_spec (im_W (centredSquare src)) (Side v)); cbn; lia.
Qed.

(** ** Cutouts *)

Lemma maskAlpha_range v : 0 <= maskAlpha v <= 255.
Proof. unfold maskAlpha, maskTransparent, maskOpaque. destruct (Z.leb_spec v 96); [lia|]. destruct (Z.geb_spec v 160); [lia|]. Z.to_euclidean_division_equations; lia. Qed.

Lemma maskAlpha_mono v v' : v <= v' -> maskAlpha v <= maskAlpha v'.
Proof.
  intros Hv. unfold maskAlpha, maskTransparent, maskOpaque.
  destruct (Z.leb_spec v 96), (Z.leb_spec v' 96), (Z.geb_spec v 160), (Z.geb_spec v' 160); Z.to_euclidean_division_equations; lia.
Qed.

(** A cutout redraws nothing: what it shows of the box is the picture's own color, no
    more opaque than it was, and the rest is transparent. *)
Lemma masked_keeps_colors (img : Picture) rect gray x y r g b a :
  NRGBA (im_At img (r_MinX rect + x) (r_MinY rect + y)) = (r, g, b, a) -> 0 <= a <= 255 ->
  exists a', 0 <= a' <= a /\
    im_At (masked img rect gray) x y = of_NRGBA (if maskAlpha (gray x y) =? 0 then (0, 0, 0, 0) else (r, g, b, a')).
Proof.
  intros E Ha. pose proof (maskAlpha_range (gray x y)) as Hr. exists (a * maskAlpha (gray x y) / 255). split; [Z.to_euclidean_division_equations; nia|].
  cbn [masked im_At]. rewrite E. destruct (maskAlpha (gray x y) =? 0); [done|]. rewrite Z.mod_small; [done|]. Z.to_euclidean_division_equations; nia.
Qed.

End sizes.
