(* ===== verification/ExpirySpec.v ===== *)
(** * What a recompute of derived dates does, row by row

    The cascade of expiry.go stated as one map over the batch table: exactly the
    rows marked 'derived' of the product (or of the products under a category)
    get the date its rules give, every other row and every other table is as it
    was, and running it again changes nothing. *)

From S2P Require Import Prelude Gamification Expiry Db Sample Tree Progress ShelfLife Containers Batches Ledger StockSteps Locations Products EditSteps.

#[local] Open Scope string_scope.
#[local] Open Scope list_scope.
#[local] Open Scope Z_scope.

(** ** One row *)

Definition is_derived (b : Batch) : bool := String.eqb (b_ExpirationSource b) ExpirationDerived.

(** The row with the date a resolution gives it. *)
Definition derive (r : Resolution) (b : Batch) : Batch :=
  set_expiration (date_col (DateFor (timestamp (b_CreatedAt b)) r)) ExpirationDerived b.

(** The batch table with the derived rows picked by [P] re-dated. *)
Definition rederive (P : uuid -> Batch -> bool) (r : Resolution) (m : gmap uuid Batch) : gmap uuid Batch :=
  map_imap (fun i b => Some (if P i b && is_derived b then derive r b else b)) m.

Lemma rederive_lookup P r m i :
  rederive P r m !! i = (fun b => if P i b && is_derived b then derive r b else b) <$> m !! i.
Proof. unfold rederive. rewrite map_lookup_imap. by destruct (m !! i). Qed.

Lemma derive_idemp r b : derive r (derive r b) = derive r b.
Proof. done. Qed.

Lemma rederive_idemp P r m :
  (forall i b, P i (derive r b) = P i b) -> rederive P r (rederive P r m) = rederive P r m.
Proof.
  intros HP. apply map_eq. intros i. rewrite !rederive_lookup. destruct (m !! i) as [b|]; [|done]. cbn. f_equal.
  destruct (P i b && is_derived b) eqn:E; [|by rewrite E].
  rewrite HP. apply andb_true_iff in E as [-> _]. done.
Qed.

(** ** The loop *)

Lemma update_derived_rows id date w n w' :
  update_derived id date w = (Ok n, w') ->
  w' = with_db (set_batches (alter (fun b => if is_derived b then set_expiration date ExpirationDerived b else b) id) (wdb w)) w /\
  n = match db_batches (wdb w) !! id with Some b => if is_derived b then 1 else 0 | None => 0 end.
Proof.
  unfold update_derived. intros H. tx_next H for d by get_db_ok as [-> ->].
  destruct (db_batches (wdb w) !! id) as [b|] eqn:Hb.
  - change (String.eqb (b_ExpirationSource b) ExpirationDerived) with (is_derived b) in H.
    destruct (is_derived b) eqn:Ed; tx_inv; (split; [|done]).
    + unfold set_batches. by rewrite (alter_as_insert _ _ _ _ Hb), Ed.
    + unfold set_batches. rewrite (alter_as_insert _ _ _ _ Hb), Ed, insert_id by done.
      destruct w' as [[] ? ? ?]. done.
  - tx_inv. split; [|done]. unfold set_batches. rewrite alter_missing by done. destruct w' as [[] ? ? ?]. done.
Qed.

(** Entries carry the creation time of the rows they name. *)
Definition stamped (l : list (uuid * Z)) (m : gmap uuid Batch) : Prop :=
  forall i c b, (i, c) ∈ l -> m !! i = Some b -> b_CreatedAt b = c.

Definition listed (l : list (uuid * Z)) (i : uuid) (_ : Batch) : bool := bool_decide (i ∈ l.*1).

Lemma set_batches_ext f g d : f (db_batches d) = g (db_batches d) -> set_batches f d = set_batches g d.
Proof. unfold set_batches. by intros ->. Qed.

Lemma set_batches_compose f g d : set_batches g (set_batches f d) = set_batches (fun m => g (f m)) d.
Proof. done. Qed.

Lemma set_batches_id f d : f (db_batches d) = db_batches d -> set_batches f d = d.
Proof. unfold set_batches. intros ->. by destruct d. Qed.

Lemma applyDerivedExpiry_rows l r w n w' :
  stamped l (db_batches (wdb w)) ->
  applyDerivedExpiry l r w = (Ok n, w') ->
  w' = with_db (set_batches (rederive (listed l) r) (wdb w)) w.
Proof.
  revert w n. induction l as [|[i c] l IH]; intros w n Hst H; cbn [applyDerivedExpiry] in H.
  - tx_inv. rewrite set_batches_id; [by destruct w'|]. apply map_eq. intros j. rewrite rederive_lookup.
    by destruct (db_batches (wdb w') !! j).
  - apply bind_ok in H as (k & w1 & H1 & H). apply bind_ok in H as (m & w2 & H2 & H). tx_inv1 H. subst.
    apply update_derived_rows in H1 as [-> _]. apply IH in H2.
    + rewrite H2. cbn [with_db wdb wids wnow wclock]. unfold with_db. cbn. f_equal. rewrite set_batches_compose.
      apply set_batches_ext. apply map_eq. intros j. rewrite !rederive_lookup, lookup_alter.
      destruct (decide (i = j)) as [->|Hne].
      * destruct (db_batches (wdb w) !! j) as [b|] eqn:Hb; [|done]. cbn. f_equal. unfold listed.
        rewrite (bool_decide_true (j ∈ ((j, c) :: l).*1)) by left. cbn [andb].
        rewrite <- (Hst j c b) by (done || left). destruct (is_derived b) eqn:Ed; [|by rewrite Ed, andb_false_r].
        change (set_expiration _ ExpirationDerived b) with (derive r b). by destruct (bool_decide (j ∈ l.*1)).
      * destruct (db_batches (wdb w) !! j) as [b|]; [|done]. cbn. f_equal. unfold listed.
        rewrite (bool_decide_ext (j ∈ ((i, c) :: l).*1) (j ∈ l.*1)); [done|]. rewrite fmap_cons, elem_of_cons. cbn. naive_solver.
    + intros j c' b Hin. cbn. rewrite lookup_alter. case_decide.
      * subst. destruct (db_batches (wdb w) !! j) as [b0|] eqn:Hb0; [|done]. cbn. intros [= <-].
        destruct (is_derived b0); cbn; (apply (Hst j c' b0); [by right | done]).
      * intros Hb. apply (Hst j c' b); [by right | done].
Qed.

(** How many rows the loop reports. *)
Lemma applyDerivedExpiry_count l r w n w' :
  (forall i c, (i, c) ∈ l -> exists b, db_batches (wdb w) !! i = Some b /\ is_derived b = true) ->
  applyDerivedExpiry l r w = (Ok n, w') -> n = Z.of_nat (length l).
Proof.
  revert w n. induction l as [|[i c] l IH]; intros w n Hd H; cbn [applyDerivedExpiry] in H; [by tx_inv|].
  apply bind_ok in H as (k & w1 & H1 & H). apply bind_ok in H as (m & w2 & H2 & H). tx_inv1 H. subst.
  destruct (Hd i c) as (b & Hb & Ed); [left|]. apply update_derived_rows in H1 as [-> ->]. rewrite Hb, Ed.
  apply IH in H2; [subst; cbn [length]; lia|]. intros j c' Hj.
  destruct (Hd j c') as (b' & Hb' & Ed'); [by right|]. cbn. rewrite lookup_alter. case_decide; [subst|eauto].
  rewrite Hb'. cbn [fmap option_fmap option_map]. rewrite Ed'. by eexists.
Qed.

(** The loop never fails. *)
Lemma applyDerivedExpiry_total l r w : exists n w', applyDerivedExpiry l r w = (Ok n, w').
Proof.
  revert w. induction l as [|[i c] l IH]; intros w; [by do 2 eexists|].
  assert (U : exists k w1, update_derived i (date_col (DateFor (timestamp c) r)) w = (Ok k, w1)).
  { unfold update_derived, mbind, tx_bind, get_db.
    destruct (db_batches (wdb w) !! i); [destruct (String.eqb _ _)|]; by do 2 eexists. }
  destruct U as (k & w1 & U). destruct (IH w1) as (m & w2 & L). exists (k + m), w2. cbn [applyDerivedExpiry].
  rewrite (bind_step _ _ _ _ _ U), (bind_step _ _ _ _ _ L). done.
Qed.

(** ** The rows of one product *)

Lemma elem_of_loadDerivedBatches d p i c :
  (i, c) ∈ loadDerivedBatches d p <->
  exists b, db_batches d !! i = Some b /\ b_ProductID b = p /\ is_derived b = true /\ c = b_CreatedAt b.
Proof.
  unfold loadDerivedBatches. rewrite list_elem_of_fmap. split.
  - intros ([j b] & [= -> ->] & H). apply elem_of_order_by_id, map_lookup_filter_Some in H as [H [Hp Hs]].
    exists b. unfold is_derived. cbn in *. rewrite Hs. by split_and!.
  - intros (b & Hb & Hp & Hd & ->). exists (i, b). split; [done|]. apply elem_of_order_by_id, map_lookup_filter_Some.
    unfold is_derived in Hd. apply String.eqb_eq in Hd. by split_and!.
Qed.

Lemma loadDerivedBatches_stamped d p : stamped (loadDerivedBatches d p) (db_batches d).
Proof. intros i c b H Hb. apply elem_of_loadDerivedBatches in H as (b' & Hb' & _ & _ & ->). congruence. Qed.

Lemma listed_derived d p i b :
  db_batches d !! i = Some b ->
  listed (loadDerivedBatches d p) i b && is_derived b = (b_ProductID b =? p) && is_derived b.
Proof.
  intros Hb. destruct (is_derived b) eqn:Ed; [|by rewrite !andb_false_r]. rewrite !andb_true_r. unfold listed.
  apply eq_true_iff_eq. rewrite bool_decide_eq_true, Z.eqb_eq, list_elem_of_fmap. split.
  - intros ([j c] & -> & H). apply elem_of_loadDerivedBatches in H as (b' & Hb' & Hp & _). cbn in *. congruence.
  - intros E. exists (i, b_CreatedAt b). split; [done|]. apply elem_of_loadDerivedBatches. by exists b.
Qed.

(** Every row of the product, as the cascade leaves it. *)
Definition of_product (p : uuid) (_ : uuid) (b : Batch) : bool := b_ProductID b =? p.

(** The listed rows are those of the table, once each. *)
Lemma NoDup_loadDerivedBatches d p : NoDup (loadDerivedBatches d p).
Proof.
  apply (NoDup_fmap_1 fst). unfold loadDerivedBatches. cbv zeta. set (m := base.filter _ _).
  replace (map (fun kv : uuid * Batch => (kv.1, b_CreatedAt kv.2)) (order_by_id m)).*1 with (order_by_id m).*1;
    [apply NoDup_order_by_id|].
  induction (order_by_id m) as [|x l IH]; [done|]. cbn. by f_equal.
Qed.

(** Re-dating leaves the list of derived rows as it was. *)
Lemma loadDerivedBatches_rederive d p q r :
  length (loadDerivedBatches (set_batches (rederive (of_product q) r) d) p) = length (loadDerivedBatches d p).
Proof.
  apply Permutation_length, NoDup_Permutation; [apply NoDup_loadDerivedBatches ..|]. intros [i c].
  rewrite !elem_of_loadDerivedBatches. cbn. setoid_rewrite rederive_lookup. split.
  - intros (b' & Hb & Hp & Hd & ->). destruct (db_batches d !! i) as [b|]; [|done]. injection Hb as <-.
    destruct (of_product q i b && is_derived b) eqn:E; [|by exists b].
    apply andb_true_iff in E as [_ E]. by exists b.
  - intros (b & Hb & Hp & Hd & ->). rewrite Hb. cbn. eexists. split; [reflexivity|].
    by destruct (of_product q i b && is_derived b).
Qed.

Lemma rederive_listed d p r :
  rederive (listed (loadDerivedBatches d p)) r (db_batches d) = rederive (of_product p) r (db_batches d).
Proof.
  apply map_eq. intros i. rewrite !rederive_lookup. destruct (db_batches d !! i) as [b|] eqn:Hb; [|done]. cbn.
  rewrite (listed_derived d p i b Hb). done.
Qed.

Lemma recomputeDerivedExpiry_rows st p w n w' :
  recomputeDerivedExpiry st p w = (Ok n, w') ->
  exists prod, product_in_storage (wdb w) st p = Some prod /\
    n = Z.of_nat (length (loadDerivedBatches (wdb w) p)) /\
    w' = with_db (set_batches (rederive (of_product p) (Resolve (rules_of (wdb w) st prod))) (wdb w)) w.
Proof.
  unfold recomputeDerivedExpiry, expiryRulesFor. intros H. apply bind_ok in H as (rules & w0 & H0 & H).
  tx_next H0 for d by get_db_ok as [-> ->]. tx_next H0 for prod by some_or_ok as [Hp ->]. tx_inv1 H0. subst.
  tx_next H for d by get_db_ok as [-> ->]. exists prod. split; [done|]. split.
  - eapply applyDerivedExpiry_count; [|exact H]. intros i c Hi.
    apply elem_of_loadDerivedBatches in Hi as (b & Hb & _ & Hd & _). eauto.
  - apply applyDerivedExpiry_rows in H as ->; [|apply loadDerivedBatches_stamped]. f_equal.
    apply set_batches_ext, rederive_listed.
Qed.

(** The recompute succeeds on every product of the storage. *)
Lemma recomputeDerivedExpiry_total st p w prod :
  product_in_storage (wdb w) st p = Some prod -> exists n w', recomputeDerivedExpiry st p w = (Ok n, w').
Proof.
  intros Hp. unfold recomputeDerivedExpiry, expiryRulesFor, mbind, tx_bind, get_db, some_or. rewrite Hp.
  apply applyDerivedExpiry_total.
Qed.

(** Re-dating rows keeps the stock invariant. *)
Lemma rederive_good P r d : good_step d (set_batches (rederive P r) d).
Proof.
  intros [Wb Wl]. split; [split|]; cbn.
  - intros i b' H. rewrite rederive_lookup in H. apply fmap_Some in H as (b & Hb & ->).
    destruct (Wb i b Hb) as (p & l & Hp & Hl & Hs & Hq & Hx & Hc).
    destruct (P i b && is_derived b); [|by exists p, l]. exists p, l.
    do 4 (split; [done|]). split; [left | exact Hc].
  - intros l Hl. destruct (Wl l Hl) as [Hp Hb]. split; [done|]. intros i Hi. cbn.
    destruct (Hb i Hi) as (b & Hbb & Hbp). rewrite rederive_lookup, Hbb. eexists. split; [reflexivity|].
    by destruct (P i b && is_derived b).
  - intros p. unfold gap, stock. cbn. f_equal. unfold rederive.
    rewrite (msum_imap _ (fun i b => if P i b && is_derived b then derive r b else b)); [done|].
    intros i b _. by destruct (P i b && is_derived b).
Qed.

(** ** What the cascade promises *)

(** RecomputeDerivedExpiry answers not-found, changing nothing, for a product
    the storage does not have; for one it has it always succeeds, reports how many
    batches of the product carry a derived date, gives exactly those the date the
    first rule set in the chain product, catalog, category ancestors, item type
    implies for their creation day, leaves user-dated batches, other products'
    batches and every other table alone, and run again finds nothing to change. *)
Theorem RecomputeDerivedExpiry_spec (st p : uuid) (w : World) :
  match product_in_storage (wdb w) st p with
  | None => RecomputeDerivedExpiry st p w = (Fail ErrNotFound, w)
  | Some prod =>
    let r := Resolve (rules_of (wdb w) st prod) in
    let w' := with_db (set_batches (rederive (of_product p) r) (wdb w)) w in
    let n := Z.of_nat (length (loadDerivedBatches (wdb w) p)) in
    RecomputeDerivedExpiry st p w = (Ok n, w') /\
    (forall i b, db_batches (wdb w) !! i = Some b ->
       db_batches (wdb w') !! i = Some (
         if (b_ProductID b =? p) && is_derived b then
           set_expiration (option_map (fun days => b_CreatedAt b / day + days)
             (first_defined (chain (rules_of (wdb w) st prod)))) ExpirationDerived b
         else b)) /\
    RecomputeDerivedExpiry st p w' = (Ok n, w')
  end.
Proof.
  destruct (product_in_storage (wdb w) st p) as [prod|] eqn:Hp.
  2: { unfold RecomputeDerivedExpiry, recomputeDerivedExpiry, expiryRulesFor, inTx, mbind, tx_bind, get_db, some_or.
       rewrite Hp. by destruct w. }
  intros r w' n.
  assert (R : forall v, product_in_storage (wdb v) st p = Some prod ->
    RecomputeDerivedExpiry st p v = (Ok (Z.of_nat (length (loadDerivedBatches (wdb v) p))),
      with_db (set_batches (rederive (of_product p) (Resolve (rules_of (wdb v) st prod))) (wdb v)) v)).
  { intros v Hv. destruct (recomputeDerivedExpiry_total st p v prod Hv) as (k & v' & H).
    pose proof H as H'. apply recomputeDerivedExpiry_rows in H' as (prod' & Hv' & -> & ->).
    rewrite Hv in Hv'. injection Hv' as <-. by apply inTx_step. }
  split; [by apply R | split].
  - intros i b Hb. change (rederive (of_product p) r (db_batches (wdb w)) !! i = Some
      (if (b_ProductID b =? p) && is_derived b then
         set_expiration (option_map (fun days => b_CreatedAt b / day + days)
           (first_defined (chain (rules_of (wdb w) st prod)))) ExpirationDerived b else b)).
    rewrite rederive_lookup, Hb. cbn [fmap option_fmap option_map]. unfold of_product.
    rewrite <- Resolve_days. fold r. f_equal. destruct ((b_ProductID b =? p) && is_derived b); [|done].
    unfold derive, date_col. f_equal. destruct (DateFor (timestamp (b_CreatedAt b)) r) as [t|] eqn:E.
    + destruct (DateFor_civil _ _ _ E) as (k & -> & _ & Hk). cbn. by rewrite Hk.
    + unfold DateFor in E. by destruct (res_Days r).
  - assert (E : set_batches (rederive (of_product p) r) (wdb w') = wdb w').
    { apply set_batches_id. change (db_batches (wdb w')) with (rederive (of_product p) r (db_batches (wdb w))).
      by apply rederive_idemp. }
    rewrite (R w' Hp). f_equal.
    + change (wdb w') with (set_batches (rederive (of_product p) r) (wdb w)). by rewrite loadDerivedBatches_rederive.
    + change (rules_of (wdb w') st prod) with (rules_of (wdb w) st prod). fold r. rewrite E. done.
Qed.

(** Scoring leaves the batch table alone. *)
Lemma scoring_batches {A} (m : Tx A) w r w' :
  scoring_only m -> m w = (r, w') -> db_batches (wdb w') = db_batches (wdb w).
Proof.
  intros Hm H. destruct (Hm w r w' H) as [E _].
  change (db_batches (inventory_part (wdb w')) = db_batches (wdb w)). by rewrite E.
Qed.

(** Setting a date by hand writes that row, marked 'user', and no other batch. *)
Lemma SetBatchExpiration_rows st id date u w v w' :
  SetBatchExpiration st id date u w = (Ok v, w') ->
  exists b, batch_in_storage (wdb w) st id = Some b /\
    db_batches (wdb w') = <[id := set_expiration (date_col date) ExpirationUser b]> (db_batches (wdb w)).
Proof.
  unfold SetBatchExpiration. intros H. tx_inv1 H. tx_next H by requireBatchInStorage_ok as (-> & b & Hb).
  tx_next H by modify_ok as ->. tx_next H by loadBatch_ok as (-> & _). apply bind_ok in H as (? & w1 & H1 & H).
  tx_inv1 H. subst. exists b. split; [done|]. apply batch_in_storage_some in Hb as [Hb _].
  assert (E : db_batches (wdb w') = alter (set_expiration (date_col date) ExpirationUser) id (db_batches (wdb w))).
  { destruct u; [|by tx_inv]. eapply scoring_batches in H1; [exact H1 | auto with scoring]. }
  by rewrite E, (alter_as_insert _ _ _ _ Hb).
Qed.

(** A date a person set on a batch survives any recompute of any product, by
    whatever rules: the row still carries that day, marked as the user's. Reset to
    derived afterwards, the row carries the day its product's rules give, marked
    derived, and the next recompute of that product leaves it so. *)
Theorem user_dates_survive_recomputes st id date u p w v w1 n w2 v2 w3
    (Hset : SetBatchExpiration st id date u w = (Ok v, w1))
    (Hrec : RecomputeDerivedExpiry st p w1 = (Ok n, w2))
    (Hreset : ResetBatchExpirationToDerived st id w2 = (Ok v2, w3)) :
  exists b prod, db_batches (wdb w) !! id = Some b /\ db_products (wdb w2) !! b_ProductID b = Some prod /\ db_batches (wdb w2) !! id = Some (set_expiration (civil_day <$> date) ExpirationUser b) /\
    let derived := derive (Resolve (rules_of (wdb w2) st prod)) b in
    db_batches (wdb w3) !! id = Some derived /\ forall m w4, RecomputeDerivedExpiry st (b_ProductID b) w3 = (Ok m, w4) -> db_batches (wdb w4) !! id = Some derived.
Proof.
  apply SetBatchExpiration_rows in Hset as (b & Hb & Eb). apply batch_in_storage_some in Hb as [Hb _].
  unfold RecomputeDerivedExpiry in Hrec. tx_inv1 Hrec.
  apply recomputeDerivedExpiry_rows in Hrec as (q & _ & _ & ->).
  assert (H2 : db_batches (wdb (with_db (set_batches (rederive (of_product p) (Resolve (rules_of (wdb w1) st q))) (wdb w1)) w1)) !! id
      = Some (set_expiration (civil_day <$> date) ExpirationUser b)).
  { cbn. rewrite rederive_lookup, Eb, lookup_insert_eq. cbn. by rewrite andb_false_r. }
  revert Hreset H2. set (v' := with_db _ w1). intros Hreset H2. clearbody v'. exists b.
  unfold ResetBatchExpirationToDerived in Hreset. tx_inv1 Hreset. tx_next Hreset for d by get_db_ok as [-> ->].
  tx_next Hreset for b2 by some_or_ok as [Hb2 ->]. apply batch_in_storage_some in Hb2 as [Hb2 _].
  rewrite H2 in Hb2. injection Hb2 as <-. apply bind_ok in Hreset as (rules & w0 & H0 & H).
  unfold expiryRulesFor in H0. tx_next H0 for d by get_db_ok as [-> ->]. tx_next H0 for prod by some_or_ok as [Hp ->].
  tx_inv1 H0. subst. apply product_in_storage_some in Hp as [Hp Hst]. exists prod. do 3 (split; [done|]).
  tx_next H by modify_ok as ->. apply loadBatch_ok in H as [-> _].
  assert (H3 : db_batches (set_batches (alter (set_expiration (date_col (DateFor (timestamp (b_CreatedAt b))
      (Resolve (rules_of (wdb w0) st prod)))) ExpirationDerived) id) (wdb w0)) !! id
      = Some (derive (Resolve (rules_of (wdb w0) st prod)) b)).
  { cbn. by rewrite (alter_as_insert _ _ _ _ H2), lookup_insert_eq. }
  split; [exact H3|]. intros m w4 H4. unfold RecomputeDerivedExpiry in H4. tx_inv1 H4.
  apply recomputeDerivedExpiry_rows in H4 as (prod' & Hp' & _ & ->).
  apply product_in_storage_some in Hp' as [Hp' _]. cbn [wdb with_db set_batches db_products] in Hp'.
  change (db_products (wdb w0) !! b_ProductID b = Some prod') in Hp'. pose proof (eq_trans (eq_sym Hp) Hp') as Epp. injection Epp as <-. clear Hp'.
  cbn [wdb with_db]. change (db_batches (set_batches ?f ?d)) with (f (db_batches d)).
  rewrite rederive_lookup. cbn [wdb with_db] in H3. etransitivity; [apply f_equal; exact H3|].
  cbn. unfold of_product. cbn. by rewrite Z.eqb_refl.
Qed.

Lemma user_dates_survive_recomputes_witness :
  let w1 := (SetBatchExpiration 1 40 (Some (mkTime (9 * day) 0)) (Some 10) sample_world).2 in
  let w2 := (RecomputeDerivedExpiry 1 30 w1).2 in
  exists b prod, db_batches sample_db !! 40 = Some b /\ db_products (wdb w2) !! b_ProductID b = Some prod /\ db_batches (wdb w2) !! 40 = Some (set_expiration (Some 9) ExpirationUser b).
Proof.
  destruct (user_dates_survive_recomputes 1 40 (Some (mkTime (9 * day) 0)) (Some 10) 30 sample_world
    (match (SetBatchExpiration 1 40 (Some (mkTime (9 * day) 0)) (Some 10) sample_world).1 with Ok v => v | Fail _ => view_batch sample_db 40 beans_batch end)
    _ 0 _
    (match (ResetBatchExpirationToDerived 1 40 (RecomputeDerivedExpiry 1 30 (SetBatchExpiration 1 40 (Some (mkTime (9 * day) 0)) (Some 10) sample_world).2).2).1 with Ok v => v | Fail _ => view_batch sample_db 40 beans_batch end)
    _ ltac:(vm_compute; reflexivity) ltac:(vm_compute; reflexivity) ltac:(vm_compute; reflexivity))
    as (b & prod & Hb & Hp & H2 & _).
  exists b, prod. split; [exact Hb|]. split; [exact Hp | exact H2].
Defined.
