(* ===== verification/MergeSpec.v ===== *)
(** * Deleting and merging products

    The two operations that remove a product row.  A deletion takes the product's
    batches and log rows with it, so its shelves and its ledger both end at
    nothing; a merge re-points them, so the survivor's shelves and ledger become
    the sums of both. *)

From S2P Require Import Prelude Gamification Expiry Db Sample Tree Progress ShelfLife Containers Batches Ledger StockSteps Locations Products EditSteps ExpirySpec.

#[local] Open Scope string_scope.
#[local] Open Scope list_scope.
#[local] Open Scope Z_scope.

(** ** The cascade of a product's deletion *)

(** The database without a product and what hangs on it. *)
Definition without_product (id : uuid) (d : DB) : DB :=
  set_products (delete id) (set_items (fmap (unmatch id))
    (set_barcodes (base.filter (fun kv : uuid * string * ProductBarcode => pb_ProductID kv.2 ≠ id))
      (set_batches (base.filter (fun kv : uuid * Batch => b_ProductID kv.2 ≠ id))
        (set_logs (fun logs => map (unlink_gone (dom (batches_of d id))) (base.filter (fun l => log_ProductID l ≠ id) logs)) d)))).

Lemma delete_product_ok id w u w' :
  delete_product id w = (Ok u, w') -> w' = with_db (without_product id (wdb w)) w.
Proof. unfold delete_product. intros H. by tx_inv. Qed.

Lemma unlink_gone_fields gone l :
  log_ProductID (unlink_gone gone l) = log_ProductID l /\ log_ChangeQty (unlink_gone gone l) = log_ChangeQty l.
Proof.
  unfold unlink_gone. destruct (log_BatchID l) as [b|]; [|done]. case_bool_decide; [|done].
  unfold unlink_batch. by case_bool_decide.
Qed.

Lemma unlink_gone_link gone l i :
  log_BatchID (unlink_gone gone l) = Some i -> log_BatchID l = Some i /\ i ∉ gone.
Proof.
  unfold unlink_gone. destruct (log_BatchID l) as [b|] eqn:E; [|congruence]. case_bool_decide as Hb.
  - unfold unlink_batch. rewrite (bool_decide_true _ E). done.
  - rewrite E. intros [= ->]. done.
Qed.

Lemma stock_without id d p : stock (without_product id d) p = if id =? p then 0 else stock d p.
Proof.
  unfold stock. cbn. etransitivity; [apply (msum_filter _ (fun b => b_ProductID b ≠ id))|].
  destruct (Z.eqb_spec id p) as [->|Hne].
  - apply msum_zero. intros i b _. case_decide; [|done]. by destruct (Z.eqb_spec (b_ProductID b) p).
  - apply msum_ext. intros i b _. case_decide as E; [done|].
    destruct (Z.eqb_spec (b_ProductID b) p); [congruence | done].
Qed.

Lemma ledger_without id d p : ledger (without_product id d) p = if id =? p then 0 else ledger d p.
Proof.
  unfold ledger. cbn. rewrite lsum_map.
  rewrite (lsum_ext _ (fun l => if log_ProductID l =? p then log_ChangeQty l else 0)).
  2: { intros l. destruct (unlink_gone_fields (dom (batches_of d id)) l) as [-> ->]. done. }
  rewrite (lsum_filter _ (fun l => log_ProductID l ≠ id)). destruct (Z.eqb_spec id p) as [->|Hne].
  - induction (db_logs d) as [|l ls IH]; [done|]. cbn [lsum]. rewrite IH.
    case_decide; [|done]. by destruct (Z.eqb_spec (log_ProductID l) p).
  - apply lsum_ext. intros l. case_decide as E; [done|].
    destruct (Z.eqb_spec (log_ProductID l) p); [congruence | done].
Qed.

Lemma without_product_wf id d : wf d -> wf (without_product id d).
Proof.
  intros [Wb Wl]. split; cbn.
  - intros i b H. apply map_lookup_filter_Some in H as [Hb Hne]. cbn in Hne.
    destruct (Wb i b Hb) as (p & l & Hp & Hrest). exists p, l. split; [|exact Hrest]. cbn.
    by rewrite lookup_delete_ne by congruence.
  - intros l' Hl. apply list_elem_of_fmap in Hl as (l & -> & Hl). apply list_elem_of_filter in Hl as [Hne Hl].
    destruct (unlink_gone_fields (dom (batches_of d id)) l) as [Ep _]. destruct (Wl l Hl) as [Hp Hb].
    unfold log_ok. rewrite Ep. cbn. split; [by rewrite lookup_delete_ne by congruence|].
    intros i Hi. apply unlink_gone_link in Hi as [Hi _]. destruct (Hb i Hi) as (b & Hbb & Hbp). exists b.
    split; [|done]. apply map_lookup_filter_Some. split; [done|]. cbn. congruence.
Qed.

(** Deleting a product keeps the invariant of the household. *)
Lemma delete_product_consistent id d : consistent d -> consistent (without_product id d).
Proof.
  intros [W B]. split; [by apply without_product_wf|]. intros p.
  rewrite stock_without, ledger_without. destruct (id =? p); [done | apply B].
Qed.

(** ** Deleting *)

Lemma DeleteProduct_ok st id w r w' :
  DeleteProduct st id w = (Ok r, w') ->
  exists p, product_in_storage (wdb w) st id = Some p /\
    recordTombstones st TombstoneProduct [id] (with_db (without_product id (wdb w)) w) = (Ok tt, w') /\
    orphanedImage (prod_ImageURL p) w' = (Ok r, w').
Proof.
  unfold DeleteProduct. intros H. tx_inv1 H. tx_next H by requireProductInStorage_ok as (-> & _).
  tx_next H for d by get_db_ok as [-> ->]. tx_next H for p by some_or_ok as [Hp ->].
  tx_next H by delete_product_ok as ->. apply bind_ok in H as ([] & w1 & H1 & H).
  assert (w1 = w') as ->.
  { unfold orphanedImage in H. destruct (prod_ImageURL p) as [url|]; [|by tx_inv].
    destruct (String.eqb url ""); by tx_inv. }
  by exists p.
Qed.

(** Tombstones aside, [recordTombstones] leaves the database as it is. *)
Lemma wf_tombstones f d : wf d -> wf (set_tombstones f d).
Proof. done. Qed.

Lemma recordTombstones_consistent st k ids w u w' :
  recordTombstones st k ids w = (Ok u, w') -> consistent (wdb w) -> consistent (wdb w').
Proof. intros H. by eapply good_step_consistent, recordTombstones_good. Qed.

Lemma DeleteProduct_consistent st id w r w' :
  DeleteProduct st id w = (Ok r, w') -> consistent (wdb w) -> consistent (wdb w').
Proof.
  intros H C. apply DeleteProduct_ok in H as (p & _ & H & _).
  eapply recordTombstones_consistent; [exact H|]. by apply delete_product_consistent.
Qed.

(** ** Re-pointing *)

(** The tables after the three UPDATEs of a merge. *)
Definition repointed (s source : uuid) (d : DB) : DB :=
  set_items (fmap (set_item_product s source)) (set_logs (map (set_log_product s source))
    (set_batches (fmap (set_product s source)) d)).

(** What becomes of a sum kept per product. *)
Definition merged_sum (f : uuid -> Z) (s source p : uuid) : Z :=
  if p =? source then 0 else if p =? s then f s + f source else f p.

Lemma set_product_fields s source b :
  b_ProductID (set_product s source b) = (if b_ProductID b =? source then s else b_ProductID b) /\
  b_Quantity (set_product s source b) = b_Quantity b /\
  b_LocationID (set_product s source b) = b_LocationID b /\
  b_ContainerID (set_product s source b) = b_ContainerID b /\
  b_ExpirationSource (set_product s source b) = b_ExpirationSource b.
Proof. unfold set_product. by destruct (b_ProductID b =? source). Qed.

Lemma set_log_product_fields s source l :
  log_ProductID (set_log_product s source l) = (if log_ProductID l =? source then s else log_ProductID l) /\
  log_ChangeQty (set_log_product s source l) = log_ChangeQty l /\
  log_BatchID (set_log_product s source l) = log_BatchID l.
Proof. unfold set_log_product. by destruct (log_ProductID l =? source). Qed.

(** One entry's share, re-pointed. *)
Lemma share_repointed (s source p q n : Z) :
  s ≠ source ->
  (if (if q =? source then s else q) =? p then n else 0) =
  if p =? source then 0
  else if p =? s then (if q =? s then n else 0) + (if q =? source then n else 0)
  else if q =? p then n else 0.
Proof.
  intros Hne. destruct (Z.eqb_spec p source), (Z.eqb_spec p s), (Z.eqb_spec q source);
    subst; repeat match goal with |- context [?a =? ?b] => destruct (Z.eqb_spec a b) end; lia.
Qed.

Lemma stock_repointed s source d p :
  s ≠ source -> stock (repointed s source d) p = merged_sum (stock d) s source p.
Proof.
  intros Hne. unfold stock, merged_sum. cbn. rewrite msum_fmap.
  rewrite (msum_ext _ (fun b => if p =? source then 0 else if p =? s
     then (if b_ProductID b =? s then b_Quantity b else 0) + (if b_ProductID b =? source then b_Quantity b else 0)
     else if b_ProductID b =? p then b_Quantity b else 0)).
  - destruct (p =? source); [by apply msum_zero|]. destruct (p =? s); [apply msum_plus | done].
  - intros i b _. destruct (set_product_fields s source b) as (-> & -> & _). by apply share_repointed.
Qed.

Lemma lsum_plus {A} (f g : A -> Z) l : lsum (fun a => f a + g a) l = lsum f l + lsum g l.
Proof. induction l as [|a l IH]; cbn; [done | lia]. Qed.

Lemma ledger_repointed s source d p :
  s ≠ source -> ledger (repointed s source d) p = merged_sum (ledger d) s source p.
Proof.
  intros Hne. unfold ledger, merged_sum. cbn. rewrite lsum_map.
  rewrite (lsum_ext _ (fun l => if p =? source then 0 else if p =? s
     then (if log_ProductID l =? s then log_ChangeQty l else 0) + (if log_ProductID l =? source then log_ChangeQty l else 0)
     else if log_ProductID l =? p then log_ChangeQty l else 0)).
  - destruct (p =? source); [by induction (db_logs d)|]. destruct (p =? s); [apply lsum_plus | done].
  - intros l. destruct (set_log_product_fields s source l) as (-> & -> & _). by apply share_repointed.
Qed.

Lemma repointed_wf s source d ps pq :
  db_products d !! s = Some ps -> db_products d !! source = Some pq -> prod_StorageID ps = prod_StorageID pq ->
  wf d -> wf (repointed s source d).
Proof.
  intros Hs Hq Est [Wb Wl]. split; cbn.
  - intros i b' H. rewrite lookup_fmap in H. apply fmap_Some in H as (b & Hb & ->).
    destruct (Wb i b Hb) as (p & l & Hp & Hl & Hst & Hrest). unfold batch_ok.
    destruct (set_product_fields s source b) as (-> & -> & -> & -> & ->). cbn.
    destruct (Z.eqb_spec (b_ProductID b) source) as [E|]; [|by exists p, l].
    exists ps, l. rewrite E, Hq in Hp. injection Hp as <-. rewrite Est. done.
  - intros l' H. apply list_elem_of_fmap in H as (l & -> & Hl). destruct (Wl l Hl) as [Hp Hb].
    unfold log_ok. destruct (set_log_product_fields s source l) as (-> & _ & ->). cbn. split.
    + destruct (log_ProductID l =? source); [by exists ps | done].
    + intros i Hi. destruct (Hb i Hi) as (b & Hbb & Hbp). exists (set_product s source b).
      rewrite lookup_fmap, Hbb. split; [done|]. destruct (set_product_fields s source b) as (-> & _). by rewrite Hbp.
Qed.

(** Nothing hangs on the source once everything is re-pointed. *)
Lemma without_repointed (d : DB) source :
  (forall i b, db_batches d !! i = Some b -> b_ProductID b ≠ source) ->
  (forall l, l ∈ db_logs d -> log_ProductID l ≠ source) ->
  db_batches (without_product source d) = db_batches d /\ db_logs (without_product source d) = db_logs d.
Proof.
  intros Hb Hl. split; cbn.
  - apply map_filter_id. intros i b H. by apply (Hb i b).
  - assert (E : batches_of d source = ∅) by (apply map_empty_filter; intros i b H; by apply (Hb i b)).
    rewrite E, dom_empty_L, filter_all_true by done.
    assert (U : forall l, unlink_gone (∅ : gset uuid) l = l).
    { intros l. unfold unlink_gone. destruct (log_BatchID l); [|done]. rewrite bool_decide_false; set_solver. }
    induction (db_logs d) as [|l ls IH]; [done|]. cbn. rewrite U, IH; [done|]. intros l' H. apply Hl. by right.
Qed.

(** ** Merging *)

(** A merged product's barcodes, read by code. *)
Lemma repointBarcodes_ok st s source w u w' :
  s ≠ source -> repointBarcodes st s source w = (Ok u, w') ->
  exists f, w' = with_db (set_barcodes f (wdb w)) w /\
    (forall code, f (db_barcodes (wdb w)) !! (st, code) =
      set_code_product s source <$> db_barcodes (wdb w) !! (st, code)) /\
    (forall st' code, st' ≠ st -> f (db_barcodes (wdb w)) !! (st', code) = db_barcodes (wdb w) !! (st', code)).
Proof.
  intros Hne H. unfold repointBarcodes in H. tx_next H for d by get_db_ok as [-> ->].
  tx_next H by modify_ok as ->. apply modify_ok in H as ->. cbn [wdb with_db wids wnow wclock].
  match goal with |- context [set_barcodes ?g (set_barcodes ?h _)] => exists (fun m => g (h m)) end.
  split; [done|]. split.
  2: { intros st' code Hst. cbn [db_barcodes set_barcodes]. rewrite map_lookup_imap, map_lookup_filter.
       destruct (db_barcodes (wdb w) !! (st', code)) as [p|]; [|done]. cbn. rewrite option_guard_True by (intros (? & _); done).
       cbn. by destruct (Z.eqb_spec st' st). }
  intros code. cbn [db_barcodes set_barcodes]. rewrite map_lookup_imap.
  destruct (db_barcodes (wdb w) !! (st, code)) as [p|] eqn:Hp.
  - assert (K : (base.filter (fun kv : uuid * string * ProductBarcode => ~ (kv.1.1 = st /\ pb_ProductID kv.2 = source /\
        bool_decide (pb_ProductID <$> db_barcodes (wdb w) !! (st, kv.1.2) = Some s) = true)) (db_barcodes (wdb w))) !! (st, code) = Some p).
    { apply map_lookup_filter_Some. split; [done|]. cbn. intros (_ & Ep & E). bool_to_prop. rewrite Hp in E. cbn in E. congruence. }
    rewrite K. cbn. by rewrite Z.eqb_refl.
  - assert (K : (base.filter (fun kv : uuid * string * ProductBarcode => ~ (kv.1.1 = st /\ pb_ProductID kv.2 = source /\
        bool_decide (pb_ProductID <$> db_barcodes (wdb w) !! (st, kv.1.2) = Some s) = true)) (db_barcodes (wdb w))) !! (st, code) = None).
    { apply map_lookup_filter_None. by left. }
    by rewrite K.
Qed.

Lemma orphanedImage_same url w r w' : orphanedImage url w = (Ok r, w') -> w' = w.
Proof.
  unfold orphanedImage. destruct url as [u|]; [|intros; by tx_inv].
  destruct (String.eqb u ""); intros; by tx_inv.
Qed.

(** One batch after a merge: the source's batches are the survivor's, and those
    with a derived date follow the survivor's rules. *)
Definition merged_batch (s source : uuid) (r : Resolution) (b : Batch) : Batch :=
  let b' := set_product s source b in
  if (b_ProductID b =? source) && is_derived b then derive r b' else b'.

Lemma merged_batches d s source r :
  rederive (listed (loadDerivedBatches d source)) r (fmap (set_product s source) (db_batches d)) =
  merged_batch s source r <$> db_batches d.
Proof.
  apply map_eq. intros i. rewrite rederive_lookup, !lookup_fmap.
  destruct (db_batches d !! i) as [b|] eqn:Hb; [|done]. cbn [fmap option_fmap option_map]. f_equal.
  pose proof (listed_derived d source i b Hb) as E. unfold listed in *. unfold merged_batch.
  assert (D : is_derived (set_product s source b) = is_derived b).
  { unfold is_derived. by destruct (set_product_fields s source b) as (_ & _ & _ & _ & ->). }
  by rewrite D, E.
Qed.

Lemma merged_batch_fields s source r b :
  b_ProductID (merged_batch s source r b) = b_ProductID (set_product s source b) /\
  b_Quantity (merged_batch s source r b) = b_Quantity b.
Proof.
  unfold merged_batch. destruct (set_product_fields s source b) as (_ & E & _).
  by destruct ((b_ProductID b =? source) && is_derived b).
Qed.

(** The database a merge leaves, before the survivor's row is touched. *)
Definition merged_db (s source : uuid) (r : Resolution) (f : gmap (uuid * string) ProductBarcode -> gmap (uuid * string) ProductBarcode)
    (ts : list Tombstone) (d : DB) : DB :=
  set_tombstones (fun l => l ++ ts) (without_product source
    (set_batches (rederive (listed (loadDerivedBatches d source)) r) (repointed s source (set_barcodes f d)))).

(** The rules read categories and the catalog only. *)
Lemma rules_of_ext d d' st p :
  db_categories d' = db_categories d -> db_catalog d' = db_catalog d -> rules_of d' st p = rules_of d st p.
Proof. intros Ec Eg. unfold rules_of, category_days, tree_nodes. by rewrite Ec, Eg. Qed.

(** The picture no product shows any more. *)
Definition left_picture (imageURL : option string) (products : gmap uuid Product) : string :=
  match imageURL with
  | Some url => if String.eqb url "" then "" else
      if bool_decide (base.filter (fun kv : uuid * Product => prod_ImageURL kv.2 = Some url) products = ∅) then url else ""
  | None => ""
  end.

Lemma orphanedImage_value url w r w' : orphanedImage url w = (Ok r, w') -> r = left_picture url (db_products (wdb w)).
Proof.
  unfold orphanedImage, left_picture. destruct url as [u|]; [|by intros [= <- _]].
  destruct (String.eqb u ""); [by intros [= <- _]|]. unfold mbind, tx_bind, get_db. by intros [= <- _].
Qed.

(** Touching a row does not change which pictures are shown. *)
Lemma left_picture_touched url products id p t : products !! id = Some p ->
  left_picture url (<[id := touch_product t p]> products) = left_picture url products.
Proof.
  intros Hp. unfold left_picture. destruct url as [u|]; [|done]. destruct (String.eqb u ""); [done|].
  assert (E : base.filter (fun kv : uuid * Product => prod_ImageURL kv.2 = Some u) (<[id := touch_product t p]> products) = ∅ <->
    base.filter (fun kv : uuid * Product => prod_ImageURL kv.2 = Some u) products = ∅).
  { rewrite !map_empty. split; intros H i; specialize (H i); rewrite map_lookup_filter_None in H |- *.
    - destruct (decide (i = id)) as [->|Hne].
      + right. intros x Hx. rewrite Hp in Hx. injection Hx as <-. destruct H as [H|H]; [by rewrite lookup_insert_eq in H|].
        apply (H (touch_product t p)). apply lookup_insert_eq.
      + by rewrite lookup_insert_ne in H.
    - destruct (decide (i = id)) as [->|Hne].
      + right. intros x Hx. rewrite lookup_insert_eq in Hx. injection Hx as <-. destruct H as [H|H]; [congruence|]. exact (H p Hp).
      + by rewrite lookup_insert_ne. }
  destruct (decide (base.filter (fun kv : uuid * Product => prod_ImageURL kv.2 = Some u) products = ∅)) as [H|H].
  - by rewrite !bool_decide_eq_true_2 by tauto.
  - by rewrite !bool_decide_eq_false_2 by tauto.
Qed.

Lemma MergeProducts_ok st s source w r w' :
  MergeProducts st s source w = (Ok r, w') ->
  s ≠ source /\ exists ps pq f ts,
    product_in_storage (wdb w) st s = Some ps /\ product_in_storage (wdb w) st source = Some pq /\
    ((forall code, f (db_barcodes (wdb w)) !! (st, code) =
       set_code_product s source <$> db_barcodes (wdb w) !! (st, code)) /\
     (forall st' code, st' ≠ st -> f (db_barcodes (wdb w)) !! (st', code) = db_barcodes (wdb w) !! (st', code))) /\
    map ts_EntityID ts = [source] /\
    Forall (fun t => ts_StorageID t = st /\ ts_EntityType t = TombstoneProduct /\ ts_DeletedAt t = wnow w) ts /\
    let d' := merged_db s source (Resolve (rules_of (wdb w) st ps)) f ts (wdb w) in
    let survivor := touch_product (wnow w) ps in
    wdb w' = set_products <[s := survivor]> d' /\
    mr_Survivor r = survivor /\
    mr_MovedBatches r = Z.of_nat (size (batches_of (wdb w) source)) /\
    mr_RecomputedBatches r = Z.of_nat (length (loadDerivedBatches (wdb w) source)) /\
    mr_OrphanedImage r = left_picture (prod_ImageURL pq) (db_products d').
Proof.
  unfold MergeProducts. intros H. tx_next H by require_ok as [Hne ->]. bool_to_prop. split; [done|]. tx_inv1 H.
  tx_next H for d by get_db_ok as [-> ->]. cbv zeta in H.
  tx_next H for p1 by some_or_ok as [H1 ->]. tx_next H for p2 by some_or_ok as [H2 ->].
  assert (exists ps pq, product_in_storage (wdb w) st s = Some ps /\ product_in_storage (wdb w) st source = Some pq)
    as (ps & pq & Hs & Hq) by (destruct (source <? s); eauto).
  tx_next H for src by some_or_ok as [Hsrc ->]. apply product_in_storage_some in Hq as Hq'. destruct Hq' as [Hq' _].
  assert (src = pq) as -> by congruence.
  apply bind_ok in H as (? & w1 & Hr & H). apply repointBarcodes_ok in Hr as (f & -> & Hf); [|done].
  apply bind_ok in H as (moved & w2 & Hr & H). unfold repoint in Hr. tx_next Hr for d by get_db_ok as [-> ->].
  do 3 (tx_next Hr by modify_ok as ->). tx_inv1 Hr. subst.
  apply bind_ok in H as (rules & w2 & Hr & H). unfold expiryRulesFor in Hr. tx_next Hr for d by get_db_ok as [-> ->].
  tx_next Hr for ps' by some_or_ok as [Hps ->]. tx_inv1 Hr. subst.
  change (product_in_storage (wdb w) st s = Some ps') in Hps. rewrite Hs in Hps. injection Hps as <-.
  apply bind_ok in H as (n & w2 & Hr & H). pose proof Hr as Hc. apply applyDerivedExpiry_rows in Hr as ->.
  2: { intros i c b Hi Hb. cbn in Hb. rewrite lookup_fmap in Hb.
       apply elem_of_loadDerivedBatches in Hi as (b0 & Hb0 & _ & _ & ->). rewrite Hb0 in Hb. injection Hb as <-.
       unfold set_product. by destruct (b_ProductID b0 =? source). }
  apply applyDerivedExpiry_count in Hc.
  2: { intros i c Hi. apply elem_of_loadDerivedBatches in Hi as (b0 & Hb0 & _ & Hd & _).
       exists (set_product s source b0). cbn. rewrite lookup_fmap, Hb0. split; [done|].
       unfold is_derived, set_product. by destruct (b_ProductID b0 =? source). }
  tx_next H by delete_product_ok as ->. apply bind_ok in H as (? & w3 & Hr & H).
  apply recordTombstones_frame in Hr as (ts & Ets & Ei & Hts & En). cbn [wdb wids wnow wclock with_db] in *.
  apply bind_ok in H as (img & w4 & Hr & H). apply orphanedImage_value in Hr as Himg. apply orphanedImage_same in Hr as ->.
  tx_next H by now_ok as [-> ->]. apply bind_ok in H as (found & w5 & Hu & H).
  tx_next H by require_ok as [Hfound ->]. subst found. tx_next H for d by get_db_ok as [-> ->].
  tx_next H for sv by some_or_ok as [Hsv ->]. tx_inv1 H. subst r w'.
  apply update_product_ok in Hu as [(E & _)|(p' & _ & Hp' & _ & ->)]; [done|].
  apply product_in_storage_some in Hp' as [Hp' _]. rewrite Ets in Hp'. cbn in Hp'.
  apply lookup_delete_Some in Hp' as [_ Hp']. apply product_in_storage_some in Hs as Hs'. destruct Hs' as [Hs' _].
  rewrite Hs' in Hp'. injection Hp' as <-.
  cbn in Hsv. rewrite lookup_insert_eq in Hsv. injection Hsv as <-.
  exists ps, pq, f, ts. cbn [wdb with_db mr_Survivor mr_MovedBatches mr_RecomputedBatches mr_OrphanedImage]. rewrite Ets in *. rewrite En.
  rewrite (rules_of_ext (wdb w) (set_items _ _)) by reflexivity.
  split; [exact Hs|]. split; [exact Hq|]. split; [exact Hf|]. split; [exact Ei|].
  split; [exact Hts|]. unfold merged_db, repointed. split; [reflexivity|]. split; [reflexivity|]. split; [reflexivity|]. split; [exact Hc | exact Himg].
Qed.

(** Reading one table past an update of another. *)
Lemma batches_tombstones g d : db_batches (set_tombstones g d) = db_batches d.
Proof. done. Qed.
Lemma logs_tombstones g d : db_logs (set_tombstones g d) = db_logs d.
Proof. done. Qed.
Lemma batches_set g d : db_batches (set_batches g d) = g (db_batches d).
Proof. done. Qed.
Lemma logs_set g d : db_logs (set_batches g d) = db_logs d.
Proof. done. Qed.
Lemma batches_repointed s source g d :
  db_batches (repointed s source (set_barcodes g d)) = set_product s source <$> db_batches d.
Proof. done. Qed.
Lemma logs_repointed s source g d :
  db_logs (repointed s source (set_barcodes g d)) = map (set_log_product s source) (db_logs d).
Proof. done. Qed.
Lemma without_tables source d :
  db_products (without_product source d) = delete source (db_products d) /\
  db_barcodes (without_product source d) = base.filter (fun kv : uuid * string * ProductBarcode => pb_ProductID kv.2 ≠ source) (db_barcodes d).
Proof. done. Qed.

Lemma tombstones_tables g d :
  db_products (set_tombstones g d) = db_products d /\ db_barcodes (set_tombstones g d) = db_barcodes d.
Proof. done. Qed.
Lemma set_batches_tables g d :
  db_products (set_batches g d) = db_products d /\ db_barcodes (set_batches g d) = db_barcodes d.
Proof. done. Qed.
Lemma repointed_tables s source g d :
  db_products (repointed s source (set_barcodes g d)) = db_products d /\
  db_barcodes (repointed s source (set_barcodes g d)) = g (db_barcodes d).
Proof. done. Qed.

Lemma merged_db_catalog s source r f ts d :
  db_products (merged_db s source r f ts d) = delete source (db_products d) /\
  db_barcodes (merged_db s source r f ts d) =
    base.filter (fun kv : uuid * string * ProductBarcode => pb_ProductID kv.2 ≠ source) (f (db_barcodes d)).
Proof.
  unfold merged_db. generalize (rederive (listed (loadDerivedBatches d source)) r) as g. intros g.
  destruct (repointed_tables s source f d) as [E1 E2]. rewrite <- E1, <- E2.
  generalize (repointed s source (set_barcodes f d)) as d1. intros d1. clear E1 E2.
  destruct (set_batches_tables g d1) as [<- <-]. generalize (set_batches g d1) as d2. intros d2.
  destruct (without_tables source d2) as [<- <-]. apply tombstones_tables.
Qed.

Lemma merged_db_tables s source r f ts d :
  s ≠ source ->
  db_batches (merged_db s source r f ts d) = merged_batch s source r <$> db_batches d /\
  db_logs (merged_db s source r f ts d) = map (set_log_product s source) (db_logs d).
Proof.
  intros Hne. unfold merged_db.
  set (D := set_batches _ (repointed s source (set_barcodes f d))).
  assert (EB : db_batches D = merged_batch s source r <$> db_batches d).
  { unfold D. rewrite batches_set, batches_repointed. apply merged_batches. }
  assert (EL : db_logs D = map (set_log_product s source) (db_logs d)) by (unfold D; by rewrite logs_set, logs_repointed).
  clearbody D.
  rewrite batches_tombstones, logs_tombstones.
  destruct (without_repointed D source) as [-> ->]; [ | | by rewrite EB, EL].
  - intros i b Hb. rewrite EB, lookup_fmap in Hb. apply fmap_Some in Hb as (b0 & _ & ->).
    destruct (merged_batch_fields s source r b0) as [-> _]. destruct (set_product_fields s source b0) as [-> _].
    by destruct (Z.eqb_spec (b_ProductID b0) source).
  - intros l Hl. rewrite EL in Hl. apply list_elem_of_fmap in Hl as (l0 & -> & _).
    destruct (set_log_product_fields s source l0) as [-> _]. by destruct (Z.eqb_spec (log_ProductID l0) source).
Qed.

Lemma merged_db_sums s source r f ts d p :
  s ≠ source ->
  stock (merged_db s source r f ts d) p = merged_sum (stock d) s source p /\
  ledger (merged_db s source r f ts d) p = merged_sum (ledger d) s source p.
Proof.
  intros Hne. rewrite <- (stock_repointed s source d p Hne), <- (ledger_repointed s source d p Hne).
  unfold stock, ledger. destruct (merged_db_tables s source r f ts d Hne) as [-> ->]. split; [|done].
  cbn [db_batches repointed set_items set_logs set_batches]. rewrite !msum_fmap. apply msum_ext. intros i b _.
  destruct (merged_batch_fields s source r b) as [-> ->]. by destruct (set_product_fields s source b) as (_ & -> & _).
Qed.

(** Every table a merge does not write. *)
Definition apart (d : DB) : DB :=
  set_products (fun _ => ∅) (set_items (fun _ => ∅) (set_barcodes (fun _ => ∅)
    (set_batches (fun _ => ∅) (set_logs (fun _ => []) (set_tombstones (fun _ => []) d))))).

Lemma unmatch_repointed s source i : s ≠ source -> unmatch source (set_item_product s source i) = set_item_product s source i.
Proof.
  intros Hne. unfold set_item_product. case_bool_decide as E; unfold unmatch; cbn; rewrite bool_decide_eq_false_2; congruence.
Qed.

Lemma merged_db_rest s source r f ts d :
  s ≠ source ->
  db_items (merged_db s source r f ts d) = set_item_product s source <$> db_items d /\
  db_tombstones (merged_db s source r f ts d) = db_tombstones d ++ ts /\
  apart (merged_db s source r f ts d) = apart d.
Proof.
  intros Hne. split; [|by split]. cbn. rewrite <- map_fmap_compose. apply map_fmap_ext. intros i x _. cbn. by apply unmatch_repointed.
Qed.

Lemma MergeProducts_foreign st s source w r w' : MergeProducts st s source w = (r, w') -> s ≠ source ->
  product_in_storage (wdb w) st s = None \/ product_in_storage (wdb w) st source = None -> r = Fail ErrNotFound.
Proof.
  intros H Hne Hno. unfold MergeProducts in H. rewrite (proj2 (Z.eqb_neq s source)) in H by done. cbn [negb] in H.
  assert (G : forall m : Tx MergeResult, (m w).1 = Fail ErrNotFound -> inTx m w = (r, w') -> r = Fail ErrNotFound).
  { intros m Hm Hi. unfold inTx in Hi. destruct (m w) as [[a|e] w1]; cbn in Hm; [done|]. injection Hi as <- _. congruence. }
  eapply G; [|exact H]. rewrite (bind_step _ get_db _ _ _ eq_refl). cbv zeta.
  destruct (source <? s), (product_in_storage (wdb w) st s) as [ps|] eqn:E1, (product_in_storage (wdb w) st source) as [pq|] eqn:E2;
    destruct Hno as [?|?]; try done; unfold mbind, tx_bind; cbn; by rewrite ?E1, ?E2.
Qed.

(** C10: What MergeProducts does.  It is refused between a product and itself and
    unless both products are of the storage, and whatever fails changes no table.
    When it succeeds the source's row is gone, the survivor's is unchanged but for
    updated_at, and every other product's is as it was; each of the source's batches
    is the survivor's, re-dated by the survivor's rules when its date was derived and
    with the date the user gave it otherwise, and every other batch is untouched;
    each ledger row is kept, re-pointed, and none is added; so the survivor's stock
    and ledger are the sums of both products' and nobody else's move; every shopping
    list line matched to the source is matched to the survivor and every other line
    is as it was; every barcode of the source scans as the survivor, and the codes of
    other storages are as they were unless one of them named the source; one
    tombstone of the source is added; the picture reported is the source's if no
    product shows it any more; and no other table changes. *)
Theorem MergeProducts_spec st s source w r w' (Hrun : MergeProducts st s source w = (r, w')) :
  (s = source -> r = Fail ErrValidation) /\
  (s ≠ source -> product_in_storage (wdb w) st s = None \/ product_in_storage (wdb w) st source = None -> r = Fail ErrNotFound) /\
  (forall e, r = Fail e -> wdb w' = wdb w) /\
  forall res, r = Ok res ->
  exists ps pq ts,
    product_in_storage (wdb w) st s = Some ps /\ product_in_storage (wdb w) st source = Some pq /\
    mr_Survivor res = touch_product (wnow w) ps /\
    (forall p, db_products (wdb w') !! p =
       if p =? s then Some (touch_product (wnow w) ps) else if p =? source then None else db_products (wdb w) !! p) /\
    db_batches (wdb w') = merged_batch s source (Resolve (rules_of (wdb w) st ps)) <$> db_batches (wdb w) /\
    db_logs (wdb w') = map (set_log_product s source) (db_logs (wdb w)) /\
    (forall p, stock (wdb w') p = merged_sum (stock (wdb w)) s source p /\
               ledger (wdb w') p = merged_sum (ledger (wdb w)) s source p) /\
    db_items (wdb w') = set_item_product s source <$> db_items (wdb w) /\
    (forall code, db_barcodes (wdb w') !! (st, code) =
       set_code_product s source <$> db_barcodes (wdb w) !! (st, code)) /\
    (forall st' code, st' ≠ st -> pb_ProductID <$> db_barcodes (wdb w) !! (st', code) ≠ Some source ->
       db_barcodes (wdb w') !! (st', code) = db_barcodes (wdb w) !! (st', code)) /\
    db_tombstones (wdb w') = db_tombstones (wdb w) ++ [mkTombstone ts st TombstoneProduct source (wnow w)] /\
    apart (wdb w') = apart (wdb w) /\
    mr_OrphanedImage res = left_picture (prod_ImageURL pq) (db_products (wdb w')) /\
    mr_MovedBatches res = Z.of_nat (size (batches_of (wdb w) source)) /\
    mr_RecomputedBatches res = Z.of_nat (length (loadDerivedBatches (wdb w) source)).
Proof.
  split_and!.
  - intros ->. unfold MergeProducts in Hrun. rewrite Z.eqb_refl in Hrun. by injection Hrun as <- _.
  - intros Hne Hno. by eapply MergeProducts_foreign.
  - intros e ->. unfold MergeProducts in Hrun. apply bind_fail in Hrun as [H|(? & ? & H1 & H)]; [by apply require_run in H as ->|].
    apply require_run in H1 as ->. by apply inTx_run in H as [H | (? & ? & _)].
  - intros res ->.
    apply MergeProducts_ok in Hrun as (Hne & ps & pq & f & ts & Hs & Hq & [Hf Hf'] & Hids & Hts & E & Hsv & Hm & Hc & Himg).
    destruct ts as [|ts [|? ?]]; try discriminate Hids. injection Hids as Hid. apply Forall_singleton in Hts as (T1 & T2 & T3).
    exists ps, pq, (ts_ID ts). do 3 (split; [done|]). rewrite E.
    destruct (merged_db_tables s source (Resolve (rules_of (wdb w) st ps)) f [ts] (wdb w) Hne) as [Eb El].
    destruct (merged_db_catalog s source (Resolve (rules_of (wdb w) st ps)) f [ts] (wdb w)) as [Ep Ec].
    destruct (merged_db_rest s source (Resolve (rules_of (wdb w) st ps)) f [ts] (wdb w) Hne) as (Ei & Et & Ea).
    pose proof (fun p => merged_db_sums s source (Resolve (rules_of (wdb w) st ps)) f [ts] (wdb w) p Hne) as Es.
    revert Eb El Ep Ec Es Ei Et Ea Himg. clear E. generalize (merged_db s source (Resolve (rules_of (wdb w) st ps)) f [ts] (wdb w)) as D.
    intros D Eb El Ep Ec Es Ei Et Ea Himg. apply product_in_storage_some in Hs as [Hs _].
    split; [|split; [exact Eb|split; [exact El|split; [exact Es|split; [exact Ei|split; [|split; [|split; [|split; [exact Ea|split; [|done]]]]]]]]]].
    + intros p. cbn. rewrite Ep, lookup_insert. destruct (Z.eqb_spec p s) as [->|]; [by rewrite decide_True|].
      rewrite decide_False by done. rewrite lookup_delete. destruct (Z.eqb_spec p source) as [->|];
        [by rewrite decide_True | by rewrite decide_False].
    + intros code. cbn. rewrite Ec, <- Hf. rewrite map_lookup_filter.
      destruct (f (db_barcodes (wdb w)) !! (st, code)) as [p|] eqn:Hp; [|done]. cbn.
      rewrite Hf in Hp. apply fmap_Some in Hp as (p0 & _ & ->).
      unfold set_code_product. destruct (Z.eqb_spec (pb_ProductID p0) source); (rewrite option_guard_True; [done|]); done.
    + intros st' code Hst Hno. cbn. rewrite Ec, map_lookup_filter, Hf' by done. destruct (db_barcodes (wdb w) !! (st', code)) as [p|]; [|done].
      cbn in *. rewrite option_guard_True; [done|]. congruence.
    + cbn. rewrite Et. do 2 f_equal. destruct ts; cbn in *; congruence.
    + rewrite Himg. symmetry. apply left_picture_touched. by rewrite Ep, lookup_delete_ne.
Qed.

(** Merging the pasta into the beans, and the beans into the pasta. *)
Lemma MergeProducts_spec_witness :
  let w' := (MergeProducts 1 31 30 sample_world).2 in
  stock (wdb w') 31 = 3 /\ ledger (wdb w') 31 = 3 /\ db_products (wdb w') !! 30 = None.
Proof.
  destruct (MergeProducts 1 31 30 sample_world) as [[r|e] w'] eqn:E; [|vm_compute in E; discriminate E].
  destruct (MergeProducts_spec 1 31 30 sample_world (Ok r) w' E) as (_ & _ & _ & T).
  destruct (T r eq_refl) as (ps & pq & ts & _ & _ & _ & Hp & _ & _ & Hsum & _).
  cbn [snd]. destruct (Hsum 31) as [-> ->]. rewrite Hp. split_and!; vm_compute; reflexivity.
Defined.

(** A merge keeps the invariant of the household. *)
Lemma MergeProducts_consistent st s source w r w' :
  MergeProducts st s source w = (Ok r, w') -> consistent (wdb w) -> consistent (wdb w').
Proof.
  intros H [W B]. apply MergeProducts_ok in H as (Hne & ps & pq & f & ts & Hs & Hq & _ & _ & _ & E & _).
  apply product_in_storage_some in Hs as [Hs Ess]. apply product_in_storage_some in Hq as [Hq Eqs]. rewrite E.
  set (D := merged_db s source (Resolve (rules_of (wdb w) st ps)) f ts (wdb w)).
  assert (CD : consistent D).
  { split.
    - apply wf_tombstones, without_product_wf. apply rederive_good.
      apply (repointed_wf s source (set_barcodes f (wdb w)) ps pq); [done | done | congruence | exact W].
    - intros p. destruct (merged_db_sums s source (Resolve (rules_of (wdb w) st ps)) f ts (wdb w) p Hne) as [E1 E2].
      fold D in E1, E2. rewrite E1, E2. unfold merged_sum. by rewrite !B. }
  eapply good_step_consistent; [|exact CD]. apply (good_step_edit_product D s ps); [|done].
  unfold D. destruct (merged_db_catalog s source (Resolve (rules_of (wdb w) st ps)) f ts (wdb w)) as [-> _].
  by rewrite lookup_delete_ne.
Qed.
