(* ===== verification/AccountsSpec.v ===== *)
(** * Accounts, sessions, pairing and storages: what they promise

    Every operation of Accounts.v and Storages.v as a command [AccOp]; the
    referential integrity of their tables; that a session or a pairing code that is
    spent stays spent; and what deleting a user or a storage leaves. *)

From Stdlib Require Import Ascii String.
From S2P Require Import Prelude Text Encoding Gamification Expiry Db Outcomes AuditLog Sample Tree Progress ShelfLife Containers Batches Recompute Ledger StockSteps Locations Products MergeSpec Accounts Storages.

#[local] Open Scope string_scope.
#[local] Open Scope list_scope.
#[local] Open Scope Z_scope.

(** ** The commands *)

Inductive AccOp :=
| AccCreateUser (inp : NewUser)
| AccAdminCreateUser (actor : uuid) (inp : NewUser)
| AccSetAdmin (userID : uuid) (isAdmin : bool)
| AccSetDisplayName (userID : uuid) (name : string)
| AccDeleteUser (actor id : uuid)
| AccChangePassword (userID : uuid) (hash keep : string)
| AccAdminResetPassword (actor userID : uuid) (hash : string)
| AccCreateSession (buf : list ascii) (userID : uuid) (kind : option SessionKind) (label : option string) (ttl : Z)
| AccLookupSession (id : string)
| AccTouchSession (id : string)
| AccDeleteSession (id : string)
| AccSweepSessions
| AccCreatePairingCode (buf : list ascii) (userID : uuid)
| AccRedeemPairingCode (code : string)
| AccSweepPairingCodes
| AccCreateStorage (actor : uuid) (name : string)
| AccDeleteStorage (actor id : uuid)
| AccAddMember (actor storageID userID : uuid)
| AccRemoveMember (actor storageID userID : uuid)
| AccSetStartPage (storageID userID : uuid) (page : string).

Definition acc_exec (o : AccOp) : Tx unit :=
  match o with
  | AccCreateUser inp => void (CreateUser inp)
  | AccAdminCreateUser actor inp => void (AdminCreateUser actor inp)
  | AccSetAdmin u b => SetAdmin u b
  | AccSetDisplayName u n => void (SetDisplayName u n)
  | AccDeleteUser actor id => DeleteUser actor id
  | AccChangePassword u h k => ChangePassword u h k
  | AccAdminResetPassword actor u h => AdminResetPassword actor u h
  | AccCreateSession buf u k l ttl => void (CreateSession buf u k l ttl)
  | AccLookupSession id => void (LookupSession id)
  | AccTouchSession id => TouchSession id
  | AccDeleteSession id => DeleteSession id
  | AccSweepSessions => void SweepSessions
  | AccCreatePairingCode buf u => void (CreatePairingCode buf u)
  | AccRedeemPairingCode code => void (RedeemPairingCode code)
  | AccSweepPairingCodes => void SweepPairingCodes
  | AccCreateStorage actor name => void (CreateStorage actor name)
  | AccDeleteStorage actor id => DeleteStorage actor id
  | AccAddMember actor st u => AddMember actor st u
  | AccRemoveMember actor st u => RemoveMember actor st u
  | AccSetStartPage st u page => SetStartPage st u page
  end.

(** ** Referential integrity *)

Record refs_ok (d : DB) : Prop := {
  ref_session : forall t s, db_sessions d !! t = Some s -> ses_UserID s ∈ db_users d;
  ref_pairing : forall c p, db_pairing d !! c = Some p -> pc_UserID p ∈ db_users d;
  ref_member : forall st u, (st, u) ∈ db_members d -> st ∈ db_storages d /\ u ∈ db_users d;
  ref_page : forall k m, db_memberships d !! k = Some m -> mem_StartPage m ∈ start_pages;
  ref_actor : forall r a, r ∈ db_audit d -> au_ActorID r = Some a -> a ∈ db_users d;
  ref_name : forall i j u v, db_accounts d !! i = Some u -> db_accounts d !! j = Some v ->
    usr_Username u = usr_Username v -> i = j;
}.

(** The tables the invariant speaks of. *)
Definition account_tables (d : DB) :=
  (db_accounts d, db_sessions d, db_pairing d, db_memberships d, db_audit d, db_storage_rows d).

Lemma refs_ok_ext d d' : account_tables d' = account_tables d -> refs_ok d -> refs_ok d'.
Proof.
  intros E [H1 H2 H3 H4 H5 H6]. unfold account_tables in E. injection E as E1 E2 E3 E4 E5 E6.
  split; unfold db_users, db_storages, db_members in *; rewrite ?E1, ?E2, ?E3, ?E4, ?E5, ?E6; assumption.
Qed.

Lemma user_named_none d name : user_named d name = None -> forall i u, db_accounts d !! i = Some u -> usr_Username u ≠ name.
Proof.
  unfold user_named. intros H i u Hu E. destruct (order_by_id _) as [|x l] eqn:F; [|done].
  assert (Hin : (i, u) ∈ order_by_id (base.filter (fun kv : uuid * User => usr_Username kv.2 = name) (db_accounts d))).
  { apply elem_of_order_by_id, map_lookup_filter_Some. by split. }
  rewrite F in Hin. by apply elem_of_nil in Hin.
Qed.

Lemma user_named_found d i u : refs_ok d -> db_accounts d !! i = Some u -> user_named d (usr_Username u) = Some (i, u).
Proof.
  intros R Hu. destruct (user_named d (usr_Username u)) as [[j v]|] eqn:E.
  - apply user_named_some in E as [Hv En]. assert (i = j) as <- by (by apply (ref_name d R i j u v)). congruence.
  - by apply user_named_none with (i := i) (u := u) in E.
Qed.

(** ** What the statements do *)

Definition without_user (u : uuid) (d : DB) : DB :=
  set_accounts (delete u) (set_audit (map (unset_audit u)) (set_jobs (fmap (unset_job u)) (set_lists (fmap (unset_list u))
  (set_logs (map (unset_log u)) (set_prompts (delete u) (set_contributors (base.filter (fun c : uuid * uuid => c.2 ≠ u))
  (set_holidays (base.filter (fun h : uuid * Z => h.1 ≠ u)) (set_preferences (delete u)
  (set_achievements (base.filter (fun a : uuid * uuid * string => a.1.2 ≠ u))
  (set_progress (base.filter (fun kv : uuid * uuid * UserProgress => kv.1.2 ≠ u))
  (set_contributions (base.filter (fun e => ce_UserID e ≠ u))
  (set_idempotency (base.filter (fun kv : string * uuid * IdempotencyRecord => kv.1.2 ≠ u))
  (set_pairing (base.filter (fun kv : string * PairingCode => pc_UserID kv.2 ≠ u))
  (set_memberships (base.filter (fun kv : uuid * uuid * Member => kv.1.2 ≠ u))
  (set_sessions (base.filter (fun kv : string * Session => ses_UserID kv.2 ≠ u)) d))))))))))))))).

Lemma delete_user_ok u w x w' : delete_user u w = (Ok x, w') -> w' = with_db (without_user u (wdb w)) w.
Proof. unfold delete_user. intros H. by tx_inv. Qed.

(** The audit row of an audited operation. *)
Definition audited_by (actor : uuid) (action : string) (target : AuditValue) (details : list (string * AuditValue))
    (id t : Z) : AuditRow :=
  mkAudit id (if actor =? SystemActor then None else Some actor) action (nullIfEmpty target) details t.

Lemma writeAdminAudit_ok actor action target details w u w' :
  writeAdminAudit actor action target details w = (Ok u, w') ->
  exists id ids, wids w = id :: ids /\
    (actor = SystemActor \/ actor ∈ db_users (wdb w)) /\
    w' = mkWorld (set_audit (fun l => l ++ [audited_by actor action target details id (wnow w)]) (wdb w)) ids (wnow w) (wclock w).
Proof.
  unfold writeAdminAudit. intros H. tx_inv. do 2 eexists. split; [done|]. unfold with_db. split; [|done].
  destruct (Z.eqb_spec actor SystemActor); [by left|]. right. by bool_to_prop.
Qed.

Lemma clean_acc_exec o : (forall id, o ≠ AccLookupSession id) -> clean (acc_exec o).
Proof.
  intros Hne. destruct o; cbn [acc_exec]; try (by exfalso; eapply Hne).
  all: unfold CreateUser, insertUser, AdminCreateUser, SetAdmin, SetDisplayName, update_user, DeleteUser, ChangePassword,
    AdminResetPassword, CreateSession, TouchSession, DeleteSession, SweepSessions, CreatePairingCode,
    RedeemPairingCode, SweepPairingCodes, CreateStorage, DeleteStorage, AddMember, RemoveMember, SetStartPage.
  all: try match goal with |- context [String.eqb ?c ""] => destruct (String.eqb c "") end.
  all: cleanup.
  all: auto with clean.
Qed.

Definition without_storage (st : uuid) (d : DB) : DB :=
  let products := owned prod_StorageID st (db_products d) in
  let locations := owned loc_StorageID st (db_locations d) in
  let containers := owned con_StorageID st (db_containers d) in
  let lists := owned list_StorageID st (db_lists d) in
  let quests := owned q_StorageID st (db_quests d) in
  let batches := dom (base.filter (fun kv : uuid * Batch => b_ProductID kv.2 ∈ products) (db_batches d)) in
  set_storage_rows (delete st)
  (set_locations (base.filter (fun kv : uuid * Location => loc_StorageID kv.2 ≠ st))
  (set_categories (base.filter (fun kv : uuid * Category => cat_StorageID kv.2 ≠ st))
  (set_products (base.filter (fun kv : uuid * Product => prod_StorageID kv.2 ≠ st))
  (set_notifications (delete st) (set_gsettings (delete st)
  (set_contributors (base.filter (fun c : uuid * uuid => c.1 ∉ quests))
  (set_quests (base.filter (fun kv : uuid * Quest => q_StorageID kv.2 ≠ st))
  (set_achievements (base.filter (fun a : uuid * uuid * string => a.1.1 ≠ st))
  (set_progress (base.filter (fun kv : uuid * uuid * UserProgress => kv.1.1 ≠ st))
  (set_contributions (base.filter (fun e => ce_StorageID e ≠ st))
  (set_idempotency (base.filter (fun kv : string * uuid * IdempotencyRecord => idem_StorageID kv.2 ≠ Some st))
  (set_tombstones (base.filter (fun t => ts_StorageID t ≠ st))
  (set_jobs (fun js => unhint locations <$> base.filter (fun kv : uuid * Job => job_StorageID kv.2 ≠ st) js)
  (set_lists (base.filter (fun kv : uuid * ShoppingList => list_StorageID kv.2 ≠ st))
  (set_items (fun items => unmatch_any products <$> base.filter (fun kv : uuid * ShoppingListItem => item_ListID kv.2 ∉ lists) items)
  (set_barcodes (base.filter (fun kv : uuid * string * ProductBarcode => kv.1.1 ≠ st /\ pb_ProductID kv.2 ∉ products))
  (set_containers (base.filter (fun kv : uuid * Container => con_StorageID kv.2 ≠ st))
  (set_batches (fun bs => uncontain containers <$> base.filter (fun kv : uuid * Batch => b_ProductID kv.2 ∉ products) bs)
  (set_logs (fun logs => map (unlink_gone batches) (base.filter (fun l => log_ProductID l ∉ products) logs))
  (set_memberships (base.filter (fun kv : uuid * uuid * Member => kv.1.1 ≠ st)) d)))))))))))))))))))).

Lemma delete_storage_ok st w u w' : delete_storage st w = (Ok u, w') -> w' = with_db (without_storage st (wdb w)) w.
Proof. unfold delete_storage. intros H. by tx_inv. Qed.

Lemma delete_storage_run st w : delete_storage st w = (Ok tt, with_db (without_storage st (wdb w)) w).
Proof.
  destruct (delete_storage st w) as [[[]|e] w'] eqn:H; [by apply delete_storage_ok in H as ->|].
  exfalso. assert (T : total (delete_storage st)) by (unfold delete_storage; repeat (apply total_bind; [auto with clean|intros ?]); auto with clean).
  destruct (T w) as (a & v & E). congruence.
Qed.

Lemma update_user_ok f u w r w' : update_user f u w = (Ok r, w') <->
  exists x, db_accounts (wdb w) !! u = Some x /\ r = (u, f x) /\ w' = with_db (set_accounts (<[u := f x]>) (wdb w)) w.
Proof.
  unfold update_user. split.
  - intros H. tx_inv. eauto.
  - intros (x & Hx & -> & ->). rewrite (bind_step _ get_db w (wdb w) w) by done. rewrite Hx. done.
Qed.

(** ** Keeping the invariant *)

(** Rewriting an account without touching its name. *)
Lemma refs_ok_update f u x d :
  (forall x, usr_Username (f x) = usr_Username x) -> db_accounts d !! u = Some x -> refs_ok d ->
  refs_ok (set_accounts (<[u := f x]>) d).
Proof.
  intros Hf Hx R. assert (E : db_users (set_accounts (<[u := f x]>) d) = db_users d).
  { unfold db_users. cbn. rewrite dom_insert_L. apply elem_of_dom_2 in Hx. set_solver. }
  destruct R as [H1 H2 H3 H4 H5 H6]. split; rewrite ?E; try done.
  intros i j a b Hi Hj. cbn in Hi, Hj. rewrite lookup_insert in Hi, Hj. repeat case_decide; simplify_eq; try done.
  - rewrite Hf. intros En. by eapply H6.
  - rewrite Hf. intros En. by eapply H6.
  - by apply H6.
Qed.

(** Rows of sessions, codes and memberships may go, and change what is not a reference. *)
Lemma refs_ok_fewer d d' :
  db_accounts d' = db_accounts d -> db_storage_rows d' = db_storage_rows d -> db_audit d' = db_audit d ->
  (forall t s, db_sessions d' !! t = Some s -> ses_UserID s ∈ db_users d) ->
  (forall c p, db_pairing d' !! c = Some p -> pc_UserID p ∈ db_users d) ->
  (forall st u m, db_memberships d' !! (st, u) = Some m -> st ∈ db_storages d /\ u ∈ db_users d /\ mem_StartPage m ∈ start_pages) ->
  refs_ok d -> refs_ok d'.
Proof.
  intros Ea Es Eu Hs Hp Hm [H1 H2 H3 H4 H5 H6]. split; unfold db_users, db_storages in *; rewrite ?Ea, ?Es, ?Eu; try done.
  - intros st u Hin. unfold db_members in Hin. apply elem_of_dom in Hin as [m Hmm]. destruct (Hm st u m Hmm) as (? & ? & ?). done.
  - intros [st u] m Hmm. by destruct (Hm st u m Hmm) as (? & ? & ?).
Qed.

Lemma refs_ok_audit actor action target details id t d :
  (actor = SystemActor \/ actor ∈ db_users d) -> refs_ok d ->
  refs_ok (set_audit (fun l => l ++ [audited_by actor action target details id t]) d).
Proof.
  intros Ha [H1 H2 H3 H4 H5 H6]. split; try done. intros r a Hr. cbn in Hr. apply elem_of_app in Hr as [Hr|Hr]; [by apply H5|].
  apply list_elem_of_singleton in Hr as ->. cbn. destruct (Z.eqb_spec actor SystemActor); [done|]. intros [= <-].
  by destruct Ha.
Qed.

Lemma refs_ok_new_user i u d :
  db_accounts d !! i = None -> user_named d (usr_Username u) = None -> refs_ok d -> refs_ok (set_accounts (<[i := u]>) d).
Proof.
  intros Hi Hn R. assert (E : db_users (set_accounts (<[i := u]>) d) = {[i]} ∪ db_users d) by (unfold db_users; cbn; by rewrite dom_insert_L).
  destruct R as [H1 H2 H3 H4 H5 H6]. split; rewrite ?E.
  - intros t s Hs. apply elem_of_union_r. by eapply H1.
  - intros c p Hp. apply elem_of_union_r. by eapply H2.
  - intros st v Hm. destruct (H3 st v Hm). set_solver.
  - done.
  - intros r a Hr Ha. apply elem_of_union_r. by eapply H5.
  - intros a b x y Ha Hb. cbn in Ha, Hb. rewrite lookup_insert in Ha, Hb. repeat case_decide; simplify_eq; try done.
    + intros En. exfalso. by eapply (user_named_none d _ Hn).
    + intros En. exfalso. by eapply (user_named_none d _ Hn).
    + by apply H6.
Qed.

Lemma refs_ok_without_user u d : refs_ok d -> refs_ok (without_user u d).
Proof.
  intros [H1 H2 H3 H4 H5 H6].
  assert (E : forall v, v ∈ db_users d -> v ≠ u -> v ∈ db_users (without_user u d)).
  { intros v Hv Hne. unfold db_users in *. cbn. rewrite dom_delete_L. set_solver. }
  split.
  - intros t s Hs. cbn in Hs. apply map_lookup_filter_Some in Hs as [Hs Hne]. apply E; [by eapply H1 | done].
  - intros c p Hp. cbn in Hp. apply map_lookup_filter_Some in Hp as [Hp Hne]. apply E; [by eapply H2 | done].
  - intros st v Hm. unfold db_members in Hm. cbn in Hm. apply elem_of_dom in Hm as [m Hm].
    apply map_lookup_filter_Some in Hm as [Hm Hne]. apply elem_of_dom_2 in Hm. destruct (H3 st v Hm). split; [done | by apply E].
  - intros k m Hm. cbn in Hm. apply map_lookup_filter_Some in Hm as [Hm _]. by eapply H4.
  - intros r a Hr. cbn in Hr. apply list_elem_of_fmap in Hr as (r0 & -> & Hr). cbn. unfold unset. case_bool_decide as B; [done|].
    intros Ea. apply E; [by eapply H5 | congruence].
  - intros i j x y Hi Hj. cbn in Hi, Hj. apply lookup_delete_Some in Hi as [_ Hi]. apply lookup_delete_Some in Hj as [_ Hj].
    by eapply H6.
Qed.

Lemma refs_ok_without_storage st d : refs_ok d -> refs_ok (without_storage st d).
Proof.
  intros [H1 H2 H3 H4 H5 H6]. split; try done.
  - intros s v Hm. unfold db_members in Hm. cbn in Hm. apply elem_of_dom in Hm as [m Hm].
    apply map_lookup_filter_Some in Hm as [Hm Hne]. apply elem_of_dom_2 in Hm. destruct (H3 s v Hm). split; [|done].
    unfold db_storages in *. cbn in *. rewrite dom_delete_L. set_solver.
  - intros k m Hm. cbn in Hm. apply map_lookup_filter_Some in Hm as [Hm _]. by eapply H4.
Qed.

(** Seeding writes categories and nothing else. *)
Lemma seed_frames {T} (view : DB -> T) st ids l :
  (forall f d, view (set_categories f d) = view d) -> frames view (seed_from st ids l).
Proof.
  intros Hv. revert ids. induction l as [|c l IH]; intros ids; cbn [seed_from]; [apply frames_reads, reads_ret|].
  repeat frame_step; try apply IH. apply frames_modify. intros d. apply Hv.
Qed.

Lemma void_inv {A} (m : Tx A) w w' : void m w = (Ok tt, w') -> exists a, m w = (Ok a, w').
Proof. unfold void. intros H. apply bind_ok in H as (a & w1 & H1 & H2). tx_inv. eauto. Qed.

Ltac audit_inv :=
  match goal with H : writeAdminAudit _ _ _ _ _ = (Ok _, _) |- _ =>
    let id := fresh "auditID" in apply writeAdminAudit_ok in H as (id & ? & ? & ? & ->); cbn [wdb with_db wnow] in * end.

(** A membership as the invariant sees it. *)
Lemma refs_member_row d st u m : refs_ok d -> db_memberships d !! (st, u) = Some m ->
  st ∈ db_storages d /\ u ∈ db_users d /\ mem_StartPage m ∈ start_pages.
Proof.
  intros R Hm. destruct (ref_member _ R st u) as [??]; [by apply elem_of_dom_2 in Hm|].
  split_and!; [done | done | by eapply (ref_page _ R)].
Qed.

Lemma refs_sessions f d :
  (forall t s, f (db_sessions d) !! t = Some s -> ses_UserID s ∈ db_users d) -> refs_ok d -> refs_ok (set_sessions f d).
Proof.
  intros Hf R. eapply refs_ok_fewer; [.. | exact R]; try done; [by apply (ref_pairing _ R)|].
  intros st u m Hm. by apply (refs_member_row d st u m).
Qed.

Lemma refs_pairing f d :
  (forall c p, f (db_pairing d) !! c = Some p -> pc_UserID p ∈ db_users d) -> refs_ok d -> refs_ok (set_pairing f d).
Proof.
  intros Hf R. eapply refs_ok_fewer; [.. | exact R]; try done; [by apply (ref_session _ R)|].
  intros st u m Hm. by apply (refs_member_row d st u m).
Qed.

Lemma refs_members f d :
  (forall st u m, f (db_memberships d) !! (st, u) = Some m -> st ∈ db_storages d /\ u ∈ db_users d /\ mem_StartPage m ∈ start_pages) ->
  refs_ok d -> refs_ok (set_memberships f d).
Proof. intros Hf R. eapply refs_ok_fewer; [.. | exact R]; try done; [by apply (ref_session _ R) | by apply (ref_pairing _ R)]. Qed.

Lemma refs_ok_new_storage i s d : refs_ok d -> refs_ok (set_storage_rows (<[i := s]>) d).
Proof.
  intros [H1 H2 H3 H4 H5 H6]. split; try done. intros st u Hm. destruct (H3 st u Hm). split; [|done].
  unfold db_storages in *. cbn. rewrite dom_insert_L. set_solver.
Qed.

Lemma membershipNames_ok st u w n w' : membershipNames st u w = (Ok n, w') ->
  w' = w /\ exists s x, db_storage_rows (wdb w) !! st = Some s /\ db_accounts (wdb w) !! u = Some x /\ n = (sto_Name s, usr_Username x).
Proof. unfold membershipNames. intros H. tx_inv. eauto 10. Qed.

Lemma users_updated f u x d : db_accounts d !! u = Some x -> db_users (set_accounts (<[u := f x]>) d) = db_users d.
Proof. intros Hx. unfold db_users. cbn. rewrite dom_insert_L. apply elem_of_dom_2 in Hx. set_solver. Qed.

Lemma changePassword_ok u hash keep w r w' : changePassword u hash keep w = (Ok r, w') <->
  exists x, db_accounts (wdb w) !! u = Some x /\
    w' = with_db (set_sessions (base.filter (fun kv : string * Session => ~ (ses_UserID kv.2 = u /\ (keep = "" \/ kv.1 ≠ keep))))
           (set_accounts (<[u := set_password_hash hash x]>) (wdb w))) w.
Proof.
  unfold changePassword. destruct r. split.
  - intros H. tx_next H by update_user_ok as (y & Hy & -> & ->). apply modify_ok in H as ->. eauto.
  - intros (x & Hx & ->). rewrite (bind_step _ _ w _ _ (proj2 (update_user_ok _ _ _ _ _) (ex_intro _ x (conj Hx (conj eq_refl eq_refl))))).
    reflexivity.
Qed.

Lemma changePassword_refs u hash keep w w' : changePassword u hash keep w = (Ok tt, w') -> refs_ok (wdb w) -> refs_ok (wdb w').
Proof.
  intros H R. apply changePassword_ok in H as (x & Hx & ->). cbn. apply refs_sessions; [|by apply refs_ok_update].
  intros t s Hs. apply map_lookup_filter_Some in Hs as [Hs _]. rewrite (users_updated (set_password_hash hash)) by done.
  by eapply (ref_session _ R).
Qed.

Lemma CreateStorage_ok actor name w r w' : CreateStorage actor name w = (Ok r, w') ->
  exists w1 w2 id t a ids, wids w = (id :: ids) /\ id ∉ db_storages (wdb w) /\ r = (id, mkStorage name t) /\ t = wnow w /\
    w1 = mkWorld (set_storage_rows (<[id := mkStorage name t]>) (wdb w)) ids (wnow w) (wclock w) /\
    seedStarterCategories id w1 = (Ok tt, w2) /\ (actor = SystemActor \/ actor ∈ db_users (wdb w2)) /\
    wdb w' = set_audit (fun l => l ++ [audited_by actor ActionStorageCreated (AuditID id) (text_field "storage_name" name) a (wnow w2)]) (wdb w2).
Proof.
  unfold CreateStorage. intros H. tx_next H for id by newID_ok as (ids & E & ->). tx_inv1 H.
  tx_next H for d by get_db_ok as [-> ->]. tx_next H for t by now_ok as [-> ->]. tx_next H by require_ok as [Hi ->].
  tx_next H by modify_ok as ->. apply bind_ok in H as ([] & w2 & Hseed & H). tx_inv. audit_inv.
  do 6 eexists. split_and!; try done. by bool_to_prop.
Qed.

Lemma seedStarterCategories_tables st : frames account_tables (seedStarterCategories st).
Proof. by apply seed_frames. Qed.

(** A page, a role, a name or a lapse of a row that is not referred to. *)
Lemma acc_exec_ok_refs o w w' : acc_exec o w = (Ok tt, w') -> refs_ok (wdb w) -> refs_ok (wdb w').
Proof.
  intros H R. destruct o; cbn [acc_exec] in H;
    try match type of H with void _ _ = _ => apply void_inv in H as [? H] end.
  - unfold CreateUser, insertUser in H. tx_inv. bool_to_prop. destruct_and?. by apply refs_ok_new_user.
  - unfold AdminCreateUser, insertUser in H. tx_inv. bool_to_prop. destruct_and?. audit_inv.
    apply refs_ok_audit; [done|]. by apply refs_ok_new_user.
  - unfold SetAdmin in H. tx_next H by update_user_ok as (y & Hy & -> & ->). tx_inv. by apply refs_ok_update.
  - unfold SetDisplayName in H. apply update_user_ok in H as (y & Hy & -> & ->). by apply refs_ok_update.
  - unfold DeleteUser in H. tx_inv1 H. tx_next H for d by get_db_ok as [-> ->]. tx_next H for y by some_or_ok as [Hy ->].
    tx_next H by delete_user_ok as ->. audit_inv. apply refs_ok_audit; [done|]. by apply refs_ok_without_user.
  - unfold ChangePassword in H. tx_inv1 H. by eapply changePassword_refs.
  - unfold AdminResetPassword in H. tx_inv1 H. apply bind_ok in H as ([] & w1 & H1 & H). apply changePassword_refs in H1; [|done].
    tx_inv. audit_inv. by apply refs_ok_audit.
  - unfold CreateSession in H. tx_inv. bool_to_prop. destruct_and?. apply refs_sessions; [|done].
    intros t s Hs. rewrite lookup_insert in Hs. case_decide; simplify_eq; [done | by eapply (ref_session _ R)].
  - unfold LookupSession in H. tx_inv. case_in H; tx_inv. done.
  - unfold TouchSession in H. tx_inv. apply refs_sessions; [|done]. intros t s Hs. rewrite lookup_alter in Hs. case_decide.
    + apply fmap_Some in Hs as (s0 & Hs & ->). apply (ref_session _ R) in Hs. by destruct (seen_lately _ s0).
    + by eapply (ref_session _ R).
  - unfold DeleteSession in H. tx_inv. apply refs_sessions; [|done]. intros t s Hs. apply lookup_delete_Some in Hs as [_ Hs].
    by eapply (ref_session _ R).
  - unfold SweepSessions in H. tx_inv. apply refs_sessions; [|done]. intros t s Hs. apply map_lookup_filter_Some in Hs as [Hs _].
    by eapply (ref_session _ R).
  - unfold CreatePairingCode in H. tx_inv. bool_to_prop. destruct_and?. apply refs_pairing; [|done].
    intros t s Hs. rewrite lookup_insert in Hs. case_decide; simplify_eq; [done | by eapply (ref_pairing _ R)].
  - unfold RedeemPairingCode in H. case_in H; [done|]. tx_inv. apply refs_pairing; [|done].
    intros t s Hs. rewrite lookup_insert in Hs. case_decide; simplify_eq; cbn; by eapply (ref_pairing _ R).
  - unfold SweepPairingCodes in H. tx_inv. apply refs_pairing; [|done]. intros t s Hs. apply map_lookup_filter_Some in Hs as [Hs _].
    by eapply (ref_pairing _ R).
  - apply CreateStorage_ok in H as (w1 & w2 & id & t & a & ids & E & Hi & -> & -> & -> & Hseed & Ha & ->).
    apply refs_ok_audit; [done|]. eapply refs_ok_ext; [by eapply seedStarterCategories_tables|]. by apply refs_ok_new_storage.
  - unfold DeleteStorage in H. tx_inv1 H. tx_next H for d by get_db_ok as [-> ->]. tx_next H for y by some_or_ok as [Hy ->].
    tx_next H by require_ok as [Hr ->]. tx_next H by delete_storage_ok as ->. audit_inv.
    apply refs_ok_audit; [done|]. by apply refs_ok_without_storage.
  - unfold AddMember in H. tx_inv1 H. tx_next H by membershipNames_ok as (-> & s & u & Hs & Hu & ->). tx_inv. audit_inv.
    apply refs_ok_audit; [done|]. apply refs_members; [|done]. intros st v m Hm.
    destruct (db_memberships (wdb w) !! (storageID, userID)) as [m0|]; [by apply (refs_member_row _ st v m R)|].
    rewrite lookup_insert in Hm. case_decide; simplify_eq; [|by apply (refs_member_row _ st v m R)].
    split_and!; [by apply elem_of_dom_2 in Hs | by apply elem_of_dom_2 in Hu | cbn; set_solver].
  - unfold RemoveMember in H. tx_inv1 H. tx_next H by membershipNames_ok as (-> & s & u & Hs & Hu & ->). tx_inv. audit_inv.
    apply refs_ok_audit; [done|]. apply refs_members; [|done]. intros st v m Hm. apply lookup_delete_Some in Hm as [_ Hm].
    by apply (refs_member_row _ st v m R).
  - unfold SetStartPage in H. tx_inv. bool_to_prop. apply refs_members; [|done]. intros st v m Hm.
    rewrite lookup_insert in Hm. case_decide; simplify_eq; [|by apply (refs_member_row _ st v m R)].
    match goal with Hx : db_memberships _ !! _ = Some ?m0 |- _ => destruct (refs_member_row _ _ _ m0 R Hx) as (? & ? & ?) end. done.
Qed.

(** ** Stock and the storages that go *)

Lemma owned_spec {V} (storage_of : V -> uuid) st (m : gmap uuid V) i :
  i ∈ owned storage_of st m <-> exists v, m !! i = Some v /\ storage_of v = st.
Proof.
  unfold owned. rewrite elem_of_dom. split.
  - intros [v Hv]. apply map_lookup_filter_Some in Hv. eauto.
  - intros (v & Hv & E). exists v. by apply map_lookup_filter_Some.
Qed.

Lemma uncontain_fields gone b :
  b_ProductID (uncontain gone b) = b_ProductID b /\ b_LocationID (uncontain gone b) = b_LocationID b /\
  b_Quantity (uncontain gone b) = b_Quantity b /\ b_ExpirationSource (uncontain gone b) = b_ExpirationSource b /\
  forall c, b_ContainerID (uncontain gone b) = Some c -> b_ContainerID b = Some c /\ c ∉ gone.
Proof.
  unfold uncontain. destruct (b_ContainerID b) as [c|] eqn:E; [|by rewrite E].
  case_bool_decide; split_and!; try done. rewrite E. by intros c' [= <-].
Qed.

Definition kept_product (st : uuid) (d : DB) (p : uuid) : Prop := p ∉ owned prod_StorageID st (db_products d).

Lemma stock_without_storage st d p :
  stock (without_storage st d) p = if bool_decide (kept_product st d p) then stock d p else 0.
Proof.
  unfold stock. cbn. rewrite msum_fmap.
  erewrite msum_ext by (intros i b _; destruct (uncontain_fields (owned con_StorageID st (db_containers d)) b) as (-> & _ & -> & _); reflexivity).
  etransitivity; [apply (msum_filter _ (fun b => kept_product st d (b_ProductID b)))|].
  case_bool_decide as K.
  - apply msum_ext. intros i b _. case_decide as E; [done|]. destruct (Z.eqb_spec (b_ProductID b) p) as [<-|]; done.
  - apply msum_zero. intros i b _. case_decide as E; [|done]. destruct (Z.eqb_spec (b_ProductID b) p) as [<-|]; done.
Qed.

Lemma ledger_without_storage st d p :
  ledger (without_storage st d) p = if bool_decide (kept_product st d p) then ledger d p else 0.
Proof.
  unfold ledger. cbn. rewrite lsum_map.
  erewrite lsum_ext by (intros l; match goal with |- context [unlink_gone ?g l] => destruct (unlink_gone_fields g l) as [-> ->] end; reflexivity).
  rewrite (lsum_filter _ (fun l => kept_product st d (log_ProductID l))). case_bool_decide as K.
  - apply lsum_ext. intros l. case_decide as E; [done|]. destruct (Z.eqb_spec (log_ProductID l) p) as [<-|]; done.
  - induction (db_logs d) as [|l ls IH]; [done|]. cbn [lsum]. rewrite IH. case_decide as E; [|done].
    destruct (Z.eqb_spec (log_ProductID l) p) as [<-|]; done.
Qed.

Lemma wf_without_storage st d : wf d -> wf (without_storage st d).
Proof.
  intros [Wb Wl]. split; cbn.
  - intros i b' H. rewrite lookup_fmap in H. apply fmap_Some in H as (b & H & ->).
    apply map_lookup_filter_Some in H as [Hb Hk]. cbn in Hk.
    destruct (uncontain_fields (owned con_StorageID st (db_containers d)) b) as (Ep & El & Eq & Es & Ec).
    destruct (Wb i b Hb) as (p & l & Hp & Hl & Hs & Hq & Hx & Hc).
    assert (Hne : prod_StorageID p ≠ st) by (intros E; apply Hk, owned_spec; eauto).
    exists p, l. rewrite Ep, El, Eq, Es. split_and!; try tauto.
    + by apply map_lookup_filter_Some.
    + apply map_lookup_filter_Some. split; [done|]. cbn. congruence.
    + intros c Hcc. destruct (Ec c Hcc) as [Hb' _]. destruct (Hc c Hb') as (con & Hcon & Hcs & Hd). exists con.
      split_and!; [|done|done]. apply map_lookup_filter_Some. split; [done|]. cbn. congruence.
  - intros l' Hl. apply list_elem_of_fmap in Hl as (l & -> & Hl). apply list_elem_of_filter in Hl as [Hk Hl].
    match goal with |- context [unlink_gone ?g l] => destruct (unlink_gone_fields g l) as [Ep _]; pose proof (unlink_gone_link g l) as Hu end.
    destruct (Wl l Hl) as [[p Hp] Hb]. unfold log_ok. rewrite Ep. cbn. split.
    + exists p. apply map_lookup_filter_Some. split; [done|]. cbn. intros E. apply Hk, owned_spec. eauto.
    + intros i Hi. apply Hu in Hi as [Hi _]. destruct (Hb i Hi) as (b & Hbb & Hbp). exists (uncontain (owned con_StorageID st (db_containers d)) b).
      destruct (uncontain_fields (owned con_StorageID st (db_containers d)) b) as (-> & _). split; [|done].
      rewrite lookup_fmap. apply fmap_Some. exists b. split; [|done]. apply map_lookup_filter_Some. split; [done|]. cbn. congruence.
Qed.

Lemma consistent_without_storage st d : consistent d -> consistent (without_storage st d).
Proof.
  intros [W B]. split; [by apply wf_without_storage|]. intros p. rewrite stock_without_storage, ledger_without_storage.
  by rewrite (B p).
Qed.

(** The ledger forgets who moved what, not what moved. *)
Lemma good_step_without_user u d : good_step d (without_user u d).
Proof.
  intros [Wb Wl]. split; [split|].
  - exact Wb.
  - intros l' Hl. cbn in Hl. apply list_elem_of_fmap in Hl as (l & -> & Hl). exact (Wl l Hl).
  - intros p. unfold gap, stock, ledger. cbn. by rewrite lsum_map.
Qed.
