(* ===== verification/Household.v ===== *)
(** * The household as a whole

    Every operation of the store modelled by the component files, as one command
    type [Op] with an executable interpreter [exec], and [run], which applies a
    sequence of them one transaction after the other, failures included.  The
    theorems are about every such sequence: the stock invariant holds after it,
    and an operation that reports an error has changed nothing. *)

From S2P Require Import Prelude Gamification Text Db Outcomes AuditLog Sample Expiry Matching Tree Progress ShelfLife Containers Batches Recompute Weekly Ledger StockSteps BatchSpec Stocktake Jobs Consumption Locations Products Ingestion Shopping EditSteps IngestionSpec ShoppingSpec ListSpec Barcodes ExpirySpec MergeSpec.

#[local] Open Scope string_scope.
#[local] Open Scope list_scope.
#[local] Open Scope Z_scope.

(** ** The operations *)

Inductive Op :=
| OpCreateBatch (storageID : uuid) (nb : NewBatch)
| OpAdjustBatch (storageID batchID : uuid) (delta : Z) (reason : string) (userID : option uuid)
| OpSplitBatch (storageID batchID : uuid) (sp : SplitBatchInput) (userID : option uuid)
| OpUpdateBatch (storageID batchID : uuid) (patch : BatchPatch) (userID : option uuid)
| OpDestroyContainer (storageID containerID : uuid)
| OpSetBatchExpiration (storageID batchID : uuid) (date : option Time) (userID : option uuid)
| OpResetBatchExpiration (storageID batchID : uuid)
| OpRecomputeDerivedExpiry (storageID productID : uuid)
| OpRecomputeForCategory (storageID categoryID : uuid)
| OpConfirmStocktake (storageID locationID : uuid) (userID : option uuid) (counts : list StocktakeCount) (found : list FoundStock)
| OpConfirmConsumption (storageID jobID : uuid) (userID : option uuid) (decisions : list ConsumeDecision)
| OpConfirmIngestion (storageID jobID : uuid) (userID : option uuid) (decisions : list IngestDecision)
| OpInsertCatalogProduct (inp : NewCatalogProduct)
| OpCreateShoppingList (storageID : uuid) (source : string) (createdBy : option uuid) (items : list NewShoppingListItem)
| OpCreateShoppingListFromJob (storageID jobID : uuid) (createdBy : option uuid) (items : list NewShoppingListItem)
| OpRematchShoppingListItem (storageID itemID : uuid) (rawText status : string) (matched : option uuid)
| OpResolveShoppingListItem (storageID itemID : uuid) (inp : ResolveLine) (userID : option uuid)
| OpAssociateBarcode (storageID productID : uuid) (code : string)
| OpDeleteProductBarcode (storageID productID : uuid) (code : string)
| OpLogBarcode (storageID : uuid) (code : string) (userID : option uuid) (inp : BarcodeLogInput)
| OpCreateProductFromBarcodeHint (storageID : uuid) (code : string)
| OpIncrementBarcodeScanCount (code : string)
| OpDeleteCatalogBarcode (actor : uuid) (code : string)
| OpSetBarcodePromptEnabled (userID : uuid) (enabled : bool)
| OpMarkBarcodePromptShown (userID : uuid)
| OpGenerateWeeklyQuests (storageID t : Z)
| OpEvaluateStorageAchievements (storageID : uuid)
| OpEvaluateZeroWasteWeek (storageID weekStart : Z)
| OpUpdateStorageGamificationSettings (storageID : uuid) (leaderboardEnabled : bool) (weeklyGoalItems : Z)
| OpSetPreferences (userID : uuid) (enabled : bool) (weeks : list Z)
| OpCreateLocation (storageID : uuid) (nl : NewLocation)
| OpCreateLocationAsUser (storageID : uuid) (nl : NewLocation) (userID : uuid)
| OpMoveLocation (storageID id : uuid) (parentID : option uuid)
| OpUpdateLocation (storageID id : uuid) (patch : LocationPatch)
| OpRenameLocation (storageID id : uuid) (name : string) (description : option string)
| OpDeleteLocation (storageID id : uuid)
| OpCreateCategory (storageID : uuid) (nc : NewCategory)
| OpCreateCategoryAsUser (storageID : uuid) (nc : NewCategory) (userID : uuid)
| OpUpdateCategory (storageID id : uuid) (patch : CategoryPatch)
| OpMoveCategory (storageID id : uuid) (parentID : option uuid)
| OpDeleteCategory (storageID id : uuid)
| OpSetCategoryShelfLife (storageID id : uuid) (days : option Z)
| OpCreateProduct (storageID : uuid) (np : NewProduct)
| OpSetProductCategory (storageID id : uuid) (categoryID : option uuid)
| OpSetProductCategoryAsUser (storageID id : uuid) (categoryID : option uuid) (userID : uuid)
| OpSetProductImageAsUser (storageID id : uuid) (imageURL iconName : option string) (userID : uuid)
| OpUpdateProduct (storageID id : uuid) (patch : ProductPatch)
| OpDeleteProduct (storageID id : uuid)
| OpMergeProducts (storageID survivorID sourceID : uuid)
| OpSweepTombstones (t : Z)
| OpCreateJob (nj : NewJob)
| OpClearJobImage (id : uuid)
| OpCompleteJob (id : uuid) (payload : Payload)
| OpFailJob (id : uuid) (message : string)
| OpFailOrphanedJobs (owner : uuid)
| OpRenewJobLeases (lease : JobLease)
| OpReleaseJobLeases (owner : uuid)
| OpDeleteJob (storageID id : uuid)
| OpDiscardJobs (storageID : uuid) (upTo : Z)
| OpRequeueJob (storageID id : uuid) (lease : JobLease)
| OpConsumeJob (storageID id : uuid)
| OpWait (d : Z).

(** Time passing: both clocks move, forward or not at all. *)
Definition wait (d : Z) : Tx unit := fun w =>
  (Ok tt, mkWorld (wdb w) (wids w) (wnow w + Z.max 0 d) (wclock w + Z.max 0 d)).

Definition exec (o : Op) : Tx unit :=
  match o with
  | OpCreateBatch st nb => void (CreateBatch st nb)
  | OpAdjustBatch st id delta reason u => AdjustBatch st id delta reason u
  | OpSplitBatch st id sp u => void (SplitBatch st id sp u)
  | OpUpdateBatch st id patch u => void (UpdateBatch st id patch u)
  | OpDestroyContainer st c => DestroyContainer st c
  | OpSetBatchExpiration st id date u => void (SetBatchExpiration st id date u)
  | OpResetBatchExpiration st id => void (ResetBatchExpirationToDerived st id)
  | OpRecomputeDerivedExpiry st p => void (RecomputeDerivedExpiry st p)
  | OpRecomputeForCategory st c => void (RecomputeDerivedExpiryForCategory st c)
  | OpConfirmStocktake st loc u counts found => void (ConfirmStocktake st loc u counts found)
  | OpConfirmConsumption st id u ds => void (ConfirmConsumption st id u ds)
  | OpConfirmIngestion st id u ds => void (ConfirmIngestion st id u ds)
  | OpInsertCatalogProduct inp => void (InsertCatalogProduct inp)
  | OpCreateShoppingList st source u items => void (CreateShoppingList st source u items)
  | OpCreateShoppingListFromJob st job u items => void (CreateShoppingListFromJob st job u items)
  | OpRematchShoppingListItem st id raw status m => void (RematchShoppingListItem st id raw status m)
  | OpResolveShoppingListItem st id inp u => void (ResolveShoppingListItem st id inp u)
  | OpAssociateBarcode st p code => void (AssociateBarcode st p code)
  | OpDeleteProductBarcode st p code => DeleteProductBarcode st p code
  | OpLogBarcode st code u inp => void (LogBarcode st code u inp)
  | OpCreateProductFromBarcodeHint st code => void (CreateProductFromBarcodeHint st code)
  | OpIncrementBarcodeScanCount code => IncrementBarcodeScanCount code
  | OpDeleteCatalogBarcode actor code => DeleteCatalogBarcode actor code
  | OpSetBarcodePromptEnabled u enabled => void (SetBarcodePromptEnabled u enabled)
  | OpMarkBarcodePromptShown u => void (MarkBarcodePromptShown u)
  | OpGenerateWeeklyQuests st t => GenerateWeeklyQuests st t
  | OpEvaluateStorageAchievements st => EvaluateStorageAchievements st
  | OpEvaluateZeroWasteWeek st week => EvaluateZeroWasteWeek st week
  | OpUpdateStorageGamificationSettings st enabled goal => UpdateStorageGamificationSettings st enabled goal
  | OpSetPreferences u enabled weeks => SetPreferences u enabled weeks
  | OpCreateLocation st nl => void (CreateLocation st nl)
  | OpCreateLocationAsUser st nl u => void (CreateLocationAsUser st nl u)
  | OpMoveLocation st id p => MoveLocation st id p
  | OpUpdateLocation st id patch => void (UpdateLocation st id patch)
  | OpRenameLocation st id name de => RenameLocation st id name de
  | OpDeleteLocation st id => DeleteLocation st id
  | OpCreateCategory st nc => void (CreateCategory st nc)
  | OpCreateCategoryAsUser st nc u => void (CreateCategoryAsUser st nc u)
  | OpUpdateCategory st id patch => void (UpdateCategory st id patch)
  | OpMoveCategory st id p => MoveCategory st id p
  | OpDeleteCategory st id => DeleteCategory st id
  | OpSetCategoryShelfLife st id days => SetCategoryShelfLife st id days
  | OpCreateProduct st np => void (CreateProduct st np)
  | OpSetProductCategory st id c => SetProductCategory st id c
  | OpSetProductCategoryAsUser st id c u => SetProductCategoryAsUser st id c u
  | OpSetProductImageAsUser st id url icon u => SetProductImageAsUser st id url icon u
  | OpUpdateProduct st id patch => void (UpdateProduct st id patch)
  | OpDeleteProduct st id => void (DeleteProduct st id)
  | OpMergeProducts st s source => void (MergeProducts st s source)
  | OpSweepTombstones t => void (SweepTombstones t)
  | OpCreateJob nj => void (CreateJob nj)
  | OpClearJobImage id => ClearJobImage id
  | OpCompleteJob id p => CompleteJob id p
  | OpFailJob id m => FailJob id m
  | OpFailOrphanedJobs o => void (FailOrphanedJobs o)
  | OpRenewJobLeases l => void (RenewJobLeases l)
  | OpReleaseJobLeases o => void (ReleaseJobLeases o)
  | OpDeleteJob st id => void (DeleteJob st id)
  | OpDiscardJobs st t => void (DiscardJobs st t)
  | OpRequeueJob st id l => RequeueJob st id l
  | OpConsumeJob st id => inTx (ConsumeJob st id)
  | OpWait d => wait d
  end.

(** One after the other; an operation that fails leaves the world it failed in. *)
Definition run (ops : list Op) (w : World) : World := foldl (fun w o => (exec o w).2) w ops.

(** The Go types of the arguments: a decrement is an [int]. *)
Definition op_typed (o : Op) : Prop :=
  match o with
  | OpConfirmConsumption _ _ _ ds => Forall int64_decision ds
  | _ => True
  end.

(** ** An error changes nothing *)

Lemma total_update_jobs sel f : total (update_jobs sel f).
Proof. intros w. unfold update_jobs, mbind, tx_bind, get_db, modify, mret, tx_ret. eauto. Qed.
Lemma total_delete_jobs sel : total (delete_jobs sel).
Proof. intros w. unfold delete_jobs, mbind, tx_bind, get_db, modify, mret, tx_ret. eauto. Qed.
#[export] Hint Resolve total_update_jobs total_delete_jobs : clean.

(** A statement that found no row wrote nothing. *)
Lemma update_location_missing f st id w w' : update_location f st id w = (Ok false, w') -> w' = w.
Proof. intros H. apply update_location_ok in H as [[_ ->]|(l & E & _)]; [done | done]. Qed.

Lemma clean_update_location f st id : clean (update_location f st id).
Proof.
  intros w e w' H. unfold update_location in H. rewrite (bind_step _ get_db w (wdb w) w) in H by reflexivity.
  destruct (db_locations (wdb w) !! id) as [l|]; [|done]. destruct (loc_StorageID l =? st); [|done].
  apply bind_fail in H as [H|(a & w1 & H1 & H)]; [by eapply reads_require | done].
Qed.

Lemma clean_update_category f st id : clean (update_category f st id).
Proof.
  intros w e w' H. unfold update_category in H. rewrite (bind_step _ get_db w (wdb w) w) in H by reflexivity.
  destruct (db_categories (wdb w) !! id) as [c|]; [|done]. destruct (cat_StorageID c =? st); [|done].
  apply bind_fail in H as [H|(a & w1 & H1 & H)]; [by eapply reads_require | done].
Qed.

Lemma update_category_missing f st id w w' : update_category f st id w = (Ok false, w') -> w' = w.
Proof.
  intros H. unfold update_category in H. tx_next H by get_db_ok as [-> ->].
  destruct (db_categories (wdb w) !! id) as [c|]; [|by tx_inv].
  destruct (cat_StorageID c =? st); [|by tx_inv]. by tx_inv.
Qed.

(** [found ← update; require found]: the one-statement operations. *)
Lemma clean_found (m : Tx bool) e :
  clean m -> (forall w w', m w = (Ok false, w') -> w' = w) ->
  clean (found ← m; require found e).
Proof.
  intros Hm Hf w e' w' H. apply bind_fail in H as [H|(found & w1 & H1 & H)]; [by eapply Hm|].
  pose proof (reads_require _ _ _ _ _ H) as ->. destruct found; [done|]. by apply Hf in H1 as ->.
Qed.

Lemma clean_finishJob id s p m : clean (finishJob id s p m).
Proof.
  unfold finishJob. apply clean_after_reads; [auto with clean|]. intros t w e w' H.
  apply bind_fail in H as [H|(n & w1 & H1 & H)].
  { destruct (total_update_jobs (fun kv => (kv.1 =? id) && is_status JobPending kv.2) (set_outcome s p m t) w)
      as (n & v & E). congruence. }
  pose proof (reads_require _ _ _ _ _ H) as ->. unfold require in H. case_in H; [done|]. bool_to_prop. subst n.
  unfold update_jobs in H1. tx_inv. unfold set_jobs.
  match goal with E : Z.of_nat (size ?m) = 0 |- _ => assert (Em : m = ∅) by (apply map_size_empty_inv; lia) end.
  replace (map_imap _ (db_jobs (wdb w))) with (db_jobs (wdb w)); [by destruct (wdb w)|].
  apply map_eq. intros i. rewrite map_lookup_imap. destruct (db_jobs (wdb w) !! i) as [j|] eqn:Hj; [|done]. cbn.
  destruct ((i =? id) && is_status JobPending j) eqn:E; [|done].
  exfalso. apply (map_empty_filter_1 _ _ Em i j Hj). exact E.
Qed.

Lemma clean_DeleteJob st id : clean (DeleteJob st id).
Proof.
  intros w e w' H. unfold DeleteJob in H. apply bind_fail in H as [H|(rows & w1 & H1 & H)].
  { destruct (total_delete_jobs (fun kv => (kv.1 =? id) && (job_StorageID kv.2 =? st)) w) as (n & v & E). congruence. }
  apply bind_fail in H as [H|(row & w2 & H2 & H)]; [|done].
  pose proof (reads_some_or _ _ _ _ _ H) as ->.
  destruct (head rows) eqn:Hh; [done|]. destruct rows as [|]; [|done]. unfold delete_jobs in H1. tx_inv.
  match goal with E : map _ (order_by_id ?m) = [] |- _ => assert (Em : m = ∅) end.
  { apply map_empty. intros i. destruct (jobs_where _ (wdb w) !! i) as [j|] eqn:E; [|done]. exfalso.
    apply elem_of_order_by_id in E.
    match goal with H : map _ ?l = [] |- _ => destruct l; [by apply elem_of_nil in E | done] end. }
  replace (set_jobs _ (wdb w)) with (wdb w); [done|].
  unfold set_jobs. rewrite map_filter_id; [by destruct (wdb w)|].
  intros i j Hj. apply not_true_iff_false. intros E. apply (map_empty_filter_1 _ _ Em i j Hj). exact E.
Qed.

Lemma clean_RenewJobLeases l : clean (RenewJobLeases l).
Proof.
  unfold RenewJobLeases. destruct (claim l) as [[o s]|]; [|auto with clean].
  apply clean_after_reads; auto with clean.
Qed.

#[export] Hint Resolve clean_finishJob clean_DeleteJob clean_RenewJobLeases clean_update_location clean_update_category : clean.

Lemma clean_RenameLocation st id n de : clean (RenameLocation st id n de).
Proof.
  unfold RenameLocation. apply clean_after_reads; [auto with clean|]. intros t. apply clean_found; [auto with clean|].
  intros w w'. apply update_location_missing.
Qed.

Lemma clean_SetCategoryShelfLife st id days : clean (SetCategoryShelfLife st id days).
Proof.
  unfold SetCategoryShelfLife. apply clean_after_reads; [auto with clean|]. intros t. apply clean_found; [auto with clean|].
  intros w w'. apply update_category_missing.
Qed.

Lemma clean_ResolveShoppingListItem st id inp u : clean (ResolveShoppingListItem st id inp u).
Proof. unfold ResolveShoppingListItem. destruct (validate inp); auto with clean. Qed.

Lemma reads_require_code code e : reads (require_code code e).
Proof. unfold require_code. destruct (ValidateBarcode code); auto with clean. Qed.

Lemma clean_IncrementBarcodeScanCount code : clean (IncrementBarcodeScanCount code).
Proof.
  unfold IncrementBarcodeScanCount. apply clean_after_reads; [auto with clean|]. intros d.
  destruct (db_catalog_barcodes d !! code); [|auto with clean]. apply clean_after_reads; auto with clean.
Qed.

Lemma clean_SetBarcodePromptEnabled u enabled : clean (SetBarcodePromptEnabled u enabled).
Proof.
  intros w e w' H. rewrite SetBarcodePromptEnabled_run in H. destruct (prompt_columns (wdb w) u); [done|]. by injection H as _ <-.
Qed.

#[export] Hint Resolve reads_require_code clean_IncrementBarcodeScanCount clean_SetBarcodePromptEnabled : clean.

Lemma total_SweepTombstones t : total (SweepTombstones t).
Proof. intros w. unfold SweepTombstones, mbind, tx_bind, get_db, modify, mret, tx_ret. eauto. Qed.

Lemma total_wait d : total (wait d).
Proof. intros w. unfold wait. eauto. Qed.

#[export] Hint Resolve clean_RenameLocation clean_SetCategoryShelfLife clean_ResolveShoppingListItem
  total_SweepTombstones total_wait : clean.

(** The one operation that commits as it goes: RecomputeDerivedExpiryForCategory
    runs one transaction per product. *)
Definition one_transaction (o : Op) : Prop :=
  match o with OpRecomputeForCategory _ _ => False | _ => True end.

Lemma clean_exec o : one_transaction o -> clean (exec o).
Proof.
  destruct o; intros Ho; cbn [exec];
    unfold CreateBatch, AdjustBatch, SplitBatch, UpdateBatch, DestroyContainer, SetBatchExpiration,
      ResetBatchExpirationToDerived, RecomputeDerivedExpiry, ConfirmStocktake, ConfirmConsumption, ConfirmIngestion,
      InsertCatalogProduct, CreateShoppingList, CreateShoppingListFromJob, RematchShoppingListItem, AssociateBarcode,
      DeleteProductBarcode, DeleteCatalogBarcode, LogBarcode, CreateProductFromBarcodeHint, MarkBarcodePromptShown,
      GenerateWeeklyQuests, EvaluateStorageAchievements, EvaluateZeroWasteWeek, UpdateStorageGamificationSettings,
      SetPreferences, CreateLocation,
      CreateLocationAsUser, MoveLocation, UpdateLocation, DeleteLocation, CreateCategory, CreateCategoryAsUser,
      MoveCategory, UpdateCategory, DeleteCategory, CreateProduct, SetProductCategory, SetProductCategoryAsUser,
      SetProductImageAsUser, UpdateProduct, DeleteProduct, MergeProducts, CreateJob, ClearJobImage, CompleteJob,
      FailJob, FailOrphanedJobs, ReleaseJobLeases, DiscardJobs, RequeueJob; cbv zeta;
    cleanup.
  by destruct Ho.
Qed.

(** ** Operations that touch no stock *)

(** The job and tombstone statements leave products, locations, containers, batches
    and log rows alone. *)
Lemma frames_update_jobs sel f : frames inventory_of (update_jobs sel f).
Proof. unfold update_jobs. frame_walk. Qed.

Lemma frames_delete_jobs sel : frames inventory_of (delete_jobs sel).
Proof. unfold delete_jobs. frame_walk. Qed.

Lemma reads_requireSameStorage t st id : reads (requireSameStorage t st id).
Proof. unfold requireSameStorage, reads. frame_walk. Qed.

#[export] Hint Resolve frames_update_jobs frames_delete_jobs reads_requireSameStorage : frames.

(** The operations of the job table and of the tombstone table. *)
Lemma frames_ops o :
  match o with
  | OpSweepTombstones _ | OpCreateJob _ | OpClearJobImage _ | OpCompleteJob _ _ | OpFailJob _ _
  | OpFailOrphanedJobs _ | OpRenewJobLeases _ | OpReleaseJobLeases _ | OpDeleteJob _ _ | OpDiscardJobs _ _
  | OpRequeueJob _ _ _ | OpConsumeJob _ _ | OpDeleteProductBarcode _ _ _ | OpIncrementBarcodeScanCount _
  | OpDeleteCatalogBarcode _ _ | OpSetBarcodePromptEnabled _ _ | OpMarkBarcodePromptShown _
  | OpGenerateWeeklyQuests _ _ | OpEvaluateStorageAchievements _ | OpEvaluateZeroWasteWeek _ _
  | OpUpdateStorageGamificationSettings _ _ _ | OpSetPreferences _ _ _ => frames inventory_of (exec o)
  | _ => True
  end.
Proof.
  destruct o; try exact I; cbn [exec];
    unfold void, SweepTombstones, CreateJob, ClearJobImage, CompleteJob, FailJob, finishJob, FailOrphanedJobs,
      RenewJobLeases, ReleaseJobLeases, DeleteJob, DiscardJobs, RequeueJob, ConsumeJob, DeleteProductBarcode,
      IncrementBarcodeScanCount, DeleteCatalogBarcode, writeAdminAudit, SetBarcodePromptEnabled, MarkBarcodePromptShown,
      requireProductInStorage, GenerateWeeklyQuests, gatherQuestCandidates, insert_quest, updateCleanStreak,
      EvaluateStorageAchievements, EvaluateZeroWasteWeek, evaluateWellStocked, awardToEveryMember, award, ensure_settings,
      settings_row, update_settings, storageMemberIDs, pay_milestones, pay_once, achievementNewlyUnlocked,
      UpdateStorageGamificationSettings, SetPreferences, setGamificationEnabledTx,
      setHolidayWeeksTx; cbv zeta;
    frame_walk.
Qed.

(** ** Every operation keeps the household consistent *)

Create HintDb good discriminated.
#[export] Hint Constants Opaque : good.
#[export] Hint Resolve CreateBatch_good AdjustBatch_good SplitBatch_good UpdateBatch_good DestroyContainer_good
  SetBatchExpiration_good ResetBatchExpirationToDerived_good RecomputeDerivedExpiry_good ConfirmStocktake_good
  ConfirmConsumption_good ConfirmIngestion_good InsertCatalogProduct_good CreateShoppingList_good
  CreateShoppingListFromJob_good RematchShoppingListItem_good ResolveShoppingListItem_good
  AssociateBarcode_good LogBarcode_good CreateProductFromBarcodeHint_good CreateLocation_good CreateLocationAsUser_good MoveLocation_good UpdateLocation_good
  RenameLocation_good DeleteLocation_good CreateCategory_good CreateCategoryAsUser_good UpdateCategory_good
  MoveCategory_good DeleteCategory_good SetCategoryShelfLife_good RecomputeDerivedExpiryForCategory_good
  CreateProduct_good SetProductCategory_good SetProductCategoryAsUser_good SetProductImageAsUser_good
  UpdateProduct_good : good.

Lemma void_ok {A} (m : Tx A) w u w' : void m w = (Ok u, w') -> exists a, m w = (Ok a, w').
Proof. intros H. apply bind_ok in H as (a & w1 & H & E). apply ret_ok in E as [_ <-]. eauto. Qed.

Lemma exec_ok_consistent o w u w' :
  op_typed o -> exec o w = (Ok u, w') -> consistent (wdb w) -> consistent (wdb w').
Proof.
  intros Ht H C. pose proof (frames_ops o) as N.
  destruct o; cbn [exec op_typed] in *;
    try (apply N in H; eapply good_step_consistent; [by apply good_step_inventory | exact C]); clear N;
    try (apply void_ok in H as (a & H));
    try (eapply good_step_consistent; [solve [eauto with good] | exact C]).
  - by eapply DeleteProduct_consistent.
  - by eapply MergeProducts_consistent.
  - by injection H as _ <-.
Qed.

(** A per-product sequence of transactions that stops at an error keeps what the
    earlier ones committed. *)
Lemma recompute_each_run st l w r w' : recompute_each st l w = (r, w') -> good_step (wdb w) (wdb w').
Proof.
  revert w r. induction l as [|p l IH]; intros w r H; cbn [recompute_each] in H; [by injection H as _ <-|].
  unfold mbind, tx_bind in H. destruct (RecomputeDerivedExpiry st p w) as [[n|e] w1] eqn:E1.
  - apply RecomputeDerivedExpiry_good in E1. destruct (recompute_each st l w1) as [[m|e] w2] eqn:E2;
      injection H as _ <-; (etransitivity; [exact E1 | by eapply IH]).
  - injection H as _ <-. unfold RecomputeDerivedExpiry in E1. apply inTx_fail in E1. by apply good_step_inventory; rewrite E1.
Qed.

Lemma exec_consistent o w r w' : op_typed o -> exec o w = (r, w') -> consistent (wdb w) -> consistent (wdb w').
Proof.
  intros Ht H C. destruct r as [u|e]; [by eapply exec_ok_consistent|].
  assert (D : one_transaction o \/ exists st c, o = OpRecomputeForCategory st c) by (destruct o; cbn; eauto).
  destruct D as [D|(st & c & ->)]; [by rewrite (clean_exec o D w e w' H)|].
  cbn [exec] in H. unfold void in H. apply bind_fail in H as [H|(n & w1 & _ & H)]; [|done].
  unfold RecomputeDerivedExpiryForCategory in H.
  rewrite (bind_step _ get_db w (wdb w) w) in H by reflexivity.
  eapply good_step_consistent; [by eapply recompute_each_run | exact C].
Qed.

Lemma run_consistent ops w : Forall op_typed ops -> consistent (wdb w) -> consistent (wdb (run ops w)).
Proof.
  revert w. induction ops as [|o ops IH]; intros w Ht C; [done|]. cbn.
  apply Forall_cons in Ht as [Ho Ht]. apply IH; [done|].
  destruct (exec o w) as [r w'] eqn:E. by eapply exec_consistent.
Qed.

(** ** What holds of every run *)

(** After any sequence of the modelled operations, failures included, started
    from a consistent database, the database is consistent: every batch belongs to
    a product, a shelf and a container of one storage and holds between one and
    2^31-1 units, every log row names a product and a batch of that product, and
    the stock CurrentStock reports for a product is what its log rows sum to. *)
Theorem household_stays_consistent ops w
    (Htyped : Forall op_typed ops) (Hstart : consistent (wdb w)) :
  let w' := run ops w in
  consistent (wdb w') /\
  forall st p prod, product_in_storage (wdb w') st p = Some prod ->
    CurrentStock st p w' = (Ok (ledger (wdb w') p), w').
Proof.
  intros w'. assert (C : consistent (wdb w')) by (by apply run_consistent). split; [exact C|].
  intros st p prod Hp. unfold CurrentStock, mbind, tx_bind, get_db, mret, tx_ret. rewrite Hp.
  destruct C as [_ B]. by rewrite B.
Qed.

(** A day in the sample household: buying, moving, splitting, renaming, filing,
    merging, losing a product, with some requests that are refused. *)
Definition sample_ops : list Op :=
  [ OpCreateBatch 1 (mkNewBatch 31 20 4 None "" "purchase" (Some 10) (Some "Jar") None);
    OpAdjustBatch 1 40 (-1) "consumption" (Some 10);
    OpAdjustBatch 1 40 (-9) "consumption" (Some 10);
    OpUpdateBatch 1 40 (mkBatchPatch None (Some 22) false None false None) (Some 11);
    OpDeleteLocation 1 21;
    OpCreateProduct 1 (mkNewProduct "Rice" (Some 24) None "" None 0 None None);
    OpMergeProducts 1 31 30;
    OpWait (hour * 24);
    OpFailOrphanedJobs 9 ].

Lemma household_stays_consistent_witness :
  consistent (wdb (run sample_ops sample_world)) /\
  CurrentStock 1 31 (run sample_ops sample_world) = (Ok 6, run sample_ops sample_world).
Proof.
  destruct (household_stays_consistent sample_ops sample_world) as [C S].
  - repeat constructor.
  - exact sample_consistent.
  - split; [exact C|].
    destruct (product_in_storage (wdb (run sample_ops sample_world)) 1 31) as [prod|] eqn:E; [|vm_compute in E; discriminate E].
    rewrite (S 1 31 prod E).
    replace (ledger (wdb (run sample_ops sample_world)) 31) with 6 by (vm_compute; reflexivity). reflexivity.
Defined.

(** An operation that answers with an error has left every table as it found
    it; the recompute of a whole category is the exception, because it commits one
    product at a time. *)
Theorem errors_change_nothing o w e w'
    (Hone : one_transaction o) (Hfail : exec o w = (Fail e, w')) : wdb w' = wdb w.
Proof. by eapply clean_exec. Qed.

(** A patch that would halve the batch and then move it to a shelf that does not
    exist. *)
Lemma errors_change_nothing_witness :
  let o := OpUpdateBatch 1 40 (mkBatchPatch (Some 2) (Some 99) false None false None) (Some 10) in
  (exec o sample_world).1 = Fail ErrNotFound /\ wdb (exec o sample_world).2 = sample_db.
Proof.
  intros o'. split; [vm_compute; reflexivity|].
  destruct (exec o' sample_world) as [r w'] eqn:E. cbn [snd]. destruct r as [u|e].
  - exfalso. assert (X : (exec o' sample_world).1 = Ok u) by (by rewrite E). vm_compute in X. discriminate X.
  - exact (errors_change_nothing o' sample_world e w' I E).
Defined.
