(* ===== verification/StockApi.v ===== *)
(** * Stock over HTTP: internal/httpapi/batches.go, expiry.go, stocktake.go

    Splitting and patching a batch, its date, the shelf life of a category, filing
    stock and counting a shelf. *)

From Stdlib Require Import Ascii String.
From S2P Require Import Prelude Text Encoding Gamification Expiry Db Tree Progress ShelfLife Containers Batches Stocktake Locations Json RateLimit Http Forms.

#[local] Open Scope string_scope.
#[local] Open Scope list_scope.
#[local] Open Scope Z_scope.

Definition maxStocktakeCounts : nat := 500.
Definition maxStocktakeFound : nat := 500.

(** ** The sheet of a location: store/stocktake.go *)

Record StocktakeBatch := mkSheetBatch { sb_ID : uuid; sb_Row : Batch; sb_ProductName : string; sb_ImageURL : option string }.
Record StocktakeSheet := mkSheet { sh_ID : uuid; sh_Location : Location; sh_Batches : list StocktakeBatch }.

(** ORDER BY p.name, b.expiration_date NULLS LAST, b.created_at; rows the query
    leaves in no order go by id. *)
Definition date_rank (d : option Z) : Z * Z := match d with Some n => (0, n) | None => (1, 0) end.
Definition sheet_before (a b : StocktakeBatch) : Prop :=
  let key x := (date_rank (b_ExpirationDate (sb_Row x)), b_CreatedAt (sb_Row x), sb_ID x) in
  match String.compare (sb_ProductName a) (sb_ProductName b) with
  | Lt => True
  | Gt => False
  | Eq =>
    let '(r1, n1, t1, i1) := key a in let '(r2, n2, t2, i2) := key b in
    r1 < r2 \/ (r1 = r2 /\ (n1 < n2 \/ (n1 = n2 /\ (t1 < t2 \/ (t1 = t2 /\ i1 <= i2)))))
  end.

#[export] Instance sheet_before_dec : RelDecision sheet_before.
Proof.
  intros a b. unfold sheet_before. destruct (String.compare _ _); [|apply _|apply _].
  destruct (date_rank _) as [r1 n1], (date_rank _) as [r2 n2]. apply _.
Defined.

Definition LocationStocktake (storageID locationID : uuid) : Tx StocktakeSheet :=
  d ← get_db;
  l ← some_or (l ← db_locations d !! locationID; if loc_StorageID l =? storageID then Some l else None) ErrNotFound;
  d ← get_db;
  let rows := omap (fun kv : uuid * Batch =>
      prod ← product_in_storage d storageID (b_ProductID kv.2);
      if b_LocationID kv.2 =? locationID then Some (mkSheetBatch kv.1 kv.2 (prod_Name prod) (prod_ImageURL prod)) else None)
    (map_to_list (db_batches d)) in
  mret (mkSheet locationID l (merge_sort sheet_before rows)).

Section api.
Context `{Deployment}.

(** ** Batches: batches.go *)

Definition date_json (date : option Z) : Json := opt_json JStr (FormatDateOnly <$> date).

Definition newBatchResponse (b : BatchView) : Json :=
  let row := bv_Row b in
  JObj [("id", uuid_json (bv_ID b)); ("product_id", uuid_json (b_ProductID row)); ("location_id", uuid_json (b_LocationID row));
        ("quantity", JNum (b_Quantity row)); ("expiration_date", date_json (b_ExpirationDate row));
        ("expiration_source", JStr (b_ExpirationSource row)); ("created_at", JTime (b_CreatedAt row));
        ("container_id", opt_json uuid_json (b_ContainerID row)); ("container_label", opt_json JStr (bv_ContainerLabel b));
        ("container_type", opt_json JStr (bv_ContainerType b))].

Definition batchIDFromPath (r : Request) : Hd uuid := idFromPath r "id" "malformed batch id".
Definition containerIDFromPath (r : Request) : Hd uuid := idFromPath r "id" "malformed container id".

Definition split_form (quantity : Z) (target : string) (disposition : option string) : Form SplitBatchInput :=
  complain_if (quantity <? 1) "quantity" "Must be at least 1." ;;
  targetID ← form_uuid "target_location_id" target;
  disposition ← (match disposition with
    | None => mret ""
    | Some disposition =>
      complain_if (negb (ValidContainerDisposition disposition)) "container_disposition"
        ("Must be " +:+ Quote "source" +:+ ", " +:+ Quote "target" +:+ ", " +:+ Quote "both" +:+ ", " +:+ Quote "neither" +:+ " or " +:+ Quote "destroy" +:+ ".") ;;
      mret disposition
    end);
  mret (mkSplit quantity (default 0 targetID) disposition).

Definition Split : Handler := handle (fun r =>
  storageID ← storage_of r;
  batchID ← batchIDFromPath r;
  body ← decodeJSON (fun l =>
    quantity ← int_field "quantity" l; target ← str_field "target_location_id" l; disposition ← str_ptr "container_disposition" l;
    Some (quantity, target, disposition)) r;
  let '(quantity, target, disposition) := body in
  inp ← filled (split_form quantity target disposition);
  created ← store (SplitBatch storageID batchID inp (actingUser r))
    (fun e => FromStoreError e "batch or target location not in this storage or nonexistent");
  mret (writeJSON StatusCreated (Some (newBatchResponse created)))).

Record BatchBody := mkBatchBody {
  bb_LocationID : option string;
  bb_Quantity : option Z;
  bb_ContainerLabel : option Json;
  bb_ContainerType : option Json;
}.

Definition label_patch (raw : Json) : Form (option string) :=
  match nullable_string raw with
  | None => complain "container_label" "Must be a string or null." ;; mret None
  | Some None => mret None
  | Some (Some raw) =>
    let label := TrimSpace raw in
    if String.eqb label "" then complain "container_label" "Send null to take this batch out of its container." ;; mret None
    else if RuneCountInString label >? maxContainerLabelLength then
      complain "container_label" "Keep the container label under 255 characters." ;; mret None
    else mret (Some label)
  end.

Definition type_patch (raw : Json) : Form (option string) :=
  match nullable_string raw with
  | None => complain "container_type" "Must be a string or null." ;; mret None
  | Some None => mret None
  | Some (Some raw) =>
    let containerType := TrimSpace raw in
    complain_if (String.eqb containerType "") "container_type" "Send null to clear the container type." ;;
    mret (Some containerType)
  end.

Definition batch_form (body : BatchBody) : Form BatchPatch :=
  quantity ← (match bb_Quantity body with
    | None => mret None
    | Some q =>
      if (q <? 0) || (q >? maxBatchQuantity) then complain "quantity" "Must be a whole number of zero or more." ;; mret None
      else mret (Some q)
    end);
  locationID ← form_uuid_ptr "location_id" (bb_LocationID body);
  label ← (match bb_ContainerLabel body with None => mret None | Some raw => label_patch raw end);
  containerType ← (match bb_ContainerType body with None => mret None | Some raw => type_patch raw end);
  mret (mkBatchPatch quantity locationID (negb (is_nil (bb_ContainerLabel body))) label
    (negb (is_nil (bb_ContainerType body))) containerType).

Definition UpdateBatchHandler : Handler := handle (fun r =>
  storageID ← storage_of r;
  batchID ← batchIDFromPath r;
  body ← decodeJSON (fun l =>
    locationID ← str_ptr "location_id" l; quantity ← int_ptr "quantity" l;
    label ← raw_field "container_label" l; containerType ← raw_field "container_type" l;
    Some (mkBatchBody locationID quantity label containerType)) r;
  refuse_if (is_nil (bb_LocationID body) && is_nil (bb_Quantity body) && is_nil (bb_ContainerLabel body) && is_nil (bb_ContainerType body))
    (ValidationFailed (field "body" "Name at least one of location_id, quantity, container_label or container_type.") None) ;;
  patch ← filled (batch_form body);
  updated ← store (UpdateBatch storageID batchID patch (actingUser r))
    (fun e => FromStoreError e "batch or target location not in this storage or nonexistent");
  match updated with
  | None => mret (writeJSON StatusNoContent None)
  | Some b => mret (writeJSON StatusOK (Some (newBatchResponse b)))
  end).

Definition DestroyContainerHandler : Handler := handle (fun r =>
  storageID ← storage_of r;
  containerID ← containerIDFromPath r;
  store (DestroyContainer storageID containerID)
    (fun e => FromStoreError e "container not in this storage, nonexistent, or already destroyed") ;;
  mret (writeJSON StatusNoContent None)).

(** ** Dates: expiry.go *)

Definition PatchBatchExpiry : Handler := handle (fun r =>
  storageID ← storage_of r;
  user ← user_of r;
  batchID ← batchIDFromPath r;
  body ← decodeJSON (fun l => date ← raw_field "expiration_date" l; source ← str_ptr "expiration_source" l; Some (date, source)) r;
  match body.2 with
  | Some source =>
    refuse_if (negb (String.eqb source ExpirationDerived))
      (ValidationFailed (field "expiration_source"
        ("Only " +:+ Quote "derived" +:+ " can be requested; a date you set is recorded as " +:+ Quote "user" +:+ " automatically.")) None) ;;
    batch ← store (ResetBatchExpirationToDerived storageID batchID) (fun e => FromStoreError e "batch not in this storage or nonexistent");
    mret (writeJSON StatusOK (Some (newBatchResponse batch)))
  | None =>
    raw ← or_refuse body.1
      (ValidationFailed (field "expiration_date"
        ("Provide a date, null to record " +:+ Quote "no expiry" +:+ ", or {" +:+ Quote "expiration_source" +:+ ":" +:+ Quote "derived" +:+ "} to use the automatic date again.")) None);
    date ← or_failure (parseExpirationDate raw);
    batch ← store (SetBatchExpiration storageID batchID date (Some user.1)) (fun e => FromStoreError e "batch not in this storage or nonexistent");
    mret (writeJSON StatusOK (Some (newBatchResponse batch)))
  end).

(** Two transactions: the shelf life stays set if the cascade fails. *)
Definition PatchCategoryShelfLife : Handler := handle (fun r =>
  storageID ← storage_of r;
  categoryID ← idFromPath r "id" "malformed category id";
  body ← decodeJSON (raw_field "default_shelf_life_days") r;
  raw ← or_refuse body
    (ValidationFailed (field "default_shelf_life_days" "Provide a number of days, or null to inherit from the parent category.") None);
  days ← or_failure (parseShelfLifeDays raw);
  store (SetCategoryShelfLife storageID categoryID days) (fun e => FromStoreError e "category not in this storage or nonexistent") ;;
  affected ← store (RecomputeDerivedExpiryForCategory storageID categoryID) Internal;
  mret (writeJSON StatusOK (Some (JObj [("default_shelf_life_days", opt_json JNum days); ("recomputed_batches", JNum affected)])))).

(** ** Counting: stocktake.go *)

Record NewBatchBody := mkNewBatchBody {
  nbb_ProductID : string;
  nbb_LocationID : string;
  nbb_Quantity : Z;
  nbb_ExpirationDate : option Json;
  nbb_ContainerLabel : option string;
  nbb_ContainerType : option string;
}.

Definition new_batch_form (userID : option uuid) (body : NewBatchBody) : Form NewBatch :=
  productID ← form_uuid "product_id" (nbb_ProductID body);
  locationID ← form_uuid "location_id" (nbb_LocationID body);
  complain_if ((nbb_Quantity body <? 1) || (nbb_Quantity body >? maxBatchQuantity)) "quantity" "Must be a whole number of at least 1." ;;
  date ← (match parseStatedExpiration (nbb_ExpirationDate body) with
    | inl problems => merge_fields {["expiration_date" := problems]} ;; mret (None, false)
    | inr date => mret date
    end);
  container ← parseCreationContainerFields (nbb_ContainerLabel body) (nbb_ContainerType body);
  mret (mkNewBatch (default 0 productID) (default 0 locationID) (nbb_Quantity body) date.1
    (if date.2 : bool then ExpirationUser else ExpirationDerived) ReasonAudit userID container.1 container.2).

Definition CreateBatchHandler : Handler := handle (fun r =>
  storageID ← storage_of r;
  body ← decodeJSON (fun l =>
    productID ← str_field "product_id" l; locationID ← str_field "location_id" l; quantity ← int_field "quantity" l;
    date ← raw_field "expiration_date" l; label ← str_ptr "container_label" l; containerType ← str_ptr "container_type" l;
    Some (mkNewBatchBody productID locationID quantity date label containerType)) r;
  nb ← filled (new_batch_form (actingUser r) body);
  created ← store (CreateBatch storageID nb) (fun e => FromStoreError e "product or location not in this storage or nonexistent");
  mret (writeJSON StatusCreated (Some (newBatchResponse created)))).

Definition locationIDFromPath (r : Request) : Hd uuid := idFromPath r "id" "malformed location id".

Definition sheet_row (b : StocktakeBatch) : Json :=
  let row := sb_Row b in
  JObj [("id", uuid_json (sb_ID b)); ("product_id", uuid_json (b_ProductID row)); ("product_name", JStr (sb_ProductName b));
        ("image_url", opt_json JStr (sb_ImageURL b)); ("quantity", JNum (b_Quantity row));
        ("expiration_date", date_json (b_ExpirationDate row)); ("expiration_source", JStr (b_ExpirationSource row))].

Definition Sheet : Handler := handle (fun r =>
  storageID ← storage_of r;
  locationID ← locationIDFromPath r;
  sheet ← store (LocationStocktake storageID locationID) (fun e => FromStoreError e "location not in this storage or nonexistent");
  let l := sh_Location sheet in
  mret (writeJSON StatusOK (Some (JObj
    [("location", JObj [("id", uuid_json (sh_ID sheet)); ("name", JStr (loc_Name l)); ("last_audited_at", opt_json JTime (loc_LastAuditedAt l))]);
     ("batches", JArr (map sheet_row (sh_Batches sheet)))])))).

Record CountItem := mkCountItem { ci_BatchID : string; ci_Quantity : Z }.
Record FoundItem := mkFoundItem { fi_ProductID : string; fi_Quantity : Z; fi_ExpirationDate : option Json }.

Definition read_count : Json -> option CountItem := read_struct (fun l =>
  id ← str_field "batch_id" l; quantity ← int_field "quantity" l; Some (mkCountItem id quantity)).
Definition read_found : Json -> option FoundItem := read_struct (fun l =>
  id ← str_field "product_id" l; quantity ← int_field "quantity" l; date ← raw_field "expiration_date" l; Some (mkFoundItem id quantity date)).

(** fmt.Sprintf("%s[%d].%s", group, i, field) *)
Definition item_field (group : string) (i : nat) (name : string) : string := group +:+ "[" +:+ FormatInt (Z.of_nat i) +:+ "]." +:+ name.

(** One after the other, numbered; an item with a complaint is left out. *)
Fixpoint each_item {A B : Type} (f : nat -> A -> Form (option B)) (i : nat) (items : list A) : Form (list B) :=
  match items with
  | [] => mret []
  | a :: items' => b ← f i a; bs ← each_item f (S i) items'; mret (option_list b ++ bs)
  end.

Definition count_form (i : nat) (item : CountItem) : Form (option StocktakeCount) :=
  match uuid_Parse (ci_BatchID item) with
  | None => complain (item_field "batches" i "batch_id") "Must be a UUID." ;; mret None
  | Some batchID =>
    if (ci_Quantity item <? 0) || (ci_Quantity item >? maxBatchQuantity) then
      complain (item_field "batches" i "quantity") "Must be a whole number of zero or more." ;; mret None
    else mret (Some (mkCount batchID (ci_Quantity item)))
  end.

Definition found_form (i : nat) (item : FoundItem) : Form (option FoundStock) :=
  match uuid_Parse (fi_ProductID item) with
  | None => complain (item_field "found" i "product_id") "Must be a UUID." ;; mret None
  | Some productID =>
    if (fi_Quantity item <? 1) || (fi_Quantity item >? maxBatchQuantity) then
      complain (item_field "found" i "quantity") "Must be a whole number of at least 1." ;; mret None
    else match parseStatedExpiration (fi_ExpirationDate item) with
      | inl problems => merge_fields {[item_field "found" i "expiration_date" := problems]} ;; mret None
      | inr (date, stated) => mret (Some (mkFound productID (fi_Quantity item) date stated))
      end
  end.

Definition parseStocktakeConfirm (batches : option (list CountItem)) (found : list FoundItem) : Hd (list StocktakeCount * list FoundStock) :=
  batches ← or_refuse batches (ValidationFailed (field "batches" "A count for every batch at this location is required.") None);
  refuse_if (maxStocktakeCounts <? Datatypes.length batches)%nat (ValidationFailed (field "batches" "Too many batches.") None) ;;
  refuse_if (maxStocktakeFound <? Datatypes.length found)%nat (ValidationFailed (field "found" "Too many found items.") None) ;;
  filled (counts ← each_item count_form 0 batches; found ← each_item found_form 0 found; mret (counts, found)).

Definition Confirm : Handler := handle (fun r =>
  storageID ← storage_of r;
  locationID ← locationIDFromPath r;
  body ← decodeJSON (fun l =>
    batches ← read_field "batches" (read_ptr (read_slice read_count) []) None l;
    found ← slice_field "found" read_found l; Some (batches, found)) r;
  inp ← parseStocktakeConfirm body.1 body.2;
  result ← store (ConfirmStocktake storageID locationID (actingUser r) inp.1 inp.2) (fun e =>
    let failure := FromStoreError e "location not in this storage or nonexistent" in
    if f_Status failure =? StatusUnprocessableEntity
    then ValidationFailed (field "batches" "This shelf changed since the sheet was fetched. Reload it and count again.") (Some e)
    else failure);
  mret (writeJSON StatusOK (Some (JObj
    [("last_audited_at", JTime (st_AuditedAt result)); ("corrected", JNum (st_Corrected result));
     ("created_batch_ids", JArr (map uuid_json (st_CreatedBatchIDs result)))])))).

End api.
