(* ===== verification/ScoreApi.v ===== *)
(** * Progress, quests and preferences over HTTP

    internal/httpapi/gamification.go, quests.go and barcodeprompt.go, with the
    leaderboard and the overall progress of store/gamification.go.  The achievement
    history is left out: the model keeps no time with an unlocked achievement. *)

From Stdlib Require Import Ascii String.
From S2P Require Import Prelude Text Encoding Gamification Expiry Db Progress Recompute Weekly Barcodes Accounts Storages Json RateLimit Http Forms.

#[local] Open Scope string_scope.
#[local] Open Scope list_scope.
#[local] Open Scope Z_scope.

(** ** store.Leaderboard *)

Record LeaderboardEntry := mkEntry { le_UserID : uuid; le_DisplayName : string; le_XP : Z; le_Level : Z }.

(** ORDER BY coalesce(p.xp, 0) DESC, u.display_name *)
Definition ahead (a b : LeaderboardEntry) : Prop :=
  le_XP b < le_XP a \/ (le_XP a = le_XP b /\ text_le (le_DisplayName a) (le_DisplayName b)).
#[export] Instance ahead_dec : RelDecision ahead.
Proof. intros a b. unfold ahead. apply _. Defined.

Definition Leaderboard (storageID : uuid) : Tx (list LeaderboardEntry) :=
  d ← get_db;
  mret (merge_sort ahead (omap (fun m : uuid * uuid =>
    if m.1 =? storageID then
      u ← db_accounts d !! m.2;
      let p := UserProgressInStorage d storageID m.2 in
      Some (mkEntry m.2 (usr_DisplayName u) (up_XP p) (up_Level p))
    else None) (elements (db_members d)))).

(** ** store.OverallProgressForUser *)

Record StorageProgress := mkStorageProgress { sp_StorageID : uuid; sp_Name : string; sp_Progress : UserProgress }.
Record OverallProgress := mkOverall { op_TotalXP : Z; op_OverallLevel : Z; op_LongestStreakWeeks : Z; op_PerStorage : list StorageProgress }.

Definition overall_of (storages : list StorageProgress) : OverallProgress :=
  let total := lsum (fun p => up_XP (sp_Progress p)) storages in
  mkOverall total (Level total) (foldl (fun n p => Z.max n (up_StreakWeeks (sp_Progress p))) 0 storages) storages.

Definition OverallProgressForUser (userID : uuid) : Tx OverallProgress :=
  storages ← StoragesForUser userID;
  d ← get_db;
  mret (overall_of (map (fun st : uuid * Storage => mkStorageProgress st.1 (sto_Name st.2) (UserProgressInStorage d st.1 userID)) storages)).

(** json.Marshal of the params of a quest; a generator without params stores {}. *)
Definition params_json `{Deployment} (p : QuestParams) : Json :=
  match p with
  | IdList ids => JObj [("ids", JArr (map uuid_json ids))]
  | StaleLocation l name month =>
    JObj ([("location_id", uuid_json l); ("location_name", JStr name)] ++ if String.eqb month "" then [] else [("since_month", JStr month)])
  | FirstMile n => JObj [("start_count", JNum n)]
  | _ => JObj []
  end.

(** t.Format(time.RFC3339): whole seconds. *)
Definition timestamp (t : Z) : Json := JTime (t / second * second).

Section api.
Context `{Deployment}.

Definition enabledFor (userID : uuid) : Hd bool := prefs ← store (UserPreferencesFor userID) Internal; mret prefs.1.

(** Score keeping that is off answers 204 to everything but the preferences. *)
Definition when_enabled (userID : uuid) (body : Hd Reply) : Hd Reply :=
  enabled ← enabledFor userID;
  if negb enabled : bool then mret (writeJSON StatusNoContent None) else body.

Definition day_json (week : Z) : Json := JStr (FormatDateOnly week).

Definition ProgressHandler : Handler := handle (fun r =>
  storageID ← storage_of r;
  user ← user_of r;
  when_enabled user.1 (
    progress ← store (d ← get_db; mret (UserProgressInStorage d storageID user.1)) Internal;
    health ← store (HealthScoreForStorage storageID) Internal;
    mret (writeJSON StatusOK (Some (JObj
      [("xp", JNum (up_XP progress)); ("level", JNum (up_Level progress)); ("streak_weeks", JNum (up_StreakWeeks progress));
       ("xp_for_level", JNum (XPThresholdForLevel (up_Level progress)));
       ("xp_for_next_level", JNum (XPThresholdForLevel (up_Level progress + 1)));
       ("last_active_week", opt_json day_json (up_LastActiveWeek progress)); ("health_score", JFloat health)]))))).

Definition leaderboard_json (e : LeaderboardEntry) : Json :=
  JObj [("user_id", uuid_json (le_UserID e)); ("display_name", JStr (le_DisplayName e)); ("xp", JNum (le_XP e)); ("level", JNum (le_Level e))].

Definition LeaderboardHandler : Handler := handle (fun r =>
  storageID ← storage_of r;
  user ← user_of r;
  when_enabled user.1 (
    settings ← store (StorageGamificationSettingsFor storageID) Internal;
    refuse_if (negb settings.1) (NotFound "leaderboard not enabled for this storage") ;;
    entries ← store (Leaderboard storageID) Internal;
    mret (writeJSON StatusOK (Some (collection (map leaderboard_json entries) None))))).

Definition storageSettings (enabled : bool) (goal : Z) : Json :=
  JObj [("leaderboard_enabled", JBool enabled); ("weekly_goal_items", JNum goal)].

Definition StorageSettings : Handler := handle (fun r =>
  storageID ← storage_of r;
  settings ← store (StorageGamificationSettingsFor storageID) Internal;
  mret (writeJSON StatusOK (Some (storageSettings settings.1 settings.2)))).

Definition UpdateStorageSettings : Handler := handle (fun r =>
  storageID ← storage_of r;
  body ← decodeJSON (fun l => enabled ← bool_field "leaderboard_enabled" l; goal ← int_field "weekly_goal_items" l; Some (enabled, goal)) r;
  store (UpdateStorageGamificationSettings storageID body.1 body.2) (fun e => FromStoreError e "storage not found") ;;
  mret (writeJSON StatusOK (Some (storageSettings body.1 body.2)))).

Definition storageProgress (p : StorageProgress) : Json :=
  JObj [("storage_id", uuid_json (sp_StorageID p)); ("name", JStr (sp_Name p)); ("xp", JNum (up_XP (sp_Progress p)));
        ("level", JNum (up_Level (sp_Progress p))); ("streak_weeks", JNum (up_StreakWeeks (sp_Progress p)))].

Definition MeProgress : Handler := handle (fun r =>
  user ← user_of r;
  when_enabled user.1 (
    overall ← store (OverallProgressForUser user.1) Internal;
    mret (writeJSON StatusOK (Some (JObj
      [("total_xp", JNum (op_TotalXP overall)); ("overall_level", JNum (op_OverallLevel overall));
       ("longest_streak_weeks", JNum (op_LongestStreakWeeks overall)); ("per_storage", JArr (map storageProgress (op_PerStorage overall)))]))))).

Definition newPreferencesResponse (prefs : bool * gset Z) : Json :=
  JObj [("gamification_enabled", JBool prefs.1); ("holiday_weeks", JArr (map day_json (elements prefs.2)))].

Definition MePreferences : Handler := handle (fun r =>
  user ← user_of r;
  prefs ← store (UserPreferencesFor user.1) Internal;
  mret (writeJSON StatusOK (Some (newPreferencesResponse prefs)))).

(** The dates of the entries, one complaint for each that is none. *)
Fixpoint weeks_form (i : Z) (raws : list string) : Form (list Z) :=
  match raws with
  | [] => mret []
  | raw :: raws' =>
    week ← (match ParseDateOnly raw with
      | Some t => mret [t_unix t]
      | None => complain "holiday_weeks" ("Entry " +:+ FormatInt i +:+ " must be a YYYY-MM-DD date.") ;; mret []
      end);
    weeks ← weeks_form (i + 1) raws';
    mret (week ++ weeks)
  end.

Definition UpdateMePreferences : Handler := handle (fun r =>
  user ← user_of r;
  body ← decodeJSON (fun l => enabled ← bool_field "gamification_enabled" l; weeks ← read_field "holiday_weeks" read_strings [] l; Some (enabled, weeks)) r;
  weeks ← filled (weeks_form 0 body.2);
  store (SetPreferences user.1 body.1 weeks) (fun e => FromStoreError e "holiday week rejected") ;;
  prefs ← store (UserPreferencesFor user.1) Internal;
  mret (writeJSON StatusOK (Some (newPreferencesResponse prefs)))).

(** ** quests.go *)

Definition questResponse (q : uuid * Quest * Z) : Json :=
  let row := q.1.2 in
  JObj [("generator", JStr (q_Generator row)); ("params", params_json (q_Params row)); ("target_count", JNum (q_TargetCount row));
        ("progress", JNum q.2); ("xp_reward", JNum (q_XPReward row)); ("completed_at", opt_json timestamp (q_CompletedAt row))].

Definition Quests : Handler := handle (fun r =>
  storageID ← storage_of r;
  user ← user_of r;
  when_enabled user.1 (
    snap ← store (QuestsForStorage storageID) Internal;
    mret (writeJSON StatusOK (Some (JObj
      [("week_start", day_json (snap_WeekStart snap)); ("quests", JArr (map questResponse (snap_Quests snap)));
       ("all_clear", JBool (is_nil (head (snap_Quests snap)))); ("clean_streak_days", JNum (snap_CleanStreakDays snap));
       ("is_comeback", JBool (snap_IsComeback snap));
       ("weekly_goal", JObj [("target", JNum (snap_WeeklyGoalTarget snap)); ("current", JNum (snap_WeeklyGoalCurrent snap))])]))))).

(** ** barcodeprompt.go *)

Definition barcodePromptResponse (state : BarcodePrompt) : Json :=
  JObj [("enabled", JBool (bpr_Enabled state)); ("first_time", JBool (bpr_FirstTime state))].

Definition prompt_reply (state : BarcodePrompt) : Hd Reply := mret (writeJSON StatusOK (Some (barcodePromptResponse state))).

Definition GetBarcodePrompt : Handler := handle (fun r =>
  user ← user_of r;
  state ← store (BarcodePromptState user.1) (fun e => FromStoreError e ("read barcode prompt state for " +:+ uuid_String user.1));
  prompt_reply state).

Definition PatchBarcodePrompt : Handler := handle (fun r =>
  user ← user_of r;
  enabled ← decodeJSONStrict (plain ["enabled"]) (bool_ptr "enabled") r;
  enabled ← or_refuse enabled (ValidationFailed (field "enabled" "A true or false value is required.") None);
  state ← store (SetBarcodePromptEnabled user.1 enabled) (fun e => FromStoreError e ("set barcode prompt for " +:+ uuid_String user.1));
  prompt_reply state).

Definition BarcodePromptShown : Handler := handle (fun r =>
  user ← user_of r;
  state ← store (MarkBarcodePromptShown user.1) (fun e => FromStoreError e ("mark barcode prompt shown for " +:+ uuid_String user.1));
  prompt_reply state).

End api.
