(* ===== verification/Server.v ===== *)
(** * The server's database: the household's operations and the accounts'

    The operations of Household.v and of AccountsSpec.v as one command type [Cmd]
    and the runs of both, interleaved with time, failures included.  The theorems
    are about every such run: the stock invariant and the referential integrity of
    the accounts hold after it, what deleting a storage takes along, and that a
    token that is spent or revoked stays so. *)

From Stdlib Require Import Ascii String.
From S2P Require Import Prelude Gamification Text Encoding Db Outcomes AuditLog Sample Expiry Matching Tree Progress ShelfLife Containers Batches Recompute Weekly Ledger StockSteps BatchSpec Stocktake Jobs Consumption Locations Products Ingestion Shopping EditSteps IngestionSpec ShoppingSpec ListSpec Accounts Storages Barcodes RecomputeSpec ExpirySpec MergeSpec AccountsSpec Household.

#[local] Open Scope string_scope.
#[local] Open Scope list_scope.
#[local] Open Scope Z_scope.

(** ** Commands *)

Inductive Cmd :=
| Inv (o : Op)
| Acc (o : AccOp).

Definition perform (c : Cmd) : Tx unit :=
  match c with
  | Inv o => exec o
  | Acc o => acc_exec o
  end.

Definition serve (cs : list Cmd) (w : World) : World := foldl (fun w c => (perform c w).2) w cs.

(** ** The household's operations leave the accounts alone *)

Definition login_tables (d : DB) :=
  (db_accounts d, db_sessions d, db_pairing d, db_memberships d, db_storage_rows d).

Ltac deep_head t := lazymatch t with ?f _ => deep_head f | _ => t end.

Ltac deep_step :=
  lazymatch goal with
  | |- frames _ (mbind (M:=Tx) _ _) => apply frames_bind; [|intros ?]
  | |- frames _ (for_each _ _) => apply frames_for_each; intros ?
  | |- frames _ (traverse _ _) => apply frames_traverse; intros ?
  | |- frames _ (inTx _) => apply frames_inTx
  | |- frames _ (modify _) => first [solve [auto with frames] | apply frames_modify; intros ?; reflexivity]
  | |- frames _ (match ?x with _ => _ end) => destruct x
  | |- frames _ ?m => first [solve [auto with frames] | apply frames_reads; solve [auto with frames]
      | let h := deep_head m in progress unfold h; cbv beta zeta ]
  end.
Ltac deep_walk := repeat deep_step.

Lemma frames_container f st id : frames account_tables (modify (update_container f st id)).
Proof.
  apply frames_modify. intros d. unfold update_container. by destruct (db_containers d !! id) as [c|]; [case_match|].
Qed.
#[local] Hint Resolve frames_container : frames.

Lemma frames_applyDerivedExpiry l r : frames account_tables (applyDerivedExpiry l r).
Proof. induction l as [|[id t] l IH]; cbn [applyDerivedExpiry]; deep_walk; try apply IH. Qed.
#[local] Hint Resolve frames_applyDerivedExpiry : frames.

Lemma frames_recompute_each st l : frames account_tables (recompute_each st l).
Proof. induction l as [|p l IH]; cbn [recompute_each]; deep_walk; try apply IH. Qed.
#[local] Hint Resolve frames_recompute_each : frames.

Lemma frames_apply_counts st u l : frames account_tables (apply_counts st u l).
Proof. induction l as [|c l IH]; cbn [apply_counts]; deep_walk; try apply IH. Qed.
#[local] Hint Resolve frames_apply_counts : frames.

Lemma account_frames_apply_decrements st p u l : frames account_tables (apply_decrements st p u l).
Proof. induction l as [|c l IH]; cbn [apply_decrements]; deep_walk; try apply IH. Qed.
#[local] Hint Resolve account_frames_apply_decrements : frames.

Lemma frames_ensure_nodes st p l : frames account_tables (ensure_nodes st p l).
Proof. revert p. induction l as [|c l IH]; intros p; cbn [ensure_nodes]; deep_walk; try apply IH. Qed.
#[local] Hint Resolve frames_ensure_nodes : frames.

Lemma frames_walk_path st p l : frames account_tables (walk_path st p l).
Proof. revert p. induction l as [|c l IH]; intros p; cbn [walk_path]; deep_walk; try apply IH. Qed.
#[local] Hint Resolve frames_walk_path : frames.

Lemma frames_apply_ingest st u pr cr l : frames account_tables (apply_ingest st u pr cr l).
Proof. revert cr. induction l as [|c l IH]; intros cr; cbn [apply_ingest]; deep_walk; try apply IH. Qed.
#[local] Hint Resolve frames_apply_ingest : frames.

Lemma frames_wait {T} (view : DB -> T) t : frames view (wait t).
Proof. intros w r w' [= <- <-]. done. Qed.
#[local] Hint Resolve frames_wait : frames.

Lemma frames_exec o : (forall a c, o ≠ OpDeleteCatalogBarcode a c) -> frames account_tables (exec o).
Proof. intros Hne. destruct o; cbn [exec]; try (by exfalso; eapply Hne); deep_walk. Qed.

Lemma frames_exec_logins o : frames login_tables (exec o).
Proof.
  assert (D : (exists a c, o = OpDeleteCatalogBarcode a c) \/ forall a c, o ≠ OpDeleteCatalogBarcode a c)
    by (destruct o; eauto; by right).
  destruct D as [(a & c & ->)|Hne]; [cbn [exec]; deep_walk|].
  intros w r w' H. apply frames_exec in H; [|done].
  unfold account_tables in H. unfold login_tables. injection H as -> -> -> -> _ ->. done.
Qed.

(** ** Time does not run backwards *)

Definition forward {A} (m : Tx A) : Prop := forall w r w', m w = (r, w') -> wnow w <= wnow w' /\ wclock w <= wclock w'.

Section forward.
Context {A B : Type}.

Lemma forward_bind (m : Tx A) (f : A -> Tx B) : forward m -> (forall a, forward (f a)) -> forward (m ≫= f).
Proof.
  intros Hm Hf w r w' H. unfold mbind, tx_bind in H. destruct (m w) as [[a|e] w1] eqn:E.
  - apply Hf in H. apply Hm in E. lia.
  - injection H as _ <-. by eapply Hm.
Qed.

Lemma forward_inTx (m : Tx A) : forward m -> forward (inTx m).
Proof.
  intros Hm w r w' H. unfold inTx in H. destruct (m w) as [[a|e] w1] eqn:E; injection H as _ <-; apply Hm in E; exact E.
Qed.

Lemma forward_ret (a : A) : forward (mret a : Tx A).
Proof. intros w r w' [= _ <-]. lia. Qed.
Lemma forward_throw e : forward (throw e : Tx A).
Proof. intros w r w' [= _ <-]. lia. Qed.
Lemma forward_some_or (o : option A) e : forward (some_or o e).
Proof. destruct o; [apply forward_ret | apply forward_throw]. Qed.
End forward.

Lemma forward_for_each {A} (f : A -> Tx unit) l : (forall a, forward (f a)) -> forward (for_each f l).
Proof. intros Hf. induction l; cbn [for_each]; [apply forward_ret | apply forward_bind; [done | by intros _]]. Qed.
Lemma forward_traverse {A B} (f : A -> Tx B) l : (forall a, forward (f a)) -> forward (traverse f l).
Proof.
  intros Hf. induction l; cbn [traverse]; [apply forward_ret|]. apply forward_bind; [done|intros ?].
  apply forward_bind; [done|intros ?]. apply forward_ret.
Qed.
Lemma forward_require b e : forward (require b e).
Proof. destruct b; [apply forward_ret | apply forward_throw]. Qed.
Lemma forward_get_db : forward get_db.
Proof. intros w r w' [= _ <-]. lia. Qed.
Lemma forward_now : forward now.
Proof. intros w r w' [= _ <-]. lia. Qed.
Lemma forward_time_Now : forward time_Now.
Proof. intros w r w' [= _ <-]. lia. Qed.
Lemma forward_newID : forward newID.
Proof. intros w r w' H. unfold newID in H. destruct (wids w); injection H as _ <-; cbn; lia. Qed.
Lemma forward_modify f : forward (modify f).
Proof. intros w r w' [= _ <-]. cbn. lia. Qed.
Lemma forward_wait t : forward (wait t).
Proof. intros w r w' [= _ <-]. cbn. lia. Qed.

Create HintDb forward discriminated.
#[local] Hint Resolve forward_ret forward_throw forward_some_or forward_require forward_get_db forward_now
  forward_time_Now forward_newID forward_modify forward_wait : forward.

Ltac forward_step :=
  lazymatch goal with
  | |- forward (mbind (M:=Tx) _ _) => apply forward_bind; [|intros ?]
  | |- forward (for_each _ _) => apply forward_for_each; intros ?
  | |- forward (traverse _ _) => apply forward_traverse; intros ?
  | |- forward (inTx _) => apply forward_inTx
  | |- forward (match ?x with _ => _ end) => destruct x
  | |- forward ?m => first [solve [auto with forward] | let h := deep_head m in progress unfold h; cbv beta zeta ]
  end.
Ltac forward_walk := repeat forward_step.

Lemma forward_applyDerivedExpiry l r : forward (applyDerivedExpiry l r).
Proof. induction l as [|[id t] l IH]; cbn [applyDerivedExpiry]; forward_walk; try apply IH. Qed.
Lemma forward_apply_counts st u l : forward (apply_counts st u l).
Proof. induction l as [|c l IH]; cbn [apply_counts]; forward_walk; try apply IH. Qed.
Lemma forward_apply_decrements st p u l : forward (apply_decrements st p u l).
Proof. induction l as [|c l IH]; cbn [apply_decrements]; forward_walk; try apply IH. Qed.
#[local] Hint Resolve forward_applyDerivedExpiry forward_apply_counts forward_apply_decrements : forward.
Lemma forward_recompute_each st l : forward (recompute_each st l).
Proof. induction l as [|p l IH]; cbn [recompute_each]; forward_walk; try apply IH. Qed.
Lemma forward_ensure_nodes st p l : forward (ensure_nodes st p l).
Proof. revert p. induction l as [|c l IH]; intros p; cbn [ensure_nodes]; forward_walk; try apply IH. Qed.
Lemma forward_walk_path st p l : forward (walk_path st p l).
Proof. revert p. induction l as [|c l IH]; intros p; cbn [walk_path]; forward_walk; try apply IH. Qed.
#[local] Hint Resolve forward_recompute_each forward_ensure_nodes forward_walk_path : forward.
Lemma forward_apply_ingest st u pr cr l : forward (apply_ingest st u pr cr l).
Proof. revert cr. induction l as [|c l IH]; intros cr; cbn [apply_ingest]; forward_walk; try apply IH. Qed.
Lemma forward_seed_from st ids l : forward (seed_from st ids l).
Proof. revert ids. induction l as [|c l IH]; intros ids; cbn [seed_from]; forward_walk; try apply IH. Qed.
#[local] Hint Resolve forward_apply_ingest forward_seed_from : forward.

Lemma forward_perform c : forward (perform c).
Proof. destruct c as [o|o]; destruct o; cbn [perform exec acc_exec]; forward_walk. Qed.

Lemma forward_serve cs w : wnow w <= wnow (serve cs w) /\ wclock w <= wclock (serve cs w).
Proof.
  revert w. induction cs as [|c cs IH]; intros w; cbn; [lia|]. destruct (perform c w) as [r w1] eqn:E.
  apply forward_perform in E. specialize (IH w1). cbn. unfold serve in *. lia.
Qed.

(** ** Every command keeps the database well formed *)

Lemma exec_refs o w r w' : exec o w = (r, w') -> refs_ok (wdb w) -> refs_ok (wdb w').
Proof.
  intros H R.
  assert (D : (exists a c, o = OpDeleteCatalogBarcode a c) \/ forall a c, o ≠ OpDeleteCatalogBarcode a c)
    by (destruct o; eauto; by right).
  destruct D as [(a & c & ->)|Hne]; [|eapply refs_ok_ext; [by eapply frames_exec | exact R]].
  cbn [exec] in H. unfold DeleteCatalogBarcode in H. apply inTx_run in H as [->|(u & _ & H)]; [done|].
  tx_next H for d by get_db_ok as [-> ->]. tx_next H for x by some_or_ok as [Hx ->]. tx_next H by modify_ok as ->.
  audit_inv. apply refs_ok_audit; [done|]. refine (refs_ok_ext (wdb w) _ _ R). reflexivity.
Qed.

Lemma acc_fail o w e w' : acc_exec o w = (Fail e, w') -> wdb w' = wdb w \/ exists id, o = AccLookupSession id.
Proof.
  intros H. assert (D : (exists id, o = AccLookupSession id) \/ forall id, o ≠ AccLookupSession id) by (destruct o; eauto; by right).
  destruct D as [D|Hne]; [by right|]. left. by apply (clean_acc_exec o Hne) in H.
Qed.

Lemma acc_exec_refs o w r w' : acc_exec o w = (r, w') -> refs_ok (wdb w) -> refs_ok (wdb w').
Proof.
  intros H R. destruct r as [[]|e]; [by eapply acc_exec_ok_refs|].
  apply acc_fail in H as H2. destruct H2 as [->|[id ->]]; [done|].
  cbn [acc_exec] in H. unfold void in H. apply bind_fail in H as [H|(? & ? & _ & H)]; [|done].
  unfold LookupSession in H. rewrite (bind_step _ get_db w (wdb w) w) in H by done.
  destruct (db_sessions (wdb w) !! id) as [s|] eqn:Hs; [|by injection H as _ <-].
  rewrite (bind_step _ _ w s w), (bind_step _ time_Now w (wclock w) w) in H by done.
  destruct (negb (wclock w <? ses_ExpiresAt s)); injection H as _ <-; [|done]. cbn. apply refs_sessions; [|done].
  intros t s' Ht. apply lookup_delete_Some in Ht as [_ Ht]. by eapply (ref_session _ R).
Qed.

(** The stock tables, for every account operation but the two that delete. *)
Lemma acc_exec_inventory o :
  match o with
  | AccDeleteUser _ _ | AccDeleteStorage _ _ => True
  | _ => frames inventory_of (acc_exec o)
  end.
Proof.
  destruct o; try exact I; cbn [acc_exec]; deep_walk. by apply seed_frames.
Qed.

Lemma consistent_audit f d : consistent d -> consistent (set_audit f d).
Proof. apply good_step_consistent, good_step_inventory. reflexivity. Qed.

Lemma acc_exec_consistent o w r w' : acc_exec o w = (r, w') -> consistent (wdb w) -> consistent (wdb w').
Proof.
  intros H C. pose proof (acc_exec_inventory o) as N. destruct o;
    try (apply N in H; eapply good_step_consistent; [by apply good_step_inventory | exact C]); clear N.
  - cbn [acc_exec] in H. unfold DeleteUser in H. apply inTx_run in H as [->|(u & -> & H)]; [done|].
    tx_next H for d by get_db_ok as [-> ->]. tx_next H for y by some_or_ok as [Hy ->].
    tx_next H by delete_user_ok as ->. audit_inv. apply consistent_audit.
    by apply (good_step_consistent _ _ (good_step_without_user id (wdb w))).
  - cbn [acc_exec] in H. unfold DeleteStorage in H. apply inTx_run in H as [->|(u & -> & H)]; [done|].
    tx_next H for d by get_db_ok as [-> ->]. tx_next H for y by some_or_ok as [Hy ->].
    tx_next H by require_ok as [Hr ->]. tx_next H by delete_storage_ok as ->. audit_inv.
    apply consistent_audit. by apply consistent_without_storage.
Qed.

Definition cmd_typed (c : Cmd) : Prop := match c with Inv o => op_typed o | Acc _ => True end.

Definition well_formed (d : DB) : Prop := consistent d /\ refs_ok d.

Lemma perform_well_formed c w r w' : cmd_typed c -> perform c w = (r, w') -> well_formed (wdb w) -> well_formed (wdb w').
Proof.
  intros Ht H [C R]. destruct c as [o|o]; cbn [perform] in H; split.
  - by eapply exec_consistent.
  - by eapply exec_refs.
  - by eapply acc_exec_consistent.
  - by eapply acc_exec_refs.
Qed.

Lemma serve_well_formed cs w : Forall cmd_typed cs -> well_formed (wdb w) -> well_formed (wdb (serve cs w)).
Proof.
  revert w. induction cs as [|c cs IH]; intros w Ht W; [done|]. apply Forall_cons in Ht as [Hc Ht].
  cbn. apply IH; [done|]. destruct (perform c w) as [r w'] eqn:E. by eapply perform_well_formed.
Qed.

(** After any sequence of the modelled operations, of the household and of the
    accounts, failures included, started from a well-formed database, the database
    is well formed.  Every batch belongs to a product, a shelf and a container of
    one storage and holds between one and 2^31-1 units; every log row names a
    product and a batch of that product; the stock CurrentStock reports is what
    the log rows sum to; every session, pairing code, membership and audit row
    names accounts that exist, a member's start page is one the app has, and no
    two accounts have the same username. *)
Theorem database_stays_well_formed cs w
    (Htyped : Forall cmd_typed cs) (Hstart : well_formed (wdb w)) :
  let w' := serve cs w in
  well_formed (wdb w') /\
  forall st p prod, product_in_storage (wdb w') st p = Some prod ->
    CurrentStock st p w' = (Ok (ledger (wdb w') p), w').
Proof.
  intros w'. assert (C : well_formed (wdb w')) by (by apply serve_well_formed). split; [exact C|].
  intros st p prod Hp. unfold CurrentStock, mbind, tx_bind, get_db, mret, tx_ret. rewrite Hp.
  destruct C as [[_ B] _]. by rewrite B.
Qed.

Lemma sample_refs : refs_ok sample_db.
Proof.
  assert (Hu : forall u, u = 10 \/ u = 11 -> u ∈ db_users sample_db).
  { intros u [-> | ->]; apply elem_of_dom; vm_compute; eauto. }
  split; try done.
  - intros st u Hm. unfold db_members in Hm. apply elem_of_dom in Hm as [m Hm]. cbn in Hm.
    rewrite !lookup_insert in Hm. repeat case_decide; simplify_eq; (split; [apply elem_of_dom; vm_compute; eauto | apply Hu; auto]).
  - intros k m Hm. cbn in Hm. rewrite !lookup_insert in Hm. repeat case_decide; simplify_eq; by left.
  - intros r a Hr. by apply elem_of_nil in Hr.
  - intros i j u v Hi Hj. cbn in Hi, Hj. rewrite !lookup_insert in Hi, Hj. repeat case_decide; simplify_eq; done.
Qed.

(** A day: buying, a login, a new member, a password change, an empty storage
    deleted, a storage that is refused because it holds stock, a user deleted. *)
Definition sample_cmds : list Cmd :=
  [ Inv (OpCreateBatch 1 (mkNewBatch 31 20 4 None "" "purchase" (Some 10) (Some "Jar") None));
    Acc (AccCreateSession (repeat zero 32) 11 None None hour);
    Acc (AccAdminCreateUser 10 (mkNewUser "cleo" "" "Cleo" false));
    Acc (AccAddMember 10 2 11);
    Acc (AccChangePassword 11 "new" "");
    Acc (AccDeleteStorage 10 2);
    Acc (AccDeleteStorage 10 1);
    Inv (OpWait (hour * 24));
    Acc (AccDeleteUser 10 11) ].

Lemma database_stays_well_formed_witness :
  well_formed (wdb (serve sample_cmds sample_world)) /\
  CurrentStock 1 31 (serve sample_cmds sample_world) = (Ok 4, serve sample_cmds sample_world).
Proof.
  destruct (database_stays_well_formed sample_cmds sample_world) as [C S].
  - repeat constructor.
  - split; [exact sample_consistent | exact sample_refs].
  - split; [exact C|].
    destruct (product_in_storage (wdb (serve sample_cmds sample_world)) 1 31) as [prod|] eqn:E; [|vm_compute in E; discriminate E].
    rewrite (S 1 31 prod E).
    replace (ledger (wdb (serve sample_cmds sample_world)) 31) with 4 by (vm_compute; reflexivity). reflexivity.
Defined.

(** ** Pairing codes *)

(** A command that could mint the token [t] again: crypto/rand repeating itself. *)
Definition mints (t : string) (c : Cmd) : Prop :=
  match c with
  | Acc (AccCreatePairingCode buf _) | Acc (AccCreateSession buf _ _ _ _) => NewToken buf = Some t
  | _ => False
  end.

(** The successful redemptions of a code along a run: when, and for whom. *)
Fixpoint redemptions (code : string) (cs : list Cmd) (w : World) : list (Z * uuid) :=
  match cs with
  | [] => []
  | c :: cs' =>
    match c with
    | Acc (AccRedeemPairingCode code') =>
      if String.eqb code' code then match RedeemPairingCode code w with (Ok u, _) => [(wnow w, u)] | _ => [] end else []
    | _ => []
    end ++ redemptions code cs' (perform c w).2
  end.

Definition pairing_row (code : string) (d : DB) : option PairingCode := db_pairing d !! code.

(** What a command may do to the row of a code. *)
Lemma pairing_row_step code c w r w' :
  ~ mints code c -> perform c w = (r, w') ->
  pairing_row code (wdb w') = pairing_row code (wdb w) \/ pairing_row code (wdb w') = None \/
  c = Acc (AccRedeemPairingCode code) /\
    exists p, pairing_row code (wdb w) = Some p /\ redeemable (wnow w) p = true /\
      RedeemPairingCode code w = (Ok (pc_UserID p), w') /\
      pairing_row code (wdb w') = Some (set_used (wnow w) p).
Proof.
  intros Hm H. destruct c as [o|o]; cbn [perform] in H.
  { left. pose proof (frames_exec_logins o w r w' H) as E. unfold login_tables in E.
    unfold pairing_row. congruence. }
  destruct r as [[]|e]; cycle 1.
  { left. apply acc_fail in H as H2. destruct H2 as [->|[id ->]]; [done|]. revert H. cbn [acc_exec].
    assert (F : frames (pairing_row code) (void (LookupSession id))) by deep_walk. intros H. by apply F in H. }
  assert (F : match o with
    | AccDeleteUser _ _ | AccCreatePairingCode _ _ | AccRedeemPairingCode _ | AccSweepPairingCodes => True
    | _ => frames (pairing_row code) (acc_exec o) end).
  { destruct o; try exact I; cbn [acc_exec]; deep_walk. by apply seed_frames. }
  destruct o; try (left; by eapply F); clear F; cbn [acc_exec] in H; unfold pairing_row.
  - unfold DeleteUser in H. tx_inv1 H. tx_next H for d by get_db_ok as [-> ->]. tx_next H for y by some_or_ok as [Hy ->].
    tx_next H by delete_user_ok as ->. audit_inv. cbn. rewrite map_lookup_filter.
    destruct (db_pairing (wdb w) !! code) as [p|]; [|by left]. cbn. case_guard; [by left | by right; left].
  - apply void_inv in H as [t H]. unfold CreatePairingCode in H. tx_inv. left. cbn. rewrite lookup_insert_ne; [done|].
    intros ->. by apply Hm.
  - apply void_inv in H as [u H]. unfold RedeemPairingCode in H. case_in H; [done|]. tx_inv. cbn.
    destruct (decide (code0 = code)) as [->|Hne]; [|left; by rewrite lookup_insert_ne].
    right; right. split; [done|]. eexists. split_and!; [eassumption | done | | by rewrite lookup_insert_eq].
    unfold RedeemPairingCode. match goal with Hx : String.eqb _ _ = false |- _ => rewrite Hx end.
    rewrite (bind_step _ get_db w (wdb w) w), (bind_step _ now w (wnow w) w) by done.
    match goal with Hx : db_pairing _ !! _ = Some _ |- _ => rewrite Hx end. cbn.
    rewrite (bind_step _ _ w x3 w) by done. unfold require. by match goal with Hx : redeemable _ _ = true |- _ => rewrite Hx end.
  - apply void_inv in H as [n H]. unfold SweepPairingCodes in H. tx_inv. cbn. rewrite map_lookup_filter.
    destruct (db_pairing (wdb w) !! code) as [p|]; [|by left]. cbn. case_guard; [by left | by right; left].
Qed.

(** Nothing more can come of a code. *)
Definition spent (code : string) (w : World) : Prop :=
  forall p, pairing_row code (wdb w) = Some p -> redeemable (wnow w) p = false.

Lemma redeemable_later p t t' : t <= t' -> redeemable t p = false -> redeemable t' p = false.
Proof. unfold redeemable. intros Ht H. apply andb_false_iff in H as [-> | H]; [done|]. apply andb_false_iff. right. lia. Qed.

Lemma spent_step code c w r w' : ~ mints code c -> perform c w = (r, w') -> spent code w -> spent code w'.
Proof.
  intros Hm H Hs p Hp. pose proof (forward_perform c w r w' H) as [Ht _].
  destruct (pairing_row_step code c w r w' Hm H) as [E|[E|(_ & q & Hq & _ & _ & E)]]; [|congruence|].
  - eapply redeemable_later; [exact Ht|]. apply Hs. congruence.
  - rewrite E in Hp. by injection Hp as <-.
Qed.

Lemma redeemed_ok code w u w' : RedeemPairingCode code w = (Ok u, w') ->
  exists p, pairing_row code (wdb w) = Some p /\ redeemable (wnow w) p = true /\ u = pc_UserID p /\
    w' = with_db (set_pairing (<[code := set_used (wnow w) p]>) (wdb w)) w.
Proof. unfold RedeemPairingCode. intros H. case_in H; [done|]. tx_inv. eauto 10. Qed.

Lemma spent_redemptions code cs w : Forall (fun c => ~ mints code c) cs -> spent code w -> redemptions code cs w = [].
Proof.
  revert w. induction cs as [|c cs IH]; intros w Hm Hs; [done|]. apply Forall_cons in Hm as [Hc Hm]. cbn [redemptions].
  destruct (perform c w) as [r w'] eqn:E. cbn [snd]. rewrite IH; [|done|by eapply spent_step]. rewrite app_nil_r.
  destruct c as [|[]]; try done. destruct (String.eqb_spec code0 code) as [->|]; [|done].
  destruct (RedeemPairingCode code w) as [[u|] w2] eqn:R; [|done].
  apply redeemed_ok in R as (p & Hp & Hr & _). rewrite (Hs p Hp) in Hr. done.
Qed.

Lemma redeem_spends code w u w' : RedeemPairingCode code w = (Ok u, w') -> spent code w'.
Proof.
  intros H. apply redeemed_ok in H as (p & _ & _ & _ & ->). intros q Hq. unfold pairing_row in Hq. cbn in Hq.
  rewrite lookup_insert_eq in Hq. by injection Hq as <-.
Qed.

Lemma redemptions_bound code p cs w :
  Forall (fun c => ~ mints code c) cs -> pairing_row code (wdb w) = Some p ->
  redemptions code cs w = [] \/ exists t, redemptions code cs w = [(t, pc_UserID p)] /\ wnow w <= t < pc_ExpiresAt p.
Proof.
  revert w. induction cs as [|c cs IH]; intros w Hm Hp; [by left|]. apply Forall_cons in Hm as [Hc Hm].
  destruct (perform c w) as [r w'] eqn:E. pose proof (forward_perform c w r w' E) as [Ht _].
  cbn [redemptions]. rewrite E. cbn [snd].
  assert (Rest : redemptions code cs w' = [] \/ exists t, redemptions code cs w' = [(t, pc_UserID p)] /\ wnow w <= t < pc_ExpiresAt p).
  { destruct (pairing_row_step code c w r w' Hc E) as [X|[X|(_ & q & _ & _ & X & _)]].
    - rewrite Hp in X. destruct (IH w' Hm X) as [?|(t & ? & ?)]; [by left|]. right. exists t. split; [done | lia].
    - left. apply spent_redemptions; [done|]. intros q Hq. congruence.
    - left. apply spent_redemptions; [done|]. by eapply redeem_spends. }
  destruct c as [|[]]; try exact Rest. destruct (String.eqb_spec code0 code) as [->|]; [|exact Rest].
  destruct (RedeemPairingCode code w) as [[u|] w2] eqn:R; [|exact Rest]. right. exists (wnow w).
  assert (w' = w2) as -> by (cbn [perform acc_exec] in E; unfold void in E; rewrite (bind_step _ _ w u w2 R) in E; by injection E).
  rewrite spent_redemptions; [|done|by eapply redeem_spends]. apply redeemed_ok in R as (q & Hq & Hr & -> & _).
  assert (q = p) as -> by congruence. split; [done|]. apply andb_true_iff in Hr as [_ Hr]. lia.
Qed.

(** C17: Along every sequence of operations in which crypto/rand does not repeat the
    code, a pairing code is redeemed at most once, for the user it was created for
    and before its two minutes are over, however the redemptions, sweeps, waits and
    deletions interleave. *)
Theorem pairing_code_redeemed_once buf userID code w w1 cs
    (Hmint : CreatePairingCode buf userID w = (Ok code, w1))
    (Hfresh : Forall (fun c => ~ mints code c) cs) :
  redemptions code cs w1 = [] \/
  exists t, redemptions code cs w1 = [(t, userID)] /\ wnow w <= t < wnow w + PairingTTL.
Proof.
  unfold CreatePairingCode in Hmint. tx_inv.
  eapply (redemptions_bound code (mkPairing userID (wnow w) (wnow w + PairingTTL) None)) in Hfresh; [exact Hfresh|].
  unfold pairing_row. cbn. by rewrite lookup_insert_eq.
Qed.

(** Two devices present the same code a minute later; one gets in. *)
Lemma pairing_code_redeemed_once_witness :
  exists code w1, CreatePairingCode (repeat zero 32) 11 sample_world = (Ok code, w1) /\
    redemptions code [Inv (OpWait minute); Acc (AccRedeemPairingCode code); Acc (AccRedeemPairingCode code)] w1
      = [(second + minute, 11)].
Proof.
  set (code := "AAAAAAAAAAAAAAAAAAAAAAAAAAAAAAAAAAAAAAAAAAA"). set (w1 := (CreatePairingCode (repeat zero 32) 11 sample_world).2).
  assert (E : CreatePairingCode (repeat zero 32) 11 sample_world = (Ok code, w1)) by (vm_compute; reflexivity).
  exists code, w1. split; [exact E|].
  destruct (pairing_code_redeemed_once _ _ _ _ _ [Inv (OpWait minute); Acc (AccRedeemPairingCode code); Acc (AccRedeemPairingCode code)] E) as [Hn|(t & Ht & _)].
  - repeat constructor; by intros [].
  - exfalso. revert Hn. vm_compute. discriminate.
  - vm_compute. reflexivity.
Defined.

(** ** Sessions *)

(** What ends a session: its own logout, its user's deletion, a reset by an admin,
    and a password change that keeps another one. *)
Definition revokes (t : string) (s : Session) (o : AccOp) : Prop :=
  match o with
  | AccDeleteSession t' => t' = t
  | AccDeleteUser _ u | AccAdminResetPassword _ u _ => u = ses_UserID s
  | AccChangePassword u _ keep => u = ses_UserID s /\ keep ≠ t
  | _ => False
  end.

Definition session_row (t : string) (d : DB) : option Session := db_sessions d !! t.

(** The same login, whenever it was seen last. *)
Definition same_login (s s' : Session) : Prop :=
  ses_UserID s' = ses_UserID s /\ ses_Kind s' = ses_Kind s /\ ses_CreatedAt s' = ses_CreatedAt s /\ ses_ExpiresAt s' = ses_ExpiresAt s.

#[local] Instance same_login_refl : Reflexive same_login.
Proof. by intros s. Qed.

Definition login_of (o : option Session) (o' : option Session) : Prop :=
  forall s', o' = Some s' -> exists s, o = Some s /\ same_login s s'.

Lemma login_of_refl o : login_of o o.
Proof. intros s Hs. by exists s. Qed.
Lemma login_of_trans o o1 o2 : login_of o o1 -> login_of o1 o2 -> login_of o o2.
Proof.
  intros H1 H2 s2 Hs2. destruct (H2 s2 Hs2) as (s1 & Hs1 & E). destruct (H1 s1 Hs1) as (s0 & Hs0 & E0).
  exists s0. split; [done|]. unfold same_login in *. destruct_and!. split_and!; congruence.
Qed.
Lemma login_of_filter (P : string * Session -> Prop) `{forall x, Decision (P x)} t (m : gmap string Session) :
  login_of (m !! t) (base.filter P m !! t).
Proof. intros s Hs. apply map_lookup_filter_Some in Hs as [Hs _]. by exists s. Qed.

(** No command but the minting of the token itself makes a login where there was
    none, moves its expiry, or hands it to another user. *)
Lemma session_row_step t c w r w' :
  ~ mints t c -> perform c w = (r, w') -> login_of (session_row t (wdb w)) (session_row t (wdb w')).
Proof.
  intros Hm H. assert (Same : session_row t (wdb w') = session_row t (wdb w) -> login_of (session_row t (wdb w)) (session_row t (wdb w')))
    by (intros ->; apply login_of_refl).
  destruct c as [o|o]; cbn [perform] in H.
  { apply Same. pose proof (frames_exec_logins o w r w' H) as E. unfold login_tables in E. unfold session_row. congruence. }
  assert (F : match o with
    | AccDeleteUser _ _ | AccChangePassword _ _ _ | AccAdminResetPassword _ _ _ | AccCreateSession _ _ _ _ _ | AccLookupSession _
    | AccTouchSession _ | AccDeleteSession _ | AccSweepSessions => True
    | _ => frames (session_row t) (acc_exec o) end).
  { destruct o; try exact I; cbn [acc_exec]; deep_walk. by apply seed_frames. }
  destruct r as [[]|e].
  - destruct o; try (apply Same; by eapply F); clear F; cbn [acc_exec] in H; unfold session_row in *.
    + unfold DeleteUser in H. tx_inv1 H. tx_next H for d by get_db_ok as [-> ->]. tx_next H for y by some_or_ok as [Hy ->].
      tx_next H by delete_user_ok as ->. audit_inv. apply login_of_filter.
    + unfold ChangePassword in H. tx_inv1 H. apply changePassword_ok in H as (x & _ & ->). apply login_of_filter.
    + unfold AdminResetPassword in H. tx_inv1 H. tx_next H by changePassword_ok as (acct & _ & ->). tx_inv. audit_inv. apply login_of_filter.
    + apply void_inv in H as [a H]. unfold CreateSession in H. tx_inv. apply Same. cbn. rewrite lookup_insert_ne; [done|].
      intros ->. by apply Hm.
    + apply void_inv in H as [a H]. unfold LookupSession in H. tx_inv. case_in H; tx_inv. by apply Same.
    + unfold TouchSession in H. tx_inv. cbn. intros s' Hs'. rewrite lookup_alter in Hs'. case_decide as D; [subst|by exists s'].
      apply fmap_Some in Hs' as (s & Hs & ->). exists s. split; [done|]. by destruct (seen_lately _ s).
    + unfold DeleteSession in H. tx_inv. cbn. intros s' Hs'. apply lookup_delete_Some in Hs' as [_ Hs']. by exists s'.
    + apply void_inv in H as [a H]. unfold SweepSessions in H. tx_inv. apply login_of_filter.
  - apply acc_fail in H as H2. destruct H2 as [->|[id ->]]; [apply login_of_refl|].
    cbn [acc_exec] in H. unfold void in H. apply bind_fail in H as [H|(? & ? & _ & H)]; [|done].
    unfold LookupSession in H. rewrite (bind_step _ get_db w (wdb w) w) in H by done. unfold session_row.
    destruct (db_sessions (wdb w) !! id) as [s|] eqn:Hs; [|by injection H as _ <-; apply login_of_refl].
    rewrite (bind_step _ _ w s w), (bind_step _ time_Now w (wclock w) w) in H by done.
    destruct (negb (wclock w <? ses_ExpiresAt s)); injection H as _ <-; [|apply login_of_refl]. cbn.
    intros s' Hs'. apply lookup_delete_Some in Hs' as [_ Hs']. by exists s'.
Qed.

Lemma session_row_serve t cs w :
  Forall (fun c => ~ mints t c) cs -> login_of (session_row t (wdb w)) (session_row t (wdb (serve cs w))).
Proof.
  revert w. induction cs as [|c cs IH]; intros w Hm; [apply login_of_refl|]. apply Forall_cons in Hm as [Hc Hm]. cbn.
  destruct (perform c w) as [r w'] eqn:E. eapply login_of_trans; [by eapply session_row_step | by apply IH].
Qed.

(** A revoked session's row is gone. *)
Lemma revokes_row t s s0 o w w' :
  session_row t (wdb w) = Some s -> same_login s0 s -> revokes t s0 o -> acc_exec o w = (Ok tt, w') -> session_row t (wdb w') = None.
Proof.
  intros Hs (Eu & _) Hr H. unfold session_row in *. destruct o; try done; cbn [revokes acc_exec] in *.
  - subst id. unfold DeleteUser in H. tx_inv1 H. tx_next H for d by get_db_ok as [-> ->]. tx_next H for y by some_or_ok as [Hy ->].
    tx_next H by delete_user_ok as ->. audit_inv. cbn. rewrite map_lookup_filter, Hs. cbn. case_guard; [congruence | done].
  - destruct Hr as [-> Hk]. unfold ChangePassword in H. tx_inv1 H. apply changePassword_ok in H as (x & _ & ->). cbn.
    rewrite map_lookup_filter, Hs. cbn. case_guard as G; [|done]. exfalso. apply G. split; [done|]. by right.
  - subst userID. unfold AdminResetPassword in H. tx_inv1 H. tx_next H by changePassword_ok as (acct & _ & ->). tx_inv. audit_inv. cbn.
    rewrite map_lookup_filter, Hs. cbn. case_guard as G; [|done]. exfalso. apply G. split; [done|]. by left.
  - subst id. unfold DeleteSession in H. tx_inv. cbn. by rewrite lookup_delete_eq.
Qed.

Lemma LookupSession_found t w t' s w' : LookupSession t w = (Ok (t', s), w') ->
  t' = t /\ session_row t (wdb w) = Some s /\ wclock w < ses_ExpiresAt s.
Proof.
  unfold LookupSession, session_row. intros H. tx_inv. case_in H; tx_inv. simplify_eq. split_and!; [done | done|].
  match goal with Hx : negb _ = false |- _ => apply negb_false_iff in Hx end. lia.
Qed.

(** C15: A session token is honoured for the user it was issued to and never past the
    expiry it was issued with, however logins, sweeps, touches and waits interleave;
    and once its logout, the deletion of its user, an admin's reset or a password
    change that keeps another session has succeeded, no later request of any run
    finds it again. *)
Theorem session_token_lifetime t s pre o post w
    (Hissued : session_row t (wdb w) = Some s)
    (Hfresh : Forall (fun c => ~ mints t c) (pre ++ Acc o :: post)) :
  (forall t' s' w', LookupSession t (serve pre w) = (Ok (t', s'), w') ->
     t' = t /\ same_login s s' /\ wclock (serve pre w) < ses_ExpiresAt s) /\
  (revokes t s o -> (acc_exec o (serve pre w)).1 = Ok tt ->
     (LookupSession t (serve (pre ++ Acc o :: post) w)).1 = Fail ErrNotFound).
Proof.
  apply Forall_app in Hfresh as [Hpre Hpost]. pose proof (session_row_serve t pre w Hpre) as Lpre. split.
  - intros t' s' w' H. apply LookupSession_found in H as (-> & Hs & He). destruct (Lpre s' Hs) as (s0 & Hs0 & E).
    rewrite Hissued in Hs0. injection Hs0 as <-. split_and!; [done | done|]. destruct E as (_ & _ & _ & <-). exact He.
  - intros Hr Hok. apply Forall_cons in Hpost as [Ho Hpost]. unfold serve. rewrite foldl_app. fold (serve pre w). cbn [foldl perform].
    destruct (acc_exec o (serve pre w)) as [r w1] eqn:E. cbn [fst snd] in *. subst r. fold (serve post w1).
    assert (Gone : session_row t (wdb w1) = None).
    { destruct (session_row t (wdb w1)) as [s1|] eqn:H1; [|done]. exfalso.
      destruct (session_row_step t (Acc o) _ _ _ Ho E s1 H1) as (s2 & H2 & _). destruct (Lpre s2 H2) as (s0 & Hs0 & E0).
      rewrite Hissued in Hs0. injection Hs0 as <-. rewrite (revokes_row t s2 s o _ _ H2 E0 Hr E) in H1. done. }
    assert (Gone2 : session_row t (wdb (serve post w1)) = None).
    { destruct (session_row t (wdb (serve post w1))) as [s1|] eqn:H1; [|done].
      destruct (session_row_serve t post w1 Hpost s1 H1) as (s2 & H2 & _). congruence. }
    unfold LookupSession. rewrite (bind_step _ get_db _ _ _ eq_refl). unfold session_row in Gone2. by rewrite Gone2.
Qed.

(** A session is used, the password changes in another one, and it is over. *)
Lemma session_token_lifetime_witness :
  let w := with_db (set_sessions (<["t" := mkSession 11 SessionBrowser None None 0 (hour)]>) sample_db) sample_world in
  (LookupSession "t" (serve [Inv (OpWait minute)] w)).1 = Ok ("t", mkSession 11 SessionBrowser None None 0 hour) /\
  (LookupSession "t" (serve ([Inv (OpWait minute)] ++ Acc (AccChangePassword 11 "h" "other") :: [Inv (OpWait minute)]) w)).1 = Fail ErrNotFound.
Proof.
  intros w. split; [vm_compute; reflexivity|].
  apply (session_token_lifetime "t" (mkSession 11 SessionBrowser None None 0 hour)).
  - vm_compute. reflexivity.
  - repeat constructor; by intros [].
  - vm_compute. split; [reflexivity | discriminate].
  - vm_compute. reflexivity.
Defined.

(** ** Deleting a storage *)

(** The rows of a table whose storage is [st]. *)
Definition of_storage {K V} `{Countable K} (storage_of : K * V -> uuid) (st : uuid) (m : gmap K V) : gmap K V :=
  base.filter (fun kv => storage_of kv = st) m.

Lemma of_storage_others {K V} `{Countable K} (storage_of : K * V -> uuid) st gone (m : gmap K V)
    (P : K * V -> Prop) `{forall kv, Decision (P kv)} :
  st ≠ gone -> (forall kv, P kv <-> storage_of kv ≠ gone) ->
  of_storage storage_of st (base.filter P m) = of_storage storage_of st m.
Proof.
  intros Hne HP. apply map_eq. intros k. apply option_eq. intros v. unfold of_storage. rewrite !map_lookup_filter_Some, HP.
  split; [tauto|]. intros [Hv E]. split_and!; [done| |done]. by rewrite E.
Qed.

Lemma of_storage_gone {K V} `{Countable K} (storage_of : K * V -> uuid) gone (m : gmap K V)
    (P : K * V -> Prop) `{forall kv, Decision (P kv)} :
  (forall kv, P kv -> storage_of kv ≠ gone) -> of_storage storage_of gone (base.filter P m) = ∅.
Proof.
  intros HP. apply map_empty. intros k. apply eq_None_not_Some. intros [v Hv]. unfold of_storage in Hv.
  apply map_lookup_filter_Some in Hv as [Hv E]. apply map_lookup_filter_Some in Hv as [_ Hp]. by apply HP in Hp.
Qed.

(** The directory, the shelves, the lists and the scores of a storage. *)
Record StoragePart := mkPart {
  part_row : option Storage;
  part_members : gmap (uuid * uuid) Member;
  part_locations : gmap uuid Location;
  part_categories : gmap uuid Category;
  part_products : gmap uuid Product;
  part_containers : gmap uuid Container;
  part_lists : gmap uuid ShoppingList;
  part_quests : gmap uuid Quest;
  part_progress : gmap (uuid * uuid) UserProgress;
  part_gsettings : option GSettings;
  part_notifications : option NotificationSettings;
}.

Definition storage_part (st : uuid) (d : DB) : StoragePart :=
  mkPart (db_storage_rows d !! st) (of_storage (fun kv => kv.1.1) st (db_memberships d))
    (of_storage (fun kv => loc_StorageID kv.2) st (db_locations d)) (of_storage (fun kv => cat_StorageID kv.2) st (db_categories d))
    (of_storage (fun kv => prod_StorageID kv.2) st (db_products d)) (of_storage (fun kv => con_StorageID kv.2) st (db_containers d))
    (of_storage (fun kv => list_StorageID kv.2) st (db_lists d)) (of_storage (fun kv => q_StorageID kv.2) st (db_quests d))
    (of_storage (fun kv => kv.1.1) st (db_progress d)) (db_gsettings d !! st) (db_notifications d !! st).

(** The stock of a storage: the batches of its products. *)
Definition stock_part (st : uuid) (d : DB) : gmap uuid Batch :=
  base.filter (fun kv : uuid * Batch => b_ProductID kv.2 ∈ owned prod_StorageID st (db_products d)) (db_batches d).

Lemma storage_part_gone st d : storage_part st (without_storage st d) = mkPart None ∅ ∅ ∅ ∅ ∅ ∅ ∅ ∅ None None.
Proof.
  unfold storage_part, without_storage. cbn. rewrite !lookup_delete_eq. f_equal; by apply of_storage_gone.
Qed.

Lemma storage_part_others st gone d : st ≠ gone -> storage_part st (without_storage gone d) = storage_part st d.
Proof.
  intros Hne. unfold storage_part, without_storage. cbn. rewrite !lookup_delete_ne by done. f_equal; by apply (of_storage_others _ _ gone).
Qed.

Lemma stock_part_gone st d : stock_part st (without_storage st d) = ∅.
Proof.
  apply map_empty. intros k. apply eq_None_not_Some. intros [b Hb]. unfold stock_part in Hb.
  apply map_lookup_filter_Some in Hb as [_ Hp]. cbn in Hp. apply owned_spec in Hp as (p & Hp & Es). cbn in Hp.
  apply map_lookup_filter_Some in Hp as [_ Hne]. by apply Hne.
Qed.

Lemma stock_part_others st gone d : wf d -> st ≠ gone -> stock_part st (without_storage gone d) = stock_part st d.
Proof.
  intros [Wb _] Hne. apply map_eq. intros k. apply option_eq. intros b. unfold stock_part. rewrite !map_lookup_filter_Some. cbn.
  assert (Hown : forall p, p ∈ owned prod_StorageID st (base.filter (fun kv : uuid * Product => prod_StorageID kv.2 ≠ gone) (db_products d))
      <-> p ∈ owned prod_StorageID st (db_products d)).
  { intros p. rewrite !owned_spec. setoid_rewrite map_lookup_filter_Some. cbn. split.
    - intros (v & [Hv _] & E). by exists v.
    - intros (v & Hv & E). exists v. split_and!; [done | congruence | done]. }
  rewrite Hown, lookup_fmap. split.
  - intros [H Hp]. split; [|done]. apply fmap_Some in H as (b0 & H & ->). apply map_lookup_filter_Some in H as [Hb0 _].
    rewrite Hb0. f_equal. symmetry. destruct (uncontain_fields (owned con_StorageID gone (db_containers d)) b0) as (Ep & _). rewrite Ep in Hp.
    destruct (Wb k b0 Hb0) as (p & l & Hpr & _ & _ & _ & _ & Hc). apply owned_spec in Hp as (p' & Hp' & Es).
    assert (p' = p) as -> by congruence. unfold uncontain. destruct (b_ContainerID b0) as [c|]; [|done].
    destruct (Hc c eq_refl) as (con & Hcon & Ecs & _). case_bool_decide as G; [|done]. apply owned_spec in G as (con' & ? & ?). congruence.
  - intros [Hb Hp]. split; [|done]. apply fmap_Some. exists b. apply owned_spec in Hp as (p & Hp & Es). split.
    + apply map_lookup_filter_Some. split; [done|]. cbn. intros G. apply owned_spec in G as (p' & ? & ?). congruence.
    + destruct (Wb k b Hb) as (p' & l & Hpr & _ & _ & _ & _ & Hc). unfold uncontain. destruct (b_ContainerID b) as [c|]; [|done].
      destruct (Hc c eq_refl) as (con & Hcon & Ecs & _). case_bool_decide as G; [|done]. apply owned_spec in G as (con' & ? & ?). congruence.
Qed.

Lemma part_audit st f d : storage_part st (set_audit f d) = storage_part st d.
Proof. reflexivity. Qed.
Lemma stock_audit st f d : stock_part st (set_audit f d) = stock_part st d.
Proof. reflexivity. Qed.

(** C22: Deleting a storage is refused as not found when there is none, and refused
    while a single unit of stock lies on one of its shelves; a refusal changes
    nothing.  When it succeeds the storage's row, members, shelves, categories,
    products, stock, containers, lists, quests, scores and settings are gone, those
    of every other storage are untouched, and the last row of the audit log says
    who deleted it and what it was called. *)
Theorem DeleteStorage_spec actor id w r w' (Hw : wf (wdb w)) (Hrun : DeleteStorage actor id w = (r, w')) :
  let d := wdb w in let d' := wdb w' in
  (db_storage_rows d !! id = None -> r = Fail ErrNotFound) /\
  (forall i b l, db_batches d !! i = Some b -> db_locations d !! b_LocationID b = Some l -> loc_StorageID l = id -> exists e, r = Fail e) /\
  match r with
  | Fail _ => d' = d
  | Ok _ =>
    storage_part id d' = mkPart None ∅ ∅ ∅ ∅ ∅ ∅ ∅ ∅ None None /\ stock_part id d' = ∅ /\
    (forall st, st ≠ id -> storage_part st d' = storage_part st d /\ stock_part st d' = stock_part st d) /\
    exists s auditID, db_storage_rows d !! id = Some s /\
      db_audit d' = db_audit d ++ [audited_by actor ActionStorageDeleted (AuditID id) (text_field "storage_name" (sto_Name s)) auditID (wnow w)]
  end.
Proof.
  intros d d'. unfold DeleteStorage in Hrun. split_and!.
  - intros Hn. unfold inTx in Hrun. rewrite (bind_step _ get_db w d w) in Hrun by done. rewrite Hn in Hrun. by injection Hrun as <- _.
  - intros i b l Hb Hl Hs. destruct r as [u|e]; [|by exists e]. exfalso. apply inTx_inv in Hrun.
    tx_next Hrun for dd by get_db_ok as [-> ->]. tx_next Hrun for y by some_or_ok as [Hy ->]. tx_next Hrun by require_ok as [Hr ->].
    apply negb_true_iff in Hr. unfold storage_restricted in Hr. apply orb_false_iff in Hr as [Hr _].
    apply negb_false_iff, Z.eqb_eq in Hr. eapply held_at_zero in Hr; [|exact Hb]. apply Hr, owned_spec. eauto.
  - destruct r as [u|e]; [|by apply inTx_fail in Hrun]. apply inTx_inv in Hrun.
    tx_next Hrun for dd by get_db_ok as [-> ->]. tx_next Hrun for y by some_or_ok as [Hy ->]. tx_next Hrun by require_ok as [Hr ->].
    tx_next Hrun by delete_storage_ok as ->. apply writeAdminAudit_ok in Hrun as (a & ids & _ & _ & ->). unfold d'. cbn [wdb with_db] in *. subst d.
    split_and!.
    + rewrite part_audit. apply storage_part_gone.
    + rewrite stock_audit. apply stock_part_gone.
    + intros st Hne. rewrite part_audit, stock_audit.
      split; [by apply (storage_part_others st id) | by apply (stock_part_others st id)].
    + exists y, a. split; done.
Qed.

(** The cabin goes; the stocked home is refused. *)
Lemma DeleteStorage_spec_witness :
  (DeleteStorage 10 2 sample_world).1 = Ok tt /\ storage_part 1 (wdb (DeleteStorage 10 2 sample_world).2) = storage_part 1 sample_db /\
  exists e, (DeleteStorage 10 1 sample_world).1 = Fail e.
Proof.
  destruct sample_consistent as [W _].
  assert (Ok2 : (DeleteStorage 10 2 sample_world).1 = Ok tt) by (vm_compute; reflexivity). split; [exact Ok2|]. split.
  - destruct (DeleteStorage 10 2 sample_world) as [r w'] eqn:E. cbn [fst snd] in *. subst r.
    destruct (DeleteStorage_spec 10 2 sample_world _ _ W E) as (_ & _ & _ & _ & H & _). by apply (H 1).
  - destruct (DeleteStorage 10 1 sample_world) as [r w'] eqn:E. cbn [fst].
    destruct (DeleteStorage_spec 10 1 sample_world _ _ W E) as (_ & H & _).
    apply (H 40 beans_batch (shelf "Kitchen" None)); vm_compute; reflexivity.
Defined.
