(* ===== verification/Listings.v ===== *)
(** * Listings and searches: the reads of internal/store

    What products.go, batches.go, barcodes.go, catalog.go, inventory.go and matching.go
    read for a page or a search.  Text is ordered byte by byte (the C collation); rows a
    query leaves in no order go by id.  pg_trgm's similarity is a parameter. *)

From Stdlib Require Import Ascii String.
From S2P Require Import Prelude Text Json Gamification Expiry Db Tree Progress ShelfLife Containers Batches Consumption Barcodes Locations Products Matching.

#[local] Open Scope string_scope.
#[local] Open Scope list_scope.
#[local] Open Scope Z_scope.

(** ** name ILIKE pattern *)

(** Characters: a byte with the UTF-8 continuation bytes after it. *)
Definition continuation (c : ascii) : bool := in_range 128 191 c.
Definition chars_step (c : ascii) (groups : list (list ascii)) : list (list ascii) :=
  match groups with
  | (x :: g) :: rest => if continuation x then (c :: x :: g) :: rest else [c] :: groups
  | _ => [c] :: groups
  end.
Definition chars (l : list ascii) : list (list ascii) := foldr chars_step [] l.

Definition percent : list ascii := ["%"%char].
Definition underscore : list ascii := ["_"%char].
Definition backslash : list ascii := ["\"%char].
Definition same_char (a b : list ascii) : bool := bool_decide (map lower a = map lower b).

(** % stands for any text, _ for one character, \ takes the next one literally; a
    pattern that ends in \ is an error of the query, which here matches nothing. *)
Fixpoint ilike (p s : list (list ascii)) : bool :=
  match p with
  | [] => is_nil (head s)
  | c :: p' =>
    if bool_decide (c = percent) then
      (fix any (t : list (list ascii)) : bool := ilike p' t || match t with [] => false | _ :: t' => any t' end) s
    else
      match s with
      | [] => false
      | x :: s' =>
        if bool_decide (c = underscore) then ilike p' s'
        else if bool_decide (c = backslash) then
          match p' with d :: p'' => same_char d x && ilike p'' s' | [] => false end
        else same_char c x && ilike p' s'
      end
  end.

(** $2 = '' OR name ILIKE '%' || $2 || '%' *)
Definition contains_pattern (q name : string) : bool :=
  ilike (chars ("%"%char :: bytes q ++ ["%"%char])) (chars (bytes name)).
Definition name_filter (q name : string) : bool := String.eqb q "" || contains_pattern q name.

Lemma ilike_percent p s : ilike (percent :: p) s = true <-> exists a b, s = a ++ b /\ ilike p b = true.
Proof.
  cbn. rewrite bool_decide_eq_true_2 by done. induction s as [|x s IH].
  - rewrite orb_false_r. split; [by exists [], [] | by intros ([] & [] & ? & ?)].
  - rewrite orb_true_iff, IH. split.
    + intros [H|(a & b & -> & H)]; [by exists [], (x :: s) | by exists (x :: a), b].
    + intros ([|y a] & b & E & H); simplify_eq/=; [by left | right; eauto].
Qed.

Lemma same_char_spec a b : same_char a b = true <-> map lower a = map lower b.
Proof. apply bool_decide_eq_true. Qed.

(** A character that stands for itself. *)
Definition plain_char (c : list ascii) : Prop := c ≠ percent /\ c ≠ underscore /\ c ≠ backslash.

Lemma ilike_plain q p s : Forall plain_char q ->
  ilike (q ++ p) s = true <-> exists m b, s = m ++ b /\ map (map lower) m = map (map lower) q /\ ilike p b = true.
Proof.
  intros Hq. revert s. induction Hq as [|c q (H1 & H2 & H3) Hq IH]; intros s.
  - split; [by exists [], s | by intros ([] & b & -> & ? & ?)].
  - change ((c :: q) ++ p) with (c :: q ++ p). cbn [ilike].
    rewrite bool_decide_eq_false_2 by done. destruct s as [|x s].
    + split; [done|]. by intros ([|y m] & b & E & E2 & _).
    + rewrite !bool_decide_eq_false_2 by done. rewrite andb_true_iff, same_char_spec, IH. split.
      * intros (E & m & b & -> & Em & H). exists (x :: m), b. cbn. by rewrite E, Em.
      * intros ([|y m] & b & E & Em & H); simplify_eq/=. eauto 6.
Qed.

(** ** Products *)

Definition by_name {A} (name : A -> string) (a b : A) : Prop := text_le (name a) (name b).
#[export] Instance by_name_dec {A} (name : A -> string) : RelDecision (by_name name).
Proof. intros a b. unfold by_name. apply _. Defined.

Definition row_name (p : uuid * Product) : string := prod_Name p.2.
Definition products_of (d : DB) (storageID : uuid) : list (uuid * Product) :=
  order_by_id (base.filter (fun kv : uuid * Product => prod_StorageID kv.2 = storageID) (db_products d)).

Definition ListProducts (storageID : uuid) : Tx (list (uuid * Product)) :=
  d ← get_db;
  mret (merge_sort (by_name row_name) (products_of d storageID)).

Record ProductSummary := mkSummary {
  ps_ID : uuid;
  ps_Name : string;
  ps_CategoryName : option string;
  ps_ImageURL : option string;
  ps_IconName : option string;
  ps_CurrentStock : Z;
}.

Definition summary (d : DB) (kv : uuid * Product) : ProductSummary :=
  mkSummary kv.1 (prod_Name kv.2) (c ← prod_CategoryID kv.2; cat_Name <$> db_categories d !! c)
    (prod_ImageURL kv.2) (prod_IconName kv.2) (stock d kv.1).

Definition SearchProducts (storageID : uuid) (query : string) : Tx (list ProductSummary) :=
  d ← get_db;
  mret (map (summary d) (merge_sort (by_name row_name)
    (base.filter (fun kv => name_filter query (row_name kv) = true) (products_of d storageID)))).

Record ProductLog := mkProductLog {
  pl_ID : uuid;
  pl_BatchID : option uuid;
  pl_ChangeQty : Z;
  pl_Reason : string;
  pl_CreatedBy : option string;
  pl_Timestamp : Z;
}.

Definition later_log (a b : LogRow) : Prop :=
  log_Timestamp b < log_Timestamp a \/ (log_Timestamp a = log_Timestamp b /\ log_ID b <= log_ID a).
#[export] Instance later_log_dec : RelDecision later_log.
Proof. intros a b. unfold later_log. apply _. Defined.

Definition product_log (d : DB) (l : LogRow) : ProductLog :=
  mkProductLog (log_ID l) (log_BatchID l) (log_ChangeQty l) (log_Reason l)
    (u ← log_CreatedBy l; usr_DisplayName <$> db_accounts d !! u) (log_Timestamp l).

Definition ListProductLogs (storageID productID : uuid) (limit : Z) : Tx (list ProductLog) :=
  requireProductInStorage storageID productID ;;
  d ← get_db;
  mret (map (product_log d) (take (Z.to_nat limit)
    (merge_sort later_log (base.filter (fun l => log_ProductID l = productID) (db_logs d))))).

Definition ListProductBatches (storageID productID : uuid) : Tx (list BatchView) :=
  requireProductInStorage storageID productID ;;
  d ← get_db;
  mret (map (fun kv => view_batch d kv.1 kv.2) (batches_by_expiry d productID)).

(** ORDER BY created_at, barcode *)
Definition older_code (a b : string * ProductBarcode) : Prop :=
  pb_CreatedAt a.2 < pb_CreatedAt b.2 \/ (pb_CreatedAt a.2 = pb_CreatedAt b.2 /\ text_le a.1 b.1).
#[export] Instance older_code_dec : RelDecision older_code.
Proof. intros a b. unfold older_code. apply _. Defined.

Definition ProductBarcodes (storageID productID : uuid) : Tx (list (string * ProductBarcode)) :=
  requireProductInStorage storageID productID ;;
  d ← get_db;
  mret (merge_sort older_code (omap (fun kv : uuid * string * ProductBarcode =>
    if (kv.1.1 =? storageID) && (pb_ProductID kv.2 =? productID) then Some (kv.1.2, kv.2) else None) (map_to_list (db_barcodes d)))).

(** ** The whole inventory *)

(** The names from the root to the location; the chain's depth runs from 0 to 64. *)
Definition location_path (d : DB) (id : uuid) : list string :=
  reverse (omap (fun l => loc_Name <$> db_locations d !! l) (ancestors (S maxTreeDepth) (tree_nodes treeLocations d) id)).

Record InventoryBatchFilter := mkInventoryFilter { if_LocationID : option uuid; if_CategoryID : option uuid; if_Q : string }.

Record InventoryBatchRow := mkInventoryRow {
  ib_ID : uuid;
  ib_Row : Batch;
  ib_ProductName : string;
  ib_ImageURL : option string;
  ib_CategoryID : option uuid;
  ib_CategoryName : option string;
  ib_LocationPath : list string;
}.

(** The ids a filter admits: none given admits all. *)
Definition subtree_filter (table : treeTable) (storageID : uuid) (id : option uuid) : Tx (option (list uuid)) :=
  match id with
  | None => mret None
  | Some id =>
    requireSameStorage table storageID id ;;
    d ← get_db;
    mret (Some (subtree (tree_nodes table d) id))
  end.

Definition admits (ids : option (list uuid)) (id : option uuid) : bool :=
  match ids with None => true | Some ids => match id with Some x => bool_decide (x ∈ ids) | None => false end end.

Definition inventory_row (d : DB) (id : uuid) (b : Batch) (p : Product) : InventoryBatchRow :=
  mkInventoryRow id b (prod_Name p) (prod_ImageURL p) (prod_CategoryID p)
    (c ← prod_CategoryID p; cat_Name <$> db_categories d !! c) (location_path d (b_LocationID b)).

Definition inventory_rows (d : DB) (storageID : uuid) (locationIDs categoryIDs : option (list uuid)) (q : string) : list InventoryBatchRow :=
  omap (fun kv : uuid * Batch =>
    p ← product_in_storage d storageID (b_ProductID kv.2);
    if admits locationIDs (Some (b_LocationID kv.2)) && admits categoryIDs (prod_CategoryID p) && name_filter q (prod_Name p)
    then Some (inventory_row d kv.1 kv.2 p) else None) (order_by_id (db_batches d)).

Definition behind (after : option uuid) (id : uuid) : bool := match after with None => true | Some a => a <? id end.

Definition ListInventoryBatches (storageID : uuid) (filter : InventoryBatchFilter) (after : option uuid) (limit : Z) : Tx (list InventoryBatchRow) :=
  locationIDs ← subtree_filter treeLocations storageID (if_LocationID filter);
  categoryIDs ← subtree_filter treeCategories storageID (if_CategoryID filter);
  d ← get_db;
  mret (take (Z.to_nat limit)
    (base.filter (fun row => behind after (ib_ID row) = true) (inventory_rows d storageID locationIDs categoryIDs (if_Q filter)))).

(** ** The catalog *)

Definition display_name (c : uuid * CatalogProduct) : string := cp_DisplayName c.2.

Definition CatalogVariants (id : uuid) (limit : Z) : Tx (list string) :=
  d ← get_db;
  let limit := if limit <=? 0 then 5 else limit in
  mret (match db_catalog d !! id with
    | None => []
    | Some target =>
      let base := default id (cp_BaseID target) in
      take (Z.to_nat limit) (map display_name (merge_sort (by_name display_name)
        (base.filter (fun c : uuid * CatalogProduct => c.1 ≠ id /\ (cp_BaseID c.2 = Some base \/ c.1 = base)) (order_by_id (db_catalog d)))))
    end).

Definition maxCatalogSearchResults : nat := 50.

Definition SearchCatalog (q : string) : Tx (list (uuid * CatalogProduct)) :=
  d ← get_db;
  mret (take maxCatalogSearchResults (merge_sort (by_name display_name)
    (base.filter (fun c => contains_pattern q (display_name c) = true) (order_by_id (db_catalog d))))).

(** ** The queries of the matching service *)

Class Trigrams := similarity : string -> string -> float64.

Section matching.
Context `{Trigrams}.

Definition more_similar {A} (name : A -> string) (query : string) (a b : A) : Prop :=
  f_ge (similarity (name a) query) (similarity (name b) query) = true.
#[local] Instance more_similar_dec {A} (name : A -> string) query : RelDecision (more_similar name query).
Proof. intros a b. unfold more_similar. apply _. Defined.

(** Most similar first; ties by id. *)
Definition similar_products (d : DB) (storageID : uuid) (query : string) (minSimilarity : float64) : list (uuid * Product) :=
  merge_sort (more_similar row_name query)
    (base.filter (fun kv => f_ge (similarity (row_name kv) query) minSimilarity = true) (products_of d storageID)).

Definition normalized (c : uuid * CatalogProduct) : string := cp_NormalizedName c.2.

Definition variant_of (id : uuid) (hit : CatalogProduct) (c : uuid * CatalogProduct) : Prop :=
  c.1 ≠ id /\ cp_BaseID c.2 = Some (default id (cp_BaseID hit)).
#[local] Instance variant_of_dec id hit c : Decision (variant_of id hit c).
Proof. unfold variant_of. apply _. Defined.

#[export] Instance store_matching : MatchStore World := {
  SimilarProducts storageID query minSimilarity limit :=
    d ← get_db;
    mret (map (fun kv => mkLocal kv.1 (row_name kv) (similarity (row_name kv) query))
      (take (Z.to_nat limit) (similar_products d storageID query minSimilarity)));
  SimilarCatalogProduct query minSimilarity :=
    d ← get_db;
    mret (head (merge_sort (more_similar normalized query)
      (base.filter (fun c => f_ge (similarity (normalized c) query) minSimilarity = true) (order_by_id (db_catalog d)))));
  CatalogVariantsOf id query limit :=
    d ← get_db;
    mret (match db_catalog d !! id with
      | None => []
      | Some hit =>
        map (fun c : uuid * CatalogProduct => mkVariant c.1 (display_name c)) (take (Z.to_nat limit)
          (merge_sort (more_similar normalized query) (merge_sort (by_name display_name)
            (base.filter (variant_of id hit) (order_by_id (db_catalog d))))))
      end);
}.

End matching.
