(* ===== verification/Reorder.v ===== *)
(** * What to buy and where stock goes: store/reorder.go, store/analytics.go

    Products watched for reorder with their live stock, the two buckets of the
    dashboard and its CSV (httpapi/reorder.go, encoding/csv), and the three queries of
    the analytics page.  date_trunc works in UTC. *)

From Stdlib Require Import Ascii String.
From S2P Require Import Prelude Text Encoding Json Gamification Expiry Db Tree Progress ShelfLife Containers Batches Consumption Barcodes Locations Products Matching Listings.

#[local] Open Scope string_scope.
#[local] Open Scope list_scope.
#[local] Open Scope Z_scope.

(** ** Thresholds *)

Record ReorderProduct := mkReorder { ro_ProductID : uuid; ro_Name : string; ro_CurrentStock : Z; ro_MinStock : Z }.

Definition reorder_row (d : DB) (kv : uuid * Product) : ReorderProduct :=
  mkReorder kv.1 (prod_Name kv.2) (stock d kv.1) (prod_MinStock kv.2).

Definition ReorderProducts (storageID : uuid) : Tx (list ReorderProduct) :=
  d ← get_db;
  mret (map (reorder_row d) (merge_sort (by_name row_name)
    (base.filter (fun kv : uuid * Product => 0 < prod_MinStock kv.2) (products_of d storageID)))).

Definition ProductMinStock (storageID id : uuid) : Tx Z :=
  d ← get_db;
  p ← some_or (product_in_storage d storageID id) ErrNotFound;
  mret (prod_MinStock p).

Definition set_min_stock (n t : Z) (p : Product) : Product :=
  mkProduct (prod_StorageID p) (prod_Name p) (prod_CategoryID p) (prod_CatalogID p) (prod_ItemType p)
    (prod_DefaultShelfLifeDays p) n (prod_ImageURL p) (prod_IconName p) (prod_CreatedAt p) t.

(** The UPDATE both share; no row is ErrNotFound. *)
Definition UpdateProductMinStock (storageID id : uuid) (minStock : Z) : Tx (uuid * Product) :=
  t ← now;
  found ← update_product (set_min_stock minStock t) storageID id;
  require found ErrNotFound ;;
  d ← get_db;
  p ← some_or (product_in_storage d storageID id) ErrNotFound;
  mret (id, p).

Definition UpdateProductMinStockAsUser (storageID id : uuid) (minStock : Z) (userID : uuid) : Tx (uuid * Product) :=
  inTx (
    previous ← ProductMinStock storageID id;
    product ← UpdateProductMinStock storageID id minStock;
    (if (previous =? 0) && (0 <? minStock)
     then recordContribution storageID userID KindMetadataFilled (Some id) (Some GeneratorUntrackedReorder)
     else mret tt) ;;
    mret product).

(** ** The two buckets *)

(** classifyReorder: what is out of stock and what is low, in the order of the rows. *)
Definition classifyReorder (rows : list ReorderProduct) : list ReorderProduct * list ReorderProduct :=
  (List.filter (fun r => (0 <? ro_MinStock r) && (ro_CurrentStock r =? 0)) rows,
   List.filter (fun r => (0 <? ro_MinStock r) && negb (ro_CurrentStock r =? 0) && (ro_CurrentStock r <? ro_MinStock r)) rows).

Definition reorderQty (current min : Z) : Z := let q := min - current in if q <? 1 then 1 else q.

(** ** encoding/csv *)

Definition comma : ascii := ",".
Definition newline : ascii := byte_of 10.

(** fieldNeedsQuotes: the first rune is looked at for a space among ASCII only. *)
Definition fieldNeedsQuotes (f : list ascii) : bool :=
  match f with
  | [] => false
  | c :: _ =>
    String.eqb (text f) "\." ||
    existsb (fun b => Ascii.eqb b comma || (byte_code b =? 34) || (byte_code b =? 13) || (byte_code b =? 10)) f || is_space c
  end.

Definition csv_field (f : string) : list ascii :=
  if fieldNeedsQuotes (bytes f)
  then quote_mark :: flat_map (fun c => if Ascii.eqb c quote_mark then [c; c] else [c]) (bytes f) ++ [quote_mark]
  else bytes f.

Definition csv_line (fields : list string) : list ascii := join_bytes [comma] (map csv_field fields) ++ [newline].

Definition reorder_line (r : ReorderProduct) : list string :=
  [ro_Name r; FormatInt (ro_CurrentStock r); FormatInt (ro_MinStock r); FormatInt (reorderQty (ro_CurrentStock r) (ro_MinStock r))].

(** The body Export writes. *)
Definition reorder_csv (rows : list ReorderProduct) : list ascii :=
  let '(outOfStock, lowStock) := classifyReorder rows in
  csv_line ["Name"; "Current stock"; "Min stock"; "Suggested reorder qty"] ++ flat_map (fun r => csv_line (reorder_line r)) (outOfStock ++ lowStock).

(** ** The analytics page *)

Inductive TurnoverGranularity := GranularityWeek | GranularityMonth.

Definition AnalyticsTotalItems (storageID : uuid) : Tx Z :=
  d ← get_db;
  mret (msum (fun b => match product_in_storage d storageID (b_ProductID b) with Some _ => b_Quantity b | None => 0 end) (db_batches d)).

Record LocationDistributionRow := mkDistribution { ld_LocationID : uuid; ld_LocationName : string; ld_ItemCount : Z }.

(** ORDER BY item_count DESC, full_path *)
Definition fuller (a b : LocationDistributionRow) : Prop :=
  ld_ItemCount b < ld_ItemCount a \/ (ld_ItemCount a = ld_ItemCount b /\ text_le (ld_LocationName a) (ld_LocationName b)).
#[export] Instance fuller_dec : RelDecision fuller.
Proof. intros a b. unfold fuller. apply _. Defined.

(** What a storage keeps in a location: none when no batch of it is there. *)
Definition kept_at (d : DB) (storageID location : uuid) : list Batch :=
  omap (fun kv : uuid * Batch =>
    _ ← product_in_storage d storageID (b_ProductID kv.2); if b_LocationID kv.2 =? location then Some kv.2 else None) (order_by_id (db_batches d)).

Definition AnalyticsLocationDistribution (storageID : uuid) : Tx (list LocationDistributionRow) :=
  d ← get_db;
  mret (merge_sort fuller (omap (fun kv : uuid * Location =>
    match kept_at d storageID kv.1 with
    | [] => None
    | kept => Some (mkDistribution kv.1 (Join (location_path d kv.1) " > ") (lsum b_Quantity kept))
    end) (order_by_id (db_locations d)))).

Record TurnoverRow := mkTurnover { tr_Period : string; tr_Purchased : Z; tr_Consumed : Z }.

(** The day date_trunc gives, and to_char of it. *)
Definition period_start (granularity : TurnoverGranularity) (t : Z) : Z :=
  match granularity with
  | GranularityWeek => mondayOf t
  | GranularityMonth => let '(y, (m, _)) := civil (t / day) in day_number y m 1
  end.
Definition period_label (granularity : TurnoverGranularity) (start : Z) : string :=
  match granularity with
  | GranularityWeek =>
    let thursday := start + 3 in
    let y := (civil thursday).1 in
    text (four_digits y ++ hyphen :: "W"%char :: two_digits ((thursday - year_start y) / 7 + 1))
  | GranularityMonth => let '(y, (m, _)) := civil start in text (four_digits y ++ hyphen :: two_digits m)
  end.

Definition arrived (l : LogRow) : Z :=
  if bool_decide (log_Reason l ∈ [ReasonPurchase; ReasonVisionIngestion]) then log_ChangeQty l else 0.
Definition left_with (l : LogRow) : Z := if String.eqb (log_Reason l) ReasonConsumption then - log_ChangeQty l else 0.

Definition turnover_rows (granularity : TurnoverGranularity) (logs : list LogRow) : list TurnoverRow :=
  let key l := period_start granularity (log_Timestamp l) in
  map (fun start =>
    let group := List.filter (fun l => key l =? start) logs in
    mkTurnover (period_label granularity start) (lsum arrived group) (lsum left_with group))
  (merge_sort Z.le (elements (list_to_set (map key logs) : gset Z))).

Definition storage_logs (d : DB) (storageID : uuid) : list LogRow :=
  List.filter (fun l => negb (is_nil (product_in_storage d storageID (log_ProductID l)))) (db_logs d).

Definition AnalyticsTurnover (storageID : uuid) (granularity : TurnoverGranularity) : Tx (list TurnoverRow) :=
  d ← get_db;
  mret (turnover_rows granularity (storage_logs d storageID)).
