(* ===== verification/Pictures.v ===== *)
(** * Product pictures: productpictures.go, productimages.go, images.go, upload.go

    Where a product's picture comes from (an upload, a cached suggestion), the file it
    becomes, who may read it, and its removal when nothing refers to it.  The cache of
    suggestions (internal/imagesearch), the multipart reader, the codecs and what the
    disk refuses are a [Gallery]. *)

From Stdlib Require Import Ascii String Strings.Byte.
From S2P Require Import Prelude Text Encoding Uploads Gamification Images Db Products Json RateLimit Http.

#[local] Open Scope string_scope.
#[local] Open Scope list_scope.
#[local] Open Scope Z_scope.

(** What the form holds under a field. *)
Inductive FormFile := FormTooLarge | FormUnreadable | FormMissing | FormUnread | FormFileData (raw : list byte).

(** The suggestion cache, each answer at a moment of the world; an error is the
    store's, or [ErrOther]. *)
Record ImageCache := mkCache {
  ic_SourceURL : string -> World -> Res string;
  ic_Open : string -> World -> Res (list ascii * string);
  ic_Fetch : string -> World -> Res string;
}.

Class Gallery := {
  image_cache : option ImageCache;
  (** uploads.ProductImagesDir, when the volume is there *)
  images_dir : option Dir;
  (** whether the disk does what it is asked with the file *)
  disk_ok : World -> string -> bool;
  form_file : Request -> string -> FormFile;
  pixel_color : Type;
  pixel_blank : pixel_color;
  pixel_rgba : pixel_color -> pixel_color;
  pixel_codecs : @Codecs pixel_color;
  (** what the providers suggest for a text, given the address of a cached picture *)
  suggest : string -> (string -> string) -> World -> list Json;
}.

Definition MaxUploadBytes : Z := 25 * 2 ^ 20.
Definition MaxImagePixels : Z := 50000000.
Definition maxQueryLength : Z := 200.

Definition Extension (f : Format) : string := match f with FormatJPEG => ".jpg" | FormatPNG => ".png" end.
Definition ContentType (f : Format) : string := match f with FormatJPEG => "image/jpeg" | FormatPNG => "image/png" end.

(** The text before the first semicolon. *)
Definition media_type (contentType : string) : string :=
  ToLower (TrimSpace (text (hd [] (split_from ";"%char [] (bytes contentType))))).
Definition pictureExtension (contentType : string) : string :=
  let t := media_type contentType in
  if String.eqb t "image/jpeg" then ".jpg" else if String.eqb t "image/png" then ".png"
  else if String.eqb t "image/svg+xml" then ".svg" else "".

Definition HasSuffix (s suffix : string) : bool :=
  let n := (String.length s - String.length suffix)%nat in
  (String.length suffix <=? String.length s)%nat && String.eqb (text (drop n (bytes s))) suffix.

Definition pictureContentType (name : string) : string :=
  if HasSuffix name ".png" then "image/png" else if HasSuffix name ".svg" then "image/svg+xml" else "image/jpeg".

(** ^[0-9a-f]{64}$ *)
Definition cacheHashPattern (hash : string) : bool := (String.length hash =? 64)%nat && forallb is_hex (bytes hash).

(** errPictureUnavailable, or another error. *)
Inductive PictureError := PictureUnavailable | PictureFailed (e : Err).

Section pictures.
Context `{Deployment} `{Gallery}.

Definition productImageURL (storageID : uuid) (name : string) : string :=
  "/api/storages/" +:+ uuid_String storageID +:+ "/product-images/" +:+ name.

(** A call of the images' directory. *)
Definition on_disk {A} (name : string) (f : bool -> FS -> A * FS) : Hd A := fun s =>
  let '(a, m) := f (disk_ok (sv_World s) name) (sv_Files s) in (inr a, with_files m s).

(** A question to the cache. *)
Definition ask {A} (f : World -> Res A) : Hd (Res A) := fun s => (inr (f (sv_World s)), s).

(** productPictures.save *)
Definition save_picture (storageID : uuid) (data : list ascii) (contentType : string) : Hd (PictureError + string * string) :=
  match images_dir with
  | None => mret (inl PictureUnavailable)
  | Some dir =>
    let ext := pictureExtension contentType in
    if String.eqb ext "" then mret (inl PictureUnavailable)
    else
      id ← call newID;
      match id with
      | Fail e => mret (inl (PictureFailed e))
      | Ok id =>
        let name := uuid_String id +:+ ext in
        saved ← on_disk name (fun os => Save dir os name data);
        mret (match saved with inl _ => inl (PictureFailed ErrOther) | inr _ => inr (name, productImageURL storageID name) end)
      end
  end.

(** An answer of the cache in which nothing found is a picture that is not available. *)
Definition or_unavailable {A} (r : Res A) : PictureError + A :=
  match r with Ok a => inr a | Fail ErrNotFound => inl PictureUnavailable | Fail e => inl (PictureFailed e) end.

Definition promoteSuggestion (storageID : uuid) (hash : string) : Hd (PictureError + string * string * string) :=
  match image_cache with
  | None => mret (inl PictureUnavailable)
  | Some cache =>
    if negb (cacheHashPattern hash) then mret (inl PictureUnavailable)
    else
      source ← ask (ic_SourceURL cache hash);
      match or_unavailable source with
      | inl e => mret (inl e)
      | inr source =>
        opened ← ask (ic_Open cache hash);
        match or_unavailable opened with
        | inl e => mret (inl e)
        | inr (data, contentType) =>
          saved ← save_picture storageID data contentType;
          mret (match saved with inl e => inl e | inr (name, url) => inr (name, url, source) end)
        end
      end
  end.

(** A picture that cannot be had is none. *)
Definition promoteSource (storageID : uuid) (source : option string) : Hd (string * option string) :=
  match source, image_cache, images_dir with
  | Some source, Some cache, Some _ =>
    hash ← ask (ic_Fetch cache source);
    match hash with
    | Fail _ => mret ("", None)
    | Ok hash =>
      opened ← ask (ic_Open cache hash);
      match opened with
      | Fail _ => mret ("", None)
      | Ok (data, contentType) =>
        saved ← save_picture storageID data contentType;
        mret (match saved with inl _ => ("", None) | inr (name, url) => (name, Some url) end)
      end
    end
  | _, _, _ => mret ("", None)
  end.

(** The address under which a storage, or an admin, reads a cached picture. *)
Definition cached_url (prefix : string) (source : option string) : Hd (option string) :=
  match source, image_cache with
  | Some source, Some cache =>
    hash ← ask (ic_Fetch cache source);
    mret (match hash with Fail _ => None | Ok hash => Some (prefix +:+ hash) end)
  | _, _ => mret None
  end.
Definition storage_images (storageID : uuid) : string := "/api/storages/" +:+ uuid_String storageID +:+ "/images/".
Definition cardImageURL (storageID : uuid) := cached_url (storage_images storageID).
Definition catalogImageURL := cached_url "/api/catalog-images/".

(** What a catalog entry shows of itself: never the address its picture came from. *)
Definition catalogCard (c : CatalogProduct) (imageURL : option string) (variants : list string) : Json :=
  JObj [("display_name", JStr (cp_DisplayName c)); ("category_path", opt_json JStr (cp_CategoryPath c)); ("item_type", JStr (cp_ItemType c));
        ("image_url", opt_json JStr imageURL); ("icon_name", opt_json JStr (cp_IconName c));
        ("default_shelf_life_days", opt_json JNum (cp_DefaultShelfLifeDays c)); ("variants", JArr (map JStr variants))].

(** productPictures.remove: what fails is logged. *)
Definition remove_picture (name : string) : Hd unit :=
  match images_dir with
  | None => mret tt
  | Some dir => if String.eqb name "" then mret tt else on_disk name (fun os => Remove dir os name) ;; mret tt
  end.

(** A picked suggestion of a form, stored; the name is empty when none was picked. *)
Definition promote_picked (storageID : uuid) (image : option string) (message : string) : Hd (string * option string) :=
  match image with
  | None => mret ("", None)
  | Some hash =>
    promoted ← promoteSuggestion storageID hash;
    match promoted with
    | inl PictureUnavailable => refuse (ValidationFailed (field "image" message) (Some ErrOther))
    | inl (PictureFailed e) => refuse (Internal e)
    | inr (name, url, _) => mret (name, Some url)
    end
  end.

(** The store's call that refers to the picture; a refusal removes it again. *)
Definition store_with_picture {A} (name : string) (m : Tx A) (onErr : Err -> Failure) : Hd A :=
  r ← call m;
  match r with
  | Ok a => mret a
  | Fail e => remove_picture name ;; refuse (onErr e)
  end.

(** ** ReadImageUpload *)

Definition to_ascii (l : list byte) : list ascii := map ascii_of_byte l.

Definition ReadImageUpload (r : Request) (fieldName : string) : Hd (list ascii * string * Format) :=
  let bad message := ValidationFailed (field fieldName message) (Some ErrOther) in
  match form_file r fieldName with
  | FormTooLarge => refuse PayloadTooLarge
  | FormUnreadable => refuse (bad "The upload could not be read.")
  | FormMissing => refuse (bad "An image file is required.")
  | FormUnread => refuse (Internal ErrOther)
  | FormFileData raw =>
    refuse_if (len raw >? MaxUploadBytes) PayloadTooLarge ;;
    match DetectFormat raw with
    | GoErr _ => refuse (bad "Only JPEG and PNG images are supported.")
    | GoOk _ =>
      match CheckDimensions pixel_codecs raw MaxImagePixels with
      | GoErr _ => refuse (bad "The image is too large or could not be read.")
      | GoOk _ =>
        match Strip pixel_blank pixel_rgba pixel_codecs raw with
        | Some (GoOk stripped) =>
          id ← store newID Internal;
          mret (to_ascii (sr_Data stripped), uuid_String id +:+ Extension (sr_Format stripped), sr_Format stripped)
        | Some (GoErr _) => refuse (bad "The image could not be processed.")
        (* a panic, which the recoverer turns into an internal error *)
        | None => refuse (Internal ErrOther)
        end
      end
    end
  end.

(** ** Serving: productimages.go, images.go *)

(** Bytes under the headers of their kind. *)
Definition data_reply (header : gmap string string) (data : list ascii) : Reply := mkReply StatusOK header None None (Some data).

Definition picture_headers (contentType cacheControl : string) : gmap string string :=
  <["Content-Type" := contentType]> (<["X-Content-Type-Options" := "nosniff"]> (<["Cache-Control" := cacheControl]> ∅)).

(** A picture of the storage is one a product of it refers to. *)
Definition usedPicture (r : Request) : Hd (Dir * string) :=
  storageID ← storage_of r;
  let name := param r "name" in
  dir ← or_refuse images_dir (NotFound "product images unavailable");
  used ← store (ProductImageInStorage storageID (productImageURL storageID name)) Internal;
  refuse_if (negb used) (NotFound "product image not used in storage") ;;
  mret (dir, name).

Definition serveStored (dir : Dir) (name : string) : Hd Reply :=
  read ← on_disk name (fun os fs => (Read dir os name fs, fs));
  match read with
  | inl ErrDisk => refuse (Internal ErrOther)
  | inl _ => refuse (NotFound "product image missing")
  | inr data =>
    let header := picture_headers (pictureContentType name) "private, max-age=86400" in
    mret (data_reply (if HasSuffix name ".svg" then <["Content-Security-Policy" := "default-src 'none'"]> header else header) data)
  end.

Definition ServeProductImage : Handler := handle (fun r => p ← usedPicture r; serveStored p.1 p.2).

(** ImageHandler.serveHash; the recency of a hit is refreshed after the reply. *)
Definition serveHash (cache : ImageCache) (hash : string) : Hd Reply :=
  refuse_if (negb (cacheHashPattern hash)) (NotFound "malformed cache hash") ;;
  opened ← ask (ic_Open cache hash);
  match opened with
  | Fail e => refuse (FromStoreError e "cached image not found")
  | Ok (data, contentType) =>
    mret (data_reply (<["Content-Security-Policy" := "default-src 'none'; sandbox"]>
      (picture_headers (if String.eqb contentType "" then "application/octet-stream" else contentType) "private, max-age=86400")) data)
  end.

Definition Suggest : Handler := handle (fun r =>
  storageID ← storage_of r;
  let q := TrimSpace (query r "query") in
  refuse_if (String.eqb q "") (ValidationFailed (field "query" "A query is required.") None) ;;
  refuse_if (Z.of_nat (String.length q) >? maxQueryLength) (ValidationFailed (field "query" "That query is too long.") None) ;;
  suggestions ← (fun s => (inr (suggest q (fun hash => storage_images storageID +:+ hash) (sv_World s)), s)) : Hd (list Json);
  mret (writeJSON StatusOK (Some (JObj [("suggestions", JArr suggestions)])))).

Definition ServeImage (cache : ImageCache) : Handler := handle (fun r => storage_of r ;; serveHash cache (param r "hash")).
Definition ServeCatalog (cache : ImageCache) : Handler := handle (fun r => serveHash cache (param r "hash")).

End pictures.
