(* ===== verification/CatalogAdmin.v ===== *)
(** * An admin's corrections of the catalog: internal/store/expiry.go, catalog.go

    CorrectCatalogShelfLife with its cascade through every storage, and
    DeleteCatalogProduct; and what a correction reaches. *)

From Stdlib Require Import Ascii String.
From S2P Require Import Prelude Gamification Text Encoding Password Json Expiry Db Outcomes RateLimit Http Forms AuditLog Sample Tree Progress ShelfLife Containers Batches Ledger StockSteps Locations EditSteps Accounts Storages AuthApi Barcodes ExpirySpec AccountsSpec Household Server.

#[local] Open Scope string_scope.
#[local] Open Scope list_scope.
#[local] Open Scope Z_scope.

Definition set_catalog_days (days : option Z) (c : CatalogProduct) : CatalogProduct :=
  mkCatalogProduct (cp_NormalizedName c) (cp_DisplayName c) (cp_BaseID c) (cp_CategoryPath c) (cp_ItemType c) (cp_ImageURL c)
    (cp_IconName c) days (cp_CreatedAt c).

Definition setCatalogShelfLife (id : uuid) (days : option Z) : Tx unit :=
  d ← get_db;
  c ← some_or (db_catalog d !! id) ErrNotFound;
  require (days_col_ok days) ErrOther ;;
  modify (set_catalog (<[id := set_catalog_days days c]>)).

(** ORDER BY storage_id, id *)
Definition ref_le (a b : uuid * uuid) : Prop := a.1 < b.1 \/ (a.1 = b.1 /\ a.2 <= b.2).
#[export] Instance ref_le_dec : RelDecision ref_le.
Proof. intros a b. unfold ref_le. apply _. Defined.

(** The products that resolve through a catalog entry: those of it that have no
    shelf life of their own. *)
Definition resolves_through (catalogID : uuid) (p : Product) : bool :=
  bool_decide (prod_CatalogID p = Some catalogID) && is_nil (prod_DefaultShelfLifeDays p).

Definition catalog_products (d : DB) (catalogID : uuid) : list (uuid * uuid) :=
  merge_sort ref_le (omap (fun kv : uuid * Product => if resolves_through catalogID kv.2 then Some (prod_StorageID kv.2, kv.1) else None)
    (map_to_list (db_products d))).

Fixpoint recompute_refs (products : list (uuid * uuid)) : Tx Z :=
  match products with
  | [] => mret 0
  | (st, p) :: products' => n ← recomputeDerivedExpiry st p; m ← recompute_refs products'; mret (n + m)
  end.

Definition shelf_life_details (days : option Z) (recomputed : Z) : list (string * AuditValue) :=
  match days with Some n => [("shelf_life_days", AuditInt n)] | None => [] end ++ [("recomputed_batches", AuditInt recomputed)].

Definition correction (actor catalogID : uuid) (days : option Z) : Tx Z :=
  setCatalogShelfLife catalogID days ;;
  d ← get_db;
  total ← recompute_refs (catalog_products d catalogID);
  writeAdminAudit actor ActionCatalogEntryUpdated (AuditID catalogID) (shelf_life_details days total) ;;
  mret total.

Definition CorrectCatalogShelfLife (actor catalogID : uuid) (days : option Z) : Tx Z := inTx (correction actor catalogID days).

(** DELETE FROM catalog_products: products and variants lose the reference, the
    global codes of the entry go with it. *)
Definition unlink_catalog (id : uuid) (p : Product) : Product :=
  if bool_decide (prod_CatalogID p = Some id)
  then mkProduct (prod_StorageID p) (prod_Name p) (prod_CategoryID p) None (prod_ItemType p) (prod_DefaultShelfLifeDays p)
         (prod_MinStock p) (prod_ImageURL p) (prod_IconName p) (prod_CreatedAt p) (prod_UpdatedAt p)
  else p.
Definition unlink_base (id : uuid) (c : CatalogProduct) : CatalogProduct :=
  if bool_decide (cp_BaseID c = Some id)
  then mkCatalogProduct (cp_NormalizedName c) (cp_DisplayName c) None (cp_CategoryPath c) (cp_ItemType c) (cp_ImageURL c)
         (cp_IconName c) (cp_DefaultShelfLifeDays c) (cp_CreatedAt c)
  else c.

Definition delete_catalog (id : uuid) : Tx unit :=
  modify (set_products (fmap (unlink_catalog id))) ;;
  modify (set_catalog_barcodes (base.filter (fun kv : string * CatalogBarcode => cb_CatalogID kv.2 ≠ id))) ;;
  modify (set_catalog (fun m => unlink_base id <$> delete id m)).

Definition DeleteCatalogProduct (actor id : uuid) : Tx unit :=
  inTx (
    d ← get_db;
    c ← some_or (db_catalog d !! id) ErrNotFound;
    delete_catalog id ;;
    writeAdminAudit actor ActionCatalogEntryDeleted (AuditID id) (text_field "display_name" (cp_DisplayName c))).

(** ** What a correction reaches *)

(** The rows of several products re-dated, one product after the other. *)
Definition redate (d : DB) (l : list (uuid * uuid)) (m : gmap uuid Batch) : gmap uuid Batch :=
  foldl (fun m ref => match product_in_storage d ref.1 ref.2 with
    | Some prod => rederive (of_product ref.2) (Resolve (rules_of d ref.1 prod)) m
    | None => m
    end) m l.

Definition derived_count (d : DB) (l : list (uuid * uuid)) : Z := lsum (fun ref => Z.of_nat (Datatypes.length (loadDerivedBatches d ref.2))) l.

Lemma recompute_refs_ok l w n w' : recompute_refs l w = (Ok n, w') ->
  w' = with_db (set_batches (redate (wdb w) l) (wdb w)) w /\ n = derived_count (wdb w) l.
Proof.
  revert w n. induction l as [|[st p] l IH]; intros w n H; cbn [recompute_refs] in H.
  - tx_inv. split; [|done]. destruct w' as [d ? ? ?]. unfold with_db. cbn. by rewrite set_batches_id.
  - apply bind_ok in H as (k & w1 & H1 & H). apply bind_ok in H as (m & w2 & H2 & H). tx_inv1 H. subst.
    apply recomputeDerivedExpiry_rows in H1 as (prod & Hp & -> & ->). apply IH in H2 as [-> ->]. split.
    + unfold with_db. cbn [wdb wids wnow wclock]. f_equal. rewrite set_batches_compose. apply set_batches_ext.
      unfold redate. cbn [foldl fst snd]. rewrite Hp. reflexivity.
    + unfold derived_count. cbn [lsum snd]. f_equal. apply lsum_ext. intros ref. f_equal. apply loadDerivedBatches_rederive.
Qed.

Lemma recompute_refs_total l w : (forall ref, ref ∈ l -> is_Some (product_in_storage (wdb w) ref.1 ref.2)) ->
  exists n w', recompute_refs l w = (Ok n, w').
Proof.
  revert w. induction l as [|[st p] l IH]; intros w Hl; cbn [recompute_refs]; [by do 2 eexists|].
  destruct (Hl (st, p)) as [prod Hp]; [by left|]. destruct (recomputeDerivedExpiry_total st p w prod Hp) as (n & w1 & E).
  rewrite (bind_step _ _ w _ _ E). apply recomputeDerivedExpiry_rows in E as (prod' & _ & _ & ->).
  edestruct (IH (with_db (set_batches (rederive (of_product p) (Resolve (rules_of (wdb w) st prod'))) (wdb w)) w)) as (m & w2 & E2).
  - intros ref Hr. apply Hl. by right.
  - rewrite (bind_step _ _ _ _ _ E2). by do 2 eexists.
Qed.

(** One row of it. *)
Definition redated (d : DB) (l : list (uuid * uuid)) (b : Batch) : Batch :=
  match List.find (fun ref : uuid * uuid => ref.2 =? b_ProductID b) l with
  | Some ref => match product_in_storage d ref.1 ref.2 with
    | Some prod => if is_derived b then derive (Resolve (rules_of d ref.1 prod)) b else b
    | None => b
    end
  | None => b
  end.

Lemma redate_lookup d l m i : NoDup l.*2 -> redate d l m !! i = redated d l <$> m !! i.
Proof.
  revert m. induction l as [|[st p] l IH]; intros m Hn.
  - unfold redate, redated. cbn. by destruct (m !! i).
  - apply NoDup_cons in Hn as [Hp Hn]. unfold redate. cbn [foldl fst snd].
    assert (Hrest : forall b, b_ProductID b = p -> redated d l b = b).
    { intros b E. unfold redated. destruct (List.find _ l) as [ref|] eqn:F; [|done]. exfalso. apply Hp.
      apply find_some in F as [Hin F]. apply Z.eqb_eq in F. apply list_elem_of_fmap. exists ref.
      split; [cbn; congruence | by apply list_elem_of_In]. }
    destruct (product_in_storage d st p) as [prod|] eqn:E.
    + fold (redate d l (rederive (of_product p) (Resolve (rules_of d st prod)) m)). rewrite IH, rederive_lookup by done.
      destruct (m !! i) as [b|]; [|done]. cbn. f_equal. unfold redated at 2. cbn [List.find snd]. unfold of_product.
      rewrite (Z.eqb_sym (b_ProductID b) p). destruct (Z.eqb_spec p (b_ProductID b)) as [Ep|Ep].
      * cbn [fst snd]. rewrite E. apply Hrest. cbn. by destruct (is_derived b).
      * done.
    + fold (redate d l m). rewrite IH by done. destruct (m !! i) as [b|]; [|done]. cbn. f_equal. unfold redated at 2. cbn [List.find snd].
      destruct (Z.eqb_spec p (b_ProductID b)) as [Ep|Ep]; [|done]. cbn [fst snd]. rewrite E. by apply Hrest.
Qed.

Lemma elem_of_catalog_products d id st p : (st, p) ∈ catalog_products d id <->
  exists prod, db_products d !! p = Some prod /\ prod_StorageID prod = st /\ resolves_through id prod = true.
Proof.
  unfold catalog_products. rewrite merge_sort_Permutation, list_elem_of_omap. split.
  - intros ([q prod] & Hin & E). apply elem_of_map_to_list in Hin. cbn in E.
    destruct (resolves_through id prod) eqn:R; [|done]. injection E as <- <-. eauto.
  - intros (prod & Hp & <- & R). exists (p, prod). split; [by apply elem_of_map_to_list|]. cbn. by rewrite R.
Qed.

Lemma NoDup_catalog_products d id : NoDup (catalog_products d id).*2.
Proof.
  unfold catalog_products. rewrite merge_sort_Permutation.
  pose proof (NoDup_fst_map_to_list (db_products d)) as N. induction (map_to_list (db_products d)) as [|[p prod] l IH]; [apply NoDup_nil_2|].
  apply NoDup_cons in N as [Np N]. cbn. destruct (resolves_through id prod); [|by apply IH]. apply NoDup_cons. split; [|by apply IH].
  intros Hin. apply Np. apply list_elem_of_fmap in Hin as ([st q] & E & Hin). apply list_elem_of_omap in Hin as ([q' prod'] & Hin & E').
  cbn in *. destruct (resolves_through id prod'); [|done]. injection E' as _ <-. subst. apply list_elem_of_fmap. eexists; split; [|exact Hin]; done.
Qed.

Lemma redated_row d id i b : 
  db_batches d !! i = Some b ->
  redated d (catalog_products d id) b =
  match db_products d !! b_ProductID b with
  | Some prod => if resolves_through id prod && is_derived b then derive (Resolve (rules_of d (prod_StorageID prod) prod)) b else b
  | None => b
  end.
Proof.
  intros _. unfold redated. destruct (List.find _ _) as [[st p]|] eqn:F.
  - apply find_some in F as [Hin F]. apply Z.eqb_eq in F. cbn [fst snd] in *. subst p.
    apply list_elem_of_In, elem_of_catalog_products in Hin as (prod & Hp & <- & R).
    unfold product_in_storage. rewrite Hp, Z.eqb_refl, R. done.
  - destruct (db_products d !! b_ProductID b) as [prod|] eqn:Hp; [|done].
    destruct (resolves_through id prod) eqn:R; [|done]. exfalso.
    pose proof (find_none _ _ F (prod_StorageID prod, b_ProductID b)) as N. cbn [snd] in N. rewrite Z.eqb_refl in N.
    discriminate N. apply list_elem_of_In, elem_of_catalog_products. eauto.
Qed.

(** The day a rule chain gives a row. *)
Lemma derive_days rules b :
  derive (Resolve rules) b = set_expiration (option_map (fun days => b_CreatedAt b / day + days) (first_defined (chain rules))) ExpirationDerived b.
Proof.
  rewrite <- Resolve_days. unfold derive, date_col. f_equal. destruct (DateFor (timestamp (b_CreatedAt b)) (Resolve rules)) as [t|] eqn:E.
  - destruct (DateFor_civil _ _ _ E) as (k & -> & _ & Hk). cbn. by rewrite Hk.
  - unfold DateFor in E. by destruct (res_Days (Resolve rules)).
Qed.

Lemma redate_catalog d d1 id i : db_products d1 = db_products d ->
  redate d1 (catalog_products d id) (db_batches d1) !! i =
  (fun b => match db_products d1 !! b_ProductID b with
     | Some prod =>
       if resolves_through id prod && is_derived b
       then set_expiration (option_map (fun days => b_CreatedAt b / day + days)
              (first_defined (chain (rules_of d1 (prod_StorageID prod) prod)))) ExpirationDerived b
       else b
     | None => b
     end) <$> db_batches d1 !! i.
Proof.
  intros E. rewrite redate_lookup by apply NoDup_catalog_products.
  destruct (db_batches d1 !! i) as [b|] eqn:Hb; [|done]. cbn. f_equal.
  replace (catalog_products d id) with (catalog_products d1 id) by (unfold catalog_products; by rewrite E).
  rewrite (redated_row _ id i) by exact Hb.
  destruct (db_products d1 !! b_ProductID b) as [prod|]; [|done].
  destruct (resolves_through id prod && is_derived b); [apply derive_days | done].
Qed.

Lemma correction_not_found actor id days w w' :
  correction actor id days w = (Fail ErrNotFound, w') -> db_catalog (wdb w) !! id = None.
Proof.
  unfold correction. intros H. apply bind_fail in H as [H|([] & w2 & H1 & H)].
  - unfold setCatalogShelfLife in H. rewrite (bind_step _ get_db _ _ _ eq_refl) in H.
    destruct (db_catalog (wdb w) !! id) as [c|]; [|done]. rewrite (bind_step _ _ w c w) in H by done.
    destruct (days_col_ok days); [|done]. by rewrite (bind_step _ _ w tt w) in H.
  - exfalso. rewrite (bind_step _ get_db _ _ _ eq_refl) in H.
    destruct (recompute_refs_total (catalog_products (wdb w2) id) w2) as (n & w3 & E).
    { intros [st p] Hin. apply elem_of_catalog_products in Hin as (prod & Hp & <- & _). exists prod.
      unfold product_in_storage. cbn [fst snd]. by rewrite Hp, Z.eqb_refl. }
    rewrite (bind_step _ _ _ _ _ E) in H. apply bind_fail in H as [H|(? & ? & _ & H)]; [|done].
    unfold writeAdminAudit in H. apply bind_fail in H as [H|(i & w4 & H2 & H)]; [unfold newID in H; by destruct (wids w3)|].
    cbv zeta in H. rewrite (bind_step _ get_db _ _ _ eq_refl) in H. apply bind_fail in H as [H|(? & w5 & _ & H)].
    + unfold require in H. by case_match.
    + by rewrite (bind_step _ now _ _ _ eq_refl) in H.
Qed.

(** C4: A correction of a catalog entry's shelf life either changes nothing, and is not
    found exactly when there is no such entry, or is whole: the entry carries the new
    value; in every storage, each batch with a derived date whose product is of the
    entry and has no shelf life of its own carries the date its rules now imply;
    batches a person dated, other products' batches and all else are as they were;
    and the last row of the audit log says who did it, the value and the number of
    batches reached. *)
Theorem CorrectCatalogShelfLife_spec actor id days w r w' (Hrun : CorrectCatalogShelfLife actor id days w = (r, w')) :
  let d := wdb w in let d' := wdb w' in
  (r = Fail ErrNotFound <-> db_catalog d !! id = None) /\
  match r with
  | Fail _ => d' = d
  | Ok n => exists entry auditID rows,
    let d1 := set_catalog (<[id := set_catalog_days days entry]>) d in
    db_catalog d !! id = Some entry /\
    d' = set_audit (fun l => l ++ [audited_by actor ActionCatalogEntryUpdated (AuditID id) (shelf_life_details days n) auditID (wnow w)])
           (set_batches (fun _ => rows) d1) /\
    (forall i, rows !! i = (fun b => match db_products d !! b_ProductID b with
       | Some prod =>
         if bool_decide (prod_CatalogID prod = Some id) && is_nil (prod_DefaultShelfLifeDays prod) && is_derived b
         then set_expiration (option_map (fun days => b_CreatedAt b / day + days)
                (first_defined (chain (rules_of d1 (prod_StorageID prod) prod)))) ExpirationDerived b
         else b
       | None => b
       end) <$> db_batches d !! i) /\
    n = derived_count d (catalog_products d id)
  end.
Proof.
  intros d d'. unfold CorrectCatalogShelfLife, inTx in Hrun. destruct (correction actor id days w) as [[n|e] w1] eqn:H; injection Hrun as <- <-.
  - unfold correction, setCatalogShelfLife in H. apply bind_ok in H as ([] & w2 & H1 & H).
    tx_next H1 for d0 by get_db_ok as [-> ->]. tx_next H1 for entry by some_or_ok as [He ->]. tx_next H1 by require_ok as [Hdays ->].
    apply modify_ok in H1 as ->. tx_next H for d1 by get_db_ok as [-> ->]. apply bind_ok in H as (total & w3 & H2 & H).
    apply recompute_refs_ok in H2 as [-> ->]. apply bind_ok in H as ([] & w4 & H3 & H). audit_inv. tx_inv.
    split; [split; [done | unfold d; congruence]|].
    exists entry, auditID. eexists. split; [done|]. split; [reflexivity|]. split; [|done].
    intros i. exact (redate_catalog (wdb w) (set_catalog <[id := set_catalog_days days entry]> (wdb w)) id i eq_refl).
  - split; [|done]. split; [intros [= ->]; by eapply correction_not_found|].
    intros Hn. f_equal. unfold correction, setCatalogShelfLife in H. unfold d in Hn.
    rewrite (bind_abort _ _ w ErrNotFound w) in H; [by injection H as <- _|]. rewrite (bind_step _ get_db _ _ _ eq_refl). by rewrite Hn.
Qed.

(** The beans are of an entry; a crate of them was dated by its rules, a second one
    by hand. *)
Definition catalog_world : World :=
  with_db (set_catalog (fun _ => {[80 := mkCatalogProduct "beans" "Beans" None None LongShelfLife None None (Some 100) 0]})
    (set_products (<[30 := mkProduct 1 "Beans" None (Some 80) LongShelfLife None 0 None None 0 0]>)
      (set_batches (<[41 := mkBatch 30 20 1 (Some 7) ExpirationUser 0 None]>) (wdb sample_world)))) sample_world.

Lemma CorrectCatalogShelfLife_spec_witness :
  let w' := (CorrectCatalogShelfLife 10 80 (Some 9) catalog_world).2 in
  b_ExpirationDate <$> db_batches (wdb w') !! 40 = Some (Some 9) /\
  b_ExpirationDate <$> db_batches (wdb w') !! 41 = Some (Some 7) /\
  db_catalog (wdb catalog_world) !! 81 = None.
Proof.
  cbv zeta. destruct (CorrectCatalogShelfLife 10 80 (Some 9) catalog_world) as [r w'] eqn:E.
  pose proof (CorrectCatalogShelfLife_spec 10 80 (Some 9) catalog_world r w' E) as [_ S].
  assert (Er : r = Ok 1) by (change r with (r, w').1; rewrite <- E; vm_compute; reflexivity). subst r.
  destruct S as (entry & auditID & rows & Hc & Hd & Hrows & _).
  assert (entry = mkCatalogProduct "beans" "Beans" None None LongShelfLife None None (Some 100) 0) as -> by (vm_compute in Hc; injection Hc as <-; reflexivity).
  cbn [snd]. rewrite Hd. cbn [db_batches set_audit set_batches]. rewrite !Hrows. vm_compute. split_and!; reflexivity.
Defined.

(** ** The database stays well formed *)

Lemma redate_good d0 l d : good_step d (set_batches (redate d0 l) d).
Proof.
  revert d. induction l as [|ref l IH]; intros d; [by rewrite set_batches_id|]. unfold redate. cbn [foldl].
  destruct (product_in_storage d0 ref.1 ref.2) as [prod|]; [|apply IH].
  etransitivity; [apply rederive_good|]. exact (IH (set_batches (rederive (of_product ref.2) (Resolve (rules_of d0 ref.1 prod))) d)).
Qed.

Lemma well_formed_step d d' : good_step d d' -> account_tables d' = account_tables d -> well_formed d -> well_formed d'.
Proof. intros G E [C R]. split; [by eapply good_step_consistent | by eapply refs_ok_ext]. Qed.

Lemma well_formed_audit actor action target details id t d :
  (actor = SystemActor \/ actor ∈ db_users d) -> well_formed d ->
  well_formed (set_audit (fun l => l ++ [audited_by actor action target details id t]) d).
Proof. intros Ha [C R]. split; [by apply consistent_audit | by apply refs_ok_audit]. Qed.

Lemma CorrectCatalogShelfLife_well_formed actor id days w r w' :
  CorrectCatalogShelfLife actor id days w = (r, w') -> well_formed (wdb w) -> well_formed (wdb w').
Proof.
  intros H W. apply inTx_run in H as [->|(n & -> & H)]; [done|]. unfold correction, setCatalogShelfLife in H.
  apply bind_ok in H as ([] & w2 & H1 & H).
  tx_next H1 for d0 by get_db_ok as [-> ->]. tx_next H1 for entry by some_or_ok as [He ->]. tx_next H1 by require_ok as [Hdays ->].
  apply modify_ok in H1 as ->. tx_next H for d1 by get_db_ok as [-> ->]. apply bind_ok in H as (total & w3 & H2 & H).
  apply recompute_refs_ok in H2 as [-> ->]. apply bind_ok in H as ([] & w4 & H3 & H). audit_inv. tx_inv.
  apply well_formed_audit; [done|]. apply (well_formed_step (wdb w)); [|reflexivity|exact W].
  etransitivity; [|apply redate_good]. by apply good_step_inventory.
Qed.

Lemma unlink_good id d : good_step d (set_products (fmap (unlink_catalog id)) d).
Proof.
  apply good_step_shelves. split_and!; [done | done | done | | eauto].
  intros i p Hp. cbn. rewrite lookup_fmap, Hp. eexists. split; [reflexivity|]. unfold unlink_catalog. by case_bool_decide.
Qed.

Lemma DeleteCatalogProduct_well_formed actor id w r w' :
  DeleteCatalogProduct actor id w = (r, w') -> well_formed (wdb w) -> well_formed (wdb w').
Proof.
  intros H W. apply inTx_run in H as [->|(n & -> & H)]; [done|]. unfold delete_catalog in H.
  tx_next H for d0 by get_db_ok as [-> ->]. tx_next H for entry by some_or_ok as [He ->].
  apply bind_ok in H as ([] & w2 & H1 & H). tx_inv. audit_inv.
  apply well_formed_audit; [done|]. apply (well_formed_step (wdb w)); [|reflexivity|exact W].
  etransitivity; [apply (unlink_good id)|]. by apply good_step_inventory.
Qed.

(** * The admin area's JSON routes: internal/httpapi/admin.go, admin_input.go

    Users, storages, members and the moderation of the catalog.  The routes that
    show or change the vision model ask the vision client and are left out. *)

#[local] Open Scope string_scope.
#[local] Open Scope list_scope.
#[local] Open Scope Z_scope.

Definition maxUsername : Z := 64.
Definition maxStorageName : Z := 255.
Definition minPassword : Z := 8.

(** store.ListStorages with its rows: ORDER BY created_at, id. *)
Definition StorageRows : Tx (list (uuid * Storage)) :=
  d ← get_db; mret (merge_sort (created_before sto_CreatedAt) (order_by_id (db_storage_rows d))).

Record createUserInput := mkUserInput { cu_Username : string; cu_Password : string; cu_DisplayName : string; cu_IsAdmin : bool }.

Section api.
Context `{Deployment}.

Definition adminActor (r : Request) : Hd uuid := u ← or_refuse (ctx_User r) (NotFound ReasonAdminAreaHidden); mret u.1.

(** No is_admin, no hash. *)
Definition adminUser (u : uuid * User) : Json :=
  JObj [("id", uuid_json u.1); ("username", JStr (usr_Username u.2)); ("display_name", JStr (usr_DisplayName u.2))].
Definition adminStorage (s : uuid * Storage) : Json :=
  JObj [("id", uuid_json s.1); ("name", JStr (sto_Name s.2)); ("created_at", JTime (sto_CreatedAt s.2))].
Definition adminMember (m : uuid * (string * string * Z)) : Json :=
  JObj [("user_id", uuid_json m.1); ("username", JStr m.2.1.1); ("display_name", JStr m.2.1.2); ("added_at", JTime m.2.2)].

Definition ListUsersHandler : Handler := handle (fun r =>
  users ← store ListUsers Internal;
  mret (writeJSON StatusOK (Some (collection (map adminUser users) None)))).

Definition user_form (body : createUserInput) : Form (string * string) :=
  let username := TrimSpace (cu_Username body) in
  (if String.eqb username "" then complain "username" "A username is required."
   else complain_if (RuneCountInString username >? maxUsername) "username" "Must be at most 64 characters.") ;;
  complain_if (RuneCountInString (cu_Password body) <? minPassword) "password" "Must be at least 8 characters." ;;
  let displayName := TrimSpace (cu_DisplayName body) in
  let displayName := if String.eqb displayName "" then username else displayName in
  complain_if (RuneCountInString displayName >? maxDisplayName) "display_name" "Must be at most 255 characters." ;;
  mret (username, displayName).

Definition username_taken (e : Err) : Failure :=
  if decide (e = ErrDuplicate)
  then mkFailure StatusConflict CodeConflict "That username is already taken." ∅ (error_text e) None 0
  else Internal e.

Definition CreateUserHandler : Handler := handle (fun r =>
  actor ← adminActor r;
  body ← decodeJSON (fun l =>
    username ← str_field "username" l; password ← str_field "password" l; displayName ← str_field "display_name" l;
    isAdmin ← bool_field "is_admin" l; Some (mkUserInput username password displayName isAdmin)) r;
  names ← filled (user_form body);
  hash ← hash_password (cu_Password body);
  user ← store (AdminCreateUser actor (mkNewUser names.1 hash names.2 (cu_IsAdmin body))) username_taken;
  mret (writeJSON StatusCreated (Some (adminUser user)))).

Definition DeleteUserHandler : Handler := handle (fun r =>
  actor ← adminActor r;
  id ← idFromPath r "id" "malformed user id";
  refuse_if (actor =? id) (Conflict "You cannot delete your own account." None) ;;
  store (DeleteUser actor id) (fun e => FromStoreError e "user not found") ;;
  mret (writeJSON StatusNoContent None)).

Definition ResetPassword : Handler := handle (fun r =>
  actor ← adminActor r;
  id ← idFromPath r "id" "malformed user id";
  new ← decodeJSON (str_field "new_password") r;
  refuse_fields (validateNewPassword new) ;;
  hash ← hash_password new;
  store (AdminResetPassword actor id hash) (fun e => FromStoreError e "user not found") ;;
  mret (writeJSON StatusNoContent None)).

Definition ListStoragesHandler : Handler := handle (fun r =>
  storages ← store StorageRows Internal;
  mret (writeJSON StatusOK (Some (collection (map adminStorage storages) None)))).

Definition CreateStorageHandler : Handler := handle (fun r =>
  actor ← adminActor r;
  raw ← decodeJSON (str_field "name") r;
  name ← filled (
    let name := TrimSpace raw in
    (if String.eqb name "" then complain "name" "A name is required."
     else complain_if (RuneCountInString name >? maxStorageName) "name" "Must be at most 255 characters.") ;;
    mret name);
  storage ← store (CreateStorage actor name) Internal;
  mret (writeJSON StatusCreated (Some (adminStorage storage)))).

Definition DeleteStorageHandler : Handler := handle (fun r =>
  actor ← adminActor r;
  id ← idFromPath r "id" "malformed storage id";
  store (DeleteStorage actor id) (fun e => FromStoreError e "storage not found") ;;
  mret (writeJSON StatusNoContent None)).

Definition ListMembersHandler : Handler := handle (fun r =>
  id ← idFromPath r "id" "malformed storage id";
  members ← store (ListMembers id) (fun e => FromStoreError e "storage not found");
  mret (writeJSON StatusOK (Some (collection (map adminMember members) None)))).

Definition AddMemberHandler : Handler := handle (fun r =>
  actor ← adminActor r;
  storageID ← idFromPath r "id" "malformed storage id";
  raw ← decodeJSON (str_field "user_id") r;
  userID ← or_refuse (uuid_Parse raw) (ValidationFailed (field "user_id" "Must be a UUID.") (Some ErrOther));
  store (AddMember actor storageID userID) (fun e => FromStoreError e "storage or user not found") ;;
  mret (writeJSON StatusNoContent None)).

Definition RemoveMemberHandler : Handler := handle (fun r =>
  actor ← adminActor r;
  storageID ← idFromPath r "id" "malformed storage id";
  userID ← idFromPath r "user_id" "malformed user id";
  store (RemoveMember actor storageID userID) (fun e => FromStoreError e "membership not found") ;;
  mret (writeJSON StatusNoContent None)).

Definition PatchCatalog : Handler := handle (fun r =>
  actor ← adminActor r;
  id ← idFromPath r "id" "malformed catalog id";
  body ← decodeJSON (raw_field "default_shelf_life_days") r;
  raw ← or_refuse body (ValidationFailed (field "default_shelf_life_days" "Provide a number of days, or null to clear the override.") None);
  days ← or_failure (parseShelfLifeDays raw);
  affected ← store (CorrectCatalogShelfLife actor id days) (fun e => FromStoreError e "catalog entry not found");
  mret (writeJSON StatusOK (Some (JObj [("default_shelf_life_days", opt_json JNum days); ("recomputed_batches", JNum affected)])))).

Definition DeleteCatalog : Handler := handle (fun r =>
  actor ← adminActor r;
  id ← idFromPath r "id" "malformed catalog id";
  store (DeleteCatalogProduct actor id) (fun e => FromStoreError e "catalog entry not found") ;;
  mret (writeJSON StatusNoContent None)).

Definition DeleteCatalogBarcodeHandler : Handler := handle (fun r =>
  actor ← adminActor r;
  store (DeleteCatalogBarcode actor (param r "barcode")) (fun e => FromStoreError e "catalog barcode not found") ;;
  mret (writeJSON StatusNoContent None)).

End api.
