(* ===== verification/Delta.v ===== *)
(** * Delta sync: internal/store/delta.go, with a client

    A client that caches the products, categories or locations of a storage asks
    for what changed since its cursor.  [deltaWatermark], [DeltaIsResumable],
    [changedSince], [deletedSince] and [loadDelta] are the store's functions; the
    step relation [sync_step] interleaves the three reads of one client's requests
    with transactions that begin, run and commit, each stamping its rows with the
    time it began. *)

From S2P Require Import Prelude Gamification Db Matching Tree Ingestion Locations Household.

#[local] Open Scope string_scope.
#[local] Open Scope list_scope.
#[local] Open Scope Z_scope.

(** ** What a delta carries *)

Inductive EntityType := EntityProduct | EntityCategory | EntityLocation.

#[export] Instance EntityType_eq_dec : EqDecision EntityType.
Proof. solve_decision. Defined.

Definition entity_name (k : EntityType) : string :=
  match k with
  | EntityProduct => TombstoneProduct
  | EntityCategory => TombstoneCategory
  | EntityLocation => TombstoneLocation
  end.

(** One row of a delta, the T of Delta[T]. *)
Inductive Entity :=
| EProduct (p : Product)
| ECategory (c : Category)
| ELocation (l : Location).

(** The columns LocationsChangedSince selects: all but the time of the last audit. *)
Definition location_columns (l : Location) : Location :=
  mkLocation (loc_StorageID l) (loc_ParentID l) (loc_Name l) (loc_Description l) None (loc_CreatedAt l) (loc_UpdatedAt l).

(** The rows of each kind, as its query selects them. *)
Definition rows (k : EntityType) (d : DB) : gmap uuid Entity :=
  match k with
  | EntityProduct => EProduct <$> db_products d
  | EntityCategory => ECategory <$> db_categories d
  | EntityLocation => (fun l => ELocation (location_columns l)) <$> db_locations d
  end.

Definition ent_StorageID (e : Entity) : uuid :=
  match e with
  | EProduct p => prod_StorageID p
  | ECategory c => cat_StorageID c
  | ELocation l => loc_StorageID l
  end.

Definition ent_UpdatedAt (e : Entity) : Z :=
  match e with
  | EProduct p => prod_UpdatedAt p
  | ECategory c => cat_UpdatedAt c
  | ELocation l => loc_UpdatedAt l
  end.

Record Delta := mkDelta {
  dl_Changed : gmap uuid Entity;
  dl_Deleted : list uuid;
  dl_SyncedAt : Z;
}.

(** ** The store's functions *)

Definition DeltaIsResumable (since nowT : Z) : bool := negb (since <? nowT - TombstoneRetention).

(** least(now(), coalesce((SELECT min(xact_start) ...), now())), over the starts of
    the transactions still in flight. *)
Definition deltaWatermark (nowT : Z) (inflight : list Z) : Z := foldr Z.min nowT inflight.

(** The ORDER BY of the three queries is not represented: a client keys the rows by id. *)
Definition changedSince (k : EntityType) (storageID at_ : Z) (d : DB) : gmap uuid Entity :=
  base.filter (fun kv : uuid * Entity => ent_StorageID kv.2 = storageID /\ at_ <= ent_UpdatedAt kv.2) (rows k d).

(** ORDER BY deleted_at, id *)
Definition earlier (a b : Tombstone) : Prop :=
  ts_DeletedAt a < ts_DeletedAt b \/ (ts_DeletedAt a = ts_DeletedAt b /\ ts_ID a <= ts_ID b).

#[export] Instance earlier_dec : RelDecision earlier.
Proof. intros a b. unfold earlier. apply _. Defined.

Definition deletedSince (k : EntityType) (storageID since : Z) (d : DB) : list uuid :=
  map ts_EntityID (merge_sort earlier (base.filter (fun t =>
    ts_StorageID t = storageID /\ ts_EntityType t = entity_name k /\ since <= ts_DeletedAt t) (db_tombstones d))).

Definition loadDelta (inflight : list Z) (storageID : uuid) (k : EntityType) (since : Z) : Tx Delta :=
  t ← now;
  let syncedAt := deltaWatermark t inflight in
  require (DeltaIsResumable since syncedAt) ErrResyncRequired ;;
  d ← get_db;
  let changed := changedSince k storageID since d in
  d ← get_db;
  mret (mkDelta changed (deletedSince k storageID since d) syncedAt).

Definition ProductsChangedSince inflight storageID since := loadDelta inflight storageID EntityProduct since.
Definition CategoriesChangedSince inflight storageID since := loadDelta inflight storageID EntityCategory since.
Definition LocationsChangedSince inflight storageID since := loadDelta inflight storageID EntityLocation since.

(** ** A client *)

(** What the storage holds: the rows of a full list. *)
Definition served (k : EntityType) (storageID : uuid) (d : DB) : gmap uuid Entity :=
  base.filter (fun kv : uuid * Entity => ent_StorageID kv.2 = storageID) (rows k d).

(** A client overwrites what it is given and drops what is gone. *)
Definition apply_delta (dl : Delta) (cache : gmap uuid Entity) : gmap uuid Entity :=
  foldr delete (dl_Changed dl ∪ cache) (dl_Deleted dl).

(** Where a client's request is: between requests, with its cursor; about to list
    everything, with the sync point it will keep; in loadDelta after the watermark;
    in loadDelta after the changed rows. *)
Inductive Request :=
| Idle (cursor : Z)
| Fetching (syncedAt : Z)
| Asked (since syncedAt : Z)
| Listed (since syncedAt : Z) (changed : gmap uuid Entity).

(** The server and one client.  [sy_inflight] holds the start of each transaction
    in flight; two fields only observe: the latest time a sweep was given, and
    whether a delta was completed after a sweep had passed its sync point. *)
Record Sync := mkSync {
  sy_world : World;
  sy_inflight : gmap uuid Z;
  sy_cache : gmap uuid Entity;
  sy_request : Request;
  sy_swept : Z;
  sy_outrun : bool;
}.

Definition starts (s : Sync) : list Z := (map_to_list (sy_inflight s)).*2.
Definition watermark (s : Sync) : Z := deltaWatermark (wnow (sy_world s)) (starts s).

(** The world a transaction sees: its now() is the time it began. *)
Definition begun_at (t : Z) (w : World) : World := mkWorld (wdb w) (wids w) t (wclock w).

Definition swept_by (o : Op) (z : Z) : Z := match o with OpSweepTombstones t => Z.max z t | _ => z end.

(** A tree deletion whose cascade goes no deeper than the walk that collects the
    tombstones. *)
Definition tombstones_reach (o : Op) (d : DB) : Prop :=
  match o with
  | OpDeleteLocation _ id => below (tree_nodes treeLocations d) id ⊆ list_to_set (subtree (tree_nodes treeLocations d) id)
  | OpDeleteCategory _ id => below (tree_nodes treeCategories d) id ⊆ list_to_set (subtree (tree_nodes treeCategories d) id)
  | OpWait _ => False
  | _ => True
  end.

Inductive sync_step (k : EntityType) (st : uuid) : Sync -> Sync -> Prop :=
| st_tick d w i c q z o :
    0 <= d ->
    sync_step k st (mkSync w i c q z o) (mkSync (mkWorld (wdb w) (wids w) (wnow w + d) (wclock w + d)) i c q z o)
| st_begin x w i c q z o :
    i !! x = None ->
    sync_step k st (mkSync w i c q z o) (mkSync w (<[x := wnow w]> i) c q z o)
| st_commit x t op r w' w i c q z o :
    i !! x = Some t -> tombstones_reach op (wdb w) ->
    exec op (begun_at t w) = (r, w') ->
    sync_step k st (mkSync w i c q z o) (mkSync (begun_at (wnow w) w') (delete x i) c q (swept_by op z) o)
| st_ask since w i c z o :
    let s := mkSync w i c (Idle since) z o in
    DeltaIsResumable since (watermark s) = true ->
    sync_step k st s (mkSync w i c (Asked since (watermark s)) z o)
| st_refused since w i c z o :
    let s := mkSync w i c (Idle since) z o in
    DeltaIsResumable since (watermark s) = false ->
    sync_step k st s (mkSync w i ∅ (Fetching (watermark s)) z o)
| st_fetch wm w i c z o :
    sync_step k st (mkSync w i c (Fetching wm) z o) (mkSync w i (served k st (wdb w)) (Idle wm) z o)
| st_list since wm w i c z o :
    sync_step k st (mkSync w i c (Asked since wm) z o)
      (mkSync w i c (Listed since wm (changedSince k st since (wdb w))) z o)
| st_receive since wm ch w i c z o :
    sync_step k st (mkSync w i c (Listed since wm ch) z o)
      (mkSync w i (apply_delta (mkDelta ch (deletedSince k st since (wdb w)) wm) c) (Idle wm) z (o || (wm <? z))).

(** Identifiers: the supply hands out none twice and none that a row or a tombstone
    has, and a tombstone's entity is gone. *)
Definition fresh_ids (w : World) : Prop :=
  NoDup (wids w) /\
  (forall id, id ∈ wids w -> (forall k, rows k (wdb w) !! id = None) /\ id ∉ map ts_EntityID (db_tombstones (wdb w))).

Definition buried (d : DB) : Prop :=
  forall t k, t ∈ db_tombstones d -> ts_EntityType t = entity_name k -> rows k d !! ts_EntityID t = None.

(** The parent a row names, and what the two trees promise: a parent is a row of the
    same storage. *)
Definition ent_ParentID (e : Entity) : option uuid :=
  match e with
  | EProduct _ => None
  | ECategory c => cat_ParentID c
  | ELocation l => loc_ParentID l
  end.

Definition parent_row (k : EntityType) (d : DB) (e : Entity) (p : uuid) : Prop :=
  exists e', rows k d !! p = Some e' /\ ent_StorageID e' = ent_StorageID e.

Definition rooted (d : DB) : Prop :=
  forall k id e p, rows k d !! id = Some e -> ent_ParentID e = Some p -> parent_row k d e p.

(** A client starts by listing everything, with a sync point read before. *)
Definition sync_start (s : Sync) : Prop :=
  fresh_ids (sy_world s) /\ buried (wdb (sy_world s)) /\ rooted (wdb (sy_world s)) /\
  sy_outrun s = false /\ sy_request s = Fetching (watermark s).
