(* ===== verification/TreeApi.v ===== *)
(** * The two trees over HTTP: internal/httpapi/locations.go, categories.go, delta.go

    Listing a tree nested or as a delta, creating, patching and deleting its nodes;
    and the two queries that read a whole tree. *)

From Stdlib Require Import Ascii String.
From S2P Require Import Prelude Text Encoding Gamification Expiry Db Tree Progress Containers Batches Locations Accounts Outcomes Household Delta Json RateLimit Http Forms.

#[local] Open Scope string_scope.
#[local] Open Scope list_scope.
#[local] Open Scope Z_scope.

(** ** store.LocationTree and CategoryTree *)

(** WHERE storage_id = $1 ORDER BY created_at, id *)
Definition tree_rows {V} (storage : V -> uuid) (created : V -> Z) (storageID : uuid) (table : gmap uuid V) : list (uuid * V) :=
  merge_sort (created_before created) (map_to_list (base.filter (fun kv : uuid * V => storage kv.2 = storageID) table)).

Definition LocationTree (storageID : uuid) : Tx (list (uuid * Location)) :=
  d ← get_db; mret (tree_rows loc_StorageID loc_CreatedAt storageID (db_locations d)).
Definition CategoryTree (storageID : uuid) : Tx (list (uuid * Category)) :=
  d ← get_db; mret (tree_rows cat_StorageID cat_CreatedAt storageID (db_categories d)).

(** ** Nesting *)

(** The rows shown at the top: without a parent, or with one that is not among the
    rows. *)
Definition is_root {V} (parent : V -> option uuid) (rows : list (uuid * V)) (row : uuid * V) : bool :=
  match parent row.2 with None => true | Some p => negb (bool_decide (p ∈ rows.*1)) end.

Definition children {V} (parent : V -> option uuid) (rows : list (uuid * V)) (id : uuid) : list (uuid * V) :=
  base.filter (fun row => parent row.2 = Some id) rows.

Inductive Node (V : Type) := mkNode (row : uuid * V) (below : list (Node V)).
Arguments mkNode {V} row below.

(** A node with what hangs below it: [fuel] levels, of which there are no more than
    rows. *)
Fixpoint subtree_of {V} (parent : V -> option uuid) (rows : list (uuid * V)) (fuel : nat) (row : uuid * V) : Node V :=
  mkNode row match fuel with
    | O => []
    | S fuel => map (subtree_of parent rows fuel) (children parent rows row.1)
    end.

Definition nest {V} (parent : V -> option uuid) (rows : list (uuid * V)) : list (Node V) :=
  map (subtree_of parent rows (Datatypes.length rows)) (List.filter (is_root parent rows) rows).

Section api.
Context `{Deployment}.
(** When the transactions in flight in the database began. *)
Context (inflight : list Z).

Fixpoint node_json {V} (fields : uuid * V -> list (string * Json)) (n : Node V) : Json :=
  match n with
  | mkNode row below => JObj (fields row ++ [("children", JArr (map (node_json fields) below))])
  end.

Definition deltaCollection (items : list Json) (delta : Delta) : Json :=
  JObj [("items", JArr items); ("deleted", JArr (map uuid_json (dl_Deleted delta))); ("synced_at", JTime (dl_SyncedAt delta));
        ("next_cursor", JNull)].

(** ** Locations: locations.go *)

(** description is left out when there is none *)
Definition location_fields (row : uuid * Location) : list (string * Json) :=
  let l := row.2 in
  [("id", uuid_json row.1); ("name", JStr (loc_Name l))]
  ++ match loc_Description l with Some t => [("description", JStr t)] | None => [] end
  ++ [("last_audited_at", opt_json JTime (loc_LastAuditedAt l))].

Definition newLocationNode (row : uuid * Location) : Json := node_json location_fields (mkNode row []).
Definition nestLocations (rows : list (uuid * Location)) : list Json := map (node_json location_fields) (nest loc_ParentID rows).

Definition locationDelta (row : uuid * Location) : Json :=
  JObj [("id", uuid_json row.1); ("name", JStr (loc_Name row.2)); ("parent_id", opt_json uuid_json (loc_ParentID row.2));
        ("description", opt_json JStr (loc_Description row.2))].

(** The rows of a delta go by id here: the ORDER BY of its query is not represented. *)
Definition changed_locations (delta : Delta) : list (uuid * Location) :=
  omap (fun kv : uuid * Entity => match kv.2 with ELocation l => Some (kv.1, l) | _ => None end) (map_to_list (dl_Changed delta)).
Definition changed_categories (delta : Delta) : list (uuid * Category) :=
  omap (fun kv : uuid * Entity => match kv.2 with ECategory c => Some (kv.1, c) | _ => None end) (map_to_list (dl_Changed delta)).

Definition ListLocations : Handler := handle (fun r =>
  storageID ← storage_of r;
  since ← readDeltaSince r;
  match since with
  | Some since =>
    delta ← store (LocationsChangedSince inflight storageID since) (fun e => FromStoreError e "list location delta");
    mret (writeJSON StatusOK (Some (deltaCollection (map locationDelta (changed_locations delta)) delta)))
  | None =>
    rows ← store (LocationTree storageID) Internal;
    mret (writeJSON StatusOK (Some (collection (nestLocations rows) None)))
  end).

Definition CreateLocationHandler : Handler := handle (fun r =>
  storageID ← storage_of r;
  user ← user_of r;
  body ← decodeJSON (fun l =>
    name ← str_field "name" l; description ← str_ptr "description" l; parentID ← str_ptr "parent_id" l;
    Some (name, description, parentID)) r;
  let '(name, description, parentID) := body in
  inp ← filled (
    name ← validateTreeNodeName name;
    parentID ← form_uuid_ptr "parent_id" parentID;
    mret (mkNewLocation parentID name description));
  created ← store (CreateLocationAsUser storageID inp user.1) (fun e => FromStoreError e "location parent not in this storage or nonexistent");
  mret (writeJSON StatusCreated (Some (newLocationNode created)))).

(** A member that is absent changes nothing; null sets none. *)
Definition location_form (name : option string) (description parentID : option Json) : Form LocationPatch :=
  name ← (match name with None => mret None | Some name => name ← validateTreeNodeName name; mret (Some name) end);
  description' ← (match description with
    | None => mret None
    | Some raw =>
      match nullable_string raw with
      | None => complain "description" "Must be a string or null." ;; mret None
      | Some description => mret description
      end
    end);
  parentID' ← (match parentID with None => mret None | Some raw => form_uuid_or_null "parent_id" raw end);
  mret (mkLocationPatch name description' (negb (is_nil description)) parentID' (negb (is_nil parentID))).

Definition UpdateLocationHandler : Handler := handle (fun r =>
  storageID ← storage_of r;
  id ← idFromPath r "id" "malformed location id";
  body ← decodeJSON (fun l =>
    name ← str_ptr "name" l; description ← raw_field "description" l; parentID ← raw_field "parent_id" l;
    Some (name, description, parentID)) r;
  let '(name, description, parentID) := body in
  patch ← filled (location_form name description parentID);
  updated ← store (UpdateLocation storageID id patch) (fun e => conflictAs e
    "location or parent not in this storage or nonexistent"
    "A location cannot be moved inside itself or one of its own children.");
  mret (writeJSON StatusOK (Some (newLocationNode (id, updated))))).

Definition DeleteLocationHandler : Handler := handle (fun r =>
  storageID ← storage_of r;
  id ← idFromPath r "id" "malformed location id";
  store (DeleteLocation storageID id) (fun e => conflictAs e
    "location not in this storage or nonexistent"
    "This location still holds inventory. Move or clear it first.") ;;
  mret (writeJSON StatusNoContent None)).

(** ** Categories: categories.go *)

Definition category_fields (row : uuid * Category) : list (string * Json) :=
  [("id", uuid_json row.1); ("name", JStr (cat_Name row.2)); ("default_shelf_life_days", opt_json JNum (cat_DefaultShelfLifeDays row.2))].

Definition newCategoryNode (row : uuid * Category) : Json := node_json category_fields (mkNode row []).
Definition nestCategories (rows : list (uuid * Category)) : list Json := map (node_json category_fields) (nest cat_ParentID rows).

Definition categoryDelta (row : uuid * Category) : Json :=
  JObj [("id", uuid_json row.1); ("name", JStr (cat_Name row.2)); ("parent_id", opt_json uuid_json (cat_ParentID row.2));
        ("default_shelf_life_days", opt_json JNum (cat_DefaultShelfLifeDays row.2))].

Definition ListCategories : Handler := handle (fun r =>
  storageID ← storage_of r;
  since ← readDeltaSince r;
  match since with
  | Some since =>
    delta ← store (CategoriesChangedSince inflight storageID since) (fun e => FromStoreError e "list category delta");
    mret (writeJSON StatusOK (Some (deltaCollection (map categoryDelta (changed_categories delta)) delta)))
  | None =>
    rows ← store (CategoryTree storageID) Internal;
    mret (writeJSON StatusOK (Some (collection (nestCategories rows) None)))
  end).

Definition new_category_form (name : string) (parentID : option string) (days : option Json) : Form NewCategory :=
  name ← validateTreeNodeName name;
  parentID ← form_uuid_ptr "parent_id" parentID;
  days ← (match days with
    | None => mret None
    | Some raw =>
      match parseShelfLifeDays raw with
      | inl failure => merge_fields (f_Fields failure) ;; mret None
      | inr days => mret days
      end
    end);
  mret (mkNewCategory parentID name days).

Definition CreateCategoryHandler : Handler := handle (fun r =>
  storageID ← storage_of r;
  user ← user_of r;
  body ← decodeJSON (fun l =>
    name ← str_field "name" l; parentID ← str_ptr "parent_id" l; days ← raw_field "default_shelf_life_days" l;
    Some (name, parentID, days)) r;
  let '(name, parentID, days) := body in
  inp ← filled (new_category_form name parentID days);
  created ← store (CreateCategoryAsUser storageID inp user.1) (fun e => FromStoreError e "category parent not in this storage or nonexistent");
  mret (writeJSON StatusCreated (Some (newCategoryNode created)))).

Definition category_form (name : option string) (parentID days : option Json) : Form CategoryPatch :=
  name ← (match name with None => mret None | Some name => name ← validateTreeNodeName name; mret (Some name) end);
  parentID' ← (match parentID with None => mret None | Some raw => form_uuid_or_null "parent_id" raw end);
  complain_if (negb (is_nil days)) "default_shelf_life_days"
    "Change the shelf life through PATCH .../categories/{id}/shelf-life, which also updates existing dates." ;;
  mret (mkCategoryPatch name parentID' (negb (is_nil parentID))).

Definition UpdateCategoryHandler : Handler := handle (fun r =>
  storageID ← storage_of r;
  id ← idFromPath r "id" "malformed category id";
  body ← decodeJSON (fun l =>
    name ← str_ptr "name" l; parentID ← raw_field "parent_id" l; days ← raw_field "default_shelf_life_days" l;
    Some (name, parentID, days)) r;
  let '(name, parentID, days) := body in
  patch ← filled (category_form name parentID days);
  updated ← store (UpdateCategory storageID id patch) (fun e => conflictAs e
    "category or parent not in this storage or nonexistent"
    "A category cannot be moved inside itself or one of its own subcategories.");
  mret (writeJSON StatusOK (Some (newCategoryNode (id, updated))))).

Definition DeleteCategoryHandler : Handler := handle (fun r =>
  storageID ← storage_of r;
  id ← idFromPath r "id" "malformed category id";
  store (DeleteCategory storageID id) (fun e => conflictAs e
    "category not in this storage or nonexistent"
    "Products are still filed under this category or one beneath it. Move them to another category first.") ;;
  mret (writeJSON StatusNoContent None)).

End api.
