(* ===== verification/ProductsApi.v ===== *)
(** * Products over HTTP: internal/httpapi/products.go

    The list in its three forms, the detail of a product, creating, re-filing, giving a
    picture, patching, merging and deleting. *)

From Stdlib Require Import Ascii String.
From S2P Require Import Prelude Text Encoding Uploads Gamification Images Expiry Db Tree Progress ShelfLife Containers Batches Consumption Barcodes Locations Products Matching Listings Json Delta RateLimit Net Http Forms StockApi TreeApi Pictures.

#[local] Open Scope string_scope.
#[local] Open Scope list_scope.
#[local] Open Scope Z_scope.

Definition maxProductNameLength : Z := 255.
Definition maxIconNameLength : Z := 100.
Definition productLogLimit : Z := 50.

(** What a write reports of itself. *)
Record productCounts := mkCounts { pc_Moved : option Z; pc_Recomputed : option Z }.
Definition no_counts : productCounts := mkCounts None None.

Section api.
Context `{Deployment} `{Gallery} `{Trigrams}.
(** When the transactions in flight in the database began. *)
Context (inflight : list Z).

(** ** Listing *)

Definition productResponse (id : uuid) (name : string) : Json := JObj [("id", uuid_json id); ("name", JStr name)].

Definition productSummaryResponse (p : ProductSummary) : Json :=
  JObj [("id", uuid_json (ps_ID p)); ("name", JStr (ps_Name p)); ("category_name", opt_json JStr (ps_CategoryName p));
        ("image_url", opt_json JStr (ps_ImageURL p)); ("icon_name", opt_json JStr (ps_IconName p)); ("current_stock", JNum (ps_CurrentStock p))].

Definition changed_products (delta : Delta) : list (uuid * Product) :=
  omap (fun kv : uuid * Entity => match kv.2 with EProduct p => Some (kv.1, p) | _ => None end) (map_to_list (dl_Changed delta)).

Definition listDelta (storageID since : Z) : Hd Reply :=
  delta ← store (ProductsChangedSince inflight storageID since) (fun e => FromStoreError e "list product delta");
  mret (writeJSON StatusOK (Some (deltaCollection (map (fun kv => productResponse kv.1 (prod_Name kv.2)) (changed_products delta)) delta))).

Definition listSearch (storageID : uuid) (q : string) : Hd Reply :=
  rows ← store (SearchProducts storageID (TrimSpace q)) (fun e => FromStoreError e "search products");
  mret (writeJSON StatusOK (Some (collection (map productSummaryResponse rows) None))).

Definition ListProductsHandler : Handler := handle (fun r =>
  storageID ← storage_of r;
  since ← readDeltaSince r;
  match since, rq_Query r !! "q" with
  | Some since, _ => listDelta storageID since
  | None, Some q => listSearch storageID q
  | None, None =>
    products ← store (ListProducts storageID) (fun e => FromStoreError e "list products");
    mret (writeJSON StatusOK (Some (collection (map (fun kv => productResponse kv.1 (prod_Name kv.2)) products) None)))
  end).

(** ** The detail *)

Definition productLogEntry (l : ProductLog) : Json :=
  JObj [("id", uuid_json (pl_ID l)); ("batch_id", opt_json uuid_json (pl_BatchID l)); ("change_qty", JNum (pl_ChangeQty l));
        ("reason", JStr (pl_Reason l)); ("created_by", opt_json JStr (pl_CreatedBy l)); ("timestamp", JTime (pl_Timestamp l))].

Definition omitempty (name : string) (n : option Z) : list (string * Json) := match n with Some n => [(name, JNum n)] | None => [] end.

Definition productDetail (id : uuid) (p : Product) (stock : Z) (batches : list BatchView) (logs : list ProductLog) (counts : productCounts) : Json :=
  JObj ([("id", uuid_json id); ("name", JStr (prod_Name p)); ("category_id", opt_json uuid_json (prod_CategoryID p));
         ("item_type", JStr (prod_ItemType p)); ("default_shelf_life_days", opt_json JNum (prod_DefaultShelfLifeDays p));
         ("min_stock", JNum (prod_MinStock p)); ("image_url", opt_json JStr (prod_ImageURL p)); ("icon_name", opt_json JStr (prod_IconName p));
         ("current_stock", JNum stock); ("batches", JArr (map newBatchResponse batches)); ("logs", JArr (map productLogEntry logs));
         ("updated_at", JTime (prod_UpdatedAt p))]
    ++ omitempty "moved_batches" (pc_Moved counts) ++ omitempty "recomputed_batches" (pc_Recomputed counts)).

Definition not_here (e : Err) : Failure := FromStoreError e "product not found in storage".

Definition detail (storageID productID : uuid) (counts : productCounts) : Hd Json :=
  product ← store (GetProduct storageID productID) not_here;
  stock ← store (CurrentStock storageID productID) Internal;
  batches ← store (ListProductBatches storageID productID) not_here;
  logs ← store (ListProductLogs storageID productID productLogLimit) not_here;
  mret (productDetail productID product stock batches logs counts).

Definition productIDFromPath (r : Request) : Hd uuid := idFromPath r "product_id" "malformed product id".

Definition GetProductHandler : Handler := handle (fun r =>
  storageID ← storage_of r;
  productID ← productIDFromPath r;
  detail ← detail storageID productID no_counts;
  mret (writeJSON StatusOK (Some detail))).

Definition BatchesHandler : Handler := handle (fun r =>
  storageID ← storage_of r;
  productID ← productIDFromPath r;
  batches ← store (ListProductBatches storageID productID) not_here;
  mret (writeJSON StatusOK (Some (collection (map newBatchResponse batches) None)))).

(** ** The fields of a form *)

Definition name_field (raw : string) : Form string :=
  let name := TrimSpace raw in
  (if String.eqb name "" then complain "name" "Give the product a name."
   else complain_if (RuneCountInString name >? maxProductNameLength) "name" "Keep the name under 255 characters.") ;;
  mret name.

Definition is_item_type (t : string) : bool := bool_decide (t ∈ [Perishable; LongShelfLife; NonPerishable]).
Definition bad_item_type : string :=
  "Must be " +:+ Quote "perishable" +:+ ", " +:+ Quote "long_shelf_life" +:+ " or " +:+ Quote "non_perishable" +:+ ".".

Definition min_stock_field (raw : option Z) : Form (option Z) :=
  match raw with
  | None => mret None
  | Some n => complain_if (n <? 0) "min_stock" "Cannot be negative." ;; mret (Some n)
  end.

(** An icon's name; [empty] is what an empty one is told. *)
Definition icon_field (empty raw : string) : Form (option string) :=
  let name := TrimSpace raw in
  if String.eqb name "" then complain "icon_name" empty ;; mret None
  else if RuneCountInString name >? maxIconNameLength then complain "icon_name" "Keep the icon name under 100 characters." ;; mret None
  else mret (Some name).

(** ** Creating *)

Record CreateBody := mkCreate {
  cb_Name : string;
  cb_CategoryID : option string;
  cb_ItemType : string;
  cb_MinStock : option Z;
  cb_Image : option string;
  cb_IconName : option string;
}.

Definition read_create (l : list (string * Json)) : option CreateBody :=
  name ← str_field "name" l; categoryID ← str_ptr "category_id" l; itemType ← str_field "item_type" l;
  minStock ← int_ptr "min_stock" l; image ← str_ptr "image" l; icon ← str_ptr "icon_name" l;
  Some (mkCreate name categoryID itemType minStock image icon).

(** The picture's address is filled in once it is stored. *)
Definition create_form (body : CreateBody) : Form (option string -> NewProduct) :=
  name ← name_field (cb_Name body);
  complain_if (negb (String.eqb (cb_ItemType body) "" || is_item_type (cb_ItemType body))) "item_type" bad_item_type ;;
  minStock ← min_stock_field (cb_MinStock body);
  categoryID ← form_uuid_ptr "category_id" (cb_CategoryID body);
  icon ← (match cb_IconName body with None => mret None | Some raw => icon_field "Send null, not an empty string, for no icon." raw end);
  mret (fun imageURL => mkNewProduct name categoryID None (cb_ItemType body) None (default 0 minStock) imageURL icon).

(** The product the name already names, when a matcher is wired. *)
Definition confident_match (matcher : bool) (storageID : uuid) (name : string) : Hd (option uuid) :=
  if matcher then
    result ← store (MatchLocalProduct storageID name) Internal;
    mret (if bool_decide (r_Status result = StatusExactMatch) then lc_ProductID <$> r_Product result else None)
  else mret None.

Definition CreateProductHandler (matcher : bool) : Handler := handle (fun r =>
  storageID ← storage_of r;
  body ← decodeJSON read_create r;
  inp ← filled (create_form body);
  known ← confident_match matcher storageID (np_Name (inp None));
  match known with
  | Some productID =>
    detail ← detail storageID productID no_counts;
    mret (writeJSON StatusOK (Some detail))
  | None =>
    picture ← promote_picked storageID (cb_Image body) "That picture is no longer available. Pick another, or continue without one.";
    product ← store_with_picture picture.1 (CreateProduct storageID (inp picture.2)) (fun e => FromStoreError e "category not found in storage");
    detail ← detail storageID product.1 no_counts;
    mret (writeJSON StatusCreated (Some detail))
  end).

(** ** The category and the picture *)

Definition SetCategory : Handler := handle (fun r =>
  storageID ← storage_of r;
  user ← user_of r;
  productID ← productIDFromPath r;
  raw ← decodeJSON (str_ptr "category_id") r;
  categoryID ← (match raw with
    | None => mret None
    | Some raw => id ← or_refuse (uuid_Parse raw) (ValidationFailed (field "category_id" "Must be a UUID or null.") None); mret (Some id)
    end);
  store (SetProductCategoryAsUser storageID productID categoryID user.1) (fun e => FromStoreError e "product or category not found in storage") ;;
  mret (writeJSON StatusOK (Some (JObj [("category_id", opt_json JStr raw)])))).

Definition picture_json (imageURL icon : option string) : Json := JObj [("icon_name", opt_json JStr icon); ("image_url", opt_json JStr imageURL)].

Definition SetImage : Handler := handle (fun r =>
  storageID ← storage_of r;
  user ← user_of r;
  productID ← productIDFromPath r;
  body ← decodeJSON (fun l => image ← str_ptr "image" l; icon ← str_ptr "icon_name" l; Some (image, icon)) r;
  picture ← promote_picked storageID body.1 "That picture is no longer available. Pick another.";
  store_with_picture picture.1 (SetProductImageAsUser storageID productID picture.2 body.2 user.1) not_here ;;
  mret (writeJSON StatusOK (Some (picture_json picture.2 body.2)))).

Definition UploadImage : Handler := handle (fun r =>
  storageID ← storage_of r;
  user ← user_of r;
  productID ← productIDFromPath r;
  image ← ReadImageUpload r "image";
  let '(data, _, format) := image in
  saved ← save_picture storageID data (ContentType format);
  match saved with
  | inl _ => refuse (Internal ErrOther)
  | inr (picture, url) =>
    store_with_picture picture (SetProductImageAsUser storageID productID (Some url) None user.1) not_here ;;
    mret (writeJSON StatusOK (Some (picture_json (Some url) None)))
  end).

(** ** Patching *)

Record UpdateBody := mkUpdate {
  ub_Name : option string;
  ub_CategoryID : option Json;
  ub_ItemType : option string;
  ub_MinStock : option Z;
  ub_DefaultShelfLifeDays : option Json;
  ub_IconName : option Json;
}.

Definition read_update (l : list (string * Json)) : option UpdateBody :=
  name ← str_ptr "name" l; categoryID ← raw_field "category_id" l; itemType ← str_ptr "item_type" l;
  minStock ← int_ptr "min_stock" l; days ← raw_field "default_shelf_life_days" l; icon ← raw_field "icon_name" l;
  Some (mkUpdate name categoryID itemType minStock days icon).

Definition icon_or_null (raw : Json) : Form (option string) :=
  match nullable_string raw with
  | None => complain "icon_name" "Must be a string or null." ;; mret None
  | Some None => mret None
  | Some (Some raw) => icon_field "Send null to clear the icon." raw
  end.

(** A member that is there, read; absent it changes nothing. *)
Definition when_given {A B} (raw : option A) (read : A -> Form (option B)) : Form (option B) :=
  match raw with None => mret None | Some raw => read raw end.

Definition update_form (body : UpdateBody) : Form ProductPatch :=
  name ← when_given (ub_Name body) (fun raw => name ← name_field raw; mret (Some name));
  categoryID ← when_given (ub_CategoryID body) (form_uuid_or_null "category_id");
  itemType ← when_given (ub_ItemType body) (fun t =>
    if is_item_type t then mret (Some t) else complain "item_type" bad_item_type ;; mret None);
  minStock ← min_stock_field (ub_MinStock body);
  days ← when_given (ub_DefaultShelfLifeDays body) (fun raw =>
    match parseShelfLifeDays raw with inl failure => merge_fields (f_Fields failure) ;; mret None | inr days => mret days end);
  icon ← when_given (ub_IconName body) icon_or_null;
  mret (mkProductPatch name categoryID (negb (is_nil (ub_CategoryID body))) itemType minStock
    days (negb (is_nil (ub_DefaultShelfLifeDays body))) icon (negb (is_nil (ub_IconName body)))).

Definition update_fields : list string := ["name"; "category_id"; "item_type"; "min_stock"; "default_shelf_life_days"; "icon_name"].

Definition UpdateProductHandler : Handler := handle (fun r =>
  storageID ← storage_of r;
  productID ← productIDFromPath r;
  body ← decodeJSONStrict (plain update_fields) read_update r;
  patch ← filled (update_form body);
  updated ← store (UpdateProduct storageID productID patch) (fun e => FromStoreError e "product or category not found in storage");
  detail ← detail storageID productID (mkCounts None (if pp_SetDefaultShelfLifeDays patch then Some updated.2 else None));
  mret (writeJSON StatusOK (Some detail))).

(** ** Merging and deleting *)

(** The file of an address this server made; other addresses name none. *)
Definition after (marker : list ascii) : list ascii -> option (list ascii) :=
  fix go l :=
    if bool_decide (marker `prefix_of` l) then Some (drop (Datatypes.length marker) l)
    else match l with [] => None | _ :: l' => go l' end.

Definition stored_name (imageURL : string) : option string :=
  if String.prefix "/api/storages/" imageURL then
    name ← after (bytes "/product-images/") (bytes imageURL);
    if is_nil (head name) || existsb (Ascii.eqb slash) name then None else Some (text name)
  else None.

Definition removeStoredPicture (imageURL : string) : Hd unit :=
  match stored_name imageURL with Some name => remove_picture name | None => mret tt end.

Definition Merge : Handler := handle (fun r =>
  storageID ← storage_of r;
  survivorID ← productIDFromPath r;
  raw ← decodeJSONStrict (plain ["source_product_id"]) (str_field "source_product_id") r;
  sourceID ← or_refuse (uuid_Parse raw) (ValidationFailed (field "source_product_id" "Must be a UUID.") (Some ErrOther));
  refuse_if (sourceID =? survivorID) (ValidationFailed (field "source_product_id" "A product cannot be merged into itself.") None) ;;
  result ← store (MergeProducts storageID survivorID sourceID) not_here;
  removeStoredPicture (mr_OrphanedImage result) ;;
  detail ← detail storageID survivorID (mkCounts (Some (mr_MovedBatches result)) (Some (mr_RecomputedBatches result)));
  mret (writeJSON StatusOK (Some detail))).

Definition DeleteProductHandler : Handler := handle (fun r =>
  storageID ← storage_of r;
  productID ← productIDFromPath r;
  orphaned ← store (DeleteProduct storageID productID) not_here;
  removeStoredPicture orphaned ;;
  mret (writeJSON StatusNoContent None)).

End api.
