(* ===== verification/InventoryApi.v ===== *)
(** * The inventory, what to buy and the numbers over HTTP

    internal/httpapi/inventory.go, analytics.go and reorder.go. *)

From Stdlib Require Import Ascii String.
From S2P Require Import Prelude Text Encoding Uploads Gamification Images Expiry Db Tree Progress ShelfLife Containers Batches Consumption Barcodes Locations Products Matching Listings Reorder Json RateLimit Net Http Forms StockApi Pictures ProductsApi.

#[local] Open Scope string_scope.
#[local] Open Scope list_scope.
#[local] Open Scope Z_scope.

Section api.
Context `{Deployment} `{Gallery} `{Trigrams}.

(** ** inventory.go *)

Definition inventoryBatchResponse (row : InventoryBatchRow) : Json :=
  let b := ib_Row row in
  JObj [("id", uuid_json (ib_ID row)); ("product_id", uuid_json (b_ProductID b)); ("product_name", JStr (ib_ProductName row));
        ("image_url", opt_json JStr (ib_ImageURL row)); ("category_id", opt_json uuid_json (ib_CategoryID row));
        ("category_name", opt_json JStr (ib_CategoryName row)); ("location_id", uuid_json (b_LocationID b));
        ("location_path", JArr (map JStr (ib_LocationPath row))); ("quantity", JNum (b_Quantity b));
        ("expiration_date", date_json (b_ExpirationDate b)); ("expiration_source", JStr (b_ExpirationSource b));
        ("created_at", JTime (b_CreatedAt b))].

(** An id of the query, when one is given. *)
Definition query_uuid (name : string) (r : Request) : Form (option uuid) :=
  let raw := query r name in if String.eqb raw "" then mret None else form_uuid name raw.

Definition readInventoryFilter (r : Request) : Form InventoryBatchFilter :=
  locationID ← query_uuid "location_id" r;
  categoryID ← query_uuid "category_id" r;
  mret (mkInventoryFilter locationID categoryID (query r "q")).

Definition ListInventory : Handler := handle (fun r =>
  storageID ← storage_of r;
  page ← readPage r;
  filter ← filled (readInventoryFilter r);
  rows ← store (ListInventoryBatches storageID filter (page_After page) (page_Limit page + 1))
    (fun e => FromStoreError e "location or category not in this storage or nonexistent");
  let '(rows, next) := pageOf rows (page_Limit page) ib_ID in
  mret (writeJSON StatusOK (Some (collection (map inventoryBatchResponse rows) next)))).

(** ** analytics.go *)

Definition read_granularity (r : Request) : Hd TurnoverGranularity :=
  let raw := query r "granularity" in
  if String.eqb raw "" || String.eqb raw "month" then mret GranularityMonth
  else if String.eqb raw "week" then mret GranularityWeek
  else refuse (ValidationFailed (field "granularity" "Must be week or month.") None).

Definition distribution_json (row : LocationDistributionRow) : Json :=
  JObj [("location_id", uuid_json (ld_LocationID row)); ("location_name", JStr (ld_LocationName row)); ("item_count", JNum (ld_ItemCount row))].
Definition turnover_json (row : TurnoverRow) : Json :=
  JObj [("period", JStr (tr_Period row)); ("purchased", JNum (tr_Purchased row)); ("consumed", JNum (tr_Consumed row))].

Definition AnalyticsDashboard : Handler := handle (fun r =>
  storageID ← storage_of r;
  granularity ← read_granularity r;
  total ← store (AnalyticsTotalItems storageID) (fun e => FromStoreError e "analytics total items");
  distribution ← store (AnalyticsLocationDistribution storageID) (fun e => FromStoreError e "analytics location distribution");
  turnover ← store (AnalyticsTurnover storageID granularity) (fun e => FromStoreError e "analytics turnover");
  mret (writeJSON StatusOK (Some (JObj
    [("total_items", JNum total); ("location_distribution", JArr (map distribution_json distribution)); ("turnover", JArr (map turnover_json turnover))])))).

(** ** reorder.go *)

Definition reorder_item (name : string) (r : ReorderProduct) (stock : list (string * Json)) : Json :=
  JObj ([("product_id", uuid_json (ro_ProductID r)); ("name", JStr (ro_Name r))] ++ stock ++ [(name, JNum (ro_MinStock r))]).
Definition outOfStockItem (r : ReorderProduct) : Json := reorder_item "min_stock" r [].
Definition lowStockItem (r : ReorderProduct) : Json := reorder_item "min_stock" r [("current_stock", JNum (ro_CurrentStock r))].

Definition reorder_rows (storageID : uuid) : Hd (list ReorderProduct) :=
  store (ReorderProducts storageID) (fun e => FromStoreError e "list reorder products").

Definition ReorderDashboard : Handler := handle (fun r =>
  storageID ← storage_of r;
  rows ← reorder_rows storageID;
  let '(outOfStock, lowStock) := classifyReorder rows in
  mret (writeJSON StatusOK (Some (JObj [("out_of_stock", JArr (map outOfStockItem outOfStock)); ("low_stock", JArr (map lowStockItem lowStock))])))).

(** An attachment of the day it is asked for. *)
Definition attachment (contentType filename : string) : gmap string string :=
  <["Content-Type" := contentType]> (<["Content-Disposition" := "attachment; filename=" +:+ Quote filename]> (<["Cache-Control" := "no-store"]> ∅)).
Definition today : Hd string := now ← handler_now; mret (FormatDateOnly (now / day)).

Definition ExportReorder : Handler := handle (fun r =>
  storageID ← storage_of r;
  let format := query r "format" in
  refuse_if (negb (String.eqb format "" || String.eqb format "csv"))
    (ValidationFailed (field "format" ("Must be " +:+ Quote "csv" +:+ " — PDF export is generated in the browser, not by this endpoint.")) None) ;;
  rows ← reorder_rows storageID;
  date ← today;
  mret (mkReply StatusOK (attachment "text/csv; charset=utf-8" ("reorder-list-" +:+ date +:+ ".csv")) None None (Some (reorder_csv rows)))).

Definition status_name (s : Status) : string :=
  match s with StatusExactMatch => "exact_match" | StatusAmbiguous => "ambiguous" | StatusNewItem => "new_item" end.

(** A product the matcher found, with the threshold it has. *)
Definition reorderRef (storageID : uuid) (c : LocalCandidate) : Hd Json :=
  n ← store (ProductMinStock storageID (lc_ProductID c)) Internal;
  mret (JObj [("id", uuid_json (lc_ProductID c)); ("name", JStr (lc_Name c)); ("min_stock", JNum n)]).

Fixpoint each_ref (storageID : uuid) (l : list LocalCandidate) : Hd (list Json) :=
  match l with
  | [] => mret []
  | c :: l' => j ← reorderRef storageID c; js ← each_ref storageID l'; mret (j :: js)
  end.

Definition buildReorderMatchResponse (storageID : uuid) (result : Result) : Hd Json :=
  product ← (match r_Product result with None => mret JNull | Some c => reorderRef storageID c end);
  candidates ← each_ref storageID (r_Candidates result);
  card ← (match r_Catalog result with
    | None => mret JNull
    | Some m =>
      imageURL ← cardImageURL storageID (cp_ImageURL (cm_Row m).2);
      mret (catalogCard (cm_Row m).2 imageURL (map cv_DisplayName (cm_Variants m)))
    end);
  mret (JObj [("status", JStr (status_name (r_Status result))); ("matched_product", product); ("candidates", JArr candidates);
              ("catalog", card); ("needs_image_search", JBool (NeedsExternalLookup result))]).

Definition MatchReorderItem : Handler := handle (fun r =>
  storageID ← storage_of r;
  raw ← decodeJSON (str_field "name") r;
  let name := TrimSpace raw in
  refuse_if (String.eqb name "") (ValidationFailed (field "name" "A product name is required.") None) ;;
  result ← store (MatchProductCandidates storageID name) Internal;
  response ← buildReorderMatchResponse storageID result;
  mret (writeJSON StatusOK (Some response))).

Record ItemBody := mkItemBody {
  it_Name : string;
  it_ProductID : option string;
  it_MinStock : option Z;
  it_CategoryID : option string;
  it_ItemType : string;
  it_Image : option string;
  it_IconName : option string;
  it_DefaultShelfLifeDays : option Z;
}.

Definition read_item (l : list (string * Json)) : option ItemBody :=
  name ← str_field "name" l; productID ← str_ptr "product_id" l; minStock ← int_ptr "min_stock" l; categoryID ← str_ptr "category_id" l;
  itemType ← str_field "item_type" l; image ← str_ptr "image" l; icon ← str_ptr "icon_name" l; days ← int_ptr "default_shelf_life_days" l;
  Some (mkItemBody name productID minStock categoryID itemType image icon days).

Definition uuid_or_null (key : string) (raw : option string) : Form (option uuid) :=
  match raw with
  | None => mret None
  | Some raw =>
    match uuid_Parse raw with Some id => mret (Some id) | None => complain key "Must be a UUID or null." ;; mret None end
  end.

(** The product named, if one is, and what is made when none is. *)
Definition item_form (body : ItemBody) : Form (option uuid * (option string -> NewProduct)) :=
  let name := TrimSpace (it_Name body) in
  complain_if (String.eqb name "") "name" "A product name is required." ;;
  let minStock := default 1 (it_MinStock body) in
  complain_if (minStock <? 1) "min_stock" "Must be at least 1." ;;
  productID ← uuid_or_null "product_id" (it_ProductID body);
  categoryID ← uuid_or_null "category_id" (it_CategoryID body);
  complain_if (negb (String.eqb (it_ItemType body) "" || is_item_type (it_ItemType body))) "item_type"
    "Must be perishable, long_shelf_life or non_perishable." ;;
  mret (productID, fun imageURL =>
    mkNewProduct name categoryID None (it_ItemType body) (it_DefaultShelfLifeDays body) minStock imageURL (it_IconName body)).

Definition reorderProductResponse (row : uuid * Product) (created : bool) : Json :=
  JObj [("product_id", uuid_json row.1); ("name", JStr (prod_Name row.2)); ("min_stock", JNum (prod_MinStock row.2)); ("created", JBool created)].

(** The product the request names, or the one its text matches with confidence. *)
Definition item_target (storageID : uuid) (productID : option uuid) (name : string) : Hd (option uuid) :=
  match productID with
  | Some id => mret (Some id)
  | None =>
    result ← store (MatchProductCandidates storageID name) Internal;
    mret (if bool_decide (r_Status result = StatusExactMatch) then lc_ProductID <$> r_Product result else None)
  end.

Definition AddItem : Handler := handle (fun r =>
  storageID ← storage_of r;
  user ← user_of r;
  body ← decodeJSON read_item r;
  form ← filled (item_form body);
  let '(productID, inp) := form in
  target ← item_target storageID productID (np_Name (inp None));
  match target with
  | Some id =>
    updated ← store (UpdateProductMinStockAsUser storageID id (np_MinStock (inp None)) user.1)
      (fun e => FromStoreError e "product not in this storage or nonexistent");
    mret (writeJSON StatusOK (Some (reorderProductResponse updated false)))
  | None =>
    picture ← promote_picked storageID (it_Image body) "That picture is no longer available. Pick another, or continue without one.";
    created ← store_with_picture picture.1 (CreateProduct storageID (inp picture.2)) (fun e => FromStoreError e "product could not be created");
    mret (writeJSON StatusCreated (Some (reorderProductResponse created true)))
  end).

End api.
