(* ===== verification/BarcodeApi.v ===== *)
(** * Barcodes over HTTP: internal/httpapi/barcodes.go

    Attaching codes to products and taking them off, looking a scanned code up, the
    codes worth caching, logging a scan, accepting what the catalog knows of a code,
    and reading one off a photo. *)

From Stdlib Require Import Ascii String Strings.Byte.
From S2P Require Import Prelude Text Encoding Uploads Gamification Images Expiry Db Tree Progress ShelfLife Containers Batches Consumption Barcodes Locations Products Matching Listings Json RateLimit Net Http Forms Pictures ProductsApi.

#[local] Open Scope string_scope.
#[local] Open Scope list_scope.
#[local] Open Scope Z_scope.

(** A uuid.UUID of the body: text that parses. *)
Definition read_uuid `{Deployment} (old : uuid) (j : Json) : option uuid :=
  match j with JNull => Some old | JStr s => uuid_Parse s | _ => None end.

Definition maxDecodeUploadBytes : Z := 8 * 2 ^ 20.

Section api.
Context `{Deployment} `{Gallery}.

Definition barcodeResponse (code : string) (pb : ProductBarcode) : Json :=
  JObj [("barcode", JStr code); ("product_id", uuid_json (pb_ProductID pb)); ("created_at", JTime (pb_CreatedAt pb))].

Definition barcodeProduct (row : uuid * Product) (stock : Z) : Json :=
  let p := row.2 in
  JObj [("product_id", uuid_json row.1); ("name", JStr (prod_Name p)); ("category_id", opt_json uuid_json (prod_CategoryID p));
        ("item_type", JStr (prod_ItemType p)); ("default_shelf_life_days", opt_json JNum (prod_DefaultShelfLifeDays p));
        ("min_stock", JNum (prod_MinStock p)); ("image_url", opt_json JStr (prod_ImageURL p)); ("icon_name", opt_json JStr (prod_IconName p));
        ("current_stock", JNum stock)].

Definition barcodeFailure (e : Err) (reason : string) : Failure :=
  match e with
  | ErrValidation => ValidationFailed (field "barcode" "Must be 1–64 characters of letters, digits, and . _ / -") (Some e)
  | ErrConflict => mkFailure StatusConflict CodeConflict "That barcode already belongs to another product here." ∅ reason (Some e) 0
  | _ => FromStoreError e reason
  end.

Definition Associate : Handler := handle (fun r =>
  storageID ← storage_of r;
  productID ← productIDFromPath r;
  code ← decodeJSONStrict (plain ["barcode"]) (str_field "barcode") r;
  association ← store (AssociateBarcode storageID productID code)
    (fun e => barcodeFailure e ("associate barcode with product " +:+ uuid_String productID));
  mret (writeJSON StatusCreated (Some (barcodeResponse code association)))).

Definition ListForProduct : Handler := handle (fun r =>
  storageID ← storage_of r;
  productID ← productIDFromPath r;
  rows ← store (ProductBarcodes storageID productID) not_here;
  mret (writeJSON StatusOK (Some (collection (map (fun row => barcodeResponse row.1 row.2) rows) None)))).

Definition DeleteBarcode : Handler := handle (fun r =>
  storageID ← storage_of r;
  productID ← productIDFromPath r;
  store (DeleteProductBarcode storageID productID (param r "barcode"))
    (fun e => FromStoreError e ("barcode not associated with product " +:+ uuid_String productID)) ;;
  mret (writeJSON StatusNoContent None)).

(** The names of the variants are left out when they cannot be read. *)
Definition catalogCardFor (storageID : uuid) (c : uuid * CatalogProduct) : Hd Json :=
  variants ← call (CatalogVariants c.1 0);
  imageURL ← cardImageURL storageID (cp_ImageURL c.2);
  mret (catalogCard c.2 imageURL (match variants with Ok names => names | Fail _ => [] end)).

(** The scan is counted after the reply, whether or not that works. *)
Definition Lookup : Handler := handle (fun r =>
  storageID ← storage_of r;
  let code := param r "code" in
  hit ← store (LookupBarcode storageID code) (fun e => FromStoreError e "barcode not known in storage");
  reply ← (match bl_Product hit, bl_Catalog hit with
    | Some p, _ => mret (JObj [("product", barcodeProduct p (bl_CurrentStock hit)); ("catalog_suggestion", JNull)])
    | None, Some c => card ← catalogCardFor storageID c; mret (JObj [("product", JNull); ("catalog_suggestion", card)])
    | None, None => refuse (Internal ErrOther)
    end);
  call (IncrementBarcodeScanCount code) ;;
  mret (writeJSON StatusOK (Some reply))).

Definition hotBarcodeItem (row : HotBarcode) (imageURL : option string) : Json :=
  JObj [("barcode", JStr (hb_Barcode row)); ("display_name", JStr (hb_DisplayName row)); ("category_path", opt_json JStr (hb_CategoryPath row));
        ("item_type", JStr (hb_ItemType row)); ("image_url", opt_json JStr imageURL); ("icon_name", opt_json JStr (hb_IconName row));
        ("default_shelf_life_days", opt_json JNum (hb_DefaultShelfLifeDays row))].

Fixpoint hot_items (rows : list HotBarcode) : Hd (list Json) :=
  match rows with
  | [] => mret []
  | row :: rows' => imageURL ← catalogImageURL (hb_ImageURL row); items ← hot_items rows'; mret (hotBarcodeItem row imageURL :: items)
  end.

Definition Hot : Handler := handle (fun r =>
  rows ← store HotBarcodes (fun e => FromStoreError e "list hot barcodes");
  items ← hot_items rows;
  mret (writeJSON StatusOK (Some (JObj [("items", JArr items)])))).

(** ** Logging a scan *)

Record LogBody := mkLogBody {
  lb_Direction : string;
  lb_Quantity : Z;
  lb_LocationID : option uuid;
  lb_ExpirationDate : option string;
  lb_Decrements : list ConsumeBatchDecrement;
}.

Definition read_decrement : Json -> option ConsumeBatchDecrement := read_struct (fun l =>
  batch ← read_field "batch_id" read_uuid uuid_Nil l; quantity ← int_field "quantity" l; Some (mkDecrement batch quantity)).

Definition read_log (l : list (string * Json)) : option LogBody :=
  direction ← str_field "direction" l; quantity ← int_field "quantity" l;
  location ← read_field "location_id" (read_ptr read_uuid uuid_Nil) None l;
  date ← str_ptr "expiration_date" l; decrements ← slice_field "decrements" read_decrement l;
  Some (mkLogBody direction quantity location date decrements).

Definition log_shape : list (string * Shape) :=
  plain ["direction"; "quantity"; "location_id"; "expiration_date"] ++ [("decrements", Slice (Struct (plain ["batch_id"; "quantity"])))].

Definition log_form (body : LogBody) : Form BarcodeLogInput :=
  let isIn := String.eqb (lb_Direction body) BarcodeLogIn in
  complain_if (negb (isIn || String.eqb (lb_Direction body) BarcodeLogOut)) "direction" ("Must be " +:+ Quote "in" +:+ " or " +:+ Quote "out" +:+ ".") ;;
  complain_if (lb_Quantity body <? 1) "quantity" "Must be at least 1." ;;
  complain_if (isIn && is_nil (lb_LocationID body)) "location_id" "A location is required when stocking up." ;;
  expiration ← (match lb_ExpirationDate body with
    | None => mret None
    | Some raw =>
      match ParseDateOnly raw with
      | Some t => mret (Some t)
      | None => complain "expiration_date" "Must be a YYYY-MM-DD date." ;; mret None
      end
    end);
  mret (mkBarcodeLog (lb_Direction body) (lb_Quantity body) (lb_LocationID body) expiration (negb (is_nil (lb_ExpirationDate body)))
    (lb_Decrements body)).

Definition Log : Handler := handle (fun r =>
  storageID ← storage_of r;
  user ← user_of r;
  body ← decodeJSONStrict log_shape read_log r;
  inp ← filled (log_form body);
  result ← store (LogBarcode storageID (param r "code") (Some user.1) inp) (fun e => FromStoreError e "log against scanned barcode");
  mret (writeJSON StatusCreated (Some (JObj
    [("product_id", uuid_json (blr_ProductID result)); ("created_batch_id", opt_json uuid_json (blr_CreatedBatchID result));
     ("touched_batch_ids", JArr (map uuid_json (blr_TouchedBatchIDs result))); ("current_stock", JNum (blr_CurrentStock result))])))).

Definition AcceptCatalog : Handler := handle (fun r =>
  storageID ← storage_of r;
  product ← store (CreateProductFromBarcodeHint storageID (param r "code")) (fun e =>
    match e with
    | ErrConflict => mkFailure StatusConflict CodeConflict "That barcode already names a product here." ∅ "barcode already resolves locally" (Some e) 0
    | _ => FromStoreError e "barcode carries no catalog hint"
    end);
  mret (writeJSON StatusCreated (Some (barcodeProduct product 0)))).

(** ** A code read off a photo: the decoder is a parameter *)

Section photo.
Context (Decode : list byte -> option string).
(** What the streamed multipart body holds under the field; no more than
    [maxDecodeUploadBytes] of it are read. *)
Context (image_part : Request -> string -> FormFile).

Definition readImageBytes (r : Request) (fieldName : string) : Hd (list byte) :=
  let bad message := ValidationFailed (field fieldName message) None in
  match image_part r fieldName with
  | FormTooLarge => refuse PayloadTooLarge
  | FormUnreadable => refuse (ValidationFailed (field fieldName "The upload could not be read.") (Some ErrOther))
  | FormMissing => refuse (bad "An image file is required.")
  | FormUnread => refuse (Internal ErrOther)
  | FormFileData data =>
    refuse_if (len data >? maxDecodeUploadBytes) PayloadTooLarge ;;
    refuse_if (is_nil (head data)) (bad "An image file is required.") ;;
    mret data
  end.

Definition unreadable (reason : string) : Failure :=
  mkFailure StatusUnprocessableEntity CodeValidationFailed "No barcode could be read from that photo."
    (field "image" "No barcode could be read from that photo.") reason (Some ErrOther) 0.

Definition DecodePhoto : Handler := handle (fun r =>
  storage_of r ;;
  data ← readImageBytes r "image";
  code ← or_refuse (Decode data) (unreadable "barcode decode found nothing");
  refuse_if (negb (is_nil (ValidateBarcode code))) (unreadable "barcode decode produced an unusable value") ;;
  mret (writeJSON StatusOK (Some (JObj [("barcode", JStr code)])))).
End photo.

End api.
