(* ===== verification/ReviewApi.v ===== *)
(** * From a photo to stock: httpapi/ingest.go, consume.go, cutouts.go, jobs.go,
      reanalyze.go, and the services behind them (ingest/service.go, consume/service.go,
      ingest/backgrounds.go)

    A photo is saved and a job made of it; what the model saw waits as the job's
    proposal; a person decides every row of it; and what they accepted becomes stock,
    with pictures cut from the photo, or is taken from stock.  The model's answers, the
    codecs and the bytes of a proposal are a [Review]. *)

From Stdlib Require Import Ascii String Strings.Byte.
From S2P Require Import Prelude Text Encoding Uploads Gamification Images Crop Expiry Db Products Batches Ledger Jobs Consumption Ingestion Json RateLimit Net Http Forms Pictures BarcodeApi JobRunner.

#[local] Open Scope string_scope.
#[local] Open Scope list_scope.
#[local] Open Scope Z_scope.

Definition maxIngestRows : Z := 500.
Definition maxIngestQuantity : Z := 100000.
Definition maxProductName : Z := 255.
Definition maxLocationDepth : Z := 16.
Definition maxConsumeRows : Z := 500.
Definition maxConsumeDecrementsPerRow : Z := 50.
Definition maxConsumeQuantity : Z := 100000.

Inductive VisionErr := ErrModelNotFound | ErrVision.

Class Review `{Gallery} := {
  review_pixels :: Pixels pixel_color;
  (** the upload area of photos, and the directories of cutouts, when there are any *)
  photos_dir : option Dir;
  cutouts_root : option (list string);
  (** whether background removal is wired, the model configured for it, and whether
      the provider offers it *)
  backgrounds : bool;
  image_model : string;
  offers : World -> string -> bool;
  (** the model photos are analysed with, and whether it is available *)
  analysis_model : World -> string * bool;
  Segment : World -> list byte -> Format -> VisionErr + Box * list byte;
  (** the claim of the process's runner, unless it is shut down *)
  runner_lease : World -> option JobLease;
  (** the column payload, of which [Payload] keeps what the store reads *)
  payload_json : Payload -> Json;
  ParseFloat : string -> option float64;
  form_value : Request -> string -> string;
}.

Definition kind_text (k : JobKind) : string :=
  match k with
  | JobShelfIngestion => "shelf_ingestion" | JobProductPhoto => "product_photo"
  | JobShoppingListPhoto => "shopping_list_photo" | JobConsumptionPhoto => "consumption_photo"
  end.
Definition status_text (s : JobStatus) : string :=
  match s with JobPending => "pending" | JobDone => "done" | JobFailed => "failed" | JobConsumed => "consumed" end.
Definition status_named (s : string) : option JobStatus :=
  List.find (fun st => String.eqb (status_text st) s) [JobPending; JobDone; JobFailed; JobConsumed].

Section review.
Context `{Deployment} `{Gallery} `{!Review}.

Definition ModelUnavailable (model : string) : Failure :=
  mkFailure StatusServiceUnavailable CodeModelUnavailable "The configured vision model is unavailable." ∅
    ("configured model not offered by the provider: " +:+ model) None 0.

Definition of_ascii (l : list ascii) : list byte := map byte_of_ascii l.

(** A file of a directory. *)
Definition read_file (dir : Dir) (name : string) : Hd (UploadError + list ascii) := on_disk name (fun os fs => (Read dir os name fs, fs)).

(** ** The services *)

(** Runner.Submit and Resubmit, as a request sees them: the work runs elsewhere. *)
Definition submit (nj : NewJob) : Tx (uuid * Job) := fun w =>
  match runner_lease w with None => (Fail ErrShutDown, w) | Some lease => CreateJob (with_lease lease nj) w end.
Definition resubmit (storageID id : uuid) : Tx unit := fun w =>
  match runner_lease w with None => (Fail ErrShutDown, w) | Some lease => RequeueJob storageID id lease w end.

(** The kinds a service works. *)
Definition ingests (kind : JobKind) : bool := match kind with JobShelfIngestion | JobProductPhoto => true | _ => false end.
Definition consumes (kind : JobKind) : bool := match kind with JobConsumptionPhoto => true | _ => false end.

(** Service.Start: the photo first, then its job; without a job the photo goes. *)
Definition Start (dir : Dir) (kind : JobKind) (storageID user : uuid) (hint : option uuid) (filename : string) (image : list ascii) : Hd (Res uuid) :=
  if negb (ingests kind || consumes kind) then mret (Fail ErrOther)
  else
    saved ← on_disk filename (fun os => Save dir os filename image);
    match saved with
    | inl _ => mret (Fail ErrOther)
    | inr _ =>
      r ← call (submit (mkNewJob storageID kind (Some user) (Some filename) hint (mkLease 0 0)));
      match r with
      | Ok job => mret (Ok job.1)
      | Fail e => on_disk filename (fun os => Remove dir os filename) ;; mret (Fail e)
      end
    end.

(** Service.Reanalyze of the service that has the job's kind. *)
Definition Reanalyze (storageID id : uuid) (job : Job) : Tx unit :=
  if negb (ingests (job_Kind job) || consumes (job_Kind job)) then throw ErrOther
  else if is_nil (job_ImageFilename job) then throw ErrConflict
  else resubmit storageID id.

(** ** Background removal: ingest/backgrounds.go *)

Definition backgrounds_available (w : World) : string * bool := (image_model, negb (String.eqb image_model "") && offers w image_model).

Definition cut_out := Cutout pixel_blank pixel_rgba pixel_codecs.
Definition product_image := ProductImage pixel_blank pixel_rgba pixel_codecs.

(** An answer of the model that cannot be cut along, and a panic of the recoverer's. *)
Definition remove_background (w : World) (picture : list byte) (format : Format) : VisionErr + StripResult :=
  match Segment w picture format with
  | inl e => inl e
  | inr (box, mask) => match cut_out picture box mask with Some (inr result) => inr result | _ => inl ErrVision end
  end.

Definition cutoutName (id : uuid) : string := uuid_String id +:+ Extension FormatPNG.
Definition cutoutURL (storageID jobID cutoutID : uuid) : string :=
  "/api/storages/" +:+ uuid_String storageID +:+ "/ingest/" +:+ uuid_String jobID +:+ "/cutouts/" +:+ uuid_String cutoutID.

Definition readCutout (jobID cutoutID : uuid) : Hd (UploadError + list ascii) :=
  match cutouts_root with
  | None => mret (inl ErrNotExist)
  | Some root => on_disk (cutoutName cutoutID) (fun os fs => (ReadJob uuid_String root jobID os (cutoutName cutoutID) fs, fs))
  end.

(** Best effort: a failure is logged. *)
Definition removeJobCutouts (jobID : uuid) : Hd unit :=
  match cutouts_root with
  | None => mret tt
  | Some root => on_disk (uuid_String jobID) (fun os => RemoveAll uuid_String root os jobID) ;; mret tt
  end.

(** ** Proposals as the handlers read them *)

Definition read_float (old : float64) (j : Json) : option float64 :=
  match j with JNull => Some old | JNum z => Some (float64_of_int z) | JReal literal => ParseFloat literal | JFloat f => Some f | _ => None end.
Definition float_field (name : string) := read_field name read_float f_zero.

Definition read_box (l : list (string * Json)) : option Box :=
  x ← float_field "x" l; y ← float_field "y" l; width ← float_field "width" l; height ← float_field "height" l;
  Some (mkBox x y width height).

(** The rows of a proposal, each with its box: no rows without a payload. *)
Definition read_row (j : Json) : option (string * option Box) :=
  read_struct (fun l => id ← str_field "row_id" l; box ← struct_ptr "bounding_box" read_box l; Some (id, box)) j.
Definition read_rows (payload : Payload) : option (list (string * option Box)) :=
  match payload with NoPayload => Some [] | _ => read_struct (slice_field "rows" read_row) (payload_json payload) end.

(** The last box of an id wins. *)
Definition proposalBoxes (payload : Payload) : option (gmap string Box) :=
  rows ← read_rows payload;
  Some (foldl (fun boxes row => match row.2 with Some box => <[row.1 := box]> boxes | None => boxes end) ∅ rows).

Definition proposalRow (payload : Payload) (rowID : string) : option (option (option Box)) :=
  rows ← read_rows payload;
  Some (snd <$> List.find (fun row : string * option Box => String.eqb row.1 rowID) rows).

(** The number of rows: none when the payload holds no array of them. *)
Definition countRows (payload : Payload) : option Z :=
  match payload with
  | NoPayload => None
  | _ =>
    rows ← read_struct (read_field "rows" (fun (_ : option Z) j => match j with JNull => Some None | JArr l => Some (Some (Z.of_nat (Datatypes.length l))) | _ => None end) None)
      (payload_json payload);
    rows
  end.

(** ** Uploads *)

Definition available (model : string * bool) : Hd unit := refuse_if (negb model.2) (ModelUnavailable model.1).

Definition accepted (jobID : uuid) : Reply := writeJSON StatusAccepted (Some (JObj [("job_id", uuid_json jobID)])).

Definition started (r : Res uuid) (reason : string) : Hd Reply :=
  match r with Ok id => mret (accepted id) | Fail e => refuse (FromStoreError e reason) end.

Definition analysis_now : Hd (string * bool) := fun s => (inr (analysis_model (sv_World s)), s).
Definition backgrounds_now : Hd (string * bool) := fun s => (inr (backgrounds_available (sv_World s)), s).

Definition location_hint (r : Request) : Hd (option uuid) :=
  let raw := TrimSpace (form_value r "location_id") in
  if String.eqb raw "" then mret None
  else id ← or_refuse (uuid_Parse raw) (NotFound "malformed location hint"); mret (Some id).

(** IngestHandler.upload: ShelfPhoto and ProductPhoto by the kind. *)
Definition IngestUpload (dir : Dir) (kind : JobKind) : Handler := handle (fun r =>
  storageID ← storage_of r;
  user ← user_of r;
  model ← analysis_now;
  available model ;;
  image ← ReadImageUpload r "image";
  hint ← location_hint r;
  job ← Start dir kind storageID user.1 hint image.1.2 image.1.1;
  started job "location hint not found in storage").
Definition ShelfPhoto (dir : Dir) : Handler := IngestUpload dir JobShelfIngestion.
Definition ProductPhoto (dir : Dir) : Handler := IngestUpload dir JobProductPhoto.

(** ConsumeHandler.Upload: no hint. *)
Definition ConsumeUpload (dir : Dir) : Handler := handle (fun r =>
  storageID ← storage_of r;
  user ← user_of r;
  model ← analysis_now;
  available model ;;
  image ← ReadImageUpload r "image";
  job ← Start dir JobConsumptionPhoto storageID user.1 None image.1.2 image.1.1;
  started job "storage not found").

(** ** The decisions of a review *)

Definition productImageCrop := "crop".
Definition productImagePhoto := "photo".
Definition productImageCutout := "cutout".

(** An accepted row that asked for a picture: which decision, from where, and which
    cutout. *)
Record productImageChoice := mkChoice { ch_index : nat; ch_source : string; ch_cutout : uuid }.

Record NewProductBody := mkNewProductBody {
  np_Name : string; np_CategoryID : option uuid; np_ItemType : string; np_Image : option string; np_CutoutID : option uuid }.
Record NewLocationBody := mkNewLocationBody { nl_ParentID : option uuid; nl_Names : list string }.
Record confirmItem := mkConfirmItem {
  ci_RowID : string;
  ci_Decision : string;
  ci_ProductID : option uuid;
  ci_NewProduct : option NewProductBody;
  ci_Quantity : Z;
  ci_LocationID : option uuid;
  ci_NewLocation : option NewLocationBody;
  ci_ExpirationDate : option Json;
  ci_ContainerLabel : option string;
  ci_ContainerType : option string;
}.

Definition uuid_ptr (name : string) := read_field name (read_ptr read_uuid uuid_Nil) None.

Definition read_new_product (l : list (string * Json)) : option NewProductBody :=
  name ← str_field "name" l; category ← uuid_ptr "category_id" l; itemType ← str_field "item_type" l;
  image ← str_ptr "image" l; cutout ← uuid_ptr "cutout_id" l;
  Some (mkNewProductBody name category itemType image cutout).
Definition read_new_location (l : list (string * Json)) : option NewLocationBody :=
  parent ← uuid_ptr "parent_id" l; names ← read_field "names" read_strings [] l; Some (mkNewLocationBody parent names).
Definition read_confirm_item : Json -> option confirmItem := read_struct (fun l =>
  row ← str_field "row_id" l; decision ← str_field "decision" l; product ← uuid_ptr "product_id" l;
  newProduct ← struct_ptr "new_product" read_new_product l; quantity ← int_field "quantity" l; location ← uuid_ptr "location_id" l;
  newLocation ← struct_ptr "new_location" read_new_location l; date ← raw_field "expiration_date" l;
  label ← str_ptr "container_label" l; containerType ← str_ptr "container_type" l;
  Some (mkConfirmItem row decision product newProduct quantity location newLocation date label containerType)).

(** Items *[]item: null is no items. *)
Definition items_ptr {A} (read : Json -> option A) : list (string * Json) -> option (option (list A)) :=
  read_field "items" (read_ptr (read_slice read) []) None.
Definition read_confirm := items_ptr read_confirm_item.

Definition item_key (i : nat) (name : string) : string := "items[" +:+ FormatInt (Z.of_nat i) +:+ "]." +:+ name.

(** What the reviewer said of a new product's picture; [n] is the decision's place. *)
Definition picture_choice (i n : nat) (np : NewProductBody) : Form (list productImageChoice) :=
  let img := default "" (np_Image np) in
  choices ← (match np_Image np with
    | None => mret []
    | Some img =>
      if String.eqb img productImageCrop || String.eqb img productImagePhoto then mret [mkChoice n img uuid_Nil]
      else if String.eqb img productImageCutout then
        match np_CutoutID np with
        | None => complain (item_key i "new_product.cutout_id") "Required for a cutout." ;; mret []
        | Some cutout => mret [mkChoice n img cutout]
        end
      else complain (item_key i "new_product.image") "Must be crop, photo, cutout or null." ;; mret []
    end);
  complain_if (negb (is_nil (np_CutoutID np)) && negb (String.eqb img productImageCutout)) (item_key i "new_product.cutout_id") "Only for a cutout." ;;
  mret choices.

Definition parse_new_product (i n : nat) (np : NewProductBody) : Form (NewIngestProduct * list productImageChoice) :=
  let name := TrimSpace (np_Name np) in
  (if String.eqb name "" then complain (item_key i "new_product.name") "A name is required."
   else complain_if (RuneCountInString name >? maxProductName) (item_key i "new_product.name") "Must be at most 255 characters.") ;;
  itemType ← (let t := np_ItemType np in
    if String.eqb t "" then mret LongShelfLife
    else complain_if (negb (bool_decide (t ∈ [Perishable; LongShelfLife; NonPerishable])))
      (item_key i "new_product.item_type") "Must be perishable, long_shelf_life or non_perishable." ;; mret t);
  choices ← picture_choice i n np;
  mret (mkNewIngestProduct name (np_CategoryID np) itemType None, choices).

(** The names up to the first that is no good. *)
Fixpoint trimmed_names (i : nat) (names : list string) : Form (list string) :=
  match names with
  | [] => mret []
  | name :: names' =>
    let name := TrimSpace name in
    if String.eqb name "" || (RuneCountInString name >? maxLocationName)
    then complain (item_key i "new_location.names") "Each name must be 1 to 255 characters." ;; mret []
    else rest ← trimmed_names i names'; mret (name :: rest)
  end.

Definition parse_new_location (i : nat) (nl : NewLocationBody) : Form NewIngestLocation :=
  names ← trimmed_names i (nl_Names nl);
  let n := Z.of_nat (Datatypes.length (nl_Names nl)) in
  complain_if ((n =? 0) || (n >? maxLocationDepth)) (item_key i "new_location.names") "Give between 1 and 16 names." ;;
  mret (mkNewIngestLocation (nl_ParentID nl) names).

(** A form's complaints under the keys of an item. *)
Definition under_item {A} (i : nat) (form : Form A) : Form A := fun fields =>
  let '(a, more) := form ∅ in
  (a, foldl (fun acc kv => foldl (fun acc m => add_field (item_key i kv.1) m acc) acc kv.2) fields (map_to_list more)).

Definition rejection (rowID : string) : IngestDecision := mkIngestDecision rowID false None None 0 None None false None None None.

(** One item; an unknown decision decides nothing. *)
Definition parse_item (i n : nat) (item : confirmItem) : Form (option (IngestDecision * list productImageChoice)) :=
  let rowID := ci_RowID item in
  complain_if (String.eqb rowID "") (item_key i "row_id") "Required." ;;
  if String.eqb (ci_Decision item) "reject" then mret (Some (rejection rowID, []))
  else if negb (String.eqb (ci_Decision item) "accept") then complain (item_key i "decision") "Must be accept or reject." ;; mret None
  else
    product ← (match ci_ProductID item, ci_NewProduct item with
      | Some p, None => mret (Some p, None, [])
      | None, Some np => r ← parse_new_product i n np; mret (None, Some r.1, r.2)
      | _, _ => complain (item_key i "product_id") "Give exactly one of product_id and new_product." ;; mret (None, None, [])
      end);
    complain_if ((ci_Quantity item <? 1) || (ci_Quantity item >? maxIngestQuantity)) (item_key i "quantity") "Must be a whole number of at least 1." ;;
    location ← (match ci_LocationID item, ci_NewLocation item with
      | Some l, None => mret (Some l, None)
      | None, Some nl => nl' ← parse_new_location i nl; mret (None, Some nl')
      | _, _ => complain (item_key i "location_id") "Give exactly one of location_id and new_location." ;; mret (None, None)
      end);
    date ← (match ci_ExpirationDate item with
      | None => mret (false, None)
      | Some raw =>
        match parseExpirationDate raw with
        | inr date => mret (true, date)
        | inl _ => complain (item_key i "expiration_date") "Must be a YYYY-MM-DD date or null." ;; mret (true, None)
        end
      end);
    container ← under_item i (parseCreationContainerFields (ci_ContainerLabel item) (ci_ContainerType item));
    let '(p, np, choices) := product in
    mret (Some (mkIngestDecision rowID true p np (ci_Quantity item) (location : option uuid * option NewIngestLocation).1 location.2
      (date : bool * option Time).1 date.2 (container : option string * option string).1 container.2, choices)).

(** The loop: [i] counts the items, [n] the decisions so far. *)
Fixpoint parse_items (i n : nat) (items : list confirmItem) : Form (list IngestDecision * list productImageChoice) :=
  match items with
  | [] => mret ([], [])
  | item :: items' =>
    parsed ← parse_item i n item;
    match parsed with
    | None => parse_items (S i) n items'
    | Some (d, choices) => rest ← parse_items (S i) (S n) items'; mret (d :: rest.1, choices ++ rest.2)
    end
  end.

Definition too_many {A} (limit : Z) (items : list A) : bool := Z.of_nat (Datatypes.length items) >? limit.
Definition bad_items (message : string) : Failure := ValidationFailed (field "items" message) None.

Definition parseDecisions (body : option (list confirmItem)) : Hd (list IngestDecision * list productImageChoice) :=
  items ← or_refuse body (bad_items "A decision for every proposed row is required.");
  refuse_if (too_many maxIngestRows items) (bad_items "Too many rows.") ;;
  filled (parse_items 0 0 items).

(** ** Pictures of new products *)

Definition at_field (i : nat) (name message : string) : Failure := ValidationFailed (field (item_key i ("new_product." +:+ name)) message) None.
Definition noPhoto (i : nat) : Failure := at_field i "image" "This proposal has no photo to take a picture from.".

(** removeProductImages: what fails is logged. *)
Fixpoint removeProductImages (names : list string) : Hd unit :=
  match names, images_dir with
  | name :: names', Some dir => on_disk name (fun os => Remove dir os name) ;; removeProductImages names'
  | _, _ => mret tt
  end.

Definition set_picture (url : string) (d : IngestDecision) : IngestDecision :=
  mkIngestDecision (id_RowID d) (id_Accept d) (id_ProductID d)
    ((fun np => mkNewIngestProduct (nip_Name np) (nip_CategoryID np) (nip_ItemType np) (Some url)) <$> id_NewProduct d)
    (id_Quantity d) (id_LocationID d) (id_NewLocation d) (id_ExpirationEdited d) (id_ExpirationDate d) (id_ContainerLabel d) (id_ContainerType d).

(** The photo and its boxes, when a picture is cut from it. *)
Definition reviewed_photo (dir : Dir) (job : Job) (choices : list productImageChoice) : Hd (list byte * gmap string Box) :=
  match List.find (fun c => negb (String.eqb (ch_source c) productImageCutout)) choices with
  | None => mret ([], ∅)
  | Some choice =>
    filename ← or_refuse (job_ImageFilename job) (noPhoto (ch_index choice));
    read ← read_file dir filename;
    match read with
    | inl ErrNotExist => refuse (noPhoto (ch_index choice))
    | inl _ => refuse (Internal ErrOther)
    | inr photo => boxes ← or_refuse (proposalBoxes (job_Payload job)) (Internal ErrOther); mret (of_ascii photo, boxes)
    end
  end.

(** The picture of a choice, as bytes and the ending of its name; or the refusal. *)
Definition chosen_picture (jobID : uuid) (photo : list byte) (boxes : gmap string Box) (rowID : string) (choice : productImageChoice)
    : Hd (Failure + list ascii * string) :=
  let i := ch_index choice in
  if String.eqb (ch_source choice) productImageCutout then
    read ← readCutout jobID (ch_cutout choice);
    mret (match read with
      | inl ErrNotExist => inl (at_field i "cutout_id" "This picture without its background is no longer available. Remove the background again, or keep the original.")
      | inl _ => inl (Internal ErrOther)
      | inr data => inr (data, Extension FormatPNG)
      end)
  else
    let crop := String.eqb (ch_source choice) productImageCrop in
    let box := if crop then boxes !! rowID else None in
    mret (if crop && is_nil box then inl (at_field i "image" "This item has no crop. Use the whole photo instead.")
      else match product_image photo box with
        | Some (inr picture) => inr (to_ascii (sr_Data picture), Extension (sr_Format picture))
        | Some (inl ErrEmptyCrop) => inl (at_field i "image" "This item's crop is empty. Use the whole photo instead.")
        | _ => inl (Internal ErrOther)
        end).

(** A picture under a new name: the name, or the refusal. *)
Definition save_new (dir : Dir) (data : list ascii) (ext : string) : Hd (Failure + string) :=
  id ← call newID;
  match id with
  | Fail e => mret (inl (Internal e))
  | Ok id =>
    let name := uuid_String id +:+ ext in
    saved ← on_disk name (fun os => Save dir os name data);
    mret (match saved with inl _ => inl (Internal ErrOther) | inr _ => inr name end)
  end.

(** The loop over the choices; a refusal first removes what was written. *)
Fixpoint write_each (dir : Dir) (storageID jobID : uuid) (photo : list byte) (boxes : gmap string Box) (written : list string)
    (decisions : list IngestDecision) (choices : list productImageChoice) : Hd (list string * list IngestDecision) :=
  match choices with
  | [] => mret (written, decisions)
  | choice :: choices' =>
    let rowID := default "" (id_RowID <$> decisions !! ch_index choice) in
    picture ← chosen_picture jobID photo boxes rowID choice;
    match picture with
    | inl f => removeProductImages written ;; refuse f
    | inr (data, ext) =>
      name ← save_new dir data ext;
      match name with
      | inl f => removeProductImages written ;; refuse f
      | inr name =>
        write_each dir storageID jobID photo boxes (written ++ [name])
          (alter (set_picture (productImageURL storageID name)) (ch_index choice) decisions) choices'
      end
    end
  end.

(** The names written and the decisions that point at them. *)
Definition writeProductImages (storageID jobID : uuid) (decisions : list IngestDecision) (choices : list productImageChoice)
    : Hd (list string * list IngestDecision) :=
  match choices with
  | [] => mret ([], decisions)
  | _ =>
    job ← store (GetJob storageID jobID) (fun e => FromStoreError e "job not found in storage");
    if negb (bool_decide (job_Status job = JobDone)) then mret ([], decisions)
    else
      match photos_dir, images_dir with
      | Some photos, Some images =>
        p ← reviewed_photo photos job choices;
        write_each images storageID jobID p.1 p.2 [] decisions choices
      | _, _ => refuse (Internal ErrOther)
      end
  end.

(** The names among those written that no product of the storage uses; one that could
    not be looked up is kept. *)
Fixpoint unused_images (storageID : uuid) (written : list string) : Hd (list string) :=
  match written with
  | [] => mret []
  | name :: written' =>
    used ← call (ProductImageInStorage storageID (productImageURL storageID name));
    rest ← unused_images storageID written';
    mret (match used with Ok false => name :: rest | _ => rest end)
  end.

Definition discardUnusedProductImages (storageID : uuid) (written : list string) (confirmed : bool) : Hd unit :=
  match written with
  | [] => mret tt
  | _ => if negb confirmed then removeProductImages written else unused ← unused_images storageID written; removeProductImages unused
  end.

Definition undecided : Failure := ValidationFailed (field "items" "Every proposed row needs exactly one decision, and only proposed rows may be decided.") (Some ErrValidation).
Definition already_confirmed (e : Err) : Failure := conflictAs e "" "This proposal has already been confirmed, or is not ready for review.".

(** IngestHandler.Confirm *)
Definition ConfirmIngest : Handler := handle (fun r =>
  storageID ← storage_of r;
  user ← user_of r;
  jobID ← idFromPath r "job_id" "malformed job id";
  body ← decodeJSON read_confirm r;
  parsed ← parseDecisions body;
  pictures ← writeProductImages storageID jobID parsed.1 parsed.2;
  result ← call (ConfirmIngestion storageID jobID (Some user.1) pictures.2);
  let confirmed := match result with Ok _ => true | Fail _ => false end in
  discardUnusedProductImages storageID pictures.1 confirmed ;;
  (if confirmed then removeJobCutouts jobID else mret tt) ;;
  match result with
  | Fail ErrValidation => refuse undecided
  | Fail ErrConflict => refuse (already_confirmed ErrConflict)
  | Fail e => refuse (FromStoreError e "job or referenced id not found in storage")
  | Ok result =>
    mret (writeJSON StatusOK (Some (JObj
      [("batch_ids", JArr (map uuid_json (ir_BatchIDs result))); ("products_created", JNum (ir_ProductsCreated result));
       ("created_product_ids", JArr (map uuid_json (ir_CreatedProductIDs result))); ("locations_created", JNum (ir_LocationsCreated result))])))
  end).

(** ** Consumption: consume.go *)

Record consumeItem := mkConsumeItem { co_RowID : string; co_Decision : string; co_ProductID : option uuid; co_Decrements : list ConsumeBatchDecrement }.
Definition read_consume_item : Json -> option consumeItem := read_struct (fun l =>
  row ← str_field "row_id" l; decision ← str_field "decision" l; product ← uuid_ptr "product_id" l;
  decrements ← slice_field "decrements" read_decrement l; Some (mkConsumeItem row decision product decrements)).
Definition read_consume := items_ptr read_consume_item.

Fixpoint parse_decrements (i : nat) (decs : list ConsumeBatchDecrement) : Form (list ConsumeBatchDecrement) :=
  match decs with
  | [] => mret []
  | dec :: decs' =>
    if (dec_Quantity dec <? 1) || (dec_Quantity dec >? maxConsumeQuantity)
    then complain (item_key i "decrements") "Each quantity must be a whole number of at least 1." ;; parse_decrements i decs'
    else rest ← parse_decrements i decs'; mret (dec :: rest)
  end.

Definition parse_consume_item (i : nat) (item : consumeItem) : Form (option ConsumeDecision) :=
  let rowID := co_RowID item in
  complain_if (String.eqb rowID "") (item_key i "row_id") "Required." ;;
  if String.eqb (co_Decision item) "reject" then mret (Some (mkConsumeDecision rowID false None []))
  else if negb (String.eqb (co_Decision item) "accept") then complain (item_key i "decision") "Must be accept or reject." ;; mret None
  else
    complain_if (is_nil (co_ProductID item)) (item_key i "product_id") "Required." ;;
    (if is_nil (head (co_Decrements item)) then complain (item_key i "decrements") "At least one batch decrement is required."
     else complain_if (too_many maxConsumeDecrementsPerRow (co_Decrements item)) (item_key i "decrements") "Too many batches.") ;;
    decrements ← parse_decrements i (co_Decrements item);
    mret (Some (mkConsumeDecision rowID true (co_ProductID item) decrements)).

Fixpoint parse_consume_items (i : nat) (items : list consumeItem) : Form (list ConsumeDecision) :=
  match items with
  | [] => mret []
  | item :: items' =>
    d ← parse_consume_item i item;
    rest ← parse_consume_items (S i) items';
    mret (match d with Some d => d :: rest | None => rest end)
  end.

Definition parseConsumeDecisions (body : option (list consumeItem)) : Hd (list ConsumeDecision) :=
  items ← or_refuse body (bad_items "A decision for every proposed row is required.");
  refuse_if (too_many maxConsumeRows items) (bad_items "Too many rows.") ;;
  filled (parse_consume_items 0 items).

(** ConsumeHandler.Confirm *)
Definition ConfirmConsume : Handler := handle (fun r =>
  storageID ← storage_of r;
  user ← user_of r;
  jobID ← idFromPath r "job_id" "malformed job id";
  body ← decodeJSON read_consume r;
  decisions ← parseConsumeDecisions body;
  ids ← store (ConfirmConsumption storageID jobID (Some user.1) decisions) (fun e =>
    match e with
    | ErrValidation => ValidationFailed (field "items" "Every proposed row needs exactly one decision; an accepted row needs a product and at least one valid batch decrement.") (Some e)
    | ErrConflict => already_confirmed e
    | _ => FromStoreError e "job or referenced id not found in storage"
    end);
  mret (writeJSON StatusOK (Some (JObj [("batch_ids", JArr (map uuid_json ids))])))).

(** ** Cutouts: cutouts.go *)

Definition read_cutout (l : list (string * Json)) : option (string * string) :=
  row ← str_field "row_id" l; source ← str_field "source" l; Some (row, source).

Definition cutout_form (body : string * string) : Form unit :=
  complain_if (String.eqb body.1 "") "row_id" "Required." ;;
  complain_if (negb (String.eqb body.2 productImageCrop || String.eqb body.2 productImagePhoto)) "source" "Must be crop or photo.".

Definition bad_source (message : string) : Failure := ValidationFailed (field "source" message) None.
Definition no_photo : Failure := bad_source "This proposal has no photo to take a picture from.".

Definition world_now : Hd World := fun s => (inr (sv_World s), s).

(** IngestHandler.Cutout *)
Definition CutoutHandler : Handler := handle (fun r =>
  storageID ← storage_of r;
  jobID ← idFromPath r "job_id" "malformed job id";
  body ← decodeJSON read_cutout r;
  filled (cutout_form body) ;;
  model ← backgrounds_now;
  available model ;;
  job ← store (GetJob storageID jobID) (fun e => FromStoreError e "job not found in storage");
  refuse_if (negb (ingests (job_Kind job))) (NotFound "job is not an ingestion job") ;;
  refuse_if (negb (bool_decide (job_Status job = JobDone))) (Conflict "This proposal is not waiting for review." None) ;;
  row ← or_refuse (proposalRow (job_Payload job) body.1) (Internal ErrOther);
  box ← or_refuse row (ValidationFailed (field "row_id" "No such row in this proposal.") None);
  let crop := String.eqb body.2 productImageCrop in
  refuse_if (crop && is_nil box) (bad_source "This item has no crop. Use the whole photo instead.") ;;
  dir ← or_refuse photos_dir (Internal ErrOther);
  filename ← or_refuse (job_ImageFilename job) no_photo;
  read ← read_file dir filename;
  match read with
  | inl ErrNotExist => refuse no_photo
  | inl _ => refuse (Internal ErrOther)
  | inr photo =>
    match product_image (of_ascii photo) (if crop then box else None) with
    | Some (inl ErrEmptyCrop) => refuse (bad_source "This item's crop is empty. Use the whole photo instead.")
    | Some (inr picture) =>
      w ← world_now;
      match remove_background w (sr_Data picture) (sr_Format picture), cutouts_root with
      | inl ErrModelNotFound, _ => refuse (ModelUnavailable model.1)
      | inl ErrVision, _ => refuse (UpstreamFailed (Some ErrOther))
      | inr cutout, Some root =>
        id ← store newID Internal;
        saved ← on_disk (cutoutName id) (fun os => SaveJob uuid_String root jobID os (cutoutName id) (to_ascii (sr_Data cutout)));
        match saved with
        | inl _ => refuse (Internal ErrOther)
        | inr _ => mret (writeJSON StatusCreated (Some (JObj [("cutout_id", uuid_json id); ("url", JStr (cutoutURL storageID jobID id))])))
        end
      (* the route is not there without the directories *)
      | inr _, None => refuse (Internal ErrOther)
      end
    | _ => refuse (Internal ErrOther)
    end
  end).

(** IngestHandler.CutoutImage *)
Definition CutoutImage : Handler := handle (fun r =>
  storageID ← storage_of r;
  jobID ← idFromPath r "job_id" "malformed job id";
  cutoutID ← idFromPath r "cutout_id" "malformed cutout id";
  store (GetJob storageID jobID) (fun e => FromStoreError e "job not found in storage") ;;
  read ← readCutout jobID cutoutID;
  match read with
  | inl ErrNotExist => refuse (NotFound "cutout not found for job")
  | inl _ => refuse (Internal ErrOther)
  | inr data => mret (data_reply (picture_headers (ContentType FormatPNG) "private, max-age=3600") data)
  end).

(** ** The inbox: jobs.go *)

Definition inboxStatuses := [JobPending; JobDone; JobFailed].

(** JobHandler.Image *)
Definition JobImage : Handler := handle (fun r =>
  storageID ← storage_of r;
  id ← idFromPath r "id" "malformed job id";
  job ← store (GetJob storageID id) (fun e => FromStoreError e "job not found in storage");
  match job_ImageFilename job, photos_dir with
  | Some filename, Some dir =>
    read ← read_file dir filename;
    match read with
    | inl ErrNotExist => refuse (NotFound "job image missing on disk")
    | inl _ => refuse (Internal ErrOther)
    | inr data =>
      mret (data_reply (picture_headers (if HasSuffix filename ".png" then "image/png" else "image/jpeg") "private, max-age=3600") data)
    end
  | _, _ => refuse (NotFound "job has no image")
  end).

(** The model is asked about last. *)
Definition offersBackgroundRemoval (job : Job) : Hd bool :=
  if negb backgrounds || is_nil cutouts_root || negb (bool_decide (job_Status job = JobDone)) || is_nil (job_ImageFilename job) then mret false
  else if negb (ingests (job_Kind job)) then mret false
  else model ← backgrounds_now; mret (model : string * bool).2.

Definition has_image (job : Job) : Json := JBool (negb (is_nil (job_ImageFilename job))).

Definition jobResponse (id : uuid) (job : Job) (removal : bool) : Json :=
  JObj [("id", uuid_json id); ("kind", JStr (kind_text (job_Kind job))); ("status", JStr (status_text (job_Status job)));
        ("payload", match job_Payload job with NoPayload => JNull | p => payload_json p end); ("error", opt_json JStr (job_Error job));
        ("has_image", has_image job); ("background_removal", JBool removal);
        ("created_at", JTime (job_CreatedAt job)); ("updated_at", JTime (job_UpdatedAt job))].

Definition jobSummary (row : uuid * Job) : Json :=
  JObj [("id", uuid_json row.1); ("kind", JStr (kind_text (job_Kind row.2))); ("status", JStr (status_text (job_Status row.2)));
        ("item_count", opt_json JNum (countRows (job_Payload row.2))); ("has_image", has_image row.2); ("error", opt_json JStr (job_Error row.2));
        ("created_at", JTime (job_CreatedAt row.2)); ("updated_at", JTime (job_UpdatedAt row.2))].

(** JobHandler.Get *)
Definition JobGet : Handler := handle (fun r =>
  storageID ← storage_of r;
  id ← idFromPath r "id" "malformed job id";
  job ← store (GetJob storageID id) (fun e => FromStoreError e "job not found in storage");
  removal ← offersBackgroundRemoval job;
  mret (writeJSON StatusOK (Some (jobResponse id job removal)))).

Definition status_filter (raw : string) : option (list JobStatus) :=
  if String.eqb raw "" then Some inboxStatuses
  else mapM (fun part => status_named (TrimSpace (text part))) (split_from ","%char [] (bytes raw)).

(** JobHandler.List *)
Definition JobList : Handler := handle (fun r =>
  storageID ← storage_of r;
  page ← readPage r;
  statuses ← or_refuse (status_filter (query r "status")) (ValidationFailed (field "status" "Must be pending, done, failed or consumed.") None);
  jobs ← store (ListJobs storageID statuses (page_After page) (S (Z.to_nat (page_Limit page)))) (fun e => FromStoreError e "list jobs");
  let '(rows, next) := pageOf jobs (page_Limit page) fst in
  mret (writeJSON StatusOK (Some (collection (map jobSummary rows) next)))).

(** Best effort, once the row is gone. *)
Definition removeJobPhoto (image : option string) : Hd unit :=
  match image, photos_dir with
  | Some name, Some dir => on_disk name (fun os => Remove dir os name) ;; mret tt
  | _, _ => mret tt
  end.

(** JobHandler.Delete *)
Definition JobDelete : Handler := handle (fun r =>
  storageID ← storage_of r;
  id ← idFromPath r "id" "malformed job id";
  image ← store (DeleteJob storageID id) (fun e => FromStoreError e "job not found in storage");
  removeJobPhoto image ;;
  removeJobCutouts id ;;
  mret (writeJSON StatusNoContent None)).

Definition discardAllUpToParam := "up_to".

Fixpoint discard_files (jobs : list (uuid * option string)) : Hd unit :=
  match jobs with
  | [] => mret tt
  | job :: jobs' => removeJobPhoto job.2 ;; removeJobCutouts job.1 ;; discard_files jobs'
  end.

(** JobHandler.DiscardAll *)
Definition JobDiscardAll : Handler := handle (fun r =>
  storageID ← storage_of r;
  upTo ← or_refuse (ParseRFC3339 (query r discardAllUpToParam))
    (ValidationFailed (field discardAllUpToParam "Required. Must be an RFC 3339 timestamp, e.g. 2026-09-21T14:30:00Z.") (Some ErrOther));
  jobs ← store (DiscardJobs storageID upTo) (fun e => FromStoreError e "discard jobs");
  discard_files jobs ;;
  mret (writeJSON StatusOK (Some (JObj [("discarded", JNum (Z.of_nat (Datatypes.length jobs)))])))).

(** JobHandler.Reanalyze: the checks before the store's own only give the message. *)
Definition JobReanalyze : Handler := handle (fun r =>
  storageID ← storage_of r;
  id ← idFromPath r "id" "malformed job id";
  job ← store (GetJob storageID id) (fun e => FromStoreError e "job not found in storage");
  refuse_if (negb (ingests (job_Kind job) || consumes (job_Kind job)) || is_nil photos_dir) (Conflict "This proposal cannot be analysed again." None) ;;
  refuse_if (negb (bool_decide (job_Status job ∈ [JobDone; JobFailed])))
    (Conflict "This photo is still being analysed, or its proposal has already been applied." None) ;;
  refuse_if (is_nil (job_ImageFilename job)) (Conflict "This proposal has no photo left to analyse." None) ;;
  model ← analysis_now;
  available model ;;
  store (Reanalyze storageID id job) (fun e =>
    match e with
    | ErrConflict => conflictAs e "" "This photo is already being analysed again, or its proposal has been applied."
    | _ => FromStoreError e "job not found in storage"
    end) ;;
  removeJobCutouts id ;;
  mret (accepted id)).

(** ** Photos whose time is over: Service.SweepImages *)

Definition ImageRetention : Z := 30 * day.
Definition sweep_limit : nat := 500.

(** ORDER BY updated_at; rows of one instant in the order of their ids *)
Definition updated_before (a b : uuid * Job) : Prop :=
  job_UpdatedAt a.2 < job_UpdatedAt b.2 \/ (job_UpdatedAt a.2 = job_UpdatedAt b.2 /\ a.1 <= b.1).
#[local] Instance updated_before_dec : RelDecision updated_before.
Proof. intros a b. unfold updated_before. apply _. Defined.

Definition image_expired (cutoff : Z) (j : Job) : bool :=
  is_status JobConsumed j && negb (is_nil (job_ImageFilename j)) && (job_UpdatedAt j <? cutoff).

Definition ExpiredJobImages (cutoff : Z) (limit : nat) : Tx (list (uuid * string)) :=
  d ← get_db;
  mret (omap (fun kv : uuid * Job => pair kv.1 <$> job_ImageFilename kv.2)
    (take limit (merge_sort updated_before (map_to_list (jobs_where (fun kv => image_expired cutoff kv.2) d))))).

(** A photo that could not be removed keeps its row; the number of those that were, and
    the error of a row that could not be written, which ends the loop. *)
Fixpoint sweep_each (dir : Dir) (expired : list (uuid * string)) (removed : Z) : Hd (Z * option Err) :=
  match expired with
  | [] => mret (removed, None)
  | (id, name) :: expired' =>
    gone ← on_disk name (fun os => Remove dir os name);
    match gone with
    | inl _ => sweep_each dir expired' removed
    | inr _ =>
      cleared ← call (ClearJobImage id);
      match cleared with Fail e => mret (removed, Some e) | Ok _ => sweep_each dir expired' (removed + 1) end
    end
  end.

Definition SweepImages (dir : Dir) (now : Z) : Hd (Z * option Err) :=
  expired ← call (ExpiredJobImages (now - ImageRetention) sweep_limit);
  match expired with Fail e => mret (0, Some e) | Ok expired => sweep_each dir expired 0 end.

End review.

(** ** What reaches the store *)

(** A form whose complaints are never taken back. *)
Definition insists {A} (form : Form A) : Prop := forall fields, fields <> ∅ -> (form fields).2 <> ∅.

(** A form without a complaint went through parts without one. *)
Lemma clean_bind {A B} (f : A -> Form B) (m : Form A) b : (forall a, insists (f a)) ->
  mbind f m ∅ = (b, ∅) -> exists a, m ∅ = (a, ∅) /\ f a ∅ = (b, ∅).
Proof.
  intros Hf. unfold mbind, form_bind. destruct (m ∅) as [a fields]. intros E.
  destruct (decide (fields = ∅)) as [->|Hne]; [by exists a|]. specialize (Hf a fields Hne). by rewrite E in Hf.
Qed.

Lemma complain_insists key message : insists (complain key message).
Proof. intros fields _. apply insert_non_empty. Qed.
Lemma complain_if_insists b key message : insists (complain_if b key message).
Proof. destruct b; [apply complain_insists | by intros fields]. Qed.
Lemma ret_insists {A} (a : A) : insists (mret a : Form A).
Proof. by intros fields. Qed.
Lemma bind_insists {A B} (f : A -> Form B) (m : Form A) : insists m -> (forall a, insists (f a)) -> insists (mbind f m).
Proof. intros Hm Hf fields H. unfold mbind, form_bind. specialize (Hm fields H). destruct (m fields) as [a more]. by apply Hf. Qed.

Ltac insists := repeat first
  [ apply complain_insists | apply complain_if_insists | apply ret_insists | apply bind_insists; [|intros ?] | assumption
  | progress cbv beta zeta
  | match goal with |- insists (if ?b then _ else _) => destruct b | |- insists (match ?x with _ => _ end) => destruct x end ].

Lemma complained key message u : complain key message ∅ <> (u, ∅).
Proof. intros E. apply (f_equal snd) in E. revert E. apply insert_non_empty. Qed.
Lemma clean_if b key message u : complain_if b key message ∅ = (u, ∅) -> b = false.
Proof. destruct b; [|done]. intros E. by apply complained in E. Qed.

(** A decision that names its row, and if it accepts a product and one to fifty
    batches with one to a hundred thousand units each. *)
Definition in_range (dec : ConsumeBatchDecrement) : Prop := 1 <= dec_Quantity dec <= maxConsumeQuantity.
Definition consume_ok (d : ConsumeDecision) : Prop :=
  cd_RowID d <> ""%string /\
  if cd_Accept d
  then is_Some (cd_ProductID d) /\ (1 <= Datatypes.length (cd_Decrements d) <= 50)%nat /\ Forall in_range (cd_Decrements d)
  else cd_ProductID d = None /\ cd_Decrements d = [].

Lemma parse_decrements_insists i decs : insists (parse_decrements i decs).
Proof. induction decs as [|dec decs IH]; cbn [parse_decrements]; insists. Qed.

Lemma parse_decrements_clean i decs ds : parse_decrements i decs ∅ = (ds, ∅) -> ds = decs /\ Forall in_range decs.
Proof.
  revert ds. induction decs as [|dec decs IH]; intros ds E; cbn [parse_decrements] in E; [by injection E as <-|].
  destruct (_ || _) eqn:Eq.
  - exfalso. apply clean_bind in E as (u & E & _); [|intros _; apply parse_decrements_insists]. by apply complained in E.
  - apply clean_bind in E as (rest & E & E'); [|intros ?; insists]. injection E' as <-. apply IH in E as [-> Hd]. split; [done|].
    constructor; [|done]. apply orb_false_iff in Eq as [E1 E2]. rewrite Z.gtb_ltb in E2. apply Z.ltb_ge in E1, E2. by split.
Qed.

Lemma parse_consume_item_insists i item : insists (parse_consume_item i item).
Proof. unfold parse_consume_item. pose proof (parse_decrements_insists i (co_Decrements item)). insists. Qed.

Lemma parse_consume_item_clean i item d : parse_consume_item i item ∅ = (d, ∅) -> exists d', d = Some d' /\ consume_ok d'.
Proof.
  unfold parse_consume_item. pose proof (parse_decrements_insists i (co_Decrements item)) as Hins. intros E.
  apply clean_bind in E as (u & E0 & E); [|intros ?; insists]. apply clean_if in E0. apply String.eqb_neq in E0.
  destruct (String.eqb (co_Decision item) "reject"); [injection E as <-; eexists; split; [done|]; by split|].
  destruct (negb _).
  { exfalso. apply clean_bind in E as (v & E & _); [|intros ?; insists]. by apply complained in E. }
  apply clean_bind in E as (u1 & E1 & E); [|intros ?; insists]. apply clean_if in E1.
  apply clean_bind in E as (u2 & E2 & E); [|intros ?; insists].
  apply clean_bind in E as (ds & E3 & E); [|intros ?; insists]. injection E as <-.
  apply parse_decrements_clean in E3 as [-> Hd]. eexists. split; [done|]. split; [done|]. cbn [cd_Accept cd_ProductID cd_Decrements].
  split; [by destruct (co_ProductID item)|]. split; [|done].
  destruct (co_Decrements item) as [|dec decs]; cbn [head is_nil] in E2.
  - by apply complained in E2.
  - apply clean_if in E2. unfold too_many, maxConsumeDecrementsPerRow in E2. rewrite Z.gtb_ltb in E2. apply Z.ltb_ge in E2.
    cbn [Datatypes.length] in *. lia.
Qed.

Lemma parse_consume_items_insists i items : insists (parse_consume_items i items).
Proof.
  revert i. induction items as [|item items IH]; intros i; cbn [parse_consume_items]; [apply ret_insists|].
  apply bind_insists; [apply parse_consume_item_insists|]. intros d. apply bind_insists; [apply IH | intros ?; insists].
Qed.

Lemma parse_consume_items_clean i items ds : parse_consume_items i items ∅ = (ds, ∅) ->
  Datatypes.length ds = Datatypes.length items /\ Forall consume_ok ds.
Proof.
  revert i ds. induction items as [|item items IH]; intros i ds E; cbn [parse_consume_items] in E; [by injection E as <-|].
  apply clean_bind in E as (d & E0 & E); [|intros ?; apply bind_insists; [apply parse_consume_items_insists | intros ?; insists]].
  apply parse_consume_item_clean in E0 as (d' & -> & Hd).
  apply clean_bind in E as (rest & E1 & E); [|intros ?; insists]. injection E as <-. apply IH in E1 as [E1 Hr].
  split; [cbn; by rewrite E1 | by constructor].
Qed.

Lemma parseConsumeDecisions_ok body s ds s' : parseConsumeDecisions body s = (inr ds, s') ->
  s' = s /\ (Datatypes.length ds <= 500)%nat /\ Forall consume_ok ds.
Proof.
  unfold parseConsumeDecisions. intros H. apply hd_bind_inr in H as (items & s1 & H0 & H). apply or_refuse_inr in H0 as [_ ->].
  apply hd_bind_inr in H as (u & s1 & H0 & H). apply refuse_if_inr in H0 as [Hn ->]. unfold filled in H.
  destruct (parse_consume_items 0 items ∅) as [ds' fields] eqn:E. destruct (Nat.eqb_spec (size fields) 0) as [Hs|]; [|done].
  injection H as <- <-. apply map_size_empty_iff in Hs as ->. apply parse_consume_items_clean in E as [El Hd].
  split_and!; [done | | done]. unfold too_many, maxConsumeRows in Hn. rewrite Z.gtb_ltb in Hn. apply Z.ltb_ge in Hn. lia.
Qed.

Lemma consume_ok_int64 d : consume_ok d -> int64_decision d.
Proof.
  intros [_ Hd]. unfold int64_decision. destruct (cd_Accept d).
  - destruct Hd as (_ & _ & Hd). eapply Forall_impl; [exact Hd|]. intros dec H. unfold in_range, maxConsumeQuantity, is_int64 in *. lia.
  - destruct Hd as [_ ->]. constructor.
Qed.

Lemma lsum_nonneg {A} (f : A -> Z) l : (forall a, a ∈ l -> 0 <= f a) -> 0 <= lsum f l.
Proof.
  induction l as [|a l IH]; intros Hl; [done|]. pose proof (Hl a ltac:(by left)).
  assert (0 <= lsum f l) by (apply IH; intros b Hb; apply Hl; by right). cbn. lia.
Qed.

Lemma takes_nonneg p ds : Forall consume_ok ds -> 0 <= lsum (consumed_of p) ds.
Proof.
  intros Hd. apply lsum_nonneg. intros d Hin. rewrite Forall_forall in Hd. destruct (Hd d Hin) as [_ Hok]. unfold consumed_of.
  destruct (cd_Accept d); cbn [andb]; [|lia]. destruct (bool_decide _); [|lia]. apply lsum_nonneg. intros dec Hdec.
  destruct Hok as (_ & _ & Hr). rewrite Forall_forall in Hr. specialize (Hr dec Hdec). unfold in_range in Hr. lia.
Qed.

Lemma parseConsumeDecisions_quiet body s x s' : parseConsumeDecisions body s = (x, s') -> s' = s.
Proof.
  unfold parseConsumeDecisions. destruct body as [items|]; [|by intros [= _ <-]]. rewrite (hd_step _ _ s items s) by done.
  destruct (too_many _ _); [by intros [= _ <-]|]. rewrite (hd_step _ _ s tt s) by done. unfold filled.
  destruct (parse_consume_items 0 items ∅). destruct (_ =? _)%nat; by intros [= _ <-].
Qed.

Lemma decodeJSON_quiet {A} (read : list (string * Json) -> option A) r s x s' : decodeJSON read r s = (x, s') -> s' = s.
Proof. unfold decodeJSON. destruct (rq_Json r); [by intros [= _ <-] .. |]. destruct (read_struct _ _); by intros [= _ <-]. Qed.

Section confirm.
Context `{Deployment} `{Gallery} `{!Review}.

(** Over HTTP a confirmed consumption only takes stock.  A refused request changes no
    table; one that is answered has confirmed at most five hundred decisions, each of
    which names its row and, if it accepts, a product and one to fifty batches with one
    to a hundred thousand units each, and every product has lost exactly what they take
    and gained nothing (which the store alone would not refuse). *)
Theorem ConfirmConsume_takes_only r s (Hstart : consistent (wdb (sv_World s))) :
  let d := wdb (sv_World s) in
  let d' := wdb (sv_World (ConfirmConsume r s).2) in
  ((exists f, (ConfirmConsume r s).1 = WriteError f) /\ d' = d) \/
  exists st user jobID decisions ids,
    ctx_StorageID r = Some st /\ ctx_User r = Some user /\
    ConfirmConsumption st jobID (Some user.1) decisions (sv_World s) = (Ok ids, sv_World (ConfirmConsume r s).2) /\
    (ConfirmConsume r s).1 = writeJSON StatusOK (Some (JObj [("batch_ids", JArr (map uuid_json ids))])) /\
    (Datatypes.length decisions <= 500)%nat /\ Forall consume_ok decisions /\
    forall p, stock d' p = stock d p - lsum (consumed_of p) decisions /\ stock d' p <= stock d p.
Proof.
  intros d d'. subst d d'. unfold ConfirmConsume, handle, storage_of, user_of, idFromPath.
  assert (Refused : forall f, ((exists f', WriteError f = WriteError f') /\ wdb (sv_World s) = wdb (sv_World s))) by eauto.
  destruct (ctx_StorageID r) as [st|]; [|left; apply Refused]. rewrite (hd_step _ _ s st s) by done.
  destruct (ctx_User r) as [user|]; [|left; apply Refused]. rewrite (hd_step _ _ s user s) by done.
  destruct (uuid_Parse _) as [jobID|]; [|left; apply Refused]. rewrite (hd_step _ _ s jobID s) by done.
  destruct (decodeJSON read_consume r s) as [[f|body] s1] eqn:E; apply decodeJSON_quiet in E as Es; subst s1;
    [rewrite (hd_abort _ _ s f s) by done; left; apply Refused | rewrite (hd_step _ _ s body s) by done].
  destruct (parseConsumeDecisions body s) as [[f|decisions] s1] eqn:Ep.
  { apply parseConsumeDecisions_quiet in Ep as Es. subst s1. rewrite (hd_abort _ _ s f s) by done. left. apply Refused. }
  rewrite (hd_step _ _ s decisions s1) by done. apply parseConsumeDecisions_ok in Ep as (-> & Hlen & Hok).
  destruct (ConfirmConsumption st jobID (Some user.1) decisions (sv_World s)) as [[ids|e] w'] eqn:Ec.
  - right. erewrite (hd_step _ _ s ids) by (by apply store_ok_step). cbn [mret hd_ret fst snd]. exists st, user, jobID, decisions, ids.
    split; [done|]. split; [done|]. split; [done|]. split; [done|]. split; [done|]. split; [done|]. intros p.
    assert (Hint : Forall int64_decision decisions) by (eapply Forall_impl; [exact Hok | apply consume_ok_int64]).
    destruct (ConfirmConsumption_stock _ _ _ _ _ _ _ Hstart Hint Ec) as [Hs _]. split; [apply Hs|]. cbn. rewrite Hs.
    pose proof (takes_nonneg p decisions Hok). lia.
  - left. erewrite (hd_abort _ _ s) by (by apply store_fail_step). cbn [fst snd]. split; [by eexists|]. by apply inTx_fail in Ec.
Qed.

End confirm.
