(* ===== verification/Notify.v ===== *)
(** * The expiry digest: store/notifications.go, internal/notify, httpapi/notifications.go

    One row of settings per storage, the claim that makes a digest a once-a-day thing,
    the digest and its text, its delivery and the outcome that is recorded.  The URL
    library and the HTTP client are a [Transport]; a zone does not change its offset. *)

From Stdlib Require Import Ascii String.
From S2P Require Import Prelude Gamification Text Encoding Uploads Json Expiry Db RateLimit Http Forms Matching Sample Tree Progress ShelfLife Containers Batches Consumption Locations Products Barcodes Schedule StockApi Listings.

#[local] Open Scope string_scope.
#[local] Open Scope list_scope.
#[local] Open Scope Z_scope.

(** ** The settings *)

Definition NotificationSent := "sent".
Definition NotificationEmpty := "empty".

Definition kind_name (k : NotificationKind) : string :=
  match k with NotificationNtfy => "ntfy" | NotificationGotify => "gotify" | NotificationWebhook => "webhook" end.
Definition kind_of (s : string) : option NotificationKind :=
  if String.eqb s "ntfy" then Some NotificationNtfy else if String.eqb s "gotify" then Some NotificationGotify
  else if String.eqb s "webhook" then Some NotificationWebhook else None.

(** A token that is absent is kept, an empty one is cleared. *)
Record NotificationSettingsInput := mkNotifyInput {
  ni_Enabled : bool;
  ni_Kind : string;
  ni_URL : string;
  ni_Token : option string;
  ni_SendHour : Z;
  ni_IncludeSoon : bool;
}.

Definition NotificationSettingsFor (storageID : uuid) : Tx NotificationSettings :=
  d ← get_db;
  some_or (db_notifications d !! storageID) ErrNotFound.

(** nullif($5, '') *)
Definition nullif_empty (s : string) : option string := if String.eqb s "" then None else Some s.

Definition saved_settings (inp : NotificationSettingsInput) (kind : NotificationKind) (old : option NotificationSettings) (t : Z) : NotificationSettings :=
  mkNotify (ni_Enabled inp) kind (ni_URL inp)
    (match ni_Token inp with Some token => nullif_empty token | None => old ← old; ns_Token old end)
    (ni_SendHour inp) (ni_IncludeSoon inp) (old ← old; ns_LastRunAt old) (old ← old; ns_LastResult old) t.

Definition SaveNotificationSettings (storageID : uuid) (inp : NotificationSettingsInput) : Tx NotificationSettings :=
  require ((0 <=? ni_SendHour inp) && (ni_SendHour inp <=? 23)) ErrValidation ;;
  kind ← some_or (kind_of (ni_Kind inp)) ErrValidation;
  require (negb (String.eqb (ni_URL inp) "")) ErrValidation ;;
  d ← get_db;
  t ← now;
  require (bool_decide (storageID ∈ db_storages d)) ErrOther ;;
  let row := saved_settings inp kind (db_notifications d !! storageID) t in
  modify (set_notifications (<[storageID := row]>)) ;;
  mret row.

Definition due (now dayStart : Time) (ns : NotificationSettings) : bool :=
  ns_Enabled ns && (ns_SendHour ns =? Hour now) && match ns_LastRunAt ns with None => true | Some t => t <? t_unix dayStart end.

Definition set_last_run (t : Z) (ns : NotificationSettings) : NotificationSettings :=
  mkNotify (ns_Enabled ns) (ns_Kind ns) (ns_URL ns) (ns_Token ns) (ns_SendHour ns) (ns_IncludeSoon ns) (Some t) (ns_LastResult ns) (ns_UpdatedAt ns).
Definition set_last_result (result : string) (ns : NotificationSettings) : NotificationSettings :=
  mkNotify (ns_Enabled ns) (ns_Kind ns) (ns_URL ns) (ns_Token ns) (ns_SendHour ns) (ns_IncludeSoon ns) (ns_LastRunAt ns) (Some result) (ns_UpdatedAt ns).

(** One UPDATE ... RETURNING: what is due is marked as run and returned. *)
Definition ClaimDueNotifications (now dayStart : Time) : Tx (list (uuid * NotificationSettings)) :=
  d ← get_db;
  let claim ns := if due now dayStart ns then set_last_run (t_unix now) ns else ns in
  modify (set_notifications (fmap claim)) ;;
  mret (order_by_id (claim <$> base.filter (fun kv : uuid * NotificationSettings => due now dayStart kv.2 = true) (db_notifications d))).

Definition RecordNotificationResult (storageID : uuid) (result : string) : Tx unit :=
  modify (set_notifications (alter (set_last_result result) storageID)).

(** ** What is about to expire *)

Record DigestItem := mkDigestItem { di_ProductName : string; di_Quantity : Z; di_LocationPath : string; di_ExpirationDate : Z }.

(** ORDER BY expiration_date, product_name *)
Definition sooner (a b : DigestItem) : Prop :=
  di_ExpirationDate a < di_ExpirationDate b \/ (di_ExpirationDate a = di_ExpirationDate b /\ text_le (di_ProductName a) (di_ProductName b)).
#[export] Instance sooner_dec : RelDecision sooner.
Proof. intros a b. unfold sooner. apply _. Defined.
#[export] Instance sooner_total : Total sooner.
Proof.
  intros a b. unfold sooner. destruct (Z.lt_total (di_ExpirationDate a) (di_ExpirationDate b)) as [|[|]]; [auto | | auto].
  destruct (total text_le (di_ProductName a) (di_ProductName b)); auto.
Qed.
#[export] Instance sooner_trans : Transitive sooner.
Proof.
  intros a b c [H1|[E1 T1]] [H2|[E2 T2]]; unfold sooner; [lia..|]. right. split; [lia|]. by transitivity (di_ProductName b).
Qed.

Definition item_of (d : DB) (b : Batch) (p : Product) (date : Z) : DigestItem :=
  mkDigestItem (prod_Name p) (b_Quantity b) (Join (location_path d (b_LocationID b)) " > ") date.

Definition digest_item (d : DB) (storageID : uuid) (until : Time) (kv : uuid * Batch) : option DigestItem :=
  p ← product_in_storage d storageID (b_ProductID kv.2);
  date ← b_ExpirationDate kv.2;
  if (0 <? b_Quantity kv.2) && (date <? civil_day until)
  then Some (item_of d kv.2 p date) else None.

Definition ExpiringBatchesBefore (storageID : uuid) (until : Time) : Tx (list DigestItem) :=
  d ← get_db;
  mret (merge_sort sooner (omap (digest_item d storageID until) (order_by_id (db_batches d)))).

(** ** The digest: digest.go *)

Record Digest := mkDigest { dg_Expired : list DigestItem; dg_Critical : list DigestItem; dg_Soon : list DigestItem }.

(** The date of an item: midnight in UTC. *)
Definition item_date (item : DigestItem) : Time := mkTime (di_ExpirationDate item * day) 0.
Definition urgency (today : Time) (item : DigestItem) : Urgency := Classify (Some (item_date item)) today.

Definition Build (items : list DigestItem) (today : Time) (includeSoon : bool) : Digest :=
  foldl (fun d item =>
    match urgency today item with
    | UrgencyExpired => mkDigest (dg_Expired d ++ [item]) (dg_Critical d) (dg_Soon d)
    | UrgencyCritical => mkDigest (dg_Expired d) (dg_Critical d ++ [item]) (dg_Soon d)
    | UrgencySoon => if includeSoon then mkDigest (dg_Expired d) (dg_Critical d) (dg_Soon d ++ [item]) else d
    | _ => d
    end) (mkDigest [] [] []) items.

Definition count {A} (l : list A) : Z := Z.of_nat (Datatypes.length l).
Definition is_empty {A} (l : list A) : bool := is_nil (head l).
Definition Empty (d : Digest) : bool := is_empty (dg_Expired d) && is_empty (dg_Critical d) && is_empty (dg_Soon d).

Definition part {A} (l : list A) (s : string) : list string := if is_empty l then [] else [FormatInt (count l) +:+ s].
Definition within (days : Z) : string := " expiring within " +:+ FormatInt days +:+ " days".

Definition title_parts (d : Digest) : list string :=
  part (dg_Expired d) " expired" ++ part (dg_Critical d) (within CriticalWithinDays) ++ part (dg_Soon d) (within SoonWithinDays).
Definition Title (d : Digest) : string :=
  match title_parts d with
  | [] => "Inventory: nothing expiring"
  | parts => "Inventory: " +:+ Join parts ", "
  end.

Definition item_line (item : DigestItem) : string :=
  Join ((["- " +:+ di_ProductName item +:+ " x" +:+ FormatInt (di_Quantity item)]
    ++ (if String.eqb (di_LocationPath item) "" then [] else [di_LocationPath item])
    ++ [FormatDateOnly (di_ExpirationDate item)])%list) " — ".

Definition nl : ascii := byte_of 10.
Definition line_bytes (s : string) : list ascii := bytes s ++ [nl].

(** A section with its heading, after an empty line unless it is the first. *)
Definition section_text (heading : string) (items : list DigestItem) (b : list ascii) : list ascii :=
  match items with
  | [] => b
  | _ => b ++ (if is_empty b then [] else [nl]) ++ line_bytes heading ++ flat_map (fun i => line_bytes (item_line i)) items
  end.

(** strings.TrimRight(s, newline) *)
Fixpoint drop_newlines (l : list ascii) : list ascii :=
  match l with c :: l' => if Ascii.eqb c nl then drop_newlines l' else l | [] => [] end.

Definition within_heading (days : Z) : string := "Within " +:+ FormatInt days +:+ " days:".
Definition Message (d : Digest) : string :=
  text (reverse (drop_newlines (reverse
    (section_text (within_heading SoonWithinDays) (dg_Soon d)
      (section_text (within_heading CriticalWithinDays) (dg_Critical d)
        (section_text "Expired:" (dg_Expired d) [])))))).

Definition urgency_name (u : Urgency) : string :=
  match u with UrgencyExpired => "expired" | UrgencyCritical => "critical" | UrgencySoon => "soon" | UrgencyOK => "ok" | UrgencyNone => "none" end.
Definition payloadItem (u : Urgency) (i : DigestItem) : Json :=
  JObj [("name", JStr (di_ProductName i)); ("quantity", JNum (di_Quantity i)); ("location", JStr (di_LocationPath i));
        ("expiration_date", JStr (FormatDateOnly (di_ExpirationDate i))); ("urgency", JStr (urgency_name u))].
Definition digest_items (d : Digest) : list Json :=
  map (payloadItem UrgencyExpired) (dg_Expired d) ++ map (payloadItem UrgencyCritical) (dg_Critical d) ++ map (payloadItem UrgencySoon) (dg_Soon d).

(** ** Delivery: deliver.go *)

Inductive PostBody := PostText (s : string) | PostJson (j : Json).
Record PostRequest := mkPost { po_URL : string; po_Header : gmap string string; po_Body : PostBody }.

(** What the client answers: a status, no answer in time, or no connection. *)
Inductive PostAnswer := PostStatus (code : Z) | PostTimeout | PostUnreachable.

(** net/url, and the client; http.NewRequest fails on an address it cannot use. *)
Class Transport := {
  Url : Type;
  url_Parse : string -> option Url;
  url_Scheme : Url -> string;
  url_Host : Url -> string;
  url_String : Url -> string;
  (** JoinPath, and the address with one query parameter set *)
  url_JoinPath : Url -> string -> Url;
  url_Query : Url -> string -> string -> Url;
  request_ok : string -> bool;
  client_Do : World -> PostRequest -> PostAnswer;
}.

Inductive TargetError := ErrUnsupportedScheme | ErrNoHost | ErrBadURL.

Section notify.
Context `{Deployment} `{Transport}.

Definition ParseTarget (raw : string) : TargetError + Url :=
  let trimmed := TrimSpace raw in
  if String.eqb trimmed "" then inl ErrNoHost
  else
    match url_Parse trimmed with
    | None => inl ErrBadURL
    | Some u =>
      if negb (String.eqb (url_Scheme u) "http" || String.eqb (url_Scheme u) "https") then inl ErrUnsupportedScheme
      else if String.eqb (url_Host u) "" then inl ErrNoHost
      else inr u
    end.

Definition gotifyPriority : Z := 4.

Definition setBearer (token : string) (header : gmap string string) : gmap string string :=
  if String.eqb token "" then header else <["Authorization" := "Bearer " +:+ token]> header.

Definition jsonRequest (endpoint : string) (body : Json) (token : string) : option PostRequest :=
  if request_ok endpoint then Some (mkPost endpoint (setBearer token (<["Content-Type" := "application/json"]> ∅)) (PostJson body)) else None.

Definition buildRequest (ns : NotificationSettings) (target : Url) (title message : string) (items : list Json) : option PostRequest :=
  let token := default "" (ns_Token ns) in
  match ns_Kind ns with
  | NotificationNtfy =>
    if request_ok (url_String target) then
      Some (mkPost (url_String target) (setBearer token (<["Content-Type" := "text/plain; charset=utf-8"]> (<["Title" := title]> ∅))) (PostText message))
    else None
  | NotificationGotify =>
    let endpoint := url_JoinPath target "message" in
    let endpoint := if String.eqb token "" then endpoint else url_Query endpoint "token" token in
    jsonRequest (url_String endpoint) (JObj [("title", JStr title); ("message", JStr message); ("priority", JNum gotifyPriority)]) ""
  | NotificationWebhook =>
    jsonRequest (url_String target) (JObj [("title", JStr title); ("message", JStr message); ("items", JArr items)]) token
  end.

(** The summary of an answer that is no success. *)
Definition answer_summary (a : PostAnswer) : option string :=
  match a with
  | PostTimeout => Some "no answer within 10s"
  | PostUnreachable => Some "the target could not be reached"
  | PostStatus code =>
    if (200 <=? code) && (code <? 300) then None
    else if (300 <=? code) && (code <? 400) then Some ("the target redirected (HTTP " +:+ FormatInt code +:+ "); redirects are not followed")
    else Some ("the target answered HTTP " +:+ FormatInt code)
  end.

(** ** The service: service.go *)

(** A computation over the world that may post, each request for a storage. *)
Definition Run (A : Type) : Type := World -> A * list (uuid * PostRequest) * World.
#[global] Instance run_ret : MRet Run := fun A a w => (a, [], w).
#[global] Instance run_bind : MBind Run := fun A B f m w =>
  let '(a, posts, w1) := m w in let '(b, posts', w2) := f a w1 in (b, posts ++ posts', w2).

Definition run_store {A} (m : Tx A) : Run (Res A) := fun w => let '(r, w') := m w in (r, [], w').
Definition run_post (storageID : uuid) (p : PostRequest) : Run PostAnswer := fun w => (client_Do w p, [(storageID, p)], w).

(** The summary of a failed delivery; none is success. *)
Definition deliver (storageID : uuid) (ns : NotificationSettings) (title message : string) (items : list Json) : Run (option string) :=
  match ParseTarget (ns_URL ns) with
  | inl _ => mret (Some "the configured URL is not usable")
  | inr target =>
    match buildRequest ns target title message items with
    | None => mret (Some "the message could not be built")
    | Some p => answer ← run_post storageID p; mret (answer_summary answer)
    end
  end.

Definition startOfDay (t : Time) : Time := DateAt t 0.

(** A result that cannot be recorded is logged. *)
Definition record_result (storageID : uuid) (result : string) : Run unit := run_store (RecordNotificationResult storageID result) ;; mret tt.

Definition Deliver (storageID : uuid) (ns : NotificationSettings) (d : Digest) : Run (option string) := deliver storageID ns (Title d) (Message d) (digest_items d).

(** Whether a message was sent. *)
Definition runOne (claimed : uuid * NotificationSettings) (now : Time) : Run bool :=
  let '(storageID, ns) := claimed in
  items ← run_store (ExpiringBatchesBefore storageID (AddDays (startOfDay now) SoonWithinDays));
  match items with
  | Fail _ => record_result storageID "the inventory could not be read" ;; mret false
  | Ok items =>
    let digest := Build items now (ns_IncludeSoon ns) in
    if Empty digest then record_result storageID NotificationEmpty ;; mret false
    else
      failed ← Deliver storageID ns digest;
      match failed with
      | Some summary => record_result storageID summary ;; mret false
      | None => record_result storageID NotificationSent ;; mret true
      end
  end.

Fixpoint run_each (claimed : list (uuid * NotificationSettings)) (now : Time) (sent : Z) : Run Z :=
  match claimed with
  | [] => mret sent
  | c :: claimed' => ok ← runOne c now; run_each claimed' now (if ok : bool then sent + 1 else sent)
  end.

Definition RunDue (now : Time) : Run (Res Z) :=
  due ← run_store (ClaimDueNotifications now (startOfDay now));
  match due with
  | Fail e => mret (Fail e)
  | Ok due => sent ← run_each due now 0; mret (Ok sent)
  end.

Definition testTitle := "Inventory: test message".
Definition testMessage := "Notifications are set up correctly. This is a test — your daily expiry digest will look like this.".

(** The settings carry the storage they are of. *)
Definition SendTest (storageID : uuid) (ns : NotificationSettings) : Run (option string) :=
  failed ← deliver storageID ns testTitle testMessage [];
  record_result storageID (default NotificationSent failed) ;;
  mret failed.

(** ** The routes: httpapi/notifications.go *)

Definition defaultSendHour : Z := 8.

Definition settings_json (enabled : bool) (kind url : string) (hasToken : bool) (sendHour : Z) (includeSoon : bool) (lastRunAt : option Z) (lastResult : option string) : Json :=
  JObj [("enabled", JBool enabled); ("kind", JStr kind); ("url", JStr url); ("has_token", JBool hasToken); ("send_hour", JNum sendHour);
        ("include_soon", JBool includeSoon); ("last_run_at", opt_json JTime lastRunAt); ("last_result", opt_json JStr lastResult)].

Definition newNotificationSettingsResponse (ns : NotificationSettings) : Json :=
  settings_json (ns_Enabled ns) (kind_name (ns_Kind ns)) (ns_URL ns) (negb (String.eqb (default "" (ns_Token ns)) "")) (ns_SendHour ns)
    (ns_IncludeSoon ns) (ns_LastRunAt ns) (ns_LastResult ns).

Definition GetNotifications : Handler := handle (fun r =>
  storageID ← storage_of r;
  settings ← call (NotificationSettingsFor storageID);
  match settings with
  | Fail ErrNotFound => mret (writeJSON StatusOK (Some (settings_json false (kind_name NotificationNtfy) "" false defaultSendHour false None None)))
  | Fail e => refuse (Internal e)
  | Ok ns => mret (writeJSON StatusOK (Some (newNotificationSettingsResponse ns)))
  end).

Record SettingsBody := mkSettingsBody {
  sb_Enabled : bool;
  sb_Kind : string;
  sb_URL : string;
  sb_Token : option Json;
  sb_SendHour : option Z;
  sb_IncludeSoon : bool;
}.

Definition read_settings (l : list (string * Json)) : option SettingsBody :=
  enabled ← bool_field "enabled" l; kind ← str_field "kind" l; url ← str_field "url" l; token ← raw_field "token" l;
  hour ← int_ptr "send_hour" l; soon ← bool_field "include_soon" l;
  Some (mkSettingsBody enabled kind url token hour soon).

Definition bad_url (e : TargetError) : string :=
  match e with
  | ErrUnsupportedScheme => "Must start with http:// or https://."
  | _ => "Must be a full URL including a host, e.g. https://ntfy.example/inventory."
  end.

Definition settings_form (body : SettingsBody) : Form Z :=
  complain_if (is_nil (kind_of (sb_Kind body))) "kind"
    ("Must be " +:+ Quote "ntfy" +:+ ", " +:+ Quote "gotify" +:+ " or " +:+ Quote "webhook" +:+ ".") ;;
  (match ParseTarget (sb_URL body) with inl e => complain "url" (bad_url e) | inr _ => mret tt end) ;;
  let sendHour := default defaultSendHour (sb_SendHour body) in
  complain_if ((sendHour <? 0) || (23 <? sendHour)) "send_hour" "Must be an hour of the day, 0 to 23." ;;
  mret sendHour.

Definition parseNotificationToken (raw : option Json) : Failure + option string :=
  match raw with
  | None => inr None
  | Some raw =>
    match nullable_string raw with
    | None => inl (ValidationFailed (field "token" "Must be a string, or null to remove the stored token.") (Some ErrOther))
    | Some t => inr (Some (default "" t))
    end
  end.

(** The token's shape is judged before the other fields are. *)
Definition PutNotifications : Handler := handle (fun r =>
  storageID ← storage_of r;
  body ← decodeJSON read_settings r;
  token ← or_failure (parseNotificationToken (sb_Token body));
  sendHour ← filled (settings_form body);
  settings ← store (SaveNotificationSettings storageID
      (mkNotifyInput (sb_Enabled body) (sb_Kind body) (sb_URL body) token sendHour (sb_IncludeSoon body)))
    (fun e => FromStoreError e "storage not found");
  mret (writeJSON StatusOK (Some (newNotificationSettingsResponse settings)))).

(** What the run posts is not part of the server's state. *)
Definition run_hd {A} (m : Run A) : Hd A := fun s => let '(a, _, w) := m (sv_World s) in (inr a, with_world w s).

Definition testResponse (ok : bool) (result : string) : Json := JObj [("ok", JBool ok); ("result", JStr result)].

Definition TestNotifications : Handler := handle (fun r =>
  storageID ← storage_of r;
  settings ← store (NotificationSettingsFor storageID) (fun e => FromStoreError e "no notification settings for this storage");
  refuse_if (negb (ns_Enabled settings)) (Conflict "Turn notifications on and save before sending a test." None) ;;
  failed ← run_hd (SendTest storageID settings);
  mret (writeJSON StatusOK (Some (match failed with
    | Some summary => testResponse false summary
    | None => testResponse true NotificationSent
    end)))).

End notify.

(** * What the digest promises

    A storage gets at most one digest a day whatever is saved in between; the digest
    holds exactly the batches the dashboard's bands name; and what a reader sees of the
    settings does not depend on the token. *)

#[local] Open Scope list_scope.
#[local] Open Scope Z_scope.

(** ** Once a day *)

Section once.
Context `{Transport}.

Abbreviation Posts := (list (uuid * PostRequest)) (only parsing).

(** The requests made for a storage. *)
Definition posts_for (st : uuid) (posts : Posts) : nat := Datatypes.length (List.filter (fun p : uuid * PostRequest => p.1 =? st) posts).

(** The storage's settings say it was served on the day that begins at [midnight]. *)
Definition served (midnight : Z) (st : uuid) (w : World) : Prop :=
  exists ns t, db_notifications (wdb w) !! st = Some ns /\ ns_LastRunAt ns = Some t /\ midnight <= t.

(** What can happen on that day: a tick of the scheduler, a save of settings, and
    anything else that leaves the settings alone. *)
Inductive day_step (midnight : Z) : World -> Posts -> World -> Prop :=
| step_tick now w r posts w' :
    t_unix (startOfDay now) = midnight -> RunDue now w = (r, posts, w') -> day_step midnight w posts w'
| step_save st inp w r w' : SaveNotificationSettings st inp w = (r, w') -> day_step midnight w [] w'
| step_other w w' : db_notifications (wdb w') = db_notifications (wdb w) -> day_step midnight w [] w'.

Inductive day_steps (midnight : Z) : World -> Posts -> World -> Prop :=
| steps_none w : day_steps midnight w [] w
| steps_more w p1 w1 p2 w2 : day_step midnight w p1 w1 -> day_steps midnight w1 p2 w2 -> day_steps midnight w (p1 ++ p2) w2.

Lemma posts_for_app st p q : posts_for st (p ++ q) = (posts_for st p + posts_for st q)%nat.
Proof. unfold posts_for. by rewrite List.filter_app, length_app. Qed.

(** Recording an outcome keeps when the storages were served. *)
Definition same_runs (w w' : World) : Prop :=
  forall st, (ns_LastRunAt <$> db_notifications (wdb w') !! st) = (ns_LastRunAt <$> db_notifications (wdb w) !! st).

#[local] Instance same_runs_refl : Reflexive same_runs.
Proof. by intros w st. Qed.
#[local] Instance same_runs_trans : Transitive same_runs.
Proof. intros a b c H1 H2 st. by rewrite H2. Qed.

Lemma served_same m st w w' : same_runs w w' -> served m st w -> served m st w'.
Proof.
  intros Hs (ns & t & E & Et & Hm). specialize (Hs st). rewrite E in Hs. cbn in Hs.
  destruct (db_notifications (wdb w') !! st) as [ns'|] eqn:E'; [|done]. cbn in Hs. simplify_eq. exists ns', t. by rewrite Hs.
Qed.

Lemma record_result_run st result w : exists w', record_result st result w = (tt, [], w') /\ same_runs w w'.
Proof.
  eexists. split; [reflexivity|]. intros st'. cbn. destruct (decide (st = st')) as [<-|].
  - rewrite lookup_alter, decide_True by done. by destruct (db_notifications (wdb w) !! st).
  - by rewrite lookup_alter_ne.
Qed.

Lemma run_bind_eq {A B} (m : Run A) (f : A -> Run B) w a p1 w1 b p2 w2 :
  m w = (a, p1, w1) -> f a w1 = (b, p2, w2) -> (m ≫= f) w = (b, p1 ++ p2, w2).
Proof. intros E1 E2. unfold mbind, run_bind. by rewrite E1, E2. Qed.

Lemma surjective_triple {A B C} (x : A * B * C) : x = (x.1.1, x.1.2, x.2).
Proof. by destruct x as [[]]. Qed.

Lemma deliver_run st ns title message items w :
  exists answer posts, deliver st ns title message items w = (answer, posts, w) /\ (Datatypes.length posts <= 1)%nat /\ forall p, p ∈ posts -> p.1 = st.
Proof.
  unfold deliver. destruct (ParseTarget (ns_URL ns)) as [e|u]; [|destruct (buildRequest ns u title message items) as [p|]].
  1, 3: eexists _, []; split; [reflexivity|]; split; [cbn; lia|]; by intros p ?%elem_of_nil.
  eexists _, [(st, p)]. split; [reflexivity|]. split; [cbn; lia|]. by intros q ->%list_elem_of_singleton.
Qed.

Lemma posts_for_other st posts (a : uuid) : (forall p, p ∈ posts -> p.1 = a) -> st ≠ a -> posts_for st posts = 0%nat.
Proof.
  intros Hp Hne. unfold posts_for. induction posts as [|p posts IH]; [done|]. cbn.
  rewrite (Hp p) by set_solver. destruct (Z.eqb_spec a st); [congruence|]. apply IH. set_solver.
Qed.

Lemma posts_for_length st posts : (posts_for st posts <= Datatypes.length posts)%nat.
Proof. apply List.filter_length_le. Qed.

Lemma runOne_run c now w :
  exists ok posts w', runOne c now w = (ok, posts, w') /\ (Datatypes.length posts <= 1)%nat /\ (forall p, p ∈ posts -> p.1 = c.1) /\ same_runs w w'.
Proof.
  destruct c as [st ns]. set (items := merge_sort sooner (omap (digest_item (wdb w) st (AddDays (startOfDay now) SoonWithinDays)) (order_by_id (db_batches (wdb w))))).
  assert (Ei : run_store (ExpiringBatchesBefore st (AddDays (startOfDay now) SoonWithinDays)) w = (Ok items, [], w)) by reflexivity.
  assert (Hrec : forall result (ok : bool), exists w', (record_result st result ;; mret ok : Run bool) w = (ok, [], w') /\ same_runs w w').
  { intros result ok. destruct (record_result_run st result w) as (w' & E & Hs). exists w'. split; [|done]. exact (run_bind_eq _ _ _ _ _ _ ok [] w' E eq_refl). }
  unfold runOne. rewrite (run_bind_eq _ _ _ _ _ _ _ _ _ Ei (surjective_triple _)). cbv beta iota zeta. cbn [app].
  destruct (Empty _).
  - destruct (Hrec NotificationEmpty false) as (w' & -> & Hs). exists false, [], w'.
    split; [done|]. split; [cbn; lia|]. split; [by intros p ?%elem_of_nil | done].
  - set (dg := Build items now (ns_IncludeSoon ns)).
    destruct (deliver_run st ns (Title dg) (Message dg) (digest_items dg) w) as (answer & posts & E & Hl & Hp).
    destruct (Hrec (default NotificationSent answer) (is_nil answer)) as (w' & Er & Hs).
    exists (is_nil answer), posts, w'. split; [|by split]. 
    rewrite (run_bind_eq (Deliver st ns dg) _ w answer posts w (is_nil answer) [] w' E).
    + cbn. by rewrite app_nil_r.
    + destruct answer; exact Er.
Qed.

Lemma run_each_run cs now sent w st :
  NoDup cs.*1 ->
  exists n posts w', run_each cs now sent w = (n, posts, w') /\ same_runs w w' /\
    (posts_for st posts <= 1)%nat /\ (st ∉ cs.*1 -> posts_for st posts = 0%nat).
Proof.
  revert sent w. induction cs as [|c cs IH]; intros sent w Hn.
  { exists sent, [], w. split; [done|]. split; [done|]. split; [cbn; lia | done]. }
  apply NoDup_cons in Hn as [Hc Hn]. cbn. unfold mbind, run_bind.
  destruct (runOne_run c now w) as (ok & posts & w1 & -> & Hl & Hp & Hs1).
  destruct (IH (if ok then sent + 1 else sent) w1 Hn) as (n & posts' & w2 & -> & Hs2 & H1 & H0).
  exists n, (posts ++ posts'), w2. split; [done|]. split; [by etransitivity|]. rewrite posts_for_app. split.
  - destruct (decide (st = c.1)) as [->|Hne].
    + rewrite H0 by done. pose proof (posts_for_length c.1 posts). lia.
    + by rewrite (posts_for_other _ _ _ Hp Hne).
  - intros Hin. apply not_elem_of_cons in Hin as [Hne Hin]. rewrite H0 by done. by rewrite (posts_for_other _ _ _ Hp Hne).
Qed.

(** A tick: no more than one request for a storage, none once it was served, and it
    counts as served afterwards when there was one. *)
Lemma tick_once now w r posts w' st :
  RunDue now w = (r, posts, w') ->
  (posts_for st posts <= 1)%nat /\ (served (t_unix (startOfDay now)) st w -> posts_for st posts = 0%nat /\ served (t_unix (startOfDay now)) st w') /\
  (posts_for st posts ≠ 0%nat -> served (t_unix (startOfDay now)) st w').
Proof.
  set (m := db_notifications (wdb w)). set (claim := fun ns => if due now (startOfDay now) ns then set_last_run (t_unix now) ns else ns).
  set (cs := order_by_id (claim <$> base.filter (fun kv : uuid * NotificationSettings => due now (startOfDay now) kv.2 = true) m)).
  set (w1 := mkWorld (set_notifications (fmap claim) (wdb w)) (wids w) (wnow w) (wclock w)).
  assert (Ec : run_store (ClaimDueNotifications now (startOfDay now)) w = (Ok cs, [], w1)) by reflexivity.
  assert (Hcs : forall s, s ∈ cs.*1 <-> exists ns, m !! s = Some ns /\ due now (startOfDay now) ns = true).
  { intros s. rewrite list_elem_of_fmap. split.
    - intros ([i ns] & -> & Hi). apply elem_of_order_by_id in Hi. rewrite lookup_fmap, fmap_Some in Hi.
      destruct Hi as (ns0 & Hf & ->). apply map_lookup_filter_Some in Hf as [? ?]. eauto.
    - intros (ns & Hm & Hd). exists (s, claim ns). split; [done|]. apply elem_of_order_by_id. rewrite lookup_fmap, fmap_Some.
      exists ns. split; [|done]. by apply map_lookup_filter_Some. }
  assert (Hmid : t_unix (startOfDay now) <= t_unix now).
  { unfold startOfDay, DateAt, civil_day. cbn [t_unix]. pose proof day_pos. pose proof (Z.mul_div_le (t_unix now + t_zone now) day). lia. }
  destruct (run_each_run cs now 0 w1 st (NoDup_order_by_id _)) as (n & posts' & w2 & Er & Hs & H1 & H0).
  unfold RunDue. rewrite (run_bind_eq _ _ _ _ _ _ _ _ _ Ec (surjective_triple _)). cbn [app fst snd].
  rewrite (run_bind_eq (run_each cs now 0) (fun sent => mret (Ok sent)) w1 n posts' w2 (Ok n) [] w2 Er eq_refl). cbn [app fst snd].
  intros [= <- <- <-]. rewrite app_nil_r. split; [done|].
  assert (Hrow : db_notifications (wdb w1) !! st = claim <$> m !! st) by (unfold w1; cbn; by rewrite lookup_fmap).
  split.
  - intros (ns & t & E & Et & Ht).
    assert (Hd : due now (startOfDay now) ns = false).
    { unfold due. rewrite Et. apply andb_false_iff. right. apply Z.ltb_ge. done. }
    split.
    + apply H0. rewrite Hcs. intros (ns' & E' & Hd'). unfold m in E'. congruence.
    + apply (served_same _ _ w1 _ Hs). exists ns, t. rewrite Hrow. unfold m. rewrite E. unfold claim. cbn. rewrite Hd. done.
  - intros Hp. apply (served_same _ _ w1 _ Hs).
    assert (Hin : st ∈ cs.*1) by (destruct (decide (st ∈ cs.*1)); [done | exfalso; auto]).
    apply Hcs in Hin as (ns & E & Hd). exists (set_last_run (t_unix now) ns), (t_unix now). rewrite Hrow, E. unfold claim. cbn. by rewrite Hd.
Qed.

Lemma save_served st inp w r w' m s : SaveNotificationSettings st inp w = (r, w') -> served m s w -> served m s w'.
Proof.
  intros Hsave Hserved. unfold SaveNotificationSettings in Hsave.
  assert (K : w' = w \/ exists kind t, wdb w' = set_notifications (<[st := saved_settings inp kind (db_notifications (wdb w) !! st) t]>) (wdb w)).
  { unfold require, some_or in Hsave.
    destruct (_ && _); [|injection Hsave as <- <-; by left]. destruct (kind_of (ni_Kind inp)) as [kind|]; [|injection Hsave as <- <-; by left].
    destruct (negb _); [|injection Hsave as <- <-; by left].
    unfold mbind, tx_bind, mret, tx_ret, get_db, now in Hsave.
    destruct (bool_decide _); [|injection Hsave as <- <-; by left]. injection Hsave as <- <-. right. exists kind, (wnow w). done. }
  destruct K as [->|(kind & t & K)]; [done|]. destruct Hserved as (ns & t0 & E & Et & Ht). unfold served. rewrite K. cbn.
  destruct (decide (st = s)) as [->|].
  - rewrite lookup_insert, decide_True by done. eexists _, t0. split; [done|]. split; [|done]. rewrite E. done.
  - rewrite lookup_insert_ne by done. eauto.
Qed.

Lemma day_step_once m w posts w' st : day_step m w posts w' ->
  (posts_for st posts <= 1)%nat /\ (served m st w -> posts_for st posts = 0%nat /\ served m st w') /\ (posts_for st posts ≠ 0%nat -> served m st w').
Proof.
  destruct 1 as [now w r posts w' <- Hr | s inp w r w' Hs | w w' E].
  - by eapply tick_once.
  - split; [cbn; lia|]. split; [|by intros []]. intros ?. split; [done|]. by eapply save_served.
  - split; [cbn; lia|]. split; [|by intros []]. intros Hm. split; [done|]. unfold served in *. by rewrite E.
Qed.

Lemma served_silent m w posts w' st : day_steps m w posts w' -> served m st w -> posts_for st posts = 0%nat.
Proof.
  induction 1 as [|w p1 w1 p2 w2 H1 _ IH]; [done|]. intros Hs. destruct (day_step_once _ _ _ _ st H1) as (_ & Hn & _).
  rewrite posts_for_app. destruct (Hn Hs) as [-> Hs1]. by rewrite IH.
Qed.

(** C12: however often the scheduler ticks on one day of its own zone and whatever
    settings are saved in between, a storage is sent at most one digest that day, and
    none when its settings say it was served already. *)
Theorem at_most_one_digest_a_day m w posts w' st :
  day_steps m w posts w' -> (posts_for st posts <= 1)%nat /\ (served m st w -> posts_for st posts = 0%nat).
Proof.
  intros Hd. split; [|by eapply served_silent].
  induction Hd as [|w p1 w1 p2 w2 H1 Hd IH]; [cbn; lia|].
  destruct (day_step_once _ _ _ _ st H1) as (Hle & _ & Hsv). rewrite posts_for_app.
  destruct (decide (posts_for st p1 = 0%nat)) as [->|Hne]; [done|]. rewrite (served_silent _ _ _ _ _ Hd (Hsv Hne)). lia.
Qed.

End once.

(** A scheduler that serves Home at eight in the morning of day 2, and once more. *)
#[local] Instance plain_transport : Transport := {|
  Url := string;
  url_Parse s := Some s;
  url_Scheme _ := "https"%string;
  url_Host _ := "relay"%string;
  url_String u := u;
  url_JoinPath u p := u;
  url_Query u k v := u;
  request_ok _ := true;
  client_Do _ _ := PostStatus 200;
|}.

Definition morning : Time := mkTime (2 * day + 8 * hour) 0.
Definition notified : World :=
  with_db (set_notifications (fun _ => {[1 := mkNotify true NotificationNtfy "https://relay/home" None 8 false None None 0]})
    (set_batches (fun _ => {[40 := mkBatch 30 20 3 (Some 3) "user" 0 None]}) sample_db)) sample_world.

Lemma at_most_one_digest_a_day_witness :
  let x1 := RunDue morning notified in
  let x2 := RunDue (AddHours morning 0) x1.2 in
  posts_for 1 x1.1.2 = 1%nat /\ (posts_for 1 (x1.1.2 ++ x2.1.2 ++ []) <= 1)%nat.
Proof.
  intros x1 x2. split; [vm_compute; reflexivity|].
  apply (at_most_one_digest_a_day (2 * day) notified _ x2.2 1).
  eapply (steps_more _ _ x1.1.2 x1.2); [eapply (step_tick _ morning _ x1.1.1); [vm_compute; reflexivity | apply surjective_triple]|].
  eapply (steps_more _ _ x2.1.2 x2.2); [eapply (step_tick _ (AddHours morning 0) _ x2.1.1); [vm_compute; reflexivity | apply surjective_triple]|].
  apply steps_none.
Defined.

(** ** The digest and the dashboard *)

(** A batch with stock and a date, as a line of a digest: no cut-off. *)
Definition stocked_item (d : DB) (st : uuid) (kv : uuid * Batch) : option DigestItem :=
  p ← product_in_storage d st (b_ProductID kv.2);
  date ← b_ExpirationDate kv.2;
  if 0 <? b_Quantity kv.2
  then Some (item_of d kv.2 p date) else None.

Definition in_band (today : Time) (u : Urgency) (i : DigestItem) : Prop := urgency today i = u.
#[local] Instance in_band_dec today u i : Decision (in_band today u i).
Proof. unfold in_band. apply _. Defined.

Lemma filter_band_cons today u i l :
  base.filter (in_band today u) (i :: l) = (if Urgency_eq_dec (urgency today i) u then [i] else []) ++ base.filter (in_band today u) l.
Proof.
  destruct (Urgency_eq_dec (urgency today i) u) as [E|E]; [by rewrite filter_cons_True | by rewrite filter_cons_False].
Qed.

Lemma Build_bands items today soon :
  Build items today soon = mkDigest (base.filter (in_band today UrgencyExpired) items) (base.filter (in_band today UrgencyCritical) items)
    (if soon then base.filter (in_band today UrgencySoon) items else []).
Proof.
  unfold Build.
  assert (G : forall a b c l, foldl (fun d item =>
      match urgency today item with
      | UrgencyExpired => mkDigest (dg_Expired d ++ [item]) (dg_Critical d) (dg_Soon d)
      | UrgencyCritical => mkDigest (dg_Expired d) (dg_Critical d ++ [item]) (dg_Soon d)
      | UrgencySoon => if soon then mkDigest (dg_Expired d) (dg_Critical d) (dg_Soon d ++ [item]) else d
      | _ => d
      end) (mkDigest a b c) l =
    mkDigest (a ++ base.filter (in_band today UrgencyExpired) l) (b ++ base.filter (in_band today UrgencyCritical) l)
      (c ++ if soon then base.filter (in_band today UrgencySoon) l else [])).
  { intros a b c l. revert a b c. induction l as [|i l IH]; intros a b c; cbn [foldl].
    - cbn. rewrite !app_nil_r. destruct soon; by rewrite ?app_nil_r.
    - rewrite !filter_band_cons. destruct (urgency today i); cbn [dg_Expired dg_Critical dg_Soon];
        try destruct soon; rewrite IH; cbn; by rewrite <- ?app_assoc. }
  by rewrite G.
Qed.

Lemma until_day now : civil_day (AddDays (startOfDay now) SoonWithinDays) = civil_day now + 14.
Proof.
  unfold startOfDay, DateAt, AddDays, civil_day, SoonWithinDays. cbn [t_unix t_zone]. pose proof day_pos.
  set (q := (t_unix now + t_zone now) / day). replace (q * day + 0 * hour - t_zone now + 14 * day + t_zone now) with ((q + 14) * day) by lia.
  apply Z.div_mul. lia.
Qed.

(** The query's cut-off is where the last band ends: it drops nothing of a band. *)
Lemma cut_keeps_bands d st now u (rows : list (uuid * Batch)) :
  u ∈ [UrgencyExpired; UrgencyCritical; UrgencySoon] ->
  base.filter (in_band now u) (omap (digest_item d st (AddDays (startOfDay now) SoonWithinDays)) rows) =
  base.filter (in_band now u) (omap (stocked_item d st) rows).
Proof.
  intros Hu. induction rows as [|kv rows IH]; [done|]. cbn [omap list_omap].
  unfold digest_item at 1, stocked_item at 1. rewrite until_day.
  destruct (product_in_storage d st (b_ProductID kv.2)) as [p|]; cbn [mbind option_bind]; [|done].
  destruct (b_ExpirationDate kv.2) as [date|]; cbn [mbind option_bind]; [|done].
  destruct (0 <? b_Quantity kv.2); cbn [andb]; [|done]. destruct (Z.ltb_spec date (civil_day now + 14)) as [Hlt|Hge].
  - by rewrite !filter_band_cons, IH.
  - rewrite filter_cons_False; [done|]. unfold in_band, urgency. intros Hc.
    pose proof (Classify_bands (item_date (item_of d kv.2 p date)) now) as (_ & _ & _ & Hok).
    assert (Hday : civil_day (item_date (item_of d kv.2 p date)) = date).
    { unfold item_date, civil_day. cbn [t_unix t_zone di_ExpirationDate item_of]. rewrite Z.add_0_r. apply Z.div_mul. pose proof day_pos. lia. }
    rewrite Hday in Hok. apply proj2 in Hok. rewrite Hok in Hc by lia. subst. set_solver.
Qed.

(** C13: the digest of a storage and the dashboard agree: each of its sections holds
    exactly the batches with stock whose date the one classification puts in that band
    on that day, nearest date first, and it is empty only when there are none. *)
Theorem digest_agrees_with_classification w st now includeSoon :
  let read := ExpiringBatchesBefore st (AddDays (startOfDay now) SoonWithinDays) w in
  let d := wdb w in
  exists items, read = (Ok items, w) /\
  let digest := Build items now includeSoon in
  let band u := base.filter (in_band now u) (omap (stocked_item d st) (order_by_id (db_batches d))) in
  (dg_Expired digest ≡ₚ band UrgencyExpired) /\ (dg_Critical digest ≡ₚ band UrgencyCritical) /\
  (dg_Soon digest ≡ₚ if includeSoon then band UrgencySoon else []) /\
  Forall (StronglySorted sooner) [dg_Expired digest; dg_Critical digest; dg_Soon digest] /\
  (Empty digest = true <-> band UrgencyExpired = [] /\ band UrgencyCritical = [] /\ (includeSoon = true -> band UrgencySoon = [])).
Proof.
  intros read d. eexists. split; [reflexivity|]. set (items := merge_sort sooner _). intros digest band. unfold digest. rewrite Build_bands. cbn [dg_Expired dg_Critical dg_Soon].
  assert (Hb : forall u, u ∈ [UrgencyExpired; UrgencyCritical; UrgencySoon] -> base.filter (in_band now u) items ≡ₚ band u).
  { intros u Hu. unfold items, band. rewrite merge_sort_Permutation. by rewrite cut_keeps_bands. }
  assert (Hs : forall u, StronglySorted sooner (base.filter (in_band now u) items)).
  { intros u. apply StronglySorted_filter, StronglySorted_merge_sort; apply _. }
  split; [apply Hb; set_solver|]. split; [apply Hb; set_solver|]. split; [destruct includeSoon; [apply Hb; set_solver | done]|].
  split; [repeat constructor; try apply Hs; destruct includeSoon; [apply Hs | constructor]|].
  assert (He : forall (l k : list DigestItem), l ≡ₚ k -> is_empty l = true <-> k = []).
  { intros l k Hp. destruct l as [|x l]; cbn.
    - apply Permutation_nil_l in Hp. done.
    - split; [done|]. intros ->. symmetry in Hp. by apply Permutation_nil_cons in Hp. }
  unfold Empty. cbn [dg_Expired dg_Critical dg_Soon]. rewrite !andb_true_iff.
  rewrite (He _ (band UrgencyExpired)) by (apply Hb; set_solver). rewrite (He _ (band UrgencyCritical)) by (apply Hb; set_solver).
  destruct includeSoon; [rewrite (He _ (band UrgencySoon)) by (apply Hb; set_solver)|]; cbn; intuition congruence.
Qed.
