(* ===== verification/Export.v ===== *)
(** * The export of a storage: store/export.go, httpapi/export.go

    Every row of a household in one document, with the pictures its products refer to.
    The read is one snapshot.  The bytes of the document (json.MarshalIndent) and of the
    archive (archive/zip) are a [Packer]. *)

From Stdlib Require Import Ascii String.
From S2P Require Import Prelude Text Encoding Uploads Gamification Images Expiry Db Tree Progress ShelfLife Containers Batches Consumption Barcodes Locations Products Matching Shopping Listings Reorder Json RateLimit Net Http Forms StockApi TreeApi Pictures ProductsApi InventoryApi.

#[local] Open Scope string_scope.
#[local] Open Scope list_scope.
#[local] Open Scope Z_scope.

(** ** store.ExportStorage *)

(** ORDER BY created_at, id *)
Definition by_age {V} (created : V -> Z) (a b : uuid * V) : Prop := created a.2 < created b.2 \/ (created a.2 = created b.2 /\ a.1 <= b.1).
#[export] Instance by_age_dec {V} (created : V -> Z) : RelDecision (by_age created).
Proof. intros a b. unfold by_age. apply _. Defined.

Record ExportProduct := mkExportProduct { ep_ID : uuid; ep_Row : Product; ep_CurrentStock : Z }.
Record ExportLog := mkExportLog { el_Row : LogRow; el_CreatedBy : option string }.
Record ExportShoppingList := mkExportList {
  es_ID : uuid;
  es_Row : ShoppingList;
  es_CreatedBy : option string;
  es_Items : list (uuid * ShoppingListItem);
}.

Record StorageExport := mkStorageExport {
  ex_ID : uuid;
  ex_Storage : Storage;
  ex_Locations : list (uuid * Location);
  ex_Categories : list (uuid * Category);
  ex_Products : list ExportProduct;
  ex_Batches : list (uuid * Batch);
  ex_Logs : list ExportLog;
  ex_ShoppingLists : list ExportShoppingList;
}.

Definition display_name_of (d : DB) (user : option uuid) : option string := u ← user; usr_DisplayName <$> db_accounts d !! u.

Definition exportProducts (d : DB) (storageID : uuid) : list ExportProduct :=
  map (fun kv : uuid * Product => mkExportProduct kv.1 kv.2 (stock d kv.1)) (merge_sort (by_age prod_CreatedAt) (products_of d storageID)).

Definition of_product (d : DB) (storageID productID : uuid) : bool := negb (is_nil (product_in_storage d storageID productID)).

Definition exportBatches (d : DB) (storageID : uuid) : list (uuid * Batch) :=
  merge_sort (by_age b_CreatedAt) (List.filter (fun kv : uuid * Batch => of_product d storageID (b_ProductID kv.2)) (order_by_id (db_batches d))).

(** ORDER BY timestamp, id *)
Definition earlier_log (a b : LogRow) : Prop :=
  log_Timestamp a < log_Timestamp b \/ (log_Timestamp a = log_Timestamp b /\ log_ID a <= log_ID b).
#[export] Instance earlier_log_dec : RelDecision earlier_log.
Proof. intros a b. unfold earlier_log. apply _. Defined.

Definition exportLogs (d : DB) (storageID : uuid) : list ExportLog :=
  map (fun l => mkExportLog l (display_name_of d (log_CreatedBy l)))
    (merge_sort earlier_log (List.filter (fun l => of_product d storageID (log_ProductID l)) (db_logs d))).

Definition items_of_list (d : DB) (list_ : uuid) : list (uuid * ShoppingListItem) :=
  merge_sort (by_age item_CreatedAt) (List.filter (fun kv : uuid * ShoppingListItem => item_ListID kv.2 =? list_) (order_by_id (db_items d))).

Definition exportShoppingLists (d : DB) (storageID : uuid) : list ExportShoppingList :=
  map (fun kv : uuid * ShoppingList => mkExportList kv.1 kv.2 (display_name_of d (list_CreatedBy kv.2)) (items_of_list d kv.1))
    (merge_sort (by_age list_CreatedAt) (List.filter (fun kv : uuid * ShoppingList => list_StorageID kv.2 =? storageID) (order_by_id (db_lists d)))).

Definition exported (d : DB) (storageID : uuid) (row : Storage) : StorageExport :=
  mkStorageExport storageID row
    (merge_sort (by_age loc_CreatedAt) (List.filter (fun kv : uuid * Location => loc_StorageID kv.2 =? storageID) (order_by_id (db_locations d))))
    (merge_sort (by_age cat_CreatedAt) (List.filter (fun kv : uuid * Category => cat_StorageID kv.2 =? storageID) (order_by_id (db_categories d))))
    (exportProducts d storageID) (exportBatches d storageID) (exportLogs d storageID) (exportShoppingLists d storageID).

Definition ExportStorage (storageID : uuid) : Tx StorageExport :=
  d ← get_db;
  row ← some_or (db_storage_rows d !! storageID) ErrNotFound;
  mret (exported d storageID row).

(** ** The name of the file *)

Definition slug_char (c : ascii) : bool := in_range 97 122 c || is_digit c.

(** One dash for what stands between two runs of letters and digits; none in front. *)
Fixpoint slug_from (started dashed : bool) (l : list ascii) : list ascii :=
  match l with
  | [] => []
  | c :: l' =>
    if slug_char c then c :: slug_from true false l'
    else if negb dashed && started then hyphen :: slug_from started true l'
    else slug_from started dashed l'
  end.

(** strings.Trim(s, dash) *)
Fixpoint drop_dashes (l : list ascii) : list ascii :=
  match l with c :: l' => if Ascii.eqb c hyphen then drop_dashes l' else l | [] => [] end.
Definition trim_dashes (l : list ascii) : list ascii := reverse (drop_dashes (reverse (drop_dashes l))).

Definition maxSlug : nat := 60.

Definition slugify (name : string) : string :=
  let slug := trim_dashes (slug_from false false (bytes (ToLower name))) in
  match slug with
  | [] => "storage"
  | _ => if (maxSlug <? Datatypes.length slug)%nat then text (trim_dashes (take maxSlug slug)) else text slug
  end.

(** A name that is put into a header says nothing else there: it is letters, digits and
    dashes, starts with none of the dashes and is never empty. *)
Definition slug_ok (s : list ascii) : Prop :=
  s ≠ [] /\ (Datatypes.length s <= maxSlug)%nat /\ Forall (fun c => slug_char c = true \/ c = hyphen) s /\ head s ≠ Some hyphen /\ last s ≠ Some hyphen.

Lemma slug_from_chars a b l : Forall (fun c => slug_char c = true \/ c = hyphen) (slug_from a b l).
Proof.
  revert a b. induction l as [|c l IH]; intros a b; cbn; [constructor|].
  destruct (slug_char c) eqn:E; [constructor; auto|]. destruct (negb b && a); [constructor; auto | apply IH].
Qed.

Lemma drop_dashes_suffix l : exists k, l = k ++ drop_dashes l.
Proof.
  induction l as [|c l (k & IH)]; cbn; [by exists []|]. destruct (Ascii.eqb c hyphen); [|by exists []].
  exists (c :: k). cbn. by rewrite <- IH.
Qed.

Lemma drop_dashes_head l : head (drop_dashes l) ≠ Some hyphen.
Proof.
  induction l as [|c l IH]; cbn; [done|]. destruct (Ascii.eqb_spec c hyphen) as [|Hc]; [done|]. cbn. congruence.
Qed.

Lemma trim_dashes_sub l : exists a b, l = a ++ trim_dashes l ++ b.
Proof.
  destruct (drop_dashes_suffix l) as (a & Ea). destruct (drop_dashes_suffix (reverse (drop_dashes l))) as (k & Ek).
  exists a, (reverse k). unfold trim_dashes. rewrite <- reverse_app, <- Ek, reverse_involutive. done.
Qed.

Lemma trim_dashes_last l : last (trim_dashes l) ≠ Some hyphen.
Proof. unfold trim_dashes. rewrite last_reverse. apply drop_dashes_head. Qed.

Lemma trim_dashes_head l : head (trim_dashes l) ≠ Some hyphen.
Proof.
  destruct (drop_dashes_suffix (reverse (drop_dashes l))) as (k & Ek). unfold trim_dashes.
  apply (f_equal reverse) in Ek. rewrite reverse_involutive, reverse_app in Ek.
  pose proof (drop_dashes_head l) as Hh. rewrite Ek in Hh. by destruct (reverse (drop_dashes (reverse (drop_dashes l)))).
Qed.

Lemma trim_dashes_nonempty c l : c ≠ hyphen -> trim_dashes (c :: l) ≠ [].
Proof.
  intros Hc. unfold trim_dashes. cbn [drop_dashes]. destruct (Ascii.eqb_spec c hyphen); [done|].
  intros E. apply reverse_eq_nil in E. rewrite reverse_cons in E. revert E.
  generalize (reverse l) as k. induction k as [|x k IH]; cbn; [by destruct (Ascii.eqb_spec c hyphen)|].
  destruct (Ascii.eqb x hyphen); done.
Qed.

Lemma slugify_ok name : slug_ok (bytes (slugify name)).
Proof.
  unfold slugify. set (slug := trim_dashes _).
  assert (Hc : Forall (fun c => slug_char c = true \/ c = hyphen) slug).
  { destruct (trim_dashes_sub (slug_from false false (bytes (ToLower name)))) as (a & b & E).
    pose proof (slug_from_chars false false (bytes (ToLower name))) as H. rewrite E, !Forall_app in H. apply H. }
  destruct slug as [|c rest] eqn:Es.
  { repeat split; [done | vm_compute; lia | | done | done]. repeat constructor; by left. }
  assert (Hh : c ≠ hyphen). { intros ->. pose proof (trim_dashes_head (slug_from false false (bytes (ToLower name)))) as H. fold slug in H. by rewrite Es in H. }
  destruct (Nat.ltb_spec maxSlug (Datatypes.length (c :: rest))) as [Hlt|Hge]; rewrite bytes_text.
  - destruct (trim_dashes_sub (take maxSlug (c :: rest))) as (a & b & E). repeat split.
    + by apply trim_dashes_nonempty.
    + apply (f_equal Datatypes.length) in E. rewrite !length_app, length_take in E. lia.
    + rewrite <- (take_drop maxSlug (c :: rest)), E, !Forall_app in Hc. apply Hc.
    + apply trim_dashes_head.
    + apply trim_dashes_last.
  - repeat split; [done | done | done | cbn; congruence |]. rewrite <- Es. apply trim_dashes_last.
Qed.

(** ** The document *)

(** json.MarshalIndent of a document, and the archive of its entries. *)
Class Packer := {
  MarshalIndent : Json -> list ascii;
  zip_archive : list (string * list ascii) -> list ascii;
}.

Section export.
Context `{Deployment} `{Gallery} `{Packer}.

Definition ExportFormat := "inventory-export/1".

Definition exported_location (row : uuid * Location) : list (string * Json) :=
  [("id", uuid_json row.1); ("name", JStr (loc_Name row.2)); ("description", opt_json JStr (loc_Description row.2));
   ("created_at", JTime (loc_CreatedAt row.2))].
Definition exported_category (row : uuid * Category) : list (string * Json) :=
  [("id", uuid_json row.1); ("name", JStr (cat_Name row.2)); ("default_shelf_life_days", opt_json JNum (cat_DefaultShelfLifeDays row.2));
   ("created_at", JTime (cat_CreatedAt row.2))].
Definition nestExportedLocations (rows : list (uuid * Location)) : list Json := map (node_json exported_location) (nest loc_ParentID rows).
Definition nestExportedCategories (rows : list (uuid * Category)) : list Json := map (node_json exported_category) (nest cat_ParentID rows).

Definition exportedProduct (images : gmap uuid (string * list ascii)) (e : ExportProduct) : Json :=
  let p := ep_Row e in
  JObj [("id", uuid_json (ep_ID e)); ("name", JStr (prod_Name p)); ("category_id", opt_json uuid_json (prod_CategoryID p));
        ("item_type", JStr (prod_ItemType p)); ("default_shelf_life_days", opt_json JNum (prod_DefaultShelfLifeDays p));
        ("min_stock", JNum (prod_MinStock p)); ("current_stock", JNum (ep_CurrentStock e)); ("icon_name", opt_json JStr (prod_IconName p));
        ("image_file", opt_json JStr (fst <$> images !! ep_ID e)); ("created_at", JTime (prod_CreatedAt p))].

Definition exportedBatch (kv : uuid * Batch) : Json :=
  let b := kv.2 in
  JObj [("id", uuid_json kv.1); ("product_id", uuid_json (b_ProductID b)); ("location_id", uuid_json (b_LocationID b));
        ("quantity", JNum (b_Quantity b)); ("expiration_date", date_json (b_ExpirationDate b)); ("expiration_source", JStr (b_ExpirationSource b));
        ("created_at", JTime (b_CreatedAt b))].

Definition exportedLog (e : ExportLog) : Json :=
  let l := el_Row e in
  JObj [("id", uuid_json (log_ID l)); ("product_id", uuid_json (log_ProductID l)); ("batch_id", opt_json uuid_json (log_BatchID l));
        ("change_qty", JNum (log_ChangeQty l)); ("reason", JStr (log_Reason l)); ("created_by", opt_json JStr (el_CreatedBy e));
        ("timestamp", JTime (log_Timestamp l))].

Definition exportedShoppingListItem (kv : uuid * ShoppingListItem) : Json :=
  let i := kv.2 in
  JObj [("id", uuid_json kv.1); ("raw_text", JStr (item_RawText i)); ("status", JStr (item_Status i));
        ("matched_product_id", opt_json uuid_json (item_MatchedProductID i)); ("resolved_quantity", opt_json JNum (item_ResolvedQuantity i));
        ("created_at", JTime (item_CreatedAt i))].
Definition exportedShoppingList (e : ExportShoppingList) : Json :=
  JObj [("id", uuid_json (es_ID e)); ("source", JStr (list_Source (es_Row e))); ("created_by", opt_json JStr (es_CreatedBy e));
        ("created_at", JTime (list_CreatedAt (es_Row e))); ("items", JArr (map exportedShoppingListItem (es_Items e)))].

Definition buildExportDocument (data : StorageExport) (images : gmap uuid (string * list ascii)) (now : Z) : Json :=
  JObj [("format", JStr ExportFormat); ("exported_at", JTime now); ("storage", JObj [("name", JStr (sto_Name (ex_Storage data)))]);
        ("locations", JArr (nestExportedLocations (ex_Locations data))); ("categories", JArr (nestExportedCategories (ex_Categories data)));
        ("products", JArr (map (exportedProduct images) (ex_Products data))); ("batches", JArr (map exportedBatch (ex_Batches data)));
        ("logs", JArr (map exportedLog (ex_Logs data))); ("shopping_lists", JArr (map exportedShoppingList (ex_ShoppingLists data)))].

(** path.Ext: what stands from the last dot on. *)
Definition Ext (name : string) : string :=
  match before_last_dot (bytes name) with Some stem => text (drop (Datatypes.length stem) (bytes name)) | None => "" end.

(** strings.CutPrefix *)
Definition CutPrefix (s prefix : string) : option string :=
  if String.prefix prefix s then Some (text (drop (String.length prefix) (bytes s))) else None.

(** The picture of a product that is a file of this storage. *)
Definition picture_name (storageID : uuid) (p : Product) : option string :=
  url ← prod_ImageURL p;
  name ← CutPrefix url (productImageURL storageID "");
  if String.eqb name "" || existsb (Ascii.eqb slash) (bytes name) then None else Some name.

(** A picture that is missing is left out; one that cannot be read stops the export. *)
Fixpoint collectImages (dir : Dir) (storageID : uuid) (products : list ExportProduct) : Hd (gmap uuid (string * list ascii)) :=
  match products with
  | [] => mret ∅
  | e :: rest =>
    image ← (match picture_name storageID (ep_Row e) with
      | None => mret None
      | Some name =>
        read ← on_disk name (fun os fs => (Read dir os name fs, fs));
        match read with
        | inl ErrDisk => refuse (Internal ErrOther)
        | inl _ => mret None
        | inr data => mret (Some ("images/" +:+ uuid_String (ep_ID e) +:+ Ext name, data))
        end
      end);
    images ← collectImages dir storageID rest;
    mret (match image with Some i => <[ep_ID e := i]> images | None => images end)
  end.

Definition exportFilename (name : string) (date : string) : string := "inventory-export-" +:+ slugify name +:+ "-" +:+ date +:+ ".zip".

Definition Export : Handler := handle (fun r =>
  storageID ← storage_of r;
  data ← store (ExportStorage storageID) (fun e => FromStoreError e "export storage");
  images ← (match images_dir with None => mret ∅ | Some dir => collectImages dir storageID (ex_Products data) end);
  now ← handler_now;
  date ← today;
  let body := MarshalIndent (buildExportDocument data images now) in
  let header := <["X-Content-Type-Options" := "nosniff"]> (attachment "application/zip" (exportFilename (sto_Name (ex_Storage data)) date)) in
  mret (mkReply StatusOK header None None (Some (zip_archive (("export.json", body) :: (map_to_list images).*2))))).

End export.
