(* ===== verification/Migrate.v ===== *)
(** * Planning a deploy: internal/migrate (plan.go, check.go, migrate.go)

    Which migrations a database still needs, whether applying them needs a classic
    deploy, and whether the server may start against the schema it finds.  The
    parser of file names is goose's and a parameter; what goose does when it applies
    a file is not modelled. *)

From S2P Require Import Prelude Gamification Text Encoding Db Matching Json.

#[local] Open Scope string_scope.
#[local] Open Scope list_scope.
#[local] Open Scope Z_scope.

(** ** The marker: plan.go *)

Definition newline_byte : ascii := byte_of 10.
Definition return_byte : ascii := byte_of 13.

Definition classicMarker : list ascii := bytes "-- +inventory:classic".
Definition gooseUpMarker : list ascii := bytes "-- +goose Up".

Definition chr (c : ascii) : Re := Chr (Ascii.eqb c).
Definition literal (l : list ascii) : Re := foldr (fun c r => Seq (chr c) r) Eps l.

(** ^--\s*\+inventory: *)
Definition classicNamespacePattern : Re :=
  Seq (literal (bytes "--")) (Seq (Many re_space true) (literal (bytes "+inventory:"))).

Definition MatchString (r : Re) (l : list ascii) : bool := match FindStringSubmatch r l with Some _ => true | None => false end.

Definition namespaced (line : list ascii) : bool := MatchString classicNamespacePattern (map lower (trim line)).

(** strings.TrimSuffix of a carriage return *)
Definition drop_return (line : list ascii) : list ascii :=
  match last line with
  | Some c => if Ascii.eqb c return_byte then take (Datatypes.length line - 1) line else line
  | None => line
  end.
Definition content_lines (content : list ascii) : list (list ascii) := map drop_return (split_from newline_byte [] content).

(** The index of the first line that is not blank, from [i] on. *)
Fixpoint first_text (i : nat) (lines : list (list ascii)) : option nat :=
  match lines with
  | [] => None
  | line :: lines' => if is_nil (head (trim line)) then first_text (S i) lines' else Some i
  end.

(** The line after the first Up directive that the marker must be on. *)
Fixpoint required_from (i : nat) (lines : list (list ascii)) : option nat :=
  match lines with
  | [] => None
  | line :: lines' => if bool_decide (line = gooseUpMarker) then first_text (S i) lines' else required_from (S i) lines'
  end.
Definition requiredLine (lines : list (list ascii)) : option nat := required_from 0 lines.

Definition is_marker (required : option nat) (i : nat) (line : list ascii) : bool :=
  bool_decide (required = Some i) && bool_decide (line = classicMarker).

(** The line of a misplaced marker, or whether there is a marker. *)
Fixpoint scan_marker (required : option nat) (i : nat) (classic : bool) (lines : list (list ascii)) : Z + bool :=
  match lines with
  | [] => inr classic
  | line :: lines' =>
    if is_marker required i line then scan_marker required (S i) true lines'
    else if namespaced line then inl (Z.of_nat i + 1)
    else scan_marker required (S i) classic lines'
  end.

Definition ParseClassicMarker (content : list ascii) : Z + bool :=
  let lines := content_lines content in scan_marker (requiredLine lines) 0 false lines.

(** ** What is shipped and what is applied *)

(** goose.NumericComponent: the version a file name starts with, if it is one. *)
Class Goose := NumericComponent : string -> option Z.

(** A directory of migrations; a file that cannot be read has no content. *)
Definition Migrations : Type := list (string * option (list ascii)).

(** The bookkeeping table of goose by id: a version and whether it is applied; none
    before the first migration.  A database may not answer at all. *)
Inductive Database :=
| Unreachable
| NeverMigrated
| Log (goose_db_version : gmap Z (Z * bool)).

Record migrationFile := mkMigration { mf_name : string; mf_version : Z }.

Inductive MigrateError :=
| NoDirectory
| DatabaseError
| FileError (name : string)
| SchemaMismatchError (DBVersion BinaryVersion Pending : Z)
| MarkerPlacementError (name : string) (Line : Z)
| PlanClassicError.

Definition Behind (e : MigrateError) : bool :=
  match e with SchemaMismatchError _ _ pending => 0 <? pending | _ => false end.

Definition ends_in (suffix name : string) : bool :=
  let n := String.length suffix in bool_decide (bytes suffix = drop (String.length name - n) (bytes name)).

Definition by_version (a b : migrationFile) : Prop := mf_version a <= mf_version b.
#[export] Instance by_version_dec : RelDecision by_version.
Proof. intros a b. unfold by_version. apply _. Defined.

Section plan.

Context `{Goose}.

Definition shipped_file (entry : string * option (list ascii)) : option migrationFile :=
  if ends_in ".sql" entry.1 then version ← NumericComponent (TrimSpace entry.1); Some (mkMigration entry.1 version) else None.

Definition shippedMigrationFiles (dir : Migrations) : list migrationFile := merge_sort by_version (omap shipped_file dir).
Definition shippedVersions (dir : Migrations) : list Z := map mf_version (shippedMigrationFiles dir).

(** DISTINCT ON (version_id) ... ORDER BY version_id, id DESC: the last row of each version. *)
Definition current_rows (log : gmap Z (Z * bool)) : gmap Z bool :=
  foldl (fun m row => <[row.2.1 := row.2.2]> m) ∅ (order_by_id log).

Definition appliedVersions (db : Database) : option (gset Z * Z) :=
  match db with
  | Unreachable => None
  | NeverMigrated => Some (∅, 0)
  | Log log =>
    let applied := dom (base.filter (fun kv : Z * bool => kv.2 = true) (current_rows log)) in
    Some (applied, foldr Z.max 0 (elements applied))
  end.

Definition binaryVersion (versions : list Z) : Z := default 0 (last versions).
Definition not_applied (applied : gset Z) (version : Z) : bool := bool_decide (version ∉ applied).
Definition pending_files (applied : gset Z) (files : list migrationFile) : list migrationFile :=
  List.filter (fun f => not_applied applied (mf_version f)) files.
Definition count_of {A} (l : list A) : Z := Z.of_nat (Datatypes.length l).

(** ** The two questions *)

(** /migrations, or ./migrations; a candidate that is no directory is none. *)
Definition resolveDir (candidates : list (option Migrations)) : MigrateError + Migrations :=
  match List.find (fun d => negb (is_nil d)) candidates with
  | Some (Some dir) => inr dir
  | _ => inl NoDirectory
  end.

(** Check; no error is that the server may start. *)
Definition Check_schema (candidates : list (option Migrations)) (db : Database) : option MigrateError :=
  match resolveDir candidates with
  | inl e => Some e
  | inr dir =>
    let shipped := shippedVersions dir in
    if is_nil (head shipped) then None
    else match appliedVersions db with
    | None => Some DatabaseError
    | Some (applied, highest) =>
      let pending := count_of (List.filter (not_applied applied) shipped) in
      if (0 <? pending) || (binaryVersion shipped <? highest)
      then Some (SchemaMismatchError highest (binaryVersion shipped) pending)
      else None
    end
  end.

Definition ReadMigration (dir : Migrations) (name : string) : MigrateError + list ascii :=
  match list_find (fun entry : string * option (list ascii) => entry.1 = name) dir with
  | Some (_, (_, Some content)) => inr content
  | _ => inl (FileError name)
  end.

(** Whether one of the files carries the marker; the first that is wrong ends it. *)
Fixpoint any_classic (dir : Migrations) (files : list migrationFile) (classic : bool) : MigrateError + bool :=
  match files with
  | [] => inr classic
  | f :: files' =>
    match ReadMigration dir (mf_name f) with
    | inl e => inl e
    | inr content =>
      match ParseClassicMarker content with
      | inl line => inl (MarkerPlacementError (mf_name f) line)
      | inr marked => any_classic dir files' (marked || classic)
      end
    end
  end.

Definition nothing_pending : list string := ["migrate plan: nothing pending"].
Definition summary_line (classic : bool) (names : list string) : string :=
  "migrate plan: " +:+ (if classic then "classic" else "rolling") +:+ " (" +:+ FormatInt (count_of names) +:+ " pending: "
    +:+ Join names ", " +:+ ")".
Definition plan_report (classic : bool) (names : list string) : list string :=
  summary_line classic names :: map (fun name => "  " +:+ name) names.

(** The lines written, and the error. *)
Definition Plan (candidates : list (option Migrations)) (db : Database) : list string * option MigrateError :=
  match resolveDir candidates with
  | inl e => ([], Some e)
  | inr dir =>
    let files := shippedMigrationFiles dir in
    if is_nil (head files) then (nothing_pending, None)
    else match appliedVersions db with
    | None => ([], Some DatabaseError)
    | Some (applied, highest) =>
      let binary := binaryVersion (map mf_version files) in
      let pending := pending_files applied files in
      if binary <? highest then ([], Some (SchemaMismatchError highest binary (count_of pending)))
      else if is_nil (head pending) then (nothing_pending, None)
      else match any_classic dir pending false with
      | inl e => ([], Some e)
      | inr classic => (plan_report classic (map mf_name pending), if classic then Some PlanClassicError else None)
      end
    end
  end.

End plan.

(** ** What the marker means *)

(** Line [i] is the first one with text below the first Up directive. *)
Definition below_up (lines : list (list ascii)) (i : nat) : Prop :=
  exists u line, (u < i)%nat /\ lines !! u = Some gooseUpMarker /\ (gooseUpMarker ∉ take u lines) /\
  lines !! i = Some line /\ trim line ≠ [] /\
  forall j between, (u < j < i)%nat -> lines !! j = Some between -> trim between = [].

Lemma head_none {A} (l : list A) : is_nil (head l) = true <-> l = [].
Proof. by destruct l. Qed.

Lemma first_text_spec k lines i : first_text k lines = Some i <->
  exists n line, i = (k + n)%nat /\ lines !! n = Some line /\ trim line ≠ [] /\
  forall j between, (j < n)%nat -> lines !! j = Some between -> trim between = [].
Proof.
  revert k. induction lines as [|line lines IH]; intros k; cbn [first_text].
  - split; [done|]. intros (n & line & _ & H & _). by rewrite lookup_nil in H.
  - destruct (is_nil (head (trim line))) eqn:E.
    + apply head_none in E. rewrite IH. split.
      * intros (n & l & -> & Hn & Ht & Hj). exists (S n), l. split_and!; [lia | done | done|].
        intros [|j] b Hlt Hb; [by injection Hb as <- | eapply (Hj j); [lia | done]].
      * intros ([|n] & l & -> & Hn & Ht & Hj); [injection Hn as <-; congruence|].
        exists n, l. split_and!; [lia | done | done|]. intros j b Hlt Hb. apply (Hj (S j)); [lia | done].
    + assert (trim line ≠ []) as Ht by (intros H; apply head_none in H; congruence). split.
      * intros [= <-]. exists 0%nat, line. split_and!; [lia | done | done | lia].
      * intros ([|n] & l & -> & Hn & Ht' & Hj); [by rewrite Nat.add_0_r|]. exfalso. apply Ht, (Hj 0%nat); [lia | done].
Qed.

Lemma required_from_spec k lines i : required_from k lines = Some i <-> exists n, i = (k + n)%nat /\ below_up lines n.
Proof.
  revert k. induction lines as [|line lines IH]; intros k; cbn [required_from].
  - split; [done|]. intros (n & _ & u & l & _ & H & _). by rewrite lookup_nil in H.
  - case_bool_decide as E.
    + subst line. rewrite first_text_spec. split.
      * intros (n & l & -> & Hn & Ht & Hj). exists (S n). split; [lia|]. exists 0%nat, l. cbn.
        split_and!; [lia | done | set_solver | done | done|]. intros [|j] b Hlt Hb; [lia|]. apply (Hj j); [lia | done].
      * intros (n & -> & u & l & Hlt & Hu & Hno & Hn & Ht & Hj). destruct u as [|u]; [|cbn in Hno; set_solver].
        destruct n as [|n]; [lia|]. exists n, l. split_and!; [lia | done | done|]. intros j b ? Hb. apply (Hj (S j)); [lia | done].
    + rewrite IH. split.
      * intros (n & -> & u & l & Hlt & Hu & Hno & Hn & Ht & Hj). exists (S n). split; [lia|]. exists (S u), l. cbn.
        split_and!; [lia | done | set_solver | done | done|]. intros [|j] b ? Hb; [lia|]. apply (Hj j); [lia | done].
      * intros (n & -> & u & l & Hlt & Hu & Hno & Hn & Ht & Hj). destruct u as [|u]; [injection Hu as Hu; congruence|].
        destruct n as [|n]; [lia|]. exists n. split; [lia|]. exists u, l.
        split_and!; [lia | done | cbn in Hno; set_solver | done | done|]. intros j b ? Hb. apply (Hj (S j)); [lia | done].
Qed.

Lemma requiredLine_spec lines i : requiredLine lines = Some i <-> below_up lines i.
Proof.
  unfold requiredLine. rewrite required_from_spec. split; [by intros (n & -> & H) | eauto].
Qed.

(** A line that is fine where it stands: no marker is meant, or it is the marker. *)
Definition well_placed (required : option nat) (i : nat) (line : list ascii) : Prop :=
  namespaced line = true -> required = Some i /\ line = classicMarker.

Lemma is_marker_spec required i line : is_marker required i line = true <-> required = Some i /\ line = classicMarker.
Proof. unfold is_marker. by rewrite andb_true_iff, !bool_decide_eq_true. Qed.

Lemma scan_marker_spec required k classic lines :
  match scan_marker required k classic lines with
  | inr c => (forall i line, lines !! i = Some line -> well_placed required (k + i) line) /\
             (c = true <-> classic = true \/ exists i, required = Some (k + i)%nat /\ lines !! i = Some classicMarker)
  | inl n => exists i line, n = Z.of_nat (k + i) + 1 /\ lines !! i = Some line /\ ~ well_placed required (k + i) line /\
             forall j l, (j < i)%nat -> lines !! j = Some l -> well_placed required (k + j) l
  end.
Proof.
  revert k classic. induction lines as [|line lines IH]; intros k classic; cbn [scan_marker].
  { split; [intros i l H; by rewrite lookup_nil in H|]. split; [by left|]. intros [H|(i & _ & H)]; [done | by rewrite lookup_nil in H]. }
  assert (Hstep : forall c, well_placed required k line -> (c = true <-> classic = true \/ is_marker required k line = true) ->
    match scan_marker required (S k) c lines with
    | inr c' => (forall i l, (line :: lines) !! i = Some l -> well_placed required (k + i) l) /\
               (c' = true <-> classic = true \/ exists i, required = Some (k + i)%nat /\ (line :: lines) !! i = Some classicMarker)
    | inl n => exists i l, n = Z.of_nat (k + i) + 1 /\ (line :: lines) !! i = Some l /\ ~ well_placed required (k + i) l /\
               forall j l', (j < i)%nat -> (line :: lines) !! j = Some l' -> well_placed required (k + j) l'
    end).
  { intros c Hw Hc. specialize (IH (S k) c). destruct (scan_marker required (S k) c lines) as [n|c'].
    - destruct IH as (i & l & -> & Hi & Hb & Hj). exists (S i), l. rewrite Nat.add_succ_r. split_and!; [done | done | done|].
      intros [|j] l' Hlt Hl; [injection Hl as <-; by rewrite Nat.add_0_r|]. rewrite Nat.add_succ_r. apply Hj; [lia | done].
    - destruct IH as [Hall Hiff]. split.
      + intros [|i] l Hl; [injection Hl as <-; by rewrite Nat.add_0_r|]. rewrite Nat.add_succ_r. by apply Hall.
      + rewrite Hiff, Hc, is_marker_spec. split.
        * intros [[?|[Hr ->]]|(i & Hr & Hl)]; [by left | right; exists 0%nat; by rewrite Nat.add_0_r|].
          right. exists (S i). by rewrite Nat.add_succ_r.
        * intros [?|([|i] & Hr & Hl)]; [by do 2 left | |].
          -- rewrite Nat.add_0_r in Hr. injection Hl as ->. by left; right.
          -- right. exists i. by rewrite Nat.add_succ_r in Hr. }
  destruct (is_marker required k line) eqn:M.
  - apply Hstep; [intros _; by apply is_marker_spec | by intuition].
  - destruct (namespaced line) eqn:N.
    + exists 0%nat, line. rewrite Nat.add_0_r. split_and!; [done | done | | lia].
      intros H. destruct (H N) as [Hr ->]. assert (is_marker required k classicMarker = true) by (by apply is_marker_spec). congruence.
    + apply Hstep; [intros H; congruence | intuition congruence].
Qed.

(** A migration asks for a classic deploy exactly when the first line with text
    below its first Up directive is the marker, byte for byte but for a carriage
    return; and any other line that looks like the marker, whatever its case, its
    indentation or what follows it, is reported by its number, the first of them,
    never read as no marker. *)
Theorem ParseClassicMarker_spec content :
  let lines := content_lines content in
  let fine i line := namespaced line = true -> below_up lines i /\ line = classicMarker in
  match ParseClassicMarker content with
  | inr classic =>
    (forall i line, lines !! i = Some line -> fine i line) /\
    (classic = true <-> exists i, below_up lines i /\ lines !! i = Some classicMarker)
  | inl n => exists i line, n = Z.of_nat i + 1 /\ lines !! i = Some line /\ ~ fine i line /\
    forall j l, (j < i)%nat -> lines !! j = Some l -> fine j l
  end.
Proof.
  cbv zeta. unfold ParseClassicMarker. pose proof (scan_marker_spec (requiredLine (content_lines content)) 0 false (content_lines content)) as H.
  assert (Hf : forall i line, well_placed (requiredLine (content_lines content)) i line <->
    (namespaced line = true -> below_up (content_lines content) i /\ line = classicMarker)).
  { intros i line. unfold well_placed. by rewrite requiredLine_spec. }
  destruct (scan_marker _ 0 false _) as [n|c].
  - destruct H as (i & line & -> & Hl & Hb & Hj). exists i, line. rewrite <- Hf. split_and!; [done | done | done|].
    intros j l Hlt Hj'. apply Hf. by apply (Hj j l).
  - destruct H as [Hall Hc]. split; [intros i line Hl; apply Hf; by apply (Hall i)|]. rewrite Hc. split.
    + intros [?|(i & Hr & Hl)]; [done|]. exists i. by rewrite <- requiredLine_spec.
    + intros (i & Hr & Hl). right. exists i. by rewrite <- requiredLine_spec in Hr.
Qed.

(** ** What the plan says *)

Lemma current_rows_spec (log : gmap Z (Z * bool)) v b : current_rows log !! v = Some b <->
  exists id, log !! id = Some (v, b) /\ forall id' b', log !! id' = Some (v, b') -> id' <= id.
Proof.
  unfold current_rows. setoid_rewrite <- (elem_of_order_by_id log). pose proof (order_by_id_strict log) as Hs.
  induction (order_by_id log) as [|[id [w c]] l IH] using rev_ind.
  { cbn. split; [done|]. intros (id & H & _). by apply elem_of_nil in H. }
  apply StronglySorted_app in Hs as (Hbefore & Hs & _). specialize (IH Hs). rewrite foldl_app. cbn [foldl fst snd].
  assert (Hlt : forall id' x, (id', x) ∈ l -> id' < id).
  { intros id' x Hin. apply (Hbefore (id', x) (id, (w, c))); [done | by left]. }
  setoid_rewrite elem_of_app. setoid_rewrite list_elem_of_singleton. destruct (decide (w = v)) as [->|Hne].
  - rewrite lookup_insert_eq. split.
    + intros [= ->]. exists id. split; [by right|]. intros id' b' [Hin|[= <- <-]]; [apply Hlt in Hin; lia | done].
    + intros (id' & [Hin|[= -> ->]] & Hmax); [|done]. exfalso. specialize (Hmax id c (or_intror eq_refl)). apply Hlt in Hin. lia.
  - rewrite lookup_insert_ne, IH by done. split; intros (id' & Hin & Hmax).
    + exists id'. split; [by left|]. intros i b' [H|[= _ <- _]]; [by eapply Hmax | done].
    + destruct Hin as [Hin|[= _ <- _]]; [|done]. exists id'. split; [done|]. intros i b' H. eapply Hmax. by left.
Qed.

Lemma applied_last_row log applied highest v : appliedVersions (Log log) = Some (applied, highest) ->
  v ∈ applied <-> exists id, log !! id = Some (v, true) /\ forall id' b', log !! id' = Some (v, b') -> id' <= id.
Proof.
  intros [= <- _]. rewrite elem_of_dom, <- current_rows_spec. split.
  - intros [b Hb]. apply map_lookup_filter_Some in Hb as [Hb Ht]. cbn in Ht. by subst b.
  - intros Hb. exists true. by apply map_lookup_filter_Some.
Qed.

Section agreement.

Context `{Goose}.

Lemma pending_versions applied files :
  count_of (List.filter (not_applied applied) (map mf_version files)) = count_of (pending_files applied files).
Proof.
  unfold count_of, pending_files. f_equal. induction files as [|f files IH]; [done|]. cbn [map List.filter].
  destruct (not_applied applied (mf_version f)); cbn; by rewrite IH.
Qed.

(** What the files say, each read and parsed on its own. *)
Definition marked (dir : Migrations) (f : migrationFile) (b : bool) : Prop :=
  exists content, ReadMigration dir (mf_name f) = inr content /\ ParseClassicMarker content = inr b.

Lemma any_classic_spec dir files c b : any_classic dir files c = inr b <->
  (forall f, f ∈ files -> exists b, marked dir f b) /\ (b = true <-> c = true \/ exists f, f ∈ files /\ marked dir f true).
Proof.
  revert c. induction files as [|f files IH]; intros c; cbn [any_classic].
  - split.
    + intros [= ->]. split; [intros f Hf; by apply elem_of_nil in Hf|]. split; [by left|]. intros [?|(f & Hf & _)]; [done | by apply elem_of_nil in Hf].
    + intros [_ Hb]. f_equal. destruct b, c; try done; exfalso.
      * destruct (proj1 Hb eq_refl) as [?|(f & Hf & _)]; [done | by apply elem_of_nil in Hf].
      * discriminate (proj2 Hb (or_introl eq_refl)).
  - destruct (ReadMigration dir (mf_name f)) as [e|content] eqn:R.
    { split; [done|]. intros [Hall _]. destruct (Hall f) as (b' & content & R' & _); [by left | congruence]. }
    destruct (ParseClassicMarker content) as [n|m] eqn:P.
    { split; [done|]. intros [Hall _]. destruct (Hall f) as (b' & content' & R' & P'); [by left | congruence]. }
    assert (Hm : forall b', marked dir f b' <-> b' = m).
    { intros b'. unfold marked. split; [intros (content' & R' & P'); congruence | intros ->; eauto]. }
    rewrite IH. setoid_rewrite elem_of_cons. split.
    + intros [Hall Hb]. split; [intros f' [->|Hf]; [exists m; by apply Hm | eauto]|]. rewrite Hb. destruct m, c; cbn; split; intros [?|(f' & Hf & Hm')]; eauto; try done.
      * right. exists f. split; [by left | by apply Hm].
      * destruct Hf as [->|Hf]; [apply Hm in Hm'; done | eauto].
    + intros [Hall Hb]. split; [eauto|]. rewrite Hb. destruct m, c; cbn; split; intros [?|(f' & Hf & Hm')]; eauto; try done.
      * right. exists f. split; [by left | by apply Hm].
      * destruct Hf as [->|Hf]; [apply Hm in Hm'; done | eauto].
Qed.

Lemma any_classic_total dir files c : (forall f, f ∈ files -> exists b, marked dir f b) -> exists b, any_classic dir files c = inr b.
Proof.
  revert c. induction files as [|f files IH]; intros c Hall; cbn [any_classic]; [eauto|].
  destruct (Hall f) as (b & content & -> & ->); [by left|]. apply IH. intros f' Hf. apply Hall. by right.
Qed.

(** C38: the plan and the check at start agree.  The server starts against a database
    exactly when the plan finds nothing pending; a directory that is missing, a
    database that does not answer or one that is ahead of the binary is the same error
    for both.  Otherwise, when files are pending, the server refuses and names their
    number, and the plan lists exactly the files whose version's last row in the log
    does not say applied, rolling when all of them can be read and none is marked,
    classic when one is; what applied files say plays no part. *)
Theorem Plan_agrees_with_Check candidates db :
  let plan := Plan candidates db in
  let check := Check_schema candidates db in
  (check = None <-> plan = (nothing_pending, None)) /\
  (forall e, check = Some e -> Behind e = false -> plan = ([], Some e)) /\
  forall dir applied highest, resolveDir candidates = inr dir -> appliedVersions db = Some (applied, highest) ->
    let files := shippedMigrationFiles dir in
    let pending := pending_files applied files in
    let names := map mf_name pending in
    highest <= binaryVersion (shippedVersions dir) -> pending ≠ [] ->
    check = Some (SchemaMismatchError highest (binaryVersion (shippedVersions dir)) (count_of pending)) /\
    (forall f, f ∈ pending <-> f ∈ files /\ mf_version f ∉ applied) /\
    (plan = (plan_report false names, None) <-> forall f, f ∈ pending -> marked dir f false) /\
    (plan = (plan_report true names, Some PlanClassicError) <->
      (forall f, f ∈ pending -> exists b, marked dir f b) /\ exists f, f ∈ pending /\ marked dir f true).
Proof.
  cbv zeta. unfold Plan, Check_schema. destruct (resolveDir candidates) as [e|dir].
  { split; [done|]. split; [by intros ? [= ->]|]. done. }
  unfold shippedVersions. destruct (shippedMigrationFiles dir) as [|f0 fs] eqn:Hfiles.
  { split; [done|]. split; [done|]. intros dir' applied highest [= <-] _. rewrite Hfiles. done. }
  remember (f0 :: fs) as files eqn:Ef. assert (is_nil (head files) = false) as -> by by subst files.
  assert (is_nil (head (map mf_version files)) = false) as -> by by subst files. clear Ef f0 fs.
  destruct (appliedVersions db) as [[applied highest]|].
  2:{ split; [done|]. split; [by intros ? [= <-]|]. done. }
  rewrite !pending_versions.
  set (pending := pending_files applied files). set (binary := binaryVersion (map mf_version files)).
  assert (Hp : count_of pending = 0 <-> pending = []) by (unfold count_of; destruct pending; cbn; split; [done | done | lia | done]).
  split; [|split].
  - destruct (Z.ltb_spec binary highest) as [Hlt|Hge]; [by rewrite orb_true_r|]. rewrite orb_false_r.
    destruct (Z.ltb_spec 0 (count_of pending)) as [Hpos|Hzero].
    + split; [done|]. destruct pending as [|f l] eqn:E; [by cbn in Hpos|]. cbn [head is_nil].
      destruct (any_classic _ _ _) as [e|[]]; [done | done|]. intros [=].
    + assert (pending = []) as -> by (apply Hp; unfold count_of in *; lia). done.
  - intros e. destruct (Z.ltb_spec binary highest) as [Hlt|Hge].
    + rewrite orb_true_r. by intros [= <-].
    + rewrite orb_false_r. destruct (0 <? count_of pending) eqn:Hpos; [|done]. intros [= <-]. cbn. congruence.
  - intros dir' applied' highest' [= <-] [= <- <-]. rewrite Hfiles. fold pending binary. intros Hle Hne.
    destruct (Z.ltb_spec binary highest) as [Hlt|_]; [lia|].
    assert ((0 <? count_of pending) = true) as -> by (apply Z.ltb_lt; assert (count_of pending ≠ 0) by (by rewrite Hp); unfold count_of in *; lia).
    split; [done|]. split.
    { intros f. unfold pending, pending_files. rewrite !list_elem_of_In, filter_In, <- list_elem_of_In. unfold not_applied. by rewrite bool_decide_eq_true. }
    assert (is_nil (head pending) = false) as -> by by destruct pending.
    destruct (any_classic dir pending false) as [e|b] eqn:E.
    + assert (Hno : ~ forall f, f ∈ pending -> exists b, marked dir f b).
      { intros Hall. destruct (any_classic_total dir pending false Hall) as [b E']. congruence. }
      split; split; [done | | done |].
      * intros Hall. destruct Hno. eauto.
      * intros [Hall _]. by destruct Hno.
    + pose proof E as Ea. apply any_classic_spec in Ea as [Hall Hb]. destruct b.
      * destruct (proj1 Hb eq_refl) as [?|Hm]; [done|]. split; [|done]. split; [done|]. intros Hf.
        destruct Hm as (f & Hin & content & R & P). destruct (Hf f Hin) as (content' & R' & P'). congruence.
      * split; [split; [|done]|split; [done|]].
        -- intros _ f Hf. destruct (Hall f Hf) as ([] & Hm); [|done]. exfalso. discriminate (proj2 Hb (or_intror (ex_intro _ f (conj Hf Hm)))).
        -- intros [_ Hm]. discriminate (proj2 Hb (or_intror Hm)).
Qed.

End agreement.

(** Three files: the first is applied, the second was rolled back, the third is new and
    asks for a classic deploy. *)
#[local] Instance numbered : Goose := fun name => match bytes name with c :: _ => if is_digit c then Some (byte_code c - 48) else None | [] => None end.

Definition up_file (rest : list string) : list ascii :=
  join_bytes [newline_byte] (map bytes ("-- +goose Up" :: "" :: rest)).
Definition sample_migrations : Migrations :=
  [("1_core.sql", None); ("2_index.sql", Some (up_file ["SELECT 1;"])); ("3_split.sql", Some (up_file ["-- +inventory:classic"])); ("README.md", None)].
Definition sample_log : Database := Log {[1 := (0, true); 2 := (1, true); 3 := (2, true); 4 := (2, false)]}.

Example sample_plan : Plan [None; Some sample_migrations] sample_log =
  (["migrate plan: classic (2 pending: 2_index.sql, 3_split.sql)"; "  2_index.sql"; "  3_split.sql"], Some PlanClassicError).
Proof. vm_compute. reflexivity. Qed.

Lemma Plan_agrees_with_Check_witness :
  Check_schema [Some sample_migrations] sample_log = Some (SchemaMismatchError 1 3 2) /\
  Plan [Some sample_migrations] sample_log = (plan_report true ["2_index.sql"; "3_split.sql"], Some PlanClassicError).
Proof.
  destruct (Plan_agrees_with_Check [Some sample_migrations] sample_log) as (_ & _ & S).
  destruct (appliedVersions sample_log) as [[applied highest]|] eqn:Ea; [|vm_compute in Ea; discriminate].
  destruct (S sample_migrations applied highest eq_refl eq_refl) as (Hc & _ & _ & Hp).
  - injection Ea as <- <-. vm_compute. discriminate.
  - injection Ea as <- <-. vm_compute. discriminate.
  - injection Ea as <- <-. split; [etransitivity; [exact Hc | vm_compute; reflexivity]|].
    etransitivity; [apply Hp | vm_compute; reflexivity].
    split.
    + intros f Hf. vm_compute in Hf. apply elem_of_cons in Hf as [->|Hf]; [exists false; eexists; split; vm_compute; reflexivity|].
      apply list_elem_of_singleton in Hf as ->. exists true. eexists; split; vm_compute; reflexivity.
    + exists (mkMigration "3_split.sql" 3). split; [vm_compute; right; left | eexists; split; vm_compute; reflexivity].
Defined.

Lemma ParseClassicMarker_spec_witness :
  ParseClassicMarker (up_file ["-- +inventory:classic"]) = inr true /\
  ParseClassicMarker (up_file ["  -- +Inventory:classic"]) = inl 3 /\
  exists i, below_up (content_lines (up_file ["-- +inventory:classic"])) i.
Proof.
  pose proof (ParseClassicMarker_spec (up_file ["-- +inventory:classic"])) as S. cbv zeta in S.
  assert (E : ParseClassicMarker (up_file ["-- +inventory:classic"]) = inr true) by (vm_compute; reflexivity).
  rewrite E in S. destruct S as [_ S]. split; [exact E|]. split; [vm_compute; reflexivity|].
  destruct (proj1 S eq_refl) as (i & Hi & _). by exists i.
Defined.
