(* ===== verification/Sanitize.v ===== *)
(** * What is stored of a found picture: internal/imagesearch/normalize.go

    The passes of SanitizeSVG as regular expressions over bytes, the lists of what an
    address may be, and the way a raster takes.  A pattern that ignores case also
    takes the two letters outside ASCII that fold to s and k.  Codecs are parameters. *)

From S2P Require Import Prelude Gamification Text Encoding Matching Migrate Uploads.

#[local] Open Scope string_scope.
#[local] Open Scope list_scope.
#[local] Open Scope Z_scope.

(** ** Patterns *)

Definition double_quote : ascii := byte_of 34.
Definition single_quote : ascii := byte_of 39.
Definition backslash : ascii := byte_of 92.
Definition close_paren : ascii := ")"%char.

(** A letter under (?i). *)
Definition either_case (c : ascii) : Re := Chr (fun d => Ascii.eqb (lower d) (lower c)).
Definition long_s : Re := literal [byte_of 197; byte_of 191].
Definition kelvin : Re := literal [byte_of 226; byte_of 132; byte_of 170].
Definition fold (c : ascii) : Re :=
  if Ascii.eqb (lower c) "s" then Alt (either_case c) long_s
  else if Ascii.eqb (lower c) "k" then Alt (either_case c) kelvin
  else either_case c.
Definition word_ci (s : string) : Re := foldr (fun c r => Seq (fold c) r) Eps (bytes s).
Definition a_to_z : Re := Alt (Chr (fun c => in_range 97 122 (lower c))) (Alt long_s kelvin).

Definition spaces : Re := Many re_space true.
Definition but (stop : list ascii) (c : ascii) : bool := negb (existsb (Ascii.eqb c) stop).
Definition not_gt : ascii -> bool := but [">"%char].
Definition any_byte (_ : ascii) : bool := true.

(** \b behind a letter *)
Definition word_byte (c : ascii) : bool := is_digit c || in_range 97 122 (lower c) || Ascii.eqb c "_".
Definition boundary : Re := NotNext word_byte.

(** A name may have a prefix: a run of bytes that are no delimiters, and a colon. *)
Definition prefix_byte (c : ascii) : bool := negb (re_space c) && but ["<"; ">"; "/"; double_quote; single_quote; "="; ":"]%char c.
Definition prefixed (name : Re) : Re := Seq (Opt (Seq (plus prefix_byte) (chr ":"))) name.

Definition rest_of_tag : Re := Seq boundary (Seq (Many not_gt true) (chr ">")).
Definition Block (name : Re) : Re :=
  Seq (chr "<") (Seq spaces (Seq (prefixed name) (Seq rest_of_tag
    (Seq (Many any_byte false) (Seq (literal (bytes "</")) (Seq spaces (Seq (prefixed name) (Seq spaces (chr ">"))))))))).
Definition Tag (name : Re) : Re :=
  Seq (chr "<") (Seq (Opt (chr "/")) (Seq spaces (Seq (prefixed name) rest_of_tag))).

Definition quoted_by (q : ascii) : Re := Seq (chr q) (Seq (Many (but [q]) true) (chr q)).
Definition bare_byte (c : ascii) : bool := negb (re_space c) && not_gt c.
Definition attr_value : Re := Alt (quoted_by double_quote) (Alt (quoted_by single_quote) (plus bare_byte)).
Definition assigned (name : Re) : Re := Seq (Chr re_space) (Seq name (Seq spaces (Seq (chr "=") (Seq spaces attr_value)))).

Definition script : Re := word_ci "script".
Definition foreignObject : Re := word_ci "foreignObject".
Definition animation : Re :=
  Alt (word_ci "animate") (Alt (word_ci "animateTransform") (Alt (word_ci "animateMotion") (Alt (word_ci "animateColor") (word_ci "set")))).
Definition style : Re := word_ci "style".

Definition svgEntityDecl : Re := Seq (literal (bytes "<!")) (Seq (word_ci "ENTITY") rest_of_tag).
Definition svgEventAttr : Re := assigned (Seq (word_ci "on") (Seq a_to_z (Star a_to_z))).
Definition svgHrefAttr : Re := assigned (Seq (Opt (word_ci "xlink:")) (word_ci "href")).
Definition svgStyleAttr : Re := assigned style.

(** (?:\\.|[^)\\])* *)
Definition unquoted_url : Re := Star (Alt (Seq (chr backslash) (Chr any_byte)) (Chr (but [close_paren; backslash]))).
Definition svgCSSURL : Re :=
  Seq (word_ci "url") (Seq (chr "(") (Seq spaces
    (Seq (Alt (quoted_by double_quote) (Alt (quoted_by single_quote) unquoted_url)) (Seq spaces (chr close_paren))))).

(** What the pattern takes at the front of a text. *)
Definition match_front (r : Re) (s : list ascii) : option (list ascii) := option_map (group 0) (FindStringSubmatch (Cap 0 r) s).

(** ReplaceAllFunc: leftmost matches, one behind the other. *)
Fixpoint replace_from (n : nat) (r : Re) (f : list ascii -> list ascii) (s : list ascii) : list ascii :=
  match n with
  | O => s
  | S n' =>
    match s with
    | [] => []
    | c :: s' =>
      match match_front r s with
      | Some (d :: m) => f (d :: m) ++ replace_from n' r f (drop (Datatypes.length m) s')
      | _ => c :: replace_from n' r f s'
      end
    end
  end.
Definition ReplaceAllFunc (r : Re) (f : list ascii -> list ascii) (s : list ascii) : list ascii := replace_from (Datatypes.length s) r f s.
Definition delete_all (s : list ascii) (r : Re) : list ascii := ReplaceAllFunc r (fun _ => []) s.

(** ** What an address may be *)

Definition inlineRasterTypes : list string :=
  ["data:image/png"; "data:image/jpeg"; "data:image/jpg"; "data:image/gif"; "data:image/webp"; "data:image/bmp"].

Definition has_prefix (prefix l : list ascii) : bool := bool_decide (take (Datatypes.length prefix) l = prefix).
Definition isInlineRasterImage (value : list ascii) : bool :=
  existsb (fun prefix => has_prefix (bytes prefix) value &&
    match drop (String.length prefix) value with
    | [] => true
    | c :: _ => Ascii.eqb c ";" || Ascii.eqb c ","
    end) inlineRasterTypes.

(** The text between the quotes it starts with, if they close; the text itself else. *)
Definition unquote (l : list ascii) : list ascii :=
  match l with
  | q :: (_ :: _) =>
    if Ascii.eqb q double_quote || Ascii.eqb q single_quote
    then match Cut q (List.tl l) with Some (inner, _) => inner | None => l end
    else l
  | _ => l
  end.

Definition attrValue (attr : list ascii) : list ascii :=
  match Cut "=" attr with Some (_, rest) => unquote (trim rest) | None => [] end.

(** strings.TrimSuffix of a closing parenthesis *)
Definition drop_paren (l : list ascii) : list ascii :=
  match last l with
  | Some c => if Ascii.eqb c close_paren then take (Datatypes.length l - 1) l else l
  | None => l
  end.
Definition cssURLValue (m : list ascii) : list ascii :=
  match Cut "(" m with Some (_, rest) => trim (unquote (trim (drop_paren (trim rest)))) | None => [] end.

Definition fragment (value : list ascii) : bool := match value with c :: _ => Ascii.eqb c "#" | [] => false end.

Definition kept_href (attr : list ascii) : list ascii :=
  let value := map lower (trim (attrValue attr)) in
  if isInlineRasterImage value || fragment value then attr else [].
Definition stripRemoteRefs (s : list ascii) : list ascii := ReplaceAllFunc svgHrefAttr kept_href s.

(** A url() that names a part of the document or holds a raster, without an escape. *)
Definition inert_url (m : list ascii) : bool :=
  let value := map lower (cssURLValue m) in
  negb (existsb (Ascii.eqb backslash) value) && (fragment value || isInlineRasterImage value).
Definition none_value : list ascii := bytes "none".
Definition kept_url (m : list ascii) : list ascii := if inert_url m then m else none_value.
Definition stripUnsafeCSSURLs (s : list ascii) : list ascii := ReplaceAllFunc svgCSSURL kept_url s.

(** ** SanitizeSVG and Normalize *)

Definition MaxDownloadBytes : Z := 20 * 2 ^ 20.
Definition MaxEdge : Z := 1024.

(** bytes.Contains *)
Fixpoint contains (part l : list ascii) : bool :=
  has_prefix part l || match l with [] => false | _ :: l' => contains part l' end.

(** The patterns of which all that matches is dropped, in the order of the passes. *)
Definition dropped : list Re :=
  [svgEntityDecl; Block script; Tag script; Block foreignObject; Tag foreignObject; Block animation; Tag animation; svgEventAttr;
   Block style; Tag style; svgStyleAttr].

Inductive NormalizeError := ErrUnusable | ErrEncode.

Definition svg_tag : list ascii := bytes "<svg".
Definition SanitizeSVG (data : list ascii) : NormalizeError + list ascii :=
  if MaxDownloadBytes <? Z.of_nat (Datatypes.length data) then inl ErrUnusable
  else
    let out := stripUnsafeCSSURLs (stripRemoteRefs (foldl delete_all data dropped)) in
    if contains svg_tag (map lower out) then inr out else inl ErrUnusable.

Definition isSVG (data : list ascii) (contentType : string) : bool :=
  contains (bytes "svg") (map lower (bytes contentType)) || contains svg_tag (map lower (take 1024 data)).

(** ** Rasters *)

(** image.Decode and its companions of the standard library and golang.org/x/image. *)
Class Rasters := {
  Raster : Type;
  raster_config : list ascii -> option (Z * Z);
  raster_decode : list ascii -> option Raster;
  gif_decode : list ascii -> option Raster;
  raster_size : Raster -> Z * Z;
  (** a color model without alpha *)
  is_YCbCr : Raster -> bool;
  (** the alpha of the pixels, 16 bits each *)
  alphas : Raster -> list Z;
  scale_to : Z * Z -> Raster -> Raster;
  png_encode : Raster -> option (list ascii);
  jpeg_encode : Z -> Raster -> option (list ascii);
}.

Definition MaxDecodePixels : Z := 50000000.
Definition JPEGQuality : Z := 80.

Record Normalized := mkNormalized { nm_Data : list ascii; nm_ContentType : string; nm_Width : Z; nm_Height : Z }.

Section rasters.

Context `{Rasters}.

(** The edges of a picture once the longer one fits. *)
Definition fitted (width height : Z) : Z * Z :=
  let scale := f_div (float64_of_int MaxEdge) (float64_of_int (Z.max width height)) in
  let fit n := Z.max 1 (int_floor (f_mul (float64_of_int n) scale)) in
  (fit width, fit height).

Definition downscale (img : Raster) : Raster :=
  let '(width, height) := raster_size img in
  if (width <=? MaxEdge) && (height <=? MaxEdge) then img else scale_to (fitted width height) img.

Definition hasTransparency (img : Raster) : bool := negb (is_YCbCr img) && existsb (fun a => a <? 65535) (alphas img).

Definition decode_any (data : list ascii) : option Raster :=
  match raster_decode data with Some img => Some img | None => gif_decode data end.

Definition encode_raster (img : Raster) : NormalizeError + Normalized :=
  let '(width, height) := raster_size img in
  let transparent := hasTransparency img in
  match (if transparent then png_encode img else jpeg_encode JPEGQuality img) with
  | Some data => inr (mkNormalized data (if transparent then "image/png" else "image/jpeg") width height)
  | None => inl ErrEncode
  end.

Definition normalizeRaster (data : list ascii) : NormalizeError + Normalized :=
  match raster_config data with
  | Some (w, h) =>
    if MaxDecodePixels <? w * h then inl ErrUnusable
    else match decode_any data with
    | Some img => encode_raster (downscale img)
    | None => inl ErrUnusable
    end
  | None => inl ErrUnusable
  end.

Definition Normalize (data : list ascii) (contentType : string) : NormalizeError + Normalized :=
  if isSVG data contentType then
    match SanitizeSVG data with
    | inl e => inl e
    | inr clean => inr (mkNormalized clean "image/svg+xml" 0 0)
    end
  else normalizeRaster data.

End rasters.

(** ** What a pass leaves behind *)

(** Dropping a match joins what stood around it, and no pass looks again: a script
    element, an event handler and an address that runs a script come out of documents
    that have none. *)
Lemma passes_reassemble :
  SanitizeSVG (bytes "<svg><scr<style></style>ipt>alert(1)</scr<style></style>ipt></svg>") = inr (bytes "<svg><script>alert(1)</script></svg>") /\
  SanitizeSVG (bytes "<svg><scr<script>ipt>alert(1)") = inr (bytes "<svg><script>alert(1)") /\
  SanitizeSVG (bytes "<svg on<style>load='alert(1)'>") = inr (bytes "<svg onload='alert(1)'>") /\
  SanitizeSVG (bytes "<svg><a hr href='x'ef='javascript:alert(1)'/>") = inr (bytes "<svg><a href='javascript:alert(1)'/>").
Proof. vm_compute. split_and!; reflexivity. Qed.

(** ** Matches as a list of ends

    A pattern without groups has, at each place, a list of ends in the order of its
    preferences; a match is the first of them the continuation takes. *)

Fixpoint capless (r : Re) : bool :=
  match r with
  | Seq a b | Alt a b => capless a && capless b
  | Star a => capless a
  | Cap _ _ => false
  | _ => true
  end.

Fixpoint ends (r : Re) (s : list ascii) : list (list ascii) :=
  match r with
  | Eps => [s]
  | Chr p => match s with c :: s' => if p c then [s'] else [] | [] => [] end
  | Seq a b => List.flat_map (fun s' => ends b s') (ends a s)
  | Alt a b => ends a s ++ ends b s
  | Many p greedy =>
    (fix many (s : list ascii) : list (list ascii) :=
       let more := match s with c :: s' => if p c then many s' else [] | [] => [] end in
       if greedy then more ++ [s] else s :: more) s
  | Star a =>
    (fix star (n : nat) (s : list ascii) : list (list ascii) :=
       match n with
       | O => []
       | S n' => List.flat_map (fun s' => if (Datatypes.length s' <? Datatypes.length s)%nat then star n' s' else []) (ends a s)
       end ++ [s]) (Datatypes.length s) s
  | Cap _ a => ends a s
  | NotNext p => match s with c :: _ => if p c then [] else [s] | [] => [s] end
  | End => match s with [] => [[]] | _ :: _ => [] end
  end.

Fixpoint first_some {A B} (f : A -> option B) (l : list A) : option B :=
  match l with [] => None | a :: l' => match f a with Some b => Some b | None => first_some f l' end end.

Lemma first_some_app {A B} (f : A -> option B) l k :
  first_some f (l ++ k) = match first_some f l with Some b => Some b | None => first_some f k end.
Proof. induction l as [|a l IH]; cbn; [done|]. by destruct (f a). Qed.

Lemma first_some_ext {A B} (f g : A -> option B) l : (forall a, f a = g a) -> first_some f l = first_some g l.
Proof. intros E. induction l as [|a l IH]; cbn; [done|]. by rewrite E, IH. Qed.

Lemma first_some_flat {A B C} (f : A -> list B) (g : B -> option C) l :
  first_some g (List.flat_map f l) = first_some (fun a => first_some g (f a)) l.
Proof. induction l as [|a l IH]; cbn; [done|]. by rewrite first_some_app, IH. Qed.

Lemma match_re_ends r s g k : capless r = true -> match_re r s g k = first_some (fun s' => k s' g) (ends r s).
Proof.
  revert s g k. induction r as [|p|a IHa b IHb|a IHa b IHb|p greedy|a IHa|n a _|p|]; intros s g k Hc; cbn [match_re ends].
  - cbn. by destruct (k s g).
  - destruct s as [|c s]; [done|]. destruct (p c); [|done]. cbn. by destruct (k s g).
  - apply andb_true_iff in Hc as [Ha Hb]. rewrite IHa by done. rewrite first_some_flat. apply first_some_ext. intros s'. by apply IHb.
  - apply andb_true_iff in Hc as [Ha Hb]. by rewrite first_some_app, IHa, IHb.
  - clear Hc. induction s as [|c s IH].
    + destruct greedy; cbn; by destruct (k [] g).
    + destruct greedy, (p c); cbn [first_some app]; rewrite ?first_some_app, ?IH; cbn; by destruct (k (c :: s) g).
  - cbn in Hc. generalize (Datatypes.length s). intros n. revert s g. induction n as [|n IH]; intros s g; cbn [first_some app].
    + by destruct (k s g).
    + rewrite IHa by done. rewrite first_some_app, first_some_flat. cbn [first_some].
      match goal with |- match ?x with Some _ => _ | None => _ end = match ?y with Some _ => _ | None => _ end => assert (x = y) as -> end.
      { apply first_some_ext. intros s'. destruct (Datatypes.length s' <? Datatypes.length s)%nat; [apply IH | done]. }
      case_match; [done | by destruct (k s g)].
  - done.
  - destruct s as [|c s]; [cbn; by destruct (k [] g)|]. destruct (p c); [done|]. cbn. by destruct (k (c :: s) g).
  - destruct s; cbn; [by destruct (k [] g) | done].
Qed.

(** Every end is behind what was taken. *)
Lemma ends_suffix r s s' : s' ∈ ends r s -> exists m, s = m ++ s'.
Proof.
  revert s s'. induction r as [|p|a IHa b IHb|a IHa b IHb|p greedy|a IHa|n a IHa|p|]; intros s s' Hin; cbn [ends] in Hin.
  - apply list_elem_of_singleton in Hin as ->. by exists [].
  - destruct s as [|c s]; [by apply elem_of_nil in Hin|]. destruct (p c); [|by apply elem_of_nil in Hin].
    apply list_elem_of_singleton in Hin as ->. by exists [c].
  - apply list_elem_of_In, in_flat_map in Hin as (t & Ht & Hs). apply list_elem_of_In, IHa in Ht as [m ->].
    apply list_elem_of_In, IHb in Hs as [m' ->]. exists (m ++ m'). by rewrite app_assoc.
  - apply elem_of_app in Hin as [Hin|Hin]; [by apply IHa | by apply IHb].
  - revert Hin. induction s as [|c s IH]; intros Hin.
    + assert (s' = []) as -> by (destruct greedy; cbn in Hin; set_solver). by exists [].
    + assert (Hc : s' = c :: s \/ p c = true /\ s' ∈ ends (Many p greedy) s).
      { destruct greedy, (p c); cbn in Hin |- *; set_solver. }
      destruct Hc as [->|[_ Hc]]; [by exists []|]. destruct (IH Hc) as [m ->]. by exists (c :: m).
  - revert Hin. generalize (Datatypes.length s). intros n. revert s. induction n as [|n IH]; intros s Hin; cbn -[Nat.ltb] in Hin.
    + apply list_elem_of_singleton in Hin as ->. by exists [].
    + apply elem_of_app in Hin as [Hin|Hin]; [|apply list_elem_of_singleton in Hin as ->; by exists []].
      apply list_elem_of_In, in_flat_map in Hin as (t & Ht & Hs). apply list_elem_of_In, IHa in Ht as [m ->].
      case_match; [|done]. apply list_elem_of_In, IH in Hs as [m' ->]. exists (m ++ m'). by rewrite app_assoc.
  - by apply IHa.
  - destruct s as [|c s]; [|destruct (p c); [by apply elem_of_nil in Hin|]]; apply list_elem_of_singleton in Hin as ->; by exists [].
  - destruct s; [|by apply elem_of_nil in Hin]. apply list_elem_of_singleton in Hin as ->. by exists [].
Qed.

Lemma first_some_head {A B} (f : A -> B) l : first_some (fun a => Some (f a)) l = option_map f (head l).
Proof. by destruct l. Qed.

Lemma match_front_ends r s : capless r = true ->
  match_front r s = option_map (fun s' => take (Datatypes.length s - Datatypes.length s') s) (head (ends r s)).
Proof.
  intros Hc. unfold match_front, FindStringSubmatch. cbn [match_re]. rewrite match_re_ends by done.
  rewrite first_some_head. by destruct (head (ends r s)).
Qed.

Lemma match_front_app r s m : capless r = true ->
  match_front r s = Some m <-> exists s', head (ends r s) = Some s' /\ s = m ++ s'.
Proof.
  intros Hc. rewrite match_front_ends by done. destruct (head (ends r s)) as [s'|] eqn:E; cbn.
  - destruct (ends_suffix r s s') as [m' Hm]; [by apply head_Some_elem_of|].
    replace (take _ s) with m'; [|rewrite Hm, length_app, Nat.add_sub; by rewrite take_app_length]. split.
    + intros [= ->]. eauto.
    + intros (s'' & [= <-] & Hs). f_equal. rewrite Hm in Hs. by apply app_inv_tail in Hs.
  - split; [done|]. by intros (? & ? & _).
Qed.

(** ** url() by hand *)

Fixpoint skip (l : list ascii) : list ascii :=
  match l with c :: l' => if re_space c then skip l' else l | [] => [] end.

(** What stands before the first closing parenthesis that is not escaped, and behind it. *)
Fixpoint upto (l : list ascii) : option (list ascii * list ascii) :=
  match l with
  | [] => None
  | c :: l' =>
    if Ascii.eqb c close_paren then Some ([], l')
    else if Ascii.eqb c backslash then
      match l' with
      | [] => None
      | d :: l'' => p ← upto l''; Some (c :: d :: p.1, p.2)
      end
    else p ← upto l'; Some (c :: p.1, p.2)
  end.

Definition is_quote (c : ascii) : bool := Ascii.eqb c double_quote || Ascii.eqb c single_quote.

(** Behind a quoted address and its parenthesis. *)
Definition after_quoted (l : list ascii) : option (list ascii) :=
  match l with
  | q :: l' =>
    if is_quote q then
      match Cut q l' with
      | Some (_, behind) => match skip behind with c :: rest => if Ascii.eqb c close_paren then Some rest else None | [] => None end
      | None => None
      end
    else None
  | [] => None
  end.

Definition url_rest (t : list ascii) : option (list ascii) :=
  match after_quoted (skip t) with
  | Some rest => Some rest
  | None => snd <$> upto (skip t)
  end.

(** url( in any case, and what is behind it. *)
Definition url_open (s : list ascii) : option (list ascii) :=
  match s with
  | u :: r :: l :: p :: t =>
    if Ascii.eqb (lower u) "u" && Ascii.eqb (lower r) "r" && Ascii.eqb (lower l) "l" && Ascii.eqb p "(" then Some t else None
  | _ => None
  end.

Lemma head_app_list {A} (l k : list A) : head (l ++ k) = match head l with Some a => Some a | None => head k end.
Proof. by destruct l. Qed.

Lemma head_flat_map {A B} (f : A -> list B) l : head (List.flat_map f l) = first_some (fun a => head (f a)) l.
Proof. induction l as [|a l IH]; cbn; [done|]. rewrite head_app_list, IH. done. Qed.

(** A greedy class first takes all it can. *)
Lemma ends_spaces s : exists more, ends spaces s = skip s :: more.
Proof.
  unfold spaces. cbn [ends]. induction s as [|c s IH]; [by exists []|]. cbn [skip]. destruct (re_space c); [|by exists []].
  destruct IH as [more ->]. by eexists.
Qed.

Lemma skip_no_space s c rest : skip s = c :: rest -> re_space c = false.
Proof. induction s as [|d s IH]; cbn; [done|]. destruct (re_space d) eqn:E; [done|]. by intros [= <- _]. Qed.

Lemma ends_spaces_paren s : head (ends (Seq spaces (chr close_paren)) s) =
  match skip s with c :: rest => if Ascii.eqb c close_paren then Some rest else None | [] => None end.
Proof.
  cbn [ends]. rewrite head_flat_map. unfold spaces. cbn [ends]. induction s as [|c s IH]; [done|]. cbn [skip]. destruct (re_space c) eqn:Hc.
  - rewrite first_some_app, IH. cbn [first_some head]. destruct (skip s) as [|d rest] eqn:Hk; [|destruct (Ascii.eqb d close_paren)]; try done.
    all: unfold chr; cbn [ends]; destruct (Ascii.eqb_spec close_paren c) as [<-|?]; [discriminate Hc | done].
  - cbn [first_some app]. unfold chr. cbn [ends]. rewrite (Ascii.eqb_sym c). by destruct (Ascii.eqb close_paren c).
Qed.

Lemma ends_quoted q l : ends (quoted_by q) l = match l with
  | c :: l' => if Ascii.eqb q c then match Cut q l' with Some (_, behind) => [behind] | None => [] end else []
  | [] => [] end.
Proof.
  destruct l as [|c l]; [done|]. cbn [quoted_by ends chr]. destruct (Ascii.eqb q c); [|done]. cbn [List.flat_map]. rewrite app_nil_r.
  induction l as [|d l IH]; [done|]. cbn [Cut]. replace (but [q] d) with (negb (Ascii.eqb d q)) by (unfold but; cbn; by rewrite orb_false_r).
  destruct (Ascii.eqb_spec d q) as [->|Hd]; cbn [negb].
  - cbn. by rewrite Ascii.eqb_refl.
  - rewrite flat_map_app, IH. cbn [List.flat_map]. destruct (Ascii.eqb_spec q d); [congruence|]. rewrite !app_nil_r.
    by destruct (Cut q l) as [[]|].
Qed.

Lemma space_plain c : re_space c = true -> Ascii.eqb c close_paren = false /\ Ascii.eqb c backslash = false /\ is_quote c = false.
Proof.
  intros Hc. unfold is_quote. rewrite orb_false_iff, !Ascii.eqb_neq. split_and!; intros ->; discriminate Hc.
Qed.

Lemma upto_skip l : snd <$> upto l = snd <$> upto (skip l).
Proof.
  induction l as [|c l IH]; [done|]. cbn [skip]. destruct (re_space c) eqn:Hc; [|done]. rewrite <- IH.
  destruct (space_plain c Hc) as (Hp & Hb & _). cbn [upto]. rewrite Hp, Hb. by destruct (upto l).
Qed.

Definition after_url : Re := Seq spaces (chr close_paren).

Lemma unquoted_step l : ends (Alt (Seq (chr backslash) (Chr any_byte)) (Chr (but [close_paren; backslash]))) l =
  match l with
  | c :: l' =>
    if Ascii.eqb c close_paren then []
    else if Ascii.eqb c backslash then match l' with d :: l'' => [l''] | [] => [] end else [l']
  | [] => []
  end.
Proof.
  destruct l as [|c l]; [done|]. unfold chr. cbn [ends]. unfold but. cbn [existsb]. rewrite orb_false_r.
  destruct (Ascii.eqb_spec c close_paren) as [->|Hp]; [done|]. rewrite (Ascii.eqb_sym backslash).
  destruct (Ascii.eqb_spec c backslash) as [->|Hb]; [|done]. by destruct l.
Qed.

Lemma unquoted_first l : first_some (fun a => head (ends after_url a)) (ends unquoted_url l) = snd <$> upto l.
Proof.
  unfold unquoted_url. pose proof unquoted_step as Hr. set (r := Alt _ _) in *. clearbody r. cbn [ends]. generalize (Nat.le_refl (Datatypes.length l)). generalize (Datatypes.length l) at 2 3. intros n.
  revert l. induction n as [n IH] using lt_wf_ind. intros l Hn. destruct n as [|n]; cbn -[Nat.ltb ends after_url].
  { destruct l; [done | cbn in Hn; lia]. }
  rewrite Hr, first_some_app. cbn [first_some]. rewrite ends_spaces_paren. destruct l as [|c l]; [done|]. cbn [Datatypes.length] in Hn. cbn [upto].
  destruct (Ascii.eqb_spec c close_paren) as [->|Hp]; [done|].
  destruct (Ascii.eqb_spec c backslash) as [->|Hb].
  - destruct l as [|d l]; [done|]. cbn -[Nat.ltb ends after_url]. cbn [Datatypes.length] in Hn.
    assert ((Datatypes.length l <? S (S (Datatypes.length l)))%nat = true) as -> by (apply Nat.ltb_lt; lia).
    rewrite app_nil_r, IH by lia. destruct (upto l) as [[]|]; done.
  - cbn -[Nat.ltb ends after_url skip]. assert ((Datatypes.length l <? S (Datatypes.length l))%nat = true) as -> by (apply Nat.ltb_lt; lia).
    rewrite app_nil_r, IH by lia. destruct (upto l) as [[b rest]|] eqn:E; [done|]. cbn [fmap option_fmap option_map mbind option_bind skip].
    destruct (re_space c) eqn:Hc.
    + pose proof (upto_skip l) as Hs. rewrite E in Hs. destruct (skip l) as [|d rest]; [done|]. cbn in Hs. by destruct (Ascii.eqb d close_paren).
    + by destruct (Ascii.eqb_spec c close_paren).
Qed.

Definition url_body (t : list ascii) : option (list ascii) :=
  match after_quoted t with Some rest => Some rest | None => snd <$> upto t end.

Lemma first_some_single {A B} (f : A -> option B) (o : option A) :
  first_some f (match o with Some a => [a] | None => [] end) = o ≫= f.
Proof. destruct o; cbn; [by destruct (f a) | done]. Qed.

Lemma url_body_ends t :
  head (ends (Seq (Alt (quoted_by double_quote) (Alt (quoted_by single_quote) unquoted_url)) after_url) t) = url_body t.
Proof.
  cbn [ends]. rewrite head_flat_map, !first_some_app, unquoted_first, !ends_quoted. unfold url_body, after_quoted, is_quote.
  destruct t as [|c t]; [done|]. rewrite (Ascii.eqb_sym c double_quote), (Ascii.eqb_sym c single_quote).
  destruct (Ascii.eqb_spec double_quote c) as [<-|Hd].
  - cbn [orb]. change (single_quote =? double_quote)%char with false. cbn [first_some].
    destruct (Cut double_quote t) as [[b behind]|]; cbn [first_some]; [|done]. rewrite ends_spaces_paren. destruct (skip behind) as [|d r]; [done|]. by destruct (Ascii.eqb d close_paren).
  - cbn [first_some orb]. destruct (Ascii.eqb_spec single_quote c) as [<-|Hs]; [|done].
    destruct (Cut single_quote t) as [[b behind]|]; cbn [first_some]; [|done]. rewrite ends_spaces_paren. destruct (skip behind) as [|d r]; [done|]. by destruct (Ascii.eqb d close_paren).
Qed.

Lemma url_rest_ends t : head (ends (Seq spaces (Seq (Alt (quoted_by double_quote) (Alt (quoted_by single_quote) unquoted_url)) after_url)) t) = url_rest t.
Proof.
  change (ends (Seq spaces ?r) t) with (List.flat_map (fun s' => ends r s') (ends spaces t)). rewrite head_flat_map.
  rewrite (first_some_ext _ _ _ url_body_ends). change (url_rest t) with (url_body (skip t)). unfold spaces. cbn [ends].
  induction t as [|c t IH]; [by destruct (url_body [])|]. cbn [skip]. destruct (re_space c) eqn:Hc; [|cbn; by destruct (url_body (c :: t))].
  rewrite first_some_app, IH. destruct (url_body (skip t)) as [rest|] eqn:E; [done|]. cbn [first_some].
  destruct (space_plain c Hc) as (Hp & Hb & Hq). unfold url_body. cbn [after_quoted upto]. rewrite Hq, Hp, Hb.
  pose proof (upto_skip t) as Hs. unfold url_body in E. destruct (after_quoted (skip t)); [done|]. rewrite E in Hs.
  by destruct (upto t).
Qed.

Lemma ends_chr p r s : ends (Seq (Chr p) r) s = match s with c :: s' => if p c then ends r s' else [] | [] => [] end.
Proof. cbn [ends]. destruct s as [|c s]; [done|]. destruct (p c); [|done]. cbn. by rewrite app_nil_r. Qed.

Lemma ends_assoc a b c s : ends (Seq (Seq a b) c) s = ends (Seq a (Seq b c)) s.
Proof.
  cbn [ends]. induction (ends a s) as [|x l IH]; [done|]. cbn [List.flat_map]. by rewrite flat_map_app, IH.
Qed.

Lemma ends_eps r s : ends (Seq Eps r) s = ends r s.
Proof. cbn. by rewrite app_nil_r. Qed.

(** What the pattern finds is what the scanner finds. *)
Lemma svgCSSURL_ends s : head (ends svgCSSURL s) = url_open s ≫= url_rest.
Proof.
  assert (H : ends svgCSSURL s = match url_open s with
    | Some t => ends (Seq spaces (Seq (Alt (quoted_by double_quote) (Alt (quoted_by single_quote) unquoted_url)) after_url)) t
    | None => [] end).
  { unfold svgCSSURL. fold after_url. set (r := Seq spaces _).
    change (word_ci "url") with (Seq (either_case "u") (Seq (either_case "r") (Seq (either_case "l") Eps))).
    rewrite !ends_assoc. unfold either_case, chr. unfold url_open.
    destruct s as [|a s]; rewrite ends_chr; [done|]. change (lower "u") with "u"%char. destruct (Ascii.eqb_spec (lower a) "u"); [|by repeat case_match].
    rewrite ends_assoc. destruct s as [|b s]; rewrite ends_chr; [done|]. change (lower "r") with "r"%char. destruct (Ascii.eqb_spec (lower b) "r"); [|by repeat case_match].
    rewrite ends_assoc. destruct s as [|c s]; rewrite ends_chr; [done|]. change (lower "l") with "l"%char. destruct (Ascii.eqb_spec (lower c) "l"); [|by repeat case_match].
    rewrite ends_eps. destruct s as [|d s]; rewrite ends_chr; [done|]. rewrite (Ascii.eqb_sym d). by destruct (Ascii.eqb "(" d). }
  rewrite H. destruct (url_open s); [apply url_rest_ends | done].
Qed.

(** ** Replacing and finding, unfolded *)

(** FindAll: the leftmost matches, one behind the other. *)
Fixpoint find_from (n : nat) (r : Re) (s : list ascii) : list (list ascii) :=
  match n, s with
  | S n', c :: s' =>
    match match_front r s with
    | Some (d :: m) => (d :: m) :: find_from n' r (drop (Datatypes.length m) s')
    | _ => find_from n' r s'
    end
  | _, _ => []
  end.
Definition FindAll (r : Re) (s : list ascii) : list (list ascii) := find_from (Datatypes.length s) r s.

Lemma replace_from_fuel r f n s : (Datatypes.length s <= n)%nat -> replace_from n r f s = ReplaceAllFunc r f s.
Proof.
  unfold ReplaceAllFunc. revert s. induction n as [n IH] using lt_wf_ind. intros s Hn.
  destruct s as [|c s]; [by destruct n|]. destruct n as [|n]; cbn in Hn; [lia|]. cbn [replace_from Datatypes.length].
  destruct (match_front r (c :: s)) as [[|d m]|]; [by rewrite IH by lia| |by rewrite IH by lia].
  f_equal. pose proof (length_drop s (Datatypes.length m)) as Hd.
  rewrite (IH n) by lia. destruct (decide (Datatypes.length s = n)) as [->|Hne]; [by rewrite (IH n) by lia | by rewrite (IH (Datatypes.length s)) by lia].
Qed.

Lemma find_from_fuel r n s : (Datatypes.length s <= n)%nat -> find_from n r s = FindAll r s.
Proof.
  unfold FindAll. revert s. induction n as [n IH] using lt_wf_ind. intros s Hn.
  destruct s as [|c s]; [by destruct n|]. destruct n as [|n]; cbn in Hn; [lia|]. cbn [find_from Datatypes.length].
  destruct (match_front r (c :: s)) as [[|d m]|]; [by rewrite IH by lia| |by rewrite IH by lia].
  f_equal. pose proof (length_drop s (Datatypes.length m)) as Hd.
  rewrite (IH n) by lia. destruct (decide (Datatypes.length s = n)) as [->|Hne]; [by rewrite (IH n) by lia | by rewrite (IH (Datatypes.length s)) by lia].
Qed.

Lemma ReplaceAllFunc_hit r f d m s : match_front r (d :: m ++ s) = Some (d :: m) ->
  ReplaceAllFunc r f (d :: m ++ s) = f (d :: m) ++ ReplaceAllFunc r f s.
Proof.
  intros E. unfold ReplaceAllFunc at 1. cbn [Datatypes.length replace_from]. rewrite E, drop_app_length.
  f_equal. apply replace_from_fuel. rewrite length_app. lia.
Qed.
Lemma ReplaceAllFunc_miss r f c s : match_front r (c :: s) = None -> ReplaceAllFunc r f (c :: s) = c :: ReplaceAllFunc r f s.
Proof. intros E. unfold ReplaceAllFunc. cbn [Datatypes.length replace_from]. by rewrite E. Qed.

Lemma FindAll_hit r d m s : match_front r (d :: m ++ s) = Some (d :: m) -> FindAll r (d :: m ++ s) = (d :: m) :: FindAll r s.
Proof.
  intros E. unfold FindAll at 1. cbn [Datatypes.length find_from]. rewrite E, drop_app_length.
  f_equal. apply find_from_fuel. rewrite length_app. lia.
Qed.
Lemma FindAll_miss r c s : match_front r (c :: s) = None -> FindAll r (c :: s) = FindAll r s.
Proof. intros E. unfold FindAll. cbn [Datatypes.length find_from]. by rewrite E. Qed.

(** Where nothing matches, nothing is replaced. *)
Lemma no_match_id r f s : (forall x q, s = x ++ q -> match_front r q = None) -> ReplaceAllFunc r f s = s /\ FindAll r s = [].
Proof.
  induction s as [|c s IH]; intros H; [done|]. rewrite ReplaceAllFunc_miss, FindAll_miss by (by apply (H [])).
  destruct IH as [-> ->]; [|done]. intros x q ->. by apply (H (c :: x)).
Qed.

(** ** The last pass *)

Lemma upto_split t b r : upto t = Some (b, r) -> t = b ++ close_paren :: r /\ forall r', upto (b ++ close_paren :: r') = Some (b, r').
Proof.
  revert b. remember (Datatypes.length t) as n eqn:Hn. revert t Hn. induction n as [n IH] using lt_wf_ind. intros t -> b H.
  destruct t as [|c t]; [done|]. cbn [upto] in H. destruct (Ascii.eqb_spec c close_paren) as [->|Hp]; [by injection H as <- <-|].
  destruct (Ascii.eqb_spec c backslash) as [->|Hb].
  - destruct t as [|d t]; [done|]. destruct (upto t) as [[b' r']|] eqn:E; [|done]. cbn in H. injection H as <- <-.
    destruct (IH (Datatypes.length t)) with (t := t) (b := b') as [-> Hs]; [cbn; lia | done | done|].
    split; [done|]. intros r''. cbn [upto app]. by rewrite Hs.
  - destruct (upto t) as [[b' r']|] eqn:E; [|done]. cbn in H. injection H as <- <-.
    destruct (IH (Datatypes.length t)) with (t := t) (b := b') as [-> Hs]; [cbn; lia | done | done|].
    split; [done|]. intros r''. cbn [upto app]. rewrite Hs. by rewrite (proj2 (Ascii.eqb_neq _ _) Hp), (proj2 (Ascii.eqb_neq _ _) Hb).
Qed.

Lemma upto_plain c l : c ≠ backslash -> is_Some (upto l) -> is_Some (upto (c :: l)).
Proof.
  intros Hb [[b r] E]. cbn [upto]. rewrite E. destruct (Ascii.eqb c close_paren); [done|]. rewrite (proj2 (Ascii.eqb_neq _ _) Hb). done.
Qed.

(** An escape shifts what is read by one byte; behind a plain byte all is as before. *)
Lemma upto_behind x c l : c ≠ backslash -> is_Some (upto l) -> is_Some (upto (x ++ c :: l)).
Proof.
  intros Hc Hl. remember (Datatypes.length x) as n eqn:Hn. revert x Hn. induction n as [n IH] using lt_wf_ind. intros x ->.
  destruct x as [|d x]; [by apply upto_plain|]. cbn [app upto]. destruct (Ascii.eqb d close_paren); [done|].
  destruct (Ascii.eqb d backslash).
  - destruct x as [|e x]; cbn [app]; [destruct Hl as [[? ?] ->]; done|].
    destruct (IH (Datatypes.length x)) with (x := x) as [[? ?] ->]; [cbn; lia | done | done].
  - destruct (IH (Datatypes.length x)) with (x := x) as [[? ?] ->]; [cbn; lia | done | done].
Qed.

Lemma upto_paren l : is_Some (upto (close_paren :: l)).
Proof. by eexists. Qed.

Lemma skip_split t : exists sp, t = sp ++ skip t /\ forallb re_space sp = true.
Proof.
  induction t as [|c t (sp & Ht & Hs)]; [by exists []|]. cbn [skip]. destruct (re_space c) eqn:Hc; [|by exists []].
  exists (c :: sp). cbn. rewrite Hc, <- Ht. done.
Qed.

Lemma skip_spaces sp l : forallb re_space sp = true -> skip (sp ++ l) = skip l.
Proof. induction sp as [|c sp IH]; cbn; [done|]. intros [-> H]%andb_true_iff. by apply IH. Qed.

Lemma skip_app_text l k c r : skip l = c :: r -> skip (l ++ k) = c :: r ++ k.
Proof. induction l as [|d l IH]; cbn; [done|]. destruct (re_space d); [done | by intros [= -> ->]]. Qed.

Lemma space_not_backslash c : re_space c = true -> c ≠ backslash.
Proof. by intros H ->. Qed.
Lemma quote_not_backslash c : is_quote c = true -> c ≠ backslash.
Proof. by intros H ->. Qed.
Lemma quote_not_space c : is_quote c = true -> re_space c = false /\ is_space c = false.
Proof.
  unfold is_quote. intros [E|E]%orb_true_iff; apply Ascii.eqb_eq in E as ->; done.
Qed.

Lemma Cut_split sep l a b : Cut sep l = Some (a, b) -> l = a ++ sep :: b /\ (sep ∉ a).
Proof.
  revert a. induction l as [|c l IH]; intros a H; [done|]. cbn [Cut] in H. destruct (Ascii.eqb_spec c sep) as [->|Hc].
  - injection H as <- <-. split; [done | apply not_elem_of_nil].
  - destruct (Cut sep l) as [[a' b']|]; [|done]. cbn in H. injection H as <- <-. destruct (IH a' eq_refl) as [-> Hn]. split; [done | set_solver].
Qed.

(** A quoted address with its parenthesis stands on its own. *)
Lemma after_quoted_split t r : after_quoted t = Some r ->
  exists q b sp, t = q :: b ++ q :: sp ++ close_paren :: r /\ is_quote q = true /\ (q ∉ b) /\ forallb re_space sp = true.
Proof.
  unfold after_quoted. destruct t as [|q t]; [done|]. destruct (is_quote q) eqn:Hq; [|done].
  destruct (Cut q t) as [[b behind]|] eqn:Hc; [|done]. destruct (skip_split behind) as (sp & Hb & Hs).
  destruct (skip behind) as [|c rest]; [done|]. destruct (Ascii.eqb_spec c close_paren) as [->|]; [|done]. intros [= <-].
  apply Cut_split in Hc as [-> Hn]. exists q, b, sp. by rewrite <- Hb.
Qed.

Lemma after_quoted_build q b sp r : is_quote q = true -> q ∉ b -> forallb re_space sp = true ->
  after_quoted (q :: b ++ q :: sp ++ close_paren :: r) = Some r.
Proof. intros Hq Hb Hs. unfold after_quoted. by rewrite Hq, Cut_app, skip_spaces. Qed.

Lemma url_rest_reach t r : url_rest t = Some r -> is_Some (upto t).
Proof.
  unfold url_rest. intros H. destruct (skip_split t) as (sp & Ht & Hs). destruct (after_quoted (skip t)) as [r'|] eqn:Eq.
  - apply after_quoted_split in Eq as (q & b & sp2 & E & Hq & _ & Hs2). rewrite Ht, E.
    destruct (decide (sp2 = [])) as [->|Hne].
    + replace (sp ++ _) with ((sp ++ q :: b) ++ q :: close_paren :: r') by (by rewrite <- app_assoc).
      apply upto_behind; [by apply quote_not_backslash | apply upto_paren].
    + destruct (exists_last Hne) as (sp3 & c & ->). rewrite forallb_app in Hs2. cbn in Hs2. apply andb_true_iff in Hs2 as [_ Hc]. rewrite andb_true_r in Hc.
      replace (sp ++ _) with ((sp ++ q :: b ++ q :: sp3) ++ c :: close_paren :: r') by (by rewrite <- !app_assoc; cbn; rewrite <- !app_assoc).
      apply upto_behind; [by apply space_not_backslash | apply upto_paren].
  - pose proof (upto_skip t) as Hu. rewrite H in Hu. destruct (upto t); [done | discriminate].
Qed.

Lemma svgCSSURL_match s m : match_front svgCSSURL s = Some m <-> exists r, (url_open s ≫= url_rest) = Some r /\ s = m ++ r.
Proof. rewrite match_front_app by reflexivity. by rewrite svgCSSURL_ends. Qed.

Lemma svgCSSURL_none s : match_front svgCSSURL s = None <-> (url_open s ≫= url_rest) = None.
Proof. rewrite match_front_ends by reflexivity. rewrite svgCSSURL_ends. by destruct (url_open s ≫= url_rest). Qed.

Lemma url_open_split s t : url_open s = Some t <->
  exists u r l, s = u :: r :: l :: "("%char :: t /\ lower u = "u"%char /\ lower r = "r"%char /\ lower l = "l"%char.
Proof.
  unfold url_open. split.
  - destruct s as [|u [|r [|l [|p s]]]]; try done. intros H. case_match; [|done]. injection H as ->.
    rewrite !andb_true_iff, !Ascii.eqb_eq in H0. destruct H0 as (((? & ?) & ?) & ->). by exists u, r, l.
  - intros (u & r & l & -> & -> & -> & ->). done.
Qed.

Lemma lower_not_backslash c d : lower c = d -> is_space d = false -> d ≠ backslash -> c ≠ backslash.
Proof. by intros <- _ H ->. Qed.

(** A url( that does not end hides no other behind it. *)
Lemma open_end_hides s t : url_open s = Some t -> url_rest t = None ->
  forall x q, s = x ++ q -> match_front svgCSSURL q = None.
Proof.
  intros Ho Hr x q E. apply svgCSSURL_none. destruct (url_open q) as [tq|] eqn:Hq; [|done]. cbn. destruct (url_rest tq) as [r|] eqn:Hrq; [|done]. exfalso.
  apply url_rest_reach in Hrq. apply url_open_split in Ho as (u & r0 & l & -> & Hu & Hr0 & Hl). apply url_open_split in Hq as (u' & r' & l' & -> & Hu' & Hr' & Hl').
  assert (Hq : is_Some (upto (u' :: r' :: l' :: "("%char :: tq))).
  { apply upto_plain; [by intros ->|]. apply upto_plain; [by intros ->|]. apply upto_plain; [by intros ->|]. by apply upto_plain. }
  assert (Ht : is_Some (upto t)).
  { destruct x as [|? [|? [|? [|? x]]]]; cbn in E; injection E; intros; subst; try done; try congruence.
    apply upto_behind; [by intros ->|]. apply upto_plain; [by intros ->|]. apply upto_plain; [by intros ->|]. by apply upto_plain. }
  destruct Ht as [[b r2] Hb]. unfold url_rest in Hr. pose proof (upto_skip t) as Hs. rewrite Hb in Hs.
  destruct (after_quoted (skip t)); [done|]. rewrite <- Hs in Hr. done.
Qed.

(** ** Reading the value *)

Lemma trim_front q x : is_space q = false -> exists x', trim (q :: x) = q :: x' /\ forall c, c ∈ x' -> c ∈ x.
Proof.
  intros Hq. unfold trim. cbn [drop_spaces]. rewrite Hq, reverse_cons.
  assert (H : forall y, exists y', drop_spaces (y ++ [q]) = y' ++ [q] /\ forall c, c ∈ y' -> c ∈ y).
  { induction y as [|c y (y' & E & Hy)]; cbn [app drop_spaces]; [rewrite Hq; by exists []|].
    destruct (is_space c); [exists y'; set_solver | by exists (c :: y)]. }
  destruct (H (reverse x)) as (y' & -> & Hy). exists (reverse y'). rewrite reverse_app, reverse_singleton. split; [done|].
  intros c Hc. apply (proj1 (elem_of_reverse _ _)) in Hc. apply Hy in Hc. by apply (proj1 (elem_of_reverse _ _)) in Hc.
Qed.

Lemma drop_spaces_front sp l : forallb re_space sp = true -> drop_spaces (sp ++ l) = drop_spaces l.
Proof.
  induction sp as [|c sp IH]; cbn [forallb app drop_spaces]; [done|]. intros [Hc Hs]%andb_true_iff.
  assert (is_space c = true) as ->; [|by apply IH]. unfold re_space, is_space, in_range in *. lia.
Qed.

Lemma trim_inner sp q x : forallb re_space sp = true -> is_space q = false ->
  trim (sp ++ q :: x ++ [close_paren]) = q :: x ++ [close_paren].
Proof.
  intros Hs Hq. unfold trim. rewrite drop_spaces_front by done. cbn [drop_spaces]. rewrite Hq.
  change (q :: x ++ [close_paren]) with ((q :: x) ++ [close_paren]). rewrite reverse_app, reverse_singleton. cbn [app drop_spaces].
  change (is_space close_paren) with false. cbn iota. rewrite reverse_cons, reverse_involutive. done.
Qed.

Lemma drop_paren_last l : drop_paren (l ++ [close_paren]) = l.
Proof.
  unfold drop_paren. rewrite last_snoc, Ascii.eqb_refl, length_app. cbn. by rewrite Nat.add_sub, take_app_length.
Qed.

(** A value that begins with a quote is no part of the document and no raster. *)
Lemma quote_not_inert q x : is_quote q = true -> fragment (map lower (q :: x)) || isInlineRasterImage (map lower (q :: x)) = false.
Proof.
  unfold is_quote. intros [E|E]%orb_true_iff; apply Ascii.eqb_eq in E as ->; apply orb_false_iff; split; try reflexivity;
    unfold isInlineRasterImage, inlineRasterTypes, has_prefix; cbn [existsb]; repeat (rewrite bool_decide_eq_false_2; [|by cbn; intros [=]]); reflexivity.
Qed.

Lemma inert_closes u r l sp q x : forallb re_space sp = true -> is_quote q = true ->
  lower u = "u"%char -> lower r = "r"%char -> lower l = "l"%char ->
  inert_url (u :: r :: l :: "("%char :: sp ++ q :: x ++ [close_paren]) = true -> q ∈ x.
Proof.
  intros Hs Hq Hu Hr Hl H. destruct (decide (q ∈ x)) as [|Hn]; [done|]. exfalso. destruct (quote_not_space q Hq) as [_ Hsp].
  assert (Hv : exists x', cssURLValue (u :: r :: l :: "("%char :: sp ++ q :: x ++ [close_paren]) = q :: x').
  { unfold cssURLValue. assert (Cut "(" (u :: r :: l :: "("%char :: sp ++ q :: x ++ [close_paren]) = Some ([u; r; l], sp ++ q :: x ++ [close_paren])) as ->.
    { apply (Cut_app "("%char [u; r; l]). intros Hin. repeat (apply elem_of_cons in Hin as [<-|Hin]; [by cbn in *|]). by apply elem_of_nil in Hin. }
    rewrite trim_inner by done. change (q :: x ++ [close_paren]) with ((q :: x) ++ [close_paren]). rewrite drop_paren_last.
    destruct (trim_front q x Hsp) as (x' & -> & Hx). assert (unquote (q :: x') = q :: x') as ->.
    { unfold unquote. destruct x' as [|c x']; [done|]. unfold is_quote in Hq. rewrite Hq. cbn [List.tl].
      destruct (Cut q (c :: x')) as [[a b]|] eqn:Ec; [|done]. exfalso. apply Hn, Hx. apply Cut_split in Ec as [-> _]. set_solver. }
    destruct (trim_front q x' Hsp) as (x'' & -> & _). by eexists. }
  destruct Hv as [x' Hv]. unfold inert_url in H. rewrite Hv in H. rewrite quote_not_inert in H by done. by rewrite andb_false_r in H.
Qed.

(** A token that is kept is found again whatever follows it. *)
Lemma inert_again s m r r' : match_front svgCSSURL s = Some m -> s = m ++ r -> inert_url m = true ->
  match_front svgCSSURL (m ++ r') = Some m.
Proof.
  intros Hm Hs Hi. apply svgCSSURL_match in Hm as (r0 & Hr & Hs'). rewrite Hs in Hs'. apply app_inv_head in Hs' as <-.
  destruct (url_open s) as [t|] eqn:Ho; [|done]. cbn in Hr. apply url_open_split in Ho as (u & b & l & E & Hu & Hb & Hl).
  assert (Hgoal : forall mt, t = mt ++ r -> m = u :: b :: l :: "("%char :: mt -> url_rest (mt ++ r') = Some r' -> match_front svgCSSURL (m ++ r') = Some m).
  { intros mt _ -> Hmt. apply svgCSSURL_match. exists r'. split; [|done]. cbn [app].
    rewrite (proj2 (url_open_split _ (mt ++ r'))) by (by exists u, b, l). done. }
  assert (Hcut : forall mt, t = mt ++ r -> m = u :: b :: l :: "("%char :: mt).
  { intros mt ->. apply (app_inv_tail r). rewrite <- Hs, E. done. }
  unfold url_rest in Hr. destruct (skip_split t) as (sp & Ht & Hsp). destruct (after_quoted (skip t)) as [r1|] eqn:Eq.
  - injection Hr as ->. apply after_quoted_split in Eq as (q & x & sp2 & Ek & Hq & Hx & Hsp2). rewrite Ek in Ht.
    assert (Hmt : t = (sp ++ q :: x ++ q :: sp2 ++ [close_paren]) ++ r) by (rewrite Ht; repeat (rewrite <- app_assoc; cbn [app]); done).
    apply (Hgoal _ Hmt); [by apply Hcut|]. unfold url_rest. repeat (rewrite <- app_assoc; cbn [app]). rewrite skip_spaces by done.
    cbn [skip]. rewrite (proj1 (quote_not_space q Hq)). by rewrite after_quoted_build.
  - destruct (upto (skip t)) as [[x r2]|] eqn:Eu; [|done]. injection Hr as <-. apply upto_split in Eu as [Ek Hstable]. rewrite Ek in Ht.
    assert (Hmt : t = (sp ++ x ++ [close_paren]) ++ r2) by (rewrite Ht; repeat (rewrite <- app_assoc; cbn [app]); done).
    apply (Hgoal _ Hmt); [by apply Hcut|]. unfold url_rest. repeat (rewrite <- app_assoc; cbn [app]). rewrite skip_spaces by done.
    assert (Hfix : skip (x ++ close_paren :: r') = x ++ close_paren :: r').
    { destruct x as [|c x]; [done|]. cbn [app skip]. by rewrite (skip_no_space t c (x ++ close_paren :: r2)). }
    rewrite Hfix, Hstable. rewrite Ek in Eq. destruct x as [|q x]; [done|]. cbn [app] in *. destruct (is_quote q) eqn:Hq; [|by unfold after_quoted; rewrite Hq].
    assert (Hin : q ∈ x).
    { apply (inert_closes u b l sp q x); try done. pose proof (Hcut _ Hmt) as Hm. cbn [app] in Hm. by rewrite <- Hm. }
    apply list_elem_of_split_l in Hin as (y & z & -> & Hy). unfold after_quoted in *. rewrite Hq in *.
    rewrite <- app_assoc in Eq |- *. cbn [app] in Eq |- *. rewrite Cut_app in Eq |- * by done.
    destruct (skip z) as [|c z'] eqn:Hz.
    + exfalso. destruct (skip_split z) as (sp2 & Hz2 & Hsp2). rewrite Hz, app_nil_r in Hz2. subst z. rewrite skip_spaces in Eq by done. done.
    + rewrite (skip_app_text z (close_paren :: r2) c z' Hz) in Eq. rewrite (skip_app_text z (close_paren :: r') c z' Hz).
      by destruct (Ascii.eqb c close_paren).
Qed.

Lemma url_rest_suffix t r : url_rest t = Some r -> exists mt, t = mt ++ r.
Proof.
  unfold url_rest. intros H. destruct (skip_split t) as (sp & Ht & _). destruct (after_quoted (skip t)) as [r1|] eqn:Eq.
  - injection H as ->. apply after_quoted_split in Eq as (q & x & sp2 & E & _). rewrite E in Ht.
    exists (sp ++ q :: x ++ q :: sp2 ++ [close_paren]). rewrite Ht. repeat (rewrite <- app_assoc; cbn [app]). done.
  - destruct (upto (skip t)) as [[x r2]|] eqn:Eu; [|done]. injection H as <-. apply upto_split in Eu as [E _]. rewrite E in Ht.
    exists (sp ++ x ++ [close_paren]). rewrite Ht. repeat (rewrite <- app_assoc; cbn [app]). done.
Qed.

(** What a token begins with. *)
Lemma token_front s m : match_front svgCSSURL s = Some m -> exists u mt rest, m = u :: mt /\ lower u = "u"%char /\ s = u :: mt ++ rest.
Proof.
  intros (r & Ho & Hs)%svgCSSURL_match. destruct (url_open s) as [t|] eqn:Ht; [|done]. cbn in Ho.
  apply url_open_split in Ht as (u & b & l & E & Hu & _). destruct (url_rest_suffix t r Ho) as [mt ->].
  exists u, (b :: l :: "("%char :: mt), r. split; [|done]. apply (app_inv_tail r). by rewrite <- Hs, E.
Qed.

(** The output begins with a byte of a token only where the input does. *)
Lemma strip_front s c y : stripUnsafeCSSURLs s = c :: y -> lower c ≠ "u"%char -> lower c ≠ "n"%char ->
  exists s', s = c :: s' /\ y = stripUnsafeCSSURLs s'.
Proof.
  unfold stripUnsafeCSSURLs. intros H Hu Hn. destruct s as [|d s]; [done|]. destruct (match_front svgCSSURL (d :: s)) as [m|] eqn:E.
  - exfalso. destruct (token_front _ _ E) as (u & mt & rest & -> & Hl & [= -> ->]).
    rewrite ReplaceAllFunc_hit in H by done. unfold kept_url in H.
    destruct (inert_url _); injection H as <- _; done.
  - rewrite ReplaceAllFunc_miss in H by done. injection H as <- <-. by exists s.
Qed.

Lemma open_kept c s t : url_open (c :: stripUnsafeCSSURLs s) = Some t -> exists t', url_open (c :: s) = Some t'.
Proof.
  intros (u & r & l & E & Hu & Hr & Hl)%url_open_split. injection E as -> E.
  apply strip_front in E as (s1 & -> & E); [|by rewrite Hr..]. symmetry in E.
  apply strip_front in E as (s2 & -> & E); [|by rewrite Hl..]. symmetry in E.
  apply strip_front in E as (s3 & -> & _); [|done..]. exists s3. apply url_open_split. by exists u, r, l.
Qed.

Lemma find_none_value s : FindAll svgCSSURL (none_value ++ s) = FindAll svgCSSURL s.
Proof.
  unfold none_value. cbn [bytes list_ascii_of_string app]. rewrite !FindAll_miss; [done|..]; apply svgCSSURL_none;
    unfold url_open; destruct s as [|? [|? [|? s]]]; reflexivity.
Qed.

Lemma stripped_urls_inert s : Forall (fun m => inert_url m = true) (FindAll svgCSSURL (stripUnsafeCSSURLs s)).
Proof.
  remember (Datatypes.length s) as n eqn:Hn. revert s Hn. induction n as [n IH] using lt_wf_ind. intros s ->.
  destruct s as [|c s]; [constructor|]. destruct (match_front svgCSSURL (c :: s)) as [m|] eqn:E.
  - pose proof E as Em. destruct (token_front _ _ E) as (u & mt & rest & -> & _ & [= -> ->]).
    assert (IHr : Forall (fun m => inert_url m = true) (FindAll svgCSSURL (stripUnsafeCSSURLs rest))).
    { apply (IH (Datatypes.length rest)); [cbn; rewrite length_app; lia | done]. }
    unfold stripUnsafeCSSURLs. rewrite ReplaceAllFunc_hit by done. fold (stripUnsafeCSSURLs rest). unfold kept_url.
    destruct (inert_url (u :: mt)) eqn:Hi; [|by rewrite find_none_value].
    pose proof (inert_again _ _ rest (stripUnsafeCSSURLs rest) Em eq_refl Hi) as Ha. cbn [app] in Ha |- *.
    rewrite FindAll_hit by done. by constructor.
  - destruct (url_open (c :: s)) as [t|] eqn:Ho.
    + apply svgCSSURL_none in E. rewrite Ho in E. cbn in E.
      destruct (no_match_id svgCSSURL kept_url (c :: s)) as [Hid Hf]; [by apply open_end_hides with t|].
      unfold stripUnsafeCSSURLs. rewrite Hid, Hf. constructor.
    + unfold stripUnsafeCSSURLs. rewrite ReplaceAllFunc_miss by done. fold (stripUnsafeCSSURLs s). rewrite FindAll_miss.
      * apply (IH (Datatypes.length s)); [cbn; lia | done].
      * apply svgCSSURL_none. destruct (url_open (c :: stripUnsafeCSSURLs s)) as [t|] eqn:Ht; [|done].
        apply open_kept in Ht as [t' Ht']. congruence.
Qed.

(** C35: of a document that SanitizeSVG lets through, every url() it still holds, read
    from the front as the pattern reads it, names a part of the document itself or
    holds a raster picture, and contains no escape; and the document is one with an
    svg element in it.  The other passes promise less: see [passes_reassemble]. *)
Theorem sanitized_urls_are_inert data out : SanitizeSVG data = inr out ->
  contains svg_tag (map lower out) = true /\
  forall m, m ∈ FindAll svgCSSURL out ->
    let value := map lower (cssURLValue m) in
    (backslash ∉ value) /\ (fragment value = true \/ isInlineRasterImage value = true).
Proof.
  unfold SanitizeSVG. destruct (_ <? _); [done|]. cbv zeta. set (out' := stripUnsafeCSSURLs _).
  destruct (contains svg_tag (map lower out')) eqn:Hc; [|done]. intros [= <-]. split; [done|]. intros m Hm.
  pose proof (stripped_urls_inert (stripRemoteRefs (foldl delete_all data dropped))) as Hall. rewrite Forall_forall in Hall.
  specialize (Hall m Hm). unfold inert_url in Hall. apply andb_true_iff in Hall as [Hb Hv]. apply orb_true_iff in Hv.
  split; [|done]. intros Hin. apply negb_true_iff in Hb. enough (existsb (Ascii.eqb backslash) (map lower (cssURLValue m)) = true) by congruence.
  apply existsb_exists. exists backslash. by rewrite Ascii.eqb_refl, <- list_elem_of_In.
Qed.

Lemma sanitized_urls_are_inert_witness :
  let data := bytes "<svg><g fill='url(#a)' mask='url(http://t/x)' filter='url(data:image/svg+xml,x)'/></svg>" in
  let out := bytes "<svg><g fill='url(#a)' mask='none' filter='none'/></svg>" in
  SanitizeSVG data = inr out /\ FindAll svgCSSURL out = [bytes "url(#a)"] /\
  fragment (map lower (cssURLValue (bytes "url(#a)"))) || isInlineRasterImage (map lower (cssURLValue (bytes "url(#a)"))) = true.
Proof.
  cbv zeta. assert (E : SanitizeSVG (bytes "<svg><g fill='url(#a)' mask='url(http://t/x)' filter='url(data:image/svg+xml,x)'/></svg>")
    = inr (bytes "<svg><g fill='url(#a)' mask='none' filter='none'/></svg>")) by (vm_compute; reflexivity).
  assert (F : FindAll svgCSSURL (bytes "<svg><g fill='url(#a)' mask='none' filter='none'/></svg>") = [bytes "url(#a)"]) by (vm_compute; reflexivity).
  split; [exact E|]. split; [exact F|]. destruct (sanitized_urls_are_inert _ _ E) as [_ S].
  destruct (S (bytes "url(#a)")) as [_ [->| ->]]; [rewrite F; left | reflexivity | apply orb_true_r].
Defined.
