(* ===== verification/ImageSearch.v ===== *)
(** * Finding pictures on the web: internal/imagesearch (safeclient.go, cache.go,
      providers.go, service.go) and store/cachedimages.go

    Which addresses the server connects to, and the cache of what it fetched: the rows
    of cached_images, the files beside them, and the requests made, as one state.  The
    network, the disk and whether the database answers a call are given from outside:
    the theorems hold whatever they do. *)

From S2P Require Import Prelude Gamification Text Encoding Net Sha256 Json Matching Uploads Migrate Sanitize.

#[local] Open Scope string_scope.
#[local] Open Scope list_scope.
#[local] Open Scope Z_scope.

(** ** Where the server connects to: safeclient.go *)

Definition octet_of (ip : list Z) (i : nat) : Z := nth i ip 0.

(** The predicates of net.IP that Net.v has not. *)
Definition IsMulticast (ip : list Z) : bool :=
  match To4 ip with Some v4 => Z.land (octet_of v4 0) 240 =? 224 | None => octet_of ip 0 =? 255 end.
Definition IsUnspecified (ip : list Z) : bool :=
  bool_decide (ip = replicate 16 0) || bool_decide (ip = mapped ++ replicate 4 0).
Definition IsLinkLocalMulticast (ip : list Z) : bool :=
  match To4 ip with
  | Some v4 => (octet_of v4 0 =? 224) && (octet_of v4 1 =? 0) && (octet_of v4 2 =? 0)
  | None => (octet_of ip 0 =? 255) && (Z.land (octet_of ip 1) 15 =? 2)
  end.
Definition IsInterfaceLocalMulticast (ip : list Z) : bool :=
  match To4 ip with
  | Some _ => false
  | None => (octet_of ip 0 =? 255) && (Z.land (octet_of ip 1) 15 =? 1)
  end.

Definition IsBlockedIP (ip : list Z) : bool :=
  is_nil (head ip) || IsLoopback ip || IsPrivate ip || IsLinkLocalUnicast ip || IsLinkLocalMulticast ip || IsInterfaceLocalMulticast ip
  || IsMulticast ip || IsUnspecified ip
  || match To4 ip with
     | Some v4 => (octet_of v4 0 =? 100) && (64 <=? octet_of v4 1) && (octet_of v4 1 <=? 127)
     | None => false
     end.

Definition maxRedirects : nat := 5.

(** One request of the HTTP client: an address it cannot use, or a host and a scheme. *)
Record Hop := mkHop { hop_Scheme : string; hop_Address : string }.
Inductive HopAnswer := Redirect (to : Hop) | Final (body : option (Z * string * list ascii)).

(** The resolver and the servers: the IPs of a host, and what is answered at an IP. *)
Class Network := {
  LookupIPAddr : nat -> string -> option (list (list Z));
  answer_at : nat -> list Z -> Hop -> HopAnswer;
}.

Inductive FetchError := ErrBadAddress | ErrResolve | ErrRefused | ErrTooManyRedirects | ErrScheme | ErrNoResponse.

Section client.

Context `{Network}.

(** DialContext: the IP that is dialled, of a resolution at a moment. *)
Definition DialContext (moment : nat) (address : string) : FetchError + list Z :=
  match SplitHostPort address with
  | None => inl ErrBadAddress
  | Some (host, _) =>
    match LookupIPAddr moment host with
    | None => inl ErrResolve
    | Some [] => inl ErrResolve
    | Some (ip :: ips) => if existsb IsBlockedIP (ip :: ips) then inl ErrRefused else inr ip
    end
  end.

(** CheckRedirect, asked before a hop with the number of requests made so far. *)
Definition CheckRedirect (to : Hop) (via : nat) : option FetchError :=
  if (maxRedirects <=? via)%nat then Some ErrTooManyRedirects
  else if String.eqb (hop_Scheme to) "http" || String.eqb (hop_Scheme to) "https" then None else Some ErrScheme.

(** Do: the requests one behind the other with the IPs they went to.  [left] is
    bounded by CheckRedirect and never runs out. *)
Fixpoint Do (left via : nat) (hop : Hop) (dialled : list (list Z)) : list (list Z) * (FetchError + (Z * string * list ascii)) :=
  match DialContext via (hop_Address hop) with
  | inl e => (dialled, inl e)
  | inr ip =>
    let dialled := dialled ++ [ip] in
    match answer_at via ip hop with
    | Final (Some response) => (dialled, inr response)
    | Final None => (dialled, inl ErrNoResponse)
    | Redirect to =>
      match CheckRedirect to (S via) with
      | Some e => (dialled, inl e)
      | None => match left with O => (dialled, inl ErrTooManyRedirects) | S left' => Do left' (S via) to dialled end
      end
    end
  end.

Definition safe_get (hop : Hop) := Do maxRedirects 0 hop [].

End client.

(** ** The rows: store/cachedimages.go *)

Inductive CachedImageStatus := CachedOK | CachedUnusable.

Record CachedImage := mkCached {
  ci_SourceURL : string;
  ci_ContentType : string;
  ci_ByteSize : Z;
  ci_Size : option (Z * Z);
  ci_Status : CachedImageStatus;
  ci_FetchedAt : Z;
  ci_LastAccessedAt : Z;
}.

Definition is_ok (row : CachedImage) : bool := match ci_Status row with CachedOK => true | CachedUnusable => false end.

Inductive CacheError := ErrNotFound | ErrDatabase | ErrDisk | ErrDownload | ErrOversized | ErrUnusableCached | ErrNormalize.

(** The cache.  The database answers a call while its list of answers says so, and
    when the list is at its end. *)
Record CacheState := mkCache {
  cs_rows : gmap string CachedImage;
  cs_files : gmap string (list ascii);
  cs_now : Z;
  cs_answers : list bool;
  cs_requests : list string;
}.

Definition C (A : Type) : Type := CacheState -> (CacheError + A) * CacheState.
#[global] Instance cache_ret : MRet C := fun A a s => (inr a, s).
#[global] Instance cache_bind : MBind C := fun A B f m s => match m s with (inr a, s') => f a s' | (inl e, s') => (inl e, s') end.
Definition fails {A} (e : CacheError) : C A := fun s => (inl e, s).
Definition with_state {A} (f : CacheState -> C A) : C A := fun s => f s s.

Definition set_rows (f : gmap string CachedImage -> gmap string CachedImage) (s : CacheState) : CacheState :=
  mkCache (f (cs_rows s)) (cs_files s) (cs_now s) (cs_answers s) (cs_requests s).
Definition set_files (f : gmap string (list ascii) -> gmap string (list ascii)) (s : CacheState) : CacheState :=
  mkCache (cs_rows s) (f (cs_files s)) (cs_now s) (cs_answers s) (cs_requests s).

(** One statement. *)
Definition query {A} (f : CacheState -> A * CacheState) : C A := fun s =>
  let s' := mkCache (cs_rows s) (cs_files s) (cs_now s) (tail (cs_answers s)) (cs_requests s) in
  if default true (head (cs_answers s)) then let '(a, s'') := f s' in (inr a, s'') else (inl ErrDatabase, s').

(** An error that is logged, no more. *)
Definition logged (m : C unit) : C unit := fun s => (inr tt, (m s).2).

Definition CachedImageByHash (hash : string) : C CachedImage :=
  row ← query (fun s => (cs_rows s !! hash, s));
  match row with Some row => mret row | None => fails ErrNotFound end.

Definition PutCachedImage (hash : string) (sourceURL contentType : string) (byteSize : Z) (size : option (Z * Z)) (status : CachedImageStatus) : C unit :=
  query (fun s => (tt, set_rows <[hash := mkCached sourceURL contentType byteSize size status (cs_now s) (cs_now s)]> s)).

Definition touched (now : Z) (row : CachedImage) : CachedImage :=
  mkCached (ci_SourceURL row) (ci_ContentType row) (ci_ByteSize row) (ci_Size row) (ci_Status row) (ci_FetchedAt row) now.
Definition TouchCachedImage (hash : string) (staleAfter : Z) : C unit :=
  query (fun s => (tt, set_rows (alter (fun row => if ci_LastAccessedAt row <? cs_now s - staleAfter then touched (cs_now s) row else row) hash) s)).

(** The rows in the order of their last use. *)
Definition less_recent (a b : string * CachedImage) : Prop :=
  ci_LastAccessedAt a.2 < ci_LastAccessedAt b.2 \/ (ci_LastAccessedAt a.2 = ci_LastAccessedAt b.2 /\ text_le a.1 b.1).
#[export] Instance less_recent_dec : RelDecision less_recent.
Proof. intros a b. unfold less_recent. apply _. Defined.

Definition ok_rows (rows : gmap string CachedImage) : list (string * CachedImage) :=
  List.filter (fun kv => is_ok kv.2) (map_to_list rows).
Definition lru (rows : gmap string CachedImage) : list (string * CachedImage) := merge_sort less_recent (ok_rows rows).
Definition bytes_of (l : list (string * CachedImage)) : Z := lsum (fun kv : string * CachedImage => ci_ByteSize kv.2) l.

Definition CachedImageBytes : C Z := query (fun s => (bytes_of (lru (cs_rows s)), s)).
Definition LeastRecentlyUsedImages (limit : nat) : C (list (string * CachedImage)) := query (fun s => (take limit (lru (cs_rows s)), s)).
Definition DeleteCachedImage (hash : string) : C unit := query (fun s => (tt, set_rows (delete hash) s)).
Definition CachedImageHashes : C (gset string) := query (fun s => (dom (cs_rows s), s)).

(** ** The cache: cache.go *)

Definition MaxCacheBytes : Z := 2 ^ 30.
Definition TouchStaleAfter : Z := hour.
(** 0.9 *)
Definition EvictTargetRatio : float64 := S754_finite false 8106479329266893 (-53).
Definition evict_batch : nat := 64.

(** What a GET brings at a moment (no response is none), and whether the disk takes a
    file. *)
Class Web := {
  web_get : Z -> string -> option (Z * string * list ascii);
  disk_takes : Z -> string -> bool;
}.

Definition HashURL (sourceURL : string) : string := hex_EncodeToString (Sum256 (bytes sourceURL)).

Section cache.

Context `{Web, Rasters} (maxBytes : Z).

Definition download (sourceURL : string) : C (list ascii * string) := fun s =>
  let s' := mkCache (cs_rows s) (cs_files s) (cs_now s) (cs_answers s) (cs_requests s ++ [sourceURL]) in
  match web_get (cs_now s) sourceURL with
  | Some (status, contentType, body) =>
    if negb (status =? 200) then (inl ErrDownload, s')
    else if MaxDownloadBytes <? Z.of_nat (Datatypes.length body) then (inl ErrOversized, s')
    else (inr (body, contentType), s')
  | None => (inl ErrDownload, s')
  end.

Definition target_bytes : Z := int_floor (f_mul (float64_of_int maxBytes) EvictTargetRatio).

Definition remove_file (hash : string) : C unit := fun s => (inr tt, if disk_takes (cs_now s) hash then set_files (delete hash) s else s).

(** The rows of a batch, until the target is met; the total that is left. *)
Fixpoint evict_rows (target total : Z) (batch : list (string * CachedImage)) : C Z :=
  match batch with
  | [] => mret total
  | row :: batch' =>
    if total <=? target then mret total
    else
      DeleteCachedImage row.1 ;;
      remove_file row.1 ;;
      evict_rows target (total - ci_ByteSize row.2) batch'
  end.

(** The outer loop; every round deletes a row, so it ends before [n] runs out. *)
Fixpoint evict_loop (n : nat) (target total : Z) : C unit :=
  if total <=? target then mret tt
  else
    batch ← LeastRecentlyUsedImages evict_batch;
    match batch, n with
    | [], _ => mret tt
    | _ :: _, O => mret tt
    | _ :: _, S n' => total ← evict_rows target total batch; evict_loop n' target total
    end.

Definition Evict : C unit :=
  total ← CachedImageBytes;
  with_state (fun s => evict_loop (S (size (cs_rows s))) target_bytes total).

Definition enforceCapAfterWrite : C unit :=
  logged (total ← CachedImageBytes; if total <=? maxBytes then mret tt else logged Evict).

(** Through a temporary file and a rename: the whole file or none. *)
Definition place_file (hash : string) (data : list ascii) : C unit := fun s =>
  if disk_takes (cs_now s) hash then (inr tt, set_files <[hash := data]> s) else (inl ErrDisk, s).

Definition write (hash sourceURL : string) (n : Normalized) : C unit :=
  place_file hash (nm_Data n) ;;
  PutCachedImage hash sourceURL (nm_ContentType n) (Z.of_nat (Datatypes.length (nm_Data n)))
    (if 0 <? nm_Width n then Some (nm_Width n, nm_Height n) else None) CachedOK ;;
  enforceCapAfterWrite.

Definition markUnusable (hash sourceURL : string) : C unit := logged (PutCachedImage hash sourceURL "" 0 None CachedUnusable).

Definition fetch_new (hash sourceURL : string) : C string :=
  '(data, contentType) ← download sourceURL;
  match Normalize data contentType with
  | inr n => write hash sourceURL n ;; mret hash
  | inl ErrUnusable => markUnusable hash sourceURL ;; fails ErrUnusableCached
  | inl ErrEncode => fails ErrNormalize
  end.

Definition Fetch (sourceURL : string) : C string := fun s =>
  let hash := HashURL sourceURL in
  match CachedImageByHash hash s with
  | (inr existing, s') =>
    match ci_Status existing with
    | CachedUnusable => (inl ErrUnusableCached, s')
    | CachedOK => if bool_decide (hash ∈ dom (cs_files s')) then (inr hash, s') else fetch_new hash sourceURL s'
    end
  | (inl ErrNotFound, s') => fetch_new hash sourceURL s'
  | (inl e, s') => (inl e, s')
  end.

Definition SourceURL (hash : string) : C string :=
  row ← CachedImageByHash hash;
  match ci_Status row with CachedOK => mret (ci_SourceURL row) | CachedUnusable => fails ErrNotFound end.

Definition forgetMissing (hash : string) : C unit := logged (DeleteCachedImage hash).

Definition Open (hash : string) : C (list ascii * string) :=
  row ← CachedImageByHash hash;
  match ci_Status row with
  | CachedUnusable => fails ErrNotFound
  | CachedOK => with_state (fun s =>
    match cs_files s !! hash with
    | Some data => if disk_takes (cs_now s) hash then mret (data, ci_ContentType row) else fails ErrDisk
    | None => forgetMissing hash ;; fails ErrNotFound
    end)
  end.

Definition Touch (hash : string) : C unit := logged (TouchCachedImage hash TouchStaleAfter).

(** A file in the directory that no row names; a temporary one starts with a dot. *)
Definition is_orphan (known : gset string) (name : string) : bool :=
  bool_decide (name ∉ known) && negb (bool_decide (head (bytes name) = Some "."%char)).

Definition remove_orphans (known : gset string) : C unit := fun s =>
  (inr tt, set_files (base.filter (fun kv : string * list ascii => is_orphan known kv.1 && disk_takes (cs_now s) kv.1 = false)) s).
Definition SweepOrphans : C unit := known ← CachedImageHashes; remove_orphans known.

(** RunSweeps: what one tick does; an error of either half is logged. *)
Definition sweep : C unit := logged Evict ;; logged SweepOrphans.

End cache.

(** ** Suggestions: providers.go and service.go *)

Inductive SuggestionType := TypeIcon | TypePhoto.
Record Candidate := mkCandidate { cd_SourceURL : string; cd_Type : SuggestionType; cd_Source : string }.
Record Suggestion := mkSuggestion { sg_Type : SuggestionType; sg_URL : string; sg_Source : string }.

Definition FallbackIcon := "mdi:package-variant-closed".
Definition WantIcons : nat := 1.
Definition WantPhotos : nat := 2.
Definition candidateOverFetch : nat := 3.

Definition segment_byte (c : ascii) : bool :=
  in_range 97 122 c || in_range 65 90 c || is_digit c || Ascii.eqb c "-" || Ascii.eqb c "_".
Definition isIconifySegment (segment : string) : bool :=
  negb (String.eqb segment "") && (String.length segment <=? 64)%nat && forallb segment_byte (bytes segment).

(** The address of an identifier like mdi:apple. *)
Definition svgURL (svgHost identifier : string) : option string :=
  '(prefix, name) ← Cut colon (bytes identifier);
  if isIconifySegment (text prefix) && isIconifySegment (text name)
  then Some (svgHost +:+ "/" +:+ text prefix +:+ "/" +:+ text name +:+ ".svg")
  else None.

(** What the search answered, as candidates; no answer is a provider that failed. *)
Definition iconify_candidates (svgHost : string) (icons : list string) (limit : nat) : list Candidate :=
  let names := match icons with [] => [FallbackIcon] | _ => icons end in
  take limit (omap (fun name => url ← svgURL svgHost name; Some (mkCandidate url TypeIcon "iconify")) names).

Definition photo_candidates (fetchable : string -> bool) (results : list (string * string)) (limit : nat) : list Candidate :=
  let source r := if String.eqb r.1 "" then r.2 else r.1 in
  take limit (omap (fun r : string * string => if fetchable (source r) then Some (mkCandidate (source r) TypePhoto "serpapi") else None) results).

Section service.

Context `{Web, Rasters} (maxBytes : Z).

(** The usable ones among the candidates, no more than wanted; the next one gets its
    turn when one fails. *)
Fixpoint collect (candidates : list Candidate) (want : nat) (urlFor : string -> string) (s : CacheState) : list Suggestion * CacheState :=
  match want, candidates with
  | S want', c :: candidates' =>
    match Fetch maxBytes (cd_SourceURL c) s with
    | (inr hash, s') =>
      let '(rest, s'') := collect candidates' want' urlFor s' in
      (mkSuggestion (cd_Type c) (urlFor hash) (cd_Source c) :: rest, s'')
    | (inl _, s') => collect candidates' want urlFor s'
    end
  | _, _ => ([], s)
  end.

(** A provider that is missing or fails costs its own slots. *)
Definition Suggest (icons photos : option (nat -> list Candidate)) (urlFor : string -> string) (s : CacheState) : list Suggestion * CacheState :=
  let ask provider want := match provider with Some candidates => candidates (want + candidateOverFetch)%nat | None => [] end in
  let '(i, s1) := collect (ask icons WantIcons) WantIcons urlFor s in
  let '(p, s2) := collect (ask photos WantPhotos) WantPhotos urlFor s1 in
  (i ++ p, s2).

End service.

(** ** Only the public internet *)

(** An IPv4 address outside every range that is refused, and an IPv6 one. *)
Definition public4 (a b c d : Z) : Prop :=
  a ≠ 10 /\ a ≠ 127 /\ ~ (a = 172 /\ 16 <= b <= 31) /\ ~ (a = 192 /\ b = 168) /\ ~ (a = 169 /\ b = 254) /\
  ~ (224 <= a <= 239) /\ ~ (a = 0 /\ b = 0 /\ c = 0 /\ d = 0) /\ ~ (a = 100 /\ 64 <= b <= 127).
Definition public6 (ip : list Z) : Prop :=
  ip ≠ replicate 15 0 ++ [1] /\ ip ≠ replicate 16 0 /\ octet_of ip 0 ≠ 252 /\ octet_of ip 0 ≠ 253 /\ octet_of ip 0 ≠ 255 /\
  ~ (octet_of ip 0 = 254 /\ 128 <= octet_of ip 1 <= 191).

Lemma bytes_all (P : Z -> bool) b : forallb P (seqZ 0 256) = true -> 0 <= b <= 255 -> P b = true.
Proof. intros H Hb. rewrite forallb_forall in H. apply H, list_elem_of_In, elem_of_seqZ. lia. Qed.

Lemma mask_240 b v : 0 <= b <= 255 -> 0 <= v <= 15 -> Z.land b 240 = 16 * v <-> 16 * v <= b <= 16 * v + 15.
Proof.
  intros Hb Hv. assert (Z.land b 240 = 16 * (b / 16)) as ->; [|Z.to_euclidean_division_equations; lia].
  apply Z.eqb_eq. apply (bytes_all (fun b => Z.land b 240 =? 16 * (b / 16))); [vm_compute; reflexivity | done].
Qed.
Lemma mask_254 b : 0 <= b <= 255 -> Z.land b 254 = 252 <-> b = 252 \/ b = 253.
Proof.
  intros Hb. assert (Z.land b 254 = 2 * (b / 2)) as ->; [|Z.to_euclidean_division_equations; lia].
  apply Z.eqb_eq. apply (bytes_all (fun b => Z.land b 254 =? 2 * (b / 2))); [vm_compute; reflexivity | done].
Qed.
Lemma mask_192 b : 0 <= b <= 255 -> Z.land b 192 = 128 <-> 128 <= b <= 191.
Proof.
  intros Hb. assert (Z.land b 192 = 64 * (b / 64)) as ->; [|Z.to_euclidean_division_equations; lia].
  apply Z.eqb_eq. apply (bytes_all (fun b => Z.land b 192 =? 64 * (b / 64))); [vm_compute; reflexivity | done].
Qed.

Definition octets (ip : list Z) : Prop := Forall (fun o => 0 <= o <= 255) ip.

Lemma octets_nth ip i : octets ip -> 0 <= octet_of ip i <= 255.
Proof.
  intros H. unfold octet_of. destruct (nth_in_or_default i ip 0) as [Hin| ->]; [|lia].
  unfold octets in H. rewrite Forall_forall in H. apply H. by apply list_elem_of_In.
Qed.

Lemma To4_mapped v4 : To4 (mapped ++ v4) = Some v4.
Proof. unfold To4. rewrite bool_decide_eq_true_2; reflexivity. Qed.

Lemma unblocked_public4 a b c d : octets [a; b; c; d] -> IsBlockedIP (mapped ++ [a; b; c; d]) = false -> public4 a b c d.
Proof.
  intros Ho H. pose proof (octets_nth _ 0 Ho) as H0. pose proof (octets_nth _ 1 Ho) as H1. cbn in H0, H1.
  unfold IsBlockedIP, IsLoopback, IsPrivate, IsLinkLocalUnicast, IsLinkLocalMulticast, IsInterfaceLocalMulticast, IsMulticast, IsUnspecified in H.
  rewrite !To4_mapped in H. unfold octet_of in H. cbn [nth] in H. rewrite !orb_false_iff in H.
  destruct H as ((((((((_ & Hl) & Hp) & Hll) & _) & _) & Hm) & Hu) & Hc). unfold public4.
  apply Z.eqb_neq in Hm. change 224 with (16 * 14) in Hm. rewrite mask_240 in Hm by lia.
  assert (~ (a = 172 /\ 16 <= b <= 31)) as H172.
  { intros [-> Hb]. assert (Z.land b 240 = 16) as Hb16 by (apply (mask_240 b 1); lia). destruct Hp as ((_ & Hp') & _). by rewrite Hb16 in Hp'. }
  destruct Hu as [_ Hu]. apply bool_decide_eq_false in Hu. split_and!; try lia.
  intros (-> & -> & -> & ->). by apply Hu.
Qed.

Lemma unblocked_public6 ip : octets ip -> To4 ip = None -> IsBlockedIP ip = false -> public6 ip.
Proof.
  intros Ho Hn H. pose proof (octets_nth _ 0 Ho) as H0. pose proof (octets_nth _ 1 Ho) as H1.
  unfold IsBlockedIP, IsLoopback, IsPrivate, IsLinkLocalUnicast, IsLinkLocalMulticast, IsInterfaceLocalMulticast, IsMulticast, IsUnspecified in H.
  rewrite Hn in H. rewrite !orb_false_iff in H. destruct H as ((((((((_ & Hl) & Hp) & Hll) & _) & _) & Hm) & Hu) & _).
  apply bool_decide_eq_false in Hl. destruct Hu as [Hu _]. apply bool_decide_eq_false in Hu.
  fold (octet_of ip 0) in Hp, Hll. fold (octet_of ip 1) in Hll. apply Z.eqb_neq in Hp. rewrite mask_254 in Hp by done. apply Z.eqb_neq in Hm.
  unfold public6. split_and!; try done; try (intros E; apply Hp; lia).
  intros [E Hb]. apply mask_192 in Hb; [|done]. by rewrite E, Hb in Hll.
Qed.

Section public.

Context `{Network}.

(** Dialled after a resolution none of whose addresses is blocked. *)
Definition checked (ip : list Z) : Prop :=
  exists moment host ips, LookupIPAddr moment host = Some ips /\ ip ∈ ips /\ Forall (fun ip => IsBlockedIP ip = false) ips.

Lemma DialContext_checked moment address ip : DialContext moment address = inr ip -> checked ip.
Proof.
  unfold DialContext. destruct (SplitHostPort address) as [[host port]|]; [|done].
  destruct (LookupIPAddr moment host) as [[|i ips]|] eqn:E; [done| |done].
  destruct (existsb IsBlockedIP (i :: ips)) eqn:B; [done|]. intros [= <-]. exists moment, host, (i :: ips). split; [done|]. split; [by left|].
  apply Forall_forall. intros j Hj. destruct (IsBlockedIP j) eqn:Bj; [|done]. exfalso.
  enough (existsb IsBlockedIP (i :: ips) = true) by congruence. apply existsb_exists. exists j. by rewrite <- list_elem_of_In.
Qed.

Lemma Do_checked left via hop dialled dialled' r : Do left via hop dialled = (dialled', r) ->
  Datatypes.length dialled = via -> (via < maxRedirects)%nat -> Forall checked dialled ->
  Forall checked dialled' /\ (Datatypes.length dialled' <= maxRedirects)%nat.
Proof.
  revert via hop dialled. induction left as [|left IH]; intros via hop dialled Hd Hv Hlt Hc; cbn [Do] in Hd;
    (destruct (DialContext via (hop_Address hop)) as [e|ip] eqn:E; [injection Hd as <- _; split; [done | lia]|]);
    apply DialContext_checked in E;
    assert (Hc' : Forall checked (dialled ++ [ip])) by (apply Forall_app; auto);
    assert (Hl : Datatypes.length (dialled ++ [ip]) = S via) by (rewrite length_app; cbn; lia);
    (destruct (answer_at via ip hop) as [to|[response|]]; [|injection Hd as <- _; split; [done | lia]..]);
    destruct (CheckRedirect to (S via)) as [e|] eqn:Er; try (injection Hd as <- _; split; [done | lia]).
  eapply IH; [exact Hd | exact Hl | | exact Hc']. unfold CheckRedirect in Er. destruct (Nat.leb_spec maxRedirects (S via)); [done | lia].
Qed.

(** C34: whatever names, redirects and answers of the resolver a fetch meets, it
    connects at most five times, and only to addresses of a resolution without a
    blocked one: none of the loopback interface, of private or carrier-grade ranges,
    of link-local or multicast ranges, in IPv4 or IPv6 nor as an IPv4 address written
    in IPv6. *)
Theorem fetches_stay_public hop dialled r : safe_get hop = (dialled, r) ->
  (Datatypes.length dialled <= maxRedirects)%nat /\
  forall ip, ip ∈ dialled -> octets ip ->
    (exists moment host ips, LookupIPAddr moment host = Some ips /\ ip ∈ ips /\ Forall (fun ip => IsBlockedIP ip = false) ips) /\
    (forall a b c d, ip = mapped ++ [a; b; c; d] -> public4 a b c d) /\
    (To4 ip = None -> public6 ip).
Proof.
  intros Hd. apply Do_checked in Hd as [Hc Hl]; [|done | unfold maxRedirects; lia | constructor]. split; [done|].
  intros ip Hip Ho. rewrite Forall_forall in Hc. pose proof (Hc ip Hip) as Hk. split; [done|].
  destruct Hk as (moment & host & ips & _ & Hin & Hall). rewrite Forall_forall in Hall. specialize (Hall ip Hin). split.
  - intros a b c d ->. apply unblocked_public4; [|done]. unfold octets in *. rewrite Forall_app in Ho. by destruct Ho.
  - intros Hn. by apply unblocked_public6.
Qed.

End public.

(** A server that redirects a fetch to a name of the inside. *)
#[local] Instance sample_network : Network := {|
  LookupIPAddr _ host := if String.eqb host "cdn.example" then Some [mapped ++ [93; 184; 216; 34]] else Some [mapped ++ [169; 254; 169; 254]];
  answer_at _ _ _ := Redirect (mkHop "http" "inside:80");
|}.

Lemma fetches_stay_public_witness :
  safe_get (mkHop "https" "cdn.example:443") = ([mapped ++ [93; 184; 216; 34]], inl ErrRefused) /\ public4 93 184 216 34.
Proof.
  assert (E : safe_get (mkHop "https" "cdn.example:443") = ([mapped ++ [93; 184; 216; 34]], inl ErrRefused)) by (vm_compute; reflexivity).
  split; [exact E|]. destruct (fetches_stay_public _ _ _ E) as [_ S].
  destruct (S (mapped ++ [93; 184; 216; 34])) as (_ & S4 & _); [left | | by apply S4].
  repeat constructor; cbn; lia.
Defined.

(** A translated address of the inside is taken for a public one: 64:ff9b::10.0.0.1 *)
Lemma translated_addresses_pass : IsBlockedIP ([0; 100; 255; 155] ++ replicate 8 0 ++ [10; 0; 0; 1]) = false.
Proof. vm_compute. reflexivity. Qed.

(** ** Eviction *)

#[export] Instance less_recent_total : Total less_recent.
Proof.
  intros a b. unfold less_recent. destruct (Z.lt_trichotomy (ci_LastAccessedAt a.2) (ci_LastAccessedAt b.2)) as [|[E|]]; [by left; left| |by right; left].
  destruct (text_le_total a.1 b.1); [left; right; done | right; right; done].
Qed.
#[export] Instance less_recent_trans : Transitive less_recent.
Proof.
  intros a b c [H1|[E1 H1]] [H2|[E2 H2]]; unfold less_recent; [left; lia | left; lia | left; lia | right; split; [lia | by transitivity b.1]].
Qed.

Lemma elem_of_ok_rows rows h row : (h, row) ∈ ok_rows rows <-> rows !! h = Some row /\ is_ok row = true.
Proof. unfold ok_rows. rewrite list_elem_of_In, filter_In, <- list_elem_of_In. cbn. by rewrite elem_of_map_to_list. Qed.

Lemma elem_of_lru rows h row : (h, row) ∈ lru rows <-> rows !! h = Some row /\ is_ok row = true.
Proof. unfold lru. rewrite merge_sort_Permutation. apply elem_of_ok_rows. Qed.

Lemma ok_rows_delete rows h row : rows !! h = Some row -> is_ok row = true -> ok_rows rows ≡ₚ (h, row) :: ok_rows (delete h rows).
Proof.
  intros Hh Ho. unfold ok_rows. rewrite <- (insert_delete_id rows h row Hh) at 1.
  assert (E : map_to_list (<[h:=row]> (delete h rows)) ≡ₚ (h, row) :: map_to_list (delete h rows)) by (apply map_to_list_insert, lookup_delete_eq).
  assert (P : forall l k : list (string * CachedImage), l ≡ₚ k -> List.filter (fun kv => is_ok kv.2) l ≡ₚ List.filter (fun kv => is_ok kv.2) k).
  { intros l k Hp. induction Hp; cbn; repeat case_match; eauto using Permutation. }
  rewrite (P _ _ E). cbn. by rewrite Ho.
Qed.

(** Dropping the row that was used longest ago leaves the others in their order. *)
Lemma lru_delete rows h row l : lru rows = (h, row) :: l -> lru (delete h rows) = l.
Proof.
  intros E. assert (Hin : rows !! h = Some row /\ is_ok row = true) by (apply elem_of_lru; rewrite E; left). destruct Hin as [Hh Ho].
  assert (Hp : l ≡ₚ lru (delete h rows)).
  { apply (Permutation_cons_inv (a := (h, row))). rewrite <- E. unfold lru. rewrite !merge_sort_Permutation. by apply ok_rows_delete. }
  pose proof (StronglySorted_merge_sort less_recent (ok_rows rows)) as Hs. fold (lru rows) in Hs. rewrite E in Hs. apply StronglySorted_cons in Hs as [_ Hs].
  symmetry. apply (StronglySorted_unique_strong less_recent); [| done | apply StronglySorted_merge_sort; apply _ | done].
  intros [k1 r1] [k2 r2] H1 H2 Ha Hb. unfold less_recent in Ha, Hb. assert (Hk : k1 = k2).
  { destruct Ha as [Ha|[Ea Ha]], Hb as [Hb|[Eb Hb]]; cbn [fst snd] in *; try lia. by apply String.leb_antisym. }
  subst k2. f_equal. rewrite Hp in H1. apply elem_of_lru in H1 as [H1 _]. apply elem_of_lru in H2 as [H2 _]. congruence.
Qed.

Section eviction.

Context `{Web, Rasters} (maxBytes : Z).

(** One row goes, and its file if the disk lets it. *)
Definition evict_one (s : CacheState) (kv : string * CachedImage) : CacheState :=
  let s' := set_rows (delete kv.1) s in if disk_takes (cs_now s) kv.1 then set_files (delete kv.1) s' else s'.

Lemma query_answered {A} (f : CacheState -> A * CacheState) s : cs_answers s = [] -> query f s = (inr (f s).1, (f s).2).
Proof. destruct s as [rows files now answers requests]. cbn. intros ->. cbn. by destruct (f _). Qed.

Lemma cache_bind_eq {A B} (m : C A) (f : A -> C B) s a s' : m s = (inr a, s') -> (m ≫= f) s = f a s'.
Proof. intros E. unfold mbind, cache_bind. by rewrite E. Qed.

Lemma evict_one_answers s kv : cs_answers (evict_one s kv) = cs_answers s.
Proof. unfold evict_one. by destruct (disk_takes _ _). Qed.

Lemma evict_step {B} target total kv batch (f : Z -> C B) s : cs_answers s = [] -> target < total ->
  (evict_rows target total (kv :: batch) ≫= f) s = (evict_rows target (total - ci_ByteSize kv.2) batch ≫= f) (evict_one s kv).
Proof.
  intros Ha Ht. cbn [evict_rows]. destruct (Z.leb_spec total target); [lia|]. unfold mbind at 1, cache_bind at 1.
  rewrite (cache_bind_eq (DeleteCachedImage kv.1) _ s tt (set_rows (delete kv.1) s)) by (unfold DeleteCachedImage; by rewrite query_answered).
  rewrite (cache_bind_eq (remove_file kv.1) _ _ tt (evict_one s kv)) by (unfold remove_file, evict_one; by destruct (disk_takes _ _)). done.
Qed.

(** What eviction leaves of the rows in their order: the longest tail that fits, or
    nothing. *)
Fixpoint kept (target : Z) (l : list (string * CachedImage)) : list (string * CachedImage) :=
  if bytes_of l <=? target then l else match l with [] => [] | _ :: l' => kept target l' end.

Lemma evict_rows_spec {B} target batch rest (f : Z -> C B) s : cs_answers s = [] -> lru (cs_rows s) = batch ++ rest ->
  exists gone left, batch = gone ++ left /\ kept target (batch ++ rest) = kept target (left ++ rest) /\
    let s' := foldl evict_one s gone in
    cs_answers s' = [] /\ lru (cs_rows s') = left ++ rest /\ (left = [] \/ bytes_of (left ++ rest) <= target) /\
    (forall e x, gone = e ++ [x] -> target < bytes_of (x :: left ++ rest)) /\
    (evict_rows target (bytes_of (batch ++ rest)) batch ≫= f) s = f (bytes_of (left ++ rest)) s'.
Proof.
  revert s. induction batch as [|kv batch IH]; intros s Ha Hl.
  - exists [], []. split_and!; try done. split_and!; try done; [by left | by intros [] ? ?].
  - destruct (Z.leb_spec (bytes_of ((kv :: batch) ++ rest)) target) as [Hle|Hgt].
    + exists [], (kv :: batch). split_and!; try done. split_and!; try done; [by right | by intros [] ? ?|].
      cbn [evict_rows foldl]. by rewrite (proj2 (Z.leb_le _ _) Hle).
    + destruct kv as [h row]. assert (Hl' : lru (cs_rows (evict_one s (h, row))) = batch ++ rest).
      { apply lru_delete in Hl. unfold evict_one. by destruct (disk_takes _ _). }
      destruct (IH (evict_one s (h, row))) as (gone & left & -> & Hk & Ha' & Hl2 & Hb & Hm & E); [by rewrite evict_one_answers | done|].
      exists ((h, row) :: gone), left. split; [done|]. split.
      { rewrite <- Hk. cbn [app kept] in Hgt |- *. by rewrite (proj2 (Z.leb_gt _ _) Hgt). }
      split_and!; [done | done | done | |].
      * intros e x Ex. destruct e as [|y e]; cbn [app] in Ex; injection Ex as <- Ex; [subst gone; exact Hgt | by apply (Hm e)].
      * rewrite evict_step by done. cbn [foldl]. rewrite <- E. f_equal. f_equal. unfold bytes_of. cbn [app lsum snd]. f_equal. lia.
Qed.

Lemma evict_loop_spec target n s : cs_answers s = [] -> (Datatypes.length (lru (cs_rows s)) <= n)%nat ->
  exists gone, lru (cs_rows s) = gone ++ kept target (lru (cs_rows s)) /\
    evict_loop n target (bytes_of (lru (cs_rows s))) s = (inr tt, foldl evict_one s gone) /\
    lru (cs_rows (foldl evict_one s gone)) = kept target (lru (cs_rows s)) /\
    (forall e x, gone = e ++ [x] -> target < bytes_of (x :: kept target (lru (cs_rows s)))).
Proof.
  revert s. induction n as [|n IH]; intros s Ha Hn.
  { destruct (lru (cs_rows s)) eqn:E; [|cbn in Hn; lia]. exists []. cbn [app evict_loop kept foldl]. unfold bytes_of. cbn [lsum].
    destruct (0 <=? target); (split_and!; [done | | done | by intros [] ? ?]); [done|].
    unfold LeastRecentlyUsedImages. erewrite cache_bind_eq by by rewrite query_answered. cbn. by rewrite E. }
  cbn [evict_loop]. destruct (Z.leb_spec (bytes_of (lru (cs_rows s))) target) as [Hle|Hgt].
  { exists []. cbn [app foldl]. assert (kept target (lru (cs_rows s)) = lru (cs_rows s)) as ->.
    { destruct (lru (cs_rows s)); cbn [kept]; by rewrite (proj2 (Z.leb_le _ _) Hle). }
    split_and!; [done | done | done | by intros [] ? ?]. }
  unfold LeastRecentlyUsedImages. erewrite cache_bind_eq by by rewrite query_answered. cbn [fst snd].
  pose proof (take_drop evict_batch (lru (cs_rows s))) as Htd. destruct (take evict_batch (lru (cs_rows s))) as [|kv batch] eqn:Eb.
  { assert (lru (cs_rows s) = []) as E by (destruct (lru (cs_rows s)); [done | by cbn in Eb]). rewrite E. exists [].
    rewrite E in Hgt. cbn in Hgt. cbn [app kept foldl]. unfold bytes_of. cbn [lsum]. rewrite (proj2 (Z.leb_gt _ _) Hgt).
    split_and!; [done | done | done | by intros [] ? ?]. }
  remember (drop evict_batch (lru (cs_rows s))) as rest eqn:Er. clear Er. rewrite <- Htd.
  destruct (evict_rows_spec target (kv :: batch) rest (fun total => evict_loop n target total) s Ha (eq_sym Htd))
    as (gone & left & Eg & Hk & Ha' & Hl & Hb & Hm & ->). rewrite Hk, Eg.
  assert (Hne : gone ≠ []).
  { intros ->. destruct Hb as [->|Hb]; [done|]. cbn in Eg. rewrite <- Eg, Htd in Hb. lia. }
  assert (Hlen : (Datatypes.length (left ++ rest) <= n)%nat).
  { rewrite <- Htd, Eg, !length_app in Hn. rewrite length_app. destruct gone; [done|]. cbn in Hn. lia. }
  destruct (IH (foldl evict_one s gone)) as (more & Em & El & Ek & Emin); [done | by rewrite Hl|]. rewrite Hl in *.
  exists (gone ++ more). rewrite foldl_app. split_and!; [by rewrite <- !app_assoc, <- Em | done | done|].
  intros e x E. destruct more as [|y more]; [|].
  - rewrite app_nil_r in E. cbn [app] in Em. rewrite <- Em. by apply (Hm e).
  - destruct (exists_last (l := y :: more)) as (e' & x' & E'); [done|]. rewrite E' in E. rewrite app_assoc in E. apply app_inj_tail in E as [_ <-].
    by apply (Emin e').
Qed.

Lemma length_lru rows : (Datatypes.length (lru rows) <= size rows)%nat.
Proof.
  unfold lru. rewrite merge_sort_Permutation. unfold ok_rows. rewrite <- length_map_to_list. generalize (map_to_list rows). intros l.
  induction l as [|kv l IH]; cbn; [lia|]. case_match; cbn; lia.
Qed.

Lemma kept_fits target l : bytes_of (kept target l) <= target \/ kept target l = [].
Proof.
  induction l as [|kv l IH]; cbn [kept]; destruct (Z.leb_spec (bytes_of []) target); try (by left); try (by right);
    (destruct (Z.leb_spec (bytes_of (kv :: l)) target); [by left | done]).
Qed.

(** Eviction ends, and drops the pictures in the order of their last use, the one
    unused longest first, until what is left fits the low-water mark or nothing is
    left, and not one more: each goes with its row before its file.  Pictures that
    were found unusable stay on record. *)
Theorem Evict_spec s : cs_answers s = [] ->
  exists gone left, lru (cs_rows s) = gone ++ left /\
    Evict maxBytes s = (inr tt, foldl evict_one s gone) /\
    lru (cs_rows (foldl evict_one s gone)) = left /\
    (bytes_of left <= target_bytes maxBytes \/ left = []) /\
    (forall e x, gone = e ++ [x] -> target_bytes maxBytes < bytes_of (x :: left)) /\
    forall h row, is_ok row = false -> cs_rows (foldl evict_one s gone) !! h = Some row <-> cs_rows s !! h = Some row.
Proof.
  intros Ha. destruct (evict_loop_spec (target_bytes maxBytes) (S (size (cs_rows s))) s Ha) as (gone & El & E & Ek & Em); [pose proof (length_lru (cs_rows s)); lia|].
  exists gone, (kept (target_bytes maxBytes) (lru (cs_rows s))). split; [done|]. split.
  { unfold Evict, CachedImageBytes. erewrite cache_bind_eq by by rewrite query_answered. unfold with_state. cbn [fst snd]. by rewrite E. }
  split; [done|]. split; [apply kept_fits|]. split; [done|].
  intros h row Hrow. assert (Hg : forall g s0, (forall kv, kv ∈ g -> kv.1 ≠ h) -> cs_rows (foldl evict_one s0 g) !! h = cs_rows s0 !! h).
  { intros g. induction g as [|kv g IHg]; intros s0 Hne; [done|]. cbn [foldl]. rewrite IHg by (intros; apply Hne; by right).
    assert (cs_rows (evict_one s0 kv) = delete kv.1 (cs_rows s0)) as -> by (unfold evict_one; by destruct (disk_takes _ _)).
    apply lookup_delete_ne. apply Hne. by left. }
  destruct (decide (h ∈ gone.*1)) as [Hin|Hout].
  - apply list_elem_of_fmap in Hin as ([k r] & -> & Hin). cbn in *. assert (Hl : (k, r) ∈ lru (cs_rows s)) by (rewrite El; apply elem_of_app; by left).
    apply elem_of_lru in Hl as [Hl Hok]. rewrite Hl. split; [|congruence]. intros Hk. exfalso.
    assert (Hmono : forall g s0 r', cs_rows (foldl evict_one s0 g) !! k = Some r' -> cs_rows s0 !! k = Some r').
    { intros g. induction g as [|kv g IHg]; intros s0 r' Hr; [done|]. cbn [foldl] in Hr. apply IHg in Hr.
      assert (Er : cs_rows (evict_one s0 kv) = delete kv.1 (cs_rows s0)) by (unfold evict_one; by destruct (disk_takes _ _)).
      rewrite Er in Hr. by apply lookup_delete_Some in Hr as [_ Hr]. }
    apply Hmono in Hk. congruence.
  - rewrite Hg; [done|]. intros kv Hin Eh. apply Hout, list_elem_of_fmap. by exists kv.
Qed.

End eviction.

(** ** The cache over time *)

Inductive CacheOp := OpFetch (url : string) | OpOpen (hash : string) | OpTouch (hash : string) | OpSourceURL (hash : string) | OpSweep.

Section history.

Context `{Web, Rasters} (maxBytes : Z).

Definition run_op (op : CacheOp) (s : CacheState) : CacheState :=
  match op with
  | OpFetch url => (Fetch maxBytes url s).2
  | OpOpen hash => (Open hash s).2
  | OpTouch hash => (Touch hash s).2
  | OpSourceURL hash => (SourceURL hash s).2
  | OpSweep => (sweep maxBytes s).2
  end.

(** Operations one after the other, each at its time. *)
Definition at_time (t : Z) (s : CacheState) : CacheState := mkCache (cs_rows s) (cs_files s) t (cs_answers s) (cs_requests s).
Definition run_ops (ops : list (Z * CacheOp)) (s : CacheState) : CacheState := foldl (fun s op => run_op op.2 (at_time op.1 s)) s ops.

(** *** What was found unusable *)

Definition unusable (h : string) (s : CacheState) : Prop := exists row, cs_rows s !! h = Some row /\ is_ok row = false.
Definition requests_for (h : string) (s : CacheState) : list string := base.filter (fun url => HashURL url = h) (cs_requests s).
Definition stays (h : string) (s s' : CacheState) : Prop := unusable h s -> unusable h s' /\ requests_for h s' = requests_for h s.

#[local] Instance stays_refl h : Reflexive (stays h).
Proof. by intros s Hu. Qed.
#[local] Instance stays_trans h : Transitive (stays h).
Proof. intros s1 s2 s3 H12 H23 Hu. destruct (H12 Hu) as [Hu2 E2]. destruct (H23 Hu2) as [Hu3 E3]. split; [done | congruence]. Qed.

Lemma stays_bind {A B} h (m : C A) (f : A -> C B) s :
  stays h s (m s).2 -> (forall a s', m s = (inr a, s') -> stays h s' (f a s').2) -> stays h s ((m ≫= f) s).2.
Proof.
  intros Hm Hf. unfold mbind, cache_bind. destruct (m s) as [[e|a] s'] eqn:E; [done|]. transitivity s'; [done | by apply Hf].
Qed.

Lemma stays_query {A} h (f : CacheState -> A * CacheState) s :
  (forall s0, cs_rows s0 = cs_rows s -> unusable h s0 -> cs_requests (f s0).2 = cs_requests s0 /\ unusable h (f s0).2) -> stays h s (query f s).2.
Proof.
  intros Hf Hu. unfold query. set (s1 := mkCache _ _ _ _ _). assert (Hu1 : unusable h s1) by done.
  destruct (default true (head (cs_answers s))); [|done]. destruct (Hf s1 eq_refl Hu1) as [Er Hu2]. destruct (f s1) as [a s2]. cbn in *.
  split; [done|]. unfold requests_for. by rewrite Er.
Qed.

Lemma stays_read {A} h (f : CacheState -> A) s : stays h s (query (fun s => (f s, s)) s).2.
Proof. by apply stays_query. Qed.


Lemma stays_delete h k s : k ≠ h -> stays h s (DeleteCachedImage k s).2.
Proof.
  intros Hk. apply stays_query. intros s0 _ (row & Hr & Ho). split; [done|]. exists row. cbn. by rewrite lookup_delete_ne.
Qed.

Lemma stays_put h k url ct n size status s : k ≠ h -> stays h s (PutCachedImage k url ct n size status s).2.
Proof.
  intros Hk. apply stays_query. intros s0 _ (row & Hr & Ho). split; [done|]. exists row. cbn. by rewrite lookup_insert_ne.
Qed.

Lemma stays_files h f s : stays h s (set_files f s).
Proof. done. Qed.

Lemma stays_evict_rows h target total batch s : (forall kv, kv ∈ batch -> kv.1 ≠ h) -> stays h s (evict_rows target total batch s).2.
Proof.
  revert total s. induction batch as [|kv batch IH]; intros total s Hb; cbn [evict_rows]; [done|]. destruct (total <=? target); [done|].
  apply stays_bind; [apply stays_delete, Hb; by left|]. intros [] s1 _.
  apply stays_bind; [unfold remove_file; cbn; by destruct (disk_takes _ _)|]. intros [] s2 _. apply IH. intros; apply Hb; by right.
Qed.

Lemma stays_LRU h s s' batch kv : unusable h s -> LeastRecentlyUsedImages evict_batch s = (inr batch, s') -> kv ∈ batch -> kv.1 ≠ h.
Proof.
  intros (row & Hr & Ho) E Hin Eh. unfold LeastRecentlyUsedImages, query in E. destruct (default true _); [|done]. injection E as <- _.
  destruct kv as [k r]. cbn in *. subst k. apply elem_of_take in Hin as (i & Hi & _). apply list_elem_of_lookup_2, elem_of_lru in Hi as [Hl Hok]. congruence.
Qed.

Lemma stays_evict_loop h n target total s : stays h s (evict_loop n target total s).2.
Proof.
  revert total s. induction n as [|n IH]; intros total s; cbn [evict_loop]; (destruct (total <=? target); [done|]); intros Hu; pose proof Hu as Hu0;
    revert Hu; apply stays_bind; try apply stays_read; intros batch s' E; destruct batch as [|kv batch]; try done.
  apply stays_bind; [apply stays_evict_rows; intros kv' Hkv; by apply (stays_LRU h s s' (kv :: batch))|]. intros total' s'' _. apply IH.
Qed.

Lemma stays_logged h (m : C unit) s : stays h s (m s).2 -> stays h s (logged m s).2.
Proof. done. Qed.

Lemma stays_Evict h s : stays h s (Evict maxBytes s).2.
Proof. apply stays_bind; [apply stays_read|]. intros total s' _. apply stays_evict_loop. Qed.

Lemma stays_write h k url n s : k ≠ h -> stays h s (write maxBytes k url n s).2.
Proof.
  intros Hk. apply stays_bind; [unfold place_file; by destruct (disk_takes _ _)|]. intros [] s1 _.
  apply stays_bind; [by apply stays_put|]. intros [] s2 _. apply stays_logged, stays_bind; [apply stays_read|]. intros total s3 _.
  destruct (total <=? maxBytes); [done|]. apply stays_logged, stays_Evict.
Qed.

Lemma stays_download h url s : HashURL url ≠ h -> stays h s (download url s).2.
Proof.
  intros Hk Hu. unfold download. set (s' := mkCache _ _ _ _ _). assert (Hs : (match web_get (cs_now s) url with
    | Some (status, contentType, body) => if negb (status =? 200) then (inl ErrDownload, s') else if MaxDownloadBytes <? Z.of_nat (Datatypes.length body) then (inl ErrOversized, s') else (inr (body, contentType), s')
    | None => (inl ErrDownload, s') end).2 = s').
  { destruct (web_get _ _) as [[[status ct] body]|]; [|done]. destruct (negb _); [done|]. by destruct (_ <? _). }
  rewrite Hs. split; [exact Hu|]. unfold requests_for. cbn. rewrite filter_app, filter_cons_False, filter_nil by done. by rewrite app_nil_r.
Qed.

Lemma stays_fetch_new h url s : HashURL url ≠ h -> stays h s (fetch_new maxBytes (HashURL url) url s).2.
Proof.
  intros Hk. apply stays_bind; [by apply stays_download|]. intros [data ct] s1 _. destruct (Normalize data ct) as [[]|n].
  - apply stays_bind; [by apply stays_logged, stays_put|]. done.
  - done.
  - apply stays_bind; [by apply stays_write|]. done.
Qed.

(** The row a lookup finds is the row on record. *)
Lemma CachedImageByHash_row hash s r s' : CachedImageByHash hash s = (r, s') ->
  cs_rows s' = cs_rows s /\ cs_requests s' = cs_requests s /\ (forall row, r = inr row -> cs_rows s !! hash = Some row) /\ (r = inl ErrNotFound -> cs_rows s !! hash = None).
Proof.
  unfold CachedImageByHash, query. unfold mbind, cache_bind. destruct (default true _); cbn; [|by intros [= <- <-]].
  destruct (cs_rows s !! hash) as [row|] eqn:E; intros [= <- <-]; split_and!; try done. by intros row' [= ->].
Qed.

Lemma stays_same h s s' : cs_rows s' = cs_rows s -> cs_requests s' = cs_requests s -> stays h s s'.
Proof. intros Er Eq (row & Hr & Ho). split; [exists row; by rewrite Er | unfold requests_for; by rewrite Eq]. Qed.

Lemma stays_Fetch h url s : stays h s (Fetch maxBytes url s).2.
Proof.
  unfold Fetch. destruct (CachedImageByHash (HashURL url) s) as [r s'] eqn:E. apply CachedImageByHash_row in E as (Er & Eq & Hrow & Hno).
  assert (Hs : stays h s s') by by apply stays_same. assert (Hne : forall P : Prop, (HashURL url ≠ h -> P) ->
    (unusable h s -> HashURL url = h -> False) -> unusable h s -> P) by (intros P HP Hx Hu; destruct (decide (HashURL url = h)); [by destruct Hx | by apply HP]).
  destruct r as [e|existing].
  - destruct e; try done. intros Hu. apply (Hne _); [intros Hk|intros (row & Hr & _) <-; rewrite Hno in Hr by done; done|done].
    exact (stays_trans h _ _ _ Hs (stays_fetch_new h url s' Hk) Hu).
  - destruct (ci_Status existing) eqn:Es; [|done]. case_bool_decide; [done|]. intros Hu.
    apply (Hne _); [intros Hk|intros (row & Hr & Ho) <-; rewrite (Hrow existing) in Hr by done; injection Hr as ->; unfold is_ok in Ho; by rewrite Es in Ho|done].
    exact (stays_trans h _ _ _ Hs (stays_fetch_new h url s' Hk) Hu).
Qed.

Lemma stays_Open h hash s : stays h s (Open hash s).2.
Proof.
  unfold Open, mbind, cache_bind. destruct (CachedImageByHash hash s) as [r s'] eqn:E. apply CachedImageByHash_row in E as (Er & Eq & Hrow & _).
  assert (Hs : stays h s s') by by apply stays_same. destruct r as [e|row]; [done|]. destruct (ci_Status row) eqn:Es; [|done]. unfold with_state.
  destruct (cs_files s' !! hash); [by destruct (disk_takes _ _)|]. intros Hu. destruct (decide (hash = h)) as [->|Hk].
  - exfalso. destruct Hu as (row' & Hr & Ho). rewrite (Hrow row) in Hr by done. injection Hr as <-. unfold is_ok in Ho. by rewrite Es in Ho.
  - exact (stays_trans h _ _ _ Hs (stays_delete h hash s' Hk) Hu).
Qed.

Lemma stays_Touch h hash s : stays h s (Touch hash s).2.
Proof.
  apply stays_logged, stays_query. intros s0 _ (row & Hr & Ho). split; [done|]. unfold unusable. cbn. destruct (decide (hash = h)) as [->|Hk].
  - rewrite lookup_alter_eq, Hr. eexists. split; [reflexivity|]. by destruct (_ <? _).
  - rewrite lookup_alter_ne by done. by exists row.
Qed.

Lemma stays_sweep h s : stays h s (sweep maxBytes s).2.
Proof.
  apply stays_bind; [apply stays_logged, stays_Evict|]. intros [] s' _. apply stays_logged, stays_bind; [apply stays_read|]. done.
Qed.

Lemma stays_run_ops ops h s : stays h s (run_ops ops s).
Proof.
  revert s. unfold run_ops. induction ops as [|[t op] ops IH]; intros s; [done|]. cbn [foldl fst snd].
  transitivity (run_op op (at_time t s)); [|apply IH]. transitivity (at_time t s); [by apply stays_same|].
  destruct op; cbn [run_op]; [apply stays_Fetch | apply stays_Open | apply stays_Touch | | apply stays_sweep].
  apply stays_bind; [apply stays_bind; [apply stays_read|]; intros []; done|]. intros row s' _. by destruct (ci_Status row).
Qed.

(** A call the database answers. *)
Lemma query_answers {A} (f : CacheState -> A * CacheState) s : default true (head (cs_answers s)) = true ->
  query f s = (let '(a, s') := f (mkCache (cs_rows s) (cs_files s) (cs_now s) (tail (cs_answers s)) (cs_requests s)) in (inr a, s')).
Proof. intros Ha. unfold query. by rewrite Ha. Qed.

(** A first Fetch of something that cannot be used. *)
Lemma Fetch_unusable url ct body s :
  Forall (fun answer => answer = true) (take 2 (cs_answers s)) ->
  (forall row, cs_rows s !! HashURL url = Some row -> is_ok row = true /\ cs_files s !! HashURL url = None) ->
  web_get (cs_now s) url = Some (200, ct, body) -> Z.of_nat (Datatypes.length body) <= MaxDownloadBytes -> Normalize body ct = inl ErrUnusable ->
  (Fetch maxBytes url s).1 = inl ErrUnusableCached /\
  (exists row, cs_rows (Fetch maxBytes url s).2 !! HashURL url = Some row /\ is_ok row = false) /\
  cs_requests (Fetch maxBytes url s).2 = cs_requests s ++ [url].
Proof.
  intros Ha Hr Hw Hb Hn. set (h := HashURL url). set (s1 := mkCache (cs_rows s) (cs_files s) (cs_now s) (tail (cs_answers s)) (cs_requests s)).
  assert (Ha1 : default true (head (cs_answers s)) = true) by (destruct (cs_answers s) as [|a [|b l]]; [done | by apply Forall_cons in Ha as [-> _] ..]).
  assert (Ha2 : default true (head (cs_answers s1)) = true).
  { destruct (cs_answers s) as [|a [|b l]] ; cbn; [done | done |]. cbn in Ha. apply Forall_cons in Ha as [_ Ha]. by apply Forall_cons in Ha as [-> _]. }
  assert (Hf : fetch_new maxBytes h url s1 = (inl ErrUnusableCached,
    set_rows <[h := mkCached url "" 0 None CachedUnusable (cs_now s) (cs_now s)]> (mkCache (cs_rows s) (cs_files s) (cs_now s) (tail (tail (cs_answers s))) (cs_requests s ++ [url])))).
  { set (s2 := mkCache (cs_rows s) (cs_files s) (cs_now s) (tail (cs_answers s)) (cs_requests s ++ [url])).
    assert (D : download url s1 = (inr (body, ct), s2)).
    { unfold download. cbn [s1 cs_now]. rewrite Hw. cbn [Z.eqb negb]. destruct (Z.ltb_spec MaxDownloadBytes (Z.of_nat (Datatypes.length body))); [lia | done]. }
    unfold fetch_new. rewrite (cache_bind_eq _ _ _ _ _ D). cbv beta iota. rewrite Hn. unfold mbind, cache_bind, markUnusable, logged, PutCachedImage.
    rewrite query_answers by exact Ha2. done. }
  assert (Hfetch : Fetch maxBytes url s = fetch_new maxBytes h url s1).
  { unfold Fetch, CachedImageByHash. fold h. unfold mbind, cache_bind. rewrite query_answers by done. fold s1. cbv beta iota.
    destruct (cs_rows s1 !! h) as [row|] eqn:E; [|done]. destruct (Hr row E) as [Ho Hm]. cbn. unfold is_ok in Ho. destruct (ci_Status row); [|done].
    rewrite bool_decide_eq_false_2; [done|]. apply not_elem_of_dom. exact Hm. }
  rewrite Hfetch, Hf. split; [done|]. split; [|done]. eexists. split; [apply lookup_insert_eq | done].
Qed.

(** C37: A picture whose content turns out to be unusable is put on record by the fetch
    that finds out, if the database takes the record, and is never asked for again:
    whatever is fetched, opened, touched and swept afterwards, and whichever of its
    calls the database refuses, the record stays and no request goes out for an
    address with its hash.  One above the size limit is not looked at and not
    recorded: see [oversized_is_fetched_again]. *)
Theorem unusable_is_remembered url ct body s
    (Hdatabase : Forall (fun answer => answer = true) (take 2 (cs_answers s)))
    (Hnew : forall row, cs_rows s !! HashURL url = Some row -> is_ok row = true /\ cs_files s !! HashURL url = None)
    (Hanswer : web_get (cs_now s) url = Some (200, ct, body)) (Hsize : Z.of_nat (Datatypes.length body) <= MaxDownloadBytes)
    (Hcontent : Normalize body ct = inl ErrUnusable) :
  let h := HashURL url in
  let s1 := (Fetch maxBytes url s).2 in
  (Fetch maxBytes url s).1 = inl ErrUnusableCached /\
  (exists row, cs_rows s1 !! h = Some row /\ is_ok row = false) /\
  cs_requests s1 = cs_requests s ++ [url] /\
  forall ops,
    (exists row, cs_rows (run_ops ops s1) !! h = Some row /\ is_ok row = false) /\
    base.filter (fun url => HashURL url = h) (cs_requests (run_ops ops s1)) = base.filter (fun url => HashURL url = h) (cs_requests s1).
Proof.
  intros h s1. destruct (Fetch_unusable url ct body s) as (E & U & R); [done..|]. split_and!; [done | done | done|].
  intros ops. exact (stays_run_ops ops h s1 U).
Qed.

(** One that is larger than the limit is not recorded, and is asked for again. *)
Lemma oversized_is_fetched_again url body ct s :
  web_get (cs_now s) url = Some (200, ct, body) -> MaxDownloadBytes < Z.of_nat (Datatypes.length body) ->
  cs_rows s !! HashURL url = None -> cs_answers s = [] ->
  let s' := run_op (OpFetch url) s in cs_rows s' = cs_rows s /\ cs_requests s' = cs_requests s ++ [url] /\ cs_now s' = cs_now s /\ cs_answers s' = [].
Proof.
  intros Hw Hb Hn Ha s'. assert (E : s' = mkCache (cs_rows s) (cs_files s) (cs_now s) [] (cs_requests s ++ [url])); [|by rewrite E].
  subst s'. cbn [run_op]. unfold Fetch. assert (CachedImageByHash (HashURL url) s = (inl ErrNotFound, s)) as ->.
  { unfold CachedImageByHash. erewrite cache_bind_eq by by rewrite query_answered. cbn [fst snd]. by rewrite Hn. }
  unfold fetch_new. unfold mbind, cache_bind, download. rewrite Hw, Ha. cbn [Z.eqb negb]. apply Z.ltb_lt in Hb. by rewrite Hb.
Qed.

End history.

(** *** The budget *)

Section budget.

Context `{Web, Rasters} (maxBytes : Z) (Hmax : 0 <= target_bytes maxBytes <= maxBytes).

Definition total (s : CacheState) : Z := bytes_of (lru (cs_rows s)).
Definition sized (s : CacheState) : Prop := cs_answers s = [] /\ map_Forall (fun _ row => 0 <= ci_ByteSize row) (cs_rows s).
Definition within (s s' : CacheState) : Prop := sized s -> total s <= maxBytes -> sized s' /\ total s' <= maxBytes.

#[local] Instance within_refl : Reflexive within.
Proof. by intros s. Qed.
#[local] Instance within_trans : Transitive within.
Proof. intros s1 s2 s3 H12 H23 Hs Ht. destruct (H12 Hs Ht). by apply H23. Qed.

Lemma within_bind {A B} (m : C A) (f : A -> C B) s :
  within s (m s).2 -> (forall a s', m s = (inr a, s') -> within s' (f a s').2) -> within s ((m ≫= f) s).2.
Proof.
  intros Hm Hf. unfold mbind, cache_bind. destruct (m s) as [[e|a] s'] eqn:E; [done|]. transitivity s'; [done | by apply Hf].
Qed.

Lemma bytes_perm l k : l ≡ₚ k -> bytes_of l = bytes_of k.
Proof. intros Hp. unfold bytes_of. induction Hp; cbn; lia. Qed.

Lemma bytes_lru rows : bytes_of (lru rows) = bytes_of (ok_rows rows).
Proof. apply bytes_perm. unfold lru. by rewrite merge_sort_Permutation. Qed.

(** What a row takes of the budget. *)
Definition weight (row : option CachedImage) : Z := match row with Some row => if is_ok row then ci_ByteSize row else 0 | None => 0 end.

Lemma total_row rows h : bytes_of (lru rows) = weight (rows !! h) + bytes_of (lru (delete h rows)).
Proof.
  rewrite !bytes_lru. destruct (rows !! h) as [row|] eqn:E; [|by rewrite delete_id]. cbn. destruct (is_ok row) eqn:Ho.
  - by rewrite (bytes_perm _ _ (ok_rows_delete rows h row E Ho)).
  - rewrite (bytes_perm (ok_rows rows) (ok_rows (delete h rows))); [done|]. unfold ok_rows. rewrite <- (insert_delete_id rows h row E) at 1.
    assert (P : forall l k : list (string * CachedImage), l ≡ₚ k -> List.filter (fun kv => is_ok kv.2) l ≡ₚ List.filter (fun kv => is_ok kv.2) k).
    { intros l k Hp. induction Hp; cbn; repeat case_match; eauto using Permutation. }
    rewrite (P _ _ (map_to_list_insert (delete h rows) h row (lookup_delete_eq _ _))). cbn. by rewrite Ho.
Qed.

Lemma weight_nonneg s h : sized s -> 0 <= weight (cs_rows s !! h).
Proof. intros [_ Hs]. destruct (cs_rows s !! h) as [row|] eqn:E; cbn; [|lia]. destruct (is_ok row); [|lia]. by apply (Hs h). Qed.

(** A statement that makes one row no heavier. *)
Lemma within_row (f : gmap string CachedImage -> gmap string CachedImage) h s :
  (sized s -> sized (set_rows f s) /\ weight (f (cs_rows s) !! h) <= weight (cs_rows s !! h)) ->
  delete h (f (cs_rows s)) = delete h (cs_rows s) -> within s (query (fun s => (tt, set_rows f s)) s).2.
Proof.
  intros Hf Hd Hs Ht. rewrite query_answered by apply Hs. cbn [snd]. destruct (Hf Hs) as [Hs' Hw]. split; [done|].
  unfold total in *. cbn. pose proof (total_row (cs_rows s) h). rewrite (total_row (f _) h), Hd. lia.
Qed.

Lemma within_delete h s : within s (DeleteCachedImage h s).2.
Proof.
  apply (within_row (delete h) h); [|by rewrite delete_delete_eq]. intros Hs. split.
  - destruct Hs as [Ha Hs]. split; [done|]. by apply map_Forall_delete.
  - rewrite lookup_delete_eq. by apply weight_nonneg.
Qed.

Lemma sized_put s row h : 0 <= ci_ByteSize row -> sized s -> sized (set_rows <[h := row]> s).
Proof. intros Hr [Ha Hs]. split; [done|]. by apply map_Forall_insert_2. Qed.

Lemma within_unusable h url s : within s (markUnusable h url s).2.
Proof.
  unfold markUnusable, logged, PutCachedImage. intros Hs Ht. rewrite query_answered by apply Hs. cbn [fst snd].
  split; [by apply sized_put|]. unfold total in *. cbn. pose proof (total_row (cs_rows s) h). rewrite (total_row (<[h := _]> _) h), delete_insert_eq, lookup_insert_eq. cbn.
  pose proof (weight_nonneg s h Hs). lia.
Qed.

Lemma sized_evicted g s : sized s -> sized (foldl evict_one s g).
Proof.
  revert s. induction g as [|kv g IH]; intros s Hs; [done|]. apply IH. destruct Hs as [Ha Hs]. split; [by rewrite evict_one_answers|].
  assert (cs_rows (evict_one s kv) = delete kv.1 (cs_rows s)) as -> by (unfold evict_one; by destruct (disk_takes _ _)). by apply map_Forall_delete.
Qed.

Lemma Evict_within s : sized s -> sized (Evict maxBytes s).2 /\ total (Evict maxBytes s).2 <= maxBytes.
Proof.
  intros Hs. destruct (evict_loop_spec (target_bytes maxBytes) (S (size (cs_rows s))) s (proj1 Hs)) as (gone & _ & E & Ek & _); [pose proof (length_lru (cs_rows s)); lia|].
  assert ((Evict maxBytes s).2 = foldl evict_one s gone) as ->.
  { unfold Evict, CachedImageBytes. erewrite cache_bind_eq by (rewrite query_answered by apply Hs; done). unfold with_state. cbn [fst snd]. by rewrite E. }
  split; [by apply sized_evicted|]. unfold total. rewrite Ek. destruct (kept_fits (target_bytes maxBytes) (lru (cs_rows s))) as [|Hk]; [lia|].
  rewrite Hk. cbn. lia.
Qed.

Lemma within_write h url n s : within s (write maxBytes h url n s).2.
Proof.
  apply within_bind; [unfold place_file; by destruct (disk_takes _ _)|]. intros [] s1 _ Hs Ht.
  set (row := mkCached url (nm_ContentType n) (Z.of_nat (Datatypes.length (nm_Data n))) (if 0 <? nm_Width n then Some (nm_Width n, nm_Height n) else None) CachedOK (cs_now s1) (cs_now s1)).
  set (s2 := set_rows <[h := row]> s1). assert (Hs2 : sized s2) by (apply sized_put; [cbn; lia | done]).
  rewrite (cache_bind_eq _ _ s1 tt s2) by (unfold PutCachedImage; rewrite query_answered by apply Hs; done).
  unfold enforceCapAfterWrite, logged, CachedImageBytes. erewrite cache_bind_eq by (rewrite query_answered by apply Hs2; done). cbn [fst snd].
  fold (total s2). destruct (Z.leb_spec (total s2) maxBytes); [done|]. by apply Evict_within.
Qed.

Lemma within_same s s' : cs_rows s' = cs_rows s -> (cs_answers s = [] -> cs_answers s' = []) -> within s s'.
Proof. intros Er Ha [Hs0 Hs] Ht. unfold sized, total. rewrite Er. auto. Qed.

Lemma within_fetch_new h url s : within s (fetch_new maxBytes h url s).2.
Proof.
  apply within_bind; [apply within_same; unfold download; destruct (web_get _ _) as [[[? ?] ?]|]; try done; destruct (negb _); try done; by destruct (_ <? _)|].
  intros [data ct] s1 _. destruct (Normalize data ct) as [[]|n]; [|done|]; (apply within_bind; [|done]); [apply within_unusable | apply within_write].
Qed.

Lemma within_lookup h s : within s (CachedImageByHash h s).2.
Proof.
  apply within_bind; [|intros []; done]. intros Hs Ht. rewrite query_answered by apply Hs. done.
Qed.

Lemma within_Fetch url s : within s (Fetch maxBytes url s).2.
Proof.
  unfold Fetch. pose proof (within_lookup (HashURL url) s) as Hl. destruct (CachedImageByHash (HashURL url) s) as [[e|row] s']; cbn [snd] in Hl.
  - destruct e; try done. transitivity s'; [done | apply within_fetch_new].
  - destruct (ci_Status row); [|done]. case_bool_decide; [done|]. transitivity s'; [done | apply within_fetch_new].
Qed.

Lemma within_Open h s : within s (Open h s).2.
Proof.
  apply within_bind; [apply within_lookup|]. intros row s' _. destruct (ci_Status row); [|done]. unfold with_state.
  destruct (cs_files s' !! h); [by destruct (disk_takes _ _)|]. apply within_bind; [apply within_delete | done].
Qed.

Lemma within_Touch h s : within s (Touch h s).2.
Proof.
  apply (within_row _ h).
  - intros Hs. split; [|].
    + destruct Hs as [Ha Hs]. split; [done|]. intros k row. cbn. rewrite lookup_alter. case_decide; [subst k|apply Hs].
      destruct (cs_rows s !! h) as [r|] eqn:E; [|done]. cbn. intros [= <-]. destruct (_ <? _); exact (Hs h r E).
    + rewrite lookup_alter_eq. destruct (cs_rows s !! h) as [r|]; [|done]. cbn. by destruct (_ <? _).
  - apply map_eq. intros k. rewrite !lookup_delete. case_decide; [done|]. by rewrite lookup_alter_ne.
Qed.

Lemma within_sweep s : within s (sweep maxBytes s).2.
Proof.
  intros Hs _. unfold sweep. unfold mbind, cache_bind, logged. cbn [snd]. destruct (Evict_within s Hs) as [Hs' Ht'].
  unfold SweepOrphans, CachedImageHashes. erewrite cache_bind_eq by (rewrite query_answered by apply Hs'; done). done.
Qed.

Lemma within_run_ops ops s : within s (run_ops maxBytes ops s).
Proof.
  revert s. unfold run_ops. induction ops as [|[t op] ops IH]; intros s; [done|]. cbn [foldl fst snd].
  transitivity (run_op maxBytes op (at_time t s)); [|apply IH]. transitivity (at_time t s); [by apply within_same|].
  destruct op; cbn [run_op]; [apply within_Fetch | apply within_Open | apply within_Touch | | apply within_sweep].
  apply within_bind; [apply within_lookup|]. intros row s' _. by destruct (ci_Status row).
Qed.

End budget.

(** C36: while the database answers, the pictures on record never take more than the
    budget, whatever is fetched, opened, touched and swept, and in which order: a
    write that goes over it evicts before it returns. *)
Theorem budget_is_kept `{Web, Rasters} ops s : cs_answers s = [] ->
  map_Forall (fun _ row => 0 <= ci_ByteSize row) (cs_rows s) -> bytes_of (lru (cs_rows s)) <= MaxCacheBytes ->
  bytes_of (lru (cs_rows (run_ops MaxCacheBytes ops s))) <= MaxCacheBytes.
Proof.
  intros Ha Hs Ht. apply (within_run_ops MaxCacheBytes); [|done | done].
  assert (target_bytes MaxCacheBytes = 966367641) as -> by (vm_compute; reflexivity). unfold MaxCacheBytes. lia.
Qed.

(** *** A small cache *)

(** Nothing is decoded, and a picture of the web is a page that is not one. *)
#[local] Instance sample_web : Web := {| web_get _ _ := Some (200, "image/png", bytes "not a picture"); disk_takes _ _ := true |}.
#[local] Instance sample_rasters : Rasters := {|
  Raster := unit; raster_config _ := None; raster_decode _ := None; gif_decode _ := None; raster_size _ := (0, 0);
  is_YCbCr _ := true; alphas _ := []; scale_to _ r := r; png_encode _ := None; jpeg_encode _ _ := None |}.

Definition sample_row (n : Z) (status : CachedImageStatus) (at_ : Z) : CachedImage := mkCached "" "" n None status 0 at_.
Definition sample_cache : CacheState :=
  mkCache (<["a" := sample_row 60 CachedOK 2]> (<["b" := sample_row 50 CachedOK 1]> (<["c" := sample_row 0 CachedUnusable 0]> ∅))) ∅ 5 [] [].

Lemma Evict_spec_witness : cs_answers sample_cache = [] /\
  (Evict 100 sample_cache).1 = inr tt /\ lru (cs_rows (Evict 100 sample_cache).2) = [("a", sample_row 60 CachedOK 2)].
Proof.
  destruct (Evict_spec 100 sample_cache eq_refl) as (gone & left & _ & E & _). split; [reflexivity|]. split; [by rewrite E|]. vm_compute. reflexivity.
Defined.

Lemma budget_is_kept_witness : cs_answers sample_cache = [] /\
  bytes_of (lru (cs_rows (run_ops MaxCacheBytes [(6, OpOpen "a"); (7, OpSweep)] sample_cache))) <= MaxCacheBytes.
Proof.
  split; [reflexivity|]. apply budget_is_kept; [reflexivity | repeat (apply map_Forall_insert_2; [vm_compute; congruence|]); apply map_Forall_empty | vm_compute; congruence].
Defined.

Lemma unusable_is_remembered_witness :
  (Fetch 100 "https://x/y.png" sample_cache).1 = inl ErrUnusableCached /\
  base.filter (fun url => HashURL url = HashURL "https://x/y.png")
    (cs_requests (run_ops 100 [(6, OpFetch "https://x/y.png"); (7, OpSweep); (8, OpFetch "https://x/y.png")] (Fetch 100 "https://x/y.png" sample_cache).2)) = ["https://x/y.png"].
Proof.
  destruct (unusable_is_remembered 100 "https://x/y.png" "image/png" (bytes "not a picture") sample_cache) as (E & _ & R & S).
  - vm_compute. constructor.
  - intros row H. vm_compute in H. discriminate H.
  - reflexivity.
  - vm_compute. discriminate.
  - vm_compute. reflexivity.
  - split; [exact E|]. destruct (S [(6, OpFetch "https://x/y.png"); (7, OpSweep); (8, OpFetch "https://x/y.png")]) as [_ F]. rewrite F, R. vm_compute. reflexivity.
Defined.
