(* ===== verification/Router.v ===== *)
(** * The routes: internal/httpapi/router.go, health.go

    Which handlers are registered for which methods and patterns, and behind which
    gates.  chi decides which registered route a method and a path belong to: that
    decision is the parameter [Chi].  A route whose handler needs a collaborator the
    server's state does not have (the picture files, the vision client, the delivery
    service, ...) is registered like every other one, and its handler is a parameter. *)

From Stdlib Require Import Ascii String.
From S2P Require Import Prelude Gamification Text Encoding Uploads Password Db Outcomes Expiry AuditLog Sample Matching Tree Progress ShelfLife Containers Batches Recompute Weekly Ledger StockSteps BatchSpec Stocktake Jobs Consumption Locations Products Ingestion Shopping EditSteps IngestionSpec Accounts Storages Barcodes RecomputeSpec ExpirySpec MergeSpec AccountsSpec Household Server CatalogAdmin Delta RateLimit Json Net Http Forms Gates AuthApi GatesSpec Idempotency StockApi ScoreApi TreeApi.

#[local] Open Scope string_scope.
#[local] Open Scope list_scope.
#[local] Open Scope Z_scope.

(** ** chi *)

(** The place of the route that answers and what it cut from the path for its
    parameters, or that only the method has no route, or that nothing has. *)
Inductive Found := Hit (i : nat) (params : gmap string string) | WrongMethod | NoMatch.

(** github.com/go-chi/chi/v5: what it finds for a method and a path among the
    registered methods (none: every method) and patterns. *)
Class Chi := FindRoute : list (option string * string) -> string -> string -> Found.

Definition literal (pattern : string) : bool :=
  forallb (fun c => negb (Ascii.eqb c "{"%char || Ascii.eqb c "*"%char)) (bytes pattern).

(** What chi documents of its matching: a route answers only the methods it was
    registered for, and a pattern without a parameter or a wildcard only the path it
    spells. *)
Record chi_documented `{Chi} : Prop := {
  chi_method : forall routes method p i params, FindRoute routes method p = Hit i params ->
    exists m pattern, routes !! i = Some (m, pattern) /\ (m = None \/ m = Some method);
  chi_literal : forall routes method p i params m pattern, FindRoute routes method p = Hit i params ->
    routes !! i = Some (m, pattern) -> literal pattern = true -> p = pattern;
}.

(** What r.Get and its kin register, with the middlewares of the group around it. *)
Record Route := mkRoute {
  rt_Method : option string;
  rt_Pattern : string;
  rt_Chain : Handler -> Handler;
  rt_Handler : option Handler;
}.

Definition Get (pattern : string) (h : option Handler) : Route := mkRoute (Some "GET") pattern (fun h => h) h.
Definition Post (pattern : string) (h : option Handler) : Route := mkRoute (Some "POST") pattern (fun h => h) h.
Definition Put (pattern : string) (h : option Handler) : Route := mkRoute (Some "PUT") pattern (fun h => h) h.
Definition Patch (pattern : string) (h : option Handler) : Route := mkRoute (Some "PATCH") pattern (fun h => h) h.
Definition Delete (pattern : string) (h : option Handler) : Route := mkRoute (Some "DELETE") pattern (fun h => h) h.

(** r.Group with r.Use: the chain goes around each handler of the group. *)
Definition Group (chain : Handler -> Handler) (routes : list Route) : list Route :=
  map (fun rt => mkRoute (rt_Method rt) (rt_Pattern rt) (fun h => chain (rt_Chain rt h)) (rt_Handler rt)) routes.

(** A group that is only registered with its collaborator. *)
Definition when (wired : bool) (routes : list Route) : list Route := if wired then routes else [].

(** r.Route: the subrouter is mounted on the pattern, with and without a slash, and on
    everything below it. *)
Definition Mount (pattern : string) (h : Handler) : list Route :=
  map (fun p => mkRoute None p (fun h => h) (Some h)) [pattern; pattern +:+ "/"; pattern +:+ "/*"].

Definition table (routes : list Route) : list (option string * string) := map (fun rt => (rt_Method rt, rt_Pattern rt)) routes.

Definition with_params (params : gmap string string) (r : Request) : Request :=
  mkRequest (rq_Method r) (rq_URI r) (params ∪ rq_Param r) (rq_Query r) (rq_Header r) (rq_Cookie r) (rq_RemoteAddr r) (rq_Host r)
    (rq_TLS r) (rq_Body r) (rq_Json r) (ctx_User r) (ctx_Session r) (ctx_StorageID r).
Definition from_addr (addr : string) (r : Request) : Request :=
  mkRequest (rq_Method r) (rq_URI r) (rq_Param r) (rq_Query r) (rq_Header r) (rq_Cookie r) addr (rq_Host r)
    (rq_TLS r) (rq_Body r) (rq_Json r) (ctx_User r) (ctx_Session r) (ctx_StorageID r).

(** net/url.URL, its path decoded and as it was sent when that differs; chi routes on
    the latter. *)
Record URL := mkURL { Path : string; RawPath : string }.
Definition route_path (u : URL) : string := if String.eqb (RawPath u) "" then Path u else RawPath u.

(** ** The collaborators *)

(** What NewRouter is given: of the database and of the vision client what they
    answer a probe, of the frontend what net/http's file server answers for the files
    there are, of the others whether they are there. *)
Record Deps := mkDeps {
  d_DB : option (option Err);
  d_Vision : option string;
  d_Version : string;
  d_Store : bool;
  d_Static : option (list string -> option (Request -> Reply));
  d_ImageCache : bool;
  d_Images : bool;
  d_Config : bool;
  d_Backgrounds : bool;
  d_Cutouts : bool;
  d_Ingester : bool;
  d_Consumer : bool;
  d_Matcher : bool;
  d_LocalMatcher : bool;
  d_Notifier : bool;
}.

Section router.
Context `{Deployment} `{Chi}.

Definition no_route : Handler := fun r s => (WriteError (NotFound ReasonNoRouteMatch), s).
Definition wrong_method : Handler := fun r s =>
  (WriteError (mkFailure StatusMethodNotAllowed "method_not_allowed" "That method is not allowed here." ∅ ReasonMethodNotAllowed None 0), s).

(** The handlers the server's state says nothing about, by their method and pattern. *)
Context (outside : string -> string -> Handler).

Definition endpoint (rt : Route) : Handler :=
  rt_Chain rt (default (outside (default "" (rt_Method rt)) (rt_Pattern rt)) (rt_Handler rt)).

(** chi's ServeHTTP: the route it finds, with the parameters, or one of the two misses. *)
Definition dispatch (routes : list Route) (p : string) : Handler := fun r =>
  match FindRoute (table routes) (rq_Method r) p with
  | Hit i params => default no_route (endpoint <$> routes !! i) (with_params params r)
  | WrongMethod => wrong_method r
  | NoMatch => no_route r
  end.

(** ** health.go *)

Definition healthOK := "ok".
Definition healthUnavailable := "unavailable".
Definition DevVersion := "dev".
Definition StatusModelUnavailable := "model_unavailable".

(** The database decides the status; without one, or without a vision client, there
    is nothing to ask. *)
Definition HealthHandler (db : option (option Err)) (v : option string) (version : string) : Handler := fun r s =>
  let version := if String.eqb version "" then DevVersion else version in
  let down := match db with Some (Some _) => true | _ => false end in
  (writeJSON (if down then StatusServiceUnavailable else StatusOK)
     (Some (JObj [("status", JStr (if down then healthUnavailable else healthOK));
                  ("vision", JStr (default StatusModelUnavailable v)); ("version", JStr version)])), s).

(** ** The groups *)

Definition session_gate (h : Handler) : Handler := RequireSession (Middleware h).
Definition admin_gate (h : Handler) : Handler := RequireSession (RequireAdmin (Middleware h)).
Definition storage_gate (h : Handler) : Handler := RequireSession (RequireStorageMember (Middleware h)).
Definition page_gate (h : Handler) : Handler := noStore (RequireSessionRedirect LoginPage (Middleware h)).

Definition sign_in_routes : list Route := [Post "/api/auth/login" (Some Login); Post "/api/auth/pair" (Some Pair)].

Definition auth_routes (d : Deps) : list Route := Group session_gate (
  [ Post "/api/auth/logout" (Some Logout);
    Get "/api/auth/me" (Some Me);
    Post "/api/auth/pairing-codes" (Some AuthApi.CreatePairingCode);
    Get "/api/auth/devices" (Some ListDevices);
    Delete "/api/auth/devices/{session_id}" (Some RevokeDevice);
    Post "/api/auth/password" (Some AuthApi.ChangePassword);
    Patch "/api/auth/me" (Some UpdateMe);
    Get "/api/me/progress" (Some MeProgress);
    Get "/api/me/preferences" (Some MePreferences);
    Put "/api/me/preferences" (Some UpdateMePreferences);
    Get "/api/auth/barcode-prompt" (Some GetBarcodePrompt);
    Patch "/api/auth/barcode-prompt" (Some PatchBarcodePrompt);
    Post "/api/auth/barcode-prompt/shown" (Some BarcodePromptShown);
    Get "/api/barcodes/hot" None ] ++
  when (d_ImageCache d) [Get "/api/catalog-images/{hash}" None]).

Definition admin_routes (d : Deps) : list Route := Group admin_gate (
  [ Get "/admin" None;
    Get "/api/admin/users" (Some ListUsersHandler);
    Post "/api/admin/users" (Some CreateUserHandler);
    Delete "/api/admin/users/{id}" (Some DeleteUserHandler);
    Post "/api/admin/users/{id}/password" (Some ResetPassword);
    Get "/api/admin/storages" (Some ListStoragesHandler);
    Post "/api/admin/storages" (Some CreateStorageHandler);
    Delete "/api/admin/storages/{id}" (Some DeleteStorageHandler);
    Get "/api/admin/storages/{id}/members" (Some ListMembersHandler);
    Post "/api/admin/storages/{id}/members" (Some AddMemberHandler);
    Delete "/api/admin/storages/{id}/members/{user_id}" (Some RemoveMemberHandler);
    Get "/api/admin/settings" None;
    Put "/api/admin/settings" None ] ++
  when (d_Config d) [Get "/api/admin/settings/env-file" None] ++
  [ Get "/api/admin/catalog" None;
    Patch "/api/admin/catalog/{id}" (Some PatchCatalog);
    Delete "/api/admin/catalog/{id}" (Some DeleteCatalog);
    Delete "/api/admin/catalog-barcodes/{barcode}" (Some DeleteCatalogBarcodeHandler);
    Get "/admin/audit" None ]).

(** When the transactions in flight in the database began. *)
Context (inflight : list Z).

(** Below /api/storages/{storage_id}. *)
Definition storage_routes (d : Deps) : list Route :=
  let backgrounds := d_Backgrounds d && d_Cutouts d in
  [ Get "/locations" (Some (ListLocations inflight));
    Post "/locations" (Some CreateLocationHandler);
    Patch "/locations/{id}" (Some UpdateLocationHandler);
    Delete "/locations/{id}" (Some DeleteLocationHandler);
    Patch "/inventory-batches/{id}" (Some UpdateBatchHandler);
    Post "/inventory-batches/{id}/split" (Some Split);
    Post "/containers/{id}/destroy" (Some DestroyContainerHandler);
    Post "/icons" None;
    Get "/icons/{id}/svg" None;
    Get "/icon-suggestions" None;
    Post "/icon-suggestions/aliases" None;
    Patch "/inventory-batches/{id}/expiry" (Some PatchBatchExpiry);
    Patch "/categories/{id}/shelf-life" (Some PatchCategoryShelfLife);
    Get "/categories" (Some (ListCategories inflight));
    Post "/categories" (Some CreateCategoryHandler);
    Patch "/categories/{id}" (Some UpdateCategoryHandler);
    Delete "/categories/{id}" (Some DeleteCategoryHandler);
    Get "/jobs" None;
    Get "/jobs/{id}" None;
    Get "/jobs/{id}/image" None;
    Get "/jobs/{id}/image/{variant}" None;
    Get "/jobs/{id}/image/rows/{row_id}/{variant}" None;
    Delete "/jobs/{id}" None;
    Post "/jobs/{id}/reanalyze" None;
    Delete "/jobs" None ] ++
  when (d_Ingester d) [Post "/ingest/shelf-photos" None; Post "/ingest/product-photos" None] ++
  [Post "/ingest/{job_id}/confirm" None] ++
  when backgrounds [Post "/ingest/{job_id}/cutouts" None; Get "/ingest/{job_id}/cutouts/{cutout_id}" None] ++
  [ Get "/product-images/{name}" None;
    Get "/product-images/{name}/{variant}" None ] ++
  when (d_Consumer d) [Post "/consume/photos" None] ++
  [ Post "/consume/photos/{job_id}/confirm" None;
    Get "/products" None;
    Get "/products/{product_id}/batches" None;
    Patch "/products/{product_id}/category" None;
    Patch "/products/{product_id}/image" None;
    Post "/products/{product_id}/image" None;
    Get "/products/{product_id}" None;
    Patch "/products/{product_id}" None;
    Post "/products/{product_id}/merge" None;
    Delete "/products/{product_id}" None ] ++
  when (d_LocalMatcher d) [Post "/products" None] ++
  when (d_Matcher d)
    [ Post "/shopping-lists" None;
      Get "/shopping-lists/{id}" None;
      Post "/shopping-lists/{id}/items/{item_id}/rematch" None;
      Post "/shopping-lists/{id}/items/{item_id}/resolve" None ] ++
  when (d_Images d && d_ImageCache d) [Get "/image-suggestions" None; Get "/images/{hash}" None] ++
  [ Get "/dashboard/reorder" None;
    Get "/dashboard/reorder/export" None ] ++
  when (d_Matcher d) [Post "/dashboard/reorder/items/match" None; Post "/dashboard/reorder/items" None] ++
  [ Get "/dashboard/analytics" None;
    Get "/progress" (Some ProgressHandler);
    Get "/progress/leaderboard" (Some LeaderboardHandler);
    Get "/gamification/settings" (Some StorageSettings);
    Put "/gamification/settings" (Some UpdateStorageSettings);
    Get "/quests" (Some Quests);
    Get "/achievements" None;
    Post "/inventory-batches" (Some CreateBatchHandler);
    Get "/locations/{id}/stocktake" (Some Sheet);
    Post "/locations/{id}/stocktake" (Some Confirm);
    Get "/notification-settings" None;
    Put "/notification-settings" None ] ++
  when (d_Notifier d) [Post "/notification-settings/test" None] ++
  [ Get "/export" None;
    Get "/products/{product_id}/barcodes" None;
    Post "/products/{product_id}/barcodes" None;
    Delete "/products/{product_id}/barcodes/{barcode}" None;
    Post "/barcodes/decode" None;
    Get "/barcodes/{code}" None;
    Post "/barcodes/{code}/log" None;
    Post "/barcodes/{code}/product" None;
    Get "/inventory-batches" None;
    Patch "/membership" (Some PatchMembership) ].

(** The subrouter, with the path that is left below its mount: its gates stand before
    its own 404 and 405 as well. *)
Definition storage_router (d : Deps) : Handler := fun r =>
  storage_gate (dispatch (storage_routes d) ("/" +:+ param r "*")) r.

Definition navigation_routes : list Route := Group page_gate [Get "/no-storages" (Some NoStorages)].

Definition staticHandler (files : list string -> option (Request -> Reply)) (u : URL) : Handler := fun r s =>
  if negb (bool_decide (rq_Method r ∈ ["GET"; "HEAD"])) then (WriteError (NotFound ReasonNoRouteMatch), s)
  else
    let name := clean_path (map text (split_from slash [] (bytes (Path u)))) in
    match files name with
    | None => (WriteError (NotFound ReasonNoRouteMatch), s)
    | Some serve =>
      let reply := serve r in
      (mkReply (rp_Status reply)
        (if bool_decide (name = ["sw.js"]) then <["Cache-Control" := "no-cache"]> (rp_Header reply) else rp_Header reply)
        (rp_Cookie reply) (rp_Body reply) (rp_Data reply), s)
    end.

Definition static_routes (d : Deps) (u : URL) : list Route :=
  match d_Static d with Some files => [mkRoute None "/*" (fun h => h) (Some (staticHandler files u))] | None => [] end.

Definition top_routes (d : Deps) (u : URL) : list Route :=
  [Get "/healthz" (Some (HealthHandler (d_DB d) (d_Vision d) (d_Version d)))] ++
  when (d_Store d) (sign_in_routes ++ auth_routes d ++ admin_routes d ++
    Mount "/api/storages/{storage_id}" (storage_router d) ++ navigation_routes) ++
  static_routes d u.

(** NewRouter: the request as TrustedRealIP leaves it, and the route chi finds. *)
Definition Router (d : Deps) (u : URL) : Handler := fun r =>
  dispatch (top_routes d u) (route_path u)
    (from_addr (TrustedRealIP (rq_RemoteAddr r) (header r "X-Forwarded-For") (header r "X-Real-IP")) r).

End router.

(** * What any traffic leaves behind

    Every request the router serves, whoever sends it and whatever it says, keeps the
    database well formed.  A store call is [sound] when it does; a handler [keeps] it
    when all it does to the server goes through sound calls. *)

#[local] Open Scope string_scope.
#[local] Open Scope list_scope.
#[local] Open Scope Z_scope.

(** ** Store calls *)

Definition sound {A} (m : Tx A) : Prop := forall w r w', m w = (r, w') -> well_formed (wdb w) -> well_formed (wdb w').

Lemma sound_frames {A} (m : Tx A) : frames (fun d => d) m -> sound m.
Proof. intros F w r w' H. apply F in H. by rewrite H. Qed.

(** Tables no part of the invariant speaks of. *)
Lemma sound_aside {A} (m : Tx A) : frames inventory_of m -> frames account_tables m -> sound m.
Proof. intros F G w r w' H. apply well_formed_step; [apply good_step_inventory; by eapply F | by eapply G]. Qed.

Lemma sound_perform c : cmd_typed c -> sound (perform c).
Proof. intros Ht w r w' H. by eapply perform_well_formed. Qed.

Lemma sound_void {A} (m : Tx A) : sound (void m) -> sound m.
Proof.
  intros V w r w' H. unfold void in V. destruct r as [a|e].
  - apply (V w (Ok tt)). by rewrite (bind_step _ _ _ _ _ H).
  - apply (V w (Fail e)). unfold mbind, tx_bind. by rewrite H.
Qed.

Lemma sound_cmd {A} c (m : Tx A) : void m = perform c -> cmd_typed c -> sound m.
Proof. intros E Ht. apply sound_void. rewrite E. by apply sound_perform. Qed.

Create HintDb sound discriminated.

Ltac sound_inv o := first [exact (sound_perform (Inv o) I) | exact (sound_cmd (Inv o) _ eq_refl I)].
Ltac sound_acc o := first [exact (sound_perform (Acc o) I) | exact (sound_cmd (Acc o) _ eq_refl I)].

#[export] Hint Extern 1 (sound (CreateBatch ?st ?nb)) => sound_inv (OpCreateBatch st nb) : sound.
#[export] Hint Extern 1 (sound (SplitBatch ?st ?id ?sp ?u)) => sound_inv (OpSplitBatch st id sp u) : sound.
#[export] Hint Extern 1 (sound (UpdateBatch ?st ?id ?p ?u)) => sound_inv (OpUpdateBatch st id p u) : sound.
#[export] Hint Extern 1 (sound (DestroyContainer ?st ?id)) => sound_inv (OpDestroyContainer st id) : sound.
#[export] Hint Extern 1 (sound (SetBatchExpiration ?st ?id ?d ?u)) => sound_inv (OpSetBatchExpiration st id d u) : sound.
#[export] Hint Extern 1 (sound (ResetBatchExpirationToDerived ?st ?id)) => sound_inv (OpResetBatchExpiration st id) : sound.
#[export] Hint Extern 1 (sound (RecomputeDerivedExpiryForCategory ?st ?id)) => sound_inv (OpRecomputeForCategory st id) : sound.
#[export] Hint Extern 1 (sound (ConfirmStocktake ?st ?l ?u ?c ?f)) => sound_inv (OpConfirmStocktake st l u c f) : sound.
#[export] Hint Extern 1 (sound (CreateLocationAsUser ?st ?nl ?u)) => sound_inv (OpCreateLocationAsUser st nl u) : sound.
#[export] Hint Extern 1 (sound (UpdateLocation ?st ?id ?p)) => sound_inv (OpUpdateLocation st id p) : sound.
#[export] Hint Extern 1 (sound (DeleteLocation ?st ?id)) => sound_inv (OpDeleteLocation st id) : sound.
#[export] Hint Extern 1 (sound (CreateCategoryAsUser ?st ?nc ?u)) => sound_inv (OpCreateCategoryAsUser st nc u) : sound.
#[export] Hint Extern 1 (sound (UpdateCategory ?st ?id ?p)) => sound_inv (OpUpdateCategory st id p) : sound.
#[export] Hint Extern 1 (sound (DeleteCategory ?st ?id)) => sound_inv (OpDeleteCategory st id) : sound.
#[export] Hint Extern 1 (sound (SetCategoryShelfLife ?st ?id ?d)) => sound_inv (OpSetCategoryShelfLife st id d) : sound.
#[export] Hint Extern 1 (sound (DeleteCatalogBarcode ?a ?c)) => sound_inv (OpDeleteCatalogBarcode a c) : sound.
#[export] Hint Extern 1 (sound (CreateUser ?i)) => sound_acc (AccCreateUser i) : sound.
#[export] Hint Extern 1 (sound (AdminCreateUser ?a ?i)) => sound_acc (AccAdminCreateUser a i) : sound.
#[export] Hint Extern 1 (sound (SetDisplayName ?u ?n)) => sound_acc (AccSetDisplayName u n) : sound.
#[export] Hint Extern 1 (sound (DeleteUser ?a ?id)) => sound_acc (AccDeleteUser a id) : sound.
#[export] Hint Extern 1 (sound (Accounts.ChangePassword ?u ?h ?k)) => sound_acc (AccChangePassword u h k) : sound.
#[export] Hint Extern 1 (sound (AdminResetPassword ?a ?u ?h)) => sound_acc (AccAdminResetPassword a u h) : sound.
#[export] Hint Extern 1 (sound (CreateSession ?b ?u (Some ?k) ?l ?t)) => sound_acc (AccCreateSession b u (Some k) l t) : sound.
#[export] Hint Extern 1 (sound (LookupSession ?id)) => sound_acc (AccLookupSession id) : sound.
#[export] Hint Extern 1 (sound (TouchSession ?id)) => sound_acc (AccTouchSession id) : sound.
#[export] Hint Extern 1 (sound (DeleteSession ?id)) => sound_acc (AccDeleteSession id) : sound.
#[export] Hint Extern 1 (sound (Accounts.CreatePairingCode ?b ?u)) => sound_acc (AccCreatePairingCode b u) : sound.
#[export] Hint Extern 1 (sound (RedeemPairingCode ?c)) => sound_acc (AccRedeemPairingCode c) : sound.
#[export] Hint Extern 1 (sound (CreateStorage ?a ?n)) => sound_acc (AccCreateStorage a n) : sound.
#[export] Hint Extern 1 (sound (DeleteStorage ?a ?id)) => sound_acc (AccDeleteStorage a id) : sound.
#[export] Hint Extern 1 (sound (AddMember ?a ?st ?u)) => sound_acc (AccAddMember a st u) : sound.
#[export] Hint Extern 1 (sound (RemoveMember ?a ?st ?u)) => sound_acc (AccRemoveMember a st u) : sound.
#[export] Hint Extern 1 (sound (SetStartPage ?st ?u ?p)) => sound_acc (AccSetStartPage st u p) : sound.
#[export] Hint Extern 1 (sound (UpdateStorageGamificationSettings ?st ?b ?g)) => sound_inv (OpUpdateStorageGamificationSettings st b g) : sound.
#[export] Hint Extern 1 (sound (SetPreferences ?u ?b ?ws)) => sound_inv (OpSetPreferences u b ws) : sound.
#[export] Hint Extern 1 (sound (SetBarcodePromptEnabled ?u ?b)) => sound_inv (OpSetBarcodePromptEnabled u b) : sound.
#[export] Hint Extern 1 (sound (MarkBarcodePromptShown ?u)) => sound_inv (OpMarkBarcodePromptShown u) : sound.

Lemma sound_CorrectCatalogShelfLife a id days : sound (CorrectCatalogShelfLife a id days).
Proof. intros w r w' H. by eapply CorrectCatalogShelfLife_well_formed. Qed.
Lemma sound_DeleteCatalogProduct a id : sound (DeleteCatalogProduct a id).
Proof. intros w r w' H. by eapply DeleteCatalogProduct_well_formed. Qed.
Lemma sound_RecordIdempotent k u st h status body : sound (RecordIdempotent k u st h status body).
Proof. apply sound_aside; unfold RecordIdempotent; deep_walk. Qed.
#[export] Hint Resolve sound_CorrectCatalogShelfLife sound_DeleteCatalogProduct sound_RecordIdempotent : sound.

(** A query. *)
#[export] Hint Extern 9 (sound _) => apply sound_frames; solve [deep_walk] : sound.

(** ** Handlers *)

Definition sane (s : Server) : Prop := well_formed (wdb (sv_World s)).

Definition keeps {A} (m : Hd A) : Prop := forall s, sane s -> sane (m s).2.
Definition h_keeps (h : Handler) : Prop := forall r s, sane s -> sane (h r s).2.

Create HintDb keeps discriminated.

Section keeps.
Context `{Deployment} {A B : Type}.

Lemma keeps_ret (a : A) : keeps (mret a : Hd A).
Proof. by intros s. Qed.
Lemma keeps_refuse f : keeps (refuse f : Hd A).
Proof. by intros s. Qed.
Lemma keeps_bind (m : Hd A) (f : A -> Hd B) : keeps m -> (forall a, keeps (f a)) -> keeps (m ≫= f).
Proof.
  intros Hm Hf s Hs. unfold mbind, hd_bind. specialize (Hm s Hs). destruct (m s) as [[e|a] s1]; [exact Hm | by apply Hf].
Qed.
Lemma keeps_call (m : Tx A) : sound m -> keeps (call m).
Proof. intros Hm s Hs. unfold call. destruct (m (sv_World s)) as [r w] eqn:E. exact (Hm _ _ _ E Hs). Qed.
Lemma keeps_or_refuse (o : option A) f : keeps (or_refuse o f).
Proof. by destruct o; intros s. Qed.
Lemma keeps_or_failure (x : Failure + A) : keeps (or_failure x).
Proof. by destruct x; intros s. Qed.
Lemma keeps_filled (f : Form A) : keeps (filled f).
Proof. intros s Hs. unfold filled. destruct (f ∅) as [a fields]. by destruct (_ =? _)%nat. Qed.
Lemma keeps_store (m : Tx A) onErr : sound m -> keeps (store m onErr).
Proof.
  intros Hm. unfold store. intros s Hs. pose proof (keeps_call m Hm s Hs) as Hc. unfold mbind, hd_bind.
  destruct (call m s) as [[e|[a|e]] s1]; done.
Qed.
Lemma keeps_decodeJSON (read : list (string * Json) -> option A) r : keeps (decodeJSON read r).
Proof. intros s Hs. unfold decodeJSON. destruct (rq_Json r); [done|done|]. by destruct (read_struct _ _). Qed.
Lemma keeps_decodeJSONStrict fields (read : list (string * Json) -> option A) r : keeps (decodeJSONStrict fields read r).
Proof.
  intros s Hs. unfold decodeJSONStrict. destruct (rq_Json r); [done|done|]. destruct (cut_unknown _ _) as [[key before]|].
  - by destruct (is_nil _).
  - by destruct (read_struct _ _).
Qed.
End keeps.

Section keeps_helpers.
Context `{Deployment}.

Lemma keeps_refuse_if b f : keeps (refuse_if b f).
Proof. by destruct b; intros s. Qed.
Lemma keeps_rand_Read : keeps rand_Read.
Proof. intros s Hs. unfold rand_Read. by destruct (sv_Rand s). Qed.
Lemma keeps_verify h p : keeps (verify h p).
Proof. by intros s. Qed.
Lemma keeps_blocked keys : keeps (credentials_blocked keys).
Proof. by intros s. Qed.
Lemma keeps_record keys : keeps (credentials_record keys).
Proof. by intros s. Qed.
Lemma keeps_reset keys : keeps (credentials_reset keys).
Proof. by intros s. Qed.
Lemma keeps_codes key : keeps (codes_allow key).
Proof. intros s Hs. unfold codes_allow. by destruct (allow _ _ _) as [[? ?] ?]. Qed.

Lemma keeps_handle body : (forall r, keeps (body r)) -> h_keeps (handle body).
Proof. intros Hb r s Hs. unfold handle. specialize (Hb r s Hs). by destruct (body r s) as [[f|reply] s1]. Qed.

(** A gate that refuses or passes an enriched request on. *)
Lemma keeps_gate (gate : Request -> Hd Request) (refusal : Failure -> Reply) next :
  (forall r, keeps (gate r)) -> h_keeps next ->
  h_keeps (fun r s => match gate r s with (inl f, s') => (refusal f, s') | (inr r', s') => next r' s' end).
Proof. intros Hg Hn r s Hs. specialize (Hg r s Hs). destruct (gate r s) as [[f|r'] s1]; [done | by apply Hn]. Qed.
End keeps_helpers.

#[export] Hint Resolve keeps_ret keeps_refuse keeps_or_refuse keeps_or_failure keeps_filled keeps_decodeJSON
  keeps_decodeJSONStrict keeps_refuse_if keeps_rand_Read keeps_verify keeps_blocked keeps_record keeps_reset keeps_codes : keeps.

Ltac keeps_step :=
  lazymatch goal with
  | |- keeps (mbind (M:=Hd) _ _) => apply keeps_bind; [|intros ?]
  | |- keeps (store _ _) => apply keeps_store; solve [auto with sound]
  | |- keeps (call _) => apply keeps_call; solve [auto with sound]
  | |- keeps (let _ := _ in _) => cbv zeta
  | |- keeps (match ?x with _ => _ end) => destruct x
  | |- keeps ?m => first [solve [auto with keeps] | let h := deep_head m in progress unfold h; cbv beta zeta]
  | |- h_keeps (handle _) => apply keeps_handle; intros ?
  | |- h_keeps ?h => let x := deep_head h in progress unfold x
  end.
Ltac keeps_walk := repeat keeps_step.

Section gates.
Context `{Deployment}.

Lemma keeps_RequireSession next : h_keeps next -> h_keeps (RequireSession next).
Proof. apply (keeps_gate resolveSession WriteError). intros r. keeps_walk. Qed.
Lemma keeps_RequireAdmin next : h_keeps next -> h_keeps (RequireAdmin next).
Proof. apply (keeps_gate admitAdmin WriteError). intros r. keeps_walk. Qed.
Lemma keeps_RequireStorageMember next : h_keeps next -> h_keeps (RequireStorageMember next).
Proof. apply (keeps_gate admitMember WriteError). intros r. keeps_walk. Qed.
Lemma keeps_RequireSessionRedirect page next : h_keeps next -> h_keeps (RequireSessionRedirect page next).
Proof.
  intros Hn r s Hs. unfold RequireSessionRedirect. assert (K : keeps (resolveSession r)) by keeps_walk.
  specialize (K s Hs). destruct (resolveSession r s) as [[f|r'] s1]; [by destruct (negb _) | by apply Hn].
Qed.

Lemma keeps_noStore next : h_keeps next -> h_keeps (noStore next).
Proof. intros Hn r s Hs. unfold noStore. specialize (Hn r s Hs). by destruct (next r s). Qed.

Lemma keeps_Middleware next : h_keeps next -> h_keeps (Middleware next).
Proof.
  intros Hn r s Hs. unfold Middleware. destruct (keyed r) as [f|[q|]]; [done | | by apply Hn].
  destruct (lookup_step q s); [done|]. specialize (Hn r s Hs). destruct (next r s) as [reply s1]. cbn.
  assert (K : keeps (record_reply q r reply)) by keeps_walk. by apply K.
Qed.

Lemma keeps_session_gate h : h_keeps h -> h_keeps (session_gate h).
Proof. intros Hh. by apply keeps_RequireSession, keeps_Middleware. Qed.
Lemma keeps_admin_gate h : h_keeps h -> h_keeps (admin_gate h).
Proof. intros Hh. by apply keeps_RequireSession, keeps_RequireAdmin, keeps_Middleware. Qed.
Lemma keeps_storage_gate h : h_keeps h -> h_keeps (storage_gate h).
Proof. intros Hh. by apply keeps_RequireSession, keeps_RequireStorageMember, keeps_Middleware. Qed.
Lemma keeps_page_gate h : h_keeps h -> h_keeps (page_gate h).
Proof. intros Hh. by apply keeps_noStore, keeps_RequireSessionRedirect, keeps_Middleware. Qed.

End gates.

Section routes.
Context `{Deployment} `{Chi} (outside : string -> string -> Handler) (Houtside : forall m p, h_keeps (outside m p)).

(** A handler that keeps the database well formed, behind gates that let it. *)
Definition route_keeps (rt : Route) : Prop :=
  (forall h, h_keeps h -> h_keeps (rt_Chain rt h)) /\ match rt_Handler rt with Some h => h_keeps h | None => True end.

Lemma keeps_endpoint rt : route_keeps rt -> h_keeps (endpoint outside rt).
Proof using Houtside. intros [Hc Hh]. apply Hc. destruct (rt_Handler rt); cbn; [exact Hh | apply Houtside]. Qed.

Lemma keeps_Group chain routes : (forall h, h_keeps h -> h_keeps (chain h)) -> Forall route_keeps routes -> Forall route_keeps (Group chain routes).
Proof.
  intros Hc Hr. unfold Group. apply Forall_map. eapply Forall_impl; [exact Hr|]. intros rt [H1 H2]. split; [|exact H2].
  intros h Hh. by apply Hc, H1.
Qed.
Lemma keeps_when b routes : Forall route_keeps routes -> Forall route_keeps (when b routes).
Proof. by destruct b. Qed.
Lemma keeps_Mount p h : h_keeps h -> Forall route_keeps (Mount p h).
Proof. intros Hh. unfold Mount. apply Forall_map. apply Forall_true. by split. Qed.

Lemma keeps_dispatch routes p : Forall route_keeps routes -> h_keeps (dispatch outside routes p).
Proof using Houtside.
  intros Hr r s Hs. unfold dispatch. destruct (FindRoute _ _ _) as [i params| |]; [|done..].
  destruct (routes !! i) as [rt|] eqn:E; [|done]. cbn. apply keeps_endpoint; [|done]. rewrite Forall_forall in Hr.
  by apply Hr, (list_elem_of_lookup_2 _ i).
Qed.

Ltac routes_walk :=
  repeat first [apply Forall_app; split | apply keeps_when | apply keeps_Mount | apply Forall_cons_2; [split; [done|] |] | apply Forall_nil_2].

Lemma auth_routes_keep d : Forall route_keeps (auth_routes d).
Proof. apply keeps_Group; [apply keeps_session_gate|]. routes_walk. all: cbn; try done; keeps_walk. Qed.
Lemma admin_routes_keep d : Forall route_keeps (admin_routes d).
Proof. apply keeps_Group; [apply keeps_admin_gate|]. routes_walk. all: cbn; try done; keeps_walk. Qed.
Lemma storage_routes_keep inflight d : Forall route_keeps (storage_routes inflight d).
Proof. unfold storage_routes. routes_walk. all: cbn; try done; keeps_walk. Qed.
Lemma top_routes_keep inflight d u : Forall route_keeps (top_routes outside inflight d u).
Proof using Houtside.
  unfold top_routes, sign_in_routes, navigation_routes, static_routes. routes_walk; cbn; try done; try (by intros r s); try (by keeps_walk).
  - apply auth_routes_keep.
  - apply admin_routes_keep.
  - intros r s Hs. apply keeps_storage_gate; [|done]. apply keeps_dispatch, storage_routes_keep.
  - apply (keeps_Group page_gate [Get "/no-storages" (Some NoStorages)]); [apply keeps_page_gate|]. routes_walk. cbn. keeps_walk.
  - destruct (d_Static d) as [files|]; routes_walk. cbn. intros r s Hs. unfold staticHandler. destruct (negb _); [done|]. by destruct (files _).
Qed.

Lemma Router_keeps inflight d u : h_keeps (Router outside inflight d u).
Proof using Houtside. intros r s. exact (keeps_dispatch _ _ (top_routes_keep inflight d u) _ s). Qed.

End routes.

(** ** Traffic *)

Section traffic.
Context `{Deployment} `{Chi}.

(** A handler the server's state says nothing about acts on the database through the
    store: it answers, and makes the store calls it makes. *)
Definition Acting := string -> string -> Request -> Server -> Reply * list Cmd.
Definition by_calls (act : Acting) (method pattern : string) : Handler := fun r s =>
  let '(reply, calls) := act method pattern r s in (reply, with_world (serve calls (sv_World s)) s).

Context (act : Acting) (d : Deps).

(** What happens to a server: a request, or a command of a background job, of the
    command line, or of time passing. *)
Inductive Traffic :=
| Asks (inflight : list Z) (u : URL) (r : Request)
| Behind (c : Cmd).

Definition arrive (t : Traffic) (s : Server) : Server :=
  match t with
  | Asks inflight u r => (Router (by_calls act) inflight d u r s).2
  | Behind c => with_world (perform c (sv_World s)).2 s
  end.

Definition day (ts : list Traffic) (s : Server) : Server := foldl (fun s t => arrive t s) s ts.

Definition traffic_typed (t : Traffic) : Prop := match t with Asks _ _ _ => True | Behind c => cmd_typed c end.
Definition calls_typed : Prop := forall m p r s, Forall cmd_typed (act m p r s).2.

Lemma by_calls_keeps : calls_typed -> forall m p, h_keeps (by_calls act m p).
Proof.
  intros Ht m p r s Hs. unfold by_calls. specialize (Ht m p r s). destruct (act m p r s) as [reply calls]. cbn in *.
  by apply serve_well_formed.
Qed.

Lemma day_keeps ts s : calls_typed -> Forall traffic_typed ts -> sane s -> sane (day ts s).
Proof.
  intros Hc. revert s. induction ts as [|t ts IH]; intros s Ht Hs; [done|]. apply Forall_cons in Ht as [Ht Hts]. cbn. apply IH; [done|].
  destruct t as [inflight u r|c]; [by apply Router_keeps; [apply by_calls_keeps|]|]. cbn. destruct (perform c (sv_World s)) as [res w] eqn:E.
  by eapply perform_well_formed.
Qed.

(** C1: Whatever is asked of the server, by whomever, on any path, interleaved with
    whatever runs behind it, started from a well-formed database: every batch belongs
    to a product, a shelf and a container of its own storage and holds between one and
    2^31-1 units; every log row names a product and a batch of that product; every
    session, pairing code, membership and audit row names accounts and storages that
    exist; a start page is one the app has; no two accounts have the same username;
    and the stock reported of a product is what its log sums to. *)
Theorem traffic_keeps_database_well_formed ts s
    (Hcalls : calls_typed) (Htyped : Forall traffic_typed ts) (Hstart : well_formed (wdb (sv_World s))) :
  let w := sv_World (day ts s) in
  well_formed (wdb w) /\
  forall st p prod, product_in_storage (wdb w) st p = Some prod -> CurrentStock st p w = (Ok (ledger (wdb w) p), w).
Proof.
  intros w. assert (C : well_formed (wdb w)) by (by apply day_keeps). split; [exact C|].
  intros st p prod Hp. unfold CurrentStock, mbind, tx_bind, get_db, mret, tx_ret. rewrite Hp.
  destruct C as [[_ B] _]. by rewrite B.
Qed.

End traffic.

(** ** Requests without a session *)

Section strangers.
Context `{Deployment} `{Chi}.

Definition turned_away (r : Request) (s : Server) (answer : Reply * Server) : Prop :=
  rp_Status answer.1 ∈ [StatusFound; StatusUnauthorized; StatusNotFound; StatusMethodNotAllowed] /\
  rp_Cookie answer.1 = None /\
  (answer.2 = s \/ answer.2 = with_world (lapse r (sv_World s)) s).

Definition guarded (h : Handler) : Prop := forall r s, identity r (sv_World s) = None -> turned_away r s (h r s).

Lemma guarded_RequireSession next : guarded (RequireSession next).
Proof.
  intros r s Hid. unfold RequireSession. destruct (resolveSession_spec r s) as [reason ->]. rewrite Hid.
  split_and!; [cbn; set_solver | done | by right].
Qed.

Lemma guarded_redirect page next : guarded (RequireSessionRedirect page next).
Proof.
  intros r s Hid. unfold RequireSessionRedirect. destruct (resolveSession_spec r s) as [reason ->]. rewrite Hid.
  split_and!; [cbn; set_solver | done | by right].
Qed.

Lemma guarded_noStore next : guarded next -> guarded (noStore next).
Proof. intros G r s Hid. unfold noStore. specialize (G r s Hid). by destruct (next r s). Qed.

Lemma guarded_page_gate next : guarded (page_gate next).
Proof. apply guarded_noStore, guarded_redirect. Qed.

Lemma turned_away_404 r s f : f_Status f ∈ [StatusNotFound; StatusMethodNotAllowed] -> turned_away r s (WriteError f, s).
Proof.
  intros Hf. split_and!; [|done | by left]. cbn. unfold StatusNotFound, StatusMethodNotAllowed in *.
  destruct (Z.eqb_spec (f_Status f) 0) as [E0|E0]; [rewrite E0 in Hf|]; set_solver.
Qed.

(** The answer is a file of the frontend. *)
Definition frontend_file (d : Deps) (u : URL) (r : Request) (s : Server) (answer : Reply * Server) : Prop :=
  rq_Method r ∈ ["GET"; "HEAD"] /\ answer.2 = s /\
  exists files serve r', d_Static d = Some files /\ files (clean_path (map text (split_from slash [] (bytes (Path u))))) = Some serve /\
    rp_Body answer.1 = rp_Body (serve r').

(** The answer tells how the server is. *)
Definition health_report (u : URL) (r : Request) (s : Server) (answer : Reply * Server) : Prop :=
  rq_Method r = "GET" /\ route_path u = "/healthz" /\
  rp_Status answer.1 ∈ [StatusOK; StatusServiceUnavailable] /\ rp_Cookie answer.1 = None /\ answer.2 = s.

(** The two ways to get a session. *)
Definition sign_in : list (string * string) := [("POST", "/api/auth/login"); ("POST", "/api/auth/pair")].

Context (outside : string -> string -> Handler) (inflight : list Z) (d : Deps) (u : URL).

Definition outcome (r : Request) (s : Server) (answer : Reply * Server) : Prop :=
  turned_away r s answer \/ frontend_file d u r s answer \/ health_report u r s answer.

(** What a route does for a stranger whose method and path chi found it for. *)
Definition shut (rt : Route) : Prop := forall r s,
  rt_Method rt = None \/ rt_Method rt = Some (rq_Method r) ->
  (literal (rt_Pattern rt) = true -> route_path u = rt_Pattern rt) ->
  (rq_Method r, route_path u) ∉ sign_in -> identity r (sv_World s) = None ->
  outcome r s (endpoint outside rt r s).

Lemma shut_guarded rt : (forall h, guarded (rt_Chain rt h)) -> shut rt.
Proof. intros G r s _ _ _ Hid. left. by apply G. Qed.

Lemma shut_Group chain routes : (forall h, guarded (chain h)) -> Forall shut (Group chain routes).
Proof. intros G. unfold Group. apply Forall_map, Forall_true. intros rt. apply shut_guarded. intros h. apply G. Qed.

Lemma shut_Mount p h : guarded h -> Forall shut (Mount p h).
Proof. intros G. unfold Mount. apply Forall_map, Forall_true. intros q r s _ _ _ Hid. left. by apply G. Qed.

Lemma shut_sign_in : Forall shut sign_in_routes.
Proof.
  repeat apply Forall_cons_2; [..|apply Forall_nil_2].
  all: intros r s [Hm|Hm] Hp Hout _; [done|]; exfalso; apply Hout; rewrite Hp by done; injection Hm as <-; unfold sign_in; set_solver.
Qed.

Lemma shut_health : shut (Get "/healthz" (Some (HealthHandler (d_DB d) (d_Vision d) (d_Version d)))).
Proof.
  intros r s [Hm|Hm] Hp _ _; [done|]. injection Hm as Hm. right. right. split_and!; [done | by apply Hp | | done | done].
  cbn. destruct (d_DB d) as [[e|]|]; set_solver.
Qed.

Lemma shut_static : Forall shut (static_routes d u).
Proof.
  unfold static_routes. destruct (d_Static d) as [files|] eqn:Es; [|by apply Forall_nil].
  apply Forall_singleton. intros r s _ _ _ _. cbn. unfold staticHandler. destruct (bool_decide_reflect (rq_Method r ∈ ["GET"; "HEAD"])).
  - destruct (files _) as [serve|] eqn:Ef; cbn [negb].
    + right. left. split_and!; [done | done |]. by exists files, serve, r.
    + left. apply turned_away_404. set_solver.
  - left. apply turned_away_404. set_solver.
Qed.

Lemma shut_routes : Forall shut (top_routes outside inflight d u).
Proof.
  unfold top_routes. apply Forall_app. split; [apply Forall_singleton, shut_health|]. apply Forall_app. split; [|apply shut_static].
  destruct (d_Store d); [|by apply Forall_nil]. cbn [when]. rewrite !Forall_app. split_and!.
  - apply shut_sign_in.
  - apply shut_Group. intros h. apply guarded_RequireSession.
  - apply shut_Group. intros h. apply guarded_RequireSession.
  - apply shut_Mount. intros r s Hid. by apply guarded_RequireSession.
  - apply shut_Group. intros h. apply guarded_page_gate.
Qed.

(** C2: A caller without a live session of an existing account gets nothing done:
    except for signing in and redeeming a pairing code, every method on every path,
    registered or not, is answered 401, 404, 405 or a redirect, without a cookie, and
    leaves the server as it was but for the caller's own lapsed session row.  What is
    left are the two things served to anybody, which change nothing either: the
    files of the frontend, and the state of the server at /healthz. *)
Theorem strangers_are_turned_away r s
    (Hchi : chi_documented) (Hstranger : identity r (sv_World s) = None) (Hpath : (rq_Method r, route_path u) ∉ sign_in) :
  outcome r s (Router outside inflight d u r s).
Proof.
  unfold Router. set (r' := from_addr _ r). change (outcome r s) with (outcome r' s).
  unfold dispatch. destruct (FindRoute _ _ _) as [i params| |] eqn:E; [|left; apply turned_away_404; set_solver ..].
  destruct (chi_method Hchi _ _ _ _ _ E) as (m & pattern & Hi & Hm). pose proof (chi_literal Hchi _ _ _ _ _ _ _ E Hi) as Hl.
  unfold table in Hi. rewrite list_lookup_fmap in Hi.
  destruct (top_routes outside inflight d u !! i) as [rt|] eqn:Er; [|done]. injection Hi as <- <-. cbn.
  pose proof shut_routes as S. rewrite Forall_forall in S.
  by apply (S rt (list_elem_of_lookup_2 _ _ _ Er) (with_params params r') s).
Qed.

(** ** The admin area *)

Definition in_admin_area (pattern : string) : bool := String.prefix "/admin" pattern || String.prefix "/api/admin/" pattern.

(** Nothing is at the path: no route, or the catch-all without a file. *)
Definition nothing_there (v : URL) (r : Request) : Prop :=
  FindRoute (table (top_routes outside inflight d v)) (rq_Method r) (route_path v) = NoMatch \/
  exists i params files, FindRoute (table (top_routes outside inflight d v)) (rq_Method r) (route_path v) = Hit i params /\
    d_Static d = Some files /\ top_routes outside inflight d v !! i = Some (mkRoute None "/*" (fun h => h) (Some (staticHandler files v))) /\
    (rq_Method r ∈ ["GET"; "HEAD"] -> files (clean_path (map text (split_from slash [] (bytes (Path v))))) = None).

Lemma nothing_there_answer v r s : nothing_there v r -> Router outside inflight d v r s = (WriteError (NotFound ReasonNoRouteMatch), s).
Proof.
  intros N. unfold Router. set (r' := from_addr _ r). unfold dispatch. change (rq_Method r') with (rq_Method r).
  destruct N as [-> | (i & params & files & -> & Hs & -> & Hf)]; [done|]. cbn. unfold staticHandler.
  change (rq_Method (with_params params r')) with (rq_Method r).
  destruct (bool_decide_reflect (rq_Method r ∈ ["GET"; "HEAD"])) as [Hm|]; [|done]. by rewrite Hf.
Qed.

(** Every route with a pattern of the admin area is one of the group. *)
Definition gated_admin (rt : Route) : Prop := in_admin_area (rt_Pattern rt) = true -> exists h, endpoint outside rt = admin_gate h.

Lemma gated_other routes : forallb (fun rt => negb (in_admin_area (rt_Pattern rt))) routes = true -> Forall gated_admin routes.
Proof.
  intros F. apply Forall_forall. intros rt Hin Ha. rewrite forallb_forall in F. apply list_elem_of_In, F in Hin. by rewrite Ha in Hin.
Qed.

Lemma gated_routes : Forall gated_admin (top_routes outside inflight d u).
Proof.
  unfold top_routes. apply Forall_app. split; [by apply gated_other|]. apply Forall_app. split.
  - destruct (d_Store d); [|by apply Forall_nil]. cbn [when]. rewrite !Forall_app. split_and!; [by apply gated_other | | | by apply gated_other ..].
    + apply gated_other. unfold auth_routes. by destruct (d_ImageCache d).
    + unfold admin_routes, Group. apply Forall_map, Forall_true. intros rt _. by eexists.
  - apply gated_other. unfold static_routes. by destruct (d_Static d).
Qed.

(** C3: In production the admin area does not exist for anybody but an admin in a
    browser.  Whoever else is signed in, a paired device of an admin included, gets on
    every route whose pattern lies in the admin area the very reply a path has at
    which nothing is, and nothing but their own session's last use is written. *)
Theorem admin_area_is_hidden r s ses row i params rt
    (Hprod : dev = false) (Hsigned : identity r (sv_World s) = Some (ses, row))
    (Hother : usr_IsAdmin row && bool_decide (ses_Kind ses = SessionBrowser) = false)
    (Hfound : FindRoute (table (top_routes outside inflight d u)) (rq_Method r) (route_path u) = Hit i params)
    (Hroute : top_routes outside inflight d u !! i = Some rt) (Harea : in_admin_area (rt_Pattern rt) = true) :
  (Router outside inflight d u r s).2 = with_world (touched (sessionIDFrom r) (sv_World s)) s /\
  forall v r0 s0, nothing_there v r0 -> (Router outside inflight d u r s).1 = (Router outside inflight d v r0 s0).1.
Proof.
  assert (E : Router outside inflight d u r s = (WriteError (NotFound ReasonNoRouteMatch), with_world (touched (sessionIDFrom r) (sv_World s)) s)).
  { unfold Router. set (r' := from_addr _ r). unfold dispatch. change (rq_Method r') with (rq_Method r).
    rewrite Hfound, Hroute. cbn [fmap option_fmap option_map default].
    pose proof gated_routes as G. rewrite Forall_forall in G. destruct (G rt (list_elem_of_lookup_2 _ _ _ Hroute) Harea) as [h ->].
    unfold id, admin_gate. rewrite admin_gate_spec by done. change (identity (with_params params r') (sv_World s)) with (identity r (sv_World s)).
    rewrite Hsigned. cbv zeta. by rewrite Hother. }
  rewrite E. split; [done|]. intros v r0 s0 N. by rewrite nothing_there_answer.
Qed.

End strangers.

(** ** Witnesses *)

(** A router that takes the first route that fits: a pattern without parameters fits
    the path it spells, any other one segment by segment. *)
Fixpoint cut (pattern path : list string) : option (gmap string string) :=
  match pattern, path with
  | [], [] => Some ∅
  | x :: pattern', y :: path' =>
    if String.eqb x "*" then Some {["*" := String.concat "/" path]}
    else if String.prefix "{" x then
      params ← cut pattern' path'; if String.eqb y "" then None else Some (<[String.substring 1 (String.length x - 2) x := y]> params)
    else if String.eqb x y then cut pattern' path' else None
  | _, _ => None
  end.

Definition fits (pattern p : string) : option (gmap string string) :=
  if literal pattern then if String.eqb p pattern then Some ∅ else None else cut (Password.Split pattern slash) (Password.Split p slash).

Fixpoint first_fit (routes : list (option string * string)) (method p : string) (i : nat) (seen : bool) : Found :=
  match routes with
  | [] => if seen then WrongMethod else NoMatch
  | (m, pattern) :: routes' =>
    match fits pattern p with
    | Some params => if bool_decide (m = None \/ m = Some method) then Hit i params else first_fit routes' method p (S i) true
    | None => first_fit routes' method p (S i) seen
    end
  end.

#[local] Instance plain_mux : Chi := fun routes method p => first_fit routes method p 0 false.

Lemma first_fit_hit routes method p i seen k params : first_fit routes method p i seen = Hit k params ->
  exists j m pattern, k = (i + j)%nat /\ routes !! j = Some (m, pattern) /\ (m = None \/ m = Some method) /\ is_Some (fits pattern p).
Proof.
  revert i seen. induction routes as [|[m pattern] routes IH]; intros i seen E; cbn in E; [by destruct seen|].
  assert (Hrest : forall seen', first_fit routes method p (S i) seen' = Hit k params -> exists j m' pattern', k = (i + j)%nat /\
      ((m, pattern) :: routes) !! j = Some (m', pattern') /\ (m' = None \/ m' = Some method) /\ is_Some (fits pattern' p)).
  { intros seen' E'. destruct (IH _ _ E') as (j & m' & q & -> & Hj & Hm & Hf). exists (S j), m', q. split_and!; [lia | done..]. }
  destruct (fits pattern p) as [ps|] eqn:Ef; [|by eapply Hrest].
  destruct (bool_decide_reflect (m = None \/ m = Some method)) as [Hm|]; [|by eapply Hrest].
  injection E as <- <-. exists 0%nat, m, pattern. split_and!; [lia | done | done | by eexists].
Qed.

Lemma plain_mux_documented : chi_documented.
Proof.
  split; intros routes method p i params.
  - intros E. destruct (first_fit_hit _ _ _ _ _ _ _ E) as (j & m & pattern & -> & Hj & Hm & _). by eauto.
  - intros m pattern E Hi Hl. destruct (first_fit_hit _ _ _ _ _ _ _ E) as (j & m' & q & -> & Hj & _ & Hf). cbn in Hi. rewrite Hj in Hi.
    injection Hi as -> ->. unfold fits in Hf. rewrite Hl in Hf. by destruct (String.eqb_spec p pattern); [|destruct Hf].
Qed.

(** Everything is wired; the frontend has one page. *)
Definition wired : Deps :=
  mkDeps (Some None) (Some "ok") "v1" true
    (Some (fun name => if bool_decide (name = ["index.html"]) then Some (fun _ => mkReply 200 ∅ None None None) else None))
    true true true true true true true true true true.
Definition at_path (p : string) : URL := mkURL p "".
Definition idle : Acting := fun _ _ _ _ => (mkReply 200 ∅ None None None, []).

(** A day on the sample household: Ada signs in, files stock, counts a shelf, moves
    one, removes another that still holds stock; somebody without a session tries the
    same; an hour goes by. *)
Definition as_ada (method : string) (body : Json) : Request :=
  mkRequest method "/" ∅ ∅ ∅ (Some "browser") "10.0.0.9:4000" "inventory.local" false [] (Value body) None None None.
Definition as_nobody (method : string) (body : Json) : Request :=
  mkRequest method "/" ∅ ∅ ∅ None "10.0.0.66:4000" "inventory.local" false [] (Value body) None None None.

Definition jar : Json := JObj [("product_id", JStr "31"); ("location_id", JStr "20"); ("quantity", JNum 4); ("container_label", JStr "Jar")].

Definition sample_day : list Traffic :=
  [ Asks [] (at_path "/api/auth/login") (as_nobody "POST" (JObj [("username", JStr "ada"); ("password", JStr "correct horse")]));
    Asks [] (at_path "/api/storages/1/inventory-batches") (as_ada "POST" jar);
    Asks [] (at_path "/api/storages/1/inventory-batches") (as_nobody "POST" jar);
    Asks [] (at_path "/api/storages/1/locations/20") (as_ada "DELETE" JNull);
    Asks [] (at_path "/api/admin/storages/1") (as_ada "DELETE" JNull);
    Behind (Inv (OpWait hour)) ].

Lemma login_sane : well_formed (wdb (sv_World login_server)).
Proof.
  assert (Hu : forall u, u = 10 \/ u = 11 -> u ∈ db_users login_db).
  { intros u [-> | ->]; apply elem_of_dom; vm_compute; eauto. }
  split; [eapply good_step_consistent; [by apply (good_step_inventory sample_db) | exact sample_consistent]|].
  split; try done.
  - intros t ses Ht. cbn in Ht. rewrite !lookup_insert in Ht. repeat case_decide; simplify_eq; apply Hu; by left.
  - intros st u Hm. apply (ref_member _ sample_refs) in Hm as [Hst Hin]. split; [exact Hst|]. apply Hu.
    unfold db_users in Hin. apply elem_of_dom in Hin as [row Hin]. cbn in Hin. rewrite !lookup_insert in Hin. repeat case_decide; simplify_eq; auto.
  - intros k m Hm. by apply (ref_page _ sample_refs k).
  - intros r a Hr. by apply elem_of_nil in Hr.
  - intros i j u v Hi Hj. cbn in Hi, Hj. rewrite !lookup_insert in Hi, Hj. repeat case_decide; simplify_eq; done.
Qed.

Lemma traffic_keeps_database_well_formed_witness :
  let s := day idle wired sample_day login_server in
  well_formed (wdb (sv_World s)) /\ CurrentStock 1 31 (sv_World s) = (Ok 4, sv_World s).
Proof.
  intros s. destruct (traffic_keeps_database_well_formed idle wired sample_day login_server) as [C S];
    [by intros m p r s' | repeat constructor | exact login_sane |]. fold s in C, S.
  split; [exact C|]. destruct (product_in_storage (wdb (sv_World s)) 1 31) as [prod|] eqn:E; [|vm_compute in E; discriminate E].
  rewrite (S 1 31 prod E). replace (ledger (wdb (sv_World s)) 31) with 4 by (vm_compute; reflexivity). reflexivity.
Defined.

(** Filing stock without a session; and asking how the server is. *)
Lemma strangers_are_turned_away_witness :
  (forall p m, (m, p) ∉ sign_in ->
    outcome wired (at_path p) (as_nobody m jar) login_server (Router (by_calls idle) [] wired (at_path p) (as_nobody m jar) login_server)) /\
  rp_Status (Router (by_calls idle) [] wired (at_path "/api/storages/1/inventory-batches") (as_nobody "POST" jar) login_server).1 = 401 /\
  rp_Status (Router (by_calls idle) [] wired (at_path "/healthz") (as_nobody "GET" JNull) login_server).1 = 200.
Proof.
  split_and!; [|vm_compute; reflexivity ..].
  intros p m Hp. apply (strangers_are_turned_away (by_calls idle) [] wired (at_path p) (as_nobody m jar) login_server);
    [exact plain_mux_documented | vm_compute; reflexivity | exact Hp].
Defined.

(** Ada's paired phone, asking for the accounts. *)
Definition from_phone (method : string) : Request :=
  mkRequest method "/" ∅ ∅ ∅ (Some "phone") "10.0.0.9:4000" "inventory.local" false [] (Value JNull) None None None.

Lemma admin_area_is_hidden_witness :
  let ask p := (Router (by_calls idle) [] wired (at_path p) (from_phone "GET") login_server).1 in
  ask "/api/admin/users" = ask "/api/admin/nowhere" /\ rp_Status (ask "/api/admin/users") = 404 /\
  rp_Status (Router (by_calls idle) [] wired (at_path "/api/admin/users") (as_ada "GET" JNull) login_server).1 = 200.
Proof.
  intros ask. split_and!; [|vm_compute; reflexivity ..]. unfold ask.
  destruct (admin_area_is_hidden (by_calls idle) [] wired (at_path "/api/admin/users") (from_phone "GET") login_server
    (mkSession 10 SessionDevice (Some "Phone") None 0 hour) (mkUser "ada" sample_hash "Ada" true 0) 19 ∅
    (mkRoute (Some "GET") "/api/admin/users" admin_gate (Some ListUsersHandler))) as [_ E]; [reflexivity | vm_compute; reflexivity | reflexivity | vm_compute; reflexivity | reflexivity | reflexivity |].
  apply E. right. exists 41%nat, {["*" := "api/admin/nowhere"]}. eexists. split_and!; [vm_compute; reflexivity | reflexivity | reflexivity |]. intros _. reflexivity.
Defined.
