(* ===== verification/TreeSpec.v ===== *)
(** * The trees as relations, and what deleting and moving do to them

    [up nodes k x] is the node [k] parent links above [x].  The recursive queries
    of tree.go and locations.go are stated against it: the walk to the root, the
    walk down a subtree, and what the cascade on parent_id removes.  The bounded
    walks agree with the unbounded relations on trees at most [maxTreeDepth] levels
    deep, and the last theorem shows what happens past that bound. *)

From S2P Require Import Prelude Gamification Expiry Db Outcomes Sample Tree Progress ShelfLife Containers Batches Ledger StockSteps Stocktake Jobs Consumption Locations Products EditSteps Household.

#[local] Open Scope string_scope.
#[local] Open Scope list_scope.
#[local] Open Scope Z_scope.

(** ** Parent links *)

Definition parent_of (nodes : gmap uuid Node) (x : uuid) : option uuid := nodes !! x ≫= n_parent.

Fixpoint up (nodes : gmap uuid Node) (k : nat) (x : uuid) : option uuid :=
  match k with
  | O => Some x
  | S k' => parent_of nodes x ≫= up nodes k'
  end.

(** No node is above itself. *)
Definition acyclic (nodes : gmap uuid Node) : Prop := forall x k, up nodes (S k) x ≠ Some x.

(** No node has [maxTreeDepth] levels above it. *)
Definition shallow (nodes : gmap uuid Node) : Prop := forall x, up nodes maxTreeDepth x = None.

Section up.
Context (nodes : gmap uuid Node).

Lemma up_add i j x : up nodes (i + j) x = up nodes i x ≫= up nodes j.
Proof.
  revert x. induction i as [|i IH]; intros x; [done|]. cbn. destruct (parent_of nodes x) as [p|]; [apply IH | done].
Qed.

Lemma up_end k x : up nodes (S k) x = up nodes k x ≫= parent_of nodes.
Proof.
  rewrite <- Nat.add_1_r, up_add. destruct (up nodes k x); [|done]. cbn. by destruct (parent_of nodes _).
Qed.

Lemma up_le_None i j x : (i <= j)%nat -> up nodes i x = None -> up nodes j x = None.
Proof. intros Hij Hi. replace j with (i + (j - i))%nat by lia. by rewrite up_add, Hi. Qed.

(** Every node left by a link exists. *)
Lemma up_exists k x y : up nodes (S k) x = Some y -> is_Some (nodes !! x).
Proof. cbn. unfold parent_of. destruct (nodes !! x); [by eexists | done]. Qed.

Lemma elem_of_ancestors f x y :
  y ∈ ancestors f nodes x <-> exists k, (k < f)%nat /\ up nodes k x = Some y /\ is_Some (nodes !! y).
Proof.
  revert x. induction f as [|f IH]; intros x; cbn [ancestors].
  { rewrite elem_of_nil. split; [done | intros (k & ? & _); lia]. }
  destruct (nodes !! x) as [n|] eqn:Hn.
  - rewrite elem_of_cons. split.
    + intros [->|H]; [exists 0%nat; split; [lia|]; split; [done | by eexists]|].
      destruct (n_parent n) as [p|] eqn:Hp; [|by apply elem_of_nil in H].
      apply IH in H as (k & Hk & Hu & Hy). exists (S k). split; [lia|]. cbn. unfold parent_of. rewrite Hn. cbn. by rewrite Hp.
    + intros ([|k] & Hk & Hu & Hy); [left; cbn in Hu; congruence|]. right. cbn in Hu. unfold parent_of in Hu.
      rewrite Hn in Hu. cbn in Hu. destruct (n_parent n) as [p|]; [|done]. apply IH. exists k. split; [lia | done].
  - rewrite elem_of_nil. split; [done|]. intros ([|k] & _ & Hu & Hy).
    + injection Hu as <-. rewrite Hn in Hy. by destruct Hy.
    + apply up_exists in Hu as [? Hx]. congruence.
Qed.

Lemma elem_of_children x y : x ∈ children nodes y <-> parent_of nodes x = Some y.
Proof.
  unfold children, parent_of. rewrite list_elem_of_fmap. split.
  - intros ([i n] & -> & H). apply elem_of_map_to_list, map_lookup_filter_Some in H as [H E]. cbn in *. by rewrite H.
  - intros H. destruct (nodes !! x) as [n|] eqn:Hn; [|done]. exists (x, n). split; [done|].
    apply elem_of_map_to_list, map_lookup_filter_Some. done.
Qed.

Lemma elem_of_levels f l x :
  x ∈ levels f nodes l <-> exists k y, (k < f)%nat /\ y ∈ l /\ up nodes k x = Some y.
Proof.
  revert l. induction f as [|f IH]; intros l; cbn [levels].
  { rewrite elem_of_nil. split; [done | intros (k & y & ? & _); lia]. }
  rewrite elem_of_app, IH. split.
  - intros [H|(k & z & Hk & Hz & Hu)]; [exists 0%nat, x; split; [lia | done]|].
    apply list_elem_of_bind in Hz as (y & Hz & Hy). exists (S k), y. split; [lia|]. split; [done|].
    rewrite up_end, Hu. by apply elem_of_children.
  - intros ([|k] & y & Hk & Hy & Hu); [left; cbn in Hu; congruence|]. right. rewrite up_end in Hu.
    destruct (up nodes k x) as [z|] eqn:Hz; [|done]. exists k, z. split; [lia|]. split; [|done].
    apply list_elem_of_bind. exists y. split; [by apply elem_of_children | done].
Qed.

Lemma elem_of_subtree root x :
  x ∈ subtree nodes root <-> is_Some (nodes !! root) /\ exists k, (k < maxTreeDepth)%nat /\ up nodes k x = Some root.
Proof.
  unfold subtree. destruct (nodes !! root) as [n|].
  - rewrite elem_of_levels. setoid_rewrite list_elem_of_singleton. split; [|naive_solver].
    intros (k & y & Hk & -> & Hu). split; [by eexists | eauto].
  - rewrite elem_of_nil. split; [done | by intros [[? ?] _]].
Qed.

(** A shortest path to a node visits no node twice, so it is no longer than the
    table. *)
Lemma up_shortest k x y :
  up nodes k x = Some y -> is_Some (nodes !! y) -> exists k', (k' < size nodes)%nat /\ up nodes k' x = Some y.
Proof.
  revert x y. induction (lt_wf k) as [k _ IH]. intros x y Hu Hy.
  destruct (decide (k < size nodes)%nat) as [|Hbig]; [eauto|].
  (* the nodes on the path *)
  pose (path := map (fun i => default x (up nodes i x)) (seq 0 (S k))).
  assert (Hin : forall z, z ∈ path -> z ∈ dom nodes).
  { intros z Hz. apply list_elem_of_fmap in Hz as (i & -> & Hi). apply elem_of_seq in Hi. apply elem_of_dom.
    destruct (decide (i = k)) as [->|Hik]; [by rewrite Hu|].
    replace k with (i + S (k - i - 1))%nat in Hu by lia. rewrite up_add in Hu.
    destruct (up nodes i x) as [z|]; [|done]. cbn. by eapply up_exists. }
  destruct (decide (NoDup path)) as [Hnd|Hd].
  { exfalso. assert (L : (length path <= size (dom nodes))%nat).
    { rewrite <- (size_list_to_set (C := gset uuid) path Hnd). apply subseteq_size. intros z Hz.
      apply elem_of_list_to_set in Hz. by apply Hin. }
    rewrite size_dom in L. unfold path in L. rewrite length_map, length_seq in L. lia. }
  (* two equal nodes: cut the loop out *)
  assert (Hdup : exists i j, (i < j)%nat /\ (j <= k)%nat /\ up nodes i x = up nodes j x).
  { apply not_NoDup_lookup in Hd as (i & j & z & Hij & Hi & Hj).
    assert (U : forall m, path !! m = Some z -> (m <= k)%nat /\ up nodes m x = Some z).
    { intros m H. unfold path in H. rewrite list_lookup_fmap in H. apply fmap_Some in H as (m' & Hm & ->).
      apply lookup_seq in Hm as [-> Hm]. split; [lia|]. cbn.
      destruct (up nodes m x) eqn:E; [done|]. apply (up_le_None m k) in E; [congruence | lia]. }
    destruct (U i Hi) as [Hik Ei]. destruct (U j Hj) as [Hjk Ej].
    exists i, j. split; [done|]. split; [done | congruence]. }
  destruct Hdup as (i & j & Hij & Hjk & E).
  apply (IH (i + (k - j))%nat ltac:(lia) x y); [|done].
  rewrite up_add, E. rewrite <- up_add. by replace (j + (k - j))%nat with k by lia.
Qed.

(** What the cascade on parent_id removes, at any depth. *)
Lemma elem_of_below root x :
  x ∈ below nodes root <-> is_Some (nodes !! root) /\ exists k, up nodes k x = Some root.
Proof.
  unfold below. rewrite elem_of_dom. unfold is_Some at 1. setoid_rewrite map_lookup_filter_Some.
  setoid_rewrite elem_of_ancestors. cbn. split.
  - intros (n & Hn & k & _ & Hu & Hr). split; [done | eauto].
  - intros [Hr (k & Hu)]. destruct (up_shortest k x root Hu Hr) as (k' & Hk' & Hu').
    assert (Hx : is_Some (nodes !! x)).
    { destruct k'; [cbn in Hu'; congruence | by eapply up_exists]. }
    destruct Hx as [n Hn]. exists n. split; [done|]. exists k'. split; [lia | done].
Qed.

Lemma shallow_up k x y : shallow nodes -> up nodes k x = Some y -> (k < maxTreeDepth)%nat.
Proof.
  intros Hs Hu. destruct (decide (k < maxTreeDepth)%nat); [done|]. exfalso.
  assert (up nodes k x = None) by (apply (up_le_None maxTreeDepth); [lia | apply Hs]). congruence.
Qed.

(** On a shallow tree the bounded walk down finds what the cascade removes. *)
Lemma subtree_below root : shallow nodes -> list_to_set (subtree nodes root) = below nodes root.
Proof.
  intros Hs. apply set_eq. intros x. rewrite elem_of_list_to_set, elem_of_subtree, elem_of_below.
  split; [naive_solver|]. intros [Hr (k & Hu)]. split; [done|]. exists k. split; [by eapply shallow_up | done].
Qed.

Lemma shallow_acyclic : shallow nodes -> acyclic nodes.
Proof.
  intros Hs x k Hu.
  assert (L : forall n, up nodes (n * S k) x = Some x).
  { induction n as [|n IH]; [done|]. change (S n * S k)%nat with (S k + n * S k)%nat. by rewrite up_add, Hu. }
  pose proof (shallow_up (maxTreeDepth * S k) x x Hs (L maxTreeDepth)). lia.
Qed.
End up.

(** ** Re-parenting *)

(** The tree with one node hung under another parent. *)
Definition reparented (st id : uuid) (parent : option uuid) (nodes : gmap uuid Node) : gmap uuid Node :=
  <[id := mkNode st parent]> nodes.

Section reparent.
Context (nodes : gmap uuid Node) (st id : uuid) (parent : option uuid).
Abbreviation nodes' := (reparented st id parent nodes).

Lemma parent_of_ne x : x ≠ id -> parent_of nodes' x = parent_of nodes x.
Proof. intros Hx. unfold parent_of, reparented. by rewrite lookup_insert_ne. Qed.

Lemma parent_of_moved : parent_of nodes' id = parent.
Proof. unfold parent_of, reparented. by rewrite lookup_insert_eq. Qed.

(** Until it meets the moved node, a walk is the walk there was. *)
Lemma up_before n x :
  up nodes' n x = up nodes n x \/ exists j, (j < n)%nat /\ up nodes j x = Some id /\ up nodes' j x = Some id.
Proof.
  induction n as [|n [IH|(j & Hj & E & E')]]; [by left | | right; exists j; split; [lia | done]].
  rewrite !up_end, IH. destruct (up nodes n x) as [z|] eqn:Hz; [|by left]. cbn.
  destruct (decide (z = id)) as [->|Hne]; [|left; by apply parent_of_ne].
  right. exists n. split; [lia | by rewrite Hz, IH].
Qed.

Lemma reparent_acyclic :
  acyclic nodes -> (forall p k, parent = Some p -> up nodes k p ≠ Some id) -> acyclic nodes'.
Proof.
  intros Ha Hp.
  assert (Hid : forall k, up nodes' (S k) id ≠ Some id).
  { intros k Hu. cbn in Hu. rewrite parent_of_moved in Hu. apply bind_Some in Hu as (p & Ep & Hu). revert Hu.
    destruct (up_before k p) as [->|(j & _ & E & _)]; [by apply Hp | by apply Hp in E]. }
  intros x k Hx. destruct (up_before (S k) x) as [E|(j & _ & _ & E)]; [rewrite E in Hx; by apply Ha in Hx|].
  apply (Hid k). transitivity (up nodes' j x ≫= up nodes' (S k)); [by rewrite E|].
  rewrite <- up_add, Nat.add_comm, up_add, Hx. exact E.
Qed.
End reparent.

Lemma requireSameStorage_run table st id w :
  in_storage (tree_nodes table (wdb w)) st id = true -> requireSameStorage table st id w = (Ok tt, w).
Proof. intros H. unfold requireSameStorage. rewrite (bind_step _ get_db w (wdb w) w) by reflexivity. by rewrite H. Qed.

Lemma requireSameStorage_abort table st id w :
  in_storage (tree_nodes table (wdb w)) st id = false -> requireSameStorage table st id w = (Fail ErrNotFound, w).
Proof. intros H. unfold requireSameStorage. rewrite (bind_step _ get_db w (wdb w) w) by reflexivity. by rewrite H. Qed.

(** Asking whether a move is allowed is asking whether the walk up from the new
    parent meets the node. *)
Lemma resolveParent_run table st id p w :
  in_storage (tree_nodes table (wdb w)) st p = true ->
  resolveParent table st (Some id) (Some p) w =
    require (negb (bool_decide (id ∈ ancestors maxTreeDepth (tree_nodes table (wdb w)) p))) ErrConflict w.
Proof.
  intros Hp. unfold resolveParent. rewrite (bind_step _ _ _ _ _ (requireSameStorage_run table st p w Hp)).
  unfold wouldCycle. destruct (Z.eqb_spec id p) as [->|Hne]; [|done].
  rewrite bool_decide_true; [done|]. apply elem_of_ancestors. exists 0%nat. split; [unfold maxTreeDepth; lia|].
  split; [done|]. unfold in_storage in Hp. by destruct (tree_nodes table (wdb w) !! p).
Qed.

Lemma update_location_run f st id l w :
  db_locations (wdb w) !! id = Some l -> loc_StorageID l = st -> loc_ParentID (f l) ≠ Some id ->
  update_location f st id w = (Ok true, with_db (set_locations <[id := f l]> (wdb w)) w).
Proof.
  intros Hl <- Hp. unfold update_location. rewrite (bind_step _ get_db w (wdb w) w) by reflexivity.
  rewrite Hl, Z.eqb_refl. rewrite bool_decide_false by done. done.
Qed.

(** C27: Moving a location under another of the same storage, whose chain of
    ancestors fits the walk (fewer than 64 levels): when the new parent is the
    location itself or anywhere below it, the move is refused as a conflict and
    nothing changes; otherwise it succeeds, changes that row's parent and
    updated_at and nothing else, and leaves the tree free of cycles. *)
Theorem MoveLocation_spec st id p l w
    (Hid : db_locations (wdb w) !! id = Some l) (Hst : loc_StorageID l = st)
    (Hp : in_storage (tree_nodes treeLocations (wdb w)) st p = true)
    (Hac : acyclic (tree_nodes treeLocations (wdb w)))
    (Hdepth : up (tree_nodes treeLocations (wdb w)) maxTreeDepth p = None) :
  let nodes := tree_nodes treeLocations (wdb w) in
  let d' := set_locations <[id := set_loc_parent (Some p) (wnow w) l]> (wdb w) in
  ((exists k, up nodes k p = Some id) -> MoveLocation st id (Some p) w = (Fail ErrConflict, w)) /\
  (~ (exists k, up nodes k p = Some id) ->
     MoveLocation st id (Some p) w = (Ok tt, with_db d' w) /\ acyclic (tree_nodes treeLocations d')).
Proof.
  intros nodes d'.
  assert (Hn : nodes !! id = Some (location_node l)) by (unfold nodes; cbn; by rewrite lookup_fmap, Hid).
  assert (Hs : in_storage nodes st id = true) by (unfold in_storage; rewrite Hn; by apply Z.eqb_eq).
  assert (W : id ∈ ancestors maxTreeDepth nodes p <-> exists k, up nodes k p = Some id).
  { rewrite elem_of_ancestors. split; [naive_solver|]. intros (k & Hu). exists k. split; [|by eauto].
    destruct (decide (k < maxTreeDepth)%nat); [done|]. apply (up_le_None nodes _ k) in Hdepth; [congruence | lia]. }
  assert (R : MoveLocation st id (Some p) w = inTx (
    require (negb (bool_decide (id ∈ ancestors maxTreeDepth nodes p))) ErrConflict ;;
    t ← now; update_location (set_loc_parent (Some p) t) st id ;; mret tt) w).
  { unfold MoveLocation, inTx. rewrite (bind_step _ _ _ _ _ (requireSameStorage_run treeLocations st id w Hs)).
    unfold mbind at 1, tx_bind at 1. rewrite (resolveParent_run treeLocations st id p w Hp). done. }
  rewrite R. clear R. split.
  - intros Hb. apply W in Hb. rewrite bool_decide_true by done. unfold inTx. cbn. by destruct w.
  - intros Hb. rewrite bool_decide_false by tauto. split.
    + apply inTx_step. rewrite (bind_step _ _ _ _ _ (eq_refl : require true ErrConflict w = (Ok tt, w))).
      rewrite (bind_step _ _ _ _ _ (eq_refl : now w = (Ok (wnow w), w))).
      erewrite bind_step; [reflexivity|]. apply update_location_run; [done | done |].
      cbn. intros [= ->]. apply Hb. by exists 0%nat.
    + assert (E : tree_nodes treeLocations d' = reparented st id (Some p) nodes).
      { unfold d', reparented, nodes. cbn. rewrite fmap_insert. by rewrite <- Hst. }
      rewrite E. apply reparent_acyclic; [done|]. intros p' k [= <-] Hu. apply Hb. by exists k.
Qed.

(** Shallowness, decided row by row. *)
Definition shallowb (nodes : gmap uuid Node) : bool :=
  forallb (fun kv : uuid * Node => bool_decide (up nodes maxTreeDepth kv.1 = None)) (map_to_list nodes).

Lemma shallowb_ok nodes : shallowb nodes = true -> shallow nodes.
Proof.
  unfold shallowb. intros H x. destruct (nodes !! x) as [n|] eqn:Hn.
  - rewrite forallb_forall in H. specialize (H (x, n)). cbv beta in H. apply bool_decide_eq_true in H; [exact H|].
    apply list_elem_of_In. by apply elem_of_map_to_list.
  - apply (up_le_None nodes 1); [unfold maxTreeDepth; lia|]. cbn. unfold parent_of. by rewrite Hn.
Qed.

Lemma MoveLocation_spec_witness :
  MoveLocation 1 21 (Some 22) sample_world = (Fail ErrConflict, sample_world) /\
  acyclic (tree_nodes treeLocations (set_locations <[22 := set_loc_parent (Some 20) second (shelf "Rack" (Some 21))]> sample_db)).
Proof.
  assert (Sh : shallow (tree_nodes treeLocations (wdb sample_world))) by (apply shallowb_ok; vm_compute; reflexivity).
  pose proof (shallow_acyclic _ Sh) as Ac.
  assert (N : ~ exists k, up (tree_nodes treeLocations (wdb sample_world)) k 20 = Some 22).
  { intros ([|k] & Hk); [discriminate Hk|]. vm_compute in Hk. discriminate Hk. }
  split.
  - apply (MoveLocation_spec 1 21 22 (shelf "Cellar" None) sample_world eq_refl eq_refl eq_refl Ac eq_refl).
    exists 1%nat. reflexivity.
  - apply (MoveLocation_spec 1 22 20 (shelf "Rack" (Some 21)) sample_world eq_refl eq_refl eq_refl Ac eq_refl). exact N.
Defined.

(** ** Deleting *)

Lemma held_at_positive d (ids : gset uuid) :
  held_at d ids ≠ 0 -> exists i b, db_batches d !! i = Some b /\ b_LocationID b ∈ ids.
Proof.
  unfold held_at. intros H.
  destruct (map_choose (base.filter (fun kv : uuid * Batch => b_LocationID kv.2 ∈ ids) (db_batches d))) as (i & b & Hb).
  { intros E. rewrite E, map_size_empty in H. by apply H. }
  apply map_lookup_filter_Some in Hb as [Hb Hin]. eauto.
Qed.

(** C26: DeleteLocation answers not-found for a location the storage does not have,
    and a conflict while the subtree its walk finds holds a batch; an error of any
    kind changes nothing. When it succeeds, no batch was stored at the location or
    anywhere below it, at any depth; every location below is gone and every other
    is as it was; no batch changed; and one tombstone per location of the walk was
    appended, which on a tree of at most 64 levels is exactly the locations that
    went. *)
Theorem DeleteLocation_spec st id w :
  let nodes := tree_nodes treeLocations (wdb w) in
  match DeleteLocation st id w with
  | (Fail e, w') =>
    wdb w' = wdb w /\
    (in_storage nodes st id = false -> e = ErrNotFound) /\
    (in_storage nodes st id = true ->
       (exists i b, db_batches (wdb w) !! i = Some b /\ b_LocationID b ∈ subtree nodes id) -> e = ErrConflict)
  | (Ok _, w') =>
    in_storage nodes st id = true /\
    (forall i b, db_batches (wdb w) !! i = Some b -> b_LocationID b ∉ below nodes id) /\
    db_batches (wdb w') = db_batches (wdb w) /\
    (forall l, db_locations (wdb w') !! l = if decide (l ∈ below nodes id) then None else db_locations (wdb w) !! l) /\
    (exists ts, db_tombstones (wdb w') = db_tombstones (wdb w) ++ ts /\ map ts_EntityID ts = subtree nodes id /\
       Forall (fun t => ts_StorageID t = st /\ ts_EntityType t = TombstoneLocation /\ ts_DeletedAt t = wnow w) ts) /\
    (shallow nodes -> list_to_set (subtree nodes id) = below nodes id)
  end.
Proof.
  intros nodes. destruct (DeleteLocation st id w) as [[u|e] w'] eqn:H.
  - apply DeleteLocation_ok in H as ((n & Hn & Hs) & _ & w1 & H1 & H2).
    apply delete_location_ok in H1 as (Hb & ->). apply recordTombstones_frame in H2 as (ts & -> & Ei & Hf & _).
    split; [unfold in_storage, nodes; rewrite Hn; by apply Z.eqb_eq|]. split; [exact Hb|]. split; [done|]. split.
    + intros l. cbn [wdb with_db set_tombstones set_locations db_locations].
      change (db_locations (set_jobs ?f (wdb w))) with (db_locations (wdb w)). fold nodes.
      generalize (below nodes id) as gone. intros gone. rewrite map_lookup_filter.
      destruct (db_locations (wdb w) !! l) as [loc|]; cbn; [|by destruct (decide (l ∈ gone))].
      destruct (decide (l ∈ gone)) as [Hin|Hout]; [rewrite option_guard_False | rewrite option_guard_True]; tauto || done.
    + split; [|apply subtree_below]. exists ts. split; [done|]. split; [exact Ei | exact Hf].
  - split; [by eapply clean_inTx|]. unfold DeleteLocation in H. split.
    + intros Hs. unfold inTx in H.
      rewrite (bind_abort _ _ _ _ _ (requireSameStorage_abort treeLocations st id w Hs)) in H. congruence.
    + intros Hs (i & b & Hb & Hin). unfold inTx in H.
      rewrite (bind_step _ _ _ _ _ (requireSameStorage_run treeLocations st id w Hs)) in H.
      rewrite (bind_step _ get_db w (wdb w) w) in H by reflexivity. fold nodes in H.
      destruct (Z.eqb_spec (held_at (wdb w) (list_to_set (subtree nodes id))) 0) as [E|E].
      * exfalso. apply (proj1 (held_at_zero _ _) E i b Hb). by apply elem_of_list_to_set.
      * erewrite bind_abort in H; [|reflexivity]. congruence.
Qed.

(** ** Past the bound *)

(** A database with one storage, and a rack of locations, each under the last. *)
Definition rack_world (n : nat) : World :=
  mkWorld (set_storage_rows (fun _ => {[1 := mkStorage "Home" 0]}) empty_db) (map Z.of_nat (seq 1 (2 * n))) 0 0.

Definition rack_ops (n : nat) : list Op :=
  OpCreateLocation 1 (mkNewLocation None "0" None) ::
  map (fun i => OpCreateLocation 1 (mkNewLocation (Some (Z.of_nat i)) "" None)) (seq 1 (n - 1)).

Definition after_rack (n : nat) (o : Op) : World := run (rack_ops n ++ [o]) (rack_world n).

Lemma no_roots (nodes : gmap uuid Node) :
  forallb (fun kv : uuid * Node => bool_decide (is_Some (n_parent kv.2))) (map_to_list nodes) = true ->
  forall x n, nodes !! x = Some n -> is_Some (n_parent n).
Proof.
  intros F x n Hx. rewrite forallb_forall in F. specialize (F (x, n)). cbv beta in F.
  apply bool_decide_eq_true in F; [exact F|]. apply list_elem_of_In. by apply elem_of_map_to_list.
Qed.

(** The cycle check walks 64 levels and no operation bounds a tree's depth: in
    a storage where 66 locations were created each under the last, hanging the
    first one under the sixty-fourth is refused, but hanging it under the
    sixty-sixth succeeds, and then the first location is its own ancestor, with no
    root left in the storage. *)
Theorem deep_move_makes_a_ring :
  (exec (OpMoveLocation 1 1 (Some 64)) (run (rack_ops 66) (rack_world 66))).1 = Fail ErrConflict /\
  let w' := after_rack 66 (OpMoveLocation 1 1 (Some 66)) in
  let nodes := tree_nodes treeLocations (wdb w') in
  up nodes 66 1 = Some 1 /\ ~ acyclic nodes /\ size nodes = 66%nat /\
  forall x n, nodes !! x = Some n -> is_Some (n_parent n).
Proof.
  split; [vm_compute; reflexivity|]. intros w' nodes.
  assert (U : up nodes 66 1 = Some 1) by (vm_compute; reflexivity).
  split; [exact U|]. split; [intros Ha; exact (Ha 1 65%nat U)|]. split; [vm_compute; reflexivity|].
  apply no_roots. vm_compute. reflexivity.
Qed.
