(* ===== verification/DeltaSpec.v ===== *)
(** * What a delta client ends up with

    Every transaction stamps the rows it adds or changes with the time it began,
    and leaves a tombstone of that time for each row it removes ([tracked]); so a
    client that keeps the watermark as its cursor misses nothing. *)

From S2P Require Import Prelude Gamification Text Db Outcomes Sample Expiry Matching Tree TreeSpec Progress ShelfLife Containers Batches Ledger StockSteps BatchSpec Stocktake Jobs Consumption Locations Products Ingestion Shopping EditSteps IngestionSpec ShoppingSpec ExpirySpec MergeSpec Household Delta.

#[local] Open Scope string_scope.
#[local] Open Scope list_scope.
#[local] Open Scope Z_scope.

(** ** Edits: rows added and changed, none removed *)

(** From [d] to [d'] every row is kept, unchanged or changed and stamped [s]; a new
    row is stamped [s] and has one of the identifiers [ids]; no tombstone moves, and
    the trees stay within their storages. *)
Definition edited (s : Z) (ids : list uuid) (d d' : DB) : Prop :=
  db_tombstones d' = db_tombstones d /\ (rooted d -> rooted d') /\ forall k,
  (forall id e, rows k d !! id = Some e ->
     exists e', rows k d' !! id = Some e' /\ ent_StorageID e' = ent_StorageID e /\ (e' = e \/ ent_UpdatedAt e' = s)) /\
  (forall id e', rows k d !! id = None -> rows k d' !! id = Some e' -> id ∈ ids /\ ent_UpdatedAt e' = s).

Lemma edited_mono s l l' d d' : (forall id, id ∈ l -> id ∈ l') -> edited s l d d' -> edited s l' d d'.
Proof.
  intros Hl (Et & Hr & H). split; [exact Et|]. split; [exact Hr|]. intros k. destruct (H k) as [Hk Hn]. split; [exact Hk|].
  intros id e' H0 H1. destruct (Hn id e' H0 H1). auto.
Qed.

(** The parts of the database the deltas read. *)
Definition synced (d : DB) := (rows EntityProduct d, rows EntityCategory d, rows EntityLocation d, db_tombstones d).

Lemma synced_rows d d' : synced d' = synced d -> db_tombstones d' = db_tombstones d /\ forall k, rows k d' = rows k d.
Proof. unfold synced. intros E. injection E as E1 E2 E3 E4. split; [exact E4 | by intros []]. Qed.

Lemma edited_synced s l d d' : synced d' = synced d -> edited s l d d'.
Proof.
  intros E. apply synced_rows in E as [Et E]. split; [exact Et|]. split.
  - intros R k id e p. unfold parent_row. rewrite E. apply R.
  - intros k. rewrite E. split; [eauto 6 | congruence].
Qed.

Lemma edited_refl s l d : edited s l d d.
Proof. by apply edited_synced. Qed.

Lemma edited_trans s l d1 d2 d3 : edited s l d1 d2 -> edited s l d2 d3 -> edited s l d1 d3.
Proof.
  intros (E1 & R1 & H1) (E2 & R2 & H2). split; [congruence|]. split; [auto|].
  intros k. destruct (H1 k) as [K1 N1], (H2 k) as [K2 N2]. split.
  - intros id e He. destruct (K1 id e He) as (e2 & He2 & S2 & C2). destruct (K2 id e2 He2) as (e3 & He3 & S3 & C3).
    exists e3. split; [done|]. split; [congruence|]. destruct C3 as [->|]; auto.
  - intros id e3 H0 He3. destruct (rows k d2 !! id) as [e2|] eqn:He2; [|eauto].
    destruct (N1 id e2 H0 He2) as [Hin Hs]. split; [done|].
    destruct (K2 id e2 He2) as (e3' & He3' & _ & C). destruct C as [->|]; congruence.
Qed.

(** One row put in its table. *)
Lemma edited_insert s l k id e d d' :
  db_tombstones d' = db_tombstones d -> (forall k', k' ≠ k -> rows k' d' = rows k' d) ->
  rows k d' = <[id := e]> (rows k d) ->
  match rows k d !! id with
  | Some e0 => ent_StorageID e = ent_StorageID e0 /\ (e = e0 \/ ent_UpdatedAt e = s)
  | None => id ∈ l /\ ent_UpdatedAt e = s
  end ->
  (rooted d -> forall p, ent_ParentID e = Some p -> parent_row k d e p) -> edited s l d d'.
Proof.
  intros Et Ho Ei H Hp. split; [exact Et|]. split.
  - intros R k' i e1 p He1 Hpar. destruct (decide (k' = k)) as [->|Hne].
    2: { unfold parent_row. rewrite Ho in He1 |- * by done. by eapply R. }
    assert (Hin : parent_row k d e1 p).
    { rewrite Ei in He1. destruct (decide (i = id)) as [->|Hi].
      - rewrite lookup_insert_eq in He1. injection He1 as <-. by apply Hp.
      - rewrite lookup_insert_ne in He1 by done. by eapply R. }
    destruct Hin as (ep & Hep & Es). unfold parent_row. rewrite Ei. destruct (decide (p = id)) as [->|Hi].
    + rewrite Hep in H. exists e. rewrite lookup_insert_eq. split; [done|]. destruct H. congruence.
    + exists ep. by rewrite lookup_insert_ne.
  - intros k'. destruct (decide (k' = k)) as [->|Hne].
    2: { rewrite Ho by done. split; [eauto 6 | congruence]. }
    rewrite Ei. split.
    + intros i e0 He0. destruct (decide (i = id)) as [->|Hi].
      * rewrite He0 in H. exists e. rewrite lookup_insert_eq. tauto.
      * exists e0. rewrite lookup_insert_ne by done. auto.
    + intros i e' H0 He'. destruct (decide (i = id)) as [->|Hi].
      * rewrite lookup_insert_eq in He'. injection He' as <-. by rewrite H0 in H.
      * rewrite lookup_insert_ne in He' by done. congruence.
Qed.

(** ** Transactions that edit *)

(** A run of [m] begun at [s] edits, with identifiers of [l] or of the supply. *)
Definition edits_at {A} (s : Z) (l : list uuid) (m : Tx A) (w : World) : Prop :=
  forall r w', wnow w = s -> m w = (r, w') ->
    wnow w' = s /\ exists used, wids w = used ++ wids w' /\ edited s (l ++ used) (wdb w) (wdb w').

Definition edits {A} (s : Z) (l : list uuid) (m : Tx A) : Prop := forall w, edits_at s l m w.

(** A computation that changes nothing at all. *)
Definition still {A} (m : Tx A) : Prop := forall w r w', m w = (r, w') -> w' = w.

Section edits.
Context {A B : Type} (s : Z) (l : list uuid).

Lemma edits_still (m : Tx A) : still m -> edits s l m.
Proof. intros Hm w r w' Hs H. apply Hm in H as ->. split; [done|]. exists []. split; [done | apply edited_refl]. Qed.

Lemma edits_at_bind (m : Tx A) (f : A -> Tx B) w :
  edits_at s l m w -> (forall a, edits s l (f a)) -> edits_at s l (m ≫= f) w.
Proof.
  intros Hm Hf r w' Hs H. unfold mbind, tx_bind in H. destruct (m w) as [[a|e] w1] eqn:E.
  - destruct (Hm _ _ Hs E) as (Hs1 & u1 & E1 & D1). destruct (Hf a _ _ _ Hs1 H) as (Hs2 & u2 & E2 & D2).
    split; [done|]. exists (u1 ++ u2). split; [by rewrite E1, E2, app_assoc|].
    eapply edited_trans; (eapply edited_mono; [|eassumption]); intros i; rewrite !elem_of_app; tauto.
  - injection H as _ <-. by eapply Hm.
Qed.

Lemma edits_bind (m : Tx A) (f : A -> Tx B) : edits s l m -> (forall a, edits s l (f a)) -> edits s l (m ≫= f).
Proof. intros Hm Hf w. by apply edits_at_bind. Qed.

Lemma edits_at_now (f : Z -> Tx B) w : (wnow w = s -> edits_at s l (f s) w) -> edits_at s l (now ≫= f) w.
Proof. intros Hf r w' Hs H. apply (Hf Hs r w' Hs). rewrite <- H. by rewrite <- Hs. Qed.

Lemma edits_now (f : Z -> Tx B) : edits s l (f s) -> edits s l (now ≫= f).
Proof. intros Hf w. apply edits_at_now. intros _. apply Hf. Qed.

Lemma edits_newID (f : uuid -> Tx B) : (forall id, edits s (id :: l) (f id)) -> edits s l (newID ≫= f).
Proof.
  intros Hf w r w' Hs H. unfold mbind, tx_bind, newID in H. destruct (wids w) as [|i ids] eqn:Ei.
  - injection H as _ <-. split; [done|]. exists []. split; [done | apply edited_refl].
  - destruct (Hf i (mkWorld (wdb w) ids (wnow w) (wclock w)) _ _ Hs H) as (Hs1 & u & E & D). split; [done|]. exists (i :: u). cbn in *. split; [by rewrite E|].
    eapply edited_mono; [|exact D]. intros j. rewrite !elem_of_app, !elem_of_cons. rewrite elem_of_app. tauto.
Qed.

Lemma edits_inTx (m : Tx A) : edits s l m -> edits s l (inTx m).
Proof.
  intros Hm w r w' Hs H. unfold inTx in H. destruct (m w) as [[a|e] w1] eqn:E;
    destruct (Hm _ _ _ Hs E) as (Hs1 & u & E1 & D); injection H as _ <-; (split; [exact Hs1|]).
  - by exists u.
  - exists u. split; [exact E1 | apply edited_refl].
Qed.

Lemma edits_modify f : (forall d, synced (f d) = synced d) -> edits s l (modify f).
Proof.
  intros Hf w r w' Hs H. injection H as _ <-. split; [exact Hs|]. exists []. split; [done|].
  apply edited_synced, Hf.
Qed.

Lemma still_ret (a : A) : still (mret a : Tx A).
Proof. intros w r w' H. by injection H as _ <-. Qed.
Lemma still_throw e : still (throw e : Tx A).
Proof. intros w r w' H. by injection H as _ <-. Qed.
Lemma still_some_or (o : option A) e : still (some_or o e).
Proof. destruct o; [apply still_ret | apply still_throw]. Qed.
End edits.

Lemma edits_for_each {A} s l (f : A -> Tx unit) xs : (forall a, edits s l (f a)) -> edits s l (for_each f xs).
Proof.
  intros Hf. induction xs as [|a xs IH]; [apply edits_still, still_ret|]. cbn [for_each].
  apply edits_bind; [done | by intros _].
Qed.

Lemma edits_traverse {A B} s l (f : A -> Tx B) xs : (forall a, edits s l (f a)) -> edits s l (traverse f xs).
Proof.
  intros Hf. induction xs as [|a xs IH]; [apply edits_still, still_ret|]. cbn [traverse].
  apply edits_bind; [done|]. intros b. apply edits_bind; [done|]. intros bs. apply edits_still, still_ret.
Qed.

Lemma still_require b e : still (require b e).
Proof. intros w r w'. apply require_run. Qed.
Lemma still_get_db : still get_db.
Proof. intros w r w' H. by injection H as _ <-. Qed.
Lemma still_now : still now.
Proof. intros w r w' H. by injection H as _ <-. Qed.
Lemma still_time_Now : still time_Now.
Proof. intros w r w' H. by injection H as _ <-. Qed.

Create HintDb edits discriminated.
#[export] Hint Resolve still_ret still_throw still_some_or still_require still_get_db still_now still_time_Now : edits.

Ltac head_of t := lazymatch t with ?f _ => head_of f | _ => t end.

(** Walk the structure of a transaction, unfolding the functions it calls and
    leaving the leaves to the hints. *)
Ltac edit_step :=
  lazymatch goal with
  | |- edits _ _ (newID ≫= _) => apply edits_newID; intros ?
  | |- edits _ _ (now ≫= _) => apply edits_now
  | |- edits _ _ (mbind (M:=Tx) _ _) => apply edits_bind; [|intros ?]
  | |- edits _ _ (for_each _ _) => apply edits_for_each; intros ?
  | |- edits _ _ (traverse _ _) => apply edits_traverse; intros ?
  | |- edits _ _ (inTx _) => apply edits_inTx
  | |- edits _ _ (modify _) => first [solve [auto with edits] | apply edits_modify; intros ?; reflexivity]
  | |- edits _ _ (match ?x with _ => _ end) => destruct x
  | |- edits _ _ ?m =>
    first [ solve [auto with edits] | apply edits_still; solve [auto with edits]
          | let h := head_of m in progress unfold h; cbv beta zeta ]
  end.
Ltac edit_walk := repeat edit_step.

Lemma edits_bumpProgress s l st u xp t : edits s l (bumpProgress st u xp t).
Proof. edit_walk. Qed.
#[export] Hint Resolve edits_bumpProgress : edits.

Lemma edits_recordContribution s l st u k r g : edits s l (recordContribution st u k r g).
Proof. edit_walk. Qed.
Lemma edits_bumpForLedgerReason s l st u r b : edits s l (bumpForLedgerReason st u r b).
Proof. edit_walk. Qed.
#[export] Hint Resolve edits_recordContribution edits_bumpForLedgerReason : edits.

(** ** The statements that write a row of the three tables *)

(** A guarded write whose effect is an edit. *)
Lemma edits_guarded {A} s l b e f (a : A) w r w' :
  wnow w = s -> (require b e ;; modify f ;; (mret a : Tx A)) w = (r, w') ->
  (b = true -> edited s l (wdb w) (f (wdb w))) ->
  wnow w' = s /\ exists used, wids w = used ++ wids w' /\ edited s (l ++ used) (wdb w) (wdb w').
Proof.
  intros Hs H Hf. destruct b; cbn in H; injection H as _ <-; (split; [exact Hs|]); exists []; (split; [done|]);
    rewrite app_nil_r; [by apply Hf | apply edited_refl].
Qed.

Ltac db_step H := rewrite (bind_step _ get_db _ _ _ eq_refl) in H; cbv beta in H.
Ltac now_step H := rewrite (bind_step _ now _ _ _ eq_refl) in H; cbv beta in H.

Lemma product_row s l id p d :
  match db_products d !! id with
  | Some p0 => prod_StorageID p = prod_StorageID p0 /\ (p = p0 \/ prod_UpdatedAt p = s)
  | None => id ∈ l /\ prod_UpdatedAt p = s
  end -> edited s l d (set_products (<[id := p]>) d).
Proof.
  intros H. apply (edited_insert s l EntityProduct id (EProduct p)); [done | by intros [] | apply fmap_insert | | done].
  cbn. rewrite lookup_fmap. destruct (db_products d !! id) as [p0|]; [|done]. cbn. destruct H as [E [->|]]; auto.
Qed.

(** The parent a row of a tree is to have: the one it has, or one that resolved. *)
Definition parent_from (table : treeTable) (d : DB) (st : uuid) (old new : option uuid) : Prop :=
  new = old \/ forall p, new = Some p -> exists n, tree_nodes table d !! p = Some n /\ n_storage n = st.

Lemma category_parent d id c0 c :
  db_categories d !! id = Some c0 -> cat_StorageID c = cat_StorageID c0 ->
  parent_from treeCategories d (cat_StorageID c) (cat_ParentID c0) (cat_ParentID c) ->
  rooted d -> forall p, cat_ParentID c = Some p -> parent_row EntityCategory d (ECategory c) p.
Proof.
  intros H0 Es [E|Hp] R p Hpar.
  - destruct (R EntityCategory id (ECategory c0) p) as (e & He & Ee); [cbn; by rewrite lookup_fmap, H0 | cbn; congruence|].
    exists e. split; [done|]. cbn in *. congruence.
  - destruct (Hp p Hpar) as (n & Hn & Hs). cbn in Hn. rewrite lookup_fmap in Hn. apply fmap_Some in Hn as (cp & Hcp & ->).
    exists (ECategory cp). cbn. rewrite lookup_fmap, Hcp. by split.
Qed.

Lemma location_parent d id l0 loc :
  db_locations d !! id = Some l0 -> loc_StorageID loc = loc_StorageID l0 ->
  parent_from treeLocations d (loc_StorageID loc) (loc_ParentID l0) (loc_ParentID loc) ->
  rooted d -> forall p, loc_ParentID loc = Some p -> parent_row EntityLocation d (ELocation (location_columns loc)) p.
Proof.
  intros H0 Es [E|Hp] R p Hpar.
  - destruct (R EntityLocation id (ELocation (location_columns l0)) p) as (e & He & Ee);
      [cbn; by rewrite lookup_fmap, H0 | cbn; congruence|].
    exists e. split; [done|]. cbn in *. congruence.
  - destruct (Hp p Hpar) as (n & Hn & Hs). cbn in Hn. rewrite lookup_fmap in Hn. apply fmap_Some in Hn as (lp & Hlp & ->).
    exists (ELocation (location_columns lp)). cbn. rewrite lookup_fmap, Hlp. by split.
Qed.

Lemma category_row s l id c c0 d :
  db_categories d !! id = Some c0 -> cat_StorageID c = cat_StorageID c0 -> cat_UpdatedAt c = s ->
  parent_from treeCategories d (cat_StorageID c) (cat_ParentID c0) (cat_ParentID c) ->
  edited s l d (set_categories (<[id := c]>) d).
Proof.
  intros H0 Es Eu Hp. apply (edited_insert s l EntityCategory id (ECategory c)); [done | by intros [] | apply fmap_insert | |].
  - cbn. rewrite lookup_fmap, H0. cbn. auto.
  - by eapply category_parent.
Qed.

Lemma new_category_row s l id c d :
  db_categories d !! id = None -> id ∈ l -> cat_UpdatedAt c = s ->
  (forall p, cat_ParentID c = Some p -> exists n, tree_nodes treeCategories d !! p = Some n /\ n_storage n = cat_StorageID c) ->
  edited s l d (set_categories (<[id := c]>) d).
Proof.
  intros H0 Hin Eu Hp. apply (edited_insert s l EntityCategory id (ECategory c)); [done | by intros [] | apply fmap_insert | |].
  - cbn. rewrite lookup_fmap, H0. done.
  - intros _ p E. destruct (Hp p E) as (n & Hn & Hs). cbn in Hn. rewrite lookup_fmap in Hn.
    apply fmap_Some in Hn as (x & Hx & ->). exists (ECategory x). cbn. rewrite lookup_fmap, Hx. by split.
Qed.

Lemma location_row s l id loc l0 d :
  db_locations d !! id = Some l0 -> loc_StorageID loc = loc_StorageID l0 -> loc_UpdatedAt loc = s ->
  parent_from treeLocations d (loc_StorageID loc) (loc_ParentID l0) (loc_ParentID loc) ->
  edited s l d (set_locations (<[id := loc]>) d).
Proof.
  intros H0 Es Eu Hp. apply (edited_insert s l EntityLocation id (ELocation (location_columns loc)));
    [done | by intros [] | cbn; by rewrite fmap_insert | |].
  - cbn. rewrite lookup_fmap, H0. cbn. auto.
  - by eapply location_parent.
Qed.

Lemma new_location_row s l id loc d :
  db_locations d !! id = None -> id ∈ l -> loc_UpdatedAt loc = s ->
  (forall p, loc_ParentID loc = Some p -> exists n, tree_nodes treeLocations d !! p = Some n /\ n_storage n = loc_StorageID loc) ->
  edited s l d (set_locations (<[id := loc]>) d).
Proof.
  intros H0 Hin Eu Hp. apply (edited_insert s l EntityLocation id (ELocation (location_columns loc)));
    [done | by intros [] | cbn; by rewrite fmap_insert | |].
  - cbn. rewrite lookup_fmap, H0. done.
  - intros _ p E. destruct (Hp p E) as (n & Hn & Hs). cbn in Hn. rewrite lookup_fmap in Hn.
    apply fmap_Some in Hn as (x & Hx & ->). exists (ELocation (location_columns x)). cbn. rewrite lookup_fmap, Hx. by split.
Qed.

Lemma edits_createProduct s l st np : edits s l (createProduct st np).
Proof.
  unfold createProduct. apply edits_newID. intros id. apply edits_bind; [edit_walk|]. intros _ w r w' Hs H.
  db_step H. now_step H. cbv zeta in H. eapply edits_guarded; [exact Hs | exact H |]. intros Hg.
  apply andb_true_iff in Hg as [Hg%bool_decide_eq_true _]. apply product_row. rewrite Hg. split; [left | exact Hs].
Qed.

Lemma edits_update_product s l f st id :
  (forall p, prod_StorageID (f p) = prod_StorageID p /\ prod_UpdatedAt (f p) = s) -> edits s l (update_product f st id).
Proof.
  intros Hf w r w' Hs H. unfold update_product in H. db_step H.
  destruct (product_in_storage (wdb w) st id) as [p|] eqn:Hp.
  - eapply edits_guarded; [exact Hs | exact H |]. intros _. apply product_row.
    apply product_in_storage_some in Hp as [-> _]. destruct (Hf p). auto.
  - by eapply edits_still; [apply still_ret | ..].
Qed.

(** An UPDATE in a world where the parent it writes is the old one or resolved. *)
Lemma update_location_edits s l f st id w :
  (forall x, loc_StorageID (f x) = loc_StorageID x /\ loc_UpdatedAt (f x) = s) ->
  (forall x, parent_from treeLocations (wdb w) st (loc_ParentID x) (loc_ParentID (f x))) ->
  edits_at s l (update_location f st id) w.
Proof.
  intros Hf Hp r w' Hs H. unfold update_location in H. db_step H.
  destruct (db_locations (wdb w) !! id) as [x|] eqn:Hx; [|by eapply edits_still; [apply still_ret | ..]].
  destruct (Z.eqb_spec (loc_StorageID x) st) as [Est|]; [|by eapply edits_still; [apply still_ret | ..]].
  eapply edits_guarded; [exact Hs | exact H |]. intros _. destruct (Hf x) as [E1 E2].
  apply (location_row s l id (f x) x); [done | done | done |]. rewrite E1, Est. apply Hp.
Qed.

Lemma update_category_edits s l f st id w :
  (forall x, cat_StorageID (f x) = cat_StorageID x /\ cat_UpdatedAt (f x) = s) ->
  (forall x, parent_from treeCategories (wdb w) st (cat_ParentID x) (cat_ParentID (f x))) ->
  edits_at s l (update_category f st id) w.
Proof.
  intros Hf Hp r w' Hs H. unfold update_category in H. db_step H.
  destruct (db_categories (wdb w) !! id) as [x|] eqn:Hx; [|by eapply edits_still; [apply still_ret | ..]].
  destruct (Z.eqb_spec (cat_StorageID x) st) as [Est|]; [|by eapply edits_still; [apply still_ret | ..]].
  eapply edits_guarded; [exact Hs | exact H |]. intros _. destruct (Hf x) as [E1 E2].
  apply (category_row s l id (f x) x); [done | done | done |]. rewrite E1, Est. apply Hp.
Qed.

Lemma still_resolveParent table st self p : still (resolveParent table st self p).
Proof.
  intros w r w' H. unfold resolveParent in H. destruct p as [p|]; [|by injection H as _ <-].
  assert (Q : still (requireSameStorage table st p)).
  { intros v q v' Hq. unfold requireSameStorage in Hq. db_step Hq. by apply require_run in Hq. }
  destruct (requireSameStorage table st p w) as [[u|e] w1] eqn:E; apply Q in E as E'; subst w1.
  2: { rewrite (bind_abort _ _ _ _ _ E) in H. by injection H as _ <-. }
  rewrite (bind_step _ _ _ _ _ E) in H. destruct self as [n|]; [|by injection H as _ <-].
  unfold wouldCycle in H. destruct (n =? p).
  - rewrite (bind_step _ _ w true w) in H by reflexivity. by apply require_run in H.
  - rewrite (bind_step _ _ w (bool_decide (n ∈ ancestors maxTreeDepth (tree_nodes table (wdb w)) p)) w) in H by reflexivity.
    by apply require_run in H.
Qed.
#[export] Hint Resolve still_resolveParent : edits.

(** What follows a parent that resolved. *)
Lemma edits_resolved {A} s l table st self p (m : Tx A) :
  (forall w, (forall q, p = Some q -> exists n, tree_nodes table (wdb w) !! q = Some n /\ n_storage n = st) -> edits_at s l m w) ->
  edits s l (resolveParent table st self p ;; m).
Proof.
  intros Hm w r w' Hs H. unfold mbind, tx_bind in H. destruct (resolveParent table st self p w) as [[u|e] w1] eqn:E.
  - pose proof (still_resolveParent _ _ _ _ _ _ _ E) as ->. apply resolveParent_ok in E as [_ Hp].
    apply (Hm w) in H; [exact H | | exact Hs]. intros q Eq. by destruct (Hp q Eq).
  - pose proof (still_resolveParent _ _ _ _ _ _ _ E) as ->. injection H as _ <-.
    split; [exact Hs|]. exists []. split; [done | apply edited_refl].
Qed.

Lemma node_row_fresh {V} (table : gmap uuid V) d st id p : node_row_ok table d st id p = true -> table !! id = None.
Proof. unfold node_row_ok. intros H. by bool_to_prop. Qed.

Lemma edits_insertLocation s l st id nl : edits s (id :: l) (insertLocation st id nl).
Proof.
  unfold insertLocation. apply edits_resolved. intros w Hp r w' Hs H. db_step H. now_step H.
  eapply edits_guarded; [exact Hs | exact H |]. intros Hg. apply node_row_fresh in Hg.
  apply new_location_row; [exact Hg | left | exact Hs | exact Hp].
Qed.

Lemma edits_insertCategory s l st id nc : edits s (id :: l) (insertCategory st id nc).
Proof.
  unfold insertCategory. apply edits_resolved. intros w Hp r w' Hs H. db_step H. now_step H.
  eapply edits_guarded; [exact Hs | exact H |]. intros Hg. apply andb_true_iff in Hg as [Hg _].
  apply node_row_fresh in Hg. apply new_category_row; [exact Hg | left | exact Hs | exact Hp].
Qed.

Lemma edits_stamp_audit s l st loc : edits s l (stamp_audit st loc).
Proof.
  intros w r w' Hs H. unfold stamp_audit in H. db_step H. now_step H.
  destruct (db_locations (wdb w) !! loc) as [x|] eqn:Hx;
    [|exact (edits_still s l (throw ErrOther : Tx Z) (still_throw _) w r w' Hs H)].
  rewrite (bind_step _ _ w x w) in H by reflexivity. eapply edits_guarded; [exact Hs | exact H |]. intros _.
  apply (location_row s l loc _ x); [done | done | exact Hs | by left].
Qed.

#[export] Hint Resolve edits_createProduct edits_insertLocation edits_insertCategory edits_stamp_audit : edits.
#[export] Hint Extern 1 (edits _ _ (update_product _ _ _)) => apply edits_update_product; intros []; split; reflexivity : edits.

Lemma edits_MoveLocation s l st id p : edits s l (MoveLocation st id p).
Proof.
  unfold MoveLocation. apply edits_inTx, edits_bind; [edit_walk|]. intros _. apply edits_resolved. intros w Hp.
  apply edits_at_now. intros Hs. apply edits_at_bind; [|intros ?; edit_walk].
  apply update_location_edits; [done|]. intros x. by right.
Qed.

Lemma edits_UpdateLocation s l st id patch : edits s l (UpdateLocation st id patch).
Proof.
  unfold UpdateLocation. apply edits_inTx, edits_bind; [edit_walk|]. intros _.
  destruct patch as [n de sd p sp]. destruct sp; cbn [lp_SetParentID lp_ParentID].
  - apply edits_resolved. intros w Hp. apply edits_at_now. intros Hs. apply edits_at_bind; [|intros ?; edit_walk].
    apply update_location_edits; [done|]. intros x. by right.
  - apply edits_bind; [edit_walk|]. intros _ w. apply edits_at_now. intros Hs. apply edits_at_bind; [|intros ?; edit_walk].
    apply update_location_edits; [done|]. intros x. by left.
Qed.

Lemma edits_RenameLocation s l st id n de : edits s l (RenameLocation st id n de).
Proof.
  unfold RenameLocation. intros w. apply edits_at_now. intros Hs. apply edits_at_bind; [|intros ?; edit_walk].
  apply update_location_edits; [done|]. intros x. by left.
Qed.

Lemma edits_SetCategoryShelfLife s l st id n : edits s l (SetCategoryShelfLife st id n).
Proof.
  unfold SetCategoryShelfLife. intros w. apply edits_at_now. intros Hs. apply edits_at_bind; [|intros ?; edit_walk].
  apply update_category_edits; [done|]. intros x. by left.
Qed.
#[export] Hint Resolve edits_MoveLocation edits_UpdateLocation edits_RenameLocation edits_SetCategoryShelfLife : edits.

(** ** Every operation but the deletions, the merge and the sweep edits *)

Lemma synced_update_container f st c d : synced (update_container f st c d) = synced d.
Proof. unfold update_container. destruct (db_containers d !! c); [|done]. by case_match. Qed.

#[export] Hint Extern 1 (edits _ _ (modify (update_container _ _ _))) =>
  apply edits_modify; intros ?; apply synced_update_container : edits.

(** The loops. *)
Lemma edits_applyDerivedExpiry s l bs r : edits s l (applyDerivedExpiry bs r).
Proof. induction bs as [|[i c] bs IH]; cbn [applyDerivedExpiry]; edit_walk. Qed.
#[export] Hint Resolve edits_applyDerivedExpiry : edits.

Lemma edits_recompute_each s l st ps : edits s l (recompute_each st ps).
Proof. induction ps as [|p ps IH]; cbn [recompute_each]; edit_walk. Qed.
#[export] Hint Resolve edits_recompute_each : edits.

Lemma edits_adjustBatch s l st b d r u : edits s l (adjustBatch st b d r u).
Proof. edit_walk. Qed.
Lemma edits_createBatch s l st nb : edits s l (createBatch st nb).
Proof. edit_walk. Qed.
#[export] Hint Resolve edits_adjustBatch edits_createBatch : edits.

Lemma edits_apply_decrements s l st p u ds : edits s l (apply_decrements st p u ds).
Proof. induction ds as [|d ds IH]; cbn [apply_decrements]; edit_walk. Qed.
Lemma edits_apply_counts s l st u cs : edits s l (apply_counts st u cs).
Proof. induction cs as [|c cs IH]; cbn [apply_counts]; edit_walk. Qed.
Lemma edits_walk_path s l st p names : edits s l (walk_path st p names).
Proof. revert l p. induction names as [|n names IH]; intros l p; cbn [walk_path]; edit_walk. Qed.
#[export] Hint Resolve edits_apply_decrements edits_apply_counts edits_walk_path : edits.
Lemma edits_apply_ingest s l st u p c ds : edits s l (apply_ingest st u p c ds).
Proof. revert l c. induction ds as [|d ds IH]; intros l c; cbn [apply_ingest]; edit_walk. Qed.
#[export] Hint Resolve edits_apply_ingest : edits.

Lemma edits_UpdateCategory s l st id patch : edits s l (UpdateCategory st id patch).
Proof.
  unfold UpdateCategory. apply edits_inTx, edits_bind; [edit_walk|]. intros _.
  destruct patch as [n p sp]. destruct sp; cbn [cpt_SetParentID cpt_ParentID negb].
  - apply edits_resolved. intros w Hp. apply edits_at_now. intros Hs. apply edits_at_bind; [|intros ?; edit_walk].
    apply update_category_edits; [done|]. intros x. by right.
  - apply edits_bind; [edit_walk|]. intros _ w. apply edits_at_now. intros Hs. apply edits_at_bind; [|intros ?; edit_walk].
    apply update_category_edits; [done|]. intros x. by left.
Qed.
#[export] Hint Resolve edits_UpdateCategory : edits.

(** The walk down a category path: each new node hangs below one that is there. *)
Definition rooted_at (table : treeTable) (st : uuid) (d : DB) (p : option uuid) : Prop :=
  forall q, p = Some q -> exists n, tree_nodes table d !! q = Some n /\ n_storage n = st.

Lemma insert_category_node_edits s l st id parent name w r w' :
  wnow w = s -> rooted_at treeCategories st (wdb w) parent -> insert_category_node st id parent name w = (r, w') ->
  wnow w' = s /\ wids w' = wids w /\ edited s (id :: l) (wdb w) (wdb w') /\
  (forall u, r = Ok u -> rooted_at treeCategories st (wdb w') (Some id)).
Proof.
  intros Hs Hp H. unfold insert_category_node in H. db_step H. now_step H.
  destruct (node_row_ok (db_categories (wdb w)) (wdb w) st id parent && _) eqn:Hg; cbn in H; injection H as <- <-.
  - apply andb_true_iff in Hg as [Hg _]. apply node_row_fresh in Hg. split; [done|]. split; [done|]. split.
    + apply new_category_row; [exact Hg | left | exact Hs | exact Hp].
    + intros _ _ q [= <-]. eexists. cbn. rewrite lookup_fmap, lookup_insert_eq. by split.
  - split; [done|]. split; [done|]. split; [apply edited_refl | done].
Qed.

Lemma ensure_nodes_edits s l st parent names w :
  rooted_at treeCategories st (wdb w) parent -> edits_at s l (ensure_nodes st parent names) w.
Proof.
  revert l parent w. induction names as [|name names IH]; intros l parent w Hp r w' Hs H.
  { by eapply edits_still; [apply still_ret | ..]. }
  cbn [ensure_nodes] in H. db_step H. destruct (named_category (wdb w) st parent name) as [e|] eqn:En.
  { eapply (IH l (Some e)); [|exact Hs|exact H]. intros q [= <-].
    apply named_category_some in En as (c & Hc & Hst & _). exists (category_node c). cbn. by rewrite lookup_fmap, Hc. }
  unfold mbind, tx_bind at 1, newID in H. destruct (wids w) as [|id ids] eqn:Ei.
  { injection H as _ <-. split; [exact Hs|]. exists []. split; [done | apply edited_refl]. }
  unfold tx_bind in H. set (w0 := mkWorld (wdb w) ids (wnow w) (wclock w)) in *.
  destruct (insert_category_node st id parent name w0) as [r1 w1] eqn:E1.
  destruct (insert_category_node_edits s l st id parent name w0 r1 w1)
    as (Hs1 & Hi1 & D1 & P1); [exact Hs | exact Hp | exact E1 |].
  change (wids w1 = ids) in Hi1. change (wdb w0) with (wdb w) in D1.
  assert (D1' : forall u, edited s ((l ++ [id]) ++ u) (wdb w) (wdb w1)).
  { intros u. eapply edited_mono; [|exact D1]. intros i. rewrite elem_of_cons, !elem_of_app, list_elem_of_singleton. tauto. }
  destruct r1 as [u|e].
  - destruct (IH (l ++ [id]) (Some id) w1 (P1 u eq_refl) r w' Hs1 H) as (Hs2 & used & E2 & D2). split; [exact Hs2|].
    exists (id :: used). rewrite <- Hi1, E2. split; [done|].
    replace (l ++ id :: used) with ((l ++ [id]) ++ used) by (by rewrite <- app_assoc).
    eapply edited_trans; [apply D1' | exact D2].
  - injection H as _ <-. split; [exact Hs1|]. exists [id]. rewrite Hi1. split; [done|].
    rewrite <- (app_nil_r (l ++ [id])). apply D1'.
Qed.

Lemma edits_ensureCategoryPath s l st path : edits s l (ensureCategoryPath st path).
Proof. intros w. by apply ensure_nodes_edits. Qed.
#[export] Hint Resolve edits_ensureCategoryPath : edits.

Definition removes (o : Op) : bool :=
  match o with
  | OpDeleteProduct _ _ | OpMergeProducts _ _ _ | OpDeleteLocation _ _ | OpDeleteCategory _ _ | OpSweepTombstones _
  | OpWait _ => true
  | _ => false
  end.

Lemma edits_exec s o : removes o = false -> edits s [] (exec o).
Proof. destruct o; intros E; try discriminate E; clear E; cbn [exec]; edit_walk. Qed.

(** ** What any operation draws from the supply *)

Definition drains {A} (m : Tx A) : Prop :=
  forall w r w', m w = (r, w') -> wnow w' = wnow w /\ exists used, wids w = used ++ wids w'.

Section drains.
Context {A B : Type}.

Lemma drains_edits (m : Tx A) : (forall s, edits s [] m) -> drains m.
Proof. intros Hm w r w' H. destruct (Hm _ _ _ _ eq_refl H) as (E & u & Eu & _). split; [exact E | by exists u]. Qed.

Lemma drains_bind (m : Tx A) (f : A -> Tx B) : drains m -> (forall a, drains (f a)) -> drains (m ≫= f).
Proof.
  intros Hm Hf w r w' H. unfold mbind, tx_bind in H. destruct (m w) as [[a|e] w1] eqn:E.
  - destruct (Hm _ _ _ E) as (S1 & u1 & E1), (Hf _ _ _ _ H) as (S2 & u2 & E2). split; [congruence|].
    exists (u1 ++ u2). by rewrite E1, E2, app_assoc.
  - injection H as _ <-. by eapply Hm.
Qed.

Lemma drains_inTx (m : Tx A) : drains m -> drains (inTx m).
Proof.
  intros Hm w r w' H. unfold inTx in H. destruct (m w) as [[a|e] w1] eqn:E; injection H as _ <-; exact (Hm _ _ _ E).
Qed.

Lemma drains_modify f : drains (modify f).
Proof. intros w r w' H. injection H as _ <-. split; [done | by exists []]. Qed.

Lemma drains_newID : drains newID.
Proof.
  intros w r w' H. unfold newID in H. destruct (wids w) as [|i ids] eqn:E; injection H as _ <-; (split; [done|]);
    [by exists [] | by exists [i]].
Qed.
End drains.

Lemma drains_for_each {A} (f : A -> Tx unit) xs : (forall a, drains (f a)) -> drains (for_each f xs).
Proof.
  intros Hf. induction xs as [|a xs IH]; [apply drains_edits; intros; apply edits_still, still_ret|].
  apply (drains_bind (f a)); [done | by intros _].
Qed.

Ltac drain_step :=
  lazymatch goal with
  | |- drains newID => apply drains_newID
  | |- drains (modify _) => apply drains_modify
  | |- drains (mbind (M:=Tx) _ _) => apply drains_bind; [|intros ?]
  | |- drains (for_each _ _) => apply drains_for_each; intros ?
  | |- drains (inTx _) => apply drains_inTx
  | |- drains (match ?x with _ => _ end) => destruct x
  | |- drains ?m =>
    first [ apply drains_edits; intros ?; first [solve [auto with edits] | apply edits_still; solve [auto with edits]]
          | let h := head_of m in progress unfold h; cbv beta zeta ]
  end.

Lemma drains_exec o : (forall d, o ≠ OpWait d) -> drains (exec o).
Proof.
  intros Hw. destruct (removes o) eqn:E; [|by apply drains_edits; intros; apply edits_exec].
  destruct o; try discriminate E; clear E; cbn [exec]; try (by destruct (Hw d)); repeat drain_step.
Qed.

(** ** What any operation leaves for the clients *)

(** From [d] to [d'], in a transaction begun at [s]: a row is kept as it is or
    stamped [s]; a new row has an identifier of [ids] and the stamp [s]; a removed
    row leaves a tombstone stamped [s]; the old tombstones stay, the new ones are of
    rows that went. *)
Definition tracked (s : Z) (ids : list uuid) (d d' : DB) : Prop :=
  (forall k id e', rows k d' !! id = Some e' ->
     (exists e, rows k d !! id = Some e /\ ent_StorageID e' = ent_StorageID e /\ (e' = e \/ ent_UpdatedAt e' = s)) \/
     (rows k d !! id = None /\ id ∈ ids /\ ent_UpdatedAt e' = s)) /\
  (forall k id e, rows k d !! id = Some e -> rows k d' !! id = None ->
     exists t, t ∈ db_tombstones d' /\ ts_StorageID t = ent_StorageID e /\ ts_EntityType t = entity_name k /\
       ts_EntityID t = id /\ ts_DeletedAt t = s) /\
  (forall t, t ∈ db_tombstones d -> t ∈ db_tombstones d') /\
  (forall t, t ∈ db_tombstones d' -> t ∈ db_tombstones d \/
     exists k, ts_EntityType t = entity_name k /\ is_Some (rows k d !! ts_EntityID t) /\ rows k d' !! ts_EntityID t = None).

Lemma edited_tracked s l d d' : edited s l d d' -> tracked s l d d'.
Proof.
  intros (Et & _ & H). split; [|split; [|split]].
  - intros k id e' He'. destruct (H k) as [Hk Hn]. destruct (rows k d !! id) as [e|] eqn:He.
    + destruct (Hk _ _ He) as (e2 & He2 & S & C). assert (e2 = e') as -> by congruence. left. eauto.
    + right. destruct (Hn _ _ He He'). auto.
  - intros k id e He He'. destruct (H k) as [Hk _]. destruct (Hk _ _ He) as (e2 & He2 & _). congruence.
  - intros t. by rewrite Et.
  - intros t. rewrite Et. auto.
Qed.

Lemma entity_name_inj k k' : entity_name k = entity_name k' -> k = k'.
Proof. by destruct k, k'. Qed.

(** A deletion: the rows [gone] of one kind leave, each with its tombstone. *)
Lemma tracked_removal s ids d d' k st (gone : gset uuid) ts :
  (forall k', k' ≠ k -> rows k' d' = rows k' d) ->
  (forall id, rows k d' !! id = if decide (id ∈ gone) then None else rows k d !! id) ->
  db_tombstones d' = db_tombstones d ++ ts ->
  (forall id, id ∈ map ts_EntityID ts <-> id ∈ gone) ->
  Forall (fun t => ts_StorageID t = st /\ ts_EntityType t = entity_name k /\ ts_DeletedAt t = s) ts ->
  (forall id, id ∈ gone -> exists e, rows k d !! id = Some e /\ ent_StorageID e = st) ->
  tracked s ids d d'.
Proof.
  intros Ho Hk Et Hts Hf Hg. rewrite Forall_forall in Hf. split; [|split; [|split]].
  - intros k' id e' He'. left. exists e'. split; [|auto]. destruct (decide (k' = k)) as [->|Hne]; [|by rewrite <- Ho].
    rewrite Hk in He'. by destruct (decide (id ∈ gone)).
  - intros k' id e He He'. destruct (decide (k' = k)) as [->|Hne]; [|rewrite Ho in He' by done; congruence].
    rewrite Hk in He'. destruct (decide (id ∈ gone)) as [Hin|]; [|congruence].
    destruct (Hg id Hin) as (e2 & He2 & S2). assert (e2 = e) as -> by congruence.
    apply Hts, list_elem_of_fmap in Hin as (t & -> & Hin). destruct (Hf t Hin) as (T1 & T2 & T3).
    exists t. rewrite Et, elem_of_app. split; [by right|]. split; [congruence|]. auto.
  - intros t Hin. rewrite Et, elem_of_app. by left.
  - intros t Hin. rewrite Et, elem_of_app in Hin. destruct Hin as [Hin|Hin]; [by left|]. right.
    destruct (Hf t Hin) as (_ & T2 & _). exists k. split; [done|].
    assert (Hgone : ts_EntityID t ∈ gone) by (apply Hts, list_elem_of_fmap; eauto).
    split; [destruct (Hg _ Hgone) as (e & -> & _); eauto|]. rewrite Hk. by rewrite decide_True.
Qed.

(** ** The operations that remove rows *)

Definition ent_node (e : Entity) : Node := mkNode (ent_StorageID e) (ent_ParentID e).

Definition tree_kind (table : treeTable) : EntityType :=
  match table with treeLocations => EntityLocation | treeCategories => EntityCategory end.

Lemma tree_rows table d : tree_nodes table d = ent_node <$> rows (tree_kind table) d.
Proof. destruct table; cbn; rewrite <- map_fmap_compose; by apply map_fmap_ext. Qed.

Lemma node_row table d id n :
  tree_nodes table d !! id = Some n -> exists e, rows (tree_kind table) d !! id = Some e /\ n = ent_node e.
Proof. rewrite tree_rows, lookup_fmap. intros H. apply fmap_Some in H as (e & He & ->). eauto. Qed.

(** What hangs below a node is of its storage. *)
Lemma up_storage table d k x y n :
  rooted d -> up (tree_nodes table d) k x = Some y -> tree_nodes table d !! y = Some n ->
  exists e, rows (tree_kind table) d !! x = Some e /\ ent_StorageID e = n_storage n.
Proof.
  intros R. revert x. induction k as [|k IH]; intros x Hu Hy.
  - injection Hu as ->. apply node_row in Hy as (e & He & ->). eauto.
  - cbn in Hu. unfold parent_of in Hu at 1. destruct (tree_nodes table d !! x) as [m|] eqn:Hx; [|done].
    cbn in Hu. destruct (n_parent m) as [p|] eqn:Hp; [|done]. apply node_row in Hx as (e & He & ->).
    destruct (IH p Hu Hy) as (ep & Hep & Es). exists e. split; [done|].
    destruct (R _ _ _ _ He Hp) as (e2 & He2 & Es2). assert (e2 = ep) as -> by congruence. congruence.
Qed.

(** A removal of [gone] keeps the trees whole when it is closed downwards. *)
Lemma rooted_removal d d' k (gone : gset uuid) :
  (forall k', k' ≠ k -> rows k' d' = rows k' d) ->
  (forall id, rows k d' !! id = if decide (id ∈ gone) then None else rows k d !! id) ->
  (forall id e p, rows k d !! id = Some e -> ent_ParentID e = Some p -> p ∈ gone -> id ∈ gone) ->
  rooted d -> rooted d'.
Proof.
  intros Ho Hk Hc R k' id e p He Hp. unfold parent_row. destruct (decide (k' = k)) as [->|Hne].
  - rewrite Hk in He. destruct (decide (id ∈ gone)); [done|]. destruct (R _ _ _ _ He Hp) as (ep & Hep & Es).
    exists ep. rewrite Hk. destruct (decide (p ∈ gone)); [|done]. exfalso. eauto.
  - rewrite Ho in He |- * by done. by eapply R.
Qed.

Lemma rows_tombstones f k d : rows k (set_tombstones f d) = rows k d.
Proof. by destruct k. Qed.

(** A deletion in a tree, with the tombstones of the walk. *)
Lemma tree_removal table d d' st id n ids s ts :
  let nodes := tree_nodes table d in let gone := below nodes id in
  rooted d -> nodes !! id = Some n -> n_storage n = st -> gone ⊆ list_to_set (subtree nodes id) ->
  (forall k', k' ≠ tree_kind table -> rows k' d' = rows k' d) ->
  (forall i, rows (tree_kind table) d' !! i = if decide (i ∈ gone) then None else rows (tree_kind table) d !! i) ->
  db_tombstones d' = db_tombstones d ++ ts -> map ts_EntityID ts = subtree nodes id ->
  Forall (fun t => ts_StorageID t = st /\ ts_EntityType t = entity_name (tree_kind table) /\ ts_DeletedAt t = s) ts ->
  tracked s ids d d' /\ rooted d'.
Proof.
  intros nodes gone R Hn Hst Hreach Ho Hk Et Ei Hf. split.
  - apply (tracked_removal s ids d d' (tree_kind table) st gone ts); [done | done | done | | done |].
    + intros i. rewrite Ei. split; [|intros Hi; apply (elem_of_list_to_set (C := gset uuid)); by apply Hreach].
      intros Hi. apply elem_of_subtree in Hi as (Hid & k & _ & Hu). apply elem_of_below. eauto.
    + intros i Hi. apply elem_of_below in Hi as (_ & k & Hu).
      destruct (up_storage table d k i id n R Hu Hn) as (e & He & Es). exists e. split; [done | congruence].
  - apply (rooted_removal d d' (tree_kind table) gone); [done | done | | done].
    intros i e p He Hp Hin. apply elem_of_below in Hin as (Hid & k & Hu). apply elem_of_below. split; [done|].
    exists (S k). cbn. unfold parent_of at 1. unfold nodes. rewrite tree_rows, lookup_fmap, He. cbn. rewrite Hp. cbn.
    rewrite <- tree_rows. exact Hu.
Qed.

Lemma lookup_removed {V W} (f : V -> W) (m : gmap uuid V) (gone : gset uuid) i :
  (f <$> base.filter (fun kv : uuid * V => kv.1 ∉ gone) m) !! i = if decide (i ∈ gone) then None else (f <$> m) !! i.
Proof.
  rewrite !lookup_fmap, map_lookup_filter. destruct (m !! i) as [v|]; cbn; [|by destruct (decide (i ∈ gone))].
  destruct (decide (i ∈ gone)); [rewrite option_guard_False | rewrite option_guard_True]; tauto || done.
Qed.

Lemma DeleteLocation_tracked st id w u w' ids :
  DeleteLocation st id w = (Ok u, w') -> tombstones_reach (OpDeleteLocation st id) (wdb w) -> rooted (wdb w) ->
  tracked (wnow w) ids (wdb w) (wdb w') /\ rooted (wdb w').
Proof.
  intros H Hreach R. apply DeleteLocation_ok in H as ((n & Hn & Hs) & _ & w1 & H1 & H2).
  apply delete_location_ok in H1 as (_ & ->). apply recordTombstones_frame in H2 as (ts & -> & Ei & Hf & _).
  apply (tree_removal treeLocations (wdb w) _ st id n ids _ ts); [done.. | | | done | done | done].
  - by intros [].
  - intros i. rewrite rows_tombstones. apply lookup_removed.
Qed.

Lemma DeleteCategory_tracked st id w u w' ids :
  DeleteCategory st id w = (Ok u, w') -> tombstones_reach (OpDeleteCategory st id) (wdb w) -> rooted (wdb w) ->
  tracked (wnow w) ids (wdb w) (wdb w') /\ rooted (wdb w').
Proof.
  unfold DeleteCategory. intros H Hreach R. tx_inv1 H. tx_next H by requireSameStorage_ok as (-> & n & Hn & Hs).
  tx_next H by get_db_ok as [-> ->]. tx_next H by require_ok as [_ ->]. apply bind_ok in H as (? & w1 & H1 & H).
  unfold delete_category in H1. tx_next H1 by get_db_ok as [-> ->]. tx_next H1 by require_ok as [_ ->].
  apply modify_ok in H1 as ->. apply recordTombstones_frame in H as (ts & -> & Ei & Hf & _).
  apply (tree_removal treeCategories (wdb w) _ st id n ids _ ts); [done.. | | | done | done | done].
  - by intros [].
  - intros i. rewrite rows_tombstones. apply lookup_removed.
Qed.

(** A product that goes, with its tombstone. *)
Lemma product_removal d d' st id p ids s ts :
  db_products d !! id = Some p -> prod_StorageID p = st ->
  (forall k', k' ≠ EntityProduct -> rows k' d' = rows k' d) -> db_products d' = delete id (db_products d) ->
  db_tombstones d' = db_tombstones d ++ ts -> map ts_EntityID ts = [id] ->
  Forall (fun t => ts_StorageID t = st /\ ts_EntityType t = TombstoneProduct /\ ts_DeletedAt t = s) ts ->
  rooted d -> tracked s ids d d' /\ rooted d'.
Proof.
  intros Hp Hst Ho Ed Et Ei Hf R.
  assert (Hk : forall i, rows EntityProduct d' !! i = if decide (i ∈ ({[id]} : gset uuid)) then None else rows EntityProduct d !! i).
  { intros i. cbn. rewrite Ed, fmap_delete, lookup_delete. by destruct (decide (id = i)), (decide (i ∈ {[id]})); set_solver. }
  split.
  - apply (tracked_removal s ids d d' EntityProduct st {[id]} ts); [done | done | done | | done |].
    + intros i. rewrite Ei. set_solver.
    + intros i Hi. apply elem_of_singleton in Hi as ->. exists (EProduct p). cbn. by rewrite lookup_fmap, Hp.
  - apply (rooted_removal d d' EntityProduct {[id]}); [done | done | | done].
    intros i e q He Hq. cbn in He. rewrite lookup_fmap in He. apply fmap_Some in He as (? & _ & ->). done.
Qed.

Lemma DeleteProduct_tracked st id w r w' ids :
  DeleteProduct st id w = (Ok r, w') -> rooted (wdb w) -> tracked (wnow w) ids (wdb w) (wdb w') /\ rooted (wdb w').
Proof.
  intros H R. apply DeleteProduct_ok in H as (p & Hp & H & _). apply product_in_storage_some in Hp as [Hp Hs].
  apply recordTombstones_frame in H as (ts & -> & Ei & Hf & _).
  by apply (product_removal (wdb w) _ st id p ids _ ts); [done | done | intros [] | ..].
Qed.

(** Edits of rows that are there, after a removal. *)
Lemma tracked_edited s ids d d1 d2 : tracked s ids d d1 -> edited s [] d1 d2 -> tracked s ids d d2.
Proof.
  intros (T1 & T2 & T3 & T4) (Et & _ & E).
  assert (Hnew : forall k id, rows k d1 !! id = None -> rows k d2 !! id = None).
  { intros k id H0. destruct (rows k d2 !! id) as [e|] eqn:He; [|done]. destruct (E k) as [_ En].
    destruct (En id e H0 He) as [Hin _]. by apply not_elem_of_nil in Hin. }
  assert (Hold : forall k id, rows k d2 !! id = None -> rows k d1 !! id = None).
  { intros k id H0. destruct (rows k d1 !! id) as [e|] eqn:He; [|done]. destruct (E k) as [Ek _].
    destruct (Ek id e He) as (e' & He' & _). congruence. }
  split; [|split; [|split]].
  - intros k id e2 He2. destruct (rows k d1 !! id) as [e1|] eqn:He1; [|by rewrite Hnew in He2].
    destruct (E k) as [Ek _]. destruct (Ek id e1 He1) as (e2' & He2' & Es & C). assert (e2' = e2) as -> by congruence.
    destruct (T1 k id e1 He1) as [(e & He & Es1 & C1)|(Hn & Hin & Hs)].
    + left. exists e. split; [done|]. split; [congruence|]. destruct C as [->|]; auto.
    + right. split; [done|]. split; [done|]. destruct C as [->|]; auto.
  - intros k id e He He2. rewrite Et. eapply T2; eauto.
  - intros t. rewrite Et. auto.
  - intros t. rewrite Et. intros Ht. destruct (T4 t Ht) as [|(k & K1 & K2 & K3)]; [by left|]. right. exists k. auto.
Qed.

Lemma MergeProducts_tracked st s source w r w' ids :
  MergeProducts st s source w = (Ok r, w') -> rooted (wdb w) -> tracked (wnow w) ids (wdb w) (wdb w') /\ rooted (wdb w').
Proof.
  intros H R. apply MergeProducts_ok in H as (Hne & ps & pq & f & ts & Hs & Hq & _ & Ei & Hf & E & _).
  apply product_in_storage_some in Hs as [Hs _]. apply product_in_storage_some in Hq as [Hq Eq].
  set (D := merged_db s source (Resolve (rules_of (wdb w) st ps)) f ts (wdb w)) in *.
  destruct (product_removal (wdb w) D st source pq ids (wnow w) ts) as [T RD]; [done | done | by intros [] | done.. |].
  assert (ED : edited (wnow w) [] D (set_products (<[s := touch_product (wnow w) ps]>) D)).
  { apply product_row. assert (Es : db_products D !! s = Some ps).
    { change (db_products D) with (delete source (db_products (wdb w))). by rewrite lookup_delete_ne. }
    rewrite Es. cbn. auto. }
  rewrite E. split; [by eapply tracked_edited | by apply ED].
Qed.

Definition is_sweep (o : Op) : bool := match o with OpSweepTombstones _ => true | _ => false end.

Lemma exec_tracked o w r w' :
  exec o w = (r, w') -> tombstones_reach o (wdb w) -> rooted (wdb w) -> is_sweep o = false ->
  wnow w' = wnow w /\ exists used, wids w = used ++ wids w' /\
    tracked (wnow w) used (wdb w) (wdb w') /\ rooted (wdb w').
Proof.
  intros H Hr R Hs. destruct (removes o) eqn:E.
  2: { destruct (edits_exec (wnow w) o E w r w' eq_refl H) as (En & used & Eu & D). split; [done|].
       exists used. split; [done|]. split; [by apply edited_tracked | by apply D]. }
  destruct (drains_exec o ltac:(by intros d ->) w r w' H) as (En & used & Eu). split; [done|]. exists used. split; [done|].
  destruct r as [u|e].
  - destruct o; try discriminate E; try discriminate Hs; try done; cbn [exec] in H.
    + by eapply DeleteLocation_tracked.
    + by eapply DeleteCategory_tracked.
    + apply void_ok in H as (x & H). by eapply DeleteProduct_tracked.
    + apply void_ok in H as (x & H). by eapply MergeProducts_tracked.
  - assert (C : clean (exec o)) by (apply clean_exec; by destruct o).
    rewrite (C _ _ _ H). split; [apply edited_tracked, edited_refl | done].
Qed.

(** ** What a client may still be missing *)

Definition tombstone_of (k : EntityType) (st id : uuid) (t : Tombstone) : Prop :=
  ts_StorageID t = st /\ ts_EntityType t = entity_name k /\ ts_EntityID t = id.

(** A client that holds [x] for a row is right, or the row is stamped [a] or later,
    or the row is gone and a tombstone of [b] or later says so, or a sweep may have
    taken that tombstone. *)
Definition explained (k : EntityType) (st : uuid) (d : DB) (swept a b : Z) (x : option Entity) (id : uuid) : Prop :=
  x = served k st d !! id \/
  (exists e, served k st d !! id = Some e /\ a <= ent_UpdatedAt e) \/
  (served k st d !! id = None /\
   ((exists t, t ∈ db_tombstones d /\ tombstone_of k st id t /\ b <= ts_DeletedAt t) \/ b + TombstoneRetention < swept)).

Lemma served_lookup k st d id e : served k st d !! id = Some e <-> rows k d !! id = Some e /\ ent_StorageID e = st.
Proof. unfold served. apply map_lookup_filter_Some. Qed.

Lemma served_None k st d id e : served k st d !! id = None -> rows k d !! id = Some e -> ent_StorageID e ≠ st.
Proof. intros H He Es. assert (served k st d !! id = Some e) by by apply served_lookup. congruence. Qed.

(** Any transaction begun late enough leaves what it does explained. *)
Lemma explained_tracked k st s ids d d' z a b x id :
  a <= s -> b <= s -> tracked s ids d d' -> explained k st d z a b x id -> explained k st d' z a b x id.
Proof.
  intros Ha Hb (T1 & T2 & T3 & _) H. destruct (served k st d' !! id) as [e'|] eqn:He'.
  - apply served_lookup in He' as He2. destruct He2 as [He2 Es].
    destruct (T1 _ _ _ He2) as [(e & He & Ese & C)|(_ & _ & Hs)]; [|right; left; exists e'; split; [done | lia]].
    destruct C as [->|Hs]; [|right; left; exists e'; split; [done | lia]].
    assert (Hd : served k st d !! id = Some e) by (apply served_lookup; by split).
    destruct H as [->|[(e2 & He3 & Hle)|[Hn _]]]; [left; congruence | right; left | congruence].
    exists e. split; [done|]. congruence.
  - destruct (served k st d !! id) as [e|] eqn:He.
    + apply served_lookup in He as [He Es]. right. right. split; [done|]. left.
      assert (Hgone : rows k d' !! id = None).
      { destruct (rows k d' !! id) as [e'|] eqn:He2; [|done]. exfalso. apply (served_None _ _ _ _ _ He' He2).
        destruct (T1 _ _ _ He2) as [(e2 & He3 & Es2 & _)|(Hn & _)]; congruence. }
      destruct (T2 _ _ _ He Hgone) as (t & Ht & E1 & E2 & E3 & E4). exists t. split; [done|].
      split; [by split_and!; [congruence | ..] | lia].
    + destruct H as [->|[(e & He2 & _)|(_ & H)]]; [left; congruence | congruence |].
      right. right. split; [done|]. destruct H as [(t & Ht & Hb2 & Hle)|Hz]; [left; eauto | by right].
Qed.

Lemma explained_sweep k st d z t a b x id :
  explained k st d z a b x id ->
  explained k st (set_tombstones (base.filter (fun ts => ~ ts_DeletedAt ts < t - TombstoneRetention)) d) (Z.max z t) a b x id.
Proof.
  match goal with |- _ -> explained _ _ (set_tombstones ?f d) _ _ _ _ _ =>
    assert (Es : served k st (set_tombstones f d) = served k st d) by (unfold served; by rewrite rows_tombstones) end.
  unfold explained. rewrite Es. intros [H|[H|(Hn & H)]]; [by left | by right; left |]. right. right. split; [done|].
  destruct H as [(ts & Hts & Hof & Hle)|Hz]; [|right; lia].
  destruct (decide (ts_DeletedAt ts < t - TombstoneRetention)) as [Hlt|Hge]; [right; lia|].
  left. exists ts. split; [|done]. cbn. by apply list_elem_of_filter.
Qed.

(** ** The three reads *)

Lemma changed_lookup k st since d id :
  changedSince k st since d !! id =
  match served k st d !! id with Some e => if decide (since <= ent_UpdatedAt e) then Some e else None | None => None end.
Proof.
  unfold changedSince, served. rewrite !map_lookup_filter. destruct (rows k d !! id) as [e|]; [|done]. cbn.
  destruct (decide (ent_StorageID e = st)) as [Es|Es].
  - rewrite (option_guard_True (ent_StorageID e = st)) by done. cbn.
    destruct (decide (since <= ent_UpdatedAt e)); [rewrite option_guard_True | rewrite option_guard_False]; tauto || done.
  - rewrite (option_guard_False (ent_StorageID e = st)) by done. rewrite option_guard_False; tauto || done.
Qed.

Lemma elem_of_deletedSince k st since d id :
  id ∈ deletedSince k st since d <-> exists t, t ∈ db_tombstones d /\ tombstone_of k st id t /\ since <= ts_DeletedAt t.
Proof.
  unfold deletedSince, tombstone_of. rewrite list_elem_of_fmap.
  assert (P : forall l (t : Tombstone), t ∈ merge_sort earlier l <-> t ∈ l) by (intros; by rewrite merge_sort_Permutation).
  setoid_rewrite P. setoid_rewrite list_elem_of_filter. split.
  - intros (t & -> & (H1 & H2 & H3) & H). exists t. auto.
  - intros (t & H & (H1 & H2 & H3) & H4). exists t. auto.
Qed.

Lemma apply_delta_lookup dl c id :
  apply_delta dl c !! id = if decide (id ∈ dl_Deleted dl) then None else (dl_Changed dl ∪ c) !! id.
Proof.
  unfold apply_delta. induction (dl_Deleted dl) as [|i l IH]; cbn [foldr].
  - by rewrite decide_False by apply not_elem_of_nil.
  - rewrite lookup_delete. destruct (decide (i = id)) as [->|Hne].
    + rewrite decide_True by left. done.
    + rewrite IH. destruct (decide (id ∈ l)) as [H|H]; [rewrite decide_True by by right | rewrite decide_False]; [done..|].
      intros Hin. apply elem_of_cons in Hin as [->|]; [done | auto].
Qed.

(** The changed rows correct what a client holds of the rows that are there. *)
Lemma explained_list k st d z since wm c id :
  explained k st d z since since (c !! id) id -> explained k st d z wm since ((changedSince k st since d ∪ c) !! id) id.
Proof.
  unfold explained. rewrite lookup_union, changed_lookup. intros H. destruct (served k st d !! id) as [e|] eqn:He.
  - left. destruct H as [->|[(e2 & [= <-] & Hle)|[? _]]]; [| |done].
    + destruct (decide (since <= ent_UpdatedAt e)); [by rewrite union_Some_l | by rewrite option_union_left_id].
    + rewrite decide_True by done. by rewrite union_Some_l.
  - rewrite option_union_left_id. destruct H as [H|[(e2 & ? & _)|H]]; [by left | done | by right; right].
Qed.

(** The tombstones finish it, and the watermark is the new cursor. *)
Lemma explained_receive k st d z since wm ch c id :
  buried d -> z <= since + TombstoneRetention ->
  explained k st d z wm since ((ch ∪ c) !! id) id ->
  explained k st d z wm wm (apply_delta (mkDelta ch (deletedSince k st since d) wm) c !! id) id.
Proof.
  intros Hb Hz H. rewrite apply_delta_lookup. cbn [dl_Deleted dl_Changed].
  destruct (decide (id ∈ deletedSince k st since d)) as [Hin|Hout].
  - left. apply elem_of_deletedSince in Hin as (t & Ht & (E1 & E2 & E3) & _).
    destruct (served k st d !! id) as [e|] eqn:He; [|done]. apply served_lookup in He as [He _].
    rewrite <- E3, (Hb t k Ht E2) in He. done.
  - destruct H as [H|[H|(_ & [H|H])]]; [by left | by right; left | | lia].
    exfalso. apply Hout. by apply elem_of_deletedSince.
Qed.

(** ** The invariant of a run *)

Lemma tracked_fresh s used w w' :
  wids w = used ++ wids w' -> tracked s used (wdb w) (wdb w') -> fresh_ids w -> buried (wdb w) ->
  fresh_ids w' /\ buried (wdb w').
Proof.
  intros Eu (T1 & _ & _ & T4) (Hnd & Hf) Hb. rewrite Eu in Hnd, Hf. apply NoDup_app in Hnd as (_ & Hdis & Hnd).
  assert (Hold : forall t, t ∈ db_tombstones (wdb w) -> ts_EntityID t ∉ used).
  { intros t Ht Hin. destruct (Hf (ts_EntityID t)) as [_ Hn]; [apply elem_of_app; by left|].
    apply Hn, list_elem_of_fmap. eauto. }
  split; [split; [exact Hnd|]|].
  - intros id Hid. destruct (Hf id) as [Hrow Hts]; [apply elem_of_app; by right|]. split.
    + intros k. destruct (rows k (wdb w') !! id) as [e|] eqn:He; [|done]. exfalso.
      destruct (T1 _ _ _ He) as [(e0 & He0 & _)|(_ & Hin & _)]; [rewrite Hrow in He0; done | by apply (Hdis id)].
    + intros Hin. apply list_elem_of_fmap in Hin as (t & -> & Ht).
      destruct (T4 t Ht) as [Ht0|(k & _ & [e He] & _)]; [|rewrite Hrow in He; done].
      apply Hts, list_elem_of_fmap. eauto.
  - intros t k Ht Hk. destruct (rows k (wdb w') !! ts_EntityID t) as [e|] eqn:He; [|done]. exfalso.
    destruct (T4 t Ht) as [Ht0|(k' & Hk' & _ & Hn)].
    + destruct (T1 _ _ _ He) as [(e0 & He0 & _)|(_ & Hin & _)]; [rewrite (Hb t k Ht0 Hk) in He0; done|].
      by apply (Hold t).
    + rewrite Hk in Hk'. apply entity_name_inj in Hk' as ->. congruence.
Qed.

(** Nothing in flight, and nothing to come, is stamped before [c]. *)
Definition late (w : World) (i : gmap uuid Z) (c : Z) : Prop := c <= wnow w /\ forall x t, i !! x = Some t -> c <= t.

Definition request_inv (k : EntityType) (st : uuid) (s : Sync) : Prop :=
  let d := wdb (sy_world s) in
  let late := late (sy_world s) (sy_inflight s) in
  match sy_request s with
  | Idle since => late since /\ forall id, explained k st d (sy_swept s) since since (sy_cache s !! id) id
  | Fetching wm => late wm
  | Asked since wm => late since /\ late wm /\ wm <= since + TombstoneRetention /\
      forall id, explained k st d (sy_swept s) since since (sy_cache s !! id) id
  | Listed since wm ch => late since /\ late wm /\ wm <= since + TombstoneRetention /\
      forall id, explained k st d (sy_swept s) wm since ((ch ∪ sy_cache s) !! id) id
  end.

Definition sync_inv (k : EntityType) (st : uuid) (s : Sync) : Prop :=
  fresh_ids (sy_world s) /\ buried (wdb (sy_world s)) /\ rooted (wdb (sy_world s)) /\
  (sy_outrun s = false -> request_inv k st s).

Lemma foldr_min_le n l : foldr Z.min n l <= n /\ forall x, x ∈ l -> foldr Z.min n l <= x.
Proof.
  induction l as [|y l [IH1 IH2]]; cbn; [split; [lia | by intros x ?%not_elem_of_nil]|].
  split; [lia|]. intros x Hx. apply elem_of_cons in Hx as [->|Hx]; [lia|]. specialize (IH2 x Hx). lia.
Qed.

Lemma late_watermark s : late (sy_world s) (sy_inflight s) (watermark s).
Proof.
  unfold late, watermark, deltaWatermark. destruct (foldr_min_le (wnow (sy_world s)) (starts s)) as [H1 H2].
  split; [exact H1|]. intros x t Hx. apply H2. unfold starts. apply list_elem_of_fmap. exists (x, t).
  split; [done | by apply elem_of_map_to_list].
Qed.

(** What a step of the server does to what every request relies on. *)
Lemma request_inv_server k st w w' i i' c q z z' o :
  (forall n, late w i n -> late w' i' n) ->
  (forall a b x id, late w i a -> late w i b -> explained k st (wdb w) z a b x id -> explained k st (wdb w') z' a b x id) ->
  request_inv k st (mkSync w i c q z o) -> request_inv k st (mkSync w' i' c q z' o).
Proof.
  intros Hl He. unfold request_inv. cbn. destruct q as [since|wm|since wm|since wm ch]; [| auto | |].
  - intros (L & H). auto 6.
  - intros (L1 & L2 & Hle & H). auto 8.
  - intros (L1 & L2 & Hle & H). auto 8.
Qed.

Lemma commit_inv k st x t op r w' w i c q z o :
  i !! x = Some t -> tombstones_reach op (wdb w) -> exec op (begun_at t w) = (r, w') ->
  sync_inv k st (mkSync w i c q z o) ->
  sync_inv k st (mkSync (begun_at (wnow w) w') (delete x i) c q (swept_by op z) o).
Proof.
  intros Hx Hreach H (Hf & Hb & R & Hq). cbn in *.
  assert (Hl : forall n, late w i n -> late (begun_at (wnow w) w') (delete x i) n).
  { intros n [L1 L2]. split; [done|]. intros y u Hy. apply lookup_delete_Some in Hy as [_ Hy]. eauto. }
  destruct (is_sweep op) eqn:Es.
  - destruct op; try discriminate Es. cbn [exec] in H. unfold void, SweepTombstones in H. injection H as _ <-.
    cbn [swept_by begun_at wdb wids wnow wclock with_db sy_world]. split; [|split; [|split]].
    + destruct Hf as [Hnd Hf]. split; [done|]. intros id Hid. destruct (Hf id Hid) as [H1 H2]. split.
      * intros k'. cbn -[rows set_tombstones]. by rewrite rows_tombstones.
      * intros Hin. apply H2. apply list_elem_of_fmap in Hin as (ts & -> & Hts). apply list_elem_of_filter in Hts as [_ Hts].
        apply list_elem_of_fmap. eauto.
    + intros ts k' Hts Hk. cbn -[rows set_tombstones]. rewrite rows_tombstones. apply list_elem_of_filter in Hts as [_ Hts]. by apply Hb.
    + intros k' id e p. cbn -[rows set_tombstones parent_row]. unfold parent_row. rewrite rows_tombstones. apply R.
    + intros Ho. eapply request_inv_server; [exact Hl | | exact (Hq Ho)]. intros a b y id _ _. apply explained_sweep.
  - destruct (exec_tracked op (begun_at t w) r w' H Hreach R Es) as (_ & used & Eu & T & R').
    destruct (tracked_fresh t used (begun_at t w) w' Eu T Hf Hb) as [Hf' Hb'].
    split; [exact Hf'|]. split; [exact Hb'|]. split; [exact R'|]. intros Ho.
    replace (swept_by op z) with z by by destruct op.
    eapply request_inv_server; [exact Hl | | exact (Hq Ho)]. intros a b y id [_ L1] [_ L2]. cbn.
    apply (explained_tracked k st t used); eauto.
Qed.

Lemma sync_step_inv k st s s' : sync_step k st s s' -> sync_inv k st s -> sync_inv k st s'.
Proof.
  destruct 1 as [d w i c q z o Hd|x w i c q z o Hx|x t op r w' w i c q z o Hx Hreach H|since w i c z o s Hr|since w i c z o s Hr
    |wm w i c z o|since wm w i c z o|since wm ch w i c z o].
  3: by eapply commit_inv.
  all: intros (Hf & Hb & R & Hq); (split; [exact Hf|]); (split; [exact Hb|]); (split; [exact R|]); intros Ho; cbn in Ho.
  - eapply request_inv_server; [| | exact (Hq Ho)]; [|done]. intros n [L1 L2]. split; [cbn; lia | done].
  - eapply request_inv_server; [| | exact (Hq Ho)]; [|done]. intros n [L1 L2]. split; [done|].
    intros y t Hy. apply lookup_insert_Some in Hy as [[_ <-]|[_ Hy]]; [done | eauto].
  - destruct (Hq Ho) as (L & He). pose proof (late_watermark s) as Lw. unfold request_inv. cbn.
    split; [exact L|]. split; [exact Lw|]. split; [|exact He].
    unfold DeltaIsResumable in Hr. apply negb_true_iff, Z.ltb_ge in Hr. lia.
  - exact (late_watermark s).
  - specialize (Hq Ho). unfold request_inv in *. cbn in *. split; [exact Hq|]. intros id. by left.
  - destruct (Hq Ho) as (L1 & L2 & Hle & He). unfold request_inv. cbn. split_and!; [done.. |].
    intros id. apply explained_list, He.
  - apply orb_false_iff in Ho as [Ho Hz]. apply Z.ltb_ge in Hz. destruct (Hq Ho) as (L1 & L2 & Hle & He). unfold request_inv. cbn in *.
    split; [done|]. intros id. apply explained_receive; [exact Hb | lia | apply He].
Qed.

Lemma sync_run_inv k st s s' : rtc (sync_step k st) s s' -> sync_start s -> sync_inv k st s'.
Proof.
  intros Hrun (Hf & Hb & R & Ho & Hq). assert (I : sync_inv k st s).
  { split_and!; [done.. |]. intros _. unfold request_inv. rewrite Hq. apply late_watermark. }
  clear Hf Hb R Ho Hq. induction Hrun as [|s1 s2 s3 H12 _ IH]; [done|]. apply IH. by eapply sync_step_inv.
Qed.

(** A delta taken with nothing in between. *)
Lemma explained_sync k st d z since c wm id :
  buried d -> z <= since + TombstoneRetention -> explained k st d z since since (c !! id) id ->
  apply_delta (mkDelta (changedSince k st since d) (deletedSince k st since d) wm) c !! id = served k st d !! id.
Proof.
  intros Hb Hz H. rewrite apply_delta_lookup. cbn [dl_Deleted dl_Changed].
  destruct (decide (id ∈ deletedSince k st since d)) as [Hin|Hout].
  - apply elem_of_deletedSince in Hin as (t & Ht & (E1 & E2 & E3) & _).
    destruct (served k st d !! id) as [e|] eqn:He; [|done]. apply served_lookup in He as [He _].
    rewrite <- E3, (Hb t k Ht E2) in He. done.
  - rewrite lookup_union, changed_lookup. destruct H as [->|[(e & He & Hle)|(Hn & [H|H])]].
    + destruct (served k st d !! id) as [e|]; [|done]. case_decide; [by rewrite union_Some_l | by rewrite option_union_left_id].
    + rewrite He, decide_True by done. by rewrite union_Some_l.
    + exfalso. apply Hout. by apply elem_of_deletedSince.
    + lia.
Qed.


(** ** Runs *)

(** One storage with two products. *)
Definition two_products : World :=
  mkWorld (set_products (fun _ => {[ 5 := mkProduct 1 "Salt" None None LongShelfLife None 0 None None 0 0;
                                     6 := mkProduct 1 "Rice" None None LongShelfLife None 0 None None 0 0 ]})
             (set_storage_rows (fun _ => {[1 := mkStorage "Home" 0]}) empty_db)) [100; 101; 102; 103] 0 0.

Definition delete_salt : Op := OpDeleteProduct 1 5.

(** The world some time later. *)
Definition later (n : Z) (w : World) : World := mkWorld (wdb w) (wids w) (wnow w + n) (wclock w + n).

Definition sync0 : Sync := mkSync two_products ∅ ∅ (Fetching 0) 0 false.

Lemma sync0_start : sync_start sync0.
Proof.
  split; [|split; [|split; [|by split]]].
  - split; [by apply (bool_decide_unpack _); vm_compute|]. intros id Hid. cbn in Hid. split; [|by apply not_elem_of_nil].
    intros k. repeat (apply elem_of_cons in Hid as [->|Hid]; [by destruct k|]). by apply not_elem_of_nil in Hid.
  - intros t k Ht. by apply not_elem_of_nil in Ht.
  - intros k id e p He Hp. destruct k; unfold rows in He; rewrite lookup_fmap in He;
      apply fmap_Some in He as (x & Hx & ->); cbn [sync0 sy_world two_products wdb set_products set_storage_rows empty_db db_categories db_locations] in Hx; [done | by rewrite lookup_empty in Hx..].
Qed.

(** A transaction that begins and commits at once. *)
Lemma commit_now k st op w i c q z o x :
  i !! x = None -> tombstones_reach op (wdb w) ->
  rtc (sync_step k st) (mkSync w i c q z o)
    (mkSync (begun_at (wnow w) (exec op (begun_at (wnow w) w)).2) i c q (swept_by op z) o).
Proof.
  intros Hx Hreach. eapply rtc_l; [by apply (st_begin _ _ x)|]. apply rtc_once.
  destruct (exec op (begun_at (wnow w) w)) as [r w'] eqn:E.
  rewrite <- (delete_insert_id i x (wnow w)) at 2 by done.
  eapply st_commit; [apply lookup_insert_eq | exact Hreach | exact E].
Qed.

(** The salt is deleted while the client is between two requests. *)
Definition after_delete : World := begun_at 1 (exec delete_salt (begun_at 1 (later 1 two_products))).2.

Definition sync1 : Sync := mkSync after_delete ∅ (served EntityProduct 1 (wdb two_products)) (Idle 0) 0 false.

Lemma sync1_reached : rtc (sync_step EntityProduct 1) sync0 sync1.
Proof.
  eapply rtc_l; [apply st_fetch|]. eapply rtc_l; [by apply (st_tick _ _ 1)|].
  apply (commit_now EntityProduct 1 delete_salt (later 1 two_products) ∅ (served EntityProduct 1 (wdb two_products)) (Idle 0) 0 false 9); done.
Qed.


(** ** Where the promise ends *)

(** Thirty days later, with a transaction that began two nanoseconds ago in flight,
    the nightly sweep takes the tombstone of the salt. *)
Definition month_later : World := later (TombstoneRetention - 1) after_delete.
Definition sweep : Op := OpSweepTombstones (TombstoneRetention + 2).
Definition two_later : World := later 2 month_later.
Definition swept_world : World := begun_at (wnow two_later) (exec sweep (begun_at (wnow two_later) two_later)).2.

Definition sync2 : Sync :=
  mkSync swept_world (<[7 := wnow month_later]> ∅) (sy_cache sync1) (Idle 0) (swept_by sweep 0) false.

Lemma sync2_reached : rtc (sync_step EntityProduct 1) sync0 sync2.
Proof.
  etransitivity; [apply sync1_reached|]. eapply rtc_l; [apply (st_tick _ _ (TombstoneRetention - 1)); by vm_compute|].
  eapply rtc_l; [by apply (st_begin _ _ 7)|]. eapply rtc_l; [by apply (st_tick _ _ 2)|].
  exact (commit_now EntityProduct 1 sweep two_later (<[7 := wnow month_later]> ∅) (sy_cache sync1) (Idle 0) 0 false 9
    eq_refl I).
Qed.

(** The resync boundary is checked against the watermark, the sweep runs against
    the clock: while a transaction is in flight a cursor can lie between the two.
    In the run shown such a cursor is accepted, the delta is complete but for a
    tombstone the sweep has taken, and the client keeps a deleted product that no
    later delta will mention. *)
Theorem sweep_outruns_watermark :
  exists s since, rtc (sync_step EntityProduct 1) sync0 s /\ sy_request s = Idle since /\
    is_Some (sy_cache s !! 5) /\ served EntityProduct 1 (wdb (sy_world s)) !! 5 = None /\
    db_tombstones (wdb (sy_world s)) = [] /\ changedSince EntityProduct 1 since (wdb (sy_world s)) = ∅.
Proof.
  eexists _, TombstoneRetention. split.
  - etransitivity; [apply sync2_reached|]. eapply rtc_l; [apply st_ask; by vm_compute|].
    eapply rtc_l; [apply st_list|]. apply rtc_once. apply st_receive.
  - split; [by vm_compute|]. split; [by apply (bool_decide_unpack _); vm_compute|].
    split; [by vm_compute|]. split; by vm_compute.
Qed.

(** Below the 64th level a deletion leaves no tombstones.  A rack of 66 locations
    is deleted whole, each location with everything under it, but the walk that
    collects the tombstones stops at 64: two locations are gone without a trace a
    delta could carry. *)
Theorem deep_delete_leaves_no_tombstone :
  let before := run (rack_ops 66) (rack_world 66) in
  let after := after_rack 66 (OpDeleteLocation 1 1) in
  dom (db_locations (wdb before)) = list_to_set (map Z.of_nat (seq 1 66)) /\
  db_locations (wdb after) = ∅ /\
  map ts_EntityID (db_tombstones (wdb after)) = map Z.of_nat (seq 1 64).
Proof. split_and!; vm_compute; reflexivity. Qed.
